(* ===== verification/_CoqProject ===== *)
-Q . S2P
Prelude.v
GoStd.v
Text.v
Duration.v
Encoding.v
Crypto.v
Password.v
Domain.v
Hub.v
Sql.v
Wp.v
Keeps.v
Schema.v
StoreUsers.v
Accounts.v
Sample.v
AccountLifecycle.v
StoreSessions.v
Mfa.v
Sessions.v
Lockout.v
StoreRelay.v
Relay.v
Delivery.v
Gateway.v
StoreDevices.v
AddressBooks.v
StoreMisc.v
AuditService.v
Automation.v
Strategy.v
Devices.v
Cluster.v
Builds.v
Auth.v
Authentication.v
Http.v
Managed.v
Acl.v
Rbac.v
Inventory.v
Runtime.v
RelayApi.v
Lifecycle.v
AddressBookApi.v
Presence.v
LiveConnections.v
Login.v
Identity.v
ClientBuilds.v
Oidc.v
NetAddress.v
Webhook.v
Config.v
Boot.v
Disk.v
Settings.v
StrategyApi.v
GroupApi.v
Replica.v
Csv.v
DeviceApi.v
Backup.v
ClientAddress.v
Explorer.v
Console.v
System.v
Operations.v
Branding.v
Ldap.v
