(* ===== verification/Prelude.v ===== *)
(** * Remote Control Server: verification library of the art-api control plane

    The program under src/art-api is the control plane of a remote-control
    installation: an HTTP API over one SQL database that keeps accounts,
    sessions, devices, address books, audit and the durable state of the relay
    servers, publishes authorization changes to the rendezvous servers through
    an event hub, talks to the relays over one control connection each, and
    elects one leader per background job among its nodes.  Paths below are
    relative to src/art-api/internal, or to src for those of art-core, the Rust
    library of the rendezvous servers, whose copy of the policy is modelled too.

    ** How the program is modelled

    Go structs are records whose fields carry the struct's name as prefix
    ([User.Enabled] is [user_Enabled]); [domain.Err...] and the other sentinel
    errors are the constructors of [error]; a function that returns [(T, error)]
    returns [res T]; an error that wraps a sentinel is that sentinel.  A method
    of the store runs in the state and error monad [M] of Sql.v over the tables
    [DB] and the event hub [Hub]: one Rocq definition per method, one line per
    SQL statement.  A table is the list of its rows in insertion order; a row is
    the domain struct whose time fields hold the column's milliseconds, which
    the [scan...] definitions convert back.  A JSON text column is kept as the
    value it encodes.  Every statement checks PRIMARY KEY, UNIQUE and REFERENCES
    of the schema and fails without effect when it would break one.  A statement
    may also fail in the driver: the world carries a list of faults that the
    theorems quantify over, so a theorem about all worlds is a theorem about
    every pattern of database failures.  A transaction is rolled back by any
    failure.  Rows that ORDER BY leaves tied keep the order of the table.

    The services are programs of the same monad over the operations of the
    store.  A handler of the API is a program that always ends in a [Reply]: a
    request body is the decoded struct, [None] when it is not the JSON of one;
    the body of a reply is the value that is encoded, and its headers are left
    out where nothing depends on them; a handler reads the clock once, and its
    fresh identifiers come with the [Call]; optional services are the enabled
    ones; numbers in audit metadata are kept as [VOther].  State in
    memory (limiters, the relay gateway, the runtime state, discovered OpenID
    Connect providers) is passed in and out.  Goroutines that meet at a mutex
    are steps of a relation, cut where the mutex is released: [hub_step],
    [gateway_step], the cluster of Cluster.v.  What the network answers, a
    relay, a webhook receiver, an identity provider, a directory, is an argument.
    Boot.v and Disk.v model the disk as a map of files on which every operation
    can fail and a write can be cut short.

    [time.Now()], fresh identifiers, random bytes and environment variables are
    arguments.  A nil slice and an empty one are the same list (Replica.v says
    what JSON makes of the nil ones of a deleted rule).  The iteration
    order of a Go map, and the result of a sort that is not stable, are
    arguments where they matter.

    Code outside the repository is a type class with its documented behaviour as
    fields or named hypotheses, and an executable instance at which the theorems
    that use it are instantiated: [Unicode] (case mapping outside ASCII),
    [SqlText] (LIKE and LOWER of the database), [Argon2], [Jwt], [Aead]
    (AES-GCM), [MailAddress] (net/mail), [Url] and [UrlParser] (net/url), [OIDC]
    (discovery, exchange and verification), [LdapText] (filter escaping), [UUID]
    (uuid.Parse), [Net], [Fmt] (fmt.Sprint of other values), [Sqlite] (what SQLite
    finds in a file), [Image] and [Xml] (the decoders), and of encoding/json what
    is needed of its text: [Json], [EventJson], [BundleJson], [LayoutJson],
    [StringMap].  Of the standard library the following is defined and executable
    instead: times, strings, durations, strconv, base64, base32, hex, CSV, SHA-1,
    SHA-256, HMAC, paths, net.IP and netip.

    ** The files

    Foundations:
    - Prelude.v: record update, results, generic lemmas and tactics.
    - GoStd.v, Text.v, Duration.v, Encoding.v, Crypto.v, Csv.v, NetAddress.v: the
      parts of the Go standard library that are used, with their round trips.
    - Domain.v: domain/models.go.
    - Hub.v: events/hub.go, with interleavings of publishers as a step relation:
      a subscription skips no event of publishers that do not overlap.
    - Sql.v, Wp.v, Keeps.v, Schema.v: tables, statements, transactions; weakest
      preconditions for them and the tactic [wp_go] that runs them symbolically;
      [keeps], programs that keep an invariant of the tables; the constraints of
      [Store.Migrate] as predicates on [DB].

    The store:
    - StoreUsers.v, StoreSessions.v, StoreRelay.v, StoreDevices.v, StoreMisc.v:
      every operation of store/sqlstore on the tables named in their headers.
    - Accounts.v, AccountLifecycle.v: account operations never decrease a token
      version and increase it with every change that must end sessions, keep one
      administrator, and [DeleteUser] leaves nothing that refers to
      the account but API tokens.
    - Sessions.v: revocation is final, one-time credentials are used once, the
      session explorer agrees with the authorization check.
    - Relay.v, Delivery.v: the durable relay delivery: replay, ownership and
      generations; the state machine of a connection, from permitted to archived,
      that the tables refine request by request, the deletion of a relay included.
    - Devices.v, Builds.v: deployed devices, audit summaries, connections; the
      leases of client builds.
    - Sample.v: a small installation at which theorems are instantiated.

    The services:
    - Password.v, Auth.v, Authentication.v: package auth; what [Authenticate]
      accepts, that a login is accepted, that a stale token never is.
    - Mfa.v: mfa/totp.go.  Lockout.v: httpapi/ratelimit.go and
      account_lockout.go: the limiter refines one that forgets nothing.
    - Strategy.v, AddressBooks.v, AuditService.v, Automation.v, Presence.v,
      LiveConnections.v, Managed.v, Webhook.v, Oidc.v: the packages strategy,
      addressbook, audit, automation, presence, connections, managedclient,
      webhook and oidcauth, the last five with their handlers.
    - Cluster.v: cluster/coordinator.go: at most one leader under timely renewal,
      and the schedule that breaks the claim without it; a worker counts until it
      is cancelled.
    - Gateway.v: package relaygateway: replies reach their command, and what a peer
      can make the gateway hold is bounded.
    - Lifecycle.v: the gateway as the server runs it, over the relay tables: what
      it acknowledges to a relay is on record.
    - Config.v, Settings.v, Boot.v: the packages config, runtimeconfig, secret and
      bootstrap: settings survive a restart and stay valid, a secret is made once.
    - Disk.v, Backup.v: more of package os; package backup with its handlers: a
      restore is staged whole, the newest backups are kept.
    - Ldap.v: package ldapauth: no password is sent before TLS, a user name adds
      nothing to the search filter.

    The API (httpapi), in the order of its dependencies:
    - Http.v: replies, the guards of requests and the table of routes.
    - Login.v: the login handler; a second factor cannot be skipped.
    - Rbac.v: accounts and roles; no caller hands out what it does not hold.
    - Acl.v: access rules and their decision.
    - Inventory.v, Identity.v: devices that announce themselves; a deployed
      device keeps its identity under every sequence of requests.
    - Runtime.v, System.v, RelayApi.v: runtime state, processor and memory figures;
      relays and their quarantine.
    - AddressBookApi.v, ClientBuilds.v, StrategyApi.v, GroupApi.v, DeviceApi.v,
      Explorer.v, Console.v: the handlers of the console.
    - Replica.v: the snapshot and the stream of events, and the copy of the policy
      in a rendezvous server (art-core/src/auth/cache.rs, art-core/src/sync.rs):
      one that follows both holds the policy of the tables, as long as it can
      decode the events; the deletion of a rule is not such an event.
    - ClientAddress.v: trusted proxies and the address of a client.
    - Operations.v, Branding.v: diagnostics, metrics, the support bundle; the logo
      and the avatars: a diagnosis loses no secret, the logo is a whole image that
      was accepted.

    ** Bounds and fuel

    Most recursion of the code is structural in the model.  The loops that are
    not have fuel, and a theorem that it is enough where the bound is not written
    in the code: the export of the quarantine ([export_fuel], [export_terminates])
    and of the audit (200 pages of 500, the bound of the code).  Loops the code
    bounds itself keep its bound: 3 attempts at a snapshot, 5 at the identifier of
    a new account, 6 at a delivery.  The parsers of durations and addresses take
    the length of their text (or, for the groups of an IPv6 address, 9) as fuel:
    every step consumes a byte (or a group).

    Bounds of the code are kept as they are written: 500 and 1000 rows per page,
    1024 events of history and 64 per subscriber, 10000 limiter entries before
    pruning, 100000 authorizations per relay.  Integers wrap where the code can
    overflow (durations in nanoseconds, seconds of a lease, the offsets of a
    page) and are unbounded where it only counts.

    Theorems about histories run requests one after the other, each whole, unless
    they say otherwise: Replica.v serves requests between the reads of a
    snapshot, Lifecycle.v interleaves the loops of the gateway with operations of
    the tables, and Identity.v shows what two interleaved deployments do.  Every
    statement may fail in them, except in Replica.v, whose theorem is about rules,
    strategies, groups and members, about bodies that do not set the mark of a
    deleted row, and about a database that does not fail.

    ** Not modelled

    - webui, the cmd programs, the TLS and JSON framing of the relay connections,
      the wiring of the routes to their middleware in [New], and the timers that
      call the modelled steps: static files, start-up and the network.
    - Of the store: Open, Close and the ALTER TABLE helpers: I/O on the database
      file.
    - The Rust servers and the web console are other languages.  Of the cache of a
      rendezvous server the users, sessions, relays and configuration are left
      out, and so is what it decides. *)

From stdpp Require Export base tactics option list list_numbers strings gmap sorting.
From Stdlib Require Export ZArith Lia Permutation.

Open Scope Z_scope.

(** ** Record update

    [r <| field := v |>] is the record [r] with one field replaced, the Go
    assignment [r.field = v] on a copy of [r].  A record type declares its
    eta-expansion once ([Eta]); the setter of each projection is computed from
    it. *)

Class Eta (R : Type) := eta_of : R → R.

Class Setter {R T : Type} (proj : R → T) := set_field : (T → T) → R → R.
Arguments set_field {R T} proj {_} _ _.

Ltac build_setter R T proj :=
  let e := constr:(_ : Eta R) in
  let e := eval hnf in e in
  exact (fun (f : T → T) (r : R) =>
    ltac:(let b := eval cbv beta in (e r) in
          lazymatch (eval pattern (proj r) in b) with
          | ?g _ => let t := eval cbv beta in (g (f (proj r))) in exact t
          end)).

#[export] Hint Extern 1 (@Setter ?R ?T ?proj) => build_setter R T proj : typeclass_instances.

Notation "r <| proj := v |>" := (set_field proj (λ _, v) r)
  (at level 12, left associativity, proj at next level, v at level 200,
   format "r  <|  proj  :=  v  |>").

(** ** Results

    A Go function that returns [(T, error)] returns a [res T].  The errors are
    the sentinels the sources compare with [errors.Is]; an error built with
    [errors.New] or [fmt.Errorf] without [%w] is [ErrText] with its text, and
    wrapping with [%w] keeps the sentinel. *)

Inductive error :=
| ErrNotFound            (* domain.ErrNotFound, and sql.ErrNoRows mapped to it *)
| ErrLastAdmin           (* domain.ErrLastAdmin *)
| ErrUnsupported         (* domain.ErrUnsupported *)
| ErrConstraint          (* the database refused a statement: PRIMARY KEY, UNIQUE or FOREIGN KEY *)
| ErrDriver              (* a statement failed for a reason outside the data (I/O, context) *)
| ErrInvalidCredentials  (* auth.ErrInvalidCredentials *)
| ErrUserDisabled        (* auth.ErrUserDisabled *)
| ErrApprovalRejected    (* auth.ErrApprovalRejected *)
| ErrSessionExpired      (* auth.ErrSessionExpired *)
| ErrSessionRevoked      (* auth.ErrSessionRevoked *)
| ErrStaleToken          (* auth.ErrStaleToken *)
| ErrTokenInvalid        (* auth.ErrTokenInvalid *)
| ErrTokenExpired        (* auth.ErrTokenExpired *)
| ErrPasswordPolicy      (* auth.ErrPasswordPolicy *)
| ErrInvalidPasswordHash (* auth.ErrInvalidPasswordHash *)
| ErrInvalidCode         (* mfa.ErrInvalidCode *)
| ErrOffline             (* relaygateway.ErrOffline *)
| ErrForbidden           (* addressbook.ErrForbidden *)
| ErrUnauthorized        (* relaygateway.ErrUnauthorized *)
| ErrStaleGeneration     (* relaygateway.ErrStaleGeneration *)
| ErrText (message : string).

#[export] Instance error_eq_dec : EqDecision error.
Proof. solve_decision. Defined.

Inductive res (A : Type) :=
| Ok (a : A)
| Err (e : error).
Arguments Ok {A} a.
Arguments Err {A} e.

#[export] Instance res_eq_dec {A} `{EqDecision A} : EqDecision (res A).
Proof. solve_decision. Defined.

Definition is_ok {A} (r : res A) : bool :=
  match r with Ok _ => true | Err _ => false end.

Definition res_map {A B} (f : A → B) (r : res A) : res B :=
  match r with Ok a => Ok (f a) | Err e => Err e end.

Definition res_bind {A B} (r : res A) (f : A → res B) : res B :=
  match r with Ok a => f a | Err e => Err e end.

(** [err.Error()] where a reply shows it; the texts of the driver are left out. *)
Definition error_text (e : error) : string :=
  match e with
  | ErrNotFound => "not found"
  | ErrLastAdmin => "cannot delete last administrator"
  | ErrUnsupported => "unsupported"
  | ErrConstraint | ErrDriver => ""
  | ErrInvalidCredentials => "invalid username or password"
  | ErrUserDisabled => "user disabled"
  | ErrApprovalRejected => "registration rejected"
  | ErrSessionExpired => "session expired"
  | ErrSessionRevoked => "session revoked"
  | ErrStaleToken => "force re-login required"
  | ErrTokenInvalid => "token invalid"
  | ErrTokenExpired => "token expired"
  | ErrPasswordPolicy => "password does not satisfy security policy"
  | ErrInvalidPasswordHash => "invalid password hash"
  | ErrInvalidCode => "invalid two-factor code"
  | ErrOffline => "relay control unavailable"
  | ErrForbidden => "address book access forbidden"
  | ErrUnauthorized => "invalid relay credential"
  | ErrStaleGeneration => "relay event belongs to an earlier credential generation"
  | ErrText m => m
  end.

Definition of_option {A} (e : error) (o : option A) : res A :=
  match o with Some a => Ok a | None => Err e end.

(** Conditions with two binders reach the class search unreduced. *)
#[export] Hint Extern 3 (Decision _) => progress cbv beta : typeclass_instances.

(** Boolean hypotheses as propositions. *)
Ltac simplify_bool :=
  repeat match goal with
  | H : negb _ = true |- _ => apply negb_true_iff in H
  | H : negb _ = false |- _ => apply negb_false_iff in H
  | H : (_ && _)%bool = true |- _ => apply andb_true_iff in H as [? ?]
  | H : (_ || _)%bool = false |- _ => apply orb_false_iff in H as [? ?]
  | H : (_ || _)%bool = true |- _ => apply orb_true_iff in H
  | H : (_ && _)%bool = false |- _ => apply andb_false_iff in H
  | H : bool_decide _ = true |- _ => apply bool_decide_eq_true in H
  | H : bool_decide _ = false |- _ => apply bool_decide_eq_false in H
  | H : (_ <? _) = true |- _ => apply Z.ltb_lt in H
  | H : (_ <? _) = false |- _ => apply Z.ltb_ge in H
  | H : (_ <=? _) = true |- _ => apply Z.leb_le in H
  | H : (_ <=? _) = false |- _ => apply Z.leb_gt in H
  | H : (_ =? _) = true |- _ => apply Z.eqb_eq in H
  | H : (_ =? _) = false |- _ => apply Z.eqb_neq in H
  end.

(** ** Lists *)

Section Lists.
Context {A : Type}.
Implicit Types l : list A.

Lemma filter_all (P : A → Prop) `{∀ x, Decision (P x)} l :
  (∀ x, x ∈ l → P x) → filter P l = l.
Proof.
  induction l as [|x l IH]; intros Hall; [done|].
  rewrite filter_cons_True by set_solver. f_equal. apply IH. set_solver.
Qed.

Lemma filter_none (P : A → Prop) `{∀ x, Decision (P x)} l :
  (∀ x, x ∈ l → ¬ P x) → filter P l = [].
Proof.
  induction l as [|x l IH]; intros Hall; [done|].
  rewrite filter_cons_False by set_solver. apply IH. set_solver.
Qed.
End Lists.
