(* ===== verification/GoStd.v ===== *)
(** * The parts of the Go language and standard library the sources use

    Times and durations, the [strings] functions, stable sorting.  Everything
    is executable; what depends on the Unicode tables for text outside ASCII is
    a parameter ([Unicode]). *)

From S2P Require Export Prelude.

(** ** Time

    A [time.Time] is its number of nanoseconds since the Unix epoch, a
    [time.Duration] its number of nanoseconds; [Before]/[After] are [<] and
    [>].  The zero [time.Time] is January 1 of year 1. *)

Abbreviation time := Z (only parsing).
Abbreviation duration := Z (only parsing).

Definition zero_time : time := -62135596800 * 1000000000.

Definition nanosecond : duration := 1.
Definition millisecond : duration := 1000000.
Definition second : duration := 1000 * millisecond.
Definition minute : duration := 60 * second.
Definition hour : duration := 60 * minute.

(** Bounds of the [int64] a [time.Duration] is kept in; [Time.Sub] saturates. *)
Definition max_int64 : Z := 2 ^ 63 - 1.
Definition min_int64 : Z := - 2 ^ 63.

Definition Sub (t u : time) : duration := Z.max min_int64 (Z.min max_int64 (t - u)).

(** [time.Duration(n) * time.Second], a product of [int64]s that wraps around. *)
Definition int64_wrap (z : Z) : Z := (z + 2 ^ 63) mod 2 ^ 64 - 2 ^ 63.
Definition seconds (n : Z) : duration := int64_wrap (n * second).

Lemma seconds_exact n : 0 ≤ n → n * second ≤ max_int64 → seconds n = n * second.
Proof.
  unfold seconds, int64_wrap, max_int64. intros Hn Hmax. assert (0 ≤ n * second) by (unfold second, millisecond; lia).
  rewrite Z.mod_small; lia.
Qed.

(** [time.Time.UnixMilli] and [time.UnixMilli]: the database columns hold
    milliseconds, rounded down. *)
Definition UnixMilli (t : time) : Z := t / millisecond.
Definition fromUnixMilli (ms : Z) : time := ms * millisecond.

Lemma UnixMilli_fromUnixMilli ms : UnixMilli (fromUnixMilli ms) = ms.
Proof. unfold UnixMilli, fromUnixMilli, millisecond. by rewrite Z.div_mul. Qed.

Lemma fromUnixMilli_UnixMilli t :
  fromUnixMilli (UnixMilli t) ≤ t < fromUnixMilli (UnixMilli t) + millisecond.
Proof. unfold UnixMilli, fromUnixMilli, millisecond.
  Z.to_euclidean_division_equations. lia. Qed.

(** Comparing milliseconds against a rounded-down time is comparing the times. *)
Lemma UnixMilli_lt t ms : UnixMilli t < ms ↔ t < fromUnixMilli ms.
Proof. unfold UnixMilli, fromUnixMilli, millisecond. Z.to_euclidean_division_equations. lia. Qed.

Lemma UnixMilli_mono t u : t ≤ u → UnixMilli t ≤ UnixMilli u.
Proof. unfold UnixMilli, millisecond. intros. apply Z.div_le_mono; lia. Qed.

(** ** Strings *)

Definition bytes_of (s : string) : list Ascii.ascii := String.list_ascii_of_string s.
Definition of_bytes (l : list Ascii.ascii) : string := String.string_of_list_ascii l.

Definition byte (a : Ascii.ascii) : Z := Z.of_nat (Ascii.nat_of_ascii a).
Definition ascii_of (z : Z) : Ascii.ascii := Ascii.ascii_of_nat (Z.to_nat z).

(** [len(s)] *)
Definition len (s : string) : Z := Z.of_nat (String.length s).

Definition is_ascii (s : string) : bool := forallb (λ a, byte a <? 128) (bytes_of s).

Definition lower_byte (a : Ascii.ascii) : Ascii.ascii :=
  if (65 <=? byte a) && (byte a <=? 90) then ascii_of (byte a + 32) else a.
Definition upper_byte (a : Ascii.ascii) : Ascii.ascii :=
  if (97 <=? byte a) && (byte a <=? 122) then ascii_of (byte a - 32) else a.

(** ASCII white space: \t \n \v \f \r and the space. *)
Definition space_byte (a : Ascii.ascii) : bool :=
  ((9 <=? byte a) && (byte a <=? 13)) || (byte a =? 32).

Fixpoint drop_while {A} (f : A → bool) (l : list A) : list A :=
  match l with
  | [] => []
  | x :: l' => if f x then drop_while f l' else l
  end.

Definition trim_bytes (l : list Ascii.ascii) : list Ascii.ascii :=
  reverse (drop_while space_byte (reverse (drop_while space_byte l))).

(** The tables of package [unicode]: what [strings.ToLower], [ToUpper] and
    [TrimSpace] do with text that has a byte outside ASCII, the decoding of
    such text into runes ([None] for invalid UTF-8), and the rune classes.
    [strings.EqualFold] and [strings.Fields] likewise. *)
Class Unicode := {
  lower_nonascii : string → string;
  upper_nonascii : string → string;
  trim_nonascii : string → string;
  equal_fold_nonascii : string → string → bool;
  fields_nonascii : string → list string;
  decode_utf8 : string → option (list Z);
  IsUpper : Z → bool;
  IsLower : Z → bool;
  IsNumber : Z → bool;
  IsLetter : Z → bool;
  IsSpace : Z → bool;
  IsDigit : Z → bool
}.

Definition ToLower `{Unicode} (s : string) : string :=
  if is_ascii s then of_bytes (lower_byte <$> bytes_of s) else lower_nonascii s.
Definition ToUpper `{Unicode} (s : string) : string :=
  if is_ascii s then of_bytes (upper_byte <$> bytes_of s) else upper_nonascii s.
Definition TrimSpace `{Unicode} (s : string) : string :=
  if is_ascii s then of_bytes (trim_bytes (bytes_of s)) else trim_nonascii s.

(** [strings.EqualFold]: equality up to case. *)
Definition EqualFold `{Unicode} (s t : string) : bool :=
  if is_ascii s && is_ascii t
  then bool_decide (lower_byte <$> bytes_of s = lower_byte <$> bytes_of t)
  else equal_fold_nonascii s t.

(** [strings.Fields]: the maximal runs without white space. *)
Fixpoint fields_bytes (word l : list Ascii.ascii) : list (list Ascii.ascii) :=
  let ended := match word with [] => [] | _ => [reverse word] end in
  match l with
  | [] => ended
  | a :: l' => if space_byte a then ended ++ fields_bytes [] l' else fields_bytes (a :: word) l'
  end.
Definition Fields `{Unicode} (s : string) : list string :=
  if is_ascii s then of_bytes <$> fields_bytes [] (bytes_of s) else fields_nonascii s.

(** [strings.HasPrefix], [strings.TrimPrefix] *)
Definition HasPrefix (s prefix : string) : bool := String.prefix prefix s.
Definition TrimPrefix (s prefix : string) : string :=
  if HasPrefix s prefix
  then String.substring (String.length prefix) (String.length s - String.length prefix) s
  else s.

(** [strings.ContainsAny(s, " \t\r\n")] *)
Definition blank_byte (a : Ascii.ascii) : bool :=
  (byte a =? 32) || (byte a =? 9) || (byte a =? 13) || (byte a =? 10).
Definition ContainsBlank (s : string) : bool := existsb blank_byte (bytes_of s).

(** [strings.ReplaceAll(s, "-", "")] *)
Definition remove_byte (c : Z) (s : string) : string :=
  of_bytes (filter (λ a, byte a ≠ c) (bytes_of s)).

(** The tables restricted to ASCII, an instance that concrete evaluations use:
    text outside ASCII is returned unchanged and no rune above 127 is a letter. *)
Definition ascii_unicode : Unicode := {|
  lower_nonascii := λ s, s;
  upper_nonascii := λ s, s;
  trim_nonascii := λ s, s;
  equal_fold_nonascii := λ s t, bool_decide (s = t);
  fields_nonascii := λ s, [s];
  decode_utf8 := λ s, if is_ascii s then Some (byte <$> bytes_of s) else None;
  IsUpper := λ r, (65 <=? r) && (r <=? 90);
  IsLower := λ r, (97 <=? r) && (r <=? 122);
  IsNumber := λ r, (48 <=? r) && (r <=? 57);
  IsLetter := λ r, ((65 <=? r) && (r <=? 90)) || ((97 <=? r) && (r <=? 122));
  IsSpace := λ r, ((9 <=? r) && (r <=? 13)) || (r =? 32);
  IsDigit := λ r, (48 <=? r) && (r <=? 57)
|}.

Example Fields_example :
  @Fields ascii_unicode "  Bearer	art_pat_x " = ["Bearer"; "art_pat_x"].
Proof. reflexivity. Qed.

Lemma of_bytes_bytes_of s : of_bytes (bytes_of s) = s.
Proof. apply String.string_of_list_ascii_of_string. Qed.

Lemma bytes_of_of_bytes l : bytes_of (of_bytes l) = l.
Proof. apply String.list_ascii_of_string_of_list_ascii. Qed.

(** ** Stable sorting

    [sort.SliceStable] with the order [less]: each element goes before the
    first already placed element it is less than, so equals keep their order. *)

Section Sorting.
Context {A : Type} (less : A → A → bool).

Fixpoint place (x : A) (l : list A) : list A :=
  match l with
  | [] => [x]
  | y :: l' => if less x y then x :: l else y :: place x l'
  end.

Definition SliceStable (l : list A) : list A := foldl (λ acc x, place x acc) [] l.

Lemma place_perm x l : place x l ≡ₚ x :: l.
Proof.
  induction l as [|y l IH]; simpl; [done|].
  destruct (less x y); [done|]. rewrite IH. apply Permutation_swap.
Qed.

Lemma SliceStable_perm l : SliceStable l ≡ₚ l.
Proof.
  unfold SliceStable.
  cut (∀ acc, foldl (λ acc x, place x acc) acc l ≡ₚ l ++ acc).
  { intros Hacc. by rewrite Hacc, app_nil_r. }
  induction l as [|x l IH]; intros acc; simpl; [done|].
  rewrite IH, place_perm. by rewrite Permutation_middle.
Qed.

Lemma elem_of_SliceStable x l : x ∈ SliceStable l ↔ x ∈ l.
Proof. by rewrite SliceStable_perm. Qed.

Lemma length_SliceStable l : length (SliceStable l) = length l.
Proof. by rewrite SliceStable_perm. Qed.

(** [before x y]: a sorted result may have [x] ahead of [y]. *)
Definition before (x y : A) : Prop := less y x = false.

Section StrictWeak.
Context (less_asym : ∀ x y, less x y = true → less y x = false).
Context (less_negtrans : ∀ x y z, less x y = false → less y z = false → less x z = false).

Lemma place_sorted x l : StronglySorted before l → StronglySorted before (place x l).
Proof.
  induction 1 as [|y l Hl IH Hy]; simpl; [repeat constructor|].
  destruct (less x y) eqn:Hxy.
  - constructor; [by constructor|]. constructor; [by apply less_asym|].
    rewrite Forall_forall in Hy |- *. intros z Hz. unfold before in *.
    eapply less_negtrans; [by apply Hy|by apply less_asym].
  - constructor; [done|]. rewrite place_perm. by constructor.
Qed.

Lemma SliceStable_sorted l : StronglySorted before (SliceStable l).
Proof.
  unfold SliceStable.
  cut (∀ acc, StronglySorted before acc →
              StronglySorted before (foldl (λ acc x, place x acc) acc l)).
  { intros Hacc. apply Hacc. constructor. }
  induction l as [|x l IH]; intros acc Hacc; simpl; [done|].
  by apply IH, place_sorted.
Qed.

(** The first element is one nothing goes before. *)
Lemma head_SliceStable l x :
  head (SliceStable l) = Some x → x ∈ l ∧ ∀ y, y ∈ l → less y x = false.
Proof.
  intros Hh. pose proof (SliceStable_sorted l) as Hs. pose proof (elem_of_SliceStable) as Hin.
  assert (less x x = false) by (destruct (less x x) eqn:E; [by rewrite <-(less_asym _ _ E)|done]).
  destruct (SliceStable l) as [|z l'] eqn:Hl; [done|]. injection Hh as ->.
  split; [apply Hin; rewrite Hl; left|]. intros y Hy%Hin. rewrite Hl in Hy.
  apply elem_of_cons in Hy as [->|Hy]; [done|].
  inversion Hs as [|? ? _ Hall]; subst. rewrite Forall_forall in Hall. by apply Hall.
Qed.
End StrictWeak.

Lemma head_SliceStable_None l : head (SliceStable l) = None ↔ l = [].
Proof. pose proof (length_SliceStable l). destruct (SliceStable l), l; cbn in *; try done; lia. Qed.
End Sorting.

#[export] Instance SliceStable_Permutation {A} (less : A → A → bool) :
  Proper ((≡ₚ) ==> (≡ₚ)) (SliceStable less).
Proof. intros l l' Hl. by rewrite !SliceStable_perm. Qed.

Lemma StronglySorted_weaken {A} (R S : A → A → Prop) l :
  (∀ x y, R x y → S x y) → StronglySorted R l → StronglySorted S l.
Proof.
  intros HRS. induction 1 as [|x l Hl IH Hx]; constructor; [done|].
  eapply Forall_impl; [exact Hx|]. intros y. apply HRS.
Qed.

(** Byte-wise string order, the BINARY collation of the text columns. *)
Definition str_lt (a b : string) : bool := String.ltb a b.

(** Lexicographic combination of two orders: [ORDER BY k1, k2]. *)
Definition then_by {A} (less1 less2 : A → A → bool) (x y : A) : bool :=
  less1 x y || (negb (less1 y x) && less2 x y).
