(* ===== verification/Text.v ===== *)
(** * Text of the standard library: [strconv], [strings.Split], [fmt] verbs

    Numbers and flags as text, splitting, hexadecimal and percent encodings, as
    the sources use them.  Text that is cut up is a list of bytes. *)

From S2P Require Export GoStd.

Abbreviation bytes := (list Ascii.ascii) (only parsing).

Lemma bytes_of_app (a b : string) : bytes_of (a +:+ b) = bytes_of a ++ bytes_of b.
Proof. induction a as [|c a IH]; [done|]. change (c :: bytes_of (a +:+ b) = c :: bytes_of a ++ bytes_of b).
  by rewrite IH. Qed.

Lemma len_bytes (s : string) : len s = Z.of_nat (length (bytes_of s)).
Proof. unfold len. f_equal. induction s as [|c s IH]; cbn; [done|by rewrite IH]. Qed.

Lemma bytes_of_inj (a b : string) : bytes_of a = bytes_of b → a = b.
Proof. intros Heq. by rewrite <-(of_bytes_bytes_of a), Heq, of_bytes_bytes_of. Qed.

Lemma byte_range a : 0 ≤ byte a < 256.
Proof. unfold byte. pose proof (Ascii.nat_ascii_bounded a). lia. Qed.

Lemma byte_ascii_of z : 0 ≤ z < 256 → byte (ascii_of z) = z.
Proof. intros Hz. unfold byte, ascii_of. rewrite Ascii.nat_ascii_embedding by lia. lia. Qed.

Lemma TrimPrefix_split s p : HasPrefix s p = true → s = p +:+ TrimPrefix s p.
Proof.
  intros Hp. unfold TrimPrefix. rewrite Hp. unfold HasPrefix in Hp. revert s Hp.
  induction p as [|c p IH]; intros s Hp.
  - change (String.length "") with 0%nat. rewrite Nat.sub_0_r. change ("" +:+ ?x) with x. clear Hp.
    induction s as [|c s IH]; [done|]. cbn. by rewrite <-IH.
  - destruct s as [|c' s]; [done|]. cbn in Hp. destruct (Ascii.ascii_dec c c') as [<-|]; [|done].
    cbn [String.length String.substring]. rewrite Nat.sub_succ.
    change (String c p +:+ ?x) with (String c (p +:+ x)). f_equal. by apply IH.
Qed.

Lemma HasPrefix_app p x : HasPrefix (p +:+ x) p = true.
Proof.
  unfold HasPrefix. induction p as [|c p IH]; [by destruct x|].
  change (String c p +:+ x) with (String c (p +:+ x)). cbn. destruct (Ascii.ascii_dec c c); [exact IH|congruence].
Qed.

Lemma TrimPrefix_app p x : TrimPrefix (p +:+ x) p = x.
Proof.
  pose proof (TrimPrefix_split _ _ (HasPrefix_app p x)) as Hp.
  apply (f_equal bytes_of) in Hp. rewrite !bytes_of_app in Hp.
  apply app_inv_head, bytes_of_inj in Hp. by rewrite <-Hp.
Qed.

(** ** [strings.Split] on one byte *)

Fixpoint Split (sep : Ascii.ascii) (l : bytes) : list bytes :=
  match l with
  | [] => [[]]
  | c :: l' =>
      if decide (c = sep) then [] :: Split sep l'
      else match Split sep l' with
           | part :: parts => (c :: part) :: parts
           | [] => [[c]]
           end
  end.

Lemma Split_app sep l1 l2 : sep ∉ l1 → Split sep (l1 ++ sep :: l2) = l1 :: Split sep l2.
Proof.
  induction l1 as [|c l1 IH]; intros Hs; cbn; [by rewrite decide_True|].
  rewrite decide_False by set_solver. by rewrite IH by set_solver.
Qed.

Lemma Split_none sep l : sep ∉ l → Split sep l = [l].
Proof.
  induction l as [|c l IH]; intros Hs; cbn; [done|].
  rewrite decide_False by set_solver. by rewrite IH by set_solver.
Qed.

(** [strings.Join] with one byte between the parts. *)
Fixpoint JoinWith (sep : Ascii.ascii) (parts : list bytes) : bytes :=
  match parts with
  | [] => []
  | [part] => part
  | part :: rest => part ++ sep :: JoinWith sep rest
  end.

Lemma Split_JoinWith sep parts :
  parts ≠ [] → Forall (λ part, sep ∉ part) parts → Split sep (JoinWith sep parts) = parts.
Proof.
  intros Hne Hp. induction Hp as [|part parts Hpart Hp IH]; [done|]. destruct parts as [|part2 parts].
  - by apply Split_none.
  - change (JoinWith sep (part :: part2 :: parts)) with (part ++ sep :: JoinWith sep (part2 :: parts)).
    by rewrite Split_app, IH.
Qed.

(** [strings.Contains] *)
Fixpoint contains (sub l : bytes) : bool :=
  bool_decide (take (length sub) l = sub) || match l with [] => false | _ :: l' => contains sub l' end.
Definition Contains (s sub : string) : bool := contains (bytes_of sub) (bytes_of s).

(** [strings.ReplaceAll]; [skip]: the bytes of [old] still to pass over. *)
Fixpoint replace_from (skip : nat) (old new l : bytes) : bytes :=
  match l with
  | [] => []
  | a :: l' =>
      match skip with
      | S skip' => replace_from skip' old new l'
      | O => if bool_decide (take (length old) l = old) then new ++ replace_from (length old - 1) old new l'
             else a :: replace_from 0 old new l'
      end
  end.
Definition ReplaceAll (s old new : string) : string := of_bytes (replace_from 0 (bytes_of old) (bytes_of new) (bytes_of s)).

(** ** Decimal numbers *)

Definition digit_byte (a : Ascii.ascii) : bool := (48 <=? byte a) && (byte a <=? 57).

(** The digits of a number below [10 ^ fuel], for [%d]. *)
Fixpoint digits (fuel : nat) (z : Z) : bytes :=
  match fuel with
  | O => []
  | S fuel' => (if z <? 10 then [] else digits fuel' (z / 10)) ++ [ascii_of (48 + z mod 10)]
  end.
Definition format_d (z : Z) : string := of_bytes (digits 20 z).

(** [strconv.Itoa], [%d]: with the sign. *)
Definition Itoa (z : Z) : string := if z <? 0 then "-" +:+ format_d (- z) else format_d z.

Definition decimal_value (l : bytes) : Z := foldl (λ acc a, 10 * acc + (byte a - 48)) 0 l.

(** Nonempty decimal digits. *)
Definition decimal (l : bytes) : option Z :=
  if bool_decide (l ≠ []) && forallb digit_byte l then Some (decimal_value l) else None.

(** [strconv.ParseUint(s, 10, 32)] *)
Definition ParseUint32 (s : bytes) : option Z :=
  if bool_decide (s ≠ []) && forallb digit_byte s && (decimal_value s <=? 2 ^ 32 - 1)
  then Some (decimal_value s) else None.

(** [strconv.Atoi], [strconv.ParseInt(s, 10, 64)]: an optional sign, then digits. *)
Definition Atoi (s : string) : option Z :=
  let signed (neg : bool) (l : bytes) :=
    match decimal l with
    | Some v => let v := if neg then - v else v in
                if (min_int64 <=? v) && (v <=? max_int64) then Some v else None
    | None => None
    end in
  match bytes_of s with
  | c :: l => if byte c =? 43 then signed false l else if byte c =? 45 then signed true l
              else signed false (c :: l)
  | [] => None
  end.

(** [strconv.ParseBool] *)
Definition ParseBool (s : string) : option bool :=
  if bool_decide (s ∈ ["1"; "t"; "T"; "TRUE"; "true"; "True"]) then Some true
  else if bool_decide (s ∈ ["0"; "f"; "F"; "FALSE"; "false"; "False"]) then Some false
  else None.

(** [%06d]: zeros between the sign and the digits up to six bytes. *)
Definition zero_padded (width : nat) (l : bytes) : bytes :=
  replicate (width - length l) (ascii_of 48) ++ l.
Definition format_06d (z : Z) : string :=
  if z <? 0 then of_bytes (ascii_of 45 :: zero_padded 5 (digits 20 (- z)))
  else of_bytes (zero_padded 6 (digits 20 z)).

Lemma decimal_value_snoc l a : decimal_value (l ++ [a]) = 10 * decimal_value l + (byte a - 48).
Proof. unfold decimal_value. by rewrite foldl_app. Qed.

Lemma decimal_value_bound l :
  forallb digit_byte l = true → 0 ≤ decimal_value l < 10 ^ Z.of_nat (length l).
Proof.
  induction l as [|a l IH] using rev_ind; [cbn; lia|].
  rewrite forallb_app, decimal_value_snoc, length_app. cbn. unfold digit_byte. intros Hd. simplify_bool.
  destruct IH; [done|]. rewrite Nat2Z.inj_add, Z.pow_add_r by lia. cbn. lia.
Qed.

(** A number read from [n] bytes has an absolute value below [10 ^ n]. *)
Lemma Atoi_bound s n : Atoi s = Some n → - 10 ^ len s < n < 10 ^ len s.
Proof.
  rewrite len_bytes. unfold Atoi, decimal. destruct (bytes_of s) as [|c l]; [done|]. cbn [length].
  rewrite Nat2Z.inj_succ, Z.pow_succ_r by lia.
  assert (Hl : 0 < 10 ^ Z.of_nat (length l)) by (apply Z.pow_pos_nonneg; lia).
  intros Hn; repeat case_match; simplify_eq; simplify_bool.
  all: match goal with H : forallb _ ?l = true |- _ => apply decimal_value_bound in H end;
    cbn [length] in *; rewrite ?Nat2Z.inj_succ, ?Z.pow_succ_r in * by lia; lia.
Qed.

Lemma digits_value fuel z : 0 ≤ z < 10 ^ Z.of_nat fuel → decimal_value (digits fuel z) = z.
Proof.
  revert z. induction fuel as [|fuel IH]; intros z Hz; [cbn in *; lia|].
  cbn [digits]. rewrite decimal_value_snoc.
  rewrite byte_ascii_of by (pose proof (Z.mod_pos_bound z 10); lia).
  destruct (Z.ltb_spec z 10).
  - cbn. rewrite Z.mod_small by lia. lia.
  - rewrite IH; [pose proof (Z.div_mod z 10); lia|].
    rewrite Nat2Z.inj_succ, Z.pow_succ_r in Hz by lia.
    split; [apply Z.div_pos; lia|apply Z.div_lt_upper_bound; lia].
Qed.

Lemma digits_digit fuel z : 0 ≤ z → forallb digit_byte (digits fuel z) = true.
Proof.
  revert z. induction fuel as [|fuel IH]; intros z Hz; [done|]. cbn [digits].
  rewrite forallb_app. apply andb_true_iff. split.
  - destruct (z <? 10); [done|]. apply IH, Z.div_pos; lia.
  - cbn. unfold digit_byte. pose proof (Z.mod_pos_bound z 10).
    rewrite byte_ascii_of by lia. rewrite andb_true_r. apply andb_true_iff. split; apply Z.leb_le; lia.
Qed.

Lemma decimal_value_zeros n l : decimal_value (replicate n (ascii_of 48) ++ l) = decimal_value l.
Proof. induction n as [|n IH]; [done|]. rewrite <-IH. reflexivity. Qed.

Lemma length_digits fuel z n :
  0 ≤ z < 10 ^ Z.of_nat n → (0 < n ≤ fuel)%nat → (0 < length (digits fuel z) ≤ n)%nat.
Proof.
  revert z n. induction fuel as [|fuel IH]; intros z n Hz Hn; [lia|]. cbn [digits].
  rewrite length_app. cbn [length]. destruct (Z.ltb_spec z 10); [cbn; lia|].
  destruct n as [|n]; [lia|]. rewrite Nat2Z.inj_succ, Z.pow_succ_r in Hz by lia.
  destruct (decide (n = 0%nat)) as [->|]; [cbn in Hz; lia|].
  destruct (IH (z / 10) n); [|lia|lia].
  split; [apply Z.div_pos; lia|apply Z.div_lt_upper_bound; lia].
Qed.

(** Six digits: formatting a number below a million, and reading it back. *)
Lemma format_06d_bytes z : 0 ≤ z < 1000000 →
  bytes_of (format_06d z) = zero_padded 6 (digits 20 z)
  ∧ length (zero_padded 6 (digits 20 z)) = 6%nat
  ∧ forallb digit_byte (zero_padded 6 (digits 20 z)) = true
  ∧ decimal_value (zero_padded 6 (digits 20 z)) = z.
Proof.
  intros Hz. pose proof (length_digits 20 z 6 ltac:(cbn; lia) ltac:(lia)).
  unfold format_06d. destruct (Z.ltb_spec z 0); [lia|]. rewrite bytes_of_of_bytes.
  unfold zero_padded. split_and!; [done| | |].
  - rewrite length_app, length_replicate. lia.
  - rewrite forallb_app, digits_digit by lia. rewrite andb_true_r.
    induction (6 - _)%nat; cbn; [done|by rewrite IHn].
  - rewrite decimal_value_zeros. apply digits_value. cbn. lia.
Qed.

Lemma format_06d_inj y z : 0 ≤ y < 1000000 → 0 ≤ z < 1000000 → format_06d y = format_06d z → y = z.
Proof.
  intros Hy Hz Heq. destruct (format_06d_bytes y Hy) as (Hby & _ & _ & <-).
  destruct (format_06d_bytes z Hz) as (Hbz & _ & _ & <-). by rewrite <-Hby, <-Hbz, Heq.
Qed.

Lemma Atoi_format_06d z : 0 ≤ z < 1000000 → Atoi (format_06d z) = Some z.
Proof.
  intros Hz. destruct (format_06d_bytes z Hz) as (Hb & Hlen & Hdig & Hval).
  unfold Atoi. rewrite Hb. destruct (zero_padded 6 (digits 20 z)) as [|c l] eqn:Hl; [done|].
  assert (Hc : digit_byte c = true) by (cbn in Hdig; by apply andb_true_iff in Hdig as [? _]).
  unfold digit_byte in Hc. simplify_bool.
  destruct (Z.eqb_spec (byte c) 43), (Z.eqb_spec (byte c) 45); try lia.
  unfold decimal. rewrite bool_decide_eq_true_2 by done. rewrite Hdig. cbn [andb]. rewrite Hval.
  unfold min_int64, max_int64.
  destruct (Z.leb_spec (- 2 ^ 63) z), (Z.leb_spec z (2 ^ 63 - 1)); try lia. done.
Qed.

Lemma digits_not_nil fuel z : (0 < fuel)%nat → digits fuel z ≠ [].
Proof. destruct fuel; [lia|]. intros _. cbn [digits]. by intros [_ ?]%app_eq_nil. Qed.

(** A number is read back as it was printed. *)
Lemma Atoi_Itoa z : 0 ≤ z ≤ max_int64 → Atoi (Itoa z) = Some z.
Proof.
  intros Hz. unfold max_int64 in Hz. unfold Itoa, format_d, Atoi.
  destruct (Z.ltb_spec z 0); [lia|]. rewrite bytes_of_of_bytes.
  pose proof (digits_digit 20 z ltac:(lia)) as Hdig.
  assert (Hval : decimal_value (digits 20 z) = z).
  { apply digits_value. change (10 ^ Z.of_nat 20) with 100000000000000000000. lia. }
  destruct (digits 20 z) as [|c l] eqn:Hl; [by apply digits_not_nil in Hl; [|lia]|].
  assert (Hc : digit_byte c = true) by (cbn in Hdig; by apply andb_true_iff in Hdig as [? _]).
  unfold digit_byte in Hc. simplify_bool.
  destruct (Z.eqb_spec (byte c) 43), (Z.eqb_spec (byte c) 45); try lia.
  unfold decimal. rewrite bool_decide_eq_true_2 by done. rewrite Hdig. cbn [andb]. rewrite Hval.
  unfold min_int64, max_int64.
  destruct (Z.leb_spec (- 2 ^ 63) z), (Z.leb_spec z (2 ^ 63 - 1)); try lia. done.
Qed.

(** ** Hexadecimal: [hex.EncodeToString], [%x] *)

Definition hex_digit (z : Z) : Ascii.ascii := ascii_of (if z <? 10 then 48 + z else 87 + z).
Definition hex_encode (b : bytes) : string :=
  of_bytes (b ≫= λ a, [hex_digit (byte a / 16); hex_digit (byte a mod 16)]).

(** ** Percent encoding of package [net/url] *)

Definition upper_hex_digit (z : Z) : Ascii.ascii := ascii_of (if z <? 10 then 48 + z else 55 + z).
Definition percent (a : Ascii.ascii) : bytes :=
  [ascii_of 37; upper_hex_digit (byte a / 16); upper_hex_digit (byte a mod 16)].

Definition alnum_byte (a : Ascii.ascii) : bool :=
  ((97 <=? byte a) && (byte a <=? 122)) || ((65 <=? byte a) && (byte a <=? 90)) || digit_byte a.
(** Letters, digits and - _ . ~ *)
Definition unreserved_byte (a : Ascii.ascii) : bool :=
  alnum_byte a || bool_decide (byte a ∈ [45; 95; 46; 126]).

(** [url.PathEscape] keeps $ & + : = @ as well; [url.QueryEscape] writes a space as +. *)
Definition PathEscape (s : string) : string :=
  of_bytes (bytes_of s ≫= λ a,
    if unreserved_byte a || bool_decide (byte a ∈ [36; 38; 43; 58; 61; 64]) then [a] else percent a).
Definition QueryEscape (s : string) : string :=
  of_bytes (bytes_of s ≫= λ a,
    if unreserved_byte a then [a] else if byte a =? 32 then [ascii_of 43] else percent a).

(** [url.Values.Encode] of pairs already in the order of their keys. *)
Fixpoint query_encode (l : list (string * string)) : string :=
  match l with
  | [] => ""
  | [(k, v)] => QueryEscape k +:+ "=" +:+ QueryEscape v
  | (k, v) :: l' => QueryEscape k +:+ "=" +:+ QueryEscape v +:+ "&" +:+ query_encode l'
  end.

(** ** UTF-8: [for _, r := range s], [strings.Builder.WriteRune], [strings.Trim]

    A byte that starts no valid encoding is the rune U+FFFD. *)

Definition between (low high : Z) (a : Ascii.ascii) : bool := (low <=? byte a) && (byte a <=? high).
Definition payload6 (a : Ascii.ascii) : Z := byte a - 128.

(** The second byte of a sequence of three or four with the first byte [x]. *)
Definition second_of_three (x : Z) (b : Ascii.ascii) : bool :=
  if x =? 224 then between 160 191 b else if x =? 237 then between 128 159 b
  else (225 <=? x) && (x <=? 239) && between 128 191 b.
Definition second_of_four (x : Z) (b : Ascii.ascii) : bool :=
  if x =? 240 then between 144 191 b else if x =? 244 then between 128 143 b
  else (241 <=? x) && (x <=? 243) && between 128 191 b.

Fixpoint runes (l : bytes) : list Z :=
  match l with
  | [] => []
  | a :: l1 =>
      if byte a <? 128 then byte a :: runes l1 else
      match l1 with
      | b :: l2 =>
          if between 194 223 a && between 128 191 b then ((byte a - 192) * 64 + payload6 b) :: runes l2 else
          match l2 with
          | c :: l3 =>
              if second_of_three (byte a) b && between 128 191 c
              then ((byte a - 224) * 4096 + payload6 b * 64 + payload6 c) :: runes l3 else
              match l3 with
              | e :: l4 =>
                  if second_of_four (byte a) b && between 128 191 c && between 128 191 e
                  then ((byte a - 240) * 262144 + payload6 b * 4096 + payload6 c * 64 + payload6 e) :: runes l4
                  else 65533 :: runes l1
              | [] => 65533 :: runes l1
              end
          | [] => 65533 :: runes l1
          end
      | [] => 65533 :: runes l1
      end
  end.

(** [utf8.AppendRune] of a rune that [range] gave. *)
Definition rune_bytes (r : Z) : bytes :=
  if r <? 128 then [ascii_of r]
  else if r <? 2048 then [ascii_of (192 + r / 64); ascii_of (128 + r mod 64)]
  else if r <? 65536 then [ascii_of (224 + r / 4096); ascii_of (128 + r / 64 mod 64); ascii_of (128 + r mod 64)]
  else [ascii_of (240 + r / 262144); ascii_of (128 + r / 4096 mod 64); ascii_of (128 + r / 64 mod 64);
        ascii_of (128 + r mod 64)].

(** A scalar value of Unicode. *)
Definition valid_rune (r : Z) : Prop := 0 ≤ r ≤ 1114111 ∧ ¬ (55296 ≤ r ≤ 57343).

(** Evaluate the comparisons of the goal. *)
Ltac comparisons :=
  repeat (match goal with
    | |- context [Z.ltb ?a ?b] => first [rewrite (proj2 (Z.ltb_ge a b)) by lia|rewrite (proj2 (Z.ltb_lt a b)) by lia]
    | |- context [Z.leb ?a ?b] => first [rewrite (proj2 (Z.leb_le a b)) by lia|rewrite (proj2 (Z.leb_gt a b)) by lia]
    | |- context [Z.eqb ?a ?b] => first [rewrite (proj2 (Z.eqb_eq a b)) by lia|rewrite (proj2 (Z.eqb_neq a b)) by lia]
    end; cbv beta iota delta [andb]).

Lemma runes_two x y l : 2 ≤ x < 32 → 0 ≤ y < 64 →
  runes (ascii_of (192 + x) :: ascii_of (128 + y) :: l) = (x * 64 + y) :: runes l.
Proof.
  intros. cbn [runes]. unfold between, payload6. rewrite !byte_ascii_of by lia. comparisons. f_equal. lia.
Qed.

Lemma runes_three x y z l : 0 ≤ x < 16 → 0 ≤ y < 64 → 0 ≤ z < 64 →
  (x = 0 → 32 ≤ y) → (x = 13 → y < 32) →
  runes (ascii_of (224 + x) :: ascii_of (128 + y) :: ascii_of (128 + z) :: l) = (x * 4096 + y * 64 + z) :: runes l.
Proof.
  intros. cbn [runes]. unfold between, payload6, second_of_three, between. rewrite !byte_ascii_of by lia.
  destruct (Z.eqb_spec (224 + x) 224); [|destruct (Z.eqb_spec (224 + x) 237)]; comparisons; f_equal; lia.
Qed.

Lemma runes_four x y z t l : 0 ≤ x < 5 → 0 ≤ y < 64 → 0 ≤ z < 64 → 0 ≤ t < 64 →
  (x = 0 → 16 ≤ y) → (x = 4 → y < 16) →
  runes (ascii_of (240 + x) :: ascii_of (128 + y) :: ascii_of (128 + z) :: ascii_of (128 + t) :: l)
  = (x * 262144 + y * 4096 + z * 64 + t) :: runes l.
Proof.
  intros. cbn [runes]. unfold between, payload6, second_of_three, second_of_four, between. rewrite !byte_ascii_of by lia.
  destruct (Z.eqb_spec (240 + x) 240); [|destruct (Z.eqb_spec (240 + x) 244)]; comparisons; f_equal; lia.
Qed.

Lemma div_mod64 r : 0 ≤ r → r = 64 * (r / 64) + r mod 64 ∧ 0 ≤ r mod 64 < 64 ∧ 0 ≤ r / 64.
Proof. intros. pose proof (Z.div_mod r 64). pose proof (Z.mod_pos_bound r 64). pose proof (Z.div_pos r 64). lia. Qed.

Lemma runes_rune_bytes r l : valid_rune r → runes (rune_bytes r ++ l) = r :: runes l.
Proof.
  intros [Hr Hs]. unfold rune_bytes.
  change 4096 with (64 * 64). change 262144 with (64 * (64 * 64)). rewrite <-!Z.div_div by lia.
  pose proof (div_mod64 r ltac:(lia)) as (E1 & B1 & P1).
  pose proof (div_mod64 (r / 64) ltac:(lia)) as (E2 & B2 & P2).
  pose proof (div_mod64 (r / 64 / 64) ltac:(lia)) as (E3 & B3 & P3).
  destruct (Z.ltb_spec r 128); [|destruct (Z.ltb_spec r 2048); [|destruct (Z.ltb_spec r 65536)]]; cbn [app].
  - cbn [runes]. rewrite byte_ascii_of by lia. by comparisons.
  - rewrite runes_two by lia. f_equal. lia.
  - rewrite runes_three by lia. f_equal. lia.
  - rewrite runes_four by lia. f_equal. lia.
Qed.

(** [strings.Trim] with a cutset of ASCII bytes. *)
Definition TrimCut (cut : bytes) (l : bytes) : bytes :=
  let cutset a := bool_decide (a ∈ cut) in
  reverse (drop_while cutset (reverse (drop_while cutset l))).
