(* ===== verification/Duration.v ===== *)
(** * Durations as text: [time.ParseDuration] and [Duration.String]

    A duration is read in 64 bits, every overflow an error; a fraction is a
    float64, computed with the standard library's specification of binary64. *)

From S2P Require Export Text.
From Stdlib Require Import SpecFloat.

(** ** Binary64 *)

Definition float64 (z : Z) : spec_float := binary_normalize 53 1024 z 0 false.
Definition float_mul : spec_float → spec_float → spec_float := SFmul 53 1024.
Definition float_div : spec_float → spec_float → spec_float := SFdiv 53 1024.
(** [uint64(f)] of a nonnegative float: truncated. *)
Definition float_trunc (f : spec_float) : Z :=
  match f with S754_finite false m e => Z.shiftl (Zpos m) e | _ => 0 end.

(** ** [time.ParseDuration] *)

(** [leadingInt]: the digits in front, [None] beyond [1 << 63], and the rest. *)
Fixpoint leadingInt (x : Z) (l : bytes) : option (Z * bytes) :=
  match l with
  | c :: rest =>
      if digit_byte c then
        if 2 ^ 63 / 10 <? x then None else
        let x := x * 10 + (byte c - 48) in
        if 2 ^ 63 <? x then None else leadingInt x rest
      else Some (x, l)
  | [] => Some (x, l)
  end.

(** [leadingFraction]: digits that do not fit are skipped. *)
Fixpoint leadingFraction (x : Z) (scale : spec_float) (overflow : bool) (l : bytes) : Z * spec_float * bytes :=
  match l with
  | c :: rest =>
      if digit_byte c then
        if overflow then leadingFraction x scale true rest else
        if (2 ^ 63 - 1) / 10 <? x then leadingFraction x scale true rest else
        let y := x * 10 + (byte c - 48) in
        if 2 ^ 63 <? y then leadingFraction x scale true rest
        else leadingFraction y (float_mul scale (float64 10)) false rest
      else (x, scale, l)
  | [] => (x, scale, l)
  end.

Definition is_dot (a : Ascii.ascii) : bool := byte a =? 46.

(** The unit ends at a dot or a digit. *)
Fixpoint take_unit (l : bytes) : bytes * bytes :=
  match l with
  | c :: rest => if is_dot c || digit_byte c then ([], l) else let '(u, rest) := take_unit rest in (c :: u, rest)
  | [] => ([], [])
  end.

(** [unitMap]; the two spellings of the microsecond are U+00B5 and U+03BC. *)
Definition unit_of (u : string) : option duration :=
  if bool_decide (u = "ns") then Some nanosecond
  else if bool_decide (u ∈ ["us"; of_bytes (ascii_of <$> [194; 181; 115]); of_bytes (ascii_of <$> [206; 188; 115])])
  then Some (1000 * nanosecond)
  else if bool_decide (u = "ms") then Some millisecond
  else if bool_decide (u = "s") then Some second
  else if bool_decide (u = "m") then Some minute
  else if bool_decide (u = "h") then Some hour
  else None.

(** One number with its unit: its nanoseconds and the rest. *)
Definition duration_term (l : bytes) : option (Z * bytes) :=
  if negb (match l with c :: _ => is_dot c || digit_byte c | [] => false end) then None else
  match leadingInt 0 l with
  | None => None
  | Some (v, l1) =>
      let pre := negb (length l1 =? length l)%nat in
      let '(f, scale, l2, post) :=
        match l1 with
        | c :: rest =>
            if is_dot c then let '(f, scale, l2) := leadingFraction 0 (float64 1) false rest in
                             (f, scale, l2, negb (length l2 =? length rest)%nat)
            else (0, float64 1, l1, false)
        | [] => (0, float64 1, l1, false)
        end in
      if negb pre && negb post then None else
      let '(u, l3) := take_unit l2 in
      match unit_of (of_bytes u) with
      | None => None
      | Some unit =>
          if 2 ^ 63 / unit <? v then None else
          let v := v * unit in
          if 0 <? f then
            let v := v + float_trunc (float_mul (float64 f) (float_div (float64 unit) scale)) in
            if 2 ^ 63 <? v then None else Some (v, l3)
          else Some (v, l3)
      end
  end.

Fixpoint duration_terms (fuel : nat) (d : Z) (l : bytes) : option Z :=
  match l, fuel with
  | [], _ => Some d
  | _, O => None
  | _, S fuel' =>
      match duration_term l with
      | None => None
      | Some (v, rest) => if 2 ^ 63 <? d + v then None else duration_terms fuel' (d + v) rest
      end
  end.

(** The absolute value, at most [1 << 63]; each term takes a byte at least, so
    the length is enough fuel. *)
Definition unsigned_duration (l : bytes) : option Z :=
  if bool_decide (l = [ascii_of 48]) then Some 0 else
  match l with [] => None | _ => duration_terms (length l) 0 l end.

Definition ParseDuration (s : string) : option duration :=
  let '(neg, l) := match bytes_of s with
                   | c :: rest => if byte c =? 45 then (true, rest) else if byte c =? 43 then (false, rest)
                                  else (false, c :: rest)
                   | [] => (false, [])
                   end in
  match unsigned_duration l with
  | None => None
  | Some d => if neg then Some (- d) else if 2 ^ 63 - 1 <? d then None else Some d
  end.

(** ** [Duration.String] *)

(** [fmtFrac]: the last [prec] digits as a fraction without its trailing zeros. *)
Fixpoint fmtFrac (prec : nat) (print : bool) (v : Z) (acc : bytes) : bytes * Z :=
  match prec with
  | O => (if print then ascii_of 46 :: acc else acc, v)
  | S prec' =>
      let digit := v mod 10 in
      let print := print || negb (digit =? 0) in
      fmtFrac prec' print (v / 10) (if print then ascii_of (48 + digit) :: acc else acc)
  end.

Definition fmtInt (v : Z) (acc : bytes) : bytes := digits 20 v ++ acc.

Definition duration_bytes (u : Z) : bytes :=
  if u <? second then
    if u =? 0 then bytes_of "0s" else
    let '(prec, unit) := if u <? 1000 then (O, bytes_of "ns")
                         else if u <? millisecond then (3%nat, ascii_of <$> [194; 181; 115])
                         else (6%nat, bytes_of "ms") in
    let '(acc, v) := fmtFrac prec false u unit in fmtInt v acc
  else
    let '(acc, u) := fmtFrac 9 false u (bytes_of "s") in
    let acc := fmtInt (u mod 60) acc in
    let u := u / 60 in
    if 0 <? u then
      let acc := fmtInt (u mod 60) (bytes_of "m" ++ acc) in
      let u := u / 60 in
      if 0 <? u then fmtInt u (bytes_of "h" ++ acc) else acc
    else acc.

Definition Duration_String (d : duration) : string :=
  if d <? 0 then of_bytes (ascii_of 45 :: duration_bytes (- d)) else of_bytes (duration_bytes d).

(** ** Lemmas *)

Lemma leadingInt_length x l v rest : leadingInt x l = Some (v, rest) → (length rest ≤ length l)%nat.
Proof.
  revert x. induction l as [|c l IH]; intros x; cbn; [by intros [= _ <-]|].
  destruct (digit_byte c); [|by intros [= _ <-]].
  destruct (_ <? x); [done|]. destruct (_ <? _); [done|]. intros Hl%IH. lia.
Qed.

Lemma leadingFraction_length x scale o l v s rest :
  leadingFraction x scale o l = (v, s, rest) → (length rest ≤ length l)%nat.
Proof.
  revert x scale o. induction l as [|c l IH]; intros x scale o; cbn; [by intros [= _ _ <-]|].
  destruct (digit_byte c); [|by intros [= _ _ <-]].
  destruct o; [|destruct (_ <? x); [|destruct (_ <? _)]]; intros Hl%IH; lia.
Qed.

Lemma take_unit_length l u rest : take_unit l = (u, rest) → (length u + length rest = length l)%nat.
Proof.
  revert u. induction l as [|c l IH]; intros u; cbn; [by intros [= <- <-]|].
  destruct (is_dot c || digit_byte c); [by intros [= <- <-]|].
  destruct (take_unit l) as [u' rest'] eqn:Hu. intros [= <- <-]. cbn. f_equal. by apply IH.
Qed.

(** Each term takes a byte, so more fuel does not change the result. *)
Lemma duration_term_shorter l v rest : duration_term l = Some (v, rest) → (length rest < length l)%nat.
Proof.
  unfold duration_term. destruct (negb _); [done|]. destruct (leadingInt 0 l) as [[x l1]|] eqn:Hi; [|done].
  apply leadingInt_length in Hi. cbv zeta.
  assert (Hfin : ∀ (f : Z) scale l2 (post : bool), (length l2 ≤ length l1)%nat →
    (if negb (negb (length l1 =? length l)%nat) && negb post then None
     else let '(u, l3) := take_unit l2 in
          match unit_of (of_bytes u) with
          | None => None
          | Some unit =>
              if 2 ^ 63 / unit <? x then None
              else if 0 <? f then
                     if 2 ^ 63 <? x * unit + float_trunc (float_mul (float64 f) (float_div (float64 unit) scale))
                     then None
                     else Some (x * unit + float_trunc (float_mul (float64 f) (float_div (float64 unit) scale)), l3)
                   else Some (x * unit, l3)
          end) = Some (v, rest) → (length rest < length l)%nat).
  { intros f scale l2 post Hl2. destruct (_ && _); [done|]. destruct (take_unit l2) as [u l3] eqn:Hu.
    apply take_unit_length in Hu. destruct u as [|c u].
    - change (unit_of (of_bytes [])) with (@None duration). done.
    - cbn in Hu. intros Heq. assert (l3 = rest) as <-; [|lia]. repeat case_match; by simplify_eq. }
  destruct l1 as [|c l1]; [apply Hfin; cbn; lia|]. destruct (is_dot c); [|apply Hfin; cbn; lia].
  destruct (leadingFraction _ _ _ l1) as [[f scale] l2] eqn:Hf. apply leadingFraction_length in Hf. apply Hfin. cbn; lia.
Qed.

Lemma duration_terms_fuel fuel d l :
  (length l ≤ fuel)%nat → duration_terms fuel d l = duration_terms (length l) d l.
Proof.
  remember (length l) as n eqn:Hn. assert (Hle : (length l ≤ n)%nat) by lia. clear Hn. intros Hf.
  revert fuel d l Hle Hf. induction n as [|n IH]; intros fuel d l Hle Hf.
  - destruct l; [|cbn in Hle; lia]. by destruct fuel.
  - destruct fuel as [|fuel]; [lia|]. destruct l as [|c l]; [done|]. cbn [duration_terms].
    destruct (duration_term (c :: l)) as [[v rest]|] eqn:Ht; [|done]. apply duration_term_shorter in Ht.
    destruct (_ <? _); [done|]. cbn in Ht, Hle. apply IH; lia.
Qed.

(** ** Whole seconds read back *)

Lemma leadingInt_digits acc l rest :
  forallb digit_byte l = true → (∀ c, head rest = Some c → digit_byte c = false) → 0 ≤ acc →
  foldl (λ acc a, 10 * acc + (byte a - 48)) acc l < 2 ^ 63 →
  leadingInt acc (l ++ rest) = Some (foldl (λ acc a, 10 * acc + (byte a - 48)) acc l, rest).
Proof.
  revert acc. induction l as [|c l IH]; intros acc Hl Hr Hacc Hb; cbn in *.
  - destruct rest as [|c rest]; [done|]. cbn. by rewrite (Hr c eq_refl).
  - apply andb_true_iff in Hl as [Hc Hl]. rewrite Hc.
    assert (Hcr : 0 ≤ byte c - 48 ≤ 9) by (unfold digit_byte in Hc; simplify_bool; lia).
    assert (Hmono : ∀ l a, 0 ≤ a → forallb digit_byte l = true → a ≤ foldl (λ acc a, 10 * acc + (byte a - 48)) a l).
    { clear. induction l as [|c l IH]; intros a Ha Hl; cbn in *; [lia|]. apply andb_true_iff in Hl as [Hc Hl].
      unfold digit_byte in Hc. simplify_bool. etrans; [|apply IH; [lia|done]]. lia. }
    pose proof (Hmono l (10 * acc + (byte c - 48)) ltac:(lia) Hl) as Hge.
    destruct (Z.ltb_spec (2 ^ 63 / 10) acc); [exfalso; change (2 ^ 63 / 10) with 922337203685477580 in *; lia|].
    replace (acc * 10 + (byte c - 48)) with (10 * acc + (byte c - 48)) by lia.
    destruct (Z.ltb_spec (2 ^ 63) (10 * acc + (byte c - 48))); [lia|]. apply IH; [done|done|lia|done].
Qed.

Lemma leadingInt_number z c rest :
  0 ≤ z < 2 ^ 63 → digit_byte c = false → leadingInt 0 (digits 20 z ++ c :: rest) = Some (z, c :: rest).
Proof.
  intros Hz Hc. rewrite leadingInt_digits; [| |by intros ? [= <-]|lia|].
  - f_equal. f_equal. apply (digits_value 20 z). change (10 ^ Z.of_nat 20) with 100000000000000000000. lia.
  - apply digits_digit. lia.
  - change (foldl _ 0 _) with (decimal_value (digits 20 z)). rewrite digits_value; [lia|].
    change (10 ^ Z.of_nat 20) with 100000000000000000000. lia.
Qed.

(** A whole number of a unit whose name is one letter. *)
Lemma duration_term_whole z c unit rest :
  0 ≤ z → z * unit < 2 ^ 63 → 0 < unit → unit_of (of_bytes [c]) = Some unit → is_dot c = false → digit_byte c = false →
  (∀ c', head rest = Some c' → is_dot c' || digit_byte c' = true) →
  duration_term (digits 20 z ++ c :: rest) = Some (z * unit, rest).
Proof.
  intros Hz Hb Hu Hunit Hdot Hdig Hrest. unfold duration_term.
  destruct (digits 20 z) as [|d l] eqn:Hd; [by apply digits_not_nil in Hd; [|lia]|].
  assert (Hdd : digit_byte d = true).
  { pose proof (digits_digit 20 z Hz) as Hdg. rewrite Hd in Hdg. cbn in Hdg. by apply andb_true_iff in Hdg as [? _]. }
  cbn [app]. rewrite Hdd, orb_true_r. cbn [negb]. change (d :: l ++ c :: rest) with ((d :: l) ++ c :: rest).
  rewrite <-Hd. rewrite leadingInt_number; [|nia|done]. rewrite Hdot. cbv beta iota zeta.
  replace (length (c :: rest) =? length (digits 20 z ++ c :: rest))%nat with false.
  2: { symmetry. apply Nat.eqb_neq. rewrite length_app, Hd. cbn. lia. }
  cbn [negb andb take_unit]. rewrite Hdot, Hdig. cbn [orb].
  assert (Hempty : take_unit rest = ([], rest)).
  { destruct rest as [|c' rest]; [done|]. cbn. by rewrite (Hrest c' eq_refl). }
  rewrite Hempty, Hunit. destruct (Z.ltb_spec (2 ^ 63 / unit) z); [|done].
  exfalso. pose proof (Z.div_le_lower_bound (2 ^ 63) unit z Hu). lia.
Qed.

Lemma fmtFrac_zeros prec v acc : fmtFrac prec false (v * 10 ^ Z.of_nat prec) acc = (acc, v).
Proof.
  revert v. induction prec as [|prec IH]; intros v; [cbn; by rewrite Z.mul_1_r|]. cbn [fmtFrac].
  rewrite Nat2Z.inj_succ, Z.pow_succ_r by lia.
  replace (v * (10 * 10 ^ Z.of_nat prec)) with (v * 10 ^ Z.of_nat prec * 10) by lia.
  rewrite Z.mod_mul, Z.div_mul by lia. cbn. apply IH.
Qed.

Lemma duration_terms_whole fuel d z c unit rest :
  0 ≤ z → z * unit < 2 ^ 63 → 0 < unit → unit_of (of_bytes [c]) = Some unit → is_dot c = false → digit_byte c = false →
  (∀ c', head rest = Some c' → is_dot c' || digit_byte c' = true) →
  d + z * unit ≤ 2 ^ 63 →
  duration_terms (S fuel) d (digits 20 z ++ c :: rest) = duration_terms fuel (d + z * unit) rest.
Proof.
  intros Hz Hb Hu Hunit Hdot Hdig Hrest Hd. cbn [duration_terms].
  destruct (digits 20 z ++ c :: rest) as [|c0 l] eqn:Hl; [by apply app_eq_nil in Hl as [_ ?]|]. rewrite <-Hl.
  rewrite (duration_term_whole z c unit rest) by done. by destruct (Z.ltb_spec (2 ^ 63) (d + z * unit)); [lia|].
Qed.

Lemma head_digits z rest c : 0 ≤ z → head (digits 20 z ++ rest) = Some c → is_dot c || digit_byte c = true.
Proof.
  intros Hz. pose proof (digits_digit 20 z Hz) as Hd. destruct (digits 20 z) as [|c' l] eqn:Hl; [by apply digits_not_nil in Hl; [|lia]|].
  cbn in Hd. apply andb_true_iff in Hd as [Hd _]. intros [= ->]. by rewrite Hd, orb_true_r.
Qed.

(** What a duration of whole seconds prints as. *)
Definition whole_seconds (n : Z) : bytes :=
  let s := digits 20 (n mod 60) ++ bytes_of "s" in
  if 0 <? n / 60 then
    let m := digits 20 (n / 60 mod 60) ++ bytes_of "m" ++ s in
    if 0 <? n / 60 / 60 then digits 20 (n / 60 / 60) ++ bytes_of "h" ++ m else m
  else s.

Lemma duration_bytes_whole n : 0 ≤ n → duration_bytes (n * second) = whole_seconds n.
Proof.
  intros Hn. unfold duration_bytes, whole_seconds, fmtInt.
  destruct (Z.ltb_spec (n * second) second) as [Hlt|Hge].
  - assert (n = 0) as -> by (unfold second, millisecond in *; lia). reflexivity.
  - change (n * second) with (n * 10 ^ Z.of_nat 9). rewrite fmtFrac_zeros. reflexivity.
Qed.

Lemma unsigned_duration_whole n : 0 ≤ n → n * second < 2 ^ 63 → unsigned_duration (whole_seconds n) = Some (n * second).
Proof.
  intros Hn Hb. unfold unsigned_duration.
  rewrite bool_decide_eq_false_2.
  2: { intros Heq. apply (f_equal (λ l, last l)) in Heq. unfold whole_seconds in Heq.
       repeat case_match; rewrite ?last_app in Heq; cbn in Heq; discriminate Heq. }
  destruct (whole_seconds n) as [|c l] eqn:Hw.
  { exfalso. unfold whole_seconds in Hw. repeat case_match; apply app_eq_nil in Hw as [Hw _]; by apply digits_not_nil in Hw; [|lia]. }
  rewrite <-(duration_terms_fuel (3 + length (c :: l))) by lia. rewrite <-Hw. clear Hw c l.
  assert (Hs : 0 ≤ n mod 60 < 60) by (apply Z.mod_pos_bound; lia).
  assert (Hm : 0 ≤ n / 60 mod 60 < 60) by (apply Z.mod_pos_bound; lia).
  pose proof (Z.div_mod n 60 ltac:(lia)) as Hdn. pose proof (Z.div_mod (n / 60) 60 ltac:(lia)) as Hdm.
  assert (0 ≤ n / 60) by (apply Z.div_pos; lia). assert (0 ≤ n / 60 / 60) by (apply Z.div_pos; lia).
  assert (Hsec : ∀ fuel d, d + n mod 60 * second ≤ 2 ^ 63 →
    duration_terms (S fuel) d (digits 20 (n mod 60) ++ bytes_of "s") = Some (d + n mod 60 * second)).
  { intros fuel d Hd. change (bytes_of "s") with (ascii_of 115 :: []).
    rewrite (duration_terms_whole fuel d _ _ second) by (done || lia || (unfold second, millisecond in *; lia)). by destruct fuel. }
  unfold whole_seconds. destruct (Z.ltb_spec 0 (n / 60)) as [Hpm|Hpm].
  2: { change (3 + ?x)%nat with (S (2 + x)). rewrite Hsec by (unfold second, millisecond in *; lia). f_equal. unfold second, millisecond in *; lia. }
  assert (Hmin : ∀ fuel d, d + n / 60 mod 60 * minute + n mod 60 * second ≤ 2 ^ 63 →
    duration_terms (S (S fuel)) d (digits 20 (n / 60 mod 60) ++ bytes_of "m" ++ digits 20 (n mod 60) ++ bytes_of "s")
    = Some (d + n / 60 mod 60 * minute + n mod 60 * second)).
  { intros fuel d Hd. change (bytes_of "m" ++ ?x) with (ascii_of 109 :: x).
    rewrite (duration_terms_whole _ d _ _ minute) by (done || (intros c'; apply head_digits; lia) || (unfold minute, second, millisecond in *; lia)).
    apply Hsec. unfold minute, second, millisecond in *; lia. }
  destruct (Z.ltb_spec 0 (n / 60 / 60)) as [Hph|Hph].
  2: { change (3 + ?x)%nat with (S (S (1 + x))). rewrite Hmin; [f_equal|]; unfold minute, second, millisecond in *; lia. }
  change (bytes_of "h" ++ ?x) with (ascii_of 104 :: x). change (3 + ?x)%nat with (S (S (S x))).
  rewrite (duration_terms_whole _ 0 _ _ hour) by (done || (intros c'; apply head_digits; lia) || (unfold hour, minute, second, millisecond in *; lia)).
  rewrite Hmin; [f_equal|]; unfold hour, minute, second, millisecond in *; lia.
Qed.

(** A duration of whole seconds is read back as it was printed. *)
Lemma ParseDuration_String n : 0 ≤ n → n * second < 2 ^ 63 → ParseDuration (Duration_String (n * second)) = Some (n * second).
Proof.
  intros Hn Hb. unfold Duration_String, ParseDuration.
  destruct (Z.ltb_spec (n * second) 0); [unfold second, millisecond in *; lia|].
  rewrite bytes_of_of_bytes, duration_bytes_whole by done.
  pose proof (unsigned_duration_whole n Hn Hb) as Hu.
  destruct (whole_seconds n) as [|c l] eqn:Hw.
  - by rewrite Hu; destruct (Z.ltb_spec (2 ^ 63 - 1) (n * second)); [lia|].
  - assert (Hc : digit_byte c = true).
    { assert (Hh : ∀ z rest, 0 ≤ z → digits 20 z ++ rest = c :: l → digit_byte c = true).
      { intros z rest Hz Heq. pose proof (digits_digit 20 z Hz) as Hd.
        destruct (digits 20 z) as [|c' l'] eqn:Hl; [by apply digits_not_nil in Hl; [|lia]|].
        cbn in Heq, Hd. injection Heq as -> _. by apply andb_true_iff in Hd as [? _]. }
      unfold whole_seconds in Hw.
      repeat case_match; eapply Hh; try exact Hw; try (apply Z.mod_pos_bound; lia); apply Z.div_pos; [apply Z.div_pos|]; lia. }
    unfold digit_byte in Hc. simplify_bool.
    destruct (Z.eqb_spec (byte c) 45); [lia|]. destruct (Z.eqb_spec (byte c) 43); [lia|].
    rewrite Hu. by destruct (Z.ltb_spec (2 ^ 63 - 1) (n * second)); [lia|].
Qed.

