(* ===== verification/Encoding.v ===== *)
(** * Text encodings of the standard library

    [encoding/base64] (RawStdEncoding, RawURLEncoding) and [encoding/base32]
    (StdEncoding without padding) as the sources of packages auth and mfa use
    them.  Byte slices are lists of bytes. *)

From S2P Require Export Text.

(** ** Bits, most significant first *)

Definition bits_of (w : nat) (z : Z) : list bool :=
  (λ i, Z.testbit z (Z.of_nat (w - 1 - i))) <$> seq 0 w.
Definition of_bits (l : list bool) : Z := foldl (λ acc b, 2 * acc + Z.b2z b) 0 l.

(** The first [k] groups of [n] elements. *)
Fixpoint groups {A} (n k : nat) (l : list A) : list (list A) :=
  match k with
  | O => []
  | S k' => take n l :: groups n k' (drop n l)
  end.

Lemma length_bits_of w z : length (bits_of w z) = w.
Proof. unfold bits_of. by rewrite length_fmap, length_seq. Qed.

Lemma bits_of_S w z : bits_of (S w) z = Z.testbit z (Z.of_nat w) :: bits_of w z.
Proof.
  unfold bits_of. cbn [seq fmap list_fmap]. f_equal; [by rewrite Nat.sub_0_r, Nat.sub_succ, Nat.sub_0_r|].
  rewrite <- (fmap_S_seq 0 w), <- list_fmap_compose. apply list_fmap_ext. intros i x Hx.
  cbn. f_equal. lia.
Qed.

Lemma of_bits_acc l acc : foldl (λ acc b, 2 * acc + Z.b2z b) acc l = acc * 2 ^ Z.of_nat (length l) + of_bits l.
Proof.
  unfold of_bits. revert acc. induction l as [|b l IH]; intros acc; cbn [foldl length]; [lia|].
  rewrite IH, (IH (2 * 0 + _)), Nat2Z.inj_succ, Z.pow_succ_r by lia. ring.
Qed.

Lemma of_bits_of w z : 0 ≤ z < 2 ^ Z.of_nat w → of_bits (bits_of w z) = z.
Proof.
  revert z. induction w as [|w IH]; intros z Hz; [cbn in *; lia|].
  rewrite bits_of_S. unfold of_bits. cbn [foldl]. rewrite of_bits_acc, length_bits_of.
  rewrite Nat2Z.inj_succ, Z.pow_succ_r in Hz by lia.
  set (p := 2 ^ Z.of_nat w) in *. assert (Hp : 0 < p) by (apply Z.pow_pos_nonneg; lia).
  assert (Hlow : bits_of w z = bits_of w (z mod p)).
  { unfold bits_of. apply list_fmap_ext. intros i x [-> Hi]%lookup_seq. unfold p.
    rewrite Z.mod_pow2_bits_low; [done|]. lia. }
  rewrite Hlow, IH by (apply Z.mod_pos_bound; lia).
  assert (Hb : Z.b2z (Z.testbit z (Z.of_nat w)) = z / p).
  { rewrite Z.testbit_spec' by lia. fold p. apply Z.mod_small. split; [by apply Z.div_pos; lia|].
    apply Z.div_lt_upper_bound; lia. }
  rewrite Hb. pose proof (Z.div_mod z p). lia.
Qed.

Section Groups.
Context {A : Type}.
Implicit Types (l rest : list A) (ls : list (list A)).

Lemma groups_mjoin n ls rest :
  (∀ g, g ∈ ls → length g = n) → groups n (length ls) (mjoin ls ++ rest) = ls.
Proof.
  induction ls as [|g ls IH]; intros Hn; [done|]. cbn [length groups].
  cbn [mjoin list_join]. rewrite <- app_assoc.
  assert (Hg : length g = n) by (apply Hn; left). rewrite take_app_length', drop_app_length' by done.
  f_equal. apply IH. intros x Hx. apply Hn. by right.
Qed.

Lemma mjoin_groups n k l : (n * k ≤ length l)%nat → mjoin (groups n k l) = take (n * k) l.
Proof.
  revert l. induction k as [|k IH]; intros l Hl; [by rewrite Nat.mul_0_r|].
  cbn [groups mjoin list_join]. rewrite IH by (rewrite length_drop; lia).
  rewrite Nat.mul_succ_r, Nat.add_comm. by rewrite take_take_drop.
Qed.

Lemma length_groups n k l : length (groups n k l) = k.
Proof. revert l. induction k as [|k IH]; intros l; cbn; auto. Qed.

Lemma elem_of_groups n k l g : (n * k ≤ length l)%nat → g ∈ groups n k l → length g = n.
Proof.
  revert l. induction k as [|k IH]; intros l Hl; cbn [groups]; [by intros ?%not_elem_of_nil|].
  intros [->|Hg]%elem_of_cons; [rewrite length_take; lia|].
  eapply IH; [|exact Hg]. rewrite length_drop. lia.
Qed.
End Groups.

(** ** Base encodings: groups of [w] bits become characters of an alphabet *)

Section Codec.
Context (w : nat) (alphabet : string).

Definition to_char (g : list bool) : Ascii.ascii :=
  default Ascii.zero (bytes_of alphabet !! Z.to_nat (of_bits g)).
Definition of_char (c : Ascii.ascii) : option (list bool) :=
  (λ p, bits_of w (Z.of_nat p.1)) <$> list_find (λ x, x = c) (bytes_of alphabet).

Definition all_bits (b : bytes) : list bool := mjoin ((λ a, bits_of 8 (byte a)) <$> b).

(** The number of characters of an encoding without padding. *)
Definition encoded_length (n : nat) : nat := ((8 * n + w - 1) / w)%nat.

Definition encode_groups (b : bytes) : list (list bool) :=
  groups w (encoded_length (length b)) (all_bits b ++ replicate w false).

(** The whole bytes of the bits; what is left over is dropped. *)
Definition pack (gs : list (list bool)) : bytes :=
  (λ g, ascii_of (of_bits g)) <$> groups 8 (w * length gs / 8) (mjoin gs).

(** \r and \n are skipped; another character outside the alphabet is an error. *)
Definition read_groups (s : bytes) : option (list (list bool)) :=
  mapM of_char (filter (λ a, byte a ≠ 10 ∧ byte a ≠ 13) s).


Lemma ascii_of_byte a : ascii_of (byte a) = a.
Proof. unfold ascii_of, byte. by rewrite Nat2Z.id, Ascii.ascii_nat_embedding. Qed.

Lemma length_all_bits b : length (all_bits b) = (8 * length b)%nat.
Proof.
  induction b as [|a b IH]; [done|]. change (all_bits (a :: b)) with (bits_of 8 (byte a) ++ all_bits b).
  rewrite length_app, length_bits_of, IH. cbn [length]. lia.
Qed.

Section Roundtrip.
Context (w_ok : (0 < w ≤ 8)%nat).

Lemma encoded_length_bounds n : (8 * n ≤ w * encoded_length n < 8 * n + w)%nat.
Proof.
  unfold encoded_length.
  pose proof (Nat.div_mod (8 * n + w - 1) w). pose proof (Nat.mod_upper_bound (8 * n + w - 1) w). lia.
Qed.

Lemma encode_groups_fit b :
  (w * encoded_length (length b) ≤ length (all_bits b ++ replicate w false))%nat.
Proof.
  rewrite length_app, length_all_bits, length_replicate. pose proof (encoded_length_bounds (length b)). lia.
Qed.

Lemma pack_encode b : pack (encode_groups b) = b.
Proof.
  pose proof (encoded_length_bounds (length b)) as Hk. unfold pack, encode_groups.
  rewrite mjoin_groups by apply encode_groups_fit. rewrite length_groups.
  replace (w * encoded_length (length b) / 8)%nat with (length b).
  2:{ apply (Nat.div_unique _ 8 _ (w * encoded_length (length b) - 8 * length b)); lia. }
  rewrite take_app, take_ge by (rewrite length_all_bits; lia).
  unfold all_bits at 1. rewrite <- (length_fmap (λ a, bits_of 8 (byte a)) b) at 1.
  rewrite groups_mjoin.
  - rewrite <- list_fmap_compose. rewrite <- (list_fmap_id b) at 2. apply list_fmap_ext. intros i a _.
    unfold compose. rewrite of_bits_of; [apply ascii_of_byte|apply byte_range].
  - intros g (a & -> & _)%list_elem_of_fmap. apply length_bits_of.
Qed.

Context (alphabet_ok : ∀ g, length g = w → of_char (to_char g) = Some g ∧ byte (to_char g) ≠ 10
                            ∧ byte (to_char g) ≠ 13).

Lemma read_encode b : read_groups (to_char <$> encode_groups b) = Some (encode_groups b).
Proof.
  unfold read_groups.
  assert (Hall : ∀ g, g ∈ encode_groups b → length g = w).
  { intros g. apply elem_of_groups, encode_groups_fit. }
  rewrite filter_all.
  - induction (encode_groups b) as [|g gs IH]; [done|]. cbn.
    rewrite (proj1 (alphabet_ok g (Hall g ltac:(left)))). cbn. rewrite IH; [done|].
    intros x Hx. apply Hall. by right.
  - intros c (g & -> & Hg)%list_elem_of_fmap. by apply alphabet_ok, Hall.
Qed.
End Roundtrip.
End Codec.

(** Every group of [w] bits, to check an alphabet by evaluation. *)
Fixpoint all_groups (w : nat) : list (list bool) :=
  match w with
  | O => [[]]
  | S w' => (cons true <$> all_groups w') ++ (cons false <$> all_groups w')
  end.

Lemma elem_of_all_groups w g : length g = w → g ∈ all_groups w.
Proof.
  revert g. induction w as [|w IH]; intros g Hg; [destruct g; [left|done]|].
  destruct g as [|[] g]; [done|..]; cbn; apply elem_of_app; [left|right];
    apply list_elem_of_fmap_2, IH; cbn in Hg; lia.
Qed.

Definition check_alphabet (w : nat) (alphabet : string) : bool :=
  forallb (λ g, bool_decide (of_char w alphabet (to_char alphabet g) = Some g)
                && bool_decide (byte (to_char alphabet g) ≠ 10 ∧ byte (to_char alphabet g) ≠ 13))
    (all_groups w).

Lemma check_alphabet_ok w alphabet :
  check_alphabet w alphabet = true →
  ∀ g, length g = w → of_char w alphabet (to_char alphabet g) = Some g
                      ∧ byte (to_char alphabet g) ≠ 10 ∧ byte (to_char alphabet g) ≠ 13.
Proof.
  unfold check_alphabet. rewrite forallb_forall. intros Hall g Hg.
  specialize (Hall g (proj1 (list_elem_of_In _ _) (elem_of_all_groups w g Hg))). simplify_bool. done.
Qed.

(** ** The encodings of the sources *)

Definition std_alphabet : string :=
  "ABCDEFGHIJKLMNOPQRSTUVWXYZabcdefghijklmnopqrstuvwxyz0123456789+/".
Definition url_alphabet : string :=
  "ABCDEFGHIJKLMNOPQRSTUVWXYZabcdefghijklmnopqrstuvwxyz0123456789-_".
Definition base32_alphabet : string := "ABCDEFGHIJKLMNOPQRSTUVWXYZ234567".

(** [base64.RawStdEncoding] and [base64.RawURLEncoding]: one character left over
    is an error, the unused bits of the last character are not examined. *)
Definition base64_encode (alphabet : string) (b : bytes) : string :=
  of_bytes (to_char alphabet <$> encode_groups 6 b).
Definition base64_decode (alphabet : string) (s : string) : option bytes :=
  match read_groups 6 alphabet (bytes_of s) with
  | Some gs => if decide (length gs mod 4 = 1)%nat then None else Some (pack 6 gs)
  | None => None
  end.

(** [base32.StdEncoding.WithPadding(base32.NoPadding)]: a last quantum of 1, 3
    or 6 characters is dropped without an error. *)
Definition base32_encode (b : bytes) : string := of_bytes (to_char base32_alphabet <$> encode_groups 5 b).
Definition base32_decode (s : string) : option bytes :=
  match read_groups 5 base32_alphabet (bytes_of s) with
  | Some gs =>
      let n := length gs in
      Some (pack 5 (if decide (n mod 8 ∈ [1; 3; 6])%nat then take (n - n mod 8) gs else gs))
  | None => None
  end.

(** [base64.StdEncoding.DecodeString]: a whole number of groups of four
    characters, of which the last may end in one or two [=]. *)
Definition strip_padding (l : bytes) : bytes :=
  match reverse l with
  | a :: b :: r => if byte a =? 61 then if byte b =? 61 then reverse r else reverse (b :: r) else l
  | _ => l
  end.
Definition StdEncoding_DecodeString (s : string) : option bytes :=
  let l := filter (λ a, byte a ≠ 10 ∧ byte a ≠ 13) (bytes_of s) in
  if decide (length l mod 4 = 0)%nat
  then base64_decode std_alphabet (of_bytes (strip_padding l)) else None.

(** [base64.StdEncoding.EncodeToString] *)
Definition StdEncoding_EncodeToString (b : bytes) : string :=
  let text := base64_encode std_alphabet b in
  text +:+ of_bytes (replicate ((4 - String.length text mod 4) mod 4) (ascii_of 61)).

Example StdEncoding_DecodeString_example :
  StdEncoding_DecodeString "aGVsbG8=" = Some (bytes_of "hello")
  ∧ StdEncoding_DecodeString "aGVsbG8" = None ∧ StdEncoding_DecodeString "a===" = None
  ∧ StdEncoding_DecodeString "YWI=YWI=" = None.
Proof. split_and!; vm_compute; reflexivity. Qed.

Lemma base64_roundtrip alphabet b :
  check_alphabet 6 alphabet = true → base64_decode alphabet (base64_encode alphabet b) = Some b.
Proof.
  intros Ha. unfold base64_decode, base64_encode. rewrite bytes_of_of_bytes.
  rewrite read_encode; [|lia|by apply check_alphabet_ok]. rewrite decide_False.
  - by rewrite pack_encode by lia.
  - unfold encode_groups. rewrite length_groups. pose proof (encoded_length_bounds 6 ltac:(lia) (length b)).
    revert H. generalize (length b). intros n. generalize (encoded_length 6 n). intros k H Hm.
    pose proof (Nat.div_mod k 4 ltac:(lia)). lia.
Qed.

(** The padding that a whole number of groups of four needs, taken off again. *)
Lemma strip_padding_padded (l : bytes) (p : nat) :
  (p ≤ 2)%nat → (p = 1%nat → l ≠ []) → (∀ a, a ∈ l → byte a ≠ 61) → strip_padding (l ++ replicate p (ascii_of 61)) = l.
Proof.
  intros Hp Hne Hl. assert (Hrev : ∀ a r, reverse l = a :: r → (byte a =? 61) = false).
  { intros a r Hr. apply Z.eqb_neq, Hl, elem_of_reverse. rewrite Hr. left. }
  unfold strip_padding. rewrite reverse_app. destruct p as [|[|[|p]]]; [| | |lia]; cbn [replicate].
  - rewrite app_nil_r, reverse_nil, app_nil_l. destruct (reverse l) as [|a [|b r]] eqn:Hr; [done..|].
    by rewrite (Hrev _ _ eq_refl).
  - rewrite reverse_singleton. cbn [app].
    destruct (reverse l) as [|b r] eqn:Hr; [apply (f_equal reverse) in Hr; rewrite reverse_involutive in Hr; by destruct Hne|].
    change (byte (ascii_of 61) =? 61) with true. cbv iota. by rewrite (Hrev _ _ eq_refl), <- Hr, reverse_involutive.
  - cbn. apply reverse_involutive.
Qed.

Lemma string_length s : String.length s = length (bytes_of s).
Proof. unfold bytes_of. induction s as [|c s IH]; cbn; [done|]. by rewrite IH. Qed.

Lemma padded_length n : ((n + (4 - n mod 4) mod 4) mod 4 = 0)%nat.
Proof.
  rewrite <- Nat.Div0.add_mod_idemp_l. pose proof (Nat.mod_upper_bound n 4 ltac:(lia)).
  by destruct (n mod 4)%nat as [|[|[|[|]]]]; [..|lia].
Qed.

Definition no_padding_char (g : list bool) : bool := negb (byte (to_char std_alphabet g) =? 61).

Lemma std_char g :
  length g = 6%nat →
  byte (to_char std_alphabet g) ≠ 10 ∧ byte (to_char std_alphabet g) ≠ 13 ∧ byte (to_char std_alphabet g) ≠ 61.
Proof.
  intros Hg. destruct (check_alphabet_ok 6 std_alphabet ltac:(vm_compute; reflexivity) g Hg) as (_ & ? & ?).
  assert (Hall : forallb no_padding_char (all_groups 6) = true) by (vm_compute; reflexivity).
  rewrite forallb_forall in Hall.
  specialize (Hall g (proj1 (list_elem_of_In _ _) (elem_of_all_groups 6 g Hg))).
  unfold no_padding_char in Hall. apply negb_true_iff, Z.eqb_neq in Hall. done.
Qed.

Lemma StdEncoding_roundtrip b : StdEncoding_DecodeString (StdEncoding_EncodeToString b) = Some b.
Proof.
  unfold StdEncoding_EncodeToString, StdEncoding_DecodeString. cbv zeta.
  pose proof (base64_roundtrip std_alphabet b ltac:(vm_compute; reflexivity)) as Hrt.
  assert (Hk : (length (encode_groups 6 b) mod 4 ≠ 1)%nat).
  { unfold encode_groups. rewrite length_groups. pose proof (encoded_length_bounds 6 ltac:(lia) (length b)) as Hb.
    revert Hb. generalize (length b). intros n. generalize (encoded_length 6 n). intros k Hb Hm.
    pose proof (Nat.div_mod k 4 ltac:(lia)). lia. }
  unfold base64_encode in *. set (l := to_char std_alphabet <$> encode_groups 6 b) in *.
  assert (Hl : ∀ a, a ∈ l → byte a ≠ 10 ∧ byte a ≠ 13 ∧ byte a ≠ 61).
  { intros a (g & -> & Hg)%list_elem_of_fmap. apply std_char. eapply elem_of_groups; [|exact Hg]. apply encode_groups_fit. lia. }
  replace (length (encode_groups 6 b)) with (length l) in Hk by apply length_fmap.
  rewrite string_length, bytes_of_app, !bytes_of_of_bytes.
  rewrite filter_all.
  2:{ intros a [Ha| [-> _]%elem_of_replicate]%elem_of_app; [by apply Hl in Ha as (? & ? & _)|done]. }
  rewrite decide_True.
  - rewrite strip_padding_padded; [exact Hrt| |by intros Hp Hnil; rewrite Hnil in Hp|by intros a (_ & _ & ?)%Hl].
    pose proof (Nat.mod_upper_bound (length l) 4 ltac:(lia)).
    destruct (length l mod 4)%nat as [|[|[|[|]]]]; cbn; lia.
  - rewrite length_app, length_replicate. apply padded_length.
Qed.

Lemma base32_roundtrip b : base32_decode (base32_encode b) = Some b.
Proof.
  unfold base32_decode, base32_encode. rewrite bytes_of_of_bytes.
  rewrite read_encode; [|lia|apply check_alphabet_ok; vm_compute; reflexivity].
  cbv zeta. rewrite decide_False; [by rewrite pack_encode by lia|].
  unfold encode_groups. rewrite length_groups. pose proof (encoded_length_bounds 5 ltac:(lia) (length b)) as Hk.
  revert Hk. generalize (length b). intros n. generalize (encoded_length 5 n). intros k Hk Hm.
  rewrite !elem_of_cons in Hm. pose proof (Nat.div_mod k 8 ltac:(lia)) as Hd.
  destruct Hm as [Hm|[Hm|[Hm|Hm%not_elem_of_nil]]]; [lia..|done].
Qed.
