(* ===== verification/Crypto.v ===== *)
(** * Hashes of the standard library: [crypto/sha1], [crypto/sha256], [crypto/hmac]

    FIPS 180-4 and RFC 2104 over byte lists, executable: two-factor codes, recovery
    codes and the hashes of relay credentials are computed with them.  The
    constants of the standards are derived from the square and cube roots they
    are defined by. *)

From S2P Require Export Encoding.

(** ** 32-bit words *)

Definition word (z : Z) : Z := z mod 2 ^ 32.
Definition word_not (z : Z) : Z := 2 ^ 32 - 1 - z.
Definition rotl (n z : Z) : Z := Z.lor (word (Z.shiftl z n)) (Z.shiftr z (32 - n)).
Definition rotr (n z : Z) : Z := rotl (32 - n) z.

(** Big-endian bytes of a number. *)
Definition big_endian (n : nat) (z : Z) : bytes :=
  (λ i, ascii_of (Z.shiftr z (8 * Z.of_nat (n - 1 - i)) mod 256)) <$> seq 0 n.
Definition of_big_endian (b : bytes) : Z := foldl (λ acc a, 256 * acc + byte a) 0 b.

(** The message, a one bit, zeros and the length in bits, in blocks of 16 words. *)
Definition padded (m : bytes) : bytes :=
  let n := length m in
  m ++ ascii_of 128 :: replicate (Nat.modulo (119 - Nat.modulo n 64) 64) Ascii.zero
    ++ big_endian 8 (8 * Z.of_nat n).

Definition blocks (m : bytes) : list (list Z) :=
  let p := padded m in
  (λ block, of_big_endian <$> groups 4 16 block) <$> groups 64 (Nat.div (length p) 64) p.

Definition digest (words : list Z) : bytes := mjoin (big_endian 4 <$> words).

(** The message schedule, extended [n] times by a word computed from the last
    16, and kept in reverse while it grows. *)
Fixpoint extend (next : list Z → Z) (n : nat) (rev : list Z) : list Z :=
  match n with
  | O => reverse rev
  | S n' => extend next n' (next rev :: rev)
  end.
(** The word [k] places back. *)
Definition back (k : nat) (rev : list Z) : Z := nth (k - 1) rev 0.

(** ** SHA-1 *)

Definition sha1_constant (t : nat) : Z :=
  let root k := Z.sqrt (k * 2 ^ 60) in
  if (t <? 20)%nat then root 2 else if (t <? 40)%nat then root 3
  else if (t <? 60)%nat then root 5 else root 10.

Definition sha1_f (t : nat) (b c d : Z) : Z :=
  if (t <? 20)%nat then Z.lor (Z.land b c) (Z.land (word_not b) d)
  else if (t <? 40)%nat then Z.lxor (Z.lxor b c) d
  else if (t <? 60)%nat then Z.lor (Z.lor (Z.land b c) (Z.land b d)) (Z.land c d)
  else Z.lxor (Z.lxor b c) d.

Definition sha1_schedule (block : list Z) : list Z :=
  extend (λ r, rotl 1 (Z.lxor (Z.lxor (back 3 r) (back 8 r)) (Z.lxor (back 14 r) (back 16 r))))
    64 (reverse block).

Definition sha1_round (state : list Z) (tw : nat * Z) : list Z :=
  match state with
  | [a; b; c; d; e] =>
      [word (rotl 5 a + sha1_f tw.1 b c d + e + tw.2 + sha1_constant tw.1); a; rotl 30 b; c; d]
  | _ => state
  end.

Definition sha1_block (state : list Z) (block : list Z) : list Z :=
  zip_with (λ x y, word (x + y)) state
    (foldl sha1_round state (zip (seq 0 80) (sha1_schedule block))).

Definition sha1_init : list Z := [1732584193; 4023233417; 2562383102; 271733878; 3285377520].

Definition sha1_Sum (m : bytes) : bytes := digest (foldl sha1_block sha1_init (blocks m)).

(** ** SHA-256 *)

Definition primes64 : list Z :=
  filter (λ p, forallb (λ q, negb (p mod q =? 0)) (seqZ 2 (p - 2))) (seqZ 2 310).

(** The integer cube root below [2 ^ 36]. *)
Definition cube_root (z : Z) : Z :=
  foldr (λ b r, let r' := r + 2 ^ Z.of_nat b in if r' * r' * r' <=? z then r' else r) 0
    (seq 0 36).

Definition sha256_constants : list Z :=
  Eval vm_compute in ((λ p, word (cube_root (p * 2 ^ 96))) <$> primes64).
Definition sha256_init : list Z :=
  Eval vm_compute in ((λ p, word (Z.sqrt (p * 2 ^ 64))) <$> take 8 primes64).

Definition xor3 (a b c : Z) : Z := Z.lxor (Z.lxor a b) c.

Definition sha256_schedule (block : list Z) : list Z :=
  extend (λ r,
    let s0 := let w := back 15 r in xor3 (rotr 7 w) (rotr 18 w) (Z.shiftr w 3) in
    let s1 := let w := back 2 r in xor3 (rotr 17 w) (rotr 19 w) (Z.shiftr w 10) in
    word (back 16 r + s0 + back 7 r + s1)) 48 (reverse block).

Definition sha256_round (state : list Z) (kw : Z * Z) : list Z :=
  match state with
  | [a; b; c; d; e; f; g; h] =>
      let t1 := h + xor3 (rotr 6 e) (rotr 11 e) (rotr 25 e)
                + Z.lxor (Z.land e f) (Z.land (word_not e) g) + kw.1 + kw.2 in
      let t2 := xor3 (rotr 2 a) (rotr 13 a) (rotr 22 a)
                + xor3 (Z.land a b) (Z.land a c) (Z.land b c) in
      [word (t1 + t2); a; b; c; word (d + t1); e; f; g]
  | _ => state
  end.

Definition sha256_block (state : list Z) (block : list Z) : list Z :=
  zip_with (λ x y, word (x + y)) state
    (foldl sha256_round state (zip sha256_constants (sha256_schedule block))).

Definition sha256_Sum (m : bytes) : bytes := digest (foldl sha256_block sha256_init (blocks m)).

(** ** HMAC (block size 64) *)

Definition hmac_sum (sum : bytes → bytes) (key m : bytes) : bytes :=
  let key := if (64 <? length key)%nat then sum key else key in
  let key := key ++ replicate (64 - length key) Ascii.zero in
  let pad x := (λ a, ascii_of (Z.lxor (byte a) x)) <$> key in
  sum (pad 92 ++ sum (pad 54 ++ m)).

(** The digest has 32 bytes. *)
Lemma sha256_Sum_length m : length (sha256_Sum m) = 32%nat.
Proof.
  assert (Hround : ∀ state kw, length state = 8%nat → length (sha256_round state kw) = 8%nat).
  { intros state kw Hs. do 8 (destruct state as [|? state]; [done|]). by destruct state. }
  assert (Hblocks : ∀ bs state, length state = 8%nat → length (foldl sha256_block state bs) = 8%nat).
  { induction bs as [|b bs IH]; intros state Hs; cbn [foldl]; [done|]. apply IH. unfold sha256_block.
    rewrite length_zip_with, Hs. apply Nat.min_l. generalize (zip sha256_constants (sha256_schedule b)).
    intros l. revert state Hs. induction l as [|kw l IHl]; intros state Hs; cbn [foldl]; [lia|]. by apply IHl, Hround. }
  unfold sha256_Sum, digest. specialize (Hblocks (blocks m) sha256_init eq_refl).
  destruct (foldl _ _ _) as [|a l]; [done|]. revert Hblocks. do 8 (destruct l as [|? l]; try done).
Qed.

(** The digests are computed by [vm_compute] only, never by unification. *)
#[global] Opaque sha1_Sum sha256_Sum hmac_sum.
