(* ===== verification/Password.v ===== *)
(** * Passwords (art-api/internal/auth/password.go, password_policy.go)

    [argon2.IDKey] is third-party code and a parameter; the salt and
    [runtime.NumCPU()] are arguments. *)

From S2P Require Export Encoding.

(** ** password.go *)

Class Argon2 := {
  IDKey : bytes → bytes → Z → Z → Z → Z → bytes;
  IDKey_length password salt iterations memory parallelism keyLen :
    0 < keyLen → Z.of_nat (length (IDKey password salt iterations memory parallelism keyLen)) = keyLen
}.

Definition argonMemory : Z := 64 * 1024.
Definition argonIterations : Z := 3.
Definition argonParallelism : Z := 2.
Definition argonSaltLength : Z := 16.
Definition argonKeyLength : Z := 32.

Section Password.
Context `{Argon2}.

Definition argon_parallelism (numCPU : Z) : Z := if numCPU =? 1 then 1 else argonParallelism.

Definition password_key (password : string) (salt : bytes) (numCPU : Z) : bytes :=
  IDKey (bytes_of password) salt argonIterations argonMemory (argon_parallelism numCPU) argonKeyLength.

(** [salt] is what [rand.Read] filled the buffer with, [None] its error. *)
Definition HashPassword (password : string) (salt : option bytes) (numCPU : Z) : res string :=
  if (len password <? 1) || (1024 <? len password)
  then Err (ErrText "password length must be between 1 and 1024 bytes") else
  match salt with
  | None => Err (ErrText "generate password salt")
  | Some salt =>
      Ok ("$argon2id$v=19$m=" +:+ format_d argonMemory +:+ ",t=" +:+ format_d argonIterations
          +:+ ",p=" +:+ format_d (argon_parallelism numCPU)
          +:+ "$" +:+ base64_encode std_alphabet salt
          +:+ "$" +:+ base64_encode std_alphabet (password_key password salt numCPU))
  end.

(** [strings.HasPrefix], then [strings.TrimPrefix] *)
Definition parseParameter (value : bytes) (prefix : string) : option Z :=
  if bool_decide (take (String.length prefix) value = bytes_of prefix)
  then ParseUint32 (drop (String.length prefix) value) else None.

(** A parameter within its limits. *)
Definition limited (lo hi : Z) (o : option Z) : option Z :=
  match o with
  | Some v => if (v <? lo) || (hi <? v) then None else Some v
  | None => None
  end.

(** Decoded bytes within the limits of a salt or a key. *)
Definition decoded (s : bytes) : option bytes :=
  match base64_decode std_alphabet (of_bytes s) with
  | Some b => if (length b <? 16)%nat || (64 <? length b)%nat then None else Some b
  | None => None
  end.

Definition dollar : Ascii.ascii := ascii_of 36.
Definition comma : Ascii.ascii := ascii_of 44.

Definition VerifyPassword (encoded password : string) : res bool :=
  if (1024 <? len encoded) || (1024 <? len password) then Err ErrInvalidPasswordHash else
  match Split dollar (bytes_of encoded) with
  | [_; algorithm; version; parameters; salt64; key64] =>
      if negb (bool_decide (algorithm = bytes_of "argon2id") && bool_decide (version = bytes_of "v=19"))
      then Err ErrInvalidPasswordHash else
      match Split comma parameters with
      | [m; t; p] =>
          match limited (8 * 1024) (256 * 1024) (parseParameter m "m="),
                limited 1 10 (parseParameter t "t="), limited 1 16 (parseParameter p "p="),
                decoded salt64, decoded key64 with
          | Some memory, Some iterations, Some parallelism, Some salt, Some expected =>
              Ok (bool_decide (IDKey (bytes_of password) salt iterations memory parallelism
                                 (Z.of_nat (length expected)) = expected))
          | _, _, _, _, _ => Err ErrInvalidPasswordHash
          end
      | _ => Err ErrInvalidPasswordHash
      end
  | _ => Err ErrInvalidPasswordHash
  end.
(** ** Theorems *)

Lemma length_base64 alphabet b :
  length (bytes_of (base64_encode alphabet b)) = encoded_length 6 (length b).
Proof.
  unfold base64_encode, encode_groups. by rewrite bytes_of_of_bytes, length_fmap, length_groups.
Qed.

Lemma base64_no_dollar b : dollar ∉ bytes_of (base64_encode std_alphabet b).
Proof.
  unfold base64_encode. rewrite bytes_of_of_bytes. intros (g & Heq & Hg)%list_elem_of_fmap.
  apply elem_of_groups in Hg; [|apply encode_groups_fit; lia].
  assert (Hall : forallb (λ g, bool_decide (to_char std_alphabet g ≠ dollar)) (all_groups 6) = true)
    by (vm_compute; reflexivity).
  rewrite forallb_forall in Hall.
  specialize (Hall g (proj1 (list_elem_of_In _ _) (elem_of_all_groups 6 g Hg))). simplify_bool. congruence.
Qed.

Lemma decoded_base64 b : (16 ≤ length b ≤ 64)%nat →
  decoded (bytes_of (base64_encode std_alphabet b)) = Some b.
Proof.
  intros Hb. unfold decoded. rewrite of_bytes_bytes_of, base64_roundtrip by (vm_compute; reflexivity).
  destruct (Nat.ltb_spec (length b) 16), (Nat.ltb_spec 64 (length b)); try lia. done.
Qed.

(** The parts of an encoded hash. *)
Definition parameters_of (numCPU : Z) : bytes :=
  bytes_of (if numCPU =? 1 then "m=65536,t=3,p=1" else "m=65536,t=3,p=2").

Lemma HashPassword_bytes password salt numCPU h :
  HashPassword password (Some salt) numCPU = Ok h →
  bytes_of h = [] ++ dollar :: bytes_of "argon2id" ++ dollar :: bytes_of "v=19"
    ++ dollar :: parameters_of numCPU ++ dollar :: bytes_of (base64_encode std_alphabet salt)
    ++ dollar :: bytes_of (base64_encode std_alphabet (password_key password salt numCPU)).
Proof.
  unfold HashPassword. destruct (_ || _); [done|]. intros [= <-]. rewrite !bytes_of_app.
  unfold argon_parallelism, parameters_of. by destruct (numCPU =? 1).
Qed.

Lemma length_password_key password salt numCPU : length (password_key password salt numCPU) = 32%nat.
Proof.
  apply Nat2Z.inj. unfold password_key. rewrite IDKey_length by (unfold argonKeyLength; lia). reflexivity.
Qed.

(** Verifying a password against a hash compares keys. *)
Lemma VerifyPassword_HashPassword password salt numCPU h other :
  length salt = Z.to_nat argonSaltLength → HashPassword password (Some salt) numCPU = Ok h → len other ≤ 1024 →
  VerifyPassword h other
  = Ok (bool_decide (password_key other salt numCPU = password_key password salt numCPU)).
Proof.
  intros Hsalt Hh Ho. change (length salt = 16%nat) in Hsalt.
  pose proof (HashPassword_bytes _ _ _ _ Hh) as Hbytes.
  pose proof (length_password_key password salt numCPU) as Hkey.
  set (key := password_key password salt numCPU) in *.
  assert (Hlen : len h ≤ 1024).
  { rewrite len_bytes, Hbytes. repeat (rewrite length_app || cbn [length]).
    rewrite !length_base64, Hsalt, Hkey. unfold parameters_of. destruct (numCPU =? 1); vm_compute; discriminate. }
  unfold VerifyPassword.
  destruct (Z.ltb_spec 1024 (len h)), (Z.ltb_spec 1024 (len other)); try lia. cbn [orb].
  rewrite Hbytes, !Split_app, Split_none; try apply base64_no_dollar.
  2:{ unfold parameters_of. destruct (numCPU =? 1); apply (bool_decide_eq_true_1 _); vm_compute; reflexivity. }
  2, 3: apply (bool_decide_eq_true_1 _); vm_compute; reflexivity.
  2: apply not_elem_of_nil.
  rewrite !bool_decide_eq_true_2 by done. cbn [negb andb].
  rewrite !decoded_base64 by lia. rewrite Hkey.
  unfold parameters_of, password_key, argon_parallelism. by destruct (numCPU =? 1).
Qed.

Lemma HashPassword_len password salt numCPU h : HashPassword password salt numCPU = Ok h → 1 ≤ len password ≤ 1024.
Proof. unfold HashPassword. destruct (_ || _) eqn:Hb; [done|]. simplify_bool. lia. Qed.

(** C38: a password verifies against its own hash: whatever the password (1 to
    1024 bytes) and the salt, verifying a password against the hash compares its
    argon2id key, for the same salt and parameters, with the key of the hashed
    one; so the password itself is accepted, and another only on a collision. *)
Theorem password_hash_verifies password salt numCPU h :
  length salt = Z.to_nat argonSaltLength → HashPassword password (Some salt) numCPU = Ok h →
  VerifyPassword h password = Ok true
  ∧ ∀ other, len other ≤ 1024 →
      VerifyPassword h other
      = Ok (bool_decide (password_key other salt numCPU = password_key password salt numCPU)).
Proof.
  intros Hsalt Hh. pose proof (HashPassword_len _ _ _ _ Hh).
  split; [|intros other; by apply VerifyPassword_HashPassword].
  rewrite (VerifyPassword_HashPassword password salt numCPU) by (done || lia). by rewrite bool_decide_eq_true_2.
Qed.
End Password.

(** ** password_policy.go *)

Record PasswordPolicy := mkPasswordPolicy {
  MinimumLength : Z;
  RequireUpper : bool;
  RequireLower : bool;
  RequireNumber : bool;
  RequireSpecial : bool
}.

Section Policy.
Context `{Unicode}.

Definition special_rune (r : Z) : bool := negb (IsLetter r) && negb (IsNumber r) && negb (IsSpace r).

(** The rules that a decoded password misses, in the order of the message. *)
Definition missing_rules (value : PasswordPolicy) (runes : list Z) : list string :=
  let minimum := if MinimumLength value <? 1 then 1 else MinimumLength value in
  (if Z.of_nat (length runes) <? minimum then ["at least " +:+ format_d minimum +:+ " characters"] else [])
  ++ ((λ rule : bool * bool * string, rule.2) <$>
     filter (λ rule : bool * bool * string, Is_true (rule.1.1 && negb rule.1.2))
       [(RequireUpper value, existsb IsUpper runes, "an uppercase letter");
        (RequireLower value, existsb IsLower runes, "a lowercase letter");
        (RequireNumber value, existsb IsNumber runes, "a number");
        (RequireSpecial value, existsb special_rune runes, "a special character")]).

(** The text of the error is dropped: it wraps [ErrPasswordPolicy]. *)
Definition PasswordPolicy_Validate (value : PasswordPolicy) (password : string) : res unit :=
  match decode_utf8 password with
  | None => Err ErrPasswordPolicy
  | Some runes => if bool_decide (missing_rules value runes = []) then Ok tt else Err ErrPasswordPolicy
  end.
End Policy.

(** ** A concrete instance *)

#[local] Program Instance ex_argon2 : Argon2 := {|
  IDKey := λ password salt _ _ _ keyLen,
    take (Z.to_nat keyLen) (password ++ salt ++ replicate (Z.to_nat keyLen) Ascii.zero)
|}.
Next Obligation. intros. cbn. rewrite length_take, !length_app, length_replicate. lia. Qed.

Lemma password_hash_verifies_witness :
  match @HashPassword ex_argon2 "secret" (Some (replicate 16 Ascii.zero)) 4 with
  | Ok h => @VerifyPassword ex_argon2 h "secret" = Ok true
            ∧ @VerifyPassword ex_argon2 h "wrong" = Ok false
  | Err _ => False
  end.
Proof.
  destruct (@HashPassword ex_argon2 "secret" (Some (replicate 16 Ascii.zero)) 4) as [h|e] eqn:Hh;
    [|discriminate Hh].
  destruct (@password_hash_verifies ex_argon2 "secret" (replicate 16 Ascii.zero) 4 h eq_refl Hh)
    as [Hok Hother]. split; [exact Hok|]. rewrite Hother by (vm_compute; discriminate).
  vm_compute. reflexivity.
Defined.
