(* ===== verification/Domain.v ===== *)
(** * The domain model: package [domain] (art-api/internal/domain)

    Every struct of models.go as a record with the source's fields; a Go field
    [User.Enabled] is the projection [user_Enabled].  The string types [Role],
    [ApprovalStatus] and [GroupKind] are strings, [*time.Time] is an optional
    time, and so are the three [time.Time] fields whose zero value means "never"
    and that the database keeps as NULL ([LastLoginAt], [ForceReloginAt],
    [DeployedAt]).  A slice is a list and a map a finite map. *)

From S2P Require Export GoStd.

(** The dynamic values of [map[string]any] the sources inspect: JSON booleans,
    strings and numbers (a [float64] is its 64 bits), and anything else. *)
Inductive any :=
| VBool (b : bool)
| VString (s : string)
| VFloat64 (bits : Z)
| VOther.

#[export] Instance any_eq_dec : EqDecision any.
Proof. solve_decision. Defined.

(** ** Constants *)

Definition PermissionAll : string := "*".
Definition PermissionAdminPortal : string := "admin.portal".
Definition PermissionUsersRead : string := "users.read".
Definition PermissionUsersWrite : string := "users.write".
Definition PermissionDevicesRead : string := "devices.read".
Definition PermissionDevicesWrite : string := "devices.write".
Definition PermissionGroupsRead : string := "groups.read".
Definition PermissionGroupsWrite : string := "groups.write".
Definition PermissionAddressBooksRead : string := "address_books.read".
Definition PermissionAddressBooksWrite : string := "address_books.write".
Definition PermissionACLRead : string := "acl.read".
Definition PermissionACLWrite : string := "acl.write".
Definition PermissionStrategiesRead : string := "strategies.read".
Definition PermissionStrategiesWrite : string := "strategies.write".
Definition PermissionSessionsRead : string := "sessions.read".
Definition PermissionSessionsRevoke : string := "sessions.revoke".
Definition PermissionAuditRead : string := "audit.read".
Definition PermissionRelaysRead : string := "relays.read".
Definition PermissionRelaysWrite : string := "relays.write".
Definition PermissionInfrastructureRead : string := "infrastructure.read".
Definition PermissionInfrastructureWrite : string := "infrastructure.write".
Definition PermissionSettingsRead : string := "settings.read".
Definition PermissionSettingsWrite : string := "settings.write".
Definition PermissionBackupRead : string := "backup.read".
Definition PermissionBackupWrite : string := "backup.write".
Definition PermissionRolesRead : string := "roles.read".
Definition PermissionRolesWrite : string := "roles.write".
Definition PermissionWebhooksRead : string := "webhooks.read".
Definition PermissionWebhooksWrite : string := "webhooks.write".
Definition PermissionClientProfilesRead : string := "client_profiles.read".
Definition PermissionClientProfilesWrite : string := "client_profiles.write".
Definition PermissionAutomationRead : string := "automation.read".
Definition PermissionAutomationWrite : string := "automation.write".
Definition AvailablePermissions : list string := [
  PermissionAdminPortal; PermissionUsersRead; PermissionUsersWrite; PermissionDevicesRead;
  PermissionDevicesWrite; PermissionGroupsRead; PermissionGroupsWrite;
  PermissionAddressBooksRead; PermissionAddressBooksWrite; PermissionACLRead;
  PermissionACLWrite; PermissionStrategiesRead; PermissionStrategiesWrite;
  PermissionSessionsRead; PermissionSessionsRevoke; PermissionAuditRead; PermissionRelaysRead;
  PermissionRelaysWrite; PermissionInfrastructureRead; PermissionInfrastructureWrite;
  PermissionSettingsRead; PermissionSettingsWrite; PermissionRolesRead; PermissionRolesWrite;
  PermissionBackupRead; PermissionBackupWrite; PermissionWebhooksRead; PermissionWebhooksWrite;
  PermissionClientProfilesRead; PermissionClientProfilesWrite; PermissionAutomationRead;
  PermissionAutomationWrite ].
Definition RoleAdmin : string := "admin".
Definition RoleUser : string := "user".
Definition ApprovalPending : string := "pending".
Definition ApprovalApproved : string := "approved".
Definition ApprovalRejected : string := "rejected".
Definition PendingUsersGroupID : string := "system-pending-users".
Definition ApprovedUsersGroupID : string := "system-approved-users".
Definition GroupKindUser : string := "user".
Definition GroupKindDevice : string := "device".

(** ** Structs *)

Record RoleDefinition := mkRoleDefinition {
  roledef_ID : string;
  roledef_Name : string;
  roledef_Description : string;
  roledef_Permissions : list string;
  roledef_System : bool;
  roledef_CreatedAt : time;
  roledef_UpdatedAt : time
}.

#[export] Instance eta_RoleDefinition : Eta RoleDefinition := λ r,
  mkRoleDefinition
    (roledef_ID r) (roledef_Name r) (roledef_Description r) (roledef_Permissions r)
    (roledef_System r) (roledef_CreatedAt r) (roledef_UpdatedAt r).

Record User := mkUser {
  user_ID : string;
  user_Username : string;
  user_Email : string;
  user_Phone : string;
  user_PasswordHash : string;
  user_DisplayName : string;
  user_Role : string;
  user_Permissions : list string;
  user_Enabled : bool;
  user_ApprovalStatus : string;
  user_TokenVersion : Z;
  user_CreatedAt : time;
  user_UpdatedAt : time;
  user_LastLoginAt : option time;
  user_ForceReloginAt : option time;
  user_TOTPSecret : string;
  user_TOTPEnabled : bool
}.

#[export] Instance eta_User : Eta User := λ r,
  mkUser
    (user_ID r) (user_Username r) (user_Email r) (user_Phone r) (user_PasswordHash r)
    (user_DisplayName r) (user_Role r) (user_Permissions r) (user_Enabled r)
    (user_ApprovalStatus r) (user_TokenVersion r) (user_CreatedAt r) (user_UpdatedAt r)
    (user_LastLoginAt r) (user_ForceReloginAt r) (user_TOTPSecret r) (user_TOTPEnabled r).

Record UserUpdate := mkUserUpdate {
  update_Username : string;
  update_Email : string;
  update_Phone : string;
  update_DisplayName : string;
  update_PasswordHash : string;
  update_Role : string;
  update_Enabled : bool;
  update_GroupIDs : list string
}.

#[export] Instance eta_UserUpdate : Eta UserUpdate := λ r,
  mkUserUpdate
    (update_Username r) (update_Email r) (update_Phone r) (update_DisplayName r)
    (update_PasswordHash r) (update_Role r) (update_Enabled r) (update_GroupIDs r).

Record Session := mkSession {
  session_ID : string;
  session_UserID : string;
  session_CreatedAt : time;
  session_ExpiresAt : time;
  session_RevokedAt : option time;
  session_LastSeenAt : time;
  session_IP : string;
  session_UserAgent : string;
  session_ClientDeviceID : string
}.

#[export] Instance eta_Session : Eta Session := λ r,
  mkSession
    (session_ID r) (session_UserID r) (session_CreatedAt r) (session_ExpiresAt r)
    (session_RevokedAt r) (session_LastSeenAt r) (session_IP r) (session_UserAgent r)
    (session_ClientDeviceID r).

Record SessionRecord := mkSessionRecord {
  srecord_Session : Session;
  srecord_Username : string;
  srecord_DisplayName : string;
  srecord_UserEnabled : bool;
  srecord_Status : string;
  srecord_Current : bool
}.

#[export] Instance eta_SessionRecord : Eta SessionRecord := λ r,
  mkSessionRecord
    (srecord_Session r) (srecord_Username r) (srecord_DisplayName r) (srecord_UserEnabled r)
    (srecord_Status r) (srecord_Current r).

Record SessionQuery := mkSessionQuery {
  squery_Limit : Z;
  squery_Offset : Z;
  squery_Status : string;
  squery_UserID : string;
  squery_Search : string;
  squery_Now : time
}.

#[export] Instance eta_SessionQuery : Eta SessionQuery := λ r,
  mkSessionQuery
    (squery_Limit r) (squery_Offset r) (squery_Status r) (squery_UserID r) (squery_Search r)
    (squery_Now r).

Record SessionPage := mkSessionPage {
  spage_Sessions : list SessionRecord;
  spage_Total : Z;
  spage_Limit : Z;
  spage_Offset : Z
}.

#[export] Instance eta_SessionPage : Eta SessionPage := λ r,
  mkSessionPage
    (spage_Sessions r) (spage_Total r) (spage_Limit r) (spage_Offset r).

Record SessionSummary := mkSessionSummary {
  ssummary_Total : Z;
  ssummary_Active : Z;
  ssummary_Revoked : Z;
  ssummary_Expired : Z
}.

#[export] Instance eta_SessionSummary : Eta SessionSummary := λ r,
  mkSessionSummary
    (ssummary_Total r) (ssummary_Active r) (ssummary_Revoked r) (ssummary_Expired r).

Record AuthChallenge := mkAuthChallenge {
  challenge_ID : string;
  challenge_UserID : string;
  challenge_TokenVersion : Z;
  challenge_CreatedAt : time;
  challenge_ExpiresAt : time;
  challenge_IP : string;
  challenge_UserAgent : string;
  challenge_ClientDeviceID : string;
  challenge_RustDeskID : string;
  challenge_ClientUUID : string;
  challenge_Platform : string;
  challenge_ClientType : string;
  challenge_DeviceName : string
}.

#[export] Instance eta_AuthChallenge : Eta AuthChallenge := λ r,
  mkAuthChallenge
    (challenge_ID r) (challenge_UserID r) (challenge_TokenVersion r) (challenge_CreatedAt r)
    (challenge_ExpiresAt r) (challenge_IP r) (challenge_UserAgent r)
    (challenge_ClientDeviceID r) (challenge_RustDeskID r) (challenge_ClientUUID r)
    (challenge_Platform r) (challenge_ClientType r) (challenge_DeviceName r).

Record OIDCAuthRequest := mkOIDCAuthRequest {
  oidcreq_State : string;
  oidcreq_PollCode : string;
  oidcreq_Provider : string;
  oidcreq_Verifier : string;
  oidcreq_Nonce : string;
  oidcreq_UserID : string;
  oidcreq_LinkUserID : string;
  oidcreq_Error : string;
  oidcreq_RustDeskID : string;
  oidcreq_ClientUUID : string;
  oidcreq_Platform : string;
  oidcreq_ClientType : string;
  oidcreq_DeviceName : string;
  oidcreq_IP : string;
  oidcreq_UserAgent : string;
  oidcreq_CreatedAt : time;
  oidcreq_ExpiresAt : time
}.

#[export] Instance eta_OIDCAuthRequest : Eta OIDCAuthRequest := λ r,
  mkOIDCAuthRequest
    (oidcreq_State r) (oidcreq_PollCode r) (oidcreq_Provider r) (oidcreq_Verifier r)
    (oidcreq_Nonce r) (oidcreq_UserID r) (oidcreq_LinkUserID r) (oidcreq_Error r)
    (oidcreq_RustDeskID r) (oidcreq_ClientUUID r) (oidcreq_Platform r)
    (oidcreq_ClientType r) (oidcreq_DeviceName r) (oidcreq_IP r) (oidcreq_UserAgent r)
    (oidcreq_CreatedAt r) (oidcreq_ExpiresAt r).

Record OIDCIdentity := mkOIDCIdentity {
  oidc_Provider : string;
  oidc_Subject : string;
  oidc_UserID : string;
  oidc_Email : string;
  oidc_CreatedAt : time
}.

#[export] Instance eta_OIDCIdentity : Eta OIDCIdentity := λ r,
  mkOIDCIdentity
    (oidc_Provider r) (oidc_Subject r) (oidc_UserID r) (oidc_Email r) (oidc_CreatedAt r).

Record AuditEvent := mkAuditEvent {
  audit_ID : string;
  audit_OccurredAt : time;
  audit_Type : string;
  audit_ActorUserID : string;
  audit_ActorSessionID : string;
  audit_ControllerDevice : string;
  audit_TargetRustDeskID : string;
  audit_IP : string;
  audit_Result : string;
  audit_Reason : string;
  audit_Metadata : gmap string any
}.

#[export] Instance eta_AuditEvent : Eta AuditEvent := λ r,
  mkAuditEvent
    (audit_ID r) (audit_OccurredAt r) (audit_Type r) (audit_ActorUserID r)
    (audit_ActorSessionID r) (audit_ControllerDevice r) (audit_TargetRustDeskID r)
    (audit_IP r) (audit_Result r) (audit_Reason r) (audit_Metadata r).

Record AuditQuery := mkAuditQuery {
  aquery_Limit : Z;
  aquery_Offset : Z;
  aquery_Type : string;
  aquery_Result : string;
  aquery_ActorUserID : string;
  aquery_TargetID : string;
  aquery_IP : string;
  aquery_Search : string;
  aquery_From : option time;
  aquery_To : option time
}.

#[export] Instance eta_AuditQuery : Eta AuditQuery := λ r,
  mkAuditQuery
    (aquery_Limit r) (aquery_Offset r) (aquery_Type r) (aquery_Result r)
    (aquery_ActorUserID r) (aquery_TargetID r) (aquery_IP r) (aquery_Search r)
    (aquery_From r) (aquery_To r).

Record AuditPage := mkAuditPage {
  apage_Events : list AuditEvent;
  apage_Total : Z;
  apage_Limit : Z;
  apage_Offset : Z
}.

#[export] Instance eta_AuditPage : Eta AuditPage := λ r,
  mkAuditPage
    (apage_Events r) (apage_Total r) (apage_Limit r) (apage_Offset r).

Record AuditSummary := mkAuditSummary {
  asummary_Total : Z;
  asummary_AllowedConnections : Z;
  asummary_DeniedConnections : Z;
  asummary_FailedLogins : Z;
  asummary_ByType : gmap string Z;
  asummary_ByResult : gmap string Z
}.

#[export] Instance eta_AuditSummary : Eta AuditSummary := λ r,
  mkAuditSummary
    (asummary_Total r) (asummary_AllowedConnections r) (asummary_DeniedConnections r)
    (asummary_FailedLogins r) (asummary_ByType r) (asummary_ByResult r).

Record ConnectionRecord := mkConnectionRecord {
  conn_Key : string;
  conn_ActorUserID : string;
  conn_ActorSessionID : string;
  conn_ControllerDevice : string;
  conn_ControllerName : string;
  conn_ControllerLogin : string;
  conn_TargetRustDeskID : string;
  conn_ConnectionType : Z;
  conn_IP : string;
  conn_Transport : string;
  conn_RelayUUID : string;
  conn_RelayServer : string;
  conn_StartedAt : time;
  conn_LastSeenAt : time;
  conn_ClosedAt : option time
}.

#[export] Instance eta_ConnectionRecord : Eta ConnectionRecord := λ r,
  mkConnectionRecord
    (conn_Key r) (conn_ActorUserID r) (conn_ActorSessionID r) (conn_ControllerDevice r)
    (conn_ControllerName r) (conn_ControllerLogin r) (conn_TargetRustDeskID r)
    (conn_ConnectionType r) (conn_IP r) (conn_Transport r) (conn_RelayUUID r)
    (conn_RelayServer r) (conn_StartedAt r) (conn_LastSeenAt r) (conn_ClosedAt r).

Record Device := mkDevice {
  device_RustDeskID : string;
  device_ClientUUID : string;
  device_Hostname : string;
  device_Alias : string;
  device_Platform : string;
  device_Version : string;
  device_CPU : string;
  device_Memory : string;
  device_Username : string;
  device_LastSeenIP : string;
  device_Online : bool;
  device_LastSeen : time;
  device_OwnerUserID : string;
  device_GroupID : string;
  device_Tags : list string;
  device_PublicKey : string;
  device_Deployed : bool;
  device_DeployedBy : string;
  device_DeployedAt : option time;
  device_CreatedAt : time;
  device_ArchivedAt : option time
}.

#[export] Instance eta_Device : Eta Device := λ r,
  mkDevice
    (device_RustDeskID r) (device_ClientUUID r) (device_Hostname r) (device_Alias r)
    (device_Platform r) (device_Version r) (device_CPU r) (device_Memory r)
    (device_Username r) (device_LastSeenIP r) (device_Online r) (device_LastSeen r)
    (device_OwnerUserID r) (device_GroupID r) (device_Tags r) (device_PublicKey r)
    (device_Deployed r) (device_DeployedBy r) (device_DeployedAt r) (device_CreatedAt r)
    (device_ArchivedAt r).

Record DeviceManagementImport := mkDeviceManagementImport {
  import_RustDeskID : string;
  import_Alias : string;
  import_GroupID : string;
  import_Tags : list string
}.

#[export] Instance eta_DeviceManagementImport : Eta DeviceManagementImport := λ r,
  mkDeviceManagementImport
    (import_RustDeskID r) (import_Alias r) (import_GroupID r) (import_Tags r).

Record APIToken := mkAPIToken {
  token_ID : string;
  token_UserID : string;
  token_Name : string;
  token_TokenHash : string;
  token_Prefix : string;
  token_Scopes : list string;
  token_CreatedAt : time;
  token_ExpiresAt : time;
  token_LastUsedAt : option time;
  token_RevokedAt : option time
}.

#[export] Instance eta_APIToken : Eta APIToken := λ r,
  mkAPIToken
    (token_ID r) (token_UserID r) (token_Name r) (token_TokenHash r) (token_Prefix r)
    (token_Scopes r) (token_CreatedAt r) (token_ExpiresAt r) (token_LastUsedAt r)
    (token_RevokedAt r).

Record Group := mkGroup {
  group_ID : string;
  group_Name : string;
  group_Description : string;
  group_Kind : string;
  group_CreatedAt : time;
  group_UpdatedAt : time
}.

#[export] Instance eta_Group : Eta Group := λ r,
  mkGroup
    (group_ID r) (group_Name r) (group_Description r) (group_Kind r) (group_CreatedAt r)
    (group_UpdatedAt r).

Record UserGroupMembership := mkUserGroupMembership {
  membership_GroupID : string;
  membership_UserID : string;
  membership_Active : bool
}.

#[export] Instance eta_UserGroupMembership : Eta UserGroupMembership := λ r,
  mkUserGroupMembership
    (membership_GroupID r) (membership_UserID r) (membership_Active r).

Record AddressBook := mkAddressBook {
  book_ID : string;
  book_Name : string;
  book_Kind : string;
  book_OwnerUserID : string;
  book_Permission : string;
  book_CanManage : bool;
  book_CreatedAt : time;
  book_UpdatedAt : time
}.

#[export] Instance eta_AddressBook : Eta AddressBook := λ r,
  mkAddressBook
    (book_ID r) (book_Name r) (book_Kind r) (book_OwnerUserID r) (book_Permission r)
    (book_CanManage r) (book_CreatedAt r) (book_UpdatedAt r).

Record AddressBookGrant := mkAddressBookGrant {
  grant_ID : string;
  grant_AddressBookID : string;
  grant_SubjectType : string;
  grant_SubjectID : string;
  grant_Permission : string;
  grant_CreatedAt : time;
  grant_UpdatedAt : time
}.

#[export] Instance eta_AddressBookGrant : Eta AddressBookGrant := λ r,
  mkAddressBookGrant
    (grant_ID r) (grant_AddressBookID r) (grant_SubjectType r) (grant_SubjectID r)
    (grant_Permission r) (grant_CreatedAt r) (grant_UpdatedAt r).

Record AddressBookEntry := mkAddressBookEntry {
  entry_ID : string;
  entry_AddressBookID : string;
  entry_RustDeskID : string;
  entry_Alias : string;
  entry_Username : string;
  entry_Hostname : string;
  entry_Platform : string;
  entry_Folder : string;
  entry_Favourite : bool;
  entry_Tags : list string;
  entry_ForceRelay : bool;
  entry_RDPPort : string;
  entry_RDPUsername : string;
  entry_LoginName : string;
  entry_SameServer : bool;
  entry_CreatedAt : time
}.

#[export] Instance eta_AddressBookEntry : Eta AddressBookEntry := λ r,
  mkAddressBookEntry
    (entry_ID r) (entry_AddressBookID r) (entry_RustDeskID r) (entry_Alias r)
    (entry_Username r) (entry_Hostname r) (entry_Platform r) (entry_Folder r)
    (entry_Favourite r) (entry_Tags r) (entry_ForceRelay r) (entry_RDPPort r)
    (entry_RDPUsername r) (entry_LoginName r) (entry_SameServer r) (entry_CreatedAt r).

Record AddressBookTag := mkAddressBookTag {
  tag_ID : string;
  tag_AddressBookID : string;
  tag_Name : string;
  tag_Color : Z;
  tag_CreatedAt : time;
  tag_UpdatedAt : time
}.

#[export] Instance eta_AddressBookTag : Eta AddressBookTag := λ r,
  mkAddressBookTag
    (tag_ID r) (tag_AddressBookID r) (tag_Name r) (tag_Color r) (tag_CreatedAt r)
    (tag_UpdatedAt r).

Record RelayServer := mkRelayServer {
  relay_ControlMode : string;
  relay_ControlConnected : bool;
  relay_ID : string;
  relay_Name : string;
  relay_Hostname : string;
  relay_Port : Z;
  relay_Region : string;
  relay_Enabled : bool;
  relay_Health : string;
  relay_LatencyMS : Z;
  relay_Connections : Z;
  relay_Bandwidth : Z;
  relay_CreatedAt : time;
  relay_UpdatedAt : time;
  relay_Deleted : bool
}.

#[export] Instance eta_RelayServer : Eta RelayServer := λ r,
  mkRelayServer
    (relay_ControlMode r) (relay_ControlConnected r) (relay_ID r) (relay_Name r)
    (relay_Hostname r) (relay_Port r) (relay_Region r) (relay_Enabled r) (relay_Health r)
    (relay_LatencyMS r) (relay_Connections r) (relay_Bandwidth r) (relay_CreatedAt r)
    (relay_UpdatedAt r) (relay_Deleted r).

Record RelayMetric := mkRelayMetric {
  metric_RelayID : string;
  metric_RecordedAt : time;
  metric_Health : string;
  metric_LatencyMS : Z;
  metric_Connections : Z;
  metric_Bandwidth : Z
}.

#[export] Instance eta_RelayMetric : Eta RelayMetric := λ r,
  mkRelayMetric
    (metric_RelayID r) (metric_RecordedAt r) (metric_Health r) (metric_LatencyMS r)
    (metric_Connections r) (metric_Bandwidth r).

Record Webhook := mkWebhook {
  webhook_ID : string;
  webhook_Name : string;
  webhook_URL : string;
  webhook_Events : list string;
  webhook_Enabled : bool;
  webhook_CreatedAt : time;
  webhook_UpdatedAt : time
}.

#[export] Instance eta_Webhook : Eta Webhook := λ r,
  mkWebhook
    (webhook_ID r) (webhook_Name r) (webhook_URL r) (webhook_Events r) (webhook_Enabled r)
    (webhook_CreatedAt r) (webhook_UpdatedAt r).

Record WebhookDelivery := mkWebhookDelivery {
  delivery_ID : string;
  delivery_WebhookID : string;
  delivery_EventType : string;
  delivery_Payload : string;
  delivery_Status : string;
  delivery_Attempts : Z;
  delivery_ResponseCode : Z;
  delivery_LastError : string;
  delivery_NextAttempt : time;
  delivery_CreatedAt : time;
  delivery_DeliveredAt : option time
}.

#[export] Instance eta_WebhookDelivery : Eta WebhookDelivery := λ r,
  mkWebhookDelivery
    (delivery_ID r) (delivery_WebhookID r) (delivery_EventType r) (delivery_Payload r)
    (delivery_Status r) (delivery_Attempts r) (delivery_ResponseCode r)
    (delivery_LastError r) (delivery_NextAttempt r) (delivery_CreatedAt r)
    (delivery_DeliveredAt r).

Record Notification := mkNotification {
  notification_ID : string;
  notification_Type : string;
  notification_Severity : string;
  notification_Title : string;
  notification_Message : string;
  notification_Resource : string;
  notification_CreatedAt : time;
  notification_ReadAt : option time
}.

#[export] Instance eta_Notification : Eta Notification := λ r,
  mkNotification
    (notification_ID r) (notification_Type r) (notification_Severity r)
    (notification_Title r) (notification_Message r) (notification_Resource r)
    (notification_CreatedAt r) (notification_ReadAt r).

Record AutomationRule := mkAutomationRule {
  rule_ID : string;
  rule_Name : string;
  rule_EventTypes : list string;
  rule_Conditions : gmap string string;
  rule_Actions : list string;
  rule_Severity : string;
  rule_ThrottleSeconds : Z;
  rule_Enabled : bool;
  rule_CreatedAt : time;
  rule_UpdatedAt : time
}.

#[export] Instance eta_AutomationRule : Eta AutomationRule := λ r,
  mkAutomationRule
    (rule_ID r) (rule_Name r) (rule_EventTypes r) (rule_Conditions r) (rule_Actions r)
    (rule_Severity r) (rule_ThrottleSeconds r) (rule_Enabled r) (rule_CreatedAt r)
    (rule_UpdatedAt r).

Record AutomationRun := mkAutomationRun {
  run_ID : string;
  run_RuleID : string;
  run_EventType : string;
  run_EventID : string;
  run_Status : string;
  run_Message : string;
  run_CreatedAt : time
}.

#[export] Instance eta_AutomationRun : Eta AutomationRun := λ r,
  mkAutomationRun
    (run_ID r) (run_RuleID r) (run_EventType r) (run_EventID r) (run_Status r)
    (run_Message r) (run_CreatedAt r).

Record ClusterNode := mkClusterNode {
  node_ID : string;
  node_Service : string;
  node_Version : string;
  node_Address : string;
  node_StartedAt : time;
  node_LastSeenAt : time;
  node_LeaseCount : Z
}.

#[export] Instance eta_ClusterNode : Eta ClusterNode := λ r,
  mkClusterNode
    (node_ID r) (node_Service r) (node_Version r) (node_Address r) (node_StartedAt r)
    (node_LastSeenAt r) (node_LeaseCount r).

Record ClusterLease := mkClusterLease {
  lease_Name : string;
  lease_OwnerID : string;
  lease_ExpiresAt : time;
  lease_UpdatedAt : time
}.

#[export] Instance eta_ClusterLease : Eta ClusterLease := λ r,
  mkClusterLease
    (lease_Name r) (lease_OwnerID r) (lease_ExpiresAt r) (lease_UpdatedAt r).

Record ClientProfile := mkClientProfile {
  profile_ID : string;
  profile_Name : string;
  profile_Description : string;
  profile_Platform : string;
  profile_Settings : gmap string any;
  profile_Branding : gmap string any;
  profile_Version : Z;
  profile_Enabled : bool;
  profile_CreatedAt : time;
  profile_UpdatedAt : time
}.

#[export] Instance eta_ClientProfile : Eta ClientProfile := λ r,
  mkClientProfile
    (profile_ID r) (profile_Name r) (profile_Description r) (profile_Platform r)
    (profile_Settings r) (profile_Branding r) (profile_Version r) (profile_Enabled r)
    (profile_CreatedAt r) (profile_UpdatedAt r).

Record ClientProfileAssignment := mkClientProfileAssignment {
  assignment_ID : string;
  assignment_ProfileID : string;
  assignment_ScopeType : string;
  assignment_ScopeID : string;
  assignment_Priority : Z;
  assignment_CreatedAt : time
}.

#[export] Instance eta_ClientProfileAssignment : Eta ClientProfileAssignment := λ r,
  mkClientProfileAssignment
    (assignment_ID r) (assignment_ProfileID r) (assignment_ScopeType r)
    (assignment_ScopeID r) (assignment_Priority r) (assignment_CreatedAt r).

Record ClientBuild := mkClientBuild {
  build_ID : string;
  build_ProfileID : string;
  build_TargetOS : string;
  build_Architecture : string;
  build_Format : string;
  build_Status : string;
  build_ArtifactName : string;
  build_MediaType : string;
  build_SHA256 : string;
  build_Error : string;
  build_Artifact : string;
  build_CreatedBy : string;
  build_WorkerID : string;
  build_Attempts : Z;
  build_CreatedAt : time;
  build_StartedAt : option time;
  build_LeaseUntil : option time;
  build_CompletedAt : option time
}.

#[export] Instance eta_ClientBuild : Eta ClientBuild := λ r,
  mkClientBuild
    (build_ID r) (build_ProfileID r) (build_TargetOS r) (build_Architecture r)
    (build_Format r) (build_Status r) (build_ArtifactName r) (build_MediaType r)
    (build_SHA256 r) (build_Error r) (build_Artifact r) (build_CreatedBy r)
    (build_WorkerID r) (build_Attempts r) (build_CreatedAt r) (build_StartedAt r)
    (build_LeaseUntil r) (build_CompletedAt r).

Record BuilderWorker := mkBuilderWorker {
  worker_ID : string;
  worker_Name : string;
  worker_Hostname : string;
  worker_Version : string;
  worker_Formats : list string;
  worker_Platforms : list string;
  worker_Architectures : list string;
  worker_Concurrency : Z;
  worker_Status : string;
  worker_LastSeenAt : time;
  worker_CreatedAt : time;
  worker_UpdatedAt : time;
  worker_TokenHash : string
}.

#[export] Instance eta_BuilderWorker : Eta BuilderWorker := λ r,
  mkBuilderWorker
    (worker_ID r) (worker_Name r) (worker_Hostname r) (worker_Version r) (worker_Formats r)
    (worker_Platforms r) (worker_Architectures r) (worker_Concurrency r) (worker_Status r)
    (worker_LastSeenAt r) (worker_CreatedAt r) (worker_UpdatedAt r) (worker_TokenHash r).

Record ACLRule := mkACLRule {
  acl_ID : string;
  acl_Name : string;
  acl_SubjectType : string;
  acl_SubjectID : string;
  acl_TargetType : string;
  acl_TargetID : string;
  acl_Permissions : list string;
  acl_Effect : string;
  acl_Enabled : bool;
  acl_Priority : Z;
  acl_CreatedAt : time;
  acl_UpdatedAt : time;
  acl_Deleted : bool
}.

#[export] Instance eta_ACLRule : Eta ACLRule := λ r,
  mkACLRule
    (acl_ID r) (acl_Name r) (acl_SubjectType r) (acl_SubjectID r) (acl_TargetType r)
    (acl_TargetID r) (acl_Permissions r) (acl_Effect r) (acl_Enabled r) (acl_Priority r)
    (acl_CreatedAt r) (acl_UpdatedAt r) (acl_Deleted r).

Record Strategy := mkStrategy {
  strategy_ID : string;
  strategy_Name : string;
  strategy_ScopeType : string;
  strategy_ScopeID : string;
  strategy_Priority : Z;
  strategy_Settings : gmap string any;
  strategy_Enabled : bool;
  strategy_CreatedAt : time;
  strategy_UpdatedAt : time;
  strategy_Deleted : bool
}.

#[export] Instance eta_Strategy : Eta Strategy := λ r,
  mkStrategy
    (strategy_ID r) (strategy_Name r) (strategy_ScopeType r) (strategy_ScopeID r)
    (strategy_Priority r) (strategy_Settings r) (strategy_Enabled r) (strategy_CreatedAt r)
    (strategy_UpdatedAt r) (strategy_Deleted r).

Record AuthSnapshot := mkAuthSnapshot {
  snapshot_RequireLogin : bool;
  snapshot_RequireDeviceDeployment : bool;
  snapshot_SourceID : string;
  snapshot_Revision : Z;
  snapshot_CreatedAt : time;
  snapshot_Users : list User;
  snapshot_Sessions : list Session;
  snapshot_Devices : list Device;
  snapshot_ACLRules : list ACLRule;
  snapshot_Strategies : list Strategy;
  snapshot_UserGroupMemberships : list UserGroupMembership;
  snapshot_RelayServers : list RelayServer
}.

#[export] Instance eta_AuthSnapshot : Eta AuthSnapshot := λ r,
  mkAuthSnapshot
    (snapshot_RequireLogin r) (snapshot_RequireDeviceDeployment r) (snapshot_SourceID r)
    (snapshot_Revision r) (snapshot_CreatedAt r) (snapshot_Users r) (snapshot_Sessions r)
    (snapshot_Devices r) (snapshot_ACLRules r) (snapshot_Strategies r)
    (snapshot_UserGroupMemberships r) (snapshot_RelayServers r).

(** [Session.Active] *)
Definition session_Active (s : Session) (now : time) : bool :=
  bool_decide (session_RevokedAt s = None) && (now <? session_ExpiresAt s).
