(* ===== verification/Hub.v ===== *)
(** * The event hub: package [events] (art-api/internal/events/hub.go)

    Authorization changes are published to the rendezvous servers through a
    hub with a bounded replay history and one bounded channel per subscriber.
    [Publish] and [SubscribeAfter] are modelled as written; [hub_step] splits
    [Publish] at its two synchronisation points (the atomic counter and the
    mutex), so that interleavings of publishers can be stated. *)

From S2P Require Export Domain.

(** The values published: [json.Marshal(payload)] is kept as the payload. *)
Inductive payload :=
| PUser (u : User)
| PSession (s : Session)
| PUserID (id : string)              (* map[string]string{"user_id": id} *)
| PMembership (m : UserGroupMembership)
| PRelay (r : RelayServer)
| PDevice (d : Device)
| PACLRule (r : ACLRule)
| PStrategy (s : Strategy)
| PAudit (e : AuditEvent)
| PAutomation (r : AutomationRule) (type id : string) (fields : gmap string string)
| PConfiguration (require_login require_device_deployment : bool)
| PText (s : string).

Definition UserUpdated : string := "USER_UPDATED".
Definition UserDisabled : string := "USER_DISABLED".
Definition SessionCreated : string := "SESSION_CREATED".
Definition SessionRevoked : string := "SESSION_REVOKED".
Definition SessionRevokedAll : string := "SESSION_REVOKED_ALL".
Definition ACLUpdated : string := "ACL_UPDATED".
Definition StrategyUpdated : string := "STRATEGY_UPDATED".
Definition UserGroupMembershipUpdated : string := "USER_GROUP_MEMBERSHIP_UPDATED".
Definition RelayUpdated : string := "RELAY_UPDATED".
Definition DeviceUpdated : string := "DEVICE_UPDATED".
Definition AuditRecorded : string := "AUDIT_RECORDED".
Definition ConfigurationUpdated : string := "CONFIGURATION_UPDATED".
Definition AutomationTriggered : string := "AUTOMATION_TRIGGERED".

Record Event := mkEvent {
  event_SourceID : string;
  event_Revision : Z;
  event_Type : string;
  event_OccurredAt : time;
  event_Payload : payload
}.

(** [subscribers] maps an id to the buffered, undelivered events of its channel. *)
Record Hub := mkHub {
  hub_sourceID : string;
  hub_revision : Z;
  hub_nextID : Z;
  hub_subscribers : gmap Z (list Event);
  hub_history : list Event
}.

#[export] Instance eta_Hub : Eta Hub := λ r,
  mkHub (hub_sourceID r) (hub_revision r) (hub_nextID r) (hub_subscribers r) (hub_history r).

Definition historyLimit : nat := 1024.
Definition channelCapacity : nat := 64.

Definition NewHub (sourceID : string) : Hub := mkHub sourceID 0 0 ∅ [].

(** The part of [Publish] under the mutex: append to the history, keep its last
    [historyLimit] events, offer the event to every channel without blocking. *)
Definition trim_history (l : list Event) : list Event := drop (length l - historyLimit) l.

#[global] Arguments trim_history : simpl never.

Definition offer (e : Event) (chan : list Event) : list Event :=
  if bool_decide (length chan < channelCapacity)%nat then chan ++ [e] else chan.

Definition deliver (h : Hub) (e : Event) : Hub :=
  h <| hub_history := trim_history (hub_history h ++ [e]) |>
    <| hub_subscribers := offer e <$> hub_subscribers h |>.

(** The part before it: [h.revision.Add(1)] and the event with that revision. *)
Definition reserve (h : Hub) (ty : string) (p : payload) (now : time) : Event * Hub :=
  let rev := hub_revision h + 1 in
  (mkEvent (hub_sourceID h) rev ty now p, h <| hub_revision := rev |>).

Definition Publish (h : Hub) (ty : string) (p : payload) (now : time) : Event * Hub :=
  let '(e, h1) := reserve h ty p now in (e, deliver h1 e).

Definition SubscribeAfter (h : Hub) (sourceID : string) (revision : Z)
    : Z * list Event * Hub :=
  let id := hub_nextID h + 1 in
  let backlog := filter (λ e, sourceID ≠ hub_sourceID h ∨ revision < event_Revision e)
                        (hub_history h) in
  (id, backlog, h <| hub_nextID := id |> <| hub_subscribers := <[id := []]> (hub_subscribers h) |>).

Definition Unsubscribe (h : Hub) (id : Z) : Hub :=
  h <| hub_subscribers := delete id (hub_subscribers h) |>.

(** A subscriber reads the oldest buffered event of its channel. *)
Definition receive (h : Hub) (id : Z) : option (Event * Hub) :=
  match hub_subscribers h !! id with
  | Some (e :: chan) => Some (e, h <| hub_subscribers := <[id := chan]> (hub_subscribers h) |>)
  | _ => None
  end.

(** ** One publisher at a time *)

(** A call of [Publish] and the arguments it is given. *)
Record publication := mkPublication { pub_type : string; pub_payload : payload; pub_at : time }.

Definition publish_one (h : Hub) (p : publication) : Hub :=
  snd (Publish h (pub_type p) (pub_payload p) (pub_at p)).
Definition publish_all (h : Hub) (ps : list publication) : Hub := foldl publish_one h ps.

(** The events a sequence of publications creates, numbered from [base + 1]. *)
Fixpoint events_from (src : string) (base : Z) (ps : list publication) : list Event :=
  match ps with
  | [] => []
  | p :: ps' =>
      mkEvent src (base + 1) (pub_type p) (pub_at p) (pub_payload p) :: events_from src (base + 1) ps'
  end.

(** ** Several publishers *)

(** [hs_pending]: events numbered by a publisher that does not hold the mutex
    yet; [hs_seen]: the last revision a given consumer has received. *)
Inductive hub_label :=
| LReserve (ty : string) (p : payload) (now : time)
| LDeliver (e : Event)
| LSubscribe (sourceID : string) (revision : Z)
| LUnsubscribe (id : Z)
| LReceive (id : Z) (e : Event).

Inductive hub_step : Hub * list Event → hub_label → Hub * list Event → Prop :=
| step_reserve h ps ty p now :
    hub_step (h, ps) (LReserve ty p now)
             (snd (reserve h ty p now), ps ++ [fst (reserve h ty p now)])
| step_deliver h ps1 e ps2 :
    hub_step (h, ps1 ++ e :: ps2) (LDeliver e) (deliver h e, ps1 ++ ps2)
| step_subscribe h ps src rev :
    hub_step (h, ps) (LSubscribe src rev) (snd (SubscribeAfter h src rev), ps)
| step_unsubscribe h ps id :
    hub_step (h, ps) (LUnsubscribe id) (Unsubscribe h id, ps)
| step_receive h ps id e h' :
    receive h id = Some (e, h') →
    hub_step (h, ps) (LReceive id e) (h', ps).

Inductive hub_steps : Hub * list Event → list hub_label → Hub * list Event → Prop :=
| steps_nil s : hub_steps s [] s
| steps_cons s1 l s2 ls s3 : hub_step s1 l s2 → hub_steps s2 ls s3 → hub_steps s1 (l :: ls) s3.

(** ** Lemmas *)

Lemma length_events_from src base ps : length (events_from src base ps) = length ps.
Proof. revert base. induction ps as [|p ps IH]; intros base; simpl; [done|]. by rewrite IH. Qed.

Lemma events_from_app src base ps1 ps2 :
  events_from src base (ps1 ++ ps2)
  = events_from src base ps1 ++ events_from src (base + Z.of_nat (length ps1)) ps2.
Proof.
  revert base. induction ps1 as [|p ps1 IH]; intros base; simpl.
  - f_equal. lia.
  - rewrite IH. do 3 f_equal. lia.
Qed.

Lemma events_from_revision src base ps e :
  e ∈ events_from src base ps →
  event_SourceID e = src ∧ base < event_Revision e ≤ base + Z.of_nat (length ps).
Proof.
  revert base. induction ps as [|p ps IH]; intros base; simpl; [set_solver|].
  intros [->|[??]%IH]%elem_of_cons; simpl; (split; [done|lia]).
Qed.

Lemma trim_history_app l es : trim_history (trim_history l ++ es) = trim_history (l ++ es).
Proof.
  unfold trim_history. rewrite !length_app, length_drop.
  rewrite <- (drop_app_le l es) by lia. rewrite drop_drop. f_equal. lia.
Qed.

Lemma trim_history_idem l : trim_history (trim_history l) = trim_history l.
Proof.
  generalize (trim_history_app l []). by rewrite !app_nil_r.
Qed.

(** What [publish_all] does to every field of the hub. *)
Lemma publish_all_spec h ps :
  trim_history (hub_history h) = hub_history h →
  let es := events_from (hub_sourceID h) (hub_revision h) ps in
  hub_history (publish_all h ps) = trim_history (hub_history h ++ es)
  ∧ hub_revision (publish_all h ps) = hub_revision h + Z.of_nat (length ps)
  ∧ hub_sourceID (publish_all h ps) = hub_sourceID h
  ∧ hub_subscribers (publish_all h ps) = (λ c, foldl (flip offer) c es) <$> hub_subscribers h.
Proof.
  revert h. induction ps as [|p ps IH]; intros h Hh.
  - cbn. rewrite app_nil_r. split_and!; [done|lia|done|]. symmetry. apply map_fmap_id.
  - destruct (IH (publish_one h p)) as (H1 & H2 & H3 & H4).
    { apply trim_history_idem. }
    cbn in *. unfold publish_all in *. cbn. rewrite H1, H2, H3, H4.
    split_and!; [|lia|done|by rewrite <- map_fmap_compose].
    by rewrite trim_history_app, <- app_assoc.
Qed.

Lemma foldl_offer c es :
  (length c + length es ≤ channelCapacity)%nat → foldl (flip offer) c es = c ++ es.
Proof.
  revert c. induction es as [|e es IH]; intros c Hlen; simpl in *; [by rewrite app_nil_r|].
  rewrite IH; unfold offer; rewrite bool_decide_true by lia.
  - by rewrite <- app_assoc.
  - rewrite length_app. simpl. lia.
Qed.

Lemma filter_events_after src base c ps :
  base ≤ c ≤ base + Z.of_nat (length ps) →
  filter (λ e, src ≠ src ∨ c < event_Revision e) (events_from src base ps)
  = events_from src c (drop (Z.to_nat (c - base)) ps).
Proof.
  revert base. induction ps as [|p ps IH]; intros base Hc; [by destruct (Z.to_nat _)|].
  cbn [events_from length] in *. destruct (decide (c = base)) as [->|Hne].
  - rewrite Z.sub_diag. change (drop (Z.to_nat 0) (p :: ps)) with (p :: ps). cbn [events_from].
    rewrite filter_cons_True by (right; cbn; lia). f_equal.
    apply filter_all. intros e [_ ?]%events_from_revision. right. lia.
  - rewrite filter_cons_False by (cbn; intros [?|?]; [done|lia]).
    rewrite IH by lia. f_equal. replace (Z.to_nat (c - base)) with (S (Z.to_nat (c - (base + 1)))) by lia.
    done.
Qed.

Lemma publish_all_new src ps :
  let h := publish_all (NewHub src) ps in
  hub_history h = trim_history (events_from src 0 ps)
  ∧ hub_revision h = Z.of_nat (length ps) ∧ hub_sourceID h = src.
Proof. by destruct (publish_all_spec (NewHub src) ps) as (? & ? & ? & _). Qed.

Lemma trim_events_from src ps :
  trim_history (events_from src 0 ps)
  = events_from src (Z.of_nat (length ps - historyLimit)) (drop (length ps - historyLimit) ps).
Proof.
  unfold trim_history. rewrite length_events_from.
  set (k := (length ps - historyLimit)%nat).
  rewrite <- (take_drop k ps) at 1. rewrite events_from_app, length_take.
  rewrite drop_app_ge by (rewrite length_events_from, length_take; lia).
  rewrite length_events_from, length_take.
  replace (k - k `min` length ps)%nat with 0%nat by lia. rewrite drop_0.
  f_equal. lia.
Qed.

(** A hub whose history is what publishing [ps] leaves of it. *)
Definition numbered (h : Hub) (ps : list publication) : Prop :=
  hub_history h = trim_history (events_from (hub_sourceID h) 0 ps) ∧ hub_revision h = Z.of_nat (length ps).

Lemma numbered_publish h ps qs : numbered h ps → numbered (publish_all h qs) (ps ++ qs).
Proof.
  intros [Hh Hr]. destruct (publish_all_spec h qs) as (H1 & H2 & H3 & _); [rewrite Hh; apply trim_history_idem|].
  split; rewrite ?H3; [|rewrite H2, Hr, length_app; lia].
  rewrite H1, Hh, trim_history_app, events_from_app, Hr. do 3 f_equal.
Qed.

Lemma numbered_subscribe h ps source after : numbered h ps → numbered (SubscribeAfter h source after).2 ps.
Proof. done. Qed.

(** The backlog of a subscriber of the hub and the events sent to it after. *)
Lemma stream_no_gap h ps c qs id backlog h1 :
  numbered h ps →
  (c ≤ length ps)%nat → (length ps - c ≤ historyLimit)%nat → (length qs ≤ channelCapacity)%nat →
  SubscribeAfter h (hub_sourceID h) (Z.of_nat c) = (id, backlog, h1) →
  ∃ chan, hub_subscribers (publish_all h1 qs) !! id = Some chan
          ∧ backlog ++ chan = events_from (hub_sourceID h) (Z.of_nat c) (drop c ps ++ qs).
Proof.
  intros [Hh Hr] Hc Hlim Hqs Hsub. unfold SubscribeAfter in Hsub. injection Hsub as <- Hb <-.
  destruct (publish_all_spec (h <| hub_nextID := hub_nextID h + 1 |>
      <| hub_subscribers := <[hub_nextID h + 1:=[]]> (hub_subscribers h) |>) qs) as (_ & _ & _ & Hch).
  { cbn. rewrite Hh. apply trim_history_idem. }
  eexists. rewrite Hch. cbn. rewrite lookup_fmap, lookup_insert_eq. split; [done|].
  rewrite foldl_offer by (rewrite length_events_from; cbn; lia).
  rewrite <- Hb, Hh, Hr, trim_events_from, filter_events_after by (rewrite length_drop; lia).
  rewrite drop_drop. cbn. rewrite events_from_app. f_equal.
  - f_equal. f_equal. lia.
  - f_equal. rewrite length_drop. lia.
Qed.

(** The hub state all interleavings maintain: revisions are handed out once,
    the history and the channels are bounded. *)
Record hub_inv (s : Hub * list Event) : Prop := {
  inv_fresh : ∀ e, e ∈ hub_history (fst s) ++ snd s → event_Revision e ≤ hub_revision (fst s);
  inv_once : NoDup (event_Revision <$> hub_history (fst s) ++ snd s);
  inv_history : (length (hub_history (fst s)) ≤ historyLimit)%nat;
  inv_channels : map_Forall (λ _ c, length c ≤ channelCapacity)%nat (hub_subscribers (fst s))
}.

Lemma trim_history_suffix l : trim_history l `suffix_of` l.
Proof. unfold trim_history. eexists (take _ l). by rewrite take_drop. Qed.

Lemma length_trim_history l : (length (trim_history l) ≤ historyLimit)%nat.
Proof. unfold trim_history. rewrite length_drop. lia. Qed.

Lemma length_offer e c : (length c ≤ channelCapacity → length (offer e c) ≤ channelCapacity)%nat.
Proof. unfold offer. case_bool_decide; rewrite ?length_app; simpl; lia. Qed.

Lemma hub_inv_deliver h ps1 e ps2 :
  hub_inv (h, ps1 ++ e :: ps2) → hub_inv (deliver h e, ps1 ++ ps2).
Proof.
  intros [Hf Ho Hh Hc]. cbn in *.
  assert (Hp : hub_history h ++ ps1 ++ e :: ps2 ≡ₚ (hub_history h ++ [e]) ++ ps1 ++ ps2)
    by (by rewrite <- (Permutation_middle ps1 ps2 e), <- app_assoc).
  assert (Hs : (trim_history (hub_history h ++ [e]) ++ ps1 ++ ps2)
               `suffix_of` (hub_history h ++ [e]) ++ ps1 ++ ps2).
  { destruct (trim_history_suffix (hub_history h ++ [e])) as [k Hk]. exists k.
    by rewrite (app_assoc k), <- Hk. }
  constructor; cbn.
  - intros e' He'. apply Hf. rewrite Hp. by eapply elem_of_suffix.
  - rewrite Hp in Ho. destruct Hs as [k Hk]. rewrite Hk, fmap_app in Ho. by apply NoDup_app in Ho as (_ & _ & ?).
  - apply length_trim_history.
  - intros i c' [c [<- ?%Hc]]%lookup_fmap_Some. by apply length_offer.
Qed.

Lemma hub_step_inv s l s' : hub_step s l s' → hub_inv s → hub_inv s'.
Proof.
  destruct 1 as [h ps ty p now|h ps1 e ps2|h ps src rev|h ps id|h ps id e h' Hr]; intros Hinv.
  - destruct Hinv as [Hf Ho Hh Hc]. cbn in *. constructor; cbn; try done.
    + intros e. rewrite app_assoc, elem_of_app, list_elem_of_singleton.
      intros [?%Hf| ->]; cbn; lia.
    + rewrite app_assoc, fmap_app. apply NoDup_app. split_and!; [done| |apply NoDup_singleton].
      intros r [e [-> ?%Hf]]%list_elem_of_fmap. cbn. rewrite list_elem_of_singleton. lia.
  - by apply hub_inv_deliver.
  - destruct Hinv as [Hf Ho Hh Hc]. constructor; try done. cbn in *.
    apply map_Forall_insert_2; [cbn; unfold channelCapacity; lia|done].
  - destruct Hinv as [Hf Ho Hh Hc]. constructor; try done. cbn in *. by apply map_Forall_delete.
  - destruct Hinv as [Hf Ho Hh Hc]. unfold receive in Hr.
    destruct (hub_subscribers h !! id) as [[|e' c]|] eqn:Hid; [done| |done]. simplify_eq/=.
    constructor; try done. cbn in *. apply map_Forall_insert_2; [|done].
    specialize (Hc _ _ Hid). cbn in Hc. lia.
Qed.

(** ** Properties *)

(** C26: no event is lost between a snapshot and the stream.  After any sequence
    of publications, a consumer that resumes at revision [c] of the same hub,
    at most 1024 events behind, gets from [SubscribeAfter] and then from its
    channel exactly the events after [c], in order and without a gap, as long
    as it lets at most 64 events wait in the channel.  Each [Publish] runs whole,
    one after the other, on one hub: publishers that overlap are the subject of
    [concurrent_Publish_can_lose_an_event]. *)
Theorem SubscribeAfter_no_gap src ps c qs id backlog h1 :
  (c ≤ length ps)%nat →
  (length ps - c ≤ historyLimit)%nat →
  (length qs ≤ channelCapacity)%nat →
  SubscribeAfter (publish_all (NewHub src) ps) src (Z.of_nat c) = (id, backlog, h1) →
  ∃ chan, hub_subscribers (publish_all h1 qs) !! id = Some chan
          ∧ backlog ++ chan = events_from src (Z.of_nat c) (drop c ps ++ qs).
Proof.
  intros Hc Hlim Hqs Hsub. destruct (publish_all_new src ps) as (Hh & Hr & Hs).
  pose proof (stream_no_gap (publish_all (NewHub src) ps) ps c qs id backlog h1) as Hgap. rewrite Hs in Hgap.
  apply Hgap; [|done..]. split; by rewrite ?Hs.
Qed.

Lemma SubscribeAfter_no_gap_witness :
  let p := mkPublication UserUpdated (PText "u") 5 in
  ∃ chan, hub_subscribers (publish_all (snd (SubscribeAfter
             (publish_all (NewHub "api") [p; p; p]) "api" 1)) [p]) !! 1 = Some chan
          ∧ (event_Revision <$> chan) = [4].
Proof.
  intros p.
  destruct (SubscribeAfter_no_gap "api" [p; p; p] 1 [p] 1
             (events_from "api" 1 [p; p])
             (snd (SubscribeAfter (publish_all (NewHub "api") [p; p; p]) "api" 1)))
    as (chan & Hc & Ha); [cbn; lia|cbn; unfold historyLimit; lia|cbn; unfold channelCapacity; lia
    |vm_compute; reflexivity|].
  exists chan. split; [exact Hc|]. vm_compute in Hc. injection Hc as <-. reflexivity.
Defined.

(** a consumer that presents the identity of another hub (the API process
    restarted) is replayed every retained event, the last 1024 published. *)
Theorem SubscribeAfter_restart src other ps c :
  other ≠ src →
  (SubscribeAfter (publish_all (NewHub src) ps) other c).1.2
  = drop (length ps - historyLimit) (events_from src 0 ps).
Proof.
  intros Hne. destruct (publish_all_new src ps) as (Hh & _ & Hs). cbn.
  rewrite Hh, Hs. unfold trim_history. rewrite length_events_from.
  apply filter_all. by left.
Qed.

Lemma SubscribeAfter_restart_witness :
  let p := mkPublication UserUpdated (PText "u") 5 in
  event_Revision <$> (SubscribeAfter (publish_all (NewHub "new") [p; p]) "old" 7).1.2 = [1; 2].
Proof. intros p. rewrite (SubscribeAfter_restart "new" "old" [p; p] 7) by done. reflexivity. Defined.

(** under every interleaving of publishers, subscribers and consumers a
    revision is given to one event only, no revision exceeds the counter, the
    history holds at most 1024 events and no channel more than 64. *)
Theorem hub_steps_inv src ls s : hub_steps (NewHub src, []) ls s → hub_inv s.
Proof.
  cut (∀ s1 s2, hub_steps s1 ls s2 → hub_inv s1 → hub_inv s2).
  { intros Hcut Hst. apply (Hcut _ _ Hst). constructor; cbn.
    - set_solver.
    - apply NoDup_nil_2.
    - unfold historyLimit. lia.
    - apply map_Forall_empty. }
  induction 1; eauto using hub_step_inv.
Qed.

Lemma hub_steps_inv_witness :
  hub_inv (snd (reserve (NewHub "api") UserUpdated (PText "u") 1),
           [fst (reserve (NewHub "api") UserUpdated (PText "u") 1)]).
Proof.
  apply (hub_steps_inv "api" [LReserve UserUpdated (PText "u") 1]).
  eapply steps_cons; [apply (step_reserve (NewHub "api") [])|constructor].
Defined.

(** with two concurrent publishers an event can be lost.  [Publish] numbers
    its event before it takes the mutex; the publisher of revision 2 may append
    first, a consumer receives revision 2 and reconnects with that cursor after
    revision 1 was appended: revision 1 is in the history, the consumer never
    receives it, and the replay of [SubscribeAfter] leaves it out. *)
Theorem concurrent_Publish_can_lose_an_event :
  ∃ ls h e1 e2,
    hub_steps (NewHub "api", []) ls (h, [])
    ∧ hub_history h = [e2; e1] ∧ event_Revision e1 = 1 ∧ event_Revision e2 = 2
    ∧ LReceive 1 e2 ∈ ls ∧ (∀ id, LReceive id e1 ∉ ls)
    ∧ (SubscribeAfter h "api" 2).1.2 = []
    ∧ (∀ id chan, hub_subscribers h !! id = Some chan → e1 ∉ chan).
Proof.
  set (e1 := mkEvent "api" 1 UserDisabled 10 (PText "first")).
  set (e2 := mkEvent "api" 2 UserUpdated 11 (PText "second")).
  eexists [LSubscribe "api" 0; LReserve UserDisabled (PText "first") 10;
           LReserve UserUpdated (PText "second") 11; LDeliver e2; LReceive 1 e2;
           LUnsubscribe 1; LDeliver e1; LSubscribe "api" 2], _, e1, e2.
  split.
  { eapply steps_cons; [apply (step_subscribe (NewHub "api") [])|].
    eapply steps_cons; [apply step_reserve|].
    eapply steps_cons; [apply step_reserve|].
    eapply steps_cons; [apply (step_deliver _ [e1] e2 [])|].
    eapply steps_cons; [apply step_receive; vm_compute; reflexivity|].
    eapply steps_cons; [apply step_unsubscribe|].
    eapply steps_cons; [apply (step_deliver _ [] e1 [])|].
    eapply steps_cons; [apply step_subscribe|]. constructor. }
  split_and!; try reflexivity.
  - set_solver.
  - intros id. unfold e1, e2. rewrite !not_elem_of_cons.
    split_and!; first [discriminate|apply not_elem_of_nil].
  - intros id chan Hl.
    match type of Hl with ?m !! _ = _ =>
      replace m with ({[2 := []]} : gmap Z (list Event)) in Hl by (vm_compute; reflexivity)
    end.
    apply lookup_singleton_Some in Hl as [_ <-]. set_solver.
Qed.
