(* ===== verification/Sql.v ===== *)
(** * The database: tables, constraints, statements and transactions

    A table is the list of its rows in insertion order.  A row is the domain
    struct whose time fields hold the column's milliseconds (the [scan]
    functions of the stores convert them back).  JSON text columns are kept
    as the value they encode.

    A statement may fail for a reason outside the data: the world carries a list
    of faults, one per statement still to run, and theorems quantify over it.  A
    statement that would break a PRIMARY KEY, UNIQUE or FOREIGN KEY constraint
    fails with [ErrConstraint]; a failing statement changes nothing.  [tx] is
    [BeginTx] with [defer tx.Rollback()] and a final [Commit]. *)

From S2P Require Export Hub.

(** ** Rows without a domain struct *)

Record RecoveryCode := mkRecoveryCode {
  code_UserID : string; code_Hash : string; code_CreatedAt : Z }.

Record LoginAttempt := mkLoginAttempt {
  attempt_ID : string; attempt_Username : string; attempt_OccurredAt : Z }.

Record AccountLockout := mkAccountLockout {
  lockout_Username : string; lockout_LockedUntil : Z; lockout_UpdatedAt : Z }.

Record Membership := mkMembership {
  member_GroupID : string; member_UserID : string; member_CreatedAt : Z }.

(** [relaygateway.Credential] *)
Record Credential := mkCredential {
  cred_RelayID : string;
  cred_Hash : string;
  cred_EnrollmentHash : string;
  cred_EnrollmentExpires : time;
  cred_Generation : string;
  cred_UpdatedAt : time
}.

#[export] Instance eta_Credential : Eta Credential := λ r,
  mkCredential (cred_RelayID r) (cred_Hash r) (cred_EnrollmentHash r)
    (cred_EnrollmentExpires r) (cred_Generation r) (cred_UpdatedAt r).

Record RelayAuthorization := mkRelayAuthorization {
  auth_UUID : string; auth_RelayID : string; auth_Generation : string;
  auth_State : string; auth_CreatedAt : Z }.

#[export] Instance eta_RelayAuthorization : Eta RelayAuthorization := λ r,
  mkRelayAuthorization (auth_UUID r) (auth_RelayID r) (auth_Generation r) (auth_State r)
    (auth_CreatedAt r).

Record RelayReceipt := mkRelayReceipt {
  receipt_RelayID : string; receipt_EventID : string; receipt_UUID : string;
  receipt_Generation : string; receipt_State : string; receipt_ReceivedAt : Z }.

Record RelayArchive := mkRelayArchive {
  archive_UUID : string; archive_RelayID : string; archive_Generation : string;
  archive_ActiveEventID : string; archive_ClosedEventID : string; archive_ArchivedAt : Z }.

Record RuntimeSetting := mkRuntimeSetting {
  setting_Key : string; setting_Value : string; setting_UpdatedAt : Z }.

Record UserPreference := mkUserPreference {
  pref_UserID : string; pref_Key : string; pref_Value : string; pref_UpdatedAt : Z }.

(** ** The schema *)

Record DB := mkDB {
  t_users : list User;
  t_sessions : list Session;
  t_auth_challenges : list AuthChallenge;
  t_oidc_auth_requests : list OIDCAuthRequest;
  t_oidc_identities : list OIDCIdentity;
  t_mfa_recovery_codes : list RecoveryCode;
  t_audit_events : list AuditEvent;
  t_connection_records : list ConnectionRecord;
  t_login_attempts : list LoginAttempt;
  t_account_lockouts : list AccountLockout;
  t_devices : list Device;
  t_groups : list Group;
  t_user_group_memberships : list Membership;
  t_address_books : list AddressBook;
  t_address_book_grants : list AddressBookGrant;
  t_address_book_entries : list AddressBookEntry;
  t_address_book_tags : list AddressBookTag;
  t_api_tokens : list APIToken;
  t_relay_servers : list RelayServer;
  t_relay_credentials : list Credential;
  t_relay_authorizations : list RelayAuthorization;
  t_relay_event_receipts : list RelayReceipt;
  t_relay_delivery_archive : list RelayArchive;
  t_relay_metrics : list RelayMetric;
  t_webhooks : list Webhook;
  t_webhook_deliveries : list WebhookDelivery;
  t_notifications : list Notification;
  t_automation_rules : list AutomationRule;
  t_automation_runs : list AutomationRun;
  t_cluster_nodes : list ClusterNode;
  t_cluster_leases : list ClusterLease;
  t_client_profiles : list ClientProfile;
  t_client_profile_assignments : list ClientProfileAssignment;
  t_client_builds : list ClientBuild;
  t_builder_workers : list BuilderWorker;
  t_runtime_settings : list RuntimeSetting;
  t_user_preferences : list UserPreference;
  t_acl_rules : list ACLRule;
  t_strategies : list Strategy;
  t_roles : list RoleDefinition
}.

#[export] Instance eta_DB : Eta DB := λ r,
  mkDB (t_users r) (t_sessions r) (t_auth_challenges r) (t_oidc_auth_requests r)
    (t_oidc_identities r) (t_mfa_recovery_codes r) (t_audit_events r) (t_connection_records r)
    (t_login_attempts r) (t_account_lockouts r) (t_devices r) (t_groups r)
    (t_user_group_memberships r) (t_address_books r) (t_address_book_grants r)
    (t_address_book_entries r) (t_address_book_tags r) (t_api_tokens r) (t_relay_servers r)
    (t_relay_credentials r) (t_relay_authorizations r) (t_relay_event_receipts r)
    (t_relay_delivery_archive r) (t_relay_metrics r) (t_webhooks r) (t_webhook_deliveries r)
    (t_notifications r) (t_automation_rules r) (t_automation_runs r) (t_cluster_nodes r)
    (t_cluster_leases r) (t_client_profiles r) (t_client_profile_assignments r)
    (t_client_builds r) (t_builder_workers r) (t_runtime_settings r) (t_user_preferences r)
    (t_acl_rules r) (t_strategies r) (t_roles r).

Definition empty_db : DB :=
  mkDB [] [] [] [] [] [] [] [] [] [] [] [] [] [] [] [] [] [] [] [] [] [] [] [] [] [] [] [] [] []
       [] [] [] [] [] [] [] [] [] [].

(** ** The world a store operation runs in *)

Record world := mkWorld {
  w_db : DB;
  w_faults : list bool;   (* [true]: the next statement fails in the driver *)
  w_hub : Hub
}.

#[export] Instance eta_world : Eta world := λ r, mkWorld (w_db r) (w_faults r) (w_hub r).

Definition M (A : Type) : Type := world → res A * world.

Definition ret {A} (a : A) : M A := λ w, (Ok a, w).
Definition throw {A} (e : error) : M A := λ w, (Err e, w).
(** A pure result inside the store monad. *)
Definition lift {A} (r : res A) : M A := match r with Ok a => ret a | Err e => throw e end.
Definition bind {A B} (m : M A) (k : A → M B) : M B := λ w,
  match m w with
  | (Ok a, w') => k a w'
  | (Err e, w') => (Err e, w')
  end.

(** [v, err := f()] with the error examined by the caller; [_ = f()] discards it. *)
Definition try {A} (m : M A) : M (res A) := λ w, let '(r, w') := m w in (Ok r, w').

#[export] Instance M_ret : MRet M := @ret.
#[export] Instance M_bind : MBind M := λ A B k m, bind m k.

(** [for _, x := range l { f(x) }] with an early return on the first error. *)
Fixpoint for_each {A} (f : A → M unit) (l : list A) : M unit :=
  match l with
  | [] => ret tt
  | x :: l' => f x;; for_each f l'
  end.

Definition when (b : bool) (m : M unit) : M unit := if b then m else ret tt.

(** Whether the next statement fails, and the world without its entry. *)
Definition fault (w : world) : bool := match w_faults w with b :: _ => b | [] => false end.
Definition advance (w : world) : world := w <| w_faults := tail (w_faults w) |>.

(** One statement: all or nothing. *)
Definition exec {A} (f : DB → res (A * DB)) : M A := λ w,
  if fault w then (Err ErrDriver, advance w)
  else match f (w_db w) with
       | Ok (a, d) => (Ok a, advance w <| w_db := d |>)
       | Err e => (Err e, advance w)
       end.

(** A SELECT, and a SELECT of one row whose absence is [ErrNotFound]. *)
Definition query {A} (f : DB → A) : M A := exec (λ d, Ok (f d, d)).
Definition query_row {A} (f : DB → option A) : M A :=
  exec (λ d, res_map (λ a, (a, d)) (of_option ErrNotFound (f d))).

(** A transaction: an error of the body or of [Commit] restores the tables. *)
Definition tx {A} (body : M A) : M A := λ w,
  if fault w then (Err ErrDriver, advance w)
  else match body (advance w) with
       | (Err e, w') => (Err e, w' <| w_db := w_db w |>)
       | (Ok a, w') =>
           if fault w' then (Err ErrDriver, advance w' <| w_db := w_db w |>)
           else (Ok a, advance w')
       end.

(** A transaction that may roll back on purpose and go on outside it: [None] is
    [tx.Rollback()], after which [otherwise] runs. *)
Definition tx_rollback {A} (body : M (option A)) (otherwise : M A) : M A := λ w,
  if fault w then (Err ErrDriver, advance w)
  else match body (advance w) with
       | (Err e, w') => (Err e, w' <| w_db := w_db w |>)
       | (Ok None, w') => otherwise (w' <| w_db := w_db w |>)
       | (Ok (Some a), w') =>
           if fault w' then (Err ErrDriver, advance w' <| w_db := w_db w |>)
           else (Ok a, advance w')
       end.

(** [s.hub.Publish] from a service. *)
Definition publish (ty : string) (p : payload) (now : time) : M unit := λ w,
  (Ok tt, w <| w_hub := snd (Publish (w_hub w) ty p now) |>).

(** ** Statements *)

Definition delete_where {A} (P : A → Prop) `{∀ x, Decision (P x)} (t : list A) : list A :=
  filter (λ r, ¬ P r) t.
Definition update_where {A} (P : A → Prop) `{∀ x, Decision (P x)} (f : A → A) (t : list A)
    : list A :=
  (λ r, if decide (P r) then f r else r) <$> t.
Definition count_where {A} (P : A → Prop) `{∀ x, Decision (P x)} (t : list A) : Z :=
  Z.of_nat (length (filter P t)).

(** The constraints that INSERT and UPDATE on a table are checked against:
    its PRIMARY KEY and UNIQUE columns and its REFERENCES. *)
Class TableSpec {A} (tbl : DB → list A) := {
  tbl_ok : DB → Prop;
  tbl_ok_dec d : Decision (tbl_ok d)
}.
Arguments tbl_ok {A} tbl {_} _.
#[export] Existing Instance tbl_ok_dec.

Section Statements.
Context {A : Type} (tbl : DB → list A) `{!Setter tbl, !TableSpec tbl}.

Definition write (t : list A) (d : DB) : DB := set_field tbl (λ _, t) d.
Definition checked {B} (b : B) (d : DB) : res (B * DB) :=
  if decide (tbl_ok tbl d) then Ok (b, d) else Err ErrConstraint.

Definition sql_insert (row : A) : M unit :=
  exec (λ d, checked tt (write (tbl d ++ [row]) d)).

(** INSERT ... ON CONFLICT(key) DO UPDATE SET ... : [same] is the conflict
    target, [merge old] the row after the update. *)
Definition sql_upsert (same : A → Prop) `{∀ x, Decision (same x)} (merge : A → A) (row : A)
    : M unit :=
  exec (λ d, checked tt (write (if decide (Exists same (tbl d))
                                then update_where same merge (tbl d)
                                else tbl d ++ [row]) d)).

(** INSERT ... ON CONFLICT(key) DO NOTHING; returns the rows affected. *)
Definition sql_insert_ignore (same : A → Prop) `{∀ x, Decision (same x)} (row : A) : M Z :=
  exec (λ d, if decide (Exists same (tbl d)) then Ok (0, d)
             else checked 1 (write (tbl d ++ [row]) d)).

(** INSERT ... ON CONFLICT(key) DO UPDATE SET ... WHERE cond; returns the rows
    affected, none when the row that is there does not satisfy [cond]. *)
Definition sql_upsert_where (same : A → Prop) `{∀ x, Decision (same x)}
    (cond : A → Prop) `{∀ x, Decision (cond x)} (merge : A → A) (row : A) : M Z :=
  exec (λ d, if decide (Exists same (tbl d))
             then checked (count_where (λ r, same r ∧ cond r) (tbl d))
                    (write (update_where (λ r, same r ∧ cond r) merge (tbl d)) d)
             else checked 1 (write (tbl d ++ [row]) d)).

(** INSERT ... SELECT of one row when a condition on the tables holds, ON
    CONFLICT(key) DO NOTHING; returns the rows affected. *)
Definition sql_insert_when (cond : DB → Prop) `{∀ d, Decision (cond d)}
    (same : A → Prop) `{∀ x, Decision (same x)} (row : A) : M Z :=
  exec (λ d, if decide (cond d ∧ ¬ Exists same (tbl d))
             then checked 1 (write (tbl d ++ [row]) d) else Ok (0, d)).

(** INSERT ... SELECT of one computed row; [None] is a NULL in a NOT NULL column. *)
Definition sql_insert_select (row : DB → option A) : M unit :=
  exec (λ d, match row d with
             | Some r => checked tt (write (tbl d ++ [r]) d)
             | None => Err ErrConstraint
             end).

(** UPDATE ... WHERE; returns the rows affected. *)
Definition sql_update (P : A → Prop) `{∀ x, Decision (P x)} (f : A → A) : M Z :=
  exec (λ d, checked (count_where P (tbl d)) (write (update_where P f (tbl d)) d)).

(** UPDATE ... WHERE ... RETURNING, read as one row. *)
Definition sql_update_returning (P : A → Prop) `{∀ x, Decision (P x)} (f : A → A) : M A :=
  exec (λ d, match filter P (tbl d) with
             | [] => Err ErrNotFound
             | r :: _ => checked (f r) (write (update_where P f (tbl d)) d)
             end).

(** DELETE ... WHERE on a table nothing references. *)
Definition sql_delete (P : A → Prop) `{∀ x, Decision (P x)} : M Z :=
  exec (λ d, Ok (count_where P (tbl d), write (delete_where P (tbl d)) d)).

(** DELETE and UPDATE whose condition has a subquery on the same database. *)
Definition sql_delete_sub (P : DB → A → Prop) `{∀ d x, Decision (P d x)} : M Z :=
  exec (λ d, Ok (count_where (P d) (tbl d), write (delete_where (P d) (tbl d)) d)).

Definition sql_update_sub (P : DB → A → Prop) `{∀ d x, Decision (P d x)} (f : A → A) : M Z :=
  exec (λ d, checked (count_where (P d) (tbl d)) (write (update_where (P d) f (tbl d)) d)).

(** DELETE ... WHERE ... RETURNING, read as one row. *)
Definition sql_delete_returning (P : A → Prop) `{∀ x, Decision (P x)} : M A :=
  exec (λ d, match filter P (tbl d) with
             | [] => Err ErrNotFound
             | r :: _ => Ok (r, write (delete_where P (tbl d)) d)
             end).
End Statements.

(** [affected(result, err)] *)
Definition affected (m : M Z) : M unit :=
  n ← m; if bool_decide (n = 0) then throw ErrNotFound else ret tt.

(** The first row of a SELECT ... WHERE. *)
Definition select_one {A} (P : A → Prop) `{∀ x, Decision (P x)} (t : list A) : option A :=
  head (filter P t).

Definition discard {A} (m : M A) : M unit := m;; ret tt.

(** ** Text functions of the database

    [LOWER(s)] and [s LIKE pattern] belong to the database engine (SQLite and
    PostgreSQL differ outside ASCII); [ascii_sql] is an instance for concrete
    evaluations. *)
Class SqlText := {
  sql_lower : string → string;
  sql_like : string → string → bool
}.

(** [%] matches any sequence and [_] one byte. *)
Fixpoint like_bytes (pattern s : list Ascii.ascii) : bool :=
  match pattern with
  | [] => match s with [] => true | _ => false end
  | c :: pattern' =>
      if byte c =? 37 then
        (fix any_suffix (s : list Ascii.ascii) : bool :=
           like_bytes pattern' s || match s with [] => false | _ :: s' => any_suffix s' end) s
      else match s with
           | [] => false
           | b :: s' => ((byte c =? 95) || (byte c =? byte b)) && like_bytes pattern' s'
           end
  end.

Definition ascii_sql : SqlText := {|
  sql_lower := λ s, of_bytes (lower_byte <$> bytes_of s);
  sql_like := λ s pattern, like_bytes (bytes_of pattern) (bytes_of s)
|}.

(** LIMIT n OFFSET m on rows already ordered. *)
Definition limit_offset {A} (limit offset : Z) (l : list A) : list A :=
  take (Z.to_nat limit) (drop (Z.to_nat offset) l).
