(* ===== verification/Wp.v ===== *)
(** * Reasoning about store operations

    [wp F m Q d h]: run from tables [d] and hub [h], [m] ends in a result,
    tables and hub that satisfy [Q].  With [F = true] any statement may fail in
    the driver; with [F = false] none does, so a [wp false] that excludes errors
    shows that the operation succeeds. *)

From S2P Require Export Sql.

Definition faults_ok (F : bool) (fs : list bool) : Prop := if F then True else fs = [].

Definition wp {A} (F : bool) (m : M A) (Q : res A → DB → Hub → Prop) (d : DB) (h : Hub) : Prop :=
  ∀ fs, faults_ok F fs →
    let '(r, w) := m (mkWorld d fs h) in Q r (w_db w) (w_hub w) ∧ faults_ok F (w_faults w).

Section Rules.
Context {F : bool} {A B : Type}.
Implicit Types (Q : res A → DB → Hub → Prop) (d : DB) (h : Hub).

Lemma wp_run Q (m : M A) w :
  faults_ok F (w_faults w) → wp F m Q (w_db w) (w_hub w) →
  Q (m w).1 (w_db (m w).2) (w_hub (m w).2).
Proof.
  destruct w as [d fs h]. intros Hf Hwp. specialize (Hwp fs Hf). cbn in *.
  by destruct (m _) as [r w'], Hwp.
Qed.

Lemma wp_run_faults Q (m : M A) w :
  faults_ok F (w_faults w) → wp F m Q (w_db w) (w_hub w) →
  Q (m w).1 (w_db (m w).2) (w_hub (m w).2) ∧ faults_ok F (w_faults (m w).2).
Proof. destruct w as [d fs h]. intros Hf Hwp. specialize (Hwp fs Hf). cbn in *. by destruct (m _). Qed.

Lemma wp_mono Q Q' (m : M A) d h :
  wp F m Q d h → (∀ r d' h', Q r d' h' → Q' r d' h') → wp F m Q' d h.
Proof. intros Hwp Himp fs Hfs. specialize (Hwp fs Hfs). destruct (m _). naive_solver. Qed.

(** With faults, every program has the trivial postcondition. *)
Lemma wp_True (m : M A) d h : wp true m (λ _ _ _, True) d h.
Proof. intros fs _. by destruct (m _). Qed.

Lemma wp_ret Q a d h : Q (Ok a) d h → wp F (ret a) Q d h.
Proof. by intros HQ fs Hfs. Qed.

Lemma wp_mret Q a d h : Q (Ok a) d h → wp F (mret a) Q d h.
Proof. by intros HQ fs Hfs. Qed.

Lemma wp_throw Q e d h : Q (Err e) d h → wp F (throw e) Q d h.
Proof. by intros HQ fs Hfs. Qed.

Lemma wp_lift Q r d h : Q r d h → wp F (lift r) Q d h.
Proof. intros HQ fs Hfs. by destruct r. Qed.

Lemma wp_bind (Q : res B → DB → Hub → Prop) (m : M A) (k : A → M B) d h :
  wp F m (λ r d' h', match r with
                     | Ok a => wp F (k a) Q d' h'
                     | Err e => Q (Err e) d' h'
                     end) d h →
  wp F (mbind k m) Q d h.
Proof.
  intros Hwp fs Hfs. specialize (Hwp fs Hfs). unfold mbind, M_bind, bind.
  destruct (m _) as [[a|e] [d' fs' h']], Hwp as [Hk Hfs']; cbn in *; [|done].
  by apply Hk.
Qed.

Lemma wp_try (Q : res (res A) → DB → Hub → Prop) (m : M A) d h :
  wp F m (λ r, Q (Ok r)) d h → wp F (try m) Q d h.
Proof. intros Hwp fs Hfs. specialize (Hwp fs Hfs). unfold try. by destruct (m _). Qed.

Lemma wp_exec Q (f : DB → res (A * DB)) d h :
  (F = true → Q (Err ErrDriver) d h) →
  match f d with Ok (a, d') => Q (Ok a) d' h | Err e => Q (Err e) d h end →
  wp F (exec f) Q d h.
Proof.
  intros HF Hf [|b fs] Hfs; unfold exec, fault; cbn [w_faults w_db].
  - destruct (f d) as [[a d']|e]; done.
  - destruct F; [|done]. destruct b; [by split; [apply HF|]|].
    destruct (f d) as [[a d']|e]; done.
Qed.

Lemma wp_query Q (f : DB → A) d h :
  (F = true → Q (Err ErrDriver) d h) → Q (Ok (f d)) d h → wp F (query f) Q d h.
Proof. intros. by apply wp_exec. Qed.

Lemma wp_query_row Q (f : DB → option A) d h :
  (F = true → Q (Err ErrDriver) d h) →
  match f d with Some a => Q (Ok a) d h | None => Q (Err ErrNotFound) d h end →
  wp F (query_row f) Q d h.
Proof. intros ? Hf. apply wp_exec; [done|]. by destruct (f d). Qed.

Lemma wp_tx Q (body : M A) d h :
  (F = true → Q (Err ErrDriver) d h) →
  wp F body (λ r d' h', match r with
                        | Ok a => Q (Ok a) d' h' ∧ (F = true → Q (Err ErrDriver) d h')
                        | Err e => Q (Err e) d h'
                        end) d h →
  wp F (tx body) Q d h.
Proof.
  intros HF Hb fs Hfs. unfold tx, fault; cbn [w_faults].
  assert (Hfs' : faults_ok F (tail fs)) by (destruct F; [done|]; cbn in *; by subst fs).
  assert (Hadv : advance (mkWorld d fs h) = mkWorld d (tail fs) h) by done.
  destruct (match fs with [] => false | b :: _ => b end) eqn:Hfault.
  { destruct F; [by split; [apply HF|]|]. cbn in *. by subst fs. }
  rewrite Hadv. specialize (Hb _ Hfs').
  destruct (body _) as [[a|e] [d' fs' h']], Hb as [Hb Hfs'']; cbn in *; [|done].
  assert (Hfs3 : faults_ok F (tail fs')) by (destruct F; [done|]; cbn in *; by subst fs').
  destruct Hb as [Hok Herr]. destruct fs' as [|[] fs']; cbn in *; [done| |done].
  destruct F; [by split; [apply Herr|]|done].
Qed.

Lemma wp_tx_rollback Q (body : M (option A)) otherwise d h :
  (F = true → Q (Err ErrDriver) d h) →
  wp F body (λ r d' h', match r with
                        | Ok (Some a) => Q (Ok a) d' h' ∧ (F = true → Q (Err ErrDriver) d h')
                        | Ok None => wp F otherwise Q d h'
                        | Err e => Q (Err e) d h'
                        end) d h →
  wp F (tx_rollback body otherwise) Q d h.
Proof.
  intros HF Hb fs Hfs. unfold tx_rollback, fault; cbn [w_faults].
  assert (Hfs' : faults_ok F (tail fs)) by (destruct F; [done|]; cbn in *; by subst fs).
  assert (Hadv : advance (mkWorld d fs h) = mkWorld d (tail fs) h) by done.
  destruct (match fs with [] => false | b :: _ => b end) eqn:Hfault.
  { destruct F; [by split; [apply HF|]|]. cbn in *. by subst fs. }
  rewrite Hadv. specialize (Hb _ Hfs').
  destruct (body _) as [[[a|]|e] [d' fs' h']], Hb as [Hb Hfs'']; cbn in *; [|by apply Hb|done].
  assert (Hfs3 : faults_ok F (tail fs')) by (destruct F; [done|]; cbn in *; by subst fs').
  destruct Hb as [Hok Herr]. destruct fs' as [|[] fs']; cbn in *; [done| |done].
  destruct F; [by split; [apply Herr|]|done].
Qed.

Lemma wp_publish (Q : res unit → DB → Hub → Prop) ty p now d h :
  Q (Ok tt) d (snd (Publish h ty p now)) → wp F (publish ty p now) Q d h.
Proof. by intros HQ fs Hfs. Qed.

End Rules.

Lemma wp_for_each {F A} (I : DB → Prop) (f : A → M unit) (l : list A) d h :
  I d →
  (∀ x d h, x ∈ l → I d → wp F (f x) (λ r d' _, I d') d h) →
  wp F (for_each f l) (λ r d' _, I d') d h.
Proof.
  revert d h. induction l as [|x l IH]; intros d h HI Hf; cbn; [by apply wp_ret|].
  apply wp_bind. eapply wp_mono; [apply Hf; [set_solver|done]|].
  intros [[]|e] d' h' HI'; [|done]. apply IH; [done|]. set_solver.
Qed.

Lemma for_each_app {A} (f : A → M unit) l1 l2 w :
  for_each f (l1 ++ l2) w = (for_each f l1;; for_each f l2) w.
Proof.
  revert w. induction l1 as [|x l1 IH]; intros w; [done|]. cbn.
  unfold mbind, M_bind, bind in *. destruct (f x w) as [[[]|e] w']; [apply IH|done].
Qed.

Lemma wp_for_each_app {F A} (f : A → M unit) l1 l2 Q d h :
  wp F (for_each f l1)
     (λ r d' h', match r with Ok _ => wp F (for_each f l2) Q d' h' | Err e => Q (Err e) d' h' end) d h →
  wp F (for_each f (l1 ++ l2)) Q d h.
Proof. intros Hw fs Hfs. rewrite for_each_app. by apply wp_bind in Hw; apply Hw. Qed.

(** ** Rules of the statements

    The state after a statement is a fresh variable with the equation that
    defines it, so that programs of many statements stay small. *)

Section StatementRules.
Context {F : bool} {A : Type} (tbl : DB → list A) `{!Setter tbl, !TableSpec tbl}.
Implicit Types (d : DB) (h : Hub) (t : list A).

Lemma wp_sql_insert (Q : res unit → DB → Hub → Prop) row d h :
  (F = true → Q (Err ErrDriver) d h) →
  (∀ d', d' = write tbl (tbl d ++ [row]) d → tbl_ok tbl d' → Q (Ok tt) d' h) →
  (¬ tbl_ok tbl (write tbl (tbl d ++ [row]) d) → Q (Err ErrConstraint) d h) →
  wp F (sql_insert tbl row) Q d h.
Proof. intros ? Hok Herr. apply wp_exec; [done|]. unfold checked. case_decide; eauto. Qed.

Lemma wp_sql_upsert (Q : res unit → DB → Hub → Prop) same `{∀ x, Decision (same x)} merge row d h :
  let t' := if decide (Exists same (tbl d)) then update_where same merge (tbl d)
            else tbl d ++ [row] in
  (F = true → Q (Err ErrDriver) d h) →
  (∀ d', d' = write tbl t' d → tbl_ok tbl d' → Q (Ok tt) d' h) →
  (¬ tbl_ok tbl (write tbl t' d) → Q (Err ErrConstraint) d h) →
  wp F (sql_upsert tbl same merge row) Q d h.
Proof. intros t' ? Hok Herr. apply wp_exec; [done|]. unfold checked. case_decide; eauto. Qed.

Lemma wp_sql_insert_ignore (Q : res Z → DB → Hub → Prop) same `{∀ x, Decision (same x)} row d h :
  (F = true → Q (Err ErrDriver) d h) →
  (Exists same (tbl d) → Q (Ok 0) d h) →
  (∀ d', ¬ Exists same (tbl d) → d' = write tbl (tbl d ++ [row]) d → tbl_ok tbl d' →
         Q (Ok 1) d' h) →
  (¬ Exists same (tbl d) → ¬ tbl_ok tbl (write tbl (tbl d ++ [row]) d) →
   Q (Err ErrConstraint) d h) →
  wp F (sql_insert_ignore tbl same row) Q d h.
Proof.
  intros ? Hex Hok Herr. apply wp_exec; [done|]. case_decide; [eauto|].
  unfold checked. case_decide; eauto.
Qed.

Lemma wp_sql_upsert_where (Q : res Z → DB → Hub → Prop) same `{∀ x, Decision (same x)}
    cond `{∀ x, Decision (cond x)} merge row d h :
  (F = true → Q (Err ErrDriver) d h) →
  (∀ d', Exists same (tbl d) →
         d' = write tbl (update_where (λ r, same r ∧ cond r) merge (tbl d)) d → tbl_ok tbl d' →
         Q (Ok (count_where (λ r, same r ∧ cond r) (tbl d))) d' h) →
  (∀ d', ¬ Exists same (tbl d) → d' = write tbl (tbl d ++ [row]) d → tbl_ok tbl d' →
         Q (Ok 1) d' h) →
  (Exists same (tbl d) →
   ¬ tbl_ok tbl (write tbl (update_where (λ r, same r ∧ cond r) merge (tbl d)) d) →
   Q (Err ErrConstraint) d h) →
  (¬ Exists same (tbl d) → ¬ tbl_ok tbl (write tbl (tbl d ++ [row]) d) →
   Q (Err ErrConstraint) d h) →
  wp F (sql_upsert_where tbl same cond merge row) Q d h.
Proof.
  intros ? Hup Hin Herr1 Herr2. apply wp_exec; [done|]. unfold checked.
  case_decide; case_decide; eauto.
Qed.

Lemma wp_sql_insert_when (Q : res Z → DB → Hub → Prop) cond `{∀ d, Decision (cond d)}
    same `{∀ x, Decision (same x)} row d h :
  (F = true → Q (Err ErrDriver) d h) →
  (¬ (cond d ∧ ¬ Exists same (tbl d)) → Q (Ok 0) d h) →
  (∀ d', cond d ∧ ¬ Exists same (tbl d) → d' = write tbl (tbl d ++ [row]) d → tbl_ok tbl d' →
         Q (Ok 1) d' h) →
  (cond d ∧ ¬ Exists same (tbl d) → ¬ tbl_ok tbl (write tbl (tbl d ++ [row]) d) →
   Q (Err ErrConstraint) d h) →
  wp F (sql_insert_when tbl cond same row) Q d h.
Proof.
  intros ? Hno Hok Herr. apply wp_exec; [done|]. case_decide; [|eauto].
  unfold checked. case_decide; eauto.
Qed.

Lemma wp_sql_insert_select (Q : res unit → DB → Hub → Prop) row d h :
  (F = true → Q (Err ErrDriver) d h) →
  (row d = None → Q (Err ErrConstraint) d h) →
  (∀ r d', row d = Some r → d' = write tbl (tbl d ++ [r]) d → tbl_ok tbl d' → Q (Ok tt) d' h) →
  (∀ r, row d = Some r → ¬ tbl_ok tbl (write tbl (tbl d ++ [r]) d) → Q (Err ErrConstraint) d h) →
  wp F (sql_insert_select tbl row) Q d h.
Proof.
  intros ? Hnone Hok Herr. apply wp_exec; [done|]. destruct (row d); [|eauto].
  unfold checked. case_decide; eauto.
Qed.

Lemma wp_sql_update (Q : res Z → DB → Hub → Prop) P `{∀ x, Decision (P x)} f d h :
  (F = true → Q (Err ErrDriver) d h) →
  (∀ d', d' = write tbl (update_where P f (tbl d)) d → tbl_ok tbl d' →
         Q (Ok (count_where P (tbl d))) d' h) →
  (¬ tbl_ok tbl (write tbl (update_where P f (tbl d)) d) → Q (Err ErrConstraint) d h) →
  wp F (sql_update tbl P f) Q d h.
Proof. intros ? Hok Herr. apply wp_exec; [done|]. unfold checked. case_decide; eauto. Qed.

Lemma wp_sql_update_sub (Q : res Z → DB → Hub → Prop) P `{∀ d x, Decision (P d x)} f d h :
  (F = true → Q (Err ErrDriver) d h) →
  (∀ d', d' = write tbl (update_where (P d) f (tbl d)) d → tbl_ok tbl d' →
         Q (Ok (count_where (P d) (tbl d))) d' h) →
  (¬ tbl_ok tbl (write tbl (update_where (P d) f (tbl d)) d) → Q (Err ErrConstraint) d h) →
  wp F (sql_update_sub tbl P f) Q d h.
Proof. intros ? Hok Herr. apply wp_exec; [done|]. unfold checked. case_decide; eauto. Qed.

Lemma wp_sql_update_returning (Q : res A → DB → Hub → Prop) P `{∀ x, Decision (P x)} f d h :
  (F = true → Q (Err ErrDriver) d h) →
  ((∀ r, r ∈ tbl d → ¬ P r) → Q (Err ErrNotFound) d h) →
  (∀ r d', r ∈ tbl d → P r → d' = write tbl (update_where P f (tbl d)) d → tbl_ok tbl d' →
           Q (Ok (f r)) d' h) →
  (∀ r, r ∈ tbl d → P r → ¬ tbl_ok tbl (write tbl (update_where P f (tbl d)) d) →
        Q (Err ErrConstraint) d h) →
  wp F (sql_update_returning tbl P f) Q d h.
Proof.
  intros ? Hnone Hok Herr. apply wp_exec; [done|]. destruct (filter P (tbl d)) as [|r l] eqn:Hf.
  - apply Hnone. intros r Hr HP. assert (Hin : r ∈ filter P (tbl d)) by (by apply list_elem_of_filter).
    rewrite Hf in Hin. set_solver.
  - assert (Hin : r ∈ filter P (tbl d)) by (rewrite Hf; set_solver).
    apply list_elem_of_filter in Hin as [??]. unfold checked. case_decide; eauto.
Qed.

Lemma wp_sql_delete (Q : res Z → DB → Hub → Prop) P `{∀ x, Decision (P x)} d h :
  (F = true → Q (Err ErrDriver) d h) →
  (∀ d', d' = write tbl (delete_where P (tbl d)) d → Q (Ok (count_where P (tbl d))) d' h) →
  wp F (sql_delete tbl P) Q d h.
Proof. intros ? Hok. apply wp_exec; [done|]. by apply Hok. Qed.

Lemma wp_sql_delete_sub (Q : res Z → DB → Hub → Prop) P `{∀ d x, Decision (P d x)} d h :
  (F = true → Q (Err ErrDriver) d h) →
  (∀ d', d' = write tbl (delete_where (P d) (tbl d)) d →
         Q (Ok (count_where (P d) (tbl d))) d' h) →
  wp F (sql_delete_sub tbl P) Q d h.
Proof. intros ? Hok. apply wp_exec; [done|]. by apply Hok. Qed.

Lemma wp_sql_delete_returning (Q : res A → DB → Hub → Prop) P `{∀ x, Decision (P x)} d h :
  (F = true → Q (Err ErrDriver) d h) →
  ((∀ r, r ∈ tbl d → ¬ P r) → Q (Err ErrNotFound) d h) →
  (∀ r d', r ∈ tbl d → P r → d' = write tbl (delete_where P (tbl d)) d → Q (Ok r) d' h) →
  wp F (sql_delete_returning tbl P) Q d h.
Proof.
  intros ? Hnone Hok. apply wp_exec; [done|]. destruct (filter P (tbl d)) as [|r l] eqn:Hf.
  - apply Hnone. intros r Hr HP. assert (Hin : r ∈ filter P (tbl d)) by (by apply list_elem_of_filter).
    rewrite Hf in Hin. set_solver.
  - assert (Hin : r ∈ filter P (tbl d)) by (rewrite Hf; set_solver).
    apply list_elem_of_filter in Hin as [??]. by apply Hok.
Qed.
End StatementRules.

(** Introduce the state after a statement and its equation. *)
Ltac intro_state :=
  let d := fresh "d" in let E := fresh "Ed" in intros d E.
Ltac intro_row :=
  let r := fresh "r" in let d := fresh "d" in let Hr := fresh "Hr" in let HP := fresh "HP" in
  let E := fresh "Ed" in intros r d Hr HP E.

(** Rules for operations of the stores; the files of the components extend it. *)
Ltac wp_hook := fail.

(** One step of symbolic execution: the rule for the head of the program. *)
Ltac wp_core :=
  lazymatch goal with
  | |- wp _ (mbind _ _) _ _ _ => apply wp_bind
  | |- wp _ (ret _) _ _ _ => apply wp_ret
  | |- wp _ (mret _) _ _ _ => apply wp_mret
  | |- wp _ (throw _) _ _ _ => apply wp_throw
  | |- wp _ (lift _) _ _ _ => apply wp_lift
  | |- wp _ (try _) _ _ _ => apply wp_try
  | |- wp _ (tx _) _ _ _ => apply wp_tx; [intros ?|]
  | |- wp _ (publish _ _ _) _ _ _ => apply wp_publish
  | |- wp _ (query _) _ _ _ => apply wp_query; [intros ?|]
  | |- wp _ (query_row _) _ _ _ => apply wp_query_row; [intros ?|]
  | |- wp _ (sql_insert _ _) _ _ _ =>
      apply wp_sql_insert; [intros ?|intro_state; intros ?|intros ?]
  | |- wp _ (sql_upsert _ _ _ _) _ _ _ =>
      apply wp_sql_upsert; [intros ?|intro_state; intros ?|intros ?]
  | |- wp _ (sql_insert_ignore _ _ _) _ _ _ =>
      apply wp_sql_insert_ignore;
      [intros ?|intros ?|let d := fresh "d" in intros d ?; let E := fresh "Ed" in intros E ?
      |intros ??]
  | |- wp _ (tx_rollback _ _) _ _ _ => apply wp_tx_rollback; [intros ?|]
  | |- wp _ (sql_upsert_where _ _ _ _ _) _ _ _ =>
      apply wp_sql_upsert_where;
      [intros ?|let d := fresh "d" in intros d ?; let E := fresh "Ed" in intros E ?
      |let d := fresh "d" in intros d ?; let E := fresh "Ed" in intros E ?|intros ??|intros ??]
  | |- wp _ (sql_insert_when _ _ _ _) _ _ _ =>
      apply wp_sql_insert_when;
      [intros ?|intros ?|let d := fresh "d" in intros d ?; let E := fresh "Ed" in intros E ?
      |intros ??]
  | |- wp _ (sql_insert_select _ _) _ _ _ =>
      apply wp_sql_insert_select;
      [intros ?|intros ?|let d := fresh "d" in intros ? d ?; let E := fresh "Ed" in intros E ?
      |intros ???]
  | |- wp _ (sql_update _ _ _) _ _ _ =>
      apply wp_sql_update; [intros ?|intro_state; intros ?|intros ?]
  | |- wp _ (sql_update_sub _ _ _) _ _ _ =>
      apply wp_sql_update_sub; [intros ?|intro_state; intros ?|intros ?]
  | |- wp _ (sql_update_returning _ _ _) _ _ _ =>
      apply wp_sql_update_returning; [intros ?|intros ?|intro_row; intros ?|intros ????]
  | |- wp _ (sql_delete _ _) _ _ _ => apply wp_sql_delete; [intros ?|intro_state]
  | |- wp _ (sql_delete_sub _ _) _ _ _ => apply wp_sql_delete_sub; [intros ?|intro_state]
  | |- wp _ (sql_delete_returning _ _) _ _ _ =>
      apply wp_sql_delete_returning; [intros ?|intros ?|intro_row]
  | |- wp _ (affected _) _ _ _ => unfold affected
  | |- wp _ (discard _) _ _ _ => unfold discard
  | |- wp _ (when ?b _) _ _ _ => unfold when; destruct b eqn:?
  | |- wp _ (if decide ?P then _ else _) _ _ _ => destruct (decide P)
  | |- wp _ (if bool_decide ?P then _ else _) _ _ _ => destruct (bool_decide_reflect P)
  | |- wp _ (if ?b then _ else _) _ _ _ => destruct b eqn:?
  | |- wp _ (match ?x with _ => _ end) _ _ _ => destruct x eqn:?
  | |- _ ∧ (_ = true → _) => split; [|intros ?]
  | |- match ?x with Some _ => _ | None => _ end => destruct x eqn:?
  | |- match ?x with Ok _ => _ | Err _ => _ end => destruct x eqn:?
  end.

Ltac wp_step := first [wp_hook | wp_core].

(** Goals a [wp F] leaves for failures that cannot happen without faults. *)
Ltac wp_go := repeat (wp_step; cbv beta iota); try discriminate.

(** ** Postconditions of whole operations *)

(** A failed operation left the tables as they were. *)
Definition atomic {A} (m : M A) : Prop :=
  ∀ w, is_ok (m w).1 = false → w_db (m w).2 = w_db w.

Lemma tx_atomic {A} (m : M A) : atomic (tx m).
Proof.
  intros w. unfold tx. destruct (fault w); [done|].
  destruct (m (advance w)) as [[a|e] w']; [|done]. destruct (fault w'); done.
Qed.

(** A postcondition about the tables before and after a run. *)
Lemma wp_post {A} (Q : res A → DB → DB → Prop) (m : M A) w :
  (∀ d h, wp true m (λ r d' _, Q r d d') d h) → Q (m w).1 (w_db w) (w_db (m w).2).
Proof. intros Hm. exact (wp_run (F:=true) (λ r d' _, Q r (w_db w) d') m w I (Hm _ _)). Qed.

Lemma wp_both {F A} (m : M A) (Q1 Q2 : res A → DB → Hub → Prop) d h :
  wp F m Q1 d h → wp F m Q2 d h → wp F m (λ r d' h', Q1 r d' h' ∧ Q2 r d' h') d h.
Proof.
  intros H1 H2 fs Hfs. specialize (H1 fs Hfs). specialize (H2 fs Hfs). destruct (m _). naive_solver.
Qed.

(** ** Reading a table after writes *)

Lemma write_eq {A B} (tbl : DB → list A) `{!Setter tbl} (p : DB → list B) t d d' l :
  d' = write tbl t d → p (write tbl t d) = l → p d' = l.
Proof. by intros ->. Qed.

(** In the goal, a table of a state defined by a write is the new rows, or the
    same table of the state before. *)
Ltac read_step :=
  match goal with
  | E : ?d' = write ?q ?t ?d |- context [?p ?d'] =>
      lazymatch type of p with DB → list _ => idtac end;
      tryif constr_eq p q
      then rewrite (write_eq q p t d d' t E) by reflexivity
      else rewrite (write_eq q p t d d' (p d) E) by reflexivity
  end.
Ltac read_tables := repeat read_step.

(** ** Table lemmas *)

Section Tables.
Context {A : Type}.
Implicit Types (t : list A).

Lemma elem_of_delete_where (P : A → Prop) `{∀ x, Decision (P x)} t r :
  r ∈ delete_where P t ↔ r ∈ t ∧ ¬ P r.
Proof. unfold delete_where. rewrite list_elem_of_filter. tauto. Qed.

Lemma elem_of_update_where (P : A → Prop) `{∀ x, Decision (P x)} f t r :
  r ∈ update_where P f t ↔ ∃ r0, r0 ∈ t ∧ r = if decide (P r0) then f r0 else r0.
Proof. unfold update_where. rewrite list_elem_of_fmap. naive_solver. Qed.

Lemma length_update_where (P : A → Prop) `{∀ x, Decision (P x)} f t :
  length (update_where P f t) = length t.
Proof. apply length_fmap. Qed.

Lemma fmap_update_where {K} (key : A → K) (P : A → Prop) `{∀ x, Decision (P x)} f t :
  (∀ r, P r → key (f r) = key r) → key <$> update_where P f t = key <$> t.
Proof.
  intros Hk. unfold update_where. rewrite <- list_fmap_compose.
  apply list_fmap_ext. intros _ r _. cbn. case_decide; auto.
Qed.

Lemma NoDup_fmap_delete_where {K} (key : A → K) (P : A → Prop) `{∀ x, Decision (P x)} t :
  NoDup (key <$> t) → NoDup (key <$> delete_where P t).
Proof.
  intros Hnd. eapply sublist_NoDup; [exact Hnd|]. unfold delete_where. clear Hnd.
  induction t as [|x t IH]; [constructor|].
  rewrite filter_cons. destruct (decide _); cbn; by constructor.
Qed.

Lemma NoDup_fmap_snoc {K} (key : A → K) t r :
  NoDup (key <$> t ++ [r]) ↔ NoDup (key <$> t) ∧ key r ∉ key <$> t.
Proof.
  rewrite fmap_app, NoDup_app. cbn. split.
  - intros (? & Hd & _). split; [done|]. intros Hin. apply (Hd _ Hin). set_solver.
  - intros [??]. split_and!; [done| |apply NoDup_singleton]. set_solver.
Qed.

Lemma count_where_0 (P : A → Prop) `{∀ x, Decision (P x)} t :
  count_where P t = 0 ↔ ∀ r, r ∈ t → ¬ P r.
Proof.
  unfold count_where. split.
  - intros Hc r Hr HP. assert (Hin : r ∈ filter P t) by (by apply list_elem_of_filter).
    destruct (filter P t); [set_solver|]. cbn in Hc. lia.
  - intros Hn. by rewrite filter_none.
Qed.

Lemma count_where_pos (P : A → Prop) `{∀ x, Decision (P x)} t :
  count_where P t ≠ 0 ↔ ∃ r, r ∈ t ∧ P r.
Proof.
  rewrite count_where_0. split.
  - intros Hn. destruct (filter P t) as [|r l] eqn:Hf.
    + exfalso. apply Hn. intros r Hr HP.
      assert (Hin : r ∈ filter P t) by (by apply list_elem_of_filter). rewrite Hf in Hin. set_solver.
    + exists r. assert (Hin : r ∈ filter P t) by (rewrite Hf; set_solver).
      apply list_elem_of_filter in Hin. naive_solver.
  - naive_solver.
Qed.

Lemma count_where_ex (P : A → Prop) `{∀ x, Decision (P x)} t n :
  count_where P t = n → n ≠ 0 → ∃ r, r ∈ t ∧ P r.
Proof. intros <-. apply count_where_pos. Qed.

Lemma count_where_ext (P Q : A → Prop) `{∀ x, Decision (P x)} `{∀ x, Decision (Q x)} t :
  (∀ r, P r ↔ Q r) → count_where P t = count_where Q t.
Proof. intros HPQ. unfold count_where. by rewrite (list_filter_iff P Q). Qed.

(** Three conditions of which every row satisfies exactly one. *)
Lemma count_where_partition (P Q R : A → Prop) `{∀ x, Decision (P x)} `{∀ x, Decision (Q x)}
    `{∀ x, Decision (R x)} t :
  (∀ r, (P r ∨ Q r ∨ R r) ∧ ¬ (P r ∧ Q r) ∧ ¬ (P r ∧ R r) ∧ ¬ (Q r ∧ R r)) →
  Z.of_nat (length t) = count_where P t + count_where Q t + count_where R t.
Proof.
  intros Hx. unfold count_where. induction t as [|r t IH]; [done|]. rewrite !filter_cons.
  specialize (Hx r). repeat case_decide; cbn [length]; try lia; exfalso; tauto.
Qed.

Lemma filter_head_elem (P : A → Prop) `{∀ x, Decision (P x)} t r l :
  filter P t = r :: l → r ∈ t ∧ P r.
Proof.
  intros Hf. assert (Hin : r ∈ filter P t) by (rewrite Hf; set_solver).
  apply list_elem_of_filter in Hin. naive_solver.
Qed.

Lemma select_one_Some (P : A → Prop) `{∀ x, Decision (P x)} t r :
  select_one P t = Some r → r ∈ t ∧ P r.
Proof.
  unfold select_one. destruct (filter P t) as [|r' l] eqn:Hf; [done|].
  intros [= ->]. by eapply filter_head_elem.
Qed.

Lemma select_one_None (P : A → Prop) `{∀ x, Decision (P x)} t :
  select_one P t = None ↔ ∀ r, r ∈ t → ¬ P r.
Proof.
  unfold select_one. split.
  - intros Hs r Hr HP. assert (Hin : r ∈ filter P t) by (by apply list_elem_of_filter).
    destruct (filter P t); [set_solver|done].
  - intros Hn. by rewrite filter_none.
Qed.

(** What one row a lookup finds after a change of the table. *)
Lemma select_one_delete (P Q : A → Prop) `{∀ x, Decision (P x)} `{∀ x, Decision (Q x)} t :
  (∀ r, Q r → ¬ P r) → select_one Q (delete_where P t) = select_one Q t.
Proof.
  intros HQP. unfold select_one, delete_where. rewrite list_filter_filter. f_equal.
  apply list_filter_iff. naive_solver.
Qed.

Lemma select_one_deleted (P Q : A → Prop) `{∀ x, Decision (P x)} `{∀ x, Decision (Q x)} t :
  (∀ r, Q r → P r) → select_one Q (delete_where P t) = None.
Proof. intros HQP. apply select_one_None. intros r [??]%elem_of_delete_where ?. eauto. Qed.

Lemma select_one_app (Q : A → Prop) `{∀ x, Decision (Q x)} t t' :
  select_one Q (t ++ t') = match select_one Q t with Some r => Some r | None => select_one Q t' end.
Proof. unfold select_one. rewrite filter_app. by destruct (filter Q t). Qed.

Lemma select_one_singleton (Q : A → Prop) `{∀ x, Decision (Q x)} r :
  select_one Q [r] = if decide (Q r) then Some r else None.
Proof. unfold select_one. rewrite filter_cons. by case_decide. Qed.

Lemma select_one_update (P Q : A → Prop) `{∀ x, Decision (P x)} `{∀ x, Decision (Q x)} f t :
  (∀ r, P r → Q (f r) ↔ Q r) →
  select_one Q (update_where P f t)
  = (λ r, if decide (P r) then f r else r) <$> select_one Q t.
Proof.
  intros Hf. unfold select_one, update_where. induction t as [|r t IH]; [done|].
  rewrite fmap_cons, !filter_cons.
  destruct (decide (P r)) as [HP|HP].
  - destruct (decide (Q (f r))), (decide (Q r)); cbn; rewrite ?decide_True by done; try done.
    all: exfalso; naive_solver.
  - destruct (decide (Q r)); cbn; [by rewrite decide_False|done].
Qed.

Lemma update_where_id (P : A → Prop) `{∀ x, Decision (P x)} t : update_where P (λ r, r) t = t.
Proof. unfold update_where. rewrite <- (list_fmap_id t) at 2. apply list_fmap_ext. intros. by case_decide. Qed.

Lemma update_where_none (P : A → Prop) `{∀ x, Decision (P x)} f t :
  (∀ r, r ∈ t → ¬ P r) → update_where P f t = t.
Proof.
  intros Hn. unfold update_where. rewrite <- (list_fmap_id t) at 2.
  apply list_fmap_ext. intros i r Hr%list_elem_of_lookup_2. rewrite decide_False; [done|auto].
Qed.

(** The row with a given key, in a table where the key is unique. *)
Lemma unique_row {K} (key : A → K) t r1 r2 :
  NoDup (key <$> t) → r1 ∈ t → r2 ∈ t → key r1 = key r2 → r1 = r2.
Proof.
  intros Hnd [i Hi]%list_elem_of_lookup_1 [j Hj]%list_elem_of_lookup_1 Hk.
  assert (i = j) as ->; [|congruence].
  eapply NoDup_lookup; [exact Hnd| |]; rewrite list_lookup_fmap; [rewrite Hi|rewrite Hj]; cbn;
    [done|by rewrite Hk].
Qed.

Lemma count_where_unique {K} (key : A → K) (P : A → Prop) `{∀ x, Decision (P x)} t r :
  NoDup (key <$> t) → r ∈ t → P r → (∀ r', P r' → key r' = key r) → count_where P t = 1.
Proof.
  intros Hnd Hr HP Hkey. unfold count_where.
  assert (Hsub : NoDup (key <$> filter P t)).
  { eapply sublist_NoDup; [exact Hnd|]. clear. induction t as [|x t IH]; [constructor|].
    rewrite filter_cons. destruct (decide _); cbn; by constructor. }
  assert (Hin : r ∈ filter P t) by (by apply list_elem_of_filter).
  assert (Hall : ∀ r', r' ∈ filter P t → key r' = key r).
  { intros r' [? _]%list_elem_of_filter. auto. }
  destruct (filter P t) as [|x [|y l]]; [set_solver|done|].
  cbn in Hsub. apply NoDup_cons in Hsub as [Hx _]. destruct Hx.
  rewrite (Hall x), <- (Hall y) by set_solver. left.
Qed.

Lemma select_one_unique {K} `{EqDecision K} (key : A → K) t r :
  NoDup (key <$> t) → r ∈ t → select_one (λ x, key x = key r) t = Some r.
Proof.
  intros Hnd Hr. destruct (select_one _ t) as [r'|] eqn:Hs.
  - apply select_one_Some in Hs as [??]. f_equal. by eapply unique_row.
  - rewrite select_one_None in Hs. by destruct (Hs r).
Qed.
End Tables.

(** ** How the rows of a table evolve

    Every row of the new table comes from a row of the old one by [step], or has
    a key the old table does not have. *)

Definition evolves {A K} (key : A → K) (step : A → A → Prop) (t t' : list A) : Prop :=
  ∀ r', r' ∈ t' → (∃ r, r ∈ t ∧ step r r') ∨ key r' ∉ key <$> t.

Section Evolves.
Context {A K : Type} (key : A → K) (step : A → A → Prop) (step_refl : ∀ r, step r r).
Implicit Types t : list A.

Lemma evolves_refl t : evolves key step t t.
Proof. intros r Hr. left. by exists r. Qed.

Lemma evolves_delete P `{∀ x, Decision (P x)} t : evolves key step t (delete_where P t).
Proof. intros r [Hr _]%elem_of_delete_where. left. by exists r. Qed.

Lemma evolves_update P `{∀ x, Decision (P x)} f t :
  (∀ r, r ∈ t → P r → step r (f r)) → evolves key step t (update_where P f t).
Proof.
  intros Hf r' (r & Hr & ->)%elem_of_update_where. left. exists r. split; [done|].
  case_decide; auto.
Qed.

Lemma evolves_insert r t : NoDup (key <$> t ++ [r]) → evolves key step t (t ++ [r]).
Proof.
  intros [_ Hr]%NoDup_fmap_snoc r' [?| ->%list_elem_of_singleton]%elem_of_app; [left|by right].
  by exists r'.
Qed.

(** The row of the new table that has the key of a row of the old one. *)
Lemma evolves_row t t' r r' :
  evolves key step t t' → NoDup (key <$> t) → (∀ a b, step a b → key a = key b) →
  r ∈ t → r' ∈ t' → key r = key r' → step r r'.
Proof.
  intros He Hnd Hkey Hr Hr' Hk. destruct (He r' Hr') as [(r0 & Hr0 & Hstep)|Hnew].
  - assert (r0 = r) as ->; [|done]. eapply unique_row; [exact Hnd|done..|].
    rewrite Hk. by apply Hkey.
  - destruct Hnew. rewrite <- Hk. by apply list_elem_of_fmap_2.
Qed.
End Evolves.

Create Rewrite HintDb tables.
#[export] Hint Rewrite @elem_of_delete_where @elem_of_update_where : tables.

(** The goal left when a constraint would refuse a statement: the constraint. *)
Ltac refute_constraint :=
  match goal with
  | Hn : ¬ ?P |- False =>
      match P with
      | context [write ?q ?t ?d] => apply Hn; clear Hn; remember (write q t d) eqn:?
      end
  end.

