(* ===== verification/Keeps.v ===== *)
(** * Programs that keep an invariant of the tables

    [keeps I m]: whatever fails, [m] run on tables that satisfy [I] leaves
    tables that satisfy [I].  The lemmas follow the program, so that the tactic
    [keep] reduces a handler to the operations that write. *)

From S2P Require Export Wp.

Section Keeps.
Context (I : DB → Prop).

Definition keeps {A} (m : M A) : Prop := ∀ d h, I d → wp true m (λ _ d' _, I d') d h.

Lemma keeps_bind {A B} (m : M A) (k : A → M B) :
  keeps m → (∀ a, keeps (k a)) → keeps (mbind k m).
Proof.
  intros Hm Hk d h Hd. apply wp_bind. eapply wp_mono; [by apply Hm|].
  intros [a|e] d' h' Hd'; [by apply Hk|done].
Qed.

(** The continuation may use what the first program promises. *)
Lemma keeps_bind_post {A B} (P : A → Prop) (m : M A) (k : A → M B) :
  (∀ d h, I d → wp true m (λ r d' _, I d' ∧ match r with Ok a => P a | Err _ => True end) d h) →
  (∀ a, P a → keeps (k a)) → keeps (mbind k m).
Proof.
  intros Hm Hk d h Hd. apply wp_bind. eapply wp_mono; [by apply Hm|].
  intros [a|e] d' h' [Hd' HP]; [by apply Hk|done].
Qed.

Lemma keeps_ret {A} (a : A) : keeps (ret a).
Proof. intros d h Hd. by apply wp_ret. Qed.

Lemma keeps_throw {A} e : keeps (throw e : M A).
Proof. intros d h Hd. by apply wp_throw. Qed.

Lemma keeps_lift {A} (r : res A) : keeps (lift r).
Proof. destruct r; [apply keeps_ret|apply keeps_throw]. Qed.

Lemma keeps_try {A} (m : M A) : keeps m → keeps (try m).
Proof. intros Hm d h Hd. apply wp_try. eapply wp_mono; [by apply Hm|]. done. Qed.

Lemma keeps_discard {A} (m : M A) : keeps m → keeps (discard m).
Proof. intros Hm. apply keeps_bind; [done|intros; apply keeps_ret]. Qed.

Lemma keeps_when b (m : M unit) : (b = true → keeps m) → keeps (when b m).
Proof. intros Hm. unfold when. destruct b; [by apply Hm|apply keeps_ret]. Qed.

Lemma keeps_query {A} (f : DB → A) : keeps (query f).
Proof. intros d h Hd. by apply wp_query. Qed.

Lemma keeps_query_row {A} (f : DB → option A) : keeps (query_row f).
Proof. intros d h Hd. apply wp_query_row; [done|]. by destruct (f d). Qed.

Lemma keeps_publish ty p now : keeps (publish ty p now).
Proof. intros d h Hd. by apply wp_publish. Qed.

Lemma keeps_for_each {A} (f : A → M unit) (l : list A) : (∀ x, x ∈ l → keeps (f x)) → keeps (for_each f l).
Proof.
  induction l as [|x l IH]; intros Hf; [apply keeps_ret|].
  apply keeps_bind; [apply Hf; left|]. intros _. apply IH. intros y Hy. apply Hf. by right.
Qed.

Lemma keeps_run {A} (m : M A) w : keeps m → I (w_db w) → I (w_db (m w).2).
Proof. intros Hm Hw. by apply (wp_run (F:=true) (λ _ d' _, I d') m w); [|apply Hm]. Qed.
End Keeps.

Create HintDb keeps discriminated.

(** One step along the program; operations of the stores are left to [keeps]. *)
Ltac keep_step :=
  lazymatch goal with
  | |- ∀ _, _ => intros ?
  | |- keeps _ (mbind _ _) => apply keeps_bind
  | |- keeps _ (ret _) => apply keeps_ret
  | |- keeps _ (mret _) => apply keeps_ret
  | |- keeps _ (throw _) => apply keeps_throw
  | |- keeps _ (lift _) => apply keeps_lift
  | |- keeps _ (try _) => apply keeps_try
  | |- keeps _ (discard _) => apply keeps_discard
  | |- keeps _ (when _ _) => apply keeps_when
  | |- keeps _ (query _) => apply keeps_query
  | |- keeps _ (query_row _) => apply keeps_query_row
  | |- keeps _ (publish _ _ _) => apply keeps_publish
  | |- keeps _ (for_each _ _) => apply keeps_for_each
  | |- keeps _ (if ?b then _ else _) => destruct b eqn:?
  | |- keeps _ (match ?x with _ => _ end) => destruct x eqn:?
  end.
Ltac keep := repeat first [solve [auto with keeps nocore] | keep_step; cbv beta iota zeta].
