(* ===== verification/Schema.v ===== *)
(** * The schema: PRIMARY KEY, UNIQUE and REFERENCES of [Store.Migrate]
    (art-api/internal/store/sqlstore/store.go)

    One predicate per table, the constraint of its CREATE TABLE statement, and
    [db_ok], their conjunction: what every statement leaves true. *)

From S2P Require Export Wp.

Definition references {A B} (fk : A → string) (pk : B → string) (t : list A) (parent : list B)
    : Prop := Forall (λ r, fk r ∈ pk <$> parent) t.

Definition users_ok (d : DB) : Prop :=
  NoDup (user_ID <$> t_users d) ∧ NoDup (user_Username <$> t_users d).
Definition sessions_ok (d : DB) : Prop :=
  NoDup (session_ID <$> t_sessions d)
  ∧ references session_UserID user_ID (t_sessions d) (t_users d).
Definition auth_challenges_ok (d : DB) : Prop :=
  NoDup (challenge_ID <$> t_auth_challenges d)
  ∧ references challenge_UserID user_ID (t_auth_challenges d) (t_users d).
Definition oidc_auth_requests_ok (d : DB) : Prop :=
  NoDup (oidcreq_State <$> t_oidc_auth_requests d)
  ∧ NoDup (oidcreq_PollCode <$> t_oidc_auth_requests d).
Definition oidc_identities_ok (d : DB) : Prop :=
  NoDup ((λ r, (oidc_Provider r, oidc_Subject r)) <$> t_oidc_identities d)
  ∧ references oidc_UserID user_ID (t_oidc_identities d) (t_users d).
Definition mfa_recovery_codes_ok (d : DB) : Prop :=
  NoDup ((λ r, (code_UserID r, code_Hash r)) <$> t_mfa_recovery_codes d)
  ∧ references code_UserID user_ID (t_mfa_recovery_codes d) (t_users d).
Definition audit_events_ok (d : DB) : Prop := NoDup (audit_ID <$> t_audit_events d).
Definition connection_records_ok (d : DB) : Prop := NoDup (conn_Key <$> t_connection_records d).
Definition login_attempts_ok (d : DB) : Prop := NoDup (attempt_ID <$> t_login_attempts d).
Definition account_lockouts_ok (d : DB) : Prop :=
  NoDup (lockout_Username <$> t_account_lockouts d).
Definition devices_ok (d : DB) : Prop := NoDup (device_RustDeskID <$> t_devices d).
Definition groups_ok (d : DB) : Prop :=
  NoDup (group_ID <$> t_groups d) ∧ NoDup ((λ g, (group_Kind g, group_Name g)) <$> t_groups d).
Definition user_group_memberships_ok (d : DB) : Prop :=
  NoDup ((λ m, (member_GroupID m, member_UserID m)) <$> t_user_group_memberships d).
Definition address_books_ok (d : DB) : Prop := NoDup (book_ID <$> t_address_books d).
Definition address_book_grants_ok (d : DB) : Prop :=
  NoDup (grant_ID <$> t_address_book_grants d)
  ∧ NoDup ((λ g, (grant_AddressBookID g, grant_SubjectType g, grant_SubjectID g))
             <$> t_address_book_grants d).
Definition address_book_entries_ok (d : DB) : Prop :=
  NoDup (entry_ID <$> t_address_book_entries d)
  ∧ NoDup ((λ e, (entry_AddressBookID e, entry_RustDeskID e)) <$> t_address_book_entries d).
Definition address_book_tags_ok (d : DB) : Prop :=
  NoDup (tag_ID <$> t_address_book_tags d)
  ∧ NoDup ((λ e, (tag_AddressBookID e, tag_Name e)) <$> t_address_book_tags d).
Definition api_tokens_ok (d : DB) : Prop :=
  NoDup (token_ID <$> t_api_tokens d) ∧ NoDup (token_TokenHash <$> t_api_tokens d).
Definition relay_servers_ok (d : DB) : Prop :=
  NoDup (relay_ID <$> t_relay_servers d)
  ∧ NoDup ((λ r, (relay_Hostname r, relay_Port r)) <$> t_relay_servers d).
Definition relay_credentials_ok (d : DB) : Prop :=
  NoDup (cred_RelayID <$> t_relay_credentials d)
  ∧ references cred_RelayID relay_ID (t_relay_credentials d) (t_relay_servers d).
Definition relay_authorizations_ok (d : DB) : Prop :=
  NoDup (auth_UUID <$> t_relay_authorizations d)
  ∧ references auth_RelayID relay_ID (t_relay_authorizations d) (t_relay_servers d).
Definition relay_event_receipts_ok (d : DB) : Prop :=
  NoDup ((λ r, (receipt_RelayID r, receipt_EventID r)) <$> t_relay_event_receipts d)
  ∧ NoDup ((λ r, (receipt_UUID r, receipt_State r)) <$> t_relay_event_receipts d)
  ∧ references receipt_RelayID relay_ID (t_relay_event_receipts d) (t_relay_servers d).
Definition relay_delivery_archive_ok (d : DB) : Prop :=
  NoDup (archive_UUID <$> t_relay_delivery_archive d)
  ∧ references archive_RelayID relay_ID (t_relay_delivery_archive d) (t_relay_servers d).
Definition relay_metrics_ok (d : DB) : Prop :=
  NoDup ((λ m, (metric_RelayID m, metric_RecordedAt m)) <$> t_relay_metrics d).
Definition webhooks_ok (d : DB) : Prop := NoDup (webhook_ID <$> t_webhooks d).
Definition webhook_deliveries_ok (d : DB) : Prop := NoDup (delivery_ID <$> t_webhook_deliveries d).
Definition notifications_ok (d : DB) : Prop := NoDup (notification_ID <$> t_notifications d).
Definition automation_rules_ok (d : DB) : Prop := NoDup (rule_ID <$> t_automation_rules d).
Definition automation_runs_ok (d : DB) : Prop :=
  NoDup (run_ID <$> t_automation_runs d)
  ∧ references run_RuleID rule_ID (t_automation_runs d) (t_automation_rules d).
Definition cluster_nodes_ok (d : DB) : Prop := NoDup (node_ID <$> t_cluster_nodes d).
Definition cluster_leases_ok (d : DB) : Prop := NoDup (lease_Name <$> t_cluster_leases d).
Definition client_profiles_ok (d : DB) : Prop :=
  NoDup (profile_ID <$> t_client_profiles d) ∧ NoDup (profile_Name <$> t_client_profiles d).
Definition client_profile_assignments_ok (d : DB) : Prop :=
  NoDup (assignment_ID <$> t_client_profile_assignments d).
Definition client_builds_ok (d : DB) : Prop := NoDup (build_ID <$> t_client_builds d).
Definition builder_workers_ok (d : DB) : Prop :=
  NoDup (worker_ID <$> t_builder_workers d)
  ∧ NoDup (worker_TokenHash <$> filter (λ w, worker_TokenHash w ≠ "") (t_builder_workers d)).
Definition runtime_settings_ok (d : DB) : Prop := NoDup (setting_Key <$> t_runtime_settings d).
Definition user_preferences_ok (d : DB) : Prop :=
  NoDup ((λ p, (pref_UserID p, pref_Key p)) <$> t_user_preferences d).
Definition acl_rules_ok (d : DB) : Prop := NoDup (acl_ID <$> t_acl_rules d).
Definition strategies_ok (d : DB) : Prop := NoDup (strategy_ID <$> t_strategies d).
Definition roles_ok (d : DB) : Prop :=
  NoDup (roledef_ID <$> t_roles d) ∧ NoDup (roledef_Name <$> t_roles d).

#[export] Instance references_dec {A B} (fk : A → string) (pk : B → string) t p :
  Decision (references fk pk t p).
Proof. apply _. Defined.

Ltac table_spec P := refine {| tbl_ok := P |}; intros d; unfold P; apply _.

#[export] Instance spec_users : TableSpec t_users.
Proof. table_spec users_ok. Defined.
#[export] Instance spec_sessions : TableSpec t_sessions.
Proof. table_spec sessions_ok. Defined.
#[export] Instance spec_auth_challenges : TableSpec t_auth_challenges.
Proof. table_spec auth_challenges_ok. Defined.
#[export] Instance spec_oidc_auth_requests : TableSpec t_oidc_auth_requests.
Proof. table_spec oidc_auth_requests_ok. Defined.
#[export] Instance spec_oidc_identities : TableSpec t_oidc_identities.
Proof. table_spec oidc_identities_ok. Defined.
#[export] Instance spec_mfa_recovery_codes : TableSpec t_mfa_recovery_codes.
Proof. table_spec mfa_recovery_codes_ok. Defined.
#[export] Instance spec_audit_events : TableSpec t_audit_events.
Proof. table_spec audit_events_ok. Defined.
#[export] Instance spec_connection_records : TableSpec t_connection_records.
Proof. table_spec connection_records_ok. Defined.
#[export] Instance spec_login_attempts : TableSpec t_login_attempts.
Proof. table_spec login_attempts_ok. Defined.
#[export] Instance spec_account_lockouts : TableSpec t_account_lockouts.
Proof. table_spec account_lockouts_ok. Defined.
#[export] Instance spec_devices : TableSpec t_devices.
Proof. table_spec devices_ok. Defined.
#[export] Instance spec_groups : TableSpec t_groups.
Proof. table_spec groups_ok. Defined.
#[export] Instance spec_user_group_memberships : TableSpec t_user_group_memberships.
Proof. table_spec user_group_memberships_ok. Defined.
#[export] Instance spec_address_books : TableSpec t_address_books.
Proof. table_spec address_books_ok. Defined.
#[export] Instance spec_address_book_grants : TableSpec t_address_book_grants.
Proof. table_spec address_book_grants_ok. Defined.
#[export] Instance spec_address_book_entries : TableSpec t_address_book_entries.
Proof. table_spec address_book_entries_ok. Defined.
#[export] Instance spec_address_book_tags : TableSpec t_address_book_tags.
Proof. table_spec address_book_tags_ok. Defined.
#[export] Instance spec_api_tokens : TableSpec t_api_tokens.
Proof. table_spec api_tokens_ok. Defined.
#[export] Instance spec_relay_servers : TableSpec t_relay_servers.
Proof. table_spec relay_servers_ok. Defined.
#[export] Instance spec_relay_credentials : TableSpec t_relay_credentials.
Proof. table_spec relay_credentials_ok. Defined.
#[export] Instance spec_relay_authorizations : TableSpec t_relay_authorizations.
Proof. table_spec relay_authorizations_ok. Defined.
#[export] Instance spec_relay_event_receipts : TableSpec t_relay_event_receipts.
Proof. table_spec relay_event_receipts_ok. Defined.
#[export] Instance spec_relay_delivery_archive : TableSpec t_relay_delivery_archive.
Proof. table_spec relay_delivery_archive_ok. Defined.
#[export] Instance spec_relay_metrics : TableSpec t_relay_metrics.
Proof. table_spec relay_metrics_ok. Defined.
#[export] Instance spec_webhooks : TableSpec t_webhooks.
Proof. table_spec webhooks_ok. Defined.
#[export] Instance spec_webhook_deliveries : TableSpec t_webhook_deliveries.
Proof. table_spec webhook_deliveries_ok. Defined.
#[export] Instance spec_notifications : TableSpec t_notifications.
Proof. table_spec notifications_ok. Defined.
#[export] Instance spec_automation_rules : TableSpec t_automation_rules.
Proof. table_spec automation_rules_ok. Defined.
#[export] Instance spec_automation_runs : TableSpec t_automation_runs.
Proof. table_spec automation_runs_ok. Defined.
#[export] Instance spec_cluster_nodes : TableSpec t_cluster_nodes.
Proof. table_spec cluster_nodes_ok. Defined.
#[export] Instance spec_cluster_leases : TableSpec t_cluster_leases.
Proof. table_spec cluster_leases_ok. Defined.
#[export] Instance spec_client_profiles : TableSpec t_client_profiles.
Proof. table_spec client_profiles_ok. Defined.
#[export] Instance spec_client_profile_assignments : TableSpec t_client_profile_assignments.
Proof. table_spec client_profile_assignments_ok. Defined.
#[export] Instance spec_client_builds : TableSpec t_client_builds.
Proof. table_spec client_builds_ok. Defined.
#[export] Instance spec_builder_workers : TableSpec t_builder_workers.
Proof. table_spec builder_workers_ok. Defined.
#[export] Instance spec_runtime_settings : TableSpec t_runtime_settings.
Proof. table_spec runtime_settings_ok. Defined.
#[export] Instance spec_user_preferences : TableSpec t_user_preferences.
Proof. table_spec user_preferences_ok. Defined.
#[export] Instance spec_acl_rules : TableSpec t_acl_rules.
Proof. table_spec acl_rules_ok. Defined.
#[export] Instance spec_strategies : TableSpec t_strategies.
Proof. table_spec strategies_ok. Defined.
#[export] Instance spec_roles : TableSpec t_roles.
Proof. table_spec roles_ok. Defined.

(** Lemmas that carry a constraint over a change of one table. *)

Lemma references_delete {A B} (fk : A → string) (pk : B → string) (P : A → Prop)
    `{∀ x, Decision (P x)} t p :
  references fk pk t p → references fk pk (delete_where P t) p.
Proof.
  unfold references. rewrite !Forall_forall. intros Hr x [Hx _]%elem_of_delete_where. by apply Hr.
Qed.

Lemma references_keys {A B} (fk : A → string) (pk : B → string) t p p' :
  (pk <$> p) = (pk <$> p') → references fk pk t p → references fk pk t p'.
Proof. unfold references. by intros ->. Qed.

Lemma references_grow {A B} (fk : A → string) (pk : B → string) t p p' :
  references fk pk t p → references fk pk t (p ++ p').
Proof.
  unfold references. intros Hr. eapply Forall_impl; [exact Hr|]. intros x.
  rewrite fmap_app, elem_of_app. by left.
Qed.

(** Rows that stop referencing a key let their parent go. *)
Lemma references_delete_parent {A B} (fk : A → string) (pk : B → string) (P : B → Prop)
    `{∀ x, Decision (P x)} t p :
  references fk pk t p →
  (∀ r b, r ∈ t → b ∈ p → P b → fk r ≠ pk b) →
  references fk pk t (delete_where P p).
Proof.
  unfold references. rewrite !Forall_forall. intros Hr Hn x Hx.
  destruct (list_elem_of_fmap_1 _ _ _ (Hr x Hx)) as (b & Heq & Hb).
  rewrite Heq. apply list_elem_of_fmap_2, elem_of_delete_where. split; [done|].
  intros HP. by destruct (Hn x b Hx Hb HP).
Qed.

Lemma references_update {A B} (fk : A → string) (pk : B → string) (P : A → Prop)
    `{∀ x, Decision (P x)} f t p :
  (∀ r, fk (f r) = fk r) → references fk pk t p → references fk pk (update_where P f t) p.
Proof.
  intros Hf. unfold references. rewrite !Forall_forall.
  intros Hr x (r & Hr' & ->)%elem_of_update_where. case_decide; rewrite ?Hf; auto.
Qed.

Lemma references_update_parent {A B} (fk : A → string) (pk : B → string) (P : B → Prop)
    `{∀ x, Decision (P x)} f t p :
  (∀ b, pk (f b) = pk b) → references fk pk t p → references fk pk t (update_where P f p).
Proof.
  intros Hf. apply references_keys. symmetry. by apply fmap_update_where.
Qed.

Lemma NoDup_fmap_update_where {A K} (key : A → K) (P : A → Prop) `{∀ x, Decision (P x)} f t :
  (∀ r, key (f r) = key r) → NoDup (key <$> t) → NoDup (key <$> update_where P f t).
Proof. intros Hf. by rewrite fmap_update_where. Qed.

(** A key and the rows that reference it deleted together. *)
Lemma references_delete_both {A B} (fk : A → string) (pk : B → string) id t p :
  references fk pk t p →
  references fk pk (delete_where (λ r, fk r = id) t) (delete_where (λ b, pk b = id) p).
Proof.
  intros Hr. apply references_delete_parent; [by apply references_delete|].
  intros r b [_ Hne]%elem_of_delete_where _ Hb Heq. congruence.
Qed.

Create HintDb schema discriminated.
#[export] Hint Resolve references_delete references_delete_both references_grow NoDup_fmap_delete_where : schema.
#[export] Hint Extern 2 (references _ _ (update_where _ _ _) _) =>
  apply references_update; [intros; reflexivity|] : schema.
#[export] Hint Extern 2 (references _ _ _ (update_where _ _ _)) =>
  apply references_update_parent; [intros; reflexivity|] : schema.
#[export] Hint Extern 2 (NoDup (_ <$> update_where _ _ _)) =>
  apply NoDup_fmap_update_where; [intros; reflexivity|] : schema.
#[export] Hint Extern 1 (_ ∧ _) => split : schema.

(** Prove constraints of a state from those of the state it was written from:
    [unfold_ok] names the predicates of the goal. *)
Ltac schema_auto unfold_ok :=
  try lazymatch goal with |- tbl_ok _ _ => cbv [tbl_ok]; hnf end;
  repeat match goal with
         | Hok : tbl_ok _ _ |- _ => cbv [tbl_ok] in Hok; hnf in Hok; revert Hok
         end;
  unfold_ok; read_tables; intros; destruct_and?; split_and?; eauto with schema nocore.
