(* ===== verification/StoreUsers.v ===== *)
(** * Users, roles, groups and memberships: [sqlstore.Store]
    (art-api/internal/store/sqlstore/store.go)

    Each method of the store that reads or writes these tables, statement by
    statement, and the properties of the account life cycle. *)

From S2P Require Export Schema.

(** [millis], [fromMillis] *)
Definition millis (t : time) : Z := UnixMilli t.
Definition fromMillis (ms : Z) : time := fromUnixMilli ms.

(** Permissions are no column: a scanned user has none. *)
Definition scanUser (r : User) : User :=
  r <| user_Permissions := [] |>
    <| user_CreatedAt := fromMillis (user_CreatedAt r) |>
    <| user_UpdatedAt := fromMillis (user_UpdatedAt r) |>
    <| user_LastLoginAt := fromMillis <$> user_LastLoginAt r |>
    <| user_ForceReloginAt := fromMillis <$> user_ForceReloginAt r |>.

Definition scanRole (r : RoleDefinition) : RoleDefinition :=
  r <| roledef_CreatedAt := fromMillis (roledef_CreatedAt r) |>
    <| roledef_UpdatedAt := fromMillis (roledef_UpdatedAt r) |>.

Definition scanGroup (g : Group) : Group :=
  g <| group_CreatedAt := fromMillis (group_CreatedAt g) |>
    <| group_UpdatedAt := fromMillis (group_UpdatedAt g) |>.

Section Store.
Context `{Unicode}.

(** ** Users *)

Definition CountUsers : M Z := query (λ d, Z.of_nat (length (t_users d))).

(** The row of INSERT INTO users: the columns not listed get their defaults. *)
Definition user_row (user : User) (status : string) : User := {|
  user_ID := user_ID user;
  user_Username := ToLower (user_Username user);
  user_Email := user_Email user;
  user_Phone := "";
  user_PasswordHash := user_PasswordHash user;
  user_DisplayName := user_DisplayName user;
  user_Role := user_Role user;
  user_Permissions := [];
  user_Enabled := user_Enabled user;
  user_ApprovalStatus := status;
  user_TokenVersion := user_TokenVersion user;
  user_CreatedAt := millis (user_CreatedAt user);
  user_UpdatedAt := millis (user_UpdatedAt user);
  user_LastLoginAt := None;
  user_ForceReloginAt := None;
  user_TOTPSecret := "";
  user_TOTPEnabled := false
|}.

Definition CreateUser (user : User) : M unit :=
  let status := if bool_decide (user_ApprovalStatus user = "") then ApprovalApproved
                else user_ApprovalStatus user in
  tx (sql_insert t_users (user_row user status);;
      when (bool_decide (status = ApprovalApproved))
        (sql_insert t_user_group_memberships
           (mkMembership ApprovedUsersGroupID (user_ID user) (millis (user_CreatedAt user))))).

Definition CreateRegisteredUser (user : User) : M unit :=
  tx (sql_insert t_users (user_row user ApprovalPending);;
      sql_insert t_user_group_memberships
        (mkMembership PendingUsersGroupID (user_ID user) (millis (user_CreatedAt user)))).

Definition ListUsers : M (list User) :=
  query (λ d, scanUser <$> SliceStable (λ a b, str_lt (user_Username a) (user_Username b))
                             (t_users d)).

Definition FindUserByUsername (username : string) : M User :=
  query_row (λ d, scanUser <$> select_one (λ u, user_Username u = ToLower username) (t_users d)).

Definition FindUserByID (id : string) : M User :=
  query_row (λ d, scanUser <$> select_one (λ u, user_ID u = id) (t_users d)).

Definition update_user (id : string) (f : User → User) : M User :=
  u ← sql_update_returning t_users (λ u, user_ID u = id) f;
  ret (scanUser u).

Definition bump_token (u : User) : User := u <| user_TokenVersion := user_TokenVersion u + 1 |>.

Definition SetUserEnabled (id : string) (enabled : bool) (now : time) : M User :=
  update_user id (λ u, bump_token (u <| user_Enabled := enabled |>)
                         <| user_UpdatedAt := millis now |>).

Definition system_groups : list string := [PendingUsersGroupID; ApprovedUsersGroupID].

Definition SetUserApproval (id status : string) (now : time) : M User :=
  tx (user ← update_user id (λ u, u <| user_ApprovalStatus := status |>
                                    <| user_UpdatedAt := millis now |>);
      sql_delete t_user_group_memberships
        (λ m, member_UserID m = id ∧ member_GroupID m ∈ system_groups);;
      let groupID := if bool_decide (status = ApprovalPending) then PendingUsersGroupID
                     else if bool_decide (status = ApprovalApproved) then ApprovedUsersGroupID
                     else "" in
      when (negb (bool_decide (groupID = "")))
        (sql_insert t_user_group_memberships (mkMembership groupID id (millis now)));;
      ret user).

Definition ForceRelogin (id : string) (now : time) : M User :=
  update_user id (λ u, bump_token u <| user_ForceReloginAt := Some (millis now) |>
                                    <| user_UpdatedAt := millis now |>).

Definition UpdateUserPassword (id passwordHash : string) (now : time) : M User :=
  update_user id (λ u, bump_token (u <| user_PasswordHash := passwordHash |>)
                         <| user_ForceReloginAt := Some (millis now) |>
                         <| user_UpdatedAt := millis now |>).

Definition count_admins (d : DB) : Z := count_where (λ u, user_Role u = RoleAdmin) (t_users d).

(** The SET list of [UpdateUser]; [password_hash] only when one is given. *)
Definition apply_update (input : UserUpdate) (now : time) (u : User) : User :=
  bump_token (u <| user_Username := ToLower (update_Username input) |>
                <| user_Email := update_Email input |>
                <| user_Phone := update_Phone input |>
                <| user_DisplayName := update_DisplayName input |>
                <| user_Role := update_Role input |>
                <| user_Enabled := update_Enabled input |>)
    <| user_ForceReloginAt := Some (millis now) |>
    <| user_UpdatedAt := millis now |>
    <| user_PasswordHash := if bool_decide (update_PasswordHash input = "") then user_PasswordHash u
                            else update_PasswordHash input |>.

(** One iteration of the loop over [input.GroupIDs]. *)
Definition join_group (id : string) (now : time) (groupID : string) : M unit :=
  kind ← try (query_row (λ d, group_Kind <$> select_one (λ g, group_ID g = groupID) (t_groups d)));
  match kind with
  | Ok k =>
      if bool_decide (k = GroupKindUser) then
        if bool_decide (groupID ∈ system_groups) then ret tt
        else discard (sql_insert_ignore t_user_group_memberships
                        (λ m, member_GroupID m = groupID ∧ member_UserID m = id)
                        (mkMembership groupID id (millis now)))
      else throw ErrNotFound
  | Err _ => throw ErrNotFound
  end.

Definition revoke_sessions_of (id : string) (at_ : time) : M Z :=
  sql_update t_sessions (λ s, session_UserID s = id ∧ session_RevokedAt s = None)
    (λ s, s <| session_RevokedAt := Some (millis at_) |>).

Definition UpdateUser (id : string) (input : UserUpdate) (now : time) : M User :=
  tx (currentRole ← query_row (λ d, user_Role <$> select_one (λ u, user_ID u = id) (t_users d));
      (if bool_decide (currentRole = RoleAdmin) && negb (bool_decide (update_Role input = RoleAdmin))
       then count ← query count_admins; if count <=? 1 then throw ErrLastAdmin else ret tt
       else ret tt);;
      user ← update_user id (apply_update input now);
      sql_delete t_user_group_memberships
        (λ m, member_UserID m = id ∧ member_GroupID m ∉ system_groups);;
      for_each (join_group id now) (update_GroupIDs input);;
      revoke_sessions_of id now;;
      ret user).

(** DELETE FROM users: refused while a row of another table references the user. *)
Definition no_user_orphans (d : DB) : Prop :=
  references session_UserID user_ID (t_sessions d) (t_users d)
  ∧ references challenge_UserID user_ID (t_auth_challenges d) (t_users d)
  ∧ references oidc_UserID user_ID (t_oidc_identities d) (t_users d)
  ∧ references code_UserID user_ID (t_mfa_recovery_codes d) (t_users d).

Definition sql_delete_user (id : string) : M Z :=
  exec (λ d, let d' := write t_users (delete_where (λ u, user_ID u = id) (t_users d)) d in
             if decide (no_user_orphans d')
             then Ok (count_where (λ u, user_ID u = id) (t_users d), d')
             else Err ErrConstraint).

Definition books_owned (d : DB) (id : string) : list string :=
  book_ID <$> filter (λ b, book_OwnerUserID b = id) (t_address_books d).

Definition DeleteUser (id : string) : M unit :=
  tx (role ← query_row (λ d, user_Role <$> select_one (λ u, user_ID u = id) (t_users d));
      (if bool_decide (role = RoleAdmin)
       then count ← query count_admins; if count <=? 1 then throw ErrLastAdmin else ret tt
       else ret tt);;
      sql_delete t_sessions (λ s, session_UserID s = id);;
      sql_delete t_auth_challenges (λ c, challenge_UserID c = id);;
      sql_delete t_oidc_identities (λ o, oidc_UserID o = id);;
      sql_delete t_mfa_recovery_codes (λ c, code_UserID c = id);;
      sql_delete t_user_group_memberships (λ m, member_UserID m = id);;
      sql_delete t_address_book_grants (λ g, grant_SubjectType g = "user" ∧ grant_SubjectID g = id);;
      sql_delete t_acl_rules (λ r, acl_SubjectType r = "user" ∧ acl_SubjectID r = id);;
      sql_delete t_strategies (λ s, strategy_ScopeType s = "user" ∧ strategy_ScopeID s = id);;
      sql_delete_sub t_address_book_entries (λ d e, entry_AddressBookID e ∈ books_owned d id);;
      sql_delete_sub t_address_book_tags (λ d t, tag_AddressBookID t ∈ books_owned d id);;
      sql_delete_sub t_address_book_grants (λ d g, grant_AddressBookID g ∈ books_owned d id);;
      sql_delete t_address_books (λ b, book_OwnerUserID b = id);;
      sql_update t_devices (λ v, device_OwnerUserID v = id) (λ v, v <| device_OwnerUserID := "" |>);;
      sql_update t_oidc_auth_requests (λ r, oidcreq_UserID r = id ∨ oidcreq_LinkUserID r = id)
        (λ r, r <| oidcreq_UserID := "" |> <| oidcreq_LinkUserID := "" |>);;
      count ← sql_delete_user id;
      if bool_decide (count = 0) then throw ErrNotFound else ret tt).

Definition SetUserTOTP (id encryptedSecret : string) (enabled : bool) (now : time) : M User :=
  update_user id (λ u, u <| user_TOTPSecret := encryptedSecret |>
                         <| user_TOTPEnabled := enabled |>
                         <| user_TokenVersion := user_TokenVersion u
                              + (if bool_decide (user_TOTPEnabled u = enabled) then 0 else 1) |>
                         <| user_UpdatedAt := millis now |>).

Definition UpdateLastLogin (id : string) (at_ : time) : M unit :=
  discard (sql_update t_users (λ u, user_ID u = id)
             (λ u, u <| user_LastLoginAt := Some (millis at_) |>
                     <| user_UpdatedAt := millis at_ |>)).

(** ** Roles *)

Definition CreateRole (role : RoleDefinition) : M unit :=
  sql_insert t_roles (role <| roledef_CreatedAt := millis (roledef_CreatedAt role) |>
                           <| roledef_UpdatedAt := millis (roledef_UpdatedAt role) |>).

(** ORDER BY system DESC, name *)
Definition ListRoles : M (list RoleDefinition) :=
  query (λ d, scanRole <$> SliceStable
    (then_by (λ a b, roledef_System a && negb (roledef_System b))
             (λ a b, str_lt (roledef_Name a) (roledef_Name b))) (t_roles d)).

Definition FindRoleByID (id : string) : M RoleDefinition :=
  query_row (λ d, scanRole <$> select_one (λ r, roledef_ID r = id) (t_roles d)).

Definition UpdateRole (role : RoleDefinition) : M unit :=
  affected (sql_update t_roles (λ r, roledef_ID r = roledef_ID role ∧ roledef_System r = false)
    (λ r, r <| roledef_Name := roledef_Name role |>
            <| roledef_Description := roledef_Description role |>
            <| roledef_Permissions := roledef_Permissions role |>
            <| roledef_UpdatedAt := millis (roledef_UpdatedAt role) |>)).

Definition DeleteRole (id : string) : M unit :=
  tx (system ← query_row (λ d, roledef_System <$> select_one (λ r, roledef_ID r = id) (t_roles d));
      (if (system : bool) then throw (ErrText "system role cannot be deleted") else ret tt);;
      sql_update t_users (λ u, user_Role u = id) (λ u, bump_token (u <| user_Role := RoleUser |>));;
      discard (sql_delete t_roles (λ r, roledef_ID r = id))).

(** ** Groups and memberships *)

Definition CreateGroup (group : Group) : M unit :=
  sql_insert t_groups (group <| group_CreatedAt := millis (group_CreatedAt group) |>
                             <| group_UpdatedAt := millis (group_UpdatedAt group) |>).

Definition ListGroups : M (list Group) :=
  query (λ d, scanGroup <$> SliceStable
    (then_by (λ a b, str_lt (group_Kind a) (group_Kind b))
             (λ a b, str_lt (group_Name a) (group_Name b))) (t_groups d)).

Definition FindGroupByID (id : string) : M Group :=
  query_row (λ d, scanGroup <$> select_one (λ g, group_ID g = id) (t_groups d)).

Definition UpdateGroup (group : Group) : M unit :=
  affected (sql_update t_groups (λ g, group_ID g = group_ID group ∧ group_Kind g = group_Kind group)
    (λ g, g <| group_Name := group_Name group |>
            <| group_Description := group_Description group |>
            <| group_UpdatedAt := millis (group_UpdatedAt group) |>)).

Definition DeleteGroup (id : string) : M unit :=
  tx (query_row (λ d, select_one (λ g, group_ID g = id) (t_groups d));;
      sql_delete t_user_group_memberships (λ m, member_GroupID m = id);;
      sql_delete t_address_book_grants
        (λ g, grant_SubjectType g = "user_group" ∧ grant_SubjectID g = id);;
      sql_delete t_acl_rules
        (λ r, (acl_SubjectType r = "user_group" ∧ acl_SubjectID r = id)
              ∨ (acl_TargetType r = "device_group" ∧ acl_TargetID r = id));;
      sql_delete t_strategies
        (λ s, (strategy_ScopeType s = "user_group" ∨ strategy_ScopeType s = "device_group")
              ∧ strategy_ScopeID s = id);;
      sql_update t_devices (λ v, device_GroupID v = id) (λ v, v <| device_GroupID := "" |>);;
      discard (sql_delete t_groups (λ g, group_ID g = id))).

Definition SetUserGroupMember (groupID userID : string) (active : bool) (now : time) : M unit :=
  if active
  then discard (sql_insert_ignore t_user_group_memberships
                  (λ m, member_GroupID m = groupID ∧ member_UserID m = userID)
                  (mkMembership groupID userID (millis now)))
  else discard (sql_delete t_user_group_memberships
                  (λ m, member_GroupID m = groupID ∧ member_UserID m = userID)).

Definition ListUserGroupMemberships : M (list UserGroupMembership) :=
  query (λ d, (λ m, mkUserGroupMembership (member_GroupID m) (member_UserID m) true) <$>
    SliceStable (then_by (λ a b, str_lt (member_GroupID a) (member_GroupID b))
                         (λ a b, str_lt (member_UserID a) (member_UserID b)))
                (t_user_group_memberships d)).

End Store.

(** ** The rows [Migrate] creates when they are absent *)

Definition seed_group (id name description : string) (now : time) : M unit :=
  discard (sql_insert_ignore t_groups (λ g, group_ID g = id)
             (mkGroup id name description GroupKindUser (millis now) (millis now))).

Definition seed_role (id name description : string) (permissions : list string) (now : time)
    : M unit :=
  discard (sql_insert_ignore t_roles (λ r, roledef_ID r = id)
             (mkRoleDefinition id name description permissions true (millis now) (millis now))).

(** INSERT INTO user_group_memberships SELECT ... FROM users WHERE approval_status=? ON
    CONFLICT DO NOTHING *)
Definition seed_approved (now : time) : M unit :=
  exec (λ d,
    let missing := filter (λ u, user_ApprovalStatus u = ApprovalApproved ∧
                      ¬ Exists (λ m, member_GroupID m = ApprovedUsersGroupID
                                     ∧ member_UserID m = user_ID u) (t_user_group_memberships d))
                      (t_users d) in
    checked t_user_group_memberships tt
      (d <| t_user_group_memberships :=
              t_user_group_memberships d
              ++ ((λ u, mkMembership ApprovedUsersGroupID (user_ID u) (millis now)) <$> missing) |>)).

Definition MigrateRows (now : time) : M unit :=
  seed_group PendingUsersGroupID "Новые пользователи" "Ожидают одобрения администратора" now;;
  seed_group ApprovedUsersGroupID "Авторизованные пользователи" "Регистрация одобрена администратором"
    now;;
  seed_approved now;;
  seed_role RoleAdmin "Администратор" "Полный доступ ко всем функциям" [PermissionAll] now;;
  seed_role RoleUser "Пользователь" "Доступ к клиенту и личному кабинету" [] now.
