(* ===== verification/Accounts.v ===== *)
(** * Properties of the account store

    The operations of [StoreUsers] as one step type, the invariants all
    sequences of them keep under any pattern of statement failures, and the
    effect of the operations that remove or restrict accounts. *)

From S2P Require Export StoreUsers.

Section Accounts.
Context `{Unicode}.

(** ** Account operations as steps *)

Inductive account_op :=
| OpCreateUser (u : User)
| OpCreateRegisteredUser (u : User)
| OpSetUserEnabled (id : string) (enabled : bool) (now : time)
| OpSetUserApproval (id status : string) (now : time)
| OpForceRelogin (id : string) (now : time)
| OpUpdateUserPassword (id hash : string) (now : time)
| OpUpdateUser (id : string) (input : UserUpdate) (now : time)
| OpDeleteUser (id : string)
| OpSetUserTOTP (id secret : string) (enabled : bool) (now : time)
| OpUpdateLastLogin (id : string) (at_ : time)
| OpCreateRole (r : RoleDefinition)
| OpUpdateRole (r : RoleDefinition)
| OpDeleteRole (id : string)
| OpCreateGroup (g : Group)
| OpUpdateGroup (g : Group)
| OpDeleteGroup (id : string)
| OpSetUserGroupMember (groupID userID : string) (active : bool) (now : time).

Definition run_account_op (op : account_op) : M unit :=
  match op with
  | OpCreateUser u => CreateUser u
  | OpCreateRegisteredUser u => CreateRegisteredUser u
  | OpSetUserEnabled id e now => discard (SetUserEnabled id e now)
  | OpSetUserApproval id s now => discard (SetUserApproval id s now)
  | OpForceRelogin id now => discard (ForceRelogin id now)
  | OpUpdateUserPassword id p now => discard (UpdateUserPassword id p now)
  | OpUpdateUser id i now => discard (UpdateUser id i now)
  | OpDeleteUser id => DeleteUser id
  | OpSetUserTOTP id s e now => discard (SetUserTOTP id s e now)
  | OpUpdateLastLogin id now => UpdateLastLogin id now
  | OpCreateRole r => CreateRole r
  | OpUpdateRole r => UpdateRole r
  | OpDeleteRole id => DeleteRole id
  | OpCreateGroup g => CreateGroup g
  | OpUpdateGroup g => UpdateGroup g
  | OpDeleteGroup id => DeleteGroup id
  | OpSetUserGroupMember g u a now => SetUserGroupMember g u a now
  end.

(** A history: operations one after the other, whatever each of them returns. *)
Definition run_account_ops (ops : list account_op) (w : world) : world :=
  foldl (λ w op, snd (run_account_op op w)) w ops.

Lemma run_account_ops_inv (I : DB → Prop) ops w :
  (∀ op d h, I d → wp true (run_account_op op) (λ _ d' _, I d') d h) →
  I (w_db w) → I (w_db (run_account_ops ops w)).
Proof.
  intros Hop. revert w. induction ops as [|op ops IH]; intros w HI; cbn; [done|].
  apply IH. apply (wp_run (F:=true) (λ _ d' _, I d') (run_account_op op) w); [done|by apply Hop].
Qed.

(** ** Rules *)

Lemma wp_sql_delete_user {F} (Q : res Z → DB → Hub → Prop) id d h :
  let t' := delete_where (λ u, user_ID u = id) (t_users d) in
  (F = true → Q (Err ErrDriver) d h) →
  (∀ d', d' = write t_users t' d → no_user_orphans d' →
         Q (Ok (count_where (λ u, user_ID u = id) (t_users d))) d' h) →
  (¬ no_user_orphans (write t_users t' d) → Q (Err ErrConstraint) d h) →
  wp F (sql_delete_user id) Q d h.
Proof. intros t' ? Hok Herr. apply wp_exec; [done|]. cbv zeta. case_decide; eauto. Qed.

(** The loop of [UpdateUser] writes memberships and nothing else. *)
Lemma wp_join_groups {F} id now gs d h :
  wp F (for_each (join_group id now) gs)
     (λ _ d' _, ∃ t, d' = write t_user_group_memberships t d
                     ∧ (user_group_memberships_ok d → user_group_memberships_ok d')) d h.
Proof.
  apply (wp_for_each (λ d', ∃ t, d' = write t_user_group_memberships t d
                     ∧ (user_group_memberships_ok d → user_group_memberships_ok d'))).
  { exists (t_user_group_memberships d). by destruct d. }
  intros g d1 h1 _ (t & Ht & Hok). unfold join_group. wp_go; try (by eexists).
  subst. by eexists.
Qed.
End Accounts.

Ltac wp_hook ::=
  lazymatch goal with
  | |- wp _ (sql_delete_user _) _ _ _ =>
      apply wp_sql_delete_user; [intros ?|intro_state; intros ?|intros ?]
  | |- wp _ (for_each (join_group _ _) _) _ _ _ =>
      eapply wp_mono; [apply wp_join_groups|];
      let d := fresh "d" in let E := fresh "Ed" in intros ? d ? (? & E & ?)
  | |- wp _ (update_user _ _) _ _ _ => unfold update_user
  | |- wp _ (revoke_sessions_of _ _) _ _ _ => unfold revoke_sessions_of
  end.

(** The constraints of the tables the account operations touch. *)
Definition accounts_ok (d : DB) : Prop :=
  (users_ok d ∧ sessions_ok d ∧ auth_challenges_ok d ∧ oidc_identities_ok d
   ∧ mfa_recovery_codes_ok d)
  ∧ (groups_ok d ∧ user_group_memberships_ok d ∧ roles_ok d ∧ devices_ok d
     ∧ oidc_auth_requests_ok d ∧ address_books_ok d)
  ∧ (address_book_grants_ok d ∧ address_book_entries_ok d ∧ address_book_tags_ok d
     ∧ acl_rules_ok d ∧ strategies_ok d).

Ltac unfold_accounts_ok :=
  unfold accounts_ok, users_ok, sessions_ok, auth_challenges_ok, oidc_identities_ok,
    mfa_recovery_codes_ok, groups_ok, user_group_memberships_ok, roles_ok, devices_ok,
    oidc_auth_requests_ok, address_books_ok, address_book_grants_ok, address_book_entries_ok,
    address_book_tags_ok, acl_rules_ok, strategies_ok, no_user_orphans in *.

Section Invariants.
Context `{Unicode}.

(** ** Token versions *)

(** The fields whose change must invalidate the tokens issued before. *)
Definition sensitive (u : User) : string * string * bool * bool :=
  (user_PasswordHash u, user_Role u, user_Enabled u, user_TOTPEnabled u).

Definition token_step (u u' : User) : Prop :=
  user_ID u = user_ID u' ∧ user_TokenVersion u ≤ user_TokenVersion u'
  ∧ (sensitive u ≠ sensitive u' → user_TokenVersion u < user_TokenVersion u').

Definition token_mono (d d' : DB) : Prop := evolves user_ID token_step (t_users d) (t_users d').

Lemma token_step_refl u : token_step u u.
Proof. split_and!; [done|lia|done]. Qed.

Lemma token_step_bump u u' :
  user_ID u' = user_ID u → user_TokenVersion u < user_TokenVersion u' → token_step u u'.
Proof. intros. split_and!; [done|lia|lia]. Qed.

Lemma token_step_keep u u' :
  user_ID u' = user_ID u → user_TokenVersion u' = user_TokenVersion u →
  sensitive u' = sensitive u → token_step u u'.
Proof. intros. split_and!; [done|lia|congruence]. Qed.

Lemma token_step_totp u secret enabled now :
  token_step u (u <| user_TOTPSecret := secret |>
                  <| user_TOTPEnabled := enabled |>
                  <| user_TokenVersion := user_TokenVersion u
                       + (if bool_decide (user_TOTPEnabled u = enabled) then 0 else 1) |>
                  <| user_UpdatedAt := now |>).
Proof.
  unfold token_step, sensitive. cbn. case_bool_decide; split_and!; try done; try lia.
  intros Hne. destruct Hne. by subst.
Qed.

Lemma token_mono_insert d d' d0 r :
  t_users d' = t_users d0 → users_ok d0 → t_users d0 = t_users d ++ [r] → token_mono d d'.
Proof.
  unfold token_mono. intros -> [Hok _] Heq. rewrite Heq in *.
  apply evolves_insert; [exact token_step_refl|done].
Qed.

Ltac token_leaf :=
  first
    [ match goal with Hok : tbl_ok t_users ?d0 |- _ =>
        eapply (token_mono_insert _ _ d0); [by read_tables|exact Hok|by read_tables]
      end
    | unfold token_mono; read_tables;
      first
        [ apply evolves_refl; exact token_step_refl
        | apply evolves_delete; exact token_step_refl
        | apply evolves_update;
          [ exact token_step_refl
          | intros u _ _; first [ by apply token_step_keep
                                | apply token_step_bump; [done|cbn; lia]
                                | apply token_step_totp ] ] ] ].

Lemma account_op_token_mono op d h :
  wp true (run_account_op op) (λ _ d' _, token_mono d d') d h.
Proof.
  destruct op; cbn [run_account_op];
    unfold CreateUser, CreateRegisteredUser, SetUserEnabled, SetUserApproval, ForceRelogin,
      UpdateUserPassword, UpdateUser, DeleteUser, UpdateLastLogin, SetUserTOTP,
      CreateRole, UpdateRole, DeleteRole, CreateGroup, UpdateGroup, DeleteGroup, SetUserGroupMember;
    wp_go; token_leaf.
Qed.

(** ** Constraints *)

(** What the schema promises of the tables these operations write. *)
Lemma account_op_ok op d h :
  accounts_ok d → wp true (run_account_op op) (λ _ d' _, accounts_ok d') d h.
Proof.
  intros Hok. destruct op; cbn [run_account_op];
    unfold CreateUser, CreateRegisteredUser, SetUserEnabled, SetUserApproval, ForceRelogin,
      UpdateUserPassword, UpdateUser, DeleteUser, UpdateLastLogin, SetUserTOTP,
      CreateRole, UpdateRole, DeleteRole, CreateGroup, UpdateGroup, DeleteGroup, SetUserGroupMember.
  all: wp_go; try assumption.
  all: repeat match goal with
              | Hn : no_user_orphans _ |- _ => revert Hn
              | Hn : user_group_memberships_ok _ → user_group_memberships_ok _ |- _ => revert Hn
              end; revert Hok; schema_auto unfold_accounts_ok.
Qed.

(** ** The last administrator *)

Definition has_admin (d : DB) : Prop := ∃ u, u ∈ t_users d ∧ user_Role u = RoleAdmin.
Definition admin_role (d : DB) : Prop :=
  ∃ r, r ∈ t_roles d ∧ roledef_ID r = RoleAdmin ∧ roledef_System r = true.

Definition admin_inv (d : DB) : Prop := users_ok d ∧ roles_ok d ∧ has_admin d ∧ admin_role d.

(** Two rows that satisfy a condition, in a table with unique keys, leave one
    whose key is not the given one. *)
Lemma count_where_other {A K} `{EqDecision K} (key : A → K) (P : A → Prop) `{∀ x, Decision (P x)}
    t k :
  NoDup (key <$> t) → 1 < count_where P t → ∃ r, r ∈ t ∧ P r ∧ key r ≠ k.
Proof.
  unfold count_where. intros Hnd Hc.
  destruct (filter P t) as [|r1 [|r2 l]] eqn:Hf; cbn in Hc; [lia|lia|].
  assert (H1 : r1 ∈ filter P t) by (rewrite Hf; set_solver).
  assert (H2 : r2 ∈ filter P t) by (rewrite Hf; set_solver).
  apply list_elem_of_filter in H1 as [??], H2 as [??].
  destruct (decide (key r1 = k)) as [Hk|]; [|by exists r1].
  exists r2. split_and!; [done..|]. intros Hk'.
  assert (Hsub : NoDup (key <$> filter P t)).
  { eapply sublist_NoDup; [exact Hnd|]. clear. induction t as [|x t IH]; [constructor|].
    rewrite filter_cons. destruct (decide _); cbn; by constructor. }
  rewrite Hf in Hsub. cbn in Hsub. apply NoDup_cons in Hsub as [Hin _]. set_solver.
Qed.

(** An update or a deletion keyed by [id] keeps the other administrators. *)
Lemma has_admin_update d d' P `{∀ x : User, Decision (P x)} f :
  t_users d' = update_where P f (t_users d) →
  (∀ u, u ∈ t_users d → user_Role u = RoleAdmin → P u → user_Role (f u) = RoleAdmin) →
  has_admin d → has_admin d'.
Proof.
  intros Heq Hf (u & Hu & Ha). exists (if decide (P u) then f u else u). rewrite Heq. split.
  - apply elem_of_update_where. eauto.
  - case_decide; auto.
Qed.

Lemma has_admin_other d d' id f (u : User) :
  t_users d' = update_where (λ u, user_ID u = id) f (t_users d)
  ∨ t_users d' = delete_where (λ u, user_ID u = id) (t_users d) →
  u ∈ t_users d → user_Role u = RoleAdmin → user_ID u ≠ id → has_admin d'.
Proof.
  intros [Heq|Heq] Hu Ha Hid; exists u; rewrite Heq; split; try done.
  - apply elem_of_update_where. exists u. by rewrite decide_False.
  - by apply elem_of_delete_where.
Qed.

(** A lookup by ID that found an account of another role says the change does
    not touch an administrator. *)
Lemma select_role_not_admin d id s u :
  NoDup (user_ID <$> t_users d) →
  user_Role <$> select_one (λ u, user_ID u = id) (t_users d) = Some s →
  u ∈ t_users d → user_ID u = id → user_Role u = s.
Proof.
  intros Hnd Hs Hu Hid. apply fmap_Some in Hs as (v & Hv & ->).
  apply select_one_Some in Hv as [Hv Hvid]. f_equal. eapply unique_row; [exact Hnd|done..|congruence].
Qed.

Lemma admin_role_update d d' P `{∀ x : RoleDefinition, Decision (P x)} f :
  t_roles d' = update_where P f (t_roles d) →
  (∀ r, P r → roledef_System r = false) → admin_role d → admin_role d'.
Proof.
  intros Heq HP (r & Hr & ? & Hsys). exists r. rewrite Heq. split; [|done].
  apply elem_of_update_where. exists r. split; [done|]. rewrite decide_False; [done|].
  intros ?%HP. congruence.
Qed.

Lemma admin_role_delete d d' id s :
  t_roles d' = delete_where (λ r, roledef_ID r = id) (t_roles d) →
  NoDup (roledef_ID <$> t_roles d) →
  roledef_System <$> select_one (λ r, roledef_ID r = id) (t_roles d) = Some s → s = false →
  admin_role d → id ≠ RoleAdmin ∧ admin_role d'.
Proof.
  intros Heq Hnd Hs -> (r & Hr & Hid & Hsys).
  apply fmap_Some in Hs as (v & Hv & Hvs). apply select_one_Some in Hv as [Hv Hvid].
  assert (Hne : id ≠ RoleAdmin).
  { intros ->. assert (v = r) as -> by (eapply unique_row; [exact Hnd|done..|congruence]). congruence. }
  split; [done|]. exists r. rewrite Heq. split; [|done]. apply elem_of_delete_where.
  split; [done|]. congruence.
Qed.

Lemma has_admin_same d d' : t_users d' = t_users d → has_admin d → has_admin d'.
Proof. unfold has_admin. by intros ->. Qed.
Lemma admin_role_same d d' : t_roles d' = t_roles d → admin_role d → admin_role d'.
Proof. unfold admin_role. by intros ->. Qed.
Lemma has_admin_insert d d' r : t_users d' = t_users d ++ [r] → has_admin d → has_admin d'.
Proof. intros Heq (u & ? & ?). exists u. rewrite Heq. set_solver. Qed.
Lemma admin_role_insert d d' r : t_roles d' = t_roles d ++ [r] → admin_role d → admin_role d'.
Proof. intros Heq (u & ? & ?). exists u. rewrite Heq. set_solver. Qed.

Ltac admin_leaf :=
  first
    [ by (eapply has_admin_same; [by read_tables|])
    | by (eapply has_admin_insert; [by read_tables|])
    | by (eapply has_admin_update; [by read_tables|done|])
    | by (eapply admin_role_same; [by read_tables|])
    | by (eapply admin_role_insert; [by read_tables|])
    | by (eapply admin_role_update; [by read_tables|naive_solver|]) ].

Lemma account_op_admin op d h :
  admin_inv d → wp true (run_account_op op) (λ _ d' _, has_admin d' ∧ admin_role d') d h.
Proof.
  intros ([Hid _] & [Hrid _] & Ha & Hr). destruct op; cbn [run_account_op];
    unfold CreateUser, CreateRegisteredUser, SetUserEnabled, SetUserApproval, ForceRelogin,
      UpdateUserPassword, UpdateUser, DeleteUser, UpdateLastLogin, SetUserTOTP,
      CreateRole, UpdateRole, DeleteRole, CreateGroup, UpdateGroup, DeleteGroup, SetUserGroupMember;
    wp_go.
  all: split_and?; try done; try admin_leaf.
  (* UpdateUser *)
  - apply Z.leb_gt in Heqb0. destruct (count_where_other _ _ _ id Hid Heqb0) as (u & ? & ? & ?).
    eapply has_admin_other; [left; by read_tables|done..].
  - apply andb_false_iff in Heqb. eapply has_admin_update; [by read_tables| |done].
    intros u Hu Hua Huid. destruct Heqb as [Hs|Hs].
    + apply bool_decide_eq_false in Hs. destruct Hs. symmetry in Hua. rewrite Hua.
      symmetry. by eapply select_role_not_admin.
    + by apply negb_false_iff, bool_decide_eq_true in Hs.
  (* DeleteUser *)
  - apply Z.leb_gt in Heqb. destruct (count_where_other _ _ _ id Hid Heqb) as (u & ? & ? & ?).
    eapply (has_admin_other d _ id (λ u, u)); [right; by read_tables|done..].
  - destruct Ha as (u & Hu & Hua). eapply (has_admin_other d _ id (λ u, u)); [right; by read_tables|done..|].
    intros Huid. destruct n. symmetry in Hua. rewrite Hua. symmetry. by eapply select_role_not_admin.
  (* DeleteRole *)
  - eapply (admin_role_delete _ d1) in Heqo as [Hne _]; [|by read_tables|done..].
    eapply has_admin_update; [by read_tables|congruence|done].
  - eapply (admin_role_delete _ d1) in Heqo as [_ Hd]; [exact Hd|by read_tables|done..].
Qed.
End Invariants.
