(* ===== verification/Sample.v ===== *)
(** * A small installation: an administrator and two users

    The concrete state at which the theorems about the store are instantiated. *)

From S2P Require Export Accounts.

Definition ex_user (id name role : string) : User :=
  mkUser id name "" "" "hash" "" role [] true ApprovalApproved 1 0 0 None None "" false.
Definition ex_session (id user : string) : Session :=
  mkSession id user 0 1000 None 0 "" "" "".
Definition ex_accounts : DB :=
  empty_db <| t_users := [ex_user "u0" "root" RoleAdmin; ex_user "u1" "alice" RoleUser;
                          ex_user "u2" "bob" RoleUser] |>
           <| t_sessions := [ex_session "s1" "u1"; ex_session "s2" "u2"] |>
           <| t_auth_challenges := [mkAuthChallenge "c1" "u1" 1 0 1000 "" "" "" "" "" "" "" ""] |>
           <| t_groups := [mkGroup "g1" "ops" "" GroupKindUser 0 0;
                           mkGroup "g2" "dev" "" GroupKindUser 0 0] |>
           <| t_user_group_memberships := [mkMembership "g1" "u1" 0; mkMembership "g1" "u2" 0] |>
           <| t_address_books := [mkAddressBook "b1" "mine" "personal" "u1" "" false 0 0] |>
           <| t_roles := [mkRoleDefinition RoleAdmin "Administrator" "" [PermissionAll] true 0 0] |>.
Definition ex_world : world := mkWorld ex_accounts [] (NewHub "src").

Lemma ex_accounts_ok : accounts_ok ex_accounts.
Proof. apply (bool_decide_eq_true_1 (accounts_ok ex_accounts)). vm_compute. reflexivity. Qed.

