(* ===== verification/AccountLifecycle.v ===== *)
(** * The account life cycle: theorems

    What the account store guarantees for every history of operations and every
    pattern of database failures, and what each operation that restricts or
    removes an account leaves behind. *)

From S2P Require Export Accounts.
From S2P Require Import Sample.

Section Lifecycle.
Context `{Unicode}.

(** Membership of a user in a group. *)
Definition in_group (d : DB) (g u : string) : Prop :=
  ∃ m, m ∈ t_user_group_memberships d ∧ member_GroupID m = g ∧ member_UserID m = u.

(** Nothing but audit history refers to the user any more. *)
Record account_removed (id : string) (d d' : DB) : Prop := {
  removed_user : t_users d' = delete_where (λ u, user_ID u = id) (t_users d);
  removed_sessions : ∀ s, s ∈ t_sessions d' ↔ s ∈ t_sessions d ∧ session_UserID s ≠ id;
  removed_challenges : ∀ c, c ∈ t_auth_challenges d' → challenge_UserID c ≠ id;
  removed_identities : ∀ o, o ∈ t_oidc_identities d' → oidc_UserID o ≠ id;
  removed_codes : ∀ c, c ∈ t_mfa_recovery_codes d' → code_UserID c ≠ id;
  removed_groups : ∀ g u, in_group d' g u ↔ in_group d g u ∧ u ≠ id;
  removed_grants : ∀ g, g ∈ t_address_book_grants d' →
    ¬ (grant_SubjectType g = "user" ∧ grant_SubjectID g = id)
    ∧ grant_AddressBookID g ∉ books_owned d id;
  removed_acl : ∀ r, r ∈ t_acl_rules d' → ¬ (acl_SubjectType r = "user" ∧ acl_SubjectID r = id);
  removed_strategies : ∀ s, s ∈ t_strategies d' →
    ¬ (strategy_ScopeType s = "user" ∧ strategy_ScopeID s = id);
  removed_books : ∀ b, b ∈ t_address_books d' → book_OwnerUserID b ≠ id;
  removed_entries : ∀ e, e ∈ t_address_book_entries d' → entry_AddressBookID e ∉ books_owned d id;
  removed_tags : ∀ t, t ∈ t_address_book_tags d' → tag_AddressBookID t ∉ books_owned d id;
  removed_devices : id ≠ "" → ∀ v, v ∈ t_devices d' → device_OwnerUserID v ≠ id;
  kept_tokens : t_api_tokens d' = t_api_tokens d
}.

(** ** Lemmas *)

Lemma in_group_snoc d d' m0 g u :
  t_user_group_memberships d' = t_user_group_memberships d ++ [m0] →
  in_group d' g u ↔ in_group d g u ∨ (g = member_GroupID m0 ∧ u = member_UserID m0).
Proof.
  intros Heq. unfold in_group. rewrite Heq. setoid_rewrite elem_of_app.
  setoid_rewrite list_elem_of_singleton. split.
  - intros (m & [?| ->] & <- & <-); [left; by exists m|by right].
  - intros [(m & ? & ? & ?)|[-> ->]]; [exists m; auto|exists m0; auto].
Qed.

Lemma in_group_same d d' g u :
  t_user_group_memberships d' = t_user_group_memberships d → in_group d' g u ↔ in_group d g u.
Proof. unfold in_group. by intros ->. Qed.

Lemma Exists_in_group d g u :
  Exists (λ m, member_GroupID m = g ∧ member_UserID m = u) (t_user_group_memberships d)
  ↔ in_group d g u.
Proof. rewrite Exists_exists. done. Qed.

(** One group joined, and the loop over the groups of the request. *)
Lemma join_group_spec F id now g d h :
  wp F (join_group id now g)
    (λ r d' _, r = Ok tt → ∀ g' u,
       in_group d' g' u ↔ in_group d g' u ∨ (u = id ∧ g' = g ∧ g ∉ system_groups)) d h.
Proof.
  unfold join_group. wp_go; try done; intros _ g' u.
  - naive_solver.
  - rewrite Exists_in_group in *. naive_solver.
  - rewrite in_group_snoc by (by read_tables). cbn. naive_solver.
Qed.

Lemma join_groups_spec F id now gs d h :
  wp F (for_each (join_group id now) gs)
    (λ r d' _, r = Ok tt → ∀ g u,
       in_group d' g u ↔ in_group d g u ∨ (u = id ∧ g ∈ gs ∧ g ∉ system_groups)) d h.
Proof.
  revert d h. induction gs as [|g0 gs IH]; intros d h; cbn [for_each].
  { apply wp_ret. intros _ g u. set_solver. }
  apply wp_bind. eapply wp_mono; [apply join_group_spec|]. intros [[]|e] d1 h1 H1; [|done].
  eapply wp_mono; [apply IH|]. intros r d2 h2 H2 Hr g u.
  rewrite (H2 Hr g u), (H1 eq_refl g u). set_solver.
Qed.

(** The tables after a successful [DeleteUser], as expressions of those before. *)
Definition account_tables (id : string) (d d' : DB) : Prop :=
  t_users d' = delete_where (λ u, user_ID u = id) (t_users d)
  ∧ t_sessions d' = delete_where (λ s, session_UserID s = id) (t_sessions d)
  ∧ t_auth_challenges d' = delete_where (λ c, challenge_UserID c = id) (t_auth_challenges d)
  ∧ t_oidc_identities d' = delete_where (λ o, oidc_UserID o = id) (t_oidc_identities d)
  ∧ t_mfa_recovery_codes d' = delete_where (λ c, code_UserID c = id) (t_mfa_recovery_codes d)
  ∧ t_user_group_memberships d'
    = delete_where (λ m, member_UserID m = id) (t_user_group_memberships d)
  ∧ t_address_book_grants d'
    = delete_where (λ g, grant_AddressBookID g ∈ books_owned d id)
        (delete_where (λ g, grant_SubjectType g = "user" ∧ grant_SubjectID g = id)
           (t_address_book_grants d))
  ∧ t_acl_rules d'
    = delete_where (λ r, acl_SubjectType r = "user" ∧ acl_SubjectID r = id) (t_acl_rules d)
  ∧ t_strategies d'
    = delete_where (λ s, strategy_ScopeType s = "user" ∧ strategy_ScopeID s = id) (t_strategies d)
  ∧ t_address_books d' = delete_where (λ b, book_OwnerUserID b = id) (t_address_books d)
  ∧ t_address_book_entries d'
    = delete_where (λ e, entry_AddressBookID e ∈ books_owned d id) (t_address_book_entries d)
  ∧ t_address_book_tags d'
    = delete_where (λ t, tag_AddressBookID t ∈ books_owned d id) (t_address_book_tags d)
  ∧ t_devices d'
    = update_where (λ v, device_OwnerUserID v = id) (λ v, v <| device_OwnerUserID := "" |>)
        (t_devices d)
  ∧ t_api_tokens d' = t_api_tokens d.

Lemma DeleteUser_tables id d h :
  wp true (DeleteUser id) (λ r d' _, is_ok r = true → account_tables id d d') d h.
Proof.
  unfold DeleteUser. wp_go; try done; intros _; unfold account_tables;
    (split_and!; read_tables; unfold books_owned; read_tables; reflexivity).
Qed.

Lemma join_groups_frame_spec F id now gs d h :
  wp F (for_each (join_group id now) gs)
    (λ r d' _, (∃ t, d' = write t_user_group_memberships t d)
       ∧ (r = Ok tt → ∀ g u,
            in_group d' g u ↔ in_group d g u ∨ (u = id ∧ g ∈ gs ∧ g ∉ system_groups))) d h.
Proof.
  eapply wp_mono; [apply wp_both; [apply wp_join_groups|apply join_groups_spec]|].
  intros r d' h' [(t & Ht & _) Hspec]. split; [by exists t|done].
Qed.

(** ** Properties *)

(** C1: a change of the password, the role, the enabled flag or the second
    factor of an account always increases its token version, and no account
    operation ever decreases one, whatever statements fail. *)
Theorem sensitive_change_invalidates_tokens op w u u' :
  users_ok (w_db w) →
  u ∈ t_users (w_db w) → u' ∈ t_users (w_db (run_account_op op w).2) → user_ID u = user_ID u' →
  user_TokenVersion u ≤ user_TokenVersion u'
  ∧ (sensitive u ≠ sensitive u' → user_TokenVersion u < user_TokenVersion u').
Proof.
  intros [Hok _] Hu Hu' Hid.
  pose proof (wp_run (F:=true) (λ _ d' _, token_mono (w_db w) d') (run_account_op op) w I
                (account_op_token_mono op (w_db w) (w_hub w))) as Hmono. cbn in Hmono.
  edestruct (evolves_row user_ID token_step) as (_ & ? & ?); [exact Hmono|exact Hok| |done..].
  by intros a b [].
Qed.

(** C16: no history of account operations removes the last administrator: as
    long as the built-in administrator role exists and one account has it, both
    stay true, whatever the operations are and whichever statements fail. *)
Theorem last_admin_kept ops w :
  accounts_ok (w_db w) → has_admin (w_db w) → admin_role (w_db w) →
  has_admin (w_db (run_account_ops ops w)) ∧ admin_role (w_db (run_account_ops ops w)).
Proof.
  intros Hok Ha Hr.
  apply (run_account_ops_inv (λ d, accounts_ok d ∧ has_admin d ∧ admin_role d)); [|done].
  intros op d h (Hd & Had & Hrd). apply wp_both; [by apply account_op_ok|].
  apply account_op_admin. split_and!; try done; apply Hd.
Qed.

(** the PRIMARY KEY, UNIQUE and REFERENCES constraints of the account
    tables hold after every history of account operations. *)
Theorem accounts_schema_kept ops w :
  accounts_ok (w_db w) → accounts_ok (w_db (run_account_ops ops w)).
Proof. apply run_account_ops_inv. intros op d h Hok. by apply account_op_ok. Qed.

(** a successful [DeleteUser] leaves no session, challenge, identity,
    recovery code, membership, grant, rule, policy, owned address book or owned
    device of the account, and touches no session of another account.  API
    tokens are the exception: their rows stay. *)
Theorem DeleteUser_complete id w :
  is_ok (DeleteUser id w).1 = true →
  account_removed id (w_db w) (w_db (DeleteUser id w).2).
Proof.
  intros Hok.
  pose proof (wp_run (F:=true) (λ r d' _, is_ok r = true → account_tables id (w_db w) d')
           (DeleteUser id) w I (DeleteUser_tables id _ _) Hok) as Ht. revert Ht. clear Hok.
  generalize (w_db w) (w_db (DeleteUser id w).2). intros d d' Ht.
  destruct Ht as (E1 & E2 & E3 & E4 & E5 & E6 & E7 & E8 & E9 & E10 & E11 & E12 & E13 & E14).
  constructor.
  - done.
  - intros x. by rewrite E2, elem_of_delete_where.
  - intros x. rewrite E3, elem_of_delete_where. tauto.
  - intros x. rewrite E4, elem_of_delete_where. tauto.
  - intros x. rewrite E5, elem_of_delete_where. tauto.
  - intros g u. unfold in_group. rewrite E6. setoid_rewrite elem_of_delete_where. naive_solver.
  - intros x. rewrite E7, !elem_of_delete_where. tauto.
  - intros x. rewrite E8, elem_of_delete_where. tauto.
  - intros x. rewrite E9, elem_of_delete_where. tauto.
  - intros x. rewrite E10, elem_of_delete_where. tauto.
  - intros x. rewrite E11, elem_of_delete_where. tauto.
  - intros x. rewrite E12, elem_of_delete_where. tauto.
  - intros Hid x. rewrite E13, elem_of_update_where. intros (v & _ & ->).
    case_decide; cbn; congruence.
  - done.
Qed.

(** [DeleteUser] cannot fail on the data: when the constraints hold, the
    account exists and is not the only administrator, and no statement fails in
    the driver, it succeeds; no row it forgot makes the database refuse. *)
Theorem DeleteUser_succeeds id d h u :
  accounts_ok d → u ∈ t_users d → user_ID u = id →
  (user_Role u = RoleAdmin → 1 < count_admins d) →
  (DeleteUser id (mkWorld d [] h)).1 = Ok tt.
Proof.
  intros Hok Hu Hid Hadmin.
  apply (wp_run (F:=false) (λ r _ _, r = Ok tt) (DeleteUser id) (mkWorld d [] h) eq_refl).
  cbn [w_db w_hub]. unfold DeleteUser. wp_go; try done; exfalso.
  all: try (refute_constraint; schema_auto unfold_accounts_ok; fail).
  all: try match goal with
           | E : count_where _ _ = 0 |- _ => rewrite count_where_0 in E; apply (E u); [by read_tables|done]
           end.
  - (* LastAdmin *)
    subst s. apply Z.leb_le in Heqb. enough (user_Role u = RoleAdmin) by (specialize (Hadmin ltac:(done)); lia).
    eapply select_role_not_admin; [apply Hok|exact Heqo|done..].
  - rewrite fmap_None, select_one_None in Heqo. by apply (Heqo u).
Qed.

(** What a successful [UpdateUser] did. *)
Record user_updated (id : string) (input : UserUpdate) (now : time) (d d' : DB) : Prop := {
  updated_row : t_users d' = update_where (λ u, user_ID u = id) (apply_update input now) (t_users d);
  updated_sessions : ∀ s, s ∈ t_sessions d' → session_UserID s = id → session_RevokedAt s ≠ None;
  updated_other_sessions : ∀ s, session_UserID s ≠ id → s ∈ t_sessions d' ↔ s ∈ t_sessions d;
  updated_system : ∀ g, g ∈ system_groups → in_group d' g id ↔ in_group d g id;
  updated_groups : ∀ g, g ∉ system_groups → in_group d' g id ↔ g ∈ update_GroupIDs input;
  updated_others : ∀ g u, u ≠ id → in_group d' g u ↔ in_group d g u
}.

Lemma revoked_sessions_of d d' id at_ :
  t_sessions d'
  = update_where (λ s, session_UserID s = id ∧ session_RevokedAt s = None)
      (λ s, s <| session_RevokedAt := Some at_ |>) (t_sessions d) →
  (∀ s, s ∈ t_sessions d' → session_UserID s = id → session_RevokedAt s ≠ None)
  ∧ (∀ s, session_UserID s ≠ id → s ∈ t_sessions d' ↔ s ∈ t_sessions d).
Proof.
  intros ->. setoid_rewrite elem_of_update_where. split.
  - intros s (s0 & _ & ->). case_decide; [done|naive_solver].
  - intros s Hs. split.
    + intros (s0 & Hs0 & ->). case_decide; [|done]. cbn in Hs. naive_solver.
    + intros Hs0. exists s. split; [done|]. rewrite decide_False; naive_solver.
Qed.

Lemma UpdateUser_updated id input now d h :
  wp true (UpdateUser id input now) (λ r d' _, is_ok r = true → user_updated id input now d d') d h.
Proof.
  unfold UpdateUser.
  repeat (lazymatch goal with
          | |- wp _ (for_each _ _) _ _ _ =>
              eapply wp_mono; [apply join_groups_frame_spec|];
              let E := fresh "Ed" in intros ? ? ? [(? & E) ?]
          | _ => wp_step
          end; cbv beta iota); try discriminate; try done; intros _.
  all: match goal with Hg : Ok ?a = Ok tt → _ |- _ => destruct a; specialize (Hg eq_refl) end.
  all: match goal with
       | Hg : ∀ g u, in_group ?dg g u ↔ in_group ?dd g u ∨ _ |- user_updated _ _ _ _ ?d' =>
           assert (Hm : ∀ g u, in_group d' g u ↔ in_group dg g u)
             by (intros; apply in_group_same; by read_tables);
           setoid_rewrite Hg in Hm;
           assert (Hd : ∀ g u, in_group dd g u ↔ in_group d g u ∧ ¬ (u = id ∧ g ∉ system_groups))
       end.
  1, 3: intros g u; unfold in_group; read_tables; setoid_rewrite elem_of_delete_where; naive_solver.
  all: setoid_rewrite Hd in Hm.
  all: match goal with |- user_updated _ _ _ _ ?d' =>
         destruct (revoked_sessions_of d d' id (millis now)) as [Hs1 Hs2]; [by read_tables|] end.
  all: constructor; [by read_tables|done|done|intros; rewrite Hm; tauto..].
Qed.

(** a successful [UpdateUser] writes the account's new fields, revokes every
    session of it, and makes the request's groups its only memberships outside
    the two system groups, which it leaves alone; no other account's row,
    session or membership changes. *)
Theorem UpdateUser_effect id input now w :
  is_ok (UpdateUser id input now w).1 = true →
  user_updated id input now (w_db w) (w_db (UpdateUser id input now w).2).
Proof.
  apply (wp_post (λ r d d', is_ok r = true → user_updated id input now d d')).
  intros d h. apply UpdateUser_updated.
Qed.
End Lifecycle.

(** ** Witnesses *)

Lemma sensitive_change_invalidates_tokens_witness :
  user_TokenVersion (ex_user "u1" "alice" RoleUser)
  < user_TokenVersion (bump_token (ex_user "u1" "alice" RoleUser <| user_Enabled := false |>)
                         <| user_UpdatedAt := 0 |>).
Proof.
  apply (sensitive_change_invalidates_tokens (H:=ascii_unicode)
           (OpSetUserEnabled "u1" false 0) ex_world); [apply ex_accounts_ok| | |reflexivity|done].
  - cbn. set_solver.
  - vm_compute. set_solver.
Defined.

Lemma last_admin_kept_witness :
  has_admin (w_db (run_account_ops (H:=ascii_unicode)
                     [OpDeleteUser "u1"; OpDeleteUser "u0"; OpDeleteRole RoleAdmin] ex_world))
  ∧ admin_role (w_db (run_account_ops (H:=ascii_unicode)
                     [OpDeleteUser "u1"; OpDeleteUser "u0"; OpDeleteRole RoleAdmin] ex_world)).
Proof.
  apply last_admin_kept; [apply ex_accounts_ok| |].
  - exists (ex_user "u0" "root" RoleAdmin). cbn. set_solver.
  - eexists. cbn. split; [by left|done].
Defined.

Lemma accounts_schema_kept_witness :
  accounts_ok (w_db (run_account_ops (H:=ascii_unicode)
                       [OpCreateUser (ex_user "u3" "Bob" RoleUser); OpDeleteUser "u1"] ex_world)).
Proof. apply accounts_schema_kept, ex_accounts_ok. Defined.

Lemma DeleteUser_complete_witness :
  account_removed "u1" ex_accounts (w_db (DeleteUser "u1" ex_world).2).
Proof. apply (DeleteUser_complete "u1" ex_world). vm_compute. reflexivity. Defined.

Lemma DeleteUser_succeeds_witness : (DeleteUser "u1" ex_world).1 = Ok tt.
Proof.
  apply (DeleteUser_succeeds "u1" ex_accounts (NewHub "src") (ex_user "u1" "alice" RoleUser));
    [apply ex_accounts_ok|cbn; set_solver|reflexivity|done].
Defined.

Lemma UpdateUser_effect_witness :
  user_updated (H:=ascii_unicode) "u1" (mkUserUpdate "alice" "" "" "" "" RoleUser true ["g2"]) 0 ex_accounts
    (w_db (UpdateUser (H:=ascii_unicode) "u1"
             (mkUserUpdate "alice" "" "" "" "" RoleUser true ["g2"]) 0 ex_world).2).
Proof. apply (UpdateUser_effect (H:=ascii_unicode) "u1" _ 0 ex_world). vm_compute. reflexivity. Defined.
