(* ===== verification/StoreSessions.v ===== *)
(** * Sessions and one-time credentials: [sqlstore.Store]
    (art-api/internal/store/sqlstore/store.go, login_lockout.go)

    Sessions and the session explorer, second-factor challenges, OIDC requests
    and identities, MFA recovery codes, API tokens and account lockouts. *)

From S2P Require Export Accounts.

(** ** Rows *)

Definition scanSession (r : Session) : Session :=
  r <| session_CreatedAt := fromMillis (session_CreatedAt r) |>
    <| session_ExpiresAt := fromMillis (session_ExpiresAt r) |>
    <| session_LastSeenAt := fromMillis (session_LastSeenAt r) |>
    <| session_RevokedAt := fromMillis <$> session_RevokedAt r |>.

Definition scanAuthChallenge (r : AuthChallenge) : AuthChallenge :=
  r <| challenge_CreatedAt := fromMillis (challenge_CreatedAt r) |>
    <| challenge_ExpiresAt := fromMillis (challenge_ExpiresAt r) |>.

Definition scanOIDCAuthRequest (r : OIDCAuthRequest) : OIDCAuthRequest :=
  r <| oidcreq_CreatedAt := fromMillis (oidcreq_CreatedAt r) |>
    <| oidcreq_ExpiresAt := fromMillis (oidcreq_ExpiresAt r) |>.

Definition scanOIDCIdentity (r : OIDCIdentity) : OIDCIdentity :=
  r <| oidc_CreatedAt := fromMillis (oidc_CreatedAt r) |>.

Definition scanAPIToken (r : APIToken) : APIToken :=
  r <| token_CreatedAt := fromMillis (token_CreatedAt r) |>
    <| token_ExpiresAt := fromMillis (token_ExpiresAt r) |>
    <| token_LastUsedAt := fromMillis <$> token_LastUsedAt r |>
    <| token_RevokedAt := fromMillis <$> token_RevokedAt r |>.

Section Store.
Context `{Unicode} `{SqlText}.

(** ** MFA recovery codes *)

Definition ReplaceMFARecoveryCodes (userID : string) (hashes : list string) (now : time) : M unit :=
  tx (sql_delete t_mfa_recovery_codes (λ c, code_UserID c = userID);;
      for_each (λ hash, sql_insert t_mfa_recovery_codes (mkRecoveryCode userID hash (millis now)))
        hashes).

Definition ConsumeMFARecoveryCode (userID hash : string) : M bool :=
  count ← sql_delete t_mfa_recovery_codes (λ c, code_UserID c = userID ∧ code_Hash c = hash);
  ret (count =? 1).

Definition CountMFARecoveryCodes (userID : string) : M Z :=
  query (λ d, count_where (λ c, code_UserID c = userID) (t_mfa_recovery_codes d)).

(** ** Second-factor challenges *)

Definition CreateAuthChallenge (challenge : AuthChallenge) : M unit :=
  try (sql_delete t_auth_challenges
         (λ c, challenge_ExpiresAt c ≤ millis (challenge_CreatedAt challenge)));;
  sql_insert t_auth_challenges
    (challenge <| challenge_CreatedAt := millis (challenge_CreatedAt challenge) |>
               <| challenge_ExpiresAt := millis (challenge_ExpiresAt challenge) |>).

Definition live_challenge (id : string) (now : time) (c : AuthChallenge) : Prop :=
  challenge_ID c = id ∧ millis now < challenge_ExpiresAt c.

#[export] Instance live_challenge_dec id now c : Decision (live_challenge id now c).
Proof. unfold live_challenge. apply _. Defined.

Definition FindAuthChallenge (id : string) (now : time) : M AuthChallenge :=
  query_row (λ d, scanAuthChallenge <$> select_one (live_challenge id now) (t_auth_challenges d)).

Definition ConsumeAuthChallenge (id : string) (now : time) : M AuthChallenge :=
  c ← sql_delete_returning t_auth_challenges (live_challenge id now);
  ret (scanAuthChallenge c).

(** ** OIDC *)

Definition CreateOIDCAuthRequest (value : OIDCAuthRequest) : M unit :=
  try (sql_delete t_oidc_auth_requests
         (λ r, oidcreq_ExpiresAt r ≤ millis (oidcreq_CreatedAt value)));;
  sql_insert t_oidc_auth_requests
    (value <| oidcreq_CreatedAt := millis (oidcreq_CreatedAt value) |>
           <| oidcreq_ExpiresAt := millis (oidcreq_ExpiresAt value) |>).

Definition FindOIDCAuthRequestByState (state : string) (now : time) : M OIDCAuthRequest :=
  query_row (λ d, scanOIDCAuthRequest <$>
    select_one (λ r, oidcreq_State r = state ∧ millis now < oidcreq_ExpiresAt r)
      (t_oidc_auth_requests d)).

Definition CompleteOIDCAuthRequest (state userID errorMessage : string) : M unit :=
  count ← sql_update t_oidc_auth_requests
    (λ r, oidcreq_State r = state ∧ oidcreq_UserID r = "" ∧ oidcreq_Error r = "")
    (λ r, r <| oidcreq_UserID := userID |> <| oidcreq_Error := errorMessage |>);
  if bool_decide (count = 1) then ret tt else throw ErrNotFound.

Definition ConsumeOIDCAuthRequest (pollCode rustDeskID clientUUID : string) (now : time)
    : M OIDCAuthRequest :=
  r ← sql_delete_returning t_oidc_auth_requests
    (λ r, oidcreq_PollCode r = pollCode ∧ oidcreq_RustDeskID r = rustDeskID
          ∧ oidcreq_ClientUUID r = clientUUID ∧ oidcreq_LinkUserID r = ""
          ∧ millis now < oidcreq_ExpiresAt r ∧ (oidcreq_UserID r ≠ "" ∨ oidcreq_Error r ≠ ""));
  ret (scanOIDCAuthRequest r).

Definition ConsumeOIDCLinkRequest (pollCode userID : string) (now : time) : M OIDCAuthRequest :=
  r ← sql_delete_returning t_oidc_auth_requests
    (λ r, oidcreq_PollCode r = pollCode ∧ oidcreq_LinkUserID r = userID
          ∧ millis now < oidcreq_ExpiresAt r ∧ (oidcreq_UserID r ≠ "" ∨ oidcreq_Error r ≠ ""));
  ret (scanOIDCAuthRequest r).

Definition FindOIDCIdentity (provider subject : string) : M OIDCIdentity :=
  query_row (λ d, scanOIDCIdentity <$>
    select_one (λ o, oidc_Provider o = provider ∧ oidc_Subject o = subject) (t_oidc_identities d)).

Definition CreateOIDCIdentity (value : OIDCIdentity) : M unit :=
  sql_insert t_oidc_identities (value <| oidc_CreatedAt := millis (oidc_CreatedAt value) |>).

Definition ListOIDCIdentities (userID : string) : M (list OIDCIdentity) :=
  query (λ d, scanOIDCIdentity <$>
    SliceStable (then_by (λ a b, str_lt (oidc_Provider a) (oidc_Provider b))
                   (then_by (λ a b, str_lt (oidc_Email a) (oidc_Email b))
                            (λ a b, str_lt (oidc_Subject a) (oidc_Subject b))))
      (if bool_decide (userID = "") then t_oidc_identities d
       else filter (λ o, oidc_UserID o = userID) (t_oidc_identities d))).

Definition DeleteOIDCIdentity (provider subject userID : string) : M unit :=
  count ← sql_delete t_oidc_identities
    (λ o, oidc_Provider o = provider ∧ oidc_Subject o = subject ∧ oidc_UserID o = userID);
  if bool_decide (count = 1) then ret tt else throw ErrNotFound.

(** ** Sessions *)

(** The row of INSERT INTO sessions: [revoked_at] is not listed. *)
Definition CreateSession (session : Session) : M unit :=
  sql_insert t_sessions
    (session <| session_CreatedAt := millis (session_CreatedAt session) |>
             <| session_ExpiresAt := millis (session_ExpiresAt session) |>
             <| session_LastSeenAt := millis (session_LastSeenAt session) |>
             <| session_RevokedAt := None |>).

Definition FindSession (id : string) : M Session :=
  query_row (λ d, scanSession <$> select_one (λ s, session_ID s = id) (t_sessions d)).

Definition TouchSession (id : string) (at_ : time) : M unit :=
  discard (sql_update t_sessions (λ s, session_ID s = id ∧ session_RevokedAt s = None)
             (λ s, s <| session_LastSeenAt := millis at_ |>)).

Definition RevokeSession (id : string) (at_ : time) : M Session :=
  s ← sql_update_returning t_sessions (λ s, session_ID s = id ∧ session_RevokedAt s = None)
        (λ s, s <| session_RevokedAt := Some (millis at_) |>);
  ret (scanSession s).

Definition RevokeUserSessions (userID : string) (at_ : time) : M unit :=
  discard (revoke_sessions_of userID at_).

Definition ListAuthState (now : time) : M (list User * list Session) :=
  users ← query (λ d, scanUser <$> t_users d);
  sessions ← query (λ d, scanSession <$> filter (λ s, millis now < session_ExpiresAt s) (t_sessions d));
  ret (users, sessions).

(** ORDER BY last_seen_at DESC *)
Definition ListSessions (now : time) : M (list Session) :=
  query (λ d, scanSession <$>
    SliceStable (λ a b, session_LastSeenAt b <? session_LastSeenAt a)
      (filter (λ s, millis now < session_ExpiresAt s) (t_sessions d))).

(** [sessionWhere]: the condition its clauses and arguments express, on a row of
    sessions joined with its user. *)
Definition sessionWhere (q : SessionQuery) (s : Session) (u : User) : bool :=
  (if bool_decide (squery_Status q = "active") then
     bool_decide (session_RevokedAt s = None) && (millis (squery_Now q) <? session_ExpiresAt s)
   else if bool_decide (squery_Status q = "revoked") then
     negb (bool_decide (session_RevokedAt s = None))
   else if bool_decide (squery_Status q = "expired") then
     bool_decide (session_RevokedAt s = None) && (session_ExpiresAt s <=? millis (squery_Now q))
   else true)
  && (bool_decide (squery_UserID q = "") || bool_decide (session_UserID s = squery_UserID q))
  && (bool_decide (squery_Search q = "")
      || existsb (λ field, sql_like (sql_lower field) ("%" +:+ ToLower (squery_Search q) +:+ "%"))
           [user_Username u; user_DisplayName u; session_UserID s; session_ClientDeviceID s;
            session_IP s; session_UserAgent s]).

(** FROM sessions s JOIN users u ON u.id=s.user_id WHERE ... *)
Definition session_rows (q : SessionQuery) (d : DB) : list (Session * User) :=
  filter (λ p, Is_true (sessionWhere q p.1 p.2))
    (s ← t_sessions d; (λ u, (s, u)) <$> filter (λ u, user_ID u = session_UserID s) (t_users d)).

Definition session_status (now : time) (s : Session) : string :=
  if bool_decide (session_RevokedAt s = None) then
    if negb (now <? fromMillis (session_ExpiresAt s)) then "expired" else "active"
  else "revoked".

Definition session_record (now : time) (p : Session * User) : SessionRecord :=
  mkSessionRecord (scanSession p.1) (user_Username p.2) (user_DisplayName p.2) (user_Enabled p.2)
    (session_status now p.1) false.

(** The query with its defaults; [clock] is [time.Now()]. *)
Definition session_query_defaults (q : SessionQuery) (clock : time) : SessionQuery :=
  let q := if (squery_Limit q <? 1) || (500 <? squery_Limit q)
           then q <| squery_Limit := 100 |> else q in
  let q := if (squery_Offset q <? 0) || (10000000 <? squery_Offset q)
           then q <| squery_Offset := 0 |> else q in
  if squery_Now q =? zero_time then q <| squery_Now := clock |> else q.

Definition session_order (a b : Session * User) : bool :=
  then_by (λ a b : Session * User, session_LastSeenAt b.1 <? session_LastSeenAt a.1)
          (λ a b, str_lt (session_ID b.1) (session_ID a.1)) a b.

Definition QuerySessions (query0 : SessionQuery) (clock : time) : M SessionPage :=
  let q := session_query_defaults query0 clock in
  total ← query (λ d, Z.of_nat (length (session_rows q d)));
  values ← query (λ d, session_record (squery_Now q) <$>
    limit_offset (squery_Limit q) (squery_Offset q) (SliceStable session_order (session_rows q d)));
  ret (mkSessionPage values total (squery_Limit q) (squery_Offset q)).

Definition SessionSummary_of (now : time) : M SessionSummary :=
  query (λ d, mkSessionSummary
    (Z.of_nat (length (t_sessions d)))
    (count_where (λ s, session_RevokedAt s = None ∧ millis now < session_ExpiresAt s) (t_sessions d))
    (count_where (λ s, session_RevokedAt s ≠ None) (t_sessions d))
    (count_where (λ s, session_RevokedAt s = None ∧ session_ExpiresAt s ≤ millis now) (t_sessions d))).

(** ** API tokens *)

(** [last_used_at] and [revoked_at] are not listed. *)
Definition CreateAPIToken (value : APIToken) : M unit :=
  sql_insert t_api_tokens
    (value <| token_CreatedAt := millis (token_CreatedAt value) |>
           <| token_ExpiresAt := millis (token_ExpiresAt value) |>
           <| token_LastUsedAt := None |> <| token_RevokedAt := None |>).

Definition ListAPITokens (userID : string) : M (list APIToken) :=
  query (λ d, scanAPIToken <$> SliceStable (λ a b, token_CreatedAt b <? token_CreatedAt a)
                                 (filter (λ t, token_UserID t = userID) (t_api_tokens d))).

Definition FindAPITokenByHash (tokenHash : string) : M APIToken :=
  query_row (λ d, scanAPIToken <$> select_one (λ t, token_TokenHash t = tokenHash) (t_api_tokens d)).

Definition TouchAPIToken (id : string) (at_ : time) : M unit :=
  affected (sql_update t_api_tokens (λ t, token_ID t = id ∧ token_RevokedAt t = None)
              (λ t, t <| token_LastUsedAt := Some (millis at_) |>)).

Definition RevokeAPIToken (userID id : string) (at_ : time) : M unit :=
  affected (sql_update t_api_tokens
              (λ t, token_ID t = id ∧ token_UserID t = userID ∧ token_RevokedAt t = None)
              (λ t, t <| token_RevokedAt := Some (millis at_) |>)).

(** ** Account lockouts (login_lockout.go) *)

Definition lockout_key (username : string) : string := ToLower (TrimSpace username).

Definition AccountLoginAllowed (username : string) (now : time) : M (bool * duration) :=
  row ← try (query_row (λ d, lockout_LockedUntil <$>
          select_one (λ l, lockout_Username l = lockout_key username) (t_account_lockouts d)));
  match row with
  | Err ErrNotFound => ret (true, 0)
  | Err e => throw e
  | Ok lockedUntil =>
      let until := fromMillis lockedUntil in
      if now <? until then ret (false, Sub until now) else ret (true, 0)
  end.

(** [attemptID] is the fresh [uuid.NewString()]. *)
Definition RecordAccountLoginFailure (attemptID username0 : string) (now : time) (burst : Z)
    (window lockout : duration) : M unit :=
  let username := lockout_key username0 in
  if bool_decide (username = "") then ret tt else
  sql_insert t_login_attempts (mkLoginAttempt attemptID username (millis now));;
  try (sql_delete t_login_attempts (λ a, attempt_OccurredAt a < millis (now - window)));;
  count ← query (λ d, count_where
            (λ a, attempt_Username a = username ∧ millis (now - window) ≤ attempt_OccurredAt a)
            (t_login_attempts d));
  if count <? burst then ret tt else
  sql_upsert t_account_lockouts (λ l, lockout_Username l = username)
    (λ l, mkAccountLockout (lockout_Username l) (millis (now + lockout)) (millis now))
    (mkAccountLockout username (millis (now + lockout)) (millis now)).

Definition ClearAccountLoginFailures (username0 : string) : M unit :=
  let username := lockout_key username0 in
  tx (sql_delete t_login_attempts (λ a, attempt_Username a = username);;
      discard (sql_delete t_account_lockouts (λ l, lockout_Username l = username))).
End Store.
