(* ===== verification/Mfa.v ===== *)
(** * Two-factor authentication (art-api/internal/mfa/totp.go)

    TOTP codes (RFC 6238 over HMAC-SHA1) and recovery codes.  The secret is kept
    encrypted with AES-GCM, an interface here ([Aead]); random bytes and the
    clock are arguments. *)

From S2P Require Export StoreSessions Crypto.
From S2P Require Import Sample.

(** ** [cipher.AEAD] of [aes.NewCipher] and [cipher.NewGCM]: 12 byte nonces *)
Class Aead := {
  Seal : bytes → bytes → bytes → bytes;           (* key, nonce, plaintext *)
  Open : bytes → bytes → bytes → option bytes;    (* key, nonce, box *)
  Open_Seal key nonce plain : Open key nonce (Seal key nonce plain) = Some plain
}.
Definition NonceSize : nat := 12.

Definition ModeOptional : string := "optional".
Definition ModeAdmins : string := "required_for_admins".
Definition ModeAll : string := "required_for_all_users".

Record Service := mkService {
  aead_key : bytes;
  recoveryKey : bytes;
  mode : string;
  issuer : string
}.

#[export] Instance eta_Service : Eta Service := λ s,
  mkService (aead_key s) (recoveryKey s) (mode s) (issuer s).

Record Enrollment := mkEnrollment {
  enrollment_Secret : string;
  enrollment_URI : string;
  enrollment_RecoveryCodes : list string
}.

Definition valid_mode (mode : string) : bool :=
  bool_decide (mode = ModeOptional) || bool_decide (mode = ModeAdmins) || bool_decide (mode = ModeAll).

Definition New (encryptionKey : bytes) (mode issuer : string) : res Service :=
  if negb (valid_mode mode) then Err (ErrText "invalid 2FA mode") else
  Ok (mkService (sha256_Sum encryptionKey)
        (sha256_Sum (bytes_of "art-rustdesk:mfa-recovery:" ++ encryptionKey)) mode issuer).

Definition Required (s : Service) (user : User) : bool :=
  bool_decide (mode s = ModeAll)
  || (bool_decide (mode s = ModeAdmins) && bool_decide (user_Role user = RoleAdmin)).

Definition SetMode (s : Service) (m : string) : res Service :=
  if negb (valid_mode m) then Err (ErrText "invalid 2FA mode") else Ok (s <| mode := m |>).

(** ** Codes *)

(** [int(sum[i])] *)
Definition sum_at (sum : bytes) (i : Z) : Z :=
  match nth_error sum (Z.to_nat i) with Some a => byte a | None => 0 end.

(** The number of [codeForCounter], before it is formatted. *)
Definition hotp (secret : bytes) (counter : Z) : Z :=
  let sum := hmac_sum sha1_Sum secret (big_endian 8 counter) in
  let index := Z.land (sum_at sum (Z.of_nat (length sum) - 1)) 15 in
  let value :=
    Z.lor (Z.lor (Z.lor (Z.shiftl (Z.land (sum_at sum index) 127) 24)
                        (Z.shiftl (Z.land (sum_at sum (index + 1)) 255) 16))
                 (Z.shiftl (Z.land (sum_at sum (index + 2)) 255) 8))
          (Z.land (sum_at sum (index + 3)) 255) in
  value mod 1000000.

Definition codeForCounter (secret : bytes) (counter : Z) : string := format_06d (hotp secret counter).

(** [now.Unix() / 30]: Go division rounds toward zero. *)
Definition time_step (now : time) : Z := Z.quot (now / second) 30.

Section Mfa.
Context `{Unicode} `{Aead}.

Definition Validate (secret code : string) (now : time) : bool :=
  let code := TrimSpace code in
  if negb (len code =? 6) then false else
  match Atoi code with
  | None => false
  | Some candidate =>
      match base32_decode (ToUpper secret) with
      | None => false
      | Some decoded =>
          existsb (λ offset, bool_decide (codeForCounter decoded (time_step now + offset)
                                          = format_06d candidate)) [-1; 0; 1]
      end
  end.

Definition Code (secret : string) (now : time) : res string :=
  match base32_decode (ToUpper secret) with
  | None => Err (ErrText "illegal base32 data")
  | Some decoded => Ok (codeForCounter decoded (time_step now))
  end.

(** ** Recovery codes and the encrypted secret *)

Definition recoveryHash (s : Service) (code : string) : string :=
  let normalized := ToUpper (remove_byte 45 (TrimSpace code)) in
  base64_encode url_alphabet (hmac_sum sha256_Sum (recoveryKey s) (bytes_of normalized)).

Definition recovery_code (raw : bytes) : string :=
  let encoded := take 10 (bytes_of (base32_encode raw)) in
  of_bytes (take 5 encoded) +:+ "-" +:+ of_bytes (drop 5 encoded).

(** [random i] is what the i-th [rand.Read] fills the seven bytes with. *)
Definition generateRecoveryCodes (s : Service) (random : nat → option bytes)
    : res (list string * list string) :=
  match mapM random (seq 0 10) with
  | None => Err (ErrText "rand")
  | Some raws => let codes := recovery_code <$> raws in Ok (codes, recoveryHash s <$> codes)
  end.

Definition encrypt (s : Service) (nonce : option bytes) (value : string) : res string :=
  match nonce with
  | None => Err (ErrText "rand")
  | Some nonce => Ok (base64_encode url_alphabet (nonce ++ Seal (aead_key s) nonce (bytes_of value)))
  end.

Definition decrypt (s : Service) (value : string) : res string :=
  match base64_decode url_alphabet value with
  | None => Err (ErrText "invalid encrypted TOTP secret")
  | Some raw =>
      if (length raw <? NonceSize)%nat then Err (ErrText "invalid encrypted TOTP secret") else
      of_option (ErrText "cipher: message authentication failed")
        (of_bytes <$> Open (aead_key s) (take NonceSize raw) (drop NonceSize raw))
  end.

(** The condition of Confirm, Disable and RegenerateRecoveryCodes that passes. *)
Definition valid_code (s : Service) (user : User) (code : string) (now : time) : bool :=
  match decrypt s (user_TOTPSecret user) with
  | Err _ => false
  | Ok secret => Validate secret code now
  end.

(** ** Operations of the service *)

Record Random := mkRandom {
  rand_secret : option bytes;      (* 20 bytes *)
  rand_nonce : option bytes;       (* 12 bytes *)
  rand_code : nat → option bytes   (* 7 bytes each *)
}.

Definition enrollment_uri (s : Service) (user : User) (secret : string) : string :=
  "otpauth://totp/" +:+ PathEscape (issuer s +:+ ":" +:+ user_Username user) +:+ "?"
  +:+ query_encode [("algorithm", "SHA1"); ("digits", "6"); ("issuer", issuer s);
                    ("period", "30"); ("secret", secret)].

Definition Begin (s : Service) (user : User) (r : Random) (now : time) : M Enrollment :=
  raw ← lift (of_option (ErrText "rand") (rand_secret r));
  let secret := base32_encode raw in
  encrypted ← lift (encrypt s (rand_nonce r) secret);
  SetUserTOTP (user_ID user) encrypted false now;;
  codes ← lift (generateRecoveryCodes s (rand_code r));
  ReplaceMFARecoveryCodes (user_ID user) codes.2 now;;
  ret (mkEnrollment secret (enrollment_uri s user secret) codes.1).

Definition Confirm (s : Service) (user : User) (code : string) (now : time) : M User :=
  if negb (valid_code s user code now) then throw ErrInvalidCode else
  SetUserTOTP (user_ID user) (user_TOTPSecret user) true now.

Definition Disable (s : Service) (user : User) (code : string) (now : time) : M User :=
  if user_TOTPEnabled user && negb (valid_code s user code now) then throw ErrInvalidCode else
  updated ← SetUserTOTP (user_ID user) "" false now;
  ReplaceMFARecoveryCodes (user_ID user) [] now;;
  ret updated.

(** Whether the second factor is satisfied, and whether a recovery code was used. *)
Definition Verify (s : Service) (user : User) (code : string) (now : time) : M (bool * bool) :=
  if negb (user_TOTPEnabled user) then ret (negb (Required s user), false) else
  if valid_code s user code now then ret (true, false) else
  consumed ← ConsumeMFARecoveryCode (user_ID user) (recoveryHash s code);
  ret (consumed, consumed).

Definition RegenerateRecoveryCodes (s : Service) (user : User) (code : string) (r : Random)
    (now : time) : M (list string) :=
  if negb (valid_code s user code now) then throw ErrInvalidCode else
  codes ← lift (generateRecoveryCodes s (rand_code r));
  ReplaceMFARecoveryCodes (user_ID user) codes.2 now;;
  ret codes.1.

Definition RecoveryCodesRemaining (userID : string) : M Z := CountMFARecoveryCodes userID.
End Mfa.

(** ** Plain text: what [TrimSpace] and [ToUpper] leave alone *)

Section Text.
Context `{Unicode}.

Definition plain_byte (a : Ascii.ascii) : bool := (byte a <? 128) && negb (space_byte a).

Lemma drop_while_none {A} (f : A → bool) l : forallb (λ a, negb (f a)) l = true → drop_while f l = l.
Proof. destruct l as [|x l]; [done|]. cbn. by destruct (f x). Qed.

Lemma forallb_reverse {A} (f : A → bool) l : forallb f (reverse l) = forallb f l.
Proof.
  apply eq_true_iff_eq. rewrite !forallb_forall. split; intros Hf x Hx; apply Hf;
    rewrite <-list_elem_of_In in *; by rewrite elem_of_reverse in *.
Qed.

Lemma TrimSpace_plain s : forallb plain_byte (bytes_of s) = true → TrimSpace s = s.
Proof.
  intros Hs. unfold TrimSpace.
  assert (is_ascii s = true ∧ forallb (λ a, negb (space_byte a)) (bytes_of s) = true) as [-> Hsp].
  { split; unfold is_ascii; rewrite forallb_forall in *; intros a Ha; specialize (Hs a Ha);
      unfold plain_byte in Hs; by apply andb_true_iff in Hs as [? ?]. }
  unfold trim_bytes. rewrite (drop_while_none _ (bytes_of s)) by done.
  rewrite drop_while_none by (by rewrite forallb_reverse). rewrite reverse_involutive.
  apply of_bytes_bytes_of.
Qed.

Lemma ToUpper_plain s :
  forallb (λ a, (byte a <? 128) && bool_decide (upper_byte a = a)) (bytes_of s) = true → ToUpper s = s.
Proof.
  intros Hs. unfold ToUpper.
  assert (is_ascii s = true ∧ upper_byte <$> bytes_of s = bytes_of s) as [-> ->].
  { unfold is_ascii. induction (bytes_of s) as [|a l IH]; [done|]. cbn in *. simplify_bool.
    destruct (IH ltac:(done)) as [-> ->].
    match goal with H : upper_byte a = a |- _ => rewrite H end.
    split; [|done]. rewrite andb_true_r. by apply Z.ltb_lt. }
  apply of_bytes_bytes_of.
Qed.

Lemma digits_plain l : forallb digit_byte l = true → forallb plain_byte l = true.
Proof.
  rewrite !forallb_forall. intros Hd a Ha. specialize (Hd a Ha). unfold digit_byte in Hd.
  simplify_bool. unfold plain_byte, space_byte.
  repeat (apply andb_true_iff; split); try (apply Z.ltb_lt; lia).
  apply negb_true_iff, orb_false_iff. split; [apply andb_false_iff; right; apply Z.leb_gt; lia|apply Z.eqb_neq; lia].
Qed.

(** Every byte of base32 text has a property of the 32 characters. *)
Lemma base32_bytes (f : Ascii.ascii → bool) b :
  forallb (λ g, f (to_char base32_alphabet g)) (all_groups 5) = true →
  forallb f (bytes_of (base32_encode b)) = true.
Proof.
  intros Hf. rewrite forallb_forall in Hf |- *. intros a Ha.
  unfold base32_encode in Ha. rewrite bytes_of_of_bytes, <-list_elem_of_In in Ha.
  apply list_elem_of_fmap in Ha as (g & -> & Hg). apply elem_of_groups in Hg; [|apply encode_groups_fit; lia].
  apply Hf, list_elem_of_In, elem_of_all_groups, Hg.
Qed.

Lemma ToUpper_base32 b : ToUpper (base32_encode b) = base32_encode b.
Proof. apply ToUpper_plain, base32_bytes. vm_compute. reflexivity. Qed.

Lemma recovery_code_trim raw : TrimSpace (recovery_code raw) = recovery_code raw.
Proof.
  apply TrimSpace_plain. unfold recovery_code. rewrite !bytes_of_app, !bytes_of_of_bytes.
  pose proof (base32_bytes plain_byte raw ltac:(vm_compute; reflexivity)) as Hall.
  rewrite <-(take_drop 10 (bytes_of (base32_encode raw))), forallb_app in Hall.
  apply andb_true_iff in Hall as [Hall _]. set (l := take 10 _) in *.
  rewrite <-(take_drop 5 l), forallb_app in Hall. rewrite !forallb_app.
  apply andb_true_iff in Hall as [-> ->]. vm_compute. reflexivity.
Qed.

Lemma recovery_code_length raw : length raw = 7%nat → len (recovery_code raw) = 11.
Proof.
  intros Hraw. rewrite len_bytes. unfold recovery_code. rewrite !bytes_of_app, !bytes_of_of_bytes.
  assert (length (bytes_of (base32_encode raw)) = 12%nat) as Hl.
  { unfold base32_encode. rewrite bytes_of_of_bytes, length_fmap. unfold encode_groups.
    by rewrite length_groups, Hraw. }
  rewrite !length_app, length_take, length_drop, length_take, Hl. reflexivity.
Qed.

(** A formatted code is six plain bytes. *)
Lemma code_plain n : 0 ≤ n < 1000000 → TrimSpace (format_06d n) = format_06d n ∧ len (format_06d n) = 6.
Proof.
  intros Hn. destruct (format_06d_bytes n Hn) as (Hb & Hl & Hd & _). split.
  - apply TrimSpace_plain. rewrite Hb. by apply digits_plain.
  - by rewrite len_bytes, Hb, Hl.
Qed.
End Text.

(** ** Theorems *)

Lemma hotp_range secret counter : 0 ≤ hotp secret counter < 1000000.
Proof. unfold hotp. apply Z.mod_pos_bound. lia. Qed.

Lemma format_06d_hotp z n : 0 ≤ z < 1000000 → n < 1000000 → format_06d z = format_06d n → z = n.
Proof.
  intros Hz Hn Heq. destruct (Z.ltb_spec n 0) as [Hneg|]; [|by apply format_06d_inj; [lia|lia|]].
  exfalso. destruct (format_06d_bytes z Hz) as (Hb & _ & Hd & _). rewrite <-Hb, Heq in Hd.
  unfold format_06d in Hd. destruct (Z.ltb_spec n 0); [|lia]. rewrite bytes_of_of_bytes in Hd.
  by vm_compute in Hd.
Qed.

Lemma decrypt_encrypt `{Aead} s nonce value e :
  length nonce = NonceSize → encrypt s (Some nonce) value = Ok e → decrypt s e = Ok value.
Proof.
  intros Hn [= <-]. unfold decrypt. rewrite base64_roundtrip by (vm_compute; reflexivity).
  rewrite length_app, Hn. destruct (Nat.ltb_spec (NonceSize + length (Seal (aead_key s) nonce (bytes_of value))) NonceSize); [lia|].
  rewrite take_app_length', drop_app_length' by done. rewrite Open_Seal. cbn. by rewrite of_bytes_bytes_of.
Qed.

Section Theorems.
Context `{Unicode} `{Aead}.

(** a TOTP code is accepted exactly when it is six bytes that read as the
    number of one of the three time steps around the clock. *)
Theorem Validate_window secret code now :
  Validate secret code now = true
  ↔ len (TrimSpace code) = 6
    ∧ ∃ n key offset, Atoi (TrimSpace code) = Some n ∧ base32_decode (ToUpper secret) = Some key
        ∧ -1 ≤ offset ≤ 1 ∧ n = hotp key (time_step now + offset).
Proof.
  unfold Validate. destruct (Z.eqb_spec (len (TrimSpace code)) 6) as [Hlen|]; cbn [negb]; [|naive_solver].
  destruct (Atoi (TrimSpace code)) as [n|] eqn:Hn; [|naive_solver].
  apply Atoi_bound in Hn as [_ Hlt]. rewrite Hlen in Hlt. change (10 ^ 6) with 1000000 in Hlt.
  destruct (base32_decode (ToUpper secret)) as [key|]; [|naive_solver].
  rewrite existsb_exists. split.
  - intros (o & Ho & Heq%bool_decide_eq_true). split; [done|]. exists n, key, o. split_and!; try done.
    1, 2: cbn in Ho; lia.
    symmetry. by apply format_06d_hotp; [apply hotp_range|lia|].
  - intros (_ & n' & key' & o & [= <-] & [= <-] & Ho & ->). exists o. split; [cbn; lia|].
    by apply bool_decide_eq_true.
Qed.

(** A displayed code is accepted while the clocks are at most one step apart. *)
Lemma Code_accepted secret t now code :
  Code secret t = Ok code → time_step now - 1 ≤ time_step t ≤ time_step now + 1 →
  Validate secret code now = true.
Proof.
  unfold Code. destruct (base32_decode (ToUpper secret)) as [key|] eqn:Hkey; [|done]. intros [= <-] Ht.
  apply Validate_window. destruct (code_plain (hotp key (time_step t)) (hotp_range _ _)) as [Htrim Hlen].
  unfold codeForCounter. rewrite Htrim. split; [done|].
  exists (hotp key (time_step t)), key, (time_step t - time_step now).
  split_and!; [apply Atoi_format_06d, hotp_range|done|lia|lia|f_equal; lia].
Qed.

(** A recovery code is no TOTP code. *)
Lemma recovery_code_not_totp secret raw now :
  length raw = 7%nat → Validate secret (recovery_code raw) now = false.
Proof.
  intros Hraw. unfold Validate. rewrite recovery_code_trim, recovery_code_length by done. done.
Qed.
End Theorems.

(** ** Enrollment *)

Section Enrollment.
Context `{Unicode} `{Aead}.

Definition totp_row (secret : string) (enabled : bool) (now : time) (u : User) : User :=
  u <| user_TOTPSecret := secret |> <| user_TOTPEnabled := enabled |>
    <| user_TokenVersion := user_TokenVersion u
         + (if bool_decide (user_TOTPEnabled u = enabled) then 0 else 1) |>
    <| user_UpdatedAt := millis now |>.

Lemma SetUserTOTP_spec {F} id secret enabled now d h :
  users_ok d →
  wp F (SetUserTOTP id secret enabled now)
    (λ r d' _, match r with
               | Ok u => ∃ u0, u0 ∈ t_users d ∧ user_ID u0 = id ∧ u = scanUser (totp_row secret enabled now u0)
                   ∧ d' = write t_users (update_where (λ u, user_ID u = id) (totp_row secret enabled now) (t_users d)) d
               | Err e => d' = d ∧ (F = true ∨ ∀ u, u ∈ t_users d → user_ID u ≠ id)
               end) d h.
Proof.
  intros [Hid Hname]. unfold SetUserTOTP, update_user. wp_go.
  - by split; [|left].
  - by split; [|right].
  - eexists. split_and!; [exact Hr|done|done|done].
  - exfalso. refute_constraint. unfold tbl_ok; cbn. subst. split; cbn; by rewrite fmap_update_where.
Qed.

Lemma insert_codes {F} id hashes now d h :
  mfa_recovery_codes_ok d →
  wp F (for_each (λ hash, sql_insert t_mfa_recovery_codes (mkRecoveryCode id hash (millis now))) hashes)
    (λ r d' _, ∃ t, d' = write t_mfa_recovery_codes t d
       ∧ (is_ok r = true → mfa_recovery_codes_ok d'
            ∧ t = t_mfa_recovery_codes d ++ ((λ hash, mkRecoveryCode id hash (millis now)) <$> hashes))) d h.
Proof.
  revert d h. induction hashes as [|hash hashes IH]; intros d h Hok; cbn [for_each].
  { apply wp_ret. exists (t_mfa_recovery_codes d). split; [by destruct d|]. intros _.
    by rewrite app_nil_r. }
  wp_go; try (eexists (t_mfa_recovery_codes d); by split; [by destruct d|]).
  eapply wp_mono; [by apply IH|]. intros r d' h' (t & -> & Ht). exists t. split; [by subst|].
  intros Hr. destruct (Ht Hr) as [? ->]. split; [done|]. read_tables. by rewrite <-app_assoc.
Qed.

(** The codes of a user after they were replaced. *)
Lemma ReplaceMFARecoveryCodes_spec {F} id hashes now d h :
  mfa_recovery_codes_ok d →
  wp F (ReplaceMFARecoveryCodes id hashes now)
    (λ r d' _, (∃ t, d' = write t_mfa_recovery_codes t d)
               ∧ (is_ok r = true → mfa_recovery_codes_ok d'
                    ∧ ∀ hash, hash ∈ hashes → mkRecoveryCode id hash (millis now) ∈ t_mfa_recovery_codes d')) d h.
Proof.
  intros [Hnd Href].
  assert (Hd : ∃ t, d = write t_mfa_recovery_codes t d) by (exists (t_mfa_recovery_codes d); by destruct d).
  unfold ReplaceMFARecoveryCodes. wp_go; try exact Hd.
  eapply wp_mono.
  { apply insert_codes. split; read_tables; [by apply NoDup_fmap_delete_where|].
    subst. apply Forall_forall. intros c [Hc _]%elem_of_delete_where.
    unfold references in Href. rewrite Forall_forall in Href. by apply Href. }
  intros [[]|e] d' h' (t & Hd' & Ht); [|by split].
  destruct (Ht eq_refl) as [Hok Htt]. split; [|by split]. split; [by eexists; rewrite Hd', Ed|].
  intros _. split; [done|]. intros hash Hh. rewrite Hd', Htt. cbn. apply elem_of_app. right.
  by apply (list_elem_of_fmap_2 (λ hash, mkRecoveryCode id hash (millis now))).
Qed.

Lemma recovery_codes_users_kept d d' t :
  d' = write t_users t d → user_ID <$> t = user_ID <$> t_users d →
  mfa_recovery_codes_ok d → mfa_recovery_codes_ok d'.
Proof.
  intros -> Hids [Hnd Href]. split; [done|]. unfold references in *. cbn. by rewrite Hids.
Qed.

Lemma Begin_spec {F} s user r now d h :
  users_ok d → mfa_recovery_codes_ok d →
  wp F (Begin s user r now) (λ res d' _, ∀ e, res = Ok e →
    ∃ raw encrypted raws u0,
      rand_secret r = Some raw ∧ encrypt s (rand_nonce r) (base32_encode raw) = Ok encrypted
      ∧ mapM (rand_code r) (seq 0 10) = Some raws
      ∧ enrollment_Secret e = base32_encode raw ∧ enrollment_RecoveryCodes e = recovery_code <$> raws
      ∧ (u0 ∈ t_users d ∧ user_ID u0 = user_ID user ∧ totp_row encrypted false now u0 ∈ t_users d')
      ∧ users_ok d' ∧ mfa_recovery_codes_ok d'
      ∧ ∀ code, code ∈ enrollment_RecoveryCodes e →
          mkRecoveryCode (user_ID user) (recoveryHash s code) (millis now) ∈ t_mfa_recovery_codes d') d h.
Proof.
  intros Hu Hc. unfold Begin.
  apply wp_bind, wp_lift. destruct (rand_secret r) as [raw|]; cbn [of_option]; [|done].
  apply wp_bind, wp_lift. destruct (encrypt _ _ _) as [encrypted|] eqn:Henc; [|done].
  apply wp_bind. eapply wp_mono; [by apply SetUserTOTP_spec|].
  intros [u|] d1 h1; [|done]. intros (u0 & Hu0 & Hid & -> & Hd1).
  apply wp_bind, wp_lift. unfold generateRecoveryCodes. destruct (mapM _ _) as [raws|] eqn:Hraws; [|done].
  apply wp_bind. eapply wp_mono.
  { apply ReplaceMFARecoveryCodes_spec. eapply recovery_codes_users_kept; [exact Hd1| |done].
    by rewrite fmap_update_where. }
  intros [[]|] d2 h2; [|done]. intros [(t & Hd2) [Hok Hrows]%(λ f, f eq_refl)]. cbn in Hrows. apply wp_ret.
  intros e [= <-]. cbn [enrollment_Secret enrollment_RecoveryCodes].
  exists raw, encrypted, raws, u0. split_and!; try done.
  - read_tables. apply elem_of_update_where. exists u0. by rewrite decide_True.
  - destruct Hu as [Hu1 Hu2]. split; read_tables; by rewrite fmap_update_where.
  - intros code Hcode. apply Hrows. by apply list_elem_of_fmap_2.
Qed.

Lemma Verify_spec {F} s u code now d h :
  mfa_recovery_codes_ok d →
  let row := λ c, code_UserID c = user_ID u ∧ code_Hash c = recoveryHash s code in
  wp F (Verify s u code now) (λ r d' _,
    if negb (user_TOTPEnabled u) then r = Ok (negb (Required s u), false) ∧ d' = d
    else if valid_code s u code now then r = Ok (true, false) ∧ d' = d
    else match r with
         | Ok (b, used) => used = b ∧ (b = true ↔ ∃ c, c ∈ t_mfa_recovery_codes d ∧ row c)
                           ∧ d' = write t_mfa_recovery_codes (delete_where row (t_mfa_recovery_codes d)) d
         | Err _ => F = true ∧ d' = d
         end) d h.
Proof.
  intros [Hnd _] row. unfold Verify. destruct (user_TOTPEnabled u); cbn [negb]; [|by wp_go].
  destruct (valid_code s u code now); [by wp_go|]. unfold ConsumeMFARecoveryCode. wp_go; [done|].
  split_and!; [done| |done]. rewrite Z.eqb_eq. split.
  - intros Hone. eapply count_where_ex; [exact Hone|done].
  - intros (c & Hc & HP). eapply count_where_unique; [exact Hnd|exact Hc|exact HP|].
    intros c' [? ?]. destruct HP. cbn. congruence.
Qed.

(** A recovery code in the table is accepted once. *)
Lemma recovery_code_once s u code now now_row w :
  mfa_recovery_codes_ok (w_db w) → w_faults w = [] → user_TOTPEnabled u = true →
  valid_code s u code now = false →
  mkRecoveryCode (user_ID u) (recoveryHash s code) now_row ∈ t_mfa_recovery_codes (w_db w) →
  let '(r1, w1) := Verify s u code now w in
  r1 = Ok (true, true) ∧ (Verify s u code now w1).1 = Ok (false, false).
Proof.
  intros Hok Hf Hen Hnv Hrow.
  destruct (wp_run_faults (F:=false) _ _ w Hf (Verify_spec s u code now _ (w_hub w) Hok)) as [HV Hf1].
  rewrite Hnv, Hen in HV. cbn [negb] in HV.
  destruct (Verify s u code now w) as [[[b used]|err] w1]; cbn [fst snd] in *; [|by destruct HV].
  destruct HV as (-> & Hb & Hd).
  assert (b = true) as -> by (apply Hb; eexists; split; [exact Hrow|by split]). split; [done|].
  assert (Hok1 : mfa_recovery_codes_ok (w_db w1)).
  { rewrite Hd. destruct Hok as [Hnd Href]. split; cbn; [by apply NoDup_fmap_delete_where|].
    unfold references in *. rewrite Forall_forall in *. intros c [Hc _]%elem_of_delete_where. by apply Href. }
  pose proof (wp_run (F:=false) _ _ w1 Hf1 (Verify_spec s u code now _ (w_hub w1) Hok1)) as HV.
  rewrite Hnv, Hen in HV. cbn [negb] in HV.
  destruct (Verify s u code now w1).1 as [[b2 used2]|err2]; [|by destruct HV].
  destruct HV as (-> & Hb2 & _). destruct b2; [|done]. exfalso.
  destruct Hb2 as [(c & Hc & HP) _]; [done|]. rewrite Hd in Hc. by apply elem_of_delete_where in Hc as [??].
Qed.

(** enrolling a second factor works: the account that Begin wrote is
    confirmed by a code the user's device shows, from then on the codes of the
    device are accepted, and each of the recovery codes handed out is accepted
    exactly once. *)
Theorem enrollment_roundtrip s user r now w e w1 :
  users_ok (w_db w) → mfa_recovery_codes_ok (w_db w) →
  (∀ nonce, rand_nonce r = Some nonce → length nonce = NonceSize) →
  (∀ i raw, rand_code r i = Some raw → length raw = 7%nat) →
  Begin s user r now w = (Ok e, w1) →
  ∃ u, u ∈ t_users (w_db w1) ∧ user_ID u = user_ID user ∧ user_TOTPEnabled u = false ∧
  ∀ t code now', Code (enrollment_Secret e) t = Ok code →
    time_step now' - 1 ≤ time_step t ≤ time_step now' + 1 → w_faults w1 = [] →
  ∃ u' w2, Confirm s (scanUser u) code now' w1 = (Ok u', w2)
    ∧ user_TOTPEnabled u' = true ∧ user_TokenVersion u < user_TokenVersion u'
    ∧ (∀ t code now', Code (enrollment_Secret e) t = Ok code →
         time_step now' - 1 ≤ time_step t ≤ time_step now' + 1 →
         Verify s u' code now' w2 = (Ok (true, false), w2))
    ∧ ∀ rc now', rc ∈ enrollment_RecoveryCodes e →
        let '(r1, w3) := Verify s u' rc now' w2 in
        r1 = Ok (true, true) ∧ (Verify s u' rc now' w3).1 = Ok (false, false).
Proof.
  intros Hu Hc Hnonce Hraw Hrun.
  pose proof (wp_run (F:=true) _ _ w I (Begin_spec s user r now _ (w_hub w) Hu Hc)) as HB.
  rewrite Hrun in HB. destruct (HB e eq_refl)
    as (raw & encrypted & raws & u0 & Hr & Henc & Hraws & Hsec & Hcodes & (Hu0 & Hid & Hu1) & Huok & Hcok & Hrows).
  clear HB Hrun. cbn [fst snd] in *. exists (totp_row encrypted false now u0). split_and!; [done..|].
  assert (Hdec : decrypt s encrypted = Ok (enrollment_Secret e)).
  { destruct (rand_nonce r) as [nonce|] eqn:Hn; [|done]. rewrite Hsec. eapply decrypt_encrypt; [|exact Henc]. auto. }
  assert (Hvalid : ∀ t code now' u, user_TOTPSecret u = encrypted → Code (enrollment_Secret e) t = Ok code →
            time_step now' - 1 ≤ time_step t ≤ time_step now' + 1 → valid_code s u code now' = true).
  { intros t code now' u Hs Hcode Ht. unfold valid_code. rewrite Hs, Hdec. by eapply Code_accepted. }
  intros t code now' Hcode Ht Hf.
  unfold Confirm. rewrite (Hvalid t code now' (scanUser _)) by done. cbn [negb].
  set (u1 := totp_row encrypted false now u0) in *.
  destruct (wp_run_faults (F:=false) _ _ w1 Hf
    (SetUserTOTP_spec (user_ID u1) encrypted true now' _ (w_hub w1) Huok)) as [HC Hf2].
  change (user_ID (scanUser u1)) with (user_ID u1). change (user_TOTPSecret (scanUser u1)) with encrypted.
  destruct (SetUserTOTP (user_ID u1) encrypted true now' w1) as [[u'|err] w2]; cbn [fst snd] in *;
    [|destruct HC as [_ [?|Hno]]; [done|by destruct (Hno u1)]].
  destruct HC as (u2 & Hu2 & Hid2 & -> & Hd2).
  assert (u2 = u1) as -> by (eapply (unique_row user_ID); [apply Huok|done..]).
  eexists _, w2. split_and!; [done|done| | |].
  - change (user_TokenVersion u1 < user_TokenVersion u1 + 1). lia.
  - intros t2 code2 now2 Hcode2 Ht2. unfold Verify. cbn [user_TOTPEnabled scanUser].
    change (user_TOTPEnabled (scanUser (totp_row encrypted true now' u1))) with true. cbn [negb].
    by rewrite (Hvalid t2 code2 now2 (scanUser (totp_row encrypted true now' u1)) eq_refl Hcode2 Ht2).
  - intros rc now2 Hrc. set (u' := scanUser _).
    assert (Hcok2 : mfa_recovery_codes_ok (w_db w2)).
    { eapply recovery_codes_users_kept; [exact Hd2| |exact Hcok]. by rewrite fmap_update_where. }
    assert (Hnv : valid_code s u' rc now2 = false).
    { rewrite Hcodes in Hrc. apply list_elem_of_fmap in Hrc as (rw & -> & Hrw).
      unfold valid_code. change (user_TOTPSecret u') with encrypted. rewrite Hdec.
      apply recovery_code_not_totp. apply mapM_Some in Hraws.
      apply list_elem_of_lookup in Hrw as [i Hi].
      destruct (Forall2_lookup_r _ _ _ _ _ Hraws Hi) as (j & _ & Hj). eauto. }
    apply (recovery_code_once s u' rc now2 (millis now)); try done. read_tables.
    change (user_ID u') with (user_ID u0). rewrite Hid. by apply Hrows.
Qed.
End Enrollment.

(** ** A concrete enrollment: the secret and the first test vector of RFC 6238 *)

#[local] Program Instance ex_aead : Aead := {|
  Seal := λ key nonce plain, plain;
  Open := λ key nonce box, Some box
|}.
Next Obligation. done. Qed.

Definition ex_mfa : Service := mkService (bytes_of "key") (bytes_of "recovery") ModeAll "RCS".
Definition ex_random : Random := mkRandom (Some (bytes_of "12345678901234567890"))
  (Some (replicate 12 Ascii.zero)) (λ i, Some (replicate 7 (ascii_of (Z.of_nat i)))).
Abbreviation ex_enrollment := (Begin (H:=ascii_unicode) ex_mfa (ex_user "u1" "alice" RoleUser) ex_random 0 ex_world).
Definition ex_secret : string := base32_encode (bytes_of "12345678901234567890").

Lemma ex_enrollment_runs :
  res_map enrollment_Secret ex_enrollment.1 = Ok ex_secret ∧ w_faults ex_enrollment.2 = [].
Proof. split; vm_compute; reflexivity. Qed.

Example rfc6238_code : Code (H:=ascii_unicode) ex_secret (59 * second) = Ok "287082".
Proof. vm_compute. reflexivity. Qed.

Lemma enrollment_roundtrip_witness :
  ∃ u u' w2, user_ID u = "u1"
    ∧ Confirm (H:=ascii_unicode) ex_mfa (scanUser u) "287082" (59 * second) ex_enrollment.2 = (Ok u', w2)
    ∧ user_TOTPEnabled u' = true.
Proof.
  destruct ex_enrollment_runs as [Hsec Hf].
  destruct (Begin _ _ _ _ _) as [[e|err] w1] eqn:Hrun; [|done]. injection Hsec as Hsec. cbn [snd] in *.
  destruct (enrollment_roundtrip (H:=ascii_unicode) ex_mfa (ex_user "u1" "alice" RoleUser) ex_random 0 ex_world e w1)
    as (u & _ & Hid & _ & Hconf).
  - apply (bool_decide_eq_true_1 (users_ok _)). vm_compute. reflexivity.
  - apply (bool_decide_eq_true_1 (mfa_recovery_codes_ok _)). vm_compute. reflexivity.
  - by intros nonce [= <-].
  - by intros i raw [= <-].
  - exact Hrun.
  - destruct (Hconf (59 * second) "287082" (59 * second)) as (u' & w2 & Hc & Hen & _); [|lia|done|].
    { rewrite Hsec. exact rfc6238_code. }
    exists u, u', w2. by split_and!.
Defined.
