(* ===== verification/Sessions.v ===== *)
(** * Sessions and one-time credentials: theorems

    Revocation is final in every history; challenges, OIDC results and recovery
    codes are used once; the session explorer counts and labels what the
    authorization check sees. *)

From S2P Require Export StoreSessions.
From S2P Require Import Sample.

Section Sessions.
Context `{Unicode} `{SqlText}.

(** ** Histories of session operations *)

Inductive session_op :=
| OpAccount (op : account_op)
| OpCreateSession (s : Session)
| OpTouchSession (id : string) (at_ : time)
| OpRevokeSession (id : string) (at_ : time)
| OpRevokeUserSessions (userID : string) (at_ : time).

Definition run_session_op (op : session_op) : M unit :=
  match op with
  | OpAccount op => run_account_op op
  | OpCreateSession s => CreateSession s
  | OpTouchSession id at_ => TouchSession id at_
  | OpRevokeSession id at_ => discard (RevokeSession id at_)
  | OpRevokeUserSessions id at_ => RevokeUserSessions id at_
  end.

Definition run_session_ops (ops : list session_op) (w : world) : world :=
  foldl (λ w op, snd (run_session_op op w)) w ops.

(** A row keeps its account and its lifetime; a revocation keeps its time. *)
Definition session_step (s s' : Session) : Prop :=
  session_ID s = session_ID s' ∧ session_UserID s = session_UserID s'
  ∧ session_ExpiresAt s = session_ExpiresAt s'
  ∧ (session_RevokedAt s ≠ None → session_RevokedAt s' = session_RevokedAt s).

Definition session_mono (d d' : DB) : Prop :=
  evolves session_ID session_step (t_sessions d) (t_sessions d').

Lemma session_step_refl s : session_step s s.
Proof. by split_and!. Qed.

Lemma session_mono_insert d d' r :
  t_sessions d' = t_sessions d ++ [r] → sessions_ok d' → session_mono d d'.
Proof.
  unfold session_mono. intros Heq [Hok _]. rewrite Heq in *.
  apply evolves_insert; [exact session_step_refl|done].
Qed.

Ltac session_leaf :=
  first
    [ eapply session_mono_insert; [by read_tables|assumption]
    | unfold session_mono; read_tables;
      first
        [ apply evolves_refl; exact session_step_refl
        | apply evolves_delete; exact session_step_refl
        | apply evolves_update;
          [exact session_step_refl|unfold session_step; naive_solver] ] ].

Lemma session_op_mono op d h : wp true (run_session_op op) (λ _ d' _, session_mono d d') d h.
Proof.
  destruct op as [op|s|id at_|id at_|id at_]; [destruct op|..];
    cbn [run_session_op run_account_op];
    unfold CreateUser, CreateRegisteredUser, SetUserEnabled, SetUserApproval, ForceRelogin,
      UpdateUserPassword, UpdateUser, DeleteUser, UpdateLastLogin, SetUserTOTP,
      CreateRole, UpdateRole, DeleteRole, CreateGroup, UpdateGroup, DeleteGroup, SetUserGroupMember,
      CreateSession, TouchSession, RevokeSession, RevokeUserSessions;
    wp_go; session_leaf.
Qed.

Lemma session_op_ok op d h : accounts_ok d → wp true (run_session_op op) (λ _ d' _, accounts_ok d') d h.
Proof.
  intros Hok. destruct op as [op|s|id at_|id at_|id at_]; cbn [run_session_op].
  { by apply account_op_ok. }
  all: unfold CreateSession, TouchSession, RevokeSession, RevokeUserSessions; wp_go; try assumption;
    revert Hok; schema_auto unfold_accounts_ok.
Qed.

Lemma session_op_inv (op : session_op) w :
  accounts_ok (w_db w) →
  accounts_ok (w_db (run_session_op op w).2) ∧ session_mono (w_db w) (w_db (run_session_op op w).2).
Proof.
  intros Hok. split.
  - apply (wp_run (F:=true) (λ _ d' _, accounts_ok d') (run_session_op op) w I). by apply session_op_ok.
  - apply (wp_post (λ _ d d', session_mono d d')). intros. apply session_op_mono.
Qed.

(** A history that does not create a session with the given ID again. *)
Definition never_creates (id : string) (ops : list session_op) : Prop :=
  Forall (λ op, match op with OpCreateSession s => session_ID s ≠ id | _ => True end) ops.

Lemma created_sessions op d h :
  wp true (run_session_op op)
    (λ _ d' _, ∀ s', s' ∈ t_sessions d' →
       session_ID s' ∈ session_ID <$> t_sessions d
       ∨ match op with OpCreateSession s => session_ID s' = session_ID s | _ => False end) d h.
Proof.
  destruct op as [op|s|id at_|id at_|id at_]; [destruct op|..];
    cbn [run_session_op run_account_op];
    unfold CreateUser, CreateRegisteredUser, SetUserEnabled, SetUserApproval, ForceRelogin,
      UpdateUserPassword, UpdateUser, DeleteUser, UpdateLastLogin, SetUserTOTP,
      CreateRole, UpdateRole, DeleteRole, CreateGroup, UpdateGroup, DeleteGroup, SetUserGroupMember,
      CreateSession, TouchSession, RevokeSession, RevokeUserSessions;
    wp_go; intros s'; read_tables;
    rewrite ?elem_of_delete_where, ?elem_of_update_where, ?elem_of_app, ?list_elem_of_singleton.
  all: first [ intros (s0 & Hs0 & ->); left; destruct (decide _); by apply (list_elem_of_fmap_2 session_ID _ s0)
             | intros [?| ->]; [left; by apply list_elem_of_fmap_2|by right]
             | intros [? _]; left; by apply list_elem_of_fmap_2
             | intros ?; left; by apply list_elem_of_fmap_2 ].
Qed.

(** C23: revocation is final: in every history of session and account operations
    in which no session is created with that identifier again, and whatever
    statements fail, a revoked session stays revoked at its original time (or is
    gone with its account). *)
Theorem revoked_session_stays_revoked ops w id at_ :
  accounts_ok (w_db w) → never_creates id ops →
  (∃ s, s ∈ t_sessions (w_db w) ∧ session_ID s = id ∧ session_RevokedAt s = Some at_) →
  ∀ s', s' ∈ t_sessions (w_db (run_session_ops ops w)) → session_ID s' = id →
        session_RevokedAt s' = Some at_.
Proof.
  intros Hok Hnew (s & Hs & Hid & Hrev).
  assert (Hall : ∀ s', s' ∈ t_sessions (w_db w) → session_ID s' = id → session_RevokedAt s' = Some at_).
  { intros s' Hs' Hid'. assert (s' = s) as ->; [|done].
    eapply (unique_row session_ID); [apply Hok|done..|congruence]. }
  clear s Hs Hid Hrev. revert w Hok Hall. induction Hnew as [|op ops Hop _ IH]; intros w Hok Hall; [done|].
  cbn. destruct (session_op_inv op w Hok) as [Hok' Hmono]. apply IH; [done|].
  intros s' Hs' Hid'. destruct (Hmono s' Hs') as [(s & Hs & Hstep)|Hfresh].
  - destruct Hstep as (Hsid & _ & _ & Hkeep).
    assert (Hr : session_RevokedAt s = Some at_) by (apply Hall; congruence).
    rewrite Hkeep by (by rewrite Hr). done.
  - destruct (wp_post (λ _ d d', ∀ s', s' ∈ t_sessions d' → _) _ w (created_sessions op) s' Hs')
      as [?|Hc]; [done|]. destruct op; try done. congruence.
Qed.

(** ** One-time credentials *)

Definition no_challenge (id : string) (d : DB) : Prop :=
  ∀ c, c ∈ t_auth_challenges d → challenge_ID c ≠ id.
Definition no_request (pollCode : string) (d : DB) : Prop :=
  ∀ r, r ∈ t_oidc_auth_requests d → oidcreq_PollCode r ≠ pollCode.
Definition no_code (userID hash : string) (d : DB) : Prop :=
  ∀ c, c ∈ t_mfa_recovery_codes d → ¬ (code_UserID c = userID ∧ code_Hash c = hash).

(** Deleting the one row with a key leaves no row with it. *)
Lemma taken {A K} (key : A → K) t P `{∀ x, Decision (P x)} r0 :
  NoDup (key <$> t) → r0 ∈ t → P r0 → ∀ r, r ∈ delete_where P t → key r ≠ key r0.
Proof.
  intros Hnd Hr0 HP r [Hr HnP]%elem_of_delete_where Hk. apply HnP.
  by assert (r = r0) as -> by (by eapply unique_row).
Qed.

Lemma ConsumeAuthChallenge_spec id now d h :
  auth_challenges_ok d →
  wp true (ConsumeAuthChallenge id now)
    (λ r d' _, match r with
               | Ok c => challenge_ID c = id ∧ now < challenge_ExpiresAt c ∧ no_challenge id d'
               | Err _ => d' = d
               end) d h.
Proof.
  intros [Hnd _]. unfold ConsumeAuthChallenge. wp_go; try done.
  destruct HP as [<- Hexp]. split_and!; [done|by apply UnixMilli_lt|].
  intros c. read_tables. by apply taken.
Qed.

Lemma no_challenge_fails id now d h :
  no_challenge id d →
  wp true (ConsumeAuthChallenge id now) (λ r _ _, is_ok r = false) d h
  ∧ wp true (FindAuthChallenge id now) (λ r _ _, is_ok r = false) d h.
Proof.
  intros Hno. split; unfold ConsumeAuthChallenge, FindAuthChallenge; wp_go; try done.
  - destruct (Hno r); [done|apply HP].
  - apply fmap_Some in Heqo as (c & [Hc HP]%select_one_Some & _). destruct (Hno c); [done|apply HP].
Qed.

Lemma ConsumeOIDC_spec pollCode d h :
  oidc_auth_requests_ok d →
  (∀ id uuid now, wp true (ConsumeOIDCAuthRequest pollCode id uuid now)
     (λ r d' _, match r with
                | Ok v => oidcreq_PollCode v = pollCode ∧ oidcreq_LinkUserID v = ""
                          ∧ now < oidcreq_ExpiresAt v
                          ∧ (oidcreq_UserID v ≠ "" ∨ oidcreq_Error v ≠ "") ∧ no_request pollCode d'
                | Err _ => d' = d
                end) d h)
  ∧ (∀ user now, wp true (ConsumeOIDCLinkRequest pollCode user now)
     (λ r d' _, match r with
                | Ok v => oidcreq_PollCode v = pollCode ∧ oidcreq_LinkUserID v = user
                          ∧ now < oidcreq_ExpiresAt v
                          ∧ (oidcreq_UserID v ≠ "" ∨ oidcreq_Error v ≠ "") ∧ no_request pollCode d'
                | Err _ => d' = d
                end) d h).
Proof.
  intros [_ Hnd]. split; intros; unfold ConsumeOIDCAuthRequest, ConsumeOIDCLinkRequest; wp_go; try done.
  - destruct HP as (<- & Hd & Hu & Hl & Hexp & Hres).
    split_and!; [done|done|by apply UnixMilli_lt|done|]. intros v. read_tables. by apply taken.
  - destruct HP as (<- & Hl & Hexp & Hres).
    split_and!; [done|done|by apply UnixMilli_lt|done|]. intros v. read_tables. by apply taken.
Qed.

Lemma no_request_fails pollCode d h :
  no_request pollCode d →
  (∀ id uuid now, wp true (ConsumeOIDCAuthRequest pollCode id uuid now) (λ r _ _, is_ok r = false) d h)
  ∧ (∀ user now, wp true (ConsumeOIDCLinkRequest pollCode user now) (λ r _ _, is_ok r = false) d h).
Proof.
  intros Hno. split; intros; unfold ConsumeOIDCAuthRequest, ConsumeOIDCLinkRequest; wp_go; try done;
    by destruct (Hno r); [|apply HP].
Qed.

Lemma ConsumeMFARecoveryCode_spec userID hash d h :
  wp true (ConsumeMFARecoveryCode userID hash)
    (λ r d' _, is_ok r = true → no_code userID hash d'
               ∧ (r = Ok true → ¬ no_code userID hash d)) d h.
Proof.
  unfold ConsumeMFARecoveryCode. wp_go; try done. intros _. split.
  - intros c. read_tables. rewrite elem_of_delete_where. tauto.
  - intros [= Hc] Hno. apply Z.eqb_eq in Hc. rewrite (proj2 (count_where_0 _ _)) in Hc; [done|].
    intros c Hc'. by apply Hno.
Qed.

(** *** Histories *)

(** What the handlers do with one-time credentials, among the operations on
    accounts and sessions. *)
Inductive credential_op :=
| CredSession (op : session_op)
| CredChallenge (c : AuthChallenge)
| CredTakeChallenge (id : string) (now : time)
| CredRequest (v : OIDCAuthRequest)
| CredComplete (state userID errorMessage : string)
| CredTakeResult (pollCode rustDeskID clientUUID : string) (now : time)
| CredTakeLink (pollCode userID : string) (now : time)
| CredCodes (userID : string) (hashes : list string) (now : time)
| CredUseCode (userID hash : string).

Definition run_credential_op (op : credential_op) : M unit :=
  match op with
  | CredSession op => run_session_op op
  | CredChallenge c => CreateAuthChallenge c
  | CredTakeChallenge id now => discard (ConsumeAuthChallenge id now)
  | CredRequest v => CreateOIDCAuthRequest v
  | CredComplete state user message => CompleteOIDCAuthRequest state user message
  | CredTakeResult code dev uuid now => discard (ConsumeOIDCAuthRequest code dev uuid now)
  | CredTakeLink code user now => discard (ConsumeOIDCLinkRequest code user now)
  | CredCodes user hashes now => ReplaceMFARecoveryCodes user hashes now
  | CredUseCode user hash => discard (ConsumeMFARecoveryCode user hash)
  end.

Definition run_credential_ops (ops : list credential_op) (w : world) : world :=
  foldl (λ w op, (run_credential_op op w).2) w ops.

(** The identifiers that are issued: the handlers take fresh random ones. *)
Definition issues_challenge (id : string) (op : credential_op) : Prop :=
  match op with CredChallenge c => challenge_ID c = id | _ => False end.
Definition issues_request (code : string) (op : credential_op) : Prop :=
  match op with CredRequest v => oidcreq_PollCode v = code | _ => False end.
Definition issues_code (user hash : string) (op : credential_op) : Prop :=
  match op with CredCodes u hashes _ => user = u ∧ hash ∈ hashes | _ => False end.

(** New recovery codes write that table alone, and only their own rows. *)
Lemma wp_new_codes user hashes now d h :
  wp true (for_each (λ hash, sql_insert t_mfa_recovery_codes (mkRecoveryCode user hash (millis now))) hashes)
    (λ _ d' _, t_auth_challenges d' = t_auth_challenges d ∧ t_oidc_auth_requests d' = t_oidc_auth_requests d
       ∧ ∀ c, c ∈ t_mfa_recovery_codes d' →
           c ∈ t_mfa_recovery_codes d ∨ code_UserID c = user ∧ code_Hash c ∈ hashes) d h.
Proof.
  revert d h. induction hashes as [|hash hashes IH]; intros d h; cbn [for_each].
  { apply wp_ret. split_and!; auto. }
  apply wp_bind, wp_sql_insert; [by auto|intros d1 E1 _|by auto].
  eapply wp_mono; [apply IH|]. intros r d2 h2 (C1 & C2 & C3). cbv beta.
  split_and!; [rewrite C1|rewrite C2|]; try by read_tables.
  intros c Hc. destruct (C3 c Hc) as [Hold|[Hu Hh]]; [|right; split; [done|by right]].
  revert Hold. read_tables. intros [?| ->%list_elem_of_singleton]%elem_of_app; [by left|right; split; [done|left]].
Qed.

Lemma wp_replace_codes user hashes now d h :
  wp true (ReplaceMFARecoveryCodes user hashes now)
    (λ _ d' _, t_auth_challenges d' = t_auth_challenges d ∧ t_oidc_auth_requests d' = t_oidc_auth_requests d
       ∧ ∀ c, c ∈ t_mfa_recovery_codes d' →
           c ∈ t_mfa_recovery_codes d ∨ code_UserID c = user ∧ code_Hash c ∈ hashes) d h.
Proof.
  unfold ReplaceMFARecoveryCodes. apply wp_tx; [by auto|]. apply wp_bind, wp_sql_delete; [by auto|]. intros d1 E1.
  eapply wp_mono; [apply wp_new_codes|]. intros [[]|e] d2 h2 (C1 & C2 & C3); [|by auto]. split; [|by auto].
  split_and!; [rewrite C1|rewrite C2|]; try by read_tables.
  intros c Hc. destruct (C3 c Hc) as [Hold|?]; [left|by right]. revert Hold. read_tables.
  by intros [? _]%elem_of_delete_where.
Qed.

(** Operations on accounts and sessions issue none. *)
Definition issued_before (d d' : DB) : Prop :=
  (∀ c, c ∈ t_auth_challenges d' → c ∈ t_auth_challenges d)
  ∧ (∀ r, r ∈ t_oidc_auth_requests d' → oidcreq_PollCode r ∈ oidcreq_PollCode <$> t_oidc_auth_requests d)
  ∧ (∀ c, c ∈ t_mfa_recovery_codes d' → c ∈ t_mfa_recovery_codes d).

Lemma session_op_issues_none op d h : wp true (run_session_op op) (λ _ d' _, issued_before d d') d h.
Proof.
  destruct op as [op|s|id at_|id at_|id at_]; [destruct op|..];
    cbn [run_session_op run_account_op];
    unfold CreateUser, CreateRegisteredUser, SetUserEnabled, SetUserApproval, ForceRelogin,
      UpdateUserPassword, UpdateUser, DeleteUser, UpdateLastLogin, SetUserTOTP,
      CreateRole, UpdateRole, DeleteRole, CreateGroup, UpdateGroup, DeleteGroup, SetUserGroupMember,
      CreateSession, TouchSession, RevokeSession, RevokeUserSessions;
    wp_go; split_and!; intros r'; read_tables; rewrite ?elem_of_delete_where, ?elem_of_update_where;
    first [ intros (r0 & Hr0 & ->); case_decide; by apply (list_elem_of_fmap_2 oidcreq_PollCode _ r0)
          | intros Hr'; apply list_elem_of_fmap_2; exact Hr' | tauto ].
Qed.
(** What is there was there, or the operation issues it. *)
Definition issued_by (op : credential_op) (d d' : DB) : Prop :=
  (∀ c, c ∈ t_auth_challenges d' →
     challenge_ID c ∈ challenge_ID <$> t_auth_challenges d ∨ issues_challenge (challenge_ID c) op)
  ∧ (∀ r, r ∈ t_oidc_auth_requests d' →
       oidcreq_PollCode r ∈ oidcreq_PollCode <$> t_oidc_auth_requests d ∨ issues_request (oidcreq_PollCode r) op)
  ∧ (∀ c, c ∈ t_mfa_recovery_codes d' →
       c ∈ t_mfa_recovery_codes d ∨ issues_code (code_UserID c) (code_Hash c) op).

Lemma issued_by_before op d d' : issued_before d d' → issued_by op d d'.
Proof.
  intros (H1 & H2 & H3). split_and!; intros r Hr; left; [by apply list_elem_of_fmap_2, H1|auto|auto].
Qed.

Ltac issued_leaf :=
  let x := fresh "x" in split_and!; intros x; read_tables;
  rewrite ?elem_of_app, ?elem_of_delete_where, ?elem_of_update_where, ?list_elem_of_singleton;
  first [ intros [[? _]| ->]; [left; by apply list_elem_of_fmap_2|by right]
        | intros [?| ->]; [left; by apply list_elem_of_fmap_2|by right]
        | intros (r0 & Hr0 & ->); left; case_decide; by apply (list_elem_of_fmap_2 oidcreq_PollCode _ r0)
        | intros [? _]; left; first [assumption|by apply list_elem_of_fmap_2]
        | intros ?; left; first [assumption|by apply list_elem_of_fmap_2] ].

Lemma credential_op_issued op d h : wp true (run_credential_op op) (λ _ d' _, issued_by op d d') d h.
Proof.
  destruct op as [op|c|id now|v|state user message|code dev uuid now|code user now|user hashes now|user hash];
    cbn [run_credential_op].
  - eapply wp_mono; [apply session_op_issues_none|]. intros. by apply issued_by_before.
  - unfold CreateAuthChallenge. wp_go; issued_leaf.
  - unfold ConsumeAuthChallenge. wp_go; issued_leaf.
  - unfold CreateOIDCAuthRequest. wp_go; issued_leaf.
  - unfold CompleteOIDCAuthRequest. wp_go; issued_leaf.
  - unfold ConsumeOIDCAuthRequest. wp_go; issued_leaf.
  - unfold ConsumeOIDCLinkRequest. wp_go; issued_leaf.
  - eapply wp_mono; [apply wp_replace_codes|]. intros r d' h' (E1 & E2 & E3).
    split_and!; [rewrite E1|rewrite E2|exact E3]; intros r' Hr'; left; by apply list_elem_of_fmap_2.
  - unfold ConsumeMFARecoveryCode. wp_go; issued_leaf.
Qed.

Lemma credential_ops_keep (P : DB → Prop) (issues : credential_op → Prop) ops w :
  (∀ op d d', ¬ issues op → issued_by op d d' → P d → P d') →
  Forall (λ op, ¬ issues op) ops → P (w_db w) → P (w_db (run_credential_ops ops w)).
Proof.
  intros HP Hops. revert w. induction Hops as [|op ops Hop _ IH]; intros w Hw; [done|]. apply IH.
  eapply HP; [done| |exact Hw]. apply (wp_post (λ _ d d', issued_by op d d') (run_credential_op op) w (credential_op_issued op)).
Qed.

Lemma challenge_stays_taken id ops w :
  Forall (λ op, ¬ issues_challenge id op) ops → no_challenge id (w_db w) → no_challenge id (w_db (run_credential_ops ops w)).
Proof.
  apply credential_ops_keep. intros op d d' Hi (H1 & _) Hno c Hc <-.
  destruct (H1 c Hc) as [(c0 & Heq & Hc0)%list_elem_of_fmap|?]; [|done]. by apply (Hno c0 Hc0).
Qed.

Lemma request_stays_taken code ops w :
  Forall (λ op, ¬ issues_request code op) ops → no_request code (w_db w) → no_request code (w_db (run_credential_ops ops w)).
Proof.
  apply credential_ops_keep. intros op d d' Hi (_ & H2 & _) Hno r Hr <-.
  destruct (H2 r Hr) as [(r0 & Heq & Hr0)%list_elem_of_fmap|?]; [|done]. by apply (Hno r0 Hr0).
Qed.

Lemma code_stays_used user hash ops w :
  Forall (λ op, ¬ issues_code user hash op) ops → no_code user hash (w_db w) → no_code user hash (w_db (run_credential_ops ops w)).
Proof.
  apply credential_ops_keep. intros op d d' Hi (_ & _ & H3) Hno c Hc [<- <-].
  destruct (H3 c Hc) as [Hc0|?]; [|done]. by apply (Hno c Hc0).
Qed.

(** Refused from any device, at any time, whatever statements fail. *)
Definition challenge_refused (id : string) (d : DB) : Prop :=
  ∀ now w, w_db w = d → is_ok (ConsumeAuthChallenge id now w).1 = false ∧ is_ok (FindAuthChallenge id now w).1 = false.
Definition request_refused (code : string) (d : DB) : Prop :=
  ∀ w, w_db w = d →
    (∀ dev uuid now, is_ok (ConsumeOIDCAuthRequest code dev uuid now w).1 = false)
    ∧ (∀ user now, is_ok (ConsumeOIDCLinkRequest code user now w).1 = false).
Definition code_refused (user hash : string) (d : DB) : Prop :=
  ∀ w, w_db w = d → (ConsumeMFARecoveryCode user hash w).1 ≠ Ok true.

Lemma no_challenge_refused id d : no_challenge id d → challenge_refused id d.
Proof.
  intros Hno now w Hd. destruct (no_challenge_fails id now (w_db w) (w_hub w)) as [Hx1 Hx2]; [by rewrite Hd|].
  split; [exact (wp_run (F:=true) _ _ w I Hx1)|exact (wp_run (F:=true) _ _ w I Hx2)].
Qed.
Lemma no_request_refused code d : no_request code d → request_refused code d.
Proof.
  intros Hno w Hd. destruct (no_request_fails code (w_db w) (w_hub w)) as [Hx1 Hx2]; [by rewrite Hd|].
  split; intros; [exact (wp_run (F:=true) _ _ w I (Hx1 _ _ _))|exact (wp_run (F:=true) _ _ w I (Hx2 _ _))].
Qed.
Lemma no_code_refused user hash d : no_code user hash d → code_refused user hash d.
Proof.
  intros Hno w Hd Htrue. pose proof (wp_run (F:=true) _ _ w I (ConsumeMFARecoveryCode_spec user hash _ (w_hub w))) as Hs.
  rewrite Htrue in Hs. destruct (Hs eq_refl) as [_ Hex]. apply Hex; [done|]. by rewrite Hd.
Qed.

(** C24: a second-factor challenge, a completed OIDC result (of a sign-in or of a
    link) and a recovery code are each used at most once.  The call that takes one
    finds it unexpired (a challenge, a result) and for the right purpose; after it,
    in every history of operations on accounts, sessions and these credentials
    that does not issue the same identifier again, and whatever statements fail,
    every later attempt to take it is refused, from any device, at any time. *)
Theorem one_time_credentials w :
  accounts_ok (w_db w) →
  (∀ id now c w' ops, ConsumeAuthChallenge id now w = (Ok c, w') → Forall (λ op, ¬ issues_challenge id op) ops →
     challenge_ID c = id ∧ now < challenge_ExpiresAt c
     ∧ challenge_refused id (w_db (run_credential_ops ops w')))
  ∧ (∀ code dev uuid now v w' ops, ConsumeOIDCAuthRequest code dev uuid now w = (Ok v, w') →
     Forall (λ op, ¬ issues_request code op) ops →
     oidcreq_PollCode v = code ∧ oidcreq_LinkUserID v = "" ∧ now < oidcreq_ExpiresAt v
     ∧ request_refused code (w_db (run_credential_ops ops w')))
  ∧ (∀ code user now v w' ops, ConsumeOIDCLinkRequest code user now w = (Ok v, w') →
     Forall (λ op, ¬ issues_request code op) ops →
     oidcreq_PollCode v = code ∧ oidcreq_LinkUserID v = user ∧ now < oidcreq_ExpiresAt v
     ∧ request_refused code (w_db (run_credential_ops ops w')))
  ∧ (∀ user hash w' ops, ConsumeMFARecoveryCode user hash w = (Ok true, w') →
     Forall (λ op, ¬ issues_code user hash op) ops →
     code_refused user hash (w_db (run_credential_ops ops w'))).
Proof.
  intros ((_ & _ & Hch & _) & (_ & _ & _ & _ & Hreq & _) & _). split_and!.
  - intros id now c w' ops Hrun Hops.
    pose proof (wp_run (F:=true) _ _ w I (ConsumeAuthChallenge_spec id now _ (w_hub w) Hch)) as Hs.
    rewrite Hrun in Hs. cbn in Hs. destruct Hs as (? & ? & Hno). split_and!; [done..|].
    by apply no_challenge_refused, challenge_stays_taken.
  - intros code dev uuid now v w' ops Hrun Hops. destruct (ConsumeOIDC_spec code _ (w_hub w) Hreq) as [Hs _].
    specialize (Hs dev uuid now). apply (wp_run (F:=true) _ _ w I) in Hs.
    rewrite Hrun in Hs. cbn in Hs. destruct Hs as (? & ? & ? & ? & Hno). split_and!; [done..|].
    by apply no_request_refused, request_stays_taken.
  - intros code user now v w' ops Hrun Hops. destruct (ConsumeOIDC_spec code _ (w_hub w) Hreq) as [_ Hs].
    specialize (Hs user now). apply (wp_run (F:=true) _ _ w I) in Hs.
    rewrite Hrun in Hs. cbn in Hs. destruct Hs as (? & ? & ? & ? & Hno). split_and!; [done..|].
    by apply no_request_refused, request_stays_taken.
  - intros user hash w' ops Hrun Hops.
    pose proof (wp_run (F:=true) _ _ w I (ConsumeMFARecoveryCode_spec user hash _ (w_hub w))) as Hs.
    rewrite Hrun in Hs. destruct (Hs eq_refl) as [Hno _]. by apply no_code_refused, code_stays_used.
Qed.

(** ** The session explorer *)

Lemma elem_of_limit_offset {A} n m (l : list A) x : x ∈ limit_offset n m l → x ∈ l.
Proof.
  unfold limit_offset. intros Hx%(subseteq_take _ _ x). by apply subseteq_drop in Hx.
Qed.

Lemma elem_of_session_rows q d p :
  p ∈ session_rows q d ↔
  sessionWhere q p.1 p.2 = true ∧ p.1 ∈ t_sessions d ∧ p.2 ∈ t_users d
  ∧ user_ID p.2 = session_UserID p.1.
Proof.
  unfold session_rows. rewrite list_elem_of_filter, Is_true_true, list_elem_of_bind.
  setoid_rewrite list_elem_of_fmap. setoid_rewrite list_elem_of_filter.
  destruct p as [s u]. cbn. naive_solver.
Qed.

(** The label computed in Go from [time.Time] is the condition of the SQL clause
    on milliseconds. *)
Lemma session_status_where q s u :
  sessionWhere q s u = true → squery_Status q ∈ ["active"; "revoked"; "expired"] →
  session_status (squery_Now q) s = squery_Status q.
Proof.
  unfold sessionWhere, session_status, millis, fromMillis. intros Hw Hst.
  apply andb_true_iff in Hw as [[Hw _]%andb_true_iff _]. revert Hw.
  pose proof (UnixMilli_lt (squery_Now q) (session_ExpiresAt s)) as Hlt.
  rewrite !elem_of_cons, elem_of_nil in Hst.
  destruct Hst as [Hst|[Hst|[Hst|[]]]]; rewrite Hst; cbn;
    destruct (bool_decide_reflect (session_RevokedAt s = None)) as [Hr|Hr]; cbn; try done.
  - intros Hexp%Z.ltb_lt. apply Hlt, Z.ltb_lt in Hexp. by rewrite Hexp.
  - intros Hexp%Z.leb_le. destruct (Z.ltb_spec (squery_Now q) (fromUnixMilli (session_ExpiresAt s)));
      [lia|done].
Qed.

(** A listed session is a stored one of an existing account. *)
Definition listed (d : DB) (now : time) (r : SessionRecord) : Prop :=
  ∃ s u, s ∈ t_sessions d ∧ u ∈ t_users d ∧ user_ID u = session_UserID s
         ∧ r = session_record now (s, u).

Lemma QuerySessions_spec q clock d h :
  wp true (QuerySessions q clock)
    (λ r d' _, d' = d ∧ match r with
       | Ok page =>
           let q' := session_query_defaults q clock in
           spage_Total page = Z.of_nat (length (session_rows q' d))
           ∧ spage_Sessions page = session_record (squery_Now q') <$>
               limit_offset (spage_Limit page) (spage_Offset page)
                 (SliceStable session_order (session_rows q' d))
           ∧ spage_Limit page = squery_Limit q' ∧ spage_Offset page = squery_Offset q'
       | Err _ => True
       end) d h.
Proof. unfold QuerySessions. wp_go; done. Qed.

Lemma session_query_defaults_status q clock :
  squery_Status (session_query_defaults q clock) = squery_Status q
  ∧ (squery_Now q ≠ zero_time → squery_Now (session_query_defaults q clock) = squery_Now q)
  ∧ 1 ≤ squery_Limit (session_query_defaults q clock) ≤ 500.
Proof.
  destruct q as [limit offset st user search now]. unfold session_query_defaults. cbn.
  destruct ((limit <? 1) || (500 <? limit)) eqn:Hl; cbn;
    [|rewrite orb_false_iff, !Z.ltb_ge in Hl];
    destruct ((offset <? 0) || (10000000 <? offset)); cbn;
    destruct (Z.eqb_spec now zero_time); cbn; split_and!; (done || lia).
Qed.

(** a page of the session explorer filtered by a status holds only stored
    sessions of existing accounts, at most 500, and each carries exactly that
    status: the label computed from times agrees with the SQL condition computed
    from milliseconds. *)
Theorem QuerySessions_labels q clock w page w' :
  QuerySessions q clock w = (Ok page, w') → squery_Now q ≠ zero_time →
  (length (spage_Sessions page) ≤ 500)%nat
  ∧ ∀ r, r ∈ spage_Sessions page →
      listed (w_db w) (squery_Now q) r
      ∧ (squery_Status q ∈ ["active"; "revoked"; "expired"] → srecord_Status r = squery_Status q).
Proof.
  intros Hrun Hnow.
  pose proof (wp_run (F:=true) _ _ w I (QuerySessions_spec q clock _ (w_hub w))) as [_ Hs].
  rewrite Hrun in Hs. cbn in Hs. destruct Hs as (_ & -> & Hlim & _).
  destruct (session_query_defaults_status q clock) as (Hst & Hnow' & Hl).
  specialize (Hnow' Hnow). rewrite Hnow', Hlim. split.
  - rewrite length_fmap. unfold limit_offset. rewrite length_take. lia.
  - intros r (p & -> & Hp)%list_elem_of_fmap. apply elem_of_limit_offset in Hp.
    rewrite elem_of_SliceStable, elem_of_session_rows in Hp. destruct p as [s u]. cbn in Hp.
    destruct Hp as (Hw & Hs & Hu & Hid). split; [by exists s, u|]. intros Hin.
    cbn. rewrite <- Hst, <- Hnow'. eapply session_status_where; [done|]. by rewrite Hst.
Qed.

Lemma session_Active_scan s now :
  session_Active (scanSession s) now = true
  ↔ session_RevokedAt s = None ∧ millis now < session_ExpiresAt s.
Proof.
  unfold session_Active, scanSession, millis, fromMillis. cbn.
  rewrite andb_true_iff, bool_decide_eq_true, Z.ltb_lt, UnixMilli_lt, fmap_None. done.
Qed.

(** in the session summary every session is counted once: the total is the
    sum of the active, revoked and expired sessions, and the active ones are
    exactly those the authorization check accepts. *)
Theorem SessionSummary_partition now w r w' :
  SessionSummary_of now w = (Ok r, w') →
  ssummary_Total r = ssummary_Active r + ssummary_Revoked r + ssummary_Expired r
  ∧ ssummary_Active r
    = count_where (λ s, session_Active (scanSession s) now = true) (t_sessions (w_db w)).
Proof.
  unfold SessionSummary_of, query, exec. destruct (fault w); [done|]. intros [= <- <-]. cbn.
  split.
  - apply count_where_partition. intros s.
    destruct (session_RevokedAt s), (Z.lt_ge_cases (millis now) (session_ExpiresAt s)); naive_solver lia.
  - apply count_where_ext. intros s. symmetry. apply session_Active_scan.
Qed.
End Sessions.

(** ** Witnesses *)

Lemma revoked_session_stays_revoked_witness :
  Forall (λ s', session_ID s' = "s1" → session_RevokedAt s' = Some 5)
         (t_sessions (w_db (run_session_ops (H:=ascii_unicode)
                              [OpTouchSession "s1" 7; OpRevokeUserSessions "u1" 9000000]
                              (RevokeSession "s1" 5000000 ex_world).2))).
Proof.
  apply Forall_forall,  (revoked_session_stays_revoked (H:=ascii_unicode)).
  - apply (bool_decide_eq_true_1 (accounts_ok _)). vm_compute. reflexivity.
  - repeat constructor.
  - exists (ex_session "s1" "u1" <| session_RevokedAt := Some 5 |>). vm_compute. set_solver.
Defined.

Lemma one_time_credentials_witness :
  is_ok (ConsumeAuthChallenge "c1" 5 ex_world).1 = true
  ∧ is_ok (ConsumeAuthChallenge "c1" 5 (run_credential_ops (H:=ascii_unicode)
       [CredSession (OpTouchSession "s1" 7); CredTakeChallenge "c1" 8]
       (ConsumeAuthChallenge "c1" 5 ex_world).2)).1 = false.
Proof.
  split; [vm_compute; reflexivity|].
  destruct (one_time_credentials (H:=ascii_unicode) ex_world ex_accounts_ok) as [Hc _].
  destruct (ConsumeAuthChallenge "c1" 5 ex_world) as [[c|e] w'] eqn:Hrun; [|by vm_compute in Hrun].
  eapply (Hc "c1" 5 c w' [CredSession (OpTouchSession "s1" 7); CredTakeChallenge "c1" 8]); [exact Hrun| |reflexivity].
  repeat constructor; by intros [].
Defined.

Lemma QuerySessions_labels_witness :
  Forall (λ r, srecord_Status r = "active")
         [session_record 5 (ex_session "s2" "u2", ex_user "u2" "bob" RoleUser);
          session_record 5 (ex_session "s1" "u1", ex_user "u1" "alice" RoleUser)].
Proof.
  apply Forall_forall. intros r Hr.
  refine (proj2 (proj2 (QuerySessions_labels (H:=ascii_unicode) (H0:=ascii_sql)
            (mkSessionQuery 0 0 "active" "" "" 5) 0 ex_world _ _ eq_refl _) r Hr) _).
  - done.
  - cbn. set_solver.
Defined.

Lemma SessionSummary_partition_witness :
  ∃ r, (SessionSummary_of 5 ex_world).1 = Ok r
       ∧ ssummary_Total r = ssummary_Active r + ssummary_Revoked r + ssummary_Expired r.
Proof.
  destruct (SessionSummary_of 5 ex_world) as [[r|e] w'] eqn:Hrun; [|by vm_compute in Hrun].
  exists r. split; [done|]. by apply (SessionSummary_partition 5 ex_world r w').
Defined.
