(* ===== verification/Lockout.v ===== *)
(** * Brute-force protection (art-api/internal/httpapi/ratelimit.go,
    account_lockout.go and sqlstore/login_lockout.go)

    The in-memory limiter per client address, which prunes its map and drops
    expired failures lazily, refines a limiter that never forgets anything; the
    per-account lockout kept in the database locks after the configured number
    of failures, from whatever instance they arrive. *)

From S2P Require Export StoreSessions.
From S2P Require Import Sample.

(** ** [LoginLimiter] *)

Record loginAttempt := mkloginAttempt { la_failed : list time; la_lockedUntil : time }.
#[export] Instance eta_loginAttempt : Eta loginAttempt := λ r,
  mkloginAttempt (la_failed r) (la_lockedUntil r).

Record LoginLimiter := mkLoginLimiter {
  limiter_entries : gmap string loginAttempt;
  limiter_burst : Z;
  limiter_window : duration;
  limiter_lockout : duration
}.
#[export] Instance eta_LoginLimiter : Eta LoginLimiter := λ r,
  mkLoginLimiter (limiter_entries r) (limiter_burst r) (limiter_window r) (limiter_lockout r).

Definition NewLoginLimiter (burst : Z) (window lockout : duration) : LoginLimiter :=
  mkLoginLimiter ∅ burst window lockout.

(** The zero value a Go map returns for an absent key. *)
Definition zero_attempt : loginAttempt := mkloginAttempt [] zero_time.
Definition entry (l : LoginLimiter) (key : string) : loginAttempt :=
  default zero_attempt (limiter_entries l !! key).

Definition recent (values : list time) (threshold : time) : list time :=
  drop_while (λ v, v <? threshold) values.

Definition Allowed (l : LoginLimiter) (key : string) (now : time)
    : bool * duration * LoginLimiter :=
  let e := entry l key in
  if now <? la_lockedUntil e then (false, Sub (la_lockedUntil e) now, l)
  else let e := e <| la_failed := recent (la_failed e) (now - limiter_window l) |> in
       (true, 0, l <| limiter_entries := <[key := e]> (limiter_entries l) |>).

Definition prune (l : LoginLimiter) (now : time) : LoginLimiter :=
  let threshold := now - limiter_window l in
  l <| limiter_entries :=
         omap (λ e, let e := e <| la_failed := recent (la_failed e) threshold |> in
                    if bool_decide (la_failed e = []) && negb (now <? la_lockedUntil e)
                    then None else Some e) (limiter_entries l) |>.

Definition Failure (l : LoginLimiter) (key : string) (now : time) : LoginLimiter :=
  let l := if 10000 <=? Z.of_nat (size (limiter_entries l)) then prune l now else l in
  let e := entry l key in
  let e := e <| la_failed := recent (la_failed e) (now - limiter_window l) ++ [now] |> in
  let e := if limiter_burst l <=? Z.of_nat (length (la_failed e))
           then e <| la_lockedUntil := now + limiter_lockout l |> <| la_failed := [] |> else e in
  l <| limiter_entries := <[key := e]> (limiter_entries l) |>.

Definition Success (l : LoginLimiter) (key : string) : LoginLimiter :=
  l <| limiter_entries := delete key (limiter_entries l) |>.

(** ** The limiter without lazy cleaning, one state per key *)

Definition kept (threshold : time) (l : list time) : list time := filter (λ v, threshold ≤ v) l.

#[global] Arguments kept : simpl never.

Definition spec_Failure (burst : Z) (window lockout : duration) (e : loginAttempt) (now : time)
    : loginAttempt :=
  let failed := kept (now - window) (la_failed e) ++ [now] in
  if burst <=? Z.of_nat (length failed) then mkloginAttempt [] (now + lockout)
  else mkloginAttempt failed (la_lockedUntil e).

(** ** Histories of requests *)

Inductive limiter_op :=
| OpAllowed (key : string) (now : time)
| OpFailure (key : string) (now : time)
| OpSuccess (key : string) (now : time).

Definition op_time (op : limiter_op) : time :=
  match op with OpAllowed _ t | OpFailure _ t | OpSuccess _ t => t end.

Definition run_limiter_op (l : LoginLimiter) (op : limiter_op) : LoginLimiter :=
  match op with
  | OpAllowed k now => snd (Allowed l k now)
  | OpFailure k now => Failure l k now
  | OpSuccess k _ => Success l k
  end.

Definition spec_op (burst : Z) (window lockout : duration) (key : string)
    (e : loginAttempt) (op : limiter_op) : loginAttempt :=
  match op with
  | OpFailure k now =>
      if bool_decide (k = key) then spec_Failure burst window lockout e now else e
  | OpSuccess k _ => if bool_decide (k = key) then zero_attempt else e
  | OpAllowed _ _ => e
  end.

(** A clock that does not run backwards. *)
Fixpoint clock_ok (from : time) (ops : list limiter_op) : Prop :=
  match ops with [] => True | op :: ops' => from ≤ op_time op ∧ clock_ok (op_time op) ops' end.
Definition clock_after (from : time) (ops : list limiter_op) : time :=
  foldl (λ _ op, op_time op) from ops.

(** ** Simulation *)

(** The times an entry may hold: sorted, none after the clock. *)
Definition entry_sorted (clock : time) (l : list time) : Prop :=
  StronglySorted Z.le l ∧ Forall (λ v, v ≤ clock) l.

(** The entry and the state of the specification answer alike from now on. *)
Record similar (window : duration) (clock : time) (e s : loginAttempt) : Prop := {
  sim_sorted : entry_sorted clock (la_failed e);
  sim_failed : ∀ now, clock ≤ now →
    kept (now - window) (la_failed e) = kept (now - window) (la_failed s);
  sim_locked : la_lockedUntil e = la_lockedUntil s
               ∨ (la_lockedUntil e ≤ clock ∧ la_lockedUntil s ≤ clock)
}.

Lemma recent_kept l threshold : StronglySorted Z.le l → recent l threshold = kept threshold l.
Proof.
  unfold recent, kept. induction 1 as [|x l Hl IH Hx]; [done|]. cbn [drop_while].
  destruct (Z.ltb_spec x threshold).
  - rewrite filter_cons_False by lia. done.
  - rewrite filter_cons_True by lia. f_equal. symmetry. apply filter_all. intros y Hy.
    rewrite Forall_forall in Hx. specialize (Hx y Hy). lia.
Qed.

Lemma kept_kept a b l : a ≤ b → kept b (kept a l) = kept b l.
Proof.
  intros Hab. unfold kept. rewrite list_filter_filter. apply list_filter_iff. intros. lia.
Qed.

Lemma kept_sorted clock l threshold : entry_sorted clock l → entry_sorted clock (kept threshold l).
Proof.
  intros [Hs Hf]. unfold kept. split.
  - clear Hf. induction Hs as [|x l Hl IH Hx]; [constructor|]. rewrite filter_cons.
    case_decide; [|done]. constructor; [done|]. rewrite Forall_forall in *.
    intros y [_ ?]%list_elem_of_filter. auto.
  - rewrite Forall_forall in *. intros x [_ ?]%list_elem_of_filter. auto.
Qed.

Lemma entry_sorted_later clock clock' l : clock ≤ clock' → entry_sorted clock l → entry_sorted clock' l.
Proof.
  intros Hle [Hs Hf]. split; [done|]. eapply Forall_impl; [exact Hf|]. cbn. intros; lia.
Qed.

Lemma entry_sorted_snoc clock l : entry_sorted clock l → entry_sorted clock (l ++ [clock]).
Proof.
  intros [Hs Hf]. split.
  - apply StronglySorted_app. split_and!; [|done|repeat constructor].
    rewrite Forall_forall in Hf. intros x y Hx ->%list_elem_of_singleton. auto.
  - apply Forall_app. split; [done|]. repeat constructor. lia.
Qed.

Lemma similar_later window clock clock' e s :
  clock ≤ clock' → similar window clock e s → similar window clock' e s.
Proof.
  intros Hle [Hs Hf Hl]. constructor; [by eapply entry_sorted_later|intros; apply Hf; lia|].
  destruct Hl; [by left|right; lia].
Qed.

Section Simulation.
Context (burst : Z) (window lockout : duration).
Implicit Types (clock : time) (e s : loginAttempt).

Lemma similar_zero clock : similar window clock zero_attempt zero_attempt.
Proof. constructor; [repeat constructor|done|by left]. Qed.

(** Dropping failures that have left the window. *)
Lemma similar_recent clock e s :
  similar window clock e s →
  similar window clock (e <| la_failed := recent (la_failed e) (clock - window) |>) s.
Proof.
  intros [Hs Hf Hl]. constructor; cbn; [|intros now Hnow|done].
  - rewrite recent_kept by apply Hs. by apply kept_sorted.
  - rewrite recent_kept, kept_kept by (apply Hs || lia). by apply Hf.
Qed.

(** Forgetting an entry with no failure in the window and no lock. *)
Lemma similar_forget clock e s :
  zero_time ≤ clock → similar window clock e s → la_failed e = [] → la_lockedUntil e ≤ clock →
  similar window clock zero_attempt s.
Proof.
  intros Hz [Hs Hf Hl] He Hlock. constructor; cbn; [repeat constructor| |right; lia].
  intros now Hnow. rewrite <- Hf, He by done. done.
Qed.

Lemma similar_failure clock e s :
  similar window clock e s → 0 ≤ window →
  let e' := e <| la_failed := recent (la_failed e) (clock - window) ++ [clock] |> in
  similar window clock
    (if burst <=? Z.of_nat (length (la_failed e'))
     then e' <| la_lockedUntil := clock + lockout |> <| la_failed := [] |> else e')
    (spec_Failure burst window lockout s clock).
Proof.
  intros [Hs Hf Hl] Hw. unfold spec_Failure. cbn.
  rewrite recent_kept by apply Hs. rewrite Hf by lia.
  destruct (burst <=? _); constructor; cbn; try done; [repeat constructor|by left|].
  rewrite <- Hf by lia. by apply entry_sorted_snoc, kept_sorted.
Qed.
End Simulation.

Lemma entry_insert l k k' e :
  entry (l <| limiter_entries := <[k := e]> (limiter_entries l) |>) k'
  = if bool_decide (k = k') then e else entry l k'.
Proof.
  unfold entry. cbn. case_bool_decide as Hk; [subst; by rewrite lookup_insert_eq|].
  by rewrite lookup_insert_ne.
Qed.

Lemma entry_delete l k k' :
  entry (Success l k) k' = if bool_decide (k = k') then zero_attempt else entry l k'.
Proof.
  unfold entry, Success. cbn. case_bool_decide as Hk; [subst; by rewrite lookup_delete_eq|].
  by rewrite lookup_delete_ne.
Qed.

Lemma prune_similar l clock key s :
  zero_time ≤ clock → similar (limiter_window l) clock (entry l key) s →
  similar (limiter_window l) clock (entry (prune l clock) key) s.
Proof.
  intros Hz Hsim. unfold entry, prune in *. cbn. rewrite lookup_omap.
  destruct (limiter_entries l !! key) as [e|]; cbn in *; [|done].
  destruct (bool_decide_reflect (recent (la_failed e) (clock - limiter_window l) = [])) as [Hr|Hr]; cbn.
  - destruct (Z.ltb_spec clock (la_lockedUntil e)); cbn; [by apply similar_recent|].
    eapply similar_forget; [done|by apply similar_recent|done|cbn; lia].
  - by apply similar_recent.
Qed.

Definition limiter_params (l : LoginLimiter) := (limiter_burst l, limiter_window l, limiter_lockout l).

Lemma run_limiter_op_params l op : limiter_params (run_limiter_op l op) = limiter_params l.
Proof.
  destruct op; cbn; unfold Allowed, Failure, Success, limiter_params; cbn;
    [destruct (_ <? _)|destruct (10000 <=? _)|]; done.
Qed.

(** One request, of this key or of another one. *)
Lemma run_limiter_op_similar l clock key s op :
  zero_time ≤ clock → 0 ≤ limiter_window l → clock ≤ op_time op →
  similar (limiter_window l) clock (entry l key) s →
  similar (limiter_window l) (op_time op) (entry (run_limiter_op l op) key)
    (spec_op (limiter_burst l) (limiter_window l) (limiter_lockout l) key s op).
Proof.
  intros Hz Hw Hc Hsim. apply (similar_later _ _ _ _ _ Hc) in Hsim.
  destruct op as [k now|k now|k now]; cbn in *.
  - unfold Allowed. destruct (now <? _); cbn [snd]; [done|]. rewrite entry_insert.
    case_bool_decide; [subst|done]. by apply similar_recent.
  - unfold Failure. set (l' := if 10000 <=? _ then _ else l).
    assert (Hl' : similar (limiter_window l) now (entry l' key) s ∧ limiter_params l' = limiter_params l).
    { unfold l'. destruct (10000 <=? _); [|done]. split; [|done]. apply prune_similar; [lia|done]. }
    destruct Hl' as [Hsim' [= Hb Hwin Hlo]]. rewrite entry_insert, Hb, Hwin, Hlo.
    case_bool_decide; [subst k|done]. by apply similar_failure.
  - rewrite entry_delete. case_bool_decide; [apply similar_zero|done].
Qed.

Definition limiter_after (burst : Z) (window lockout : duration) (ops : list limiter_op)
    : LoginLimiter := foldl run_limiter_op (NewLoginLimiter burst window lockout) ops.
Definition spec_after (burst : Z) (window lockout : duration) (key : string)
    (ops : list limiter_op) : loginAttempt :=
  foldl (spec_op burst window lockout key) zero_attempt ops.

Lemma run_limiter_similar l from key s ops :
  zero_time ≤ from → 0 ≤ limiter_window l → clock_ok from ops →
  similar (limiter_window l) from (entry l key) s →
  similar (limiter_window l) (clock_after from ops) (entry (foldl run_limiter_op l ops) key)
    (foldl (spec_op (limiter_burst l) (limiter_window l) (limiter_lockout l) key) s ops).
Proof.
  revert l from s. induction ops as [|op ops IH]; intros l from s Hz Hw Hc Hsim; cbn; [done|].
  destruct Hc as [Hle Hc]. pose proof (run_limiter_op_params l op) as [= Hb Hwin Hlo].
  rewrite <- Hb, <- Hwin, <- Hlo. apply IH; [lia|by rewrite Hwin|done|].
  rewrite Hb, Hwin, Hlo. by eapply run_limiter_op_similar.
Qed.

Lemma Allowed_spec burst window lockout from ops key now :
  zero_time ≤ from → 0 ≤ window → clock_ok from ops → clock_after from ops ≤ now →
  (Allowed (limiter_after burst window lockout ops) key now).1
  = let until := la_lockedUntil (spec_after burst window lockout key ops) in
    if now <? until then (false, Sub until now) else (true, 0).
Proof.
  intros Hz Hw Hc Hnow.
  destruct (run_limiter_similar (NewLoginLimiter burst window lockout) from key zero_attempt ops)
    as [_ _ Hl]; [done..|apply similar_zero|].
  fold (limiter_after burst window lockout ops) in Hl. cbn [limiter_burst limiter_window limiter_lockout NewLoginLimiter] in Hl.
  fold (spec_after burst window lockout key ops) in Hl.
  unfold Allowed. destruct Hl as [->|[H1 H2]]; [by destruct (now <? _)|].
  cbv zeta. rewrite !(proj2 (Z.ltb_ge _ _)) by lia. done.
Qed.

(** The failures of a key in a history, and the absence of a success. *)
Definition failures_of (key : string) (ops : list limiter_op) : list time :=
  omap (λ op, match op with
              | OpFailure k t => if bool_decide (k = key) then Some t else None
              | _ => None
              end) ops.
Definition no_success (key : string) (ops : list limiter_op) : Prop :=
  Forall (λ op, match op with OpSuccess k _ => k ≠ key | _ => True end) ops.

Lemma kept_snoc threshold l x : threshold ≤ x → kept threshold (l ++ [x]) = kept threshold l ++ [x].
Proof. intros Hx. unfold kept. rewrite filter_app, filter_cons_True by done. done. Qed.

Lemma length_kept threshold l : (length (kept threshold l) ≤ length l)%nat.
Proof. apply length_filter. Qed.

Section Burst.
Context (burst : Z) (window lockout : duration) (key : string) (start : time).

(** Locked since [start], or [n] failures since then are counted. *)
Definition counted (n : nat) (s : loginAttempt) : Prop :=
  start + lockout ≤ la_lockedUntil s
  ∨ ((n ≤ length (kept start (la_failed s)))%nat
     ∧ ((0 < n)%nat → Z.of_nat (length (la_failed s)) < burst)).

Lemma counted_failure n s t :
  start ≤ t ≤ start + window → counted n s → counted (S n) (spec_Failure burst window lockout s t).
Proof.
  intros Ht Hn. unfold spec_Failure. destruct (Z.leb_spec burst (Z.of_nat (length (kept (t - window) (la_failed s) ++ [t])))).
  - left. cbn. lia.
  - destruct Hn as [?|[Hn _]]; [by left|right]. cbn. split; [|done].
    rewrite kept_snoc, kept_kept, length_app by lia. cbn. lia.
Qed.

Lemma counted_ops ops n s :
  no_success key ops → (∀ t, t ∈ failures_of key ops → start ≤ t ≤ start + window) →
  counted n s →
  counted (n + length (failures_of key ops)) (foldl (spec_op burst window lockout key) s ops).
Proof.
  intros Hns. revert n s. induction Hns as [|op ops Hop _ IH]; intros n s Hts Hn; cbn.
  { by rewrite Nat.add_0_r. }
  destruct op as [k t|k t|k t]; cbn in *; try (by apply IH).
  - destruct (bool_decide (k = key)) eqn:Hk; cbn in *; [|by apply IH].
    rewrite Nat.add_succ_r. apply (IH (S n)); [set_solver|]. apply counted_failure; [set_solver|done].
  - rewrite bool_decide_false by done. by apply IH.
Qed.
End Burst.

(** C17: the limiter refines one that never forgets: although it drops old
    failures lazily and prunes its map at ten thousand entries, its answer for a
    key, the time left included, is in every history the one of a separate
    limiter that saw only that key's requests and kept everything. *)
Theorem limiter_refines_spec burst window lockout from ops key now :
  zero_time ≤ from → 0 ≤ window → clock_ok from ops → clock_after from ops ≤ now →
  (Allowed (limiter_after burst window lockout ops) key now).1
  = let until := la_lockedUntil (spec_after burst window lockout key ops) in
    if now <? until then (false, Sub until now) else (true, 0).
Proof. apply Allowed_spec. Qed.

(** the limiter locks: after [burst] failures of a key within one window, not
    interrupted by a success of that key, whatever the other keys do, the key is
    refused for the lockout period. *)
Theorem limiter_locks_after_burst burst window lockout from pre post key start now :
  zero_time ≤ from → 0 ≤ window → 1 ≤ burst → clock_ok from (pre ++ post) →
  no_success key post → burst ≤ Z.of_nat (length (failures_of key post)) →
  (∀ t, t ∈ failures_of key post → start ≤ t ≤ start + window) →
  clock_after from (pre ++ post) ≤ now < start + lockout →
  (Allowed (limiter_after burst window lockout (pre ++ post)) key now).1.1 = false.
Proof.
  intros Hz Hw Hb Hc Hns Hlen Hts [Hnow Hlock]. rewrite (Allowed_spec _ _ _ from) by done. cbv zeta.
  enough (start + lockout ≤ la_lockedUntil (spec_after burst window lockout key (pre ++ post)))
    by (rewrite (proj2 (Z.ltb_lt _ _)) by lia; done).
  unfold spec_after. rewrite foldl_app.
  destruct (counted_ops burst window lockout key start post 0
              (foldl (spec_op burst window lockout key) zero_attempt pre)) as [?|[H1 H2]]; [done..| |done|].
  - right. split; lia.
  - cbn in H1, H2. pose proof (length_kept start
      (la_failed (foldl (spec_op burst window lockout key)
         (foldl (spec_op burst window lockout key) zero_attempt pre) post))). lia.
Qed.

(** ** The per-account lockout in the database *)

Section Accounts.
Context `{Unicode}.

(** The settings read from the environment, with their defaults. *)
Record lockout_settings := mkLockoutSettings {
  set_burst : Z; set_window : duration; set_lockout : duration }.

Definition lockout_defaults (c : lockout_settings) : lockout_settings :=
  mkLockoutSettings (if set_burst c <? 2 then 5 else set_burst c)
    (if set_window c <=? 0 then 5 * minute else set_window c)
    (if set_lockout c <=? 0 then 15 * minute else set_lockout c).

(** [accountLoginAllowed]: a database error refuses. *)
Definition accountLoginAllowed (username : string) (now : time) : M (bool * duration) :=
  if bool_decide (username = "") then ret (true, 0) else
  r ← try (AccountLoginAllowed username now);
  match r with Ok v => ret v | Err _ => ret (false, minute) end.

Definition accountLoginFailure (c : lockout_settings) (attemptID username : string) (now : time)
    : M unit :=
  if bool_decide (username = "") then ret tt else
  let c := lockout_defaults c in
  try (RecordAccountLoginFailure attemptID username now (set_burst c) (set_window c) (set_lockout c));;
  ret tt.

Definition accountLoginSuccess (username : string) : M unit :=
  try (ClearAccountLoginFailures username);; ret tt.

(** Attempts of an account counted from a given millisecond. *)
Definition attempts_since (key : string) (ms : Z) (d : DB) : Z :=
  count_where (λ a, attempt_Username a = key ∧ ms ≤ attempt_OccurredAt a) (t_login_attempts d).
Definition locked_until (key : string) (ms : Z) (d : DB) : Prop :=
  ∃ l, select_one (λ l, lockout_Username l = key) (t_account_lockouts d) = Some l
       ∧ lockout_LockedUntil l = ms.

Lemma count_where_app {A} (P : A → Prop) `{∀ x, Decision (P x)} t1 t2 :
  count_where P (t1 ++ t2) = count_where P t1 + count_where P t2.
Proof. unfold count_where. rewrite filter_app, length_app. lia. Qed.

Lemma count_where_delete {A} (P Q : A → Prop) `{∀ x, Decision (P x)} `{∀ x, Decision (Q x)} t :
  (∀ r, P r → ¬ Q r) → count_where P (delete_where Q t) = count_where P t.
Proof.
  intros HPQ. unfold count_where, delete_where. rewrite list_filter_filter. f_equal. f_equal.
  apply list_filter_iff. naive_solver.
Qed.

(** The upsert leaves exactly the row it writes as the first one of its key. *)
Lemma upserted_lockout key until now t :
  NoDup (lockout_Username <$> t) →
  let t' := if decide (Exists (λ l, lockout_Username l = key) t)
            then update_where (λ l, lockout_Username l = key)
                   (λ l, mkAccountLockout (lockout_Username l) until now) t
            else t ++ [mkAccountLockout key until now] in
  NoDup (lockout_Username <$> t')
  ∧ select_one (λ l, lockout_Username l = key) t' = Some (mkAccountLockout key until now).
Proof.
  intros Hnd t'.
  assert (Hnd' : NoDup (lockout_Username <$> t')).
  { unfold t'. case_decide as Hex.
    - apply NoDup_fmap_update_where; [done|done].
    - apply NoDup_fmap_snoc. split; [done|]. intros (l & Hl & Hin)%list_elem_of_fmap.
      apply Hex, Exists_exists. by exists l. }
  split; [done|].
  apply (select_one_unique lockout_Username t' (mkAccountLockout key until now)); [done|].
  unfold t'. case_decide as Hex.
  - apply Exists_exists in Hex as (l & Hl & Hk). apply elem_of_update_where. exists l.
    rewrite decide_True by done. rewrite Hk. done.
  - apply elem_of_app. right. by apply list_elem_of_singleton.
Qed.

Lemma count_where_mono {A} (P Q : A → Prop) `{∀ x, Decision (P x)} `{∀ x, Decision (Q x)} t :
  (∀ r, P r → Q r) → count_where P t ≤ count_where Q t.
Proof.
  intros HPQ. unfold count_where. induction t as [|r t IH]; [done|]. rewrite !filter_cons.
  repeat case_decide; cbn [length]; try lia. exfalso. eauto.
Qed.

(** The attempts of one recorded failure: the new one counts, old ones may go. *)
Definition recorded (attemptID key : string) (now : time) (window : duration) (d : DB)
    : list LoginAttempt :=
  delete_where (λ a, attempt_OccurredAt a < millis (now - window))
    (t_login_attempts d ++ [mkLoginAttempt attemptID key (millis now)]).

Lemma attempts_recorded attemptID key now window since k d :
  now - window ≤ since ≤ now →
  count_where (λ a, attempt_Username a = k ∧ millis since ≤ attempt_OccurredAt a)
    (recorded attemptID key now window d)
  = attempts_since k (millis since) d + (if bool_decide (k = key) then 1 else 0).
Proof.
  intros [H1 H2]. unfold recorded, attempts_since.
  pose proof (UnixMilli_mono _ _ H1). pose proof (UnixMilli_mono _ _ H2). unfold millis.
  rewrite count_where_delete by (intros r [??]; lia). rewrite count_where_app. f_equal.
  unfold count_where. rewrite filter_cons. cbn. case_bool_decide; case_decide; naive_solver.
Qed.

Lemma recorded_ok attemptID key now window d :
  login_attempts_ok d → attemptID ∉ attempt_ID <$> t_login_attempts d →
  NoDup (attempt_ID <$> t_login_attempts d ++ [mkLoginAttempt attemptID key (millis now)])
  ∧ NoDup (attempt_ID <$> recorded attemptID key now window d)
  ∧ attempt_ID <$> recorded attemptID key now window d
    ⊆ attemptID :: (attempt_ID <$> t_login_attempts d).
Proof.
  intros Hok Hfresh.
  assert (Hnd : NoDup (attempt_ID <$> t_login_attempts d ++ [mkLoginAttempt attemptID key (millis now)])).
  { by apply NoDup_fmap_snoc. }
  split_and!; [done|by apply NoDup_fmap_delete_where|].
  intros id (a & -> & [Ha _]%elem_of_delete_where)%list_elem_of_fmap.
  apply elem_of_app in Ha as [?| ->%list_elem_of_singleton]; [right|left].
  by apply list_elem_of_fmap_2.
Qed.

(** What one recorded failure does, without faults: it counts for its account
    from any instant in the window, and locks when that makes [burst]. *)
Record failure_recorded (attemptID key : string) (now : time) (burst : Z) (lockout : duration)
    (since : time) (d d' : DB) : Prop := {
  fr_ok : account_lockouts_ok d' ∧ login_attempts_ok d';
  fr_ids : attempt_ID <$> t_login_attempts d' ⊆ attemptID :: (attempt_ID <$> t_login_attempts d);
  fr_count : ∀ k, attempts_since k (millis since) d'
                  = attempts_since k (millis since) d + (if bool_decide (k = key) then 1 else 0);
  fr_locked : burst ≤ attempts_since key (millis since) d + 1 →
              locked_until key (millis (now + lockout)) d'
}.

Lemma RecordAccountLoginFailure_spec attemptID username now burst window lockout since d h :
  lockout_key username ≠ "" → account_lockouts_ok d → login_attempts_ok d →
  attemptID ∉ attempt_ID <$> t_login_attempts d → now - window ≤ since ≤ now →
  wp false (RecordAccountLoginFailure attemptID username now burst window lockout)
    (λ r d' _, r = Ok tt
       ∧ failure_recorded attemptID (lockout_key username) now burst lockout since d d') d h.
Proof.
  intros Hkey Hlock Hatt Hfresh Hsince. set (key := lockout_key username) in *.
  destruct (recorded_ok attemptID key now window d Hatt Hfresh) as (Hnd & Hnd' & Hids).
  pose proof (λ k, attempts_recorded attemptID key now window since k d Hsince) as Hcount.
  unfold RecordAccountLoginFailure. fold key. wp_go; try done.
  all: try (exfalso; refute_constraint; cbv [tbl_ok]; hnf; read_tables; done).
  - (* not locked yet *)
    apply Z.ltb_lt in Heqb. split; [done|].
    assert (Ht : t_login_attempts d1 = recorded attemptID key now window d) by (by read_tables).
    constructor.
    + split; hnf; read_tables; done.
    + by rewrite Ht.
    + intros k. unfold attempts_since. rewrite Ht. apply Hcount.
    + intros Hb. exfalso. specialize (Hcount key). rewrite bool_decide_true in Hcount by done.
      rewrite Ht in Heqb.
      enough (count_where (λ a, attempt_Username a = key ∧ millis since ≤ attempt_OccurredAt a)
                (recorded attemptID key now window d)
              ≤ count_where (λ a, attempt_Username a = key ∧ millis (now - window) ≤ attempt_OccurredAt a)
                (recorded attemptID key now window d)) by lia.
      apply count_where_mono. intros r [??]. split; [done|].
      pose proof (UnixMilli_mono (now - window) since). unfold millis in *. lia.
  - (* locked *)
    split; [done|].
    assert (Ht : t_login_attempts d2 = recorded attemptID key now window d) by (by read_tables).
    destruct (upserted_lockout key (millis (now + lockout)) (millis now) (t_account_lockouts d) Hlock)
      as [Hnd2 Hsel].
    constructor.
    + split; hnf; [by read_tables|by rewrite Ht].
    + by rewrite Ht.
    + intros k. unfold attempts_since. rewrite Ht. apply Hcount.
    + intros _. exists (mkAccountLockout key (millis (now + lockout)) (millis now)).
      split; [read_tables; exact Hsel|done].
  - exfalso. refute_constraint. hnf. read_tables. by apply upserted_lockout.
Qed.

(** The table answers for the account. *)
Lemma AccountLoginAllowed_locked username now ms d h :
  locked_until (lockout_key username) ms d → now < fromMillis ms →
  wp true (AccountLoginAllowed username now)
    (λ r _ _, match r with Ok (allowed, _) => allowed = false | Err _ => True end) d h.
Proof.
  intros (l & Hl & <-) Hnow. unfold AccountLoginAllowed. wp_go; try done.
  - apply fmap_Some in Heqo as (l' & Hl' & ->). rewrite Hl in Hl'. injection Hl' as <-.
    apply Z.ltb_ge in Heqb. lia.
  - by rewrite Hl in Heqo.
Qed.

(** Failures recorded one after the other: attempt, user name as typed, time. *)
Definition record_failures (burst : Z) (window lockout : duration)
    (fs : list (string * string * time)) : M unit :=
  for_each (λ f, RecordAccountLoginFailure f.1.1 f.1.2 f.2 burst window lockout) fs.

Definition failures_for (key : string) (fs : list (string * string * time)) : Z :=
  count_where (λ f, lockout_key f.1.2 = key) fs.

Lemma record_failures_spec burst window lockout start fs d h :
  (∀ f, f ∈ fs → lockout_key f.1.2 ≠ "" ∧ start ≤ f.2 ≤ start + window) →
  NoDup ((λ f, f.1.1) <$> fs) → (∀ f, f ∈ fs → f.1.1 ∉ attempt_ID <$> t_login_attempts d) →
  account_lockouts_ok d → login_attempts_ok d →
  wp false (record_failures burst window lockout fs)
    (λ r d' _, r = Ok tt ∧ account_lockouts_ok d' ∧ login_attempts_ok d'
       ∧ attempt_ID <$> t_login_attempts d'
         ⊆ ((λ f, f.1.1) <$> fs) ++ (attempt_ID <$> t_login_attempts d)
       ∧ ∀ k, attempts_since k (millis start) d'
              = attempts_since k (millis start) d + failures_for k fs) d h.
Proof.
  revert d h. induction fs as [|f fs IH]; intros d h Hfs Hnd Hfresh Hl Ha; cbn.
  { apply wp_ret. split_and!; [done..|]. intros k. unfold failures_for, count_where. cbn. lia. }
  apply wp_bind. apply NoDup_cons in Hnd as [Hf Hnd].
  destruct (Hfs f) as [Hkey Ht]; [set_solver|].
  eapply wp_mono; [apply (RecordAccountLoginFailure_spec _ _ _ _ _ _ start); [done..|set_solver|lia]|].
  intros r d1 h1 [-> [[Hl1 Ha1] Hids Hcount _]].
  eapply wp_mono; [apply IH; [set_solver|done| |done..]|].
  { intros g Hg Hin%Hids. apply elem_of_cons in Hin as [Heq|Hin]; [|set_solver].
    apply Hf. rewrite <- Heq. by apply (list_elem_of_fmap_2 (λ f, f.1.1)). }
  intros r d2 h2 (-> & ? & ? & Hids2 & Hcount2). split_and!; [done..| |].
  - intros id [Hid|Hid%Hids]%Hids2%elem_of_app; set_solver.
  - intros k. rewrite Hcount2, Hcount. unfold failures_for, count_where. rewrite filter_cons.
    case_bool_decide; case_decide; cbn [length]; (lia || congruence).
Qed.

(** the account lockout locks: when [burst] failures of one account (however
    its name was typed) are recorded within one window, among failures of other
    accounts and whatever the table held before, the account is refused after
    the last of them until the lockout, counted from that failure in
    milliseconds, has passed; no error makes the check answer otherwise. *)
Theorem account_locked_after_burst burst window lockout start fs f d h now w :
  account_lockouts_ok d → login_attempts_ok d →
  (∀ g, g ∈ fs ++ [f] → lockout_key g.1.2 ≠ "" ∧ start ≤ g.2 ≤ start + window) →
  NoDup ((λ g, g.1.1) <$> fs ++ [f]) →
  (∀ g, g ∈ fs ++ [f] → g.1.1 ∉ attempt_ID <$> t_login_attempts d) →
  burst ≤ failures_for (lockout_key f.1.2) (fs ++ [f]) →
  w_db w = w_db (record_failures burst window lockout (fs ++ [f]) (mkWorld d [] h)).2 →
  now < fromMillis (millis (f.2 + lockout)) →
  ∃ r w', accountLoginAllowed f.1.2 now w = (Ok (false, r), w').
Proof.
  intros Hl Ha Hfs Hnd Hfresh Hb Hw Hnow.
  assert (Hlocked : locked_until (lockout_key f.1.2) (millis (f.2 + lockout)) (w_db w)).
  { rewrite Hw. apply (wp_run (F:=false) (λ _ d' _, locked_until _ _ d') _ (mkWorld d [] h) eq_refl).
    cbn [w_db w_hub]. unfold record_failures. apply wp_for_each_app. rewrite fmap_app, NoDup_app in Hnd.
    destruct Hnd as (Hnd & Hnew & _).
    eapply wp_mono; [apply (record_failures_spec _ _ _ start); [set_solver|done|set_solver|done..]|].
    intros r d1 h1 (-> & Hl1 & Ha1 & Hids & Hcount). cbn [for_each]. apply wp_bind.
    destruct (Hfs f) as [Hkey Ht]; [set_solver|].
    eapply wp_mono; [apply (RecordAccountLoginFailure_spec _ _ _ _ _ _ start); [done..| |lia]|].
    { intros [(g & Heq & Hg)%list_elem_of_fmap|Hin]%Hids%elem_of_app; [|set_solver].
      apply (Hnew f.1.1); [rewrite Heq; by apply (list_elem_of_fmap_2 (λ f, f.1.1))|set_solver]. }
    intros r d2 h2 [-> Hfr]. apply wp_ret. apply Hfr. rewrite Hcount.
    unfold failures_for in *. rewrite count_where_app in Hb.
    assert (count_where (λ g : string * string * Z, lockout_key g.1.2 = lockout_key f.1.2) [f] = 1).
    { unfold count_where. rewrite filter_cons_True by done. done. }
    enough (0 ≤ attempts_since (lockout_key f.1.2) (millis start) d) by lia.
    unfold attempts_since, count_where. lia. }
  destruct (Hfs f) as [Hkey _]; [set_solver|]. unfold accountLoginAllowed.
  rewrite bool_decide_false by (intros Heq; by rewrite Heq in Hkey).
  pose proof (wp_run (F:=true) _ _ w I
                (AccountLoginAllowed_locked _ now _ _ (w_hub w) Hlocked Hnow)) as Hr.
  unfold mbind, M_bind, bind, try. destruct (AccountLoginAllowed f.1.2 now w) as [[[a r]|e] w']; cbn in *.
  - subst a. by eexists _, _.
  - by eexists _, _.
Qed.
End Accounts.

(** ** Witnesses: two failures from one address, another address in between *)

Definition ex_requests : list limiter_op :=
  [OpFailure "a" 10; OpFailure "b" 11; OpAllowed "a" 12; OpFailure "a" 13].

Lemma limiter_refines_spec_witness :
  (Allowed (limiter_after 2 100 1000 ex_requests) "a" 20).1 = (false, 993).
Proof.
  rewrite (limiter_refines_spec 2 100 1000 0 ex_requests "a" 20);
    [reflexivity|done|done|cbn; lia|cbn; lia].
Defined.

Lemma limiter_locks_after_burst_witness :
  (Allowed (limiter_after 2 100 1000 ([OpSuccess "a" 5] ++ ex_requests)) "a" 20).1.1 = false.
Proof.
  apply (limiter_locks_after_burst 2 100 1000 0 [OpSuccess "a" 5] ex_requests "a" 10 20);
    try done; try (cbn; lia).
  - repeat constructor.
  - intros t. change (failures_of "a" ex_requests) with [10; 13].
    rewrite !elem_of_cons, elem_of_nil. lia.
Defined.

Lemma account_locked_after_burst_witness :
  ∃ r w', accountLoginAllowed (H:=ascii_unicode) " Alice" 20
            (record_failures (H:=ascii_unicode) 2 (5 * minute) (15 * minute)
               ([("1", "alice", 10); ("2", "bob", 11)] ++ [("3", " Alice", 12)]) ex_world).2
          = (Ok (false, r), w').
Proof.
  refine (account_locked_after_burst (H:=ascii_unicode) 2 (5 * minute) (15 * minute) 10
            [("1", "alice", 10); ("2", "bob", 11)] ("3", " Alice", 12) ex_accounts (NewHub "src") 20 _
            _ _ _ _ _ _ eq_refl _).
  - constructor.
  - constructor.
  - intros g. cbn [app]. rewrite !elem_of_cons, elem_of_nil.
    intros [->|[->|[->|[]]]]; vm_compute; (split; [discriminate|split; discriminate]).
  - apply (bool_decide_eq_true_1 (NoDup _)). vm_compute. reflexivity.
  - intros g _. cbn. apply not_elem_of_nil.
  - vm_compute. discriminate.
  - vm_compute. reflexivity.
Defined.
