(* ===== verification/StoreRelay.v ===== *)
(** * Relay servers and the durable relay control plane: [sqlstore.Store]
    (art-api/internal/store/sqlstore/relay_credentials.go, relay_delivery.go,
    relay_operations.go and the relay part of store.go) and the types of package
    [relaygateway] they use.

    Every [time.Now()] of the source is an argument. *)

From S2P Require Export StoreUsers Crypto.

(** ** [relaygateway]: messages and credentials *)

Record QuarantineEvent := mkQuarantineEvent {
  qevent_ID : string; qevent_UUID : string; qevent_Status : string;
  qevent_CreatedAt : Z; qevent_Reason : string }.

Record DeliveryStatus := mkDeliveryStatus {
  dstatus_Pending : Z; dstatus_Quarantined : Z; dstatus_Reserved : Z; dstatus_Capacity : Z;
  dstatus_Healthy : bool; dstatus_Blocked : bool; dstatus_OldestAt : Z;
  dstatus_Sample : list QuarantineEvent }.

Record QuarantinePage := mkQuarantinePage {
  qpage_Revision : string; qpage_Total : Z; qpage_Offset : Z; qpage_Events : list QuarantineEvent }.

Record DeliveryCounts := mkDeliveryCounts {
  dcounts_Authorizations : Z; dcounts_Receipts : Z; dcounts_Archived : Z; dcounts_Eligible : Z }.

Record Message := mkMessage {
  msg_Revision : string;
  msg_Offset : Z;
  msg_QuarantinePage : option QuarantinePage;
  msg_Delivery : option DeliveryStatus;
  msg_Reason : string;
  msg_Durable : bool;
  msg_Type : string;
  msg_Session : string;
  msg_RequestID : string;
  msg_UUID : string;
  msg_Action : string;
  msg_Status : string;
  msg_ExpiresAt : Z;
  msg_Connections : Z;
  msg_Bandwidth : Z
}.

Definition Hash (value : string) : string := hex_encode (sha256_Sum (bytes_of value)).
#[global] Arguments Hash : simpl never.

(** [Credential.Matches]: the comparison is [subtle.ConstantTimeCompare]. *)
Definition Matches (c : Credential) (token : string) : bool :=
  (len token =? 43) && negb (bool_decide (cred_Hash c = "")) && bool_decide (cred_Hash c = Hash token).

(** ** Credentials (relay_credentials.go) *)

Definition scanCredential (c : Credential) : Credential :=
  c <| cred_EnrollmentExpires := fromMillis (cred_EnrollmentExpires c) |>
    <| cred_UpdatedAt := fromMillis (cred_UpdatedAt c) |>.

Definition RelayCredential (id : string) : M Credential :=
  query_row (λ d, scanCredential <$> select_one (λ c, cred_RelayID c = id) (t_relay_credentials d)).

Definition PutRelayEnrollment (c : Credential) : M unit :=
  let row := mkCredential (cred_RelayID c) "" (cred_EnrollmentHash c)
               (millis (cred_EnrollmentExpires c)) (cred_Generation c) (millis (cred_UpdatedAt c)) in
  sql_upsert t_relay_credentials (λ r, cred_RelayID r = cred_RelayID c) (λ _, row) row.

(** EXISTS(SELECT 1 FROM relay_servers WHERE id=? AND enabled=TRUE) *)
Definition relay_enabled (d : DB) (id : string) : Prop :=
  Exists (λ r, relay_ID r = id ∧ relay_Enabled r = true) (t_relay_servers d).

Definition ConsumeRelayEnrollment (id enrollmentHash tokenHash : string) (now : time) : M unit :=
  affected (sql_update_sub t_relay_credentials
    (λ d c, cred_RelayID c = id ∧ cred_EnrollmentHash c = enrollmentHash
            ∧ cred_EnrollmentHash c ≠ "" ∧ millis now < cred_EnrollmentExpires c
            ∧ relay_enabled d id)
    (λ c, c <| cred_Hash := tokenHash |> <| cred_EnrollmentHash := "" |>
            <| cred_EnrollmentExpires := 0 |> <| cred_UpdatedAt := millis now |>)).

Definition RevokeRelayCredential (id : string) (now : time) : M unit :=
  affected (sql_update t_relay_credentials (λ c, cred_RelayID c = id)
    (λ c, c <| cred_Hash := "" |> <| cred_EnrollmentHash := "" |>
            <| cred_EnrollmentExpires := 0 |> <| cred_UpdatedAt := millis now |>)).

(** ** Delivery (relay_delivery.go) *)

(** The conditions of the INSERT ... SELECT of [AuthorizeRelay]. *)
Definition may_authorize (id hash generation uuid : string) (d : DB) : Prop :=
  count_where (λ a, auth_RelayID a = id) (t_relay_authorizations d) < 100000
  ∧ Exists (λ c, cred_RelayID c = id ∧ cred_Hash c = hash ∧ cred_Generation c = generation)
      (t_relay_credentials d)
  ∧ ¬ Exists (λ a, archive_UUID a = uuid) (t_relay_delivery_archive d).

#[export] Instance may_authorize_dec id hash generation uuid d :
  Decision (may_authorize id hash generation uuid d).
Proof. unfold may_authorize. apply _. Defined.

Definition AuthorizeRelay (id token uuid : string) (now : time) : M unit :=
  c ← RelayCredential id;
  if negb (Matches c token) then throw ErrUnauthorized else
  n ← sql_insert_when t_relay_authorizations
        (may_authorize id (cred_Hash c) (cred_Generation c) uuid)
        (λ a, auth_UUID a = uuid)
        (mkRelayAuthorization uuid id (cred_Generation c) "permitted" (millis now));
  if bool_decide (n = 1) then ret tt
  else throw (ErrText "relay authorization reused or capacity exhausted").

(** The owner's credential is current: same generation and token, relay enabled. *)
Definition owner_current (id token generation : string) (d : DB) : Prop :=
  Exists (λ c, cred_RelayID c = id ∧ cred_Generation c = generation ∧ cred_Hash c = Hash token
               ∧ relay_enabled d id) (t_relay_credentials d).

#[export] Instance relay_enabled_dec d id : Decision (relay_enabled d id).
Proof. unfold relay_enabled. apply _. Defined.
#[export] Instance owner_current_dec id token generation d :
  Decision (owner_current id token generation d).
Proof. unfold owner_current. apply _. Defined.

(** [checkArchivedRelayEvent]: what an event outside a current authorization is
    answered. *)
Definition checkArchivedRelayEvent (id token : string) (m : Message) : M unit :=
  cred ← try (query_row (λ d,
           select_one (λ c, cred_RelayID c = id ∧ cred_Hash c = Hash token ∧ relay_enabled d id)
             (t_relay_credentials d)));
  match cred with
  | Err ErrNotFound => throw ErrUnauthorized
  | Err e => throw e
  | Ok c =>
      let generation := cred_Generation c in
      auth ← try (query_row (λ d,
               select_one (λ a, auth_UUID a = msg_UUID m) (t_relay_authorizations d)));
      match auth with
      | Ok a => if bool_decide (auth_RelayID a = id) && negb (bool_decide (auth_Generation a = generation))
                then throw ErrStaleGeneration else throw ErrUnauthorized
      | Err ErrNotFound =>
          arch ← try (query_row (λ d,
                   select_one (λ a, archive_UUID a = msg_UUID m) (t_relay_delivery_archive d)));
          match arch with
          | Err ErrNotFound => throw ErrUnauthorized
          | Err e => throw e
          | Ok a =>
              if negb (bool_decide (archive_RelayID a = id)) then throw ErrUnauthorized
              else if negb (bool_decide (archive_Generation a = generation)) then throw ErrStaleGeneration
              else if (bool_decide (msg_Status m = "active")
                       && negb (bool_decide (archive_ActiveEventID a = ""))
                       && bool_decide (msg_RequestID m = archive_ActiveEventID a))
                      || (bool_decide (msg_Status m = "closed")
                          && bool_decide (msg_RequestID m = archive_ClosedEventID a))
                   then ret tt else throw ErrUnauthorized
          end
      | Err e => throw e
      end
  end.

(** The row of the connection projection, and its merge with one that is there. *)
Definition relay_connection (uuid address : string) (now : Z) (closed : option Z) : ConnectionRecord :=
  mkConnectionRecord ("relay:" +:+ uuid) "" "" "" "" "" "" 0 "" "relay" uuid address now now closed.

Definition merge_relay_connection (uuid address : string) (now : Z) (closed : option Z)
    (r : ConnectionRecord) : ConnectionRecord :=
  r <| conn_RelayServer := address |> <| conn_RelayUUID := uuid |> <| conn_Transport := "relay" |>
    <| conn_LastSeenAt := now |>
    <| conn_ClosedAt := match conn_ClosedAt r with Some t => Some t | None => closed end |>.

Definition event_well_formed (m : Message) : bool :=
  negb (bool_decide (msg_RequestID m = "") || (64 <? len (msg_RequestID m))
        || (len (msg_UUID m) <? 8) || (128 <? len (msg_UUID m))
        || negb (bool_decide (msg_Status m = "active") || bool_decide (msg_Status m = "closed"))).

(** [received] and [seen] are the two [time.Now()] of the function. *)
Definition ApplyRelayEvent (id token address : string) (m : Message) (received seen : time) : M unit :=
  if negb (event_well_formed m) then throw ErrUnauthorized else
  tx_rollback
    (n ← sql_update_sub t_relay_authorizations
           (λ d a, auth_UUID a = msg_UUID m ∧ auth_RelayID a = id
                   ∧ owner_current id token (auth_Generation a) d)
           (λ a, a);
     if negb (bool_decide (n = 1)) then ret None else
     a ← query_row (λ d, select_one (λ a, auth_UUID a = msg_UUID m) (t_relay_authorizations d));
     n ← sql_insert_ignore t_relay_event_receipts
           (λ r, receipt_RelayID r = id ∧ receipt_EventID r = msg_RequestID m)
           (mkRelayReceipt id (msg_RequestID m) (msg_UUID m) (auth_Generation a) (msg_Status m)
              (millis received));
     if bool_decide (n = 0) then
       r ← query_row (λ d, select_one (λ r, receipt_RelayID r = id
                                            ∧ receipt_EventID r = msg_RequestID m)
                             (t_relay_event_receipts d));
       if negb (bool_decide (receipt_UUID r = msg_UUID m))
          || negb (bool_decide (receipt_Generation r = auth_Generation a))
          || negb (bool_decide (receipt_State r = msg_Status m))
       then throw ErrUnauthorized else ret (Some tt)
     else
     if bool_decide (auth_State a = "closed") && negb (bool_decide (msg_Status m = "closed"))
     then throw ErrUnauthorized else
     let now := millis seen in
     let closed := if bool_decide (msg_Status m = "closed") then Some now else None in
     n ← sql_upsert_where t_connection_records
           (λ r, conn_Key r = "relay:" +:+ msg_UUID m)
           (λ r, conn_RelayServer r = "" ∨ conn_RelayServer r = address)
           (merge_relay_connection (msg_UUID m) address now closed)
           (relay_connection (msg_UUID m) address now closed);
     if negb (bool_decide (n = 1)) then throw ErrUnauthorized else
     sql_update t_relay_authorizations (λ a, auth_UUID a = msg_UUID m)
       (λ a, a <| auth_State := msg_Status m |>);;
     ret (Some tt))
    (checkArchivedRelayEvent id token m).

(** ** Compaction (relay_operations.go) *)

Definition retention : duration := 30 * 24 * hour.

(** a JOIN e ON e.uuid=a.uuid AND e.state='closed' WHERE a.relay_id=? AND
    a.state='closed' AND e.received_at<? *)
Definition eligible (id : string) (cutoff : Z) (d : DB) : list (RelayAuthorization * RelayReceipt) :=
  filter (λ p, auth_RelayID p.1 = id ∧ auth_State p.1 = "closed" ∧ receipt_ReceivedAt p.2 < cutoff)
    (a ← t_relay_authorizations d;
     (λ e, (a, e)) <$> filter (λ e, receipt_UUID e = auth_UUID a ∧ receipt_State e = "closed")
                         (t_relay_event_receipts d)).

Definition RelayDeliveryCounts (id : string) (now : time) : M DeliveryCounts :=
  query (λ d, mkDeliveryCounts
    (count_where (λ a, auth_RelayID a = id) (t_relay_authorizations d))
    (count_where (λ e, receipt_RelayID e = id) (t_relay_event_receipts d))
    (count_where (λ a, archive_RelayID a = id) (t_relay_delivery_archive d))
    (Z.of_nat (length (eligible id (millis (now - retention)) d)))).

(** The tombstone of an authorization; [None] when the subquery for the closing
    event is NULL. *)
Definition tombstone (uuid : string) (now : time) (d : DB) : option RelayArchive :=
  a ← select_one (λ a, auth_UUID a = uuid) (t_relay_authorizations d);
  closed ← select_one (λ e, receipt_UUID e = uuid ∧ receipt_State e = "closed")
             (t_relay_event_receipts d);
  let active := match select_one (λ e, receipt_UUID e = uuid ∧ receipt_State e = "active")
                        (t_relay_event_receipts d) with
                | Some e => receipt_EventID e
                | None => ""
                end in
  Some (mkRelayArchive uuid (auth_RelayID a) (auth_Generation a) active (receipt_EventID closed)
          (millis now)).

Definition compact_one (id uuid : string) (now : time) : M Z :=
  n ← sql_update t_relay_authorizations
        (λ a, auth_UUID a = uuid ∧ auth_RelayID a = id ∧ auth_State a = "closed") (λ a, a);
  if bool_decide (n = 0) then ret 0 else
  sql_insert_select t_relay_delivery_archive (tombstone uuid now);;
  sql_delete t_relay_event_receipts (λ e, receipt_UUID e = uuid);;
  sql_delete t_relay_authorizations (λ a, auth_UUID a = uuid);;
  ret 1.

Fixpoint compact_all (id : string) (uuids : list string) (now : time) : M Z :=
  match uuids with
  | [] => ret 0
  | uuid :: uuids' =>
      n ← compact_one id uuid now;
      count ← compact_all id uuids' now;
      ret (n + count)
  end.

Definition CompactRelayDelivery (id : string) (now : time) : M Z :=
  tx (ids ← query (λ d, (λ p, auth_UUID p.1) <$>
               take (Z.to_nat 1000) (SliceStable
                 (then_by (λ p q, receipt_ReceivedAt p.2 <? receipt_ReceivedAt q.2)
                          (λ p q, str_lt (auth_UUID p.1) (auth_UUID q.1)))
                 (eligible id (millis (now - retention)) d)));
      compact_all id ids now).

(** ** Relay servers (store.go) *)

Definition scanRelay (r : RelayServer) : RelayServer :=
  r <| relay_CreatedAt := fromMillis (relay_CreatedAt r) |>
    <| relay_UpdatedAt := fromMillis (relay_UpdatedAt r) |>.

(** The columns of the table; the other fields of the struct are not stored. *)
Definition relay_row (v : RelayServer) : RelayServer :=
  mkRelayServer "" false (relay_ID v) (relay_Name v) (relay_Hostname v) (relay_Port v)
    (relay_Region v) (relay_Enabled v) (relay_Health v) (relay_LatencyMS v) (relay_Connections v)
    (relay_Bandwidth v) (millis (relay_CreatedAt v)) (millis (relay_UpdatedAt v)) false.

Definition CreateRelayServer (v : RelayServer) : M unit := sql_insert t_relay_servers (relay_row v).

Definition ListRelayServers : M (list RelayServer) :=
  query (λ d, scanRelay <$> SliceStable
    (then_by (λ a b, relay_Enabled a && negb (relay_Enabled b))
       (then_by (λ a b, str_lt (relay_Region a) (relay_Region b))
                (λ a b, str_lt (relay_Name a) (relay_Name b)))) (t_relay_servers d)).

Definition UpdateRelayServer (v : RelayServer) : M unit :=
  affected (sql_update t_relay_servers (λ r, relay_ID r = relay_ID v)
    (λ r, r <| relay_Name := relay_Name v |> <| relay_Hostname := relay_Hostname v |>
            <| relay_Port := relay_Port v |> <| relay_Region := relay_Region v |>
            <| relay_Enabled := relay_Enabled v |> <| relay_Health := relay_Health v |>
            <| relay_UpdatedAt := millis (relay_UpdatedAt v) |>)).

Definition UpdateRelayHealth (id health : string) (latencyMS : Z) (checkedAt : time) : M unit :=
  affected (sql_update t_relay_servers (λ r, relay_ID r = id)
    (λ r, r <| relay_Health := health |> <| relay_LatencyMS := latencyMS |>
            <| relay_UpdatedAt := millis checkedAt |>)).

Definition set_telemetry (v : RelayServer) (r : RelayServer) : RelayServer :=
  r <| relay_Health := "healthy" |> <| relay_Connections := relay_Connections v |>
    <| relay_Bandwidth := relay_Bandwidth v |> <| relay_UpdatedAt := millis (relay_UpdatedAt v) |>.

(** [sql.ErrNoRows] is not mapped to [ErrNotFound] here; it cannot occur, since
    one of the three statements left a row. *)
Definition UpsertRelayTelemetry (v : RelayServer) : M RelayServer :=
  tx (changed ← sql_update t_relay_servers (λ r, relay_ID r = relay_ID v) (set_telemetry v);
      changed ← (if bool_decide (changed = 0)
                 then sql_update t_relay_servers (λ r, relay_Hostname r = relay_Hostname v
                                                       ∧ relay_Port r = relay_Port v)
                        (set_telemetry v)
                 else ret changed);
      when (bool_decide (changed = 0))
        (sql_insert t_relay_servers
           (mkRelayServer "" false (relay_ID v) (relay_Name v) (relay_Hostname v) (relay_Port v)
              (relay_Region v) true "healthy" 0 (relay_Connections v) (relay_Bandwidth v)
              (millis (relay_UpdatedAt v)) (millis (relay_UpdatedAt v)) false));;
      r ← query_row (λ d,
            match select_one (λ r, relay_ID r = relay_ID v) (t_relay_servers d) with
            | Some r => Some r
            | None => select_one (λ r, relay_Hostname r = relay_Hostname v
                                       ∧ relay_Port r = relay_Port v) (t_relay_servers d)
            end);
      ret (scanRelay r)).

(** DELETE FROM relay_servers: the ON DELETE CASCADE of the four tables that
    reference it takes the rows of the deleted server along. *)
Definition DeleteRelayServer (id : string) : M unit :=
  affected (exec (λ d,
    let n := count_where (λ r, relay_ID r = id) (t_relay_servers d) in
    if bool_decide (n = 0) then Ok (0, d) else
    Ok (n,
        d <| t_relay_servers := delete_where (λ r, relay_ID r = id) (t_relay_servers d) |>
          <| t_relay_credentials := delete_where (λ c, cred_RelayID c = id) (t_relay_credentials d) |>
          <| t_relay_authorizations :=
               delete_where (λ a, auth_RelayID a = id) (t_relay_authorizations d) |>
          <| t_relay_event_receipts :=
               delete_where (λ e, receipt_RelayID e = id) (t_relay_event_receipts d) |>
          <| t_relay_delivery_archive :=
               delete_where (λ a, archive_RelayID a = id) (t_relay_delivery_archive d) |>))).

(** ** Metrics *)

Definition AppendRelayMetric (value : RelayMetric) : M unit :=
  let row := value <| metric_RecordedAt := millis (metric_RecordedAt value) |> in
  sql_upsert t_relay_metrics
    (λ m, metric_RelayID m = metric_RelayID row ∧ metric_RecordedAt m = metric_RecordedAt row)
    (λ _, row) row.

Definition ListRelayMetrics (relayID : string) (since : time) (limit0 : Z) : M (list RelayMetric) :=
  let limit := if (limit0 <? 1) || (5000 <? limit0) then 1000 else limit0 in
  query (λ d, (λ m, m <| metric_RecordedAt := fromMillis (metric_RecordedAt m) |>) <$>
    take (Z.to_nat limit)
      (SliceStable (λ a b, metric_RecordedAt b <? metric_RecordedAt a)
         (filter (λ m, metric_RelayID m = relayID ∧ millis since ≤ metric_RecordedAt m)
            (t_relay_metrics d)))).

Definition PruneRelayMetrics (before : time) : M unit :=
  discard (sql_delete t_relay_metrics (λ m, metric_RecordedAt m < millis before)).
