(* ===== verification/Relay.v ===== *)
(** * The durable relay control plane: theorems

    What the tables of authorizations, receipts and tombstones together say
    about a relay connection is a [delivery]: its owner, its generation and the
    events that were accepted.  The operations of the store only add to it
    ([record_step]), compaction keeps it, and an acknowledged event stays
    acknowledged.  The phases of a connection are in Delivery.v. *)

From S2P Require Export StoreRelay.

(** ** The abstract delivery record of a connection *)

Record delivery := mkDelivery {
  dl_owner : string; dl_generation : string;
  dl_active : option string; dl_closed : option string }.
#[export] Instance eta_delivery : Eta delivery := λ r,
  mkDelivery (dl_owner r) (dl_generation r) (dl_active r) (dl_closed r).

Definition event_of (d : DB) (uuid state : string) : option string :=
  receipt_EventID <$> select_one (λ e, receipt_UUID e = uuid ∧ receipt_State e = state)
                        (t_relay_event_receipts d).

Definition delivery_of (d : DB) (uuid : string) : option delivery :=
  match select_one (λ a, auth_UUID a = uuid) (t_relay_authorizations d) with
  | Some a => Some (mkDelivery (auth_RelayID a) (auth_Generation a)
                      (event_of d uuid "active") (event_of d uuid "closed"))
  | None =>
      (λ x, mkDelivery (archive_RelayID x) (archive_Generation x)
              (if bool_decide (archive_ActiveEventID x = "") then None
               else Some (archive_ActiveEventID x))
              (Some (archive_ClosedEventID x))) <$>
      select_one (λ x, archive_UUID x = uuid) (t_relay_delivery_archive d)
  end.

(** The state machine: created without events, at most one event of each kind,
    none after the closing one, and never forgotten. *)
Inductive record_step : option delivery → option delivery → Prop :=
| step_stutter x : record_step x x
| step_authorize owner generation :
    record_step None (Some (mkDelivery owner generation None None))
| step_activate x e :
    dl_active x = None → dl_closed x = None →
    record_step (Some x) (Some (x <| dl_active := Some e |>))
| step_close x e :
    dl_closed x = None →
    record_step (Some x) (Some (x <| dl_closed := Some e |>)).

(** ** The invariant of the three tables *)

Record relay_inv (d : DB) : Prop := {
  inv_auth : NoDup (auth_UUID <$> t_relay_authorizations d);
  inv_events : NoDup ((λ r, (receipt_RelayID r, receipt_EventID r)) <$> t_relay_event_receipts d);
  inv_states : NoDup ((λ r, (receipt_UUID r, receipt_State r)) <$> t_relay_event_receipts d);
  inv_archive : NoDup (archive_UUID <$> t_relay_delivery_archive d);
  inv_owner : ∀ e, e ∈ t_relay_event_receipts d →
    ∃ a, a ∈ t_relay_authorizations d ∧ auth_UUID a = receipt_UUID e
         ∧ auth_RelayID a = receipt_RelayID e ∧ auth_Generation a = receipt_Generation e;
  inv_closed : ∀ e a, e ∈ t_relay_event_receipts d → a ∈ t_relay_authorizations d →
    receipt_State e = "closed" → auth_UUID a = receipt_UUID e → auth_State a = "closed";
  inv_id : ∀ e, e ∈ t_relay_event_receipts d → receipt_EventID e ≠ "";
  inv_disjoint : ∀ x a, x ∈ t_relay_delivery_archive d → a ∈ t_relay_authorizations d →
    archive_UUID x ≠ auth_UUID a
}.

Inductive relay_op :=
| OpPutRelayEnrollment (c : Credential)
| OpConsumeRelayEnrollment (id enrollmentHash tokenHash : string) (now : time)
| OpRevokeRelayCredential (id : string) (now : time)
| OpAuthorizeRelay (id token uuid : string) (now : time)
| OpApplyRelayEvent (id token address : string) (m : Message) (received seen : time)
| OpCompactRelayDelivery (id : string) (now : time)
| OpCreateRelayServer (v : RelayServer)
| OpUpdateRelayServer (v : RelayServer)
| OpUpdateRelayHealth (id health : string) (latencyMS : Z) (checkedAt : time)
| OpUpsertRelayTelemetry (v : RelayServer)
| OpAppendRelayMetric (v : RelayMetric)
| OpPruneRelayMetrics (before : time).

Definition run_relay_op (op : relay_op) : M unit :=
  match op with
  | OpPutRelayEnrollment c => PutRelayEnrollment c
  | OpConsumeRelayEnrollment id e t now => ConsumeRelayEnrollment id e t now
  | OpRevokeRelayCredential id now => RevokeRelayCredential id now
  | OpAuthorizeRelay id token uuid now => AuthorizeRelay id token uuid now
  | OpApplyRelayEvent id token address m t1 t2 => ApplyRelayEvent id token address m t1 t2
  | OpCompactRelayDelivery id now => discard (CompactRelayDelivery id now)
  | OpCreateRelayServer v => CreateRelayServer v
  | OpUpdateRelayServer v => UpdateRelayServer v
  | OpUpdateRelayHealth id h l now => UpdateRelayHealth id h l now
  | OpUpsertRelayTelemetry v => discard (UpsertRelayTelemetry v)
  | OpAppendRelayMetric v => AppendRelayMetric v
  | OpPruneRelayMetrics before => PruneRelayMetrics before
  end.

(** What is kept together by every operation. *)
Definition refines (d d' : DB) : Prop :=
  relay_inv d → relay_inv d' ∧ ∀ uuid, record_step (delivery_of d uuid) (delivery_of d' uuid).

(** The three tables are untouched. *)
Definition same_delivery (d d' : DB) : Prop :=
  t_relay_authorizations d' = t_relay_authorizations d
  ∧ t_relay_event_receipts d' = t_relay_event_receipts d
  ∧ t_relay_delivery_archive d' = t_relay_delivery_archive d.

Lemma same_delivery_inv d d' : same_delivery d d' → relay_inv d → relay_inv d'.
Proof.
  intros (E1 & E2 & E3) [????????]. constructor; rewrite ?E1, ?E2, ?E3; done.
Qed.

Lemma same_delivery_of d d' uuid : same_delivery d d' → delivery_of d' uuid = delivery_of d uuid.
Proof. intros (E1 & E2 & E3). unfold delivery_of, event_of. by rewrite E1, E2, E3. Qed.

Lemma refines_same d d' : same_delivery d d' → refines d d'.
Proof.
  intros Hs Hinv. split; [by eapply same_delivery_inv|]. intros uuid.
  rewrite (same_delivery_of d d') by done. constructor.
Qed.

Lemma refines_refl d : refines d d.
Proof. by apply refines_same. Qed.

(** A new authorization: the connection was unknown, and now has a record
    without events. *)
Lemma authorize_unknown d d' row :
  relay_inv d → t_relay_authorizations d' = t_relay_authorizations d ++ [row] →
  relay_authorizations_ok d' →
  auth_UUID row ∉ (auth_UUID <$> t_relay_authorizations d)
  ∧ ∀ e, e ∈ t_relay_event_receipts d → receipt_UUID e ≠ auth_UUID row.
Proof.
  intros Hinv E1 [Hnd _]. rewrite E1 in Hnd. apply NoDup_fmap_snoc in Hnd as [_ Hnew].
  split; [done|]. intros e He Heq. destruct (inv_owner d Hinv e He) as (a & Ha & Hau & _).
  apply Hnew. rewrite <- Heq, <- Hau. by apply list_elem_of_fmap_2.
Qed.

Lemma delivery_authorized d d' row :
  relay_inv d → t_relay_authorizations d' = t_relay_authorizations d ++ [row] →
  t_relay_event_receipts d' = t_relay_event_receipts d →
  t_relay_delivery_archive d' = t_relay_delivery_archive d →
  relay_authorizations_ok d' →
  (∀ x, x ∈ t_relay_delivery_archive d → archive_UUID x ≠ auth_UUID row) →
  delivery_of d (auth_UUID row) = None
  ∧ ∀ uuid, delivery_of d' uuid
      = if decide (auth_UUID row = uuid)
        then Some (mkDelivery (auth_RelayID row) (auth_Generation row) None None)
        else delivery_of d uuid.
Proof.
  intros Hinv E1 E2 E3 Hok Harch.
  destruct (authorize_unknown d d' row Hinv E1 Hok) as [Hnew Hno].
  assert (Ha : select_one (λ a, auth_UUID a = auth_UUID row) (t_relay_authorizations d) = None).
  { apply select_one_None. intros a Ha Hau. apply Hnew. rewrite <- Hau. by apply list_elem_of_fmap_2. }
  assert (Hx : select_one (λ x, archive_UUID x = auth_UUID row) (t_relay_delivery_archive d) = None)
    by (apply select_one_None; auto).
  split; [unfold delivery_of; by rewrite Ha, Hx|]. intros uuid.
  unfold delivery_of, event_of. rewrite E1, E2, E3, select_one_app, select_one_singleton.
  case_decide as Hu.
  - subst uuid. rewrite Ha.
    by rewrite !(proj2 (select_one_None _ (t_relay_event_receipts d))) by (intros x Hx' [? _]; by apply (Hno x)).
  - by destruct (select_one (λ a, auth_UUID a = uuid) (t_relay_authorizations d)).
Qed.

Lemma refines_authorize d d' row :
  t_relay_authorizations d' = t_relay_authorizations d ++ [row] →
  t_relay_event_receipts d' = t_relay_event_receipts d →
  t_relay_delivery_archive d' = t_relay_delivery_archive d →
  relay_authorizations_ok d' → auth_State row = "permitted" →
  (∀ x, x ∈ t_relay_delivery_archive d → archive_UUID x ≠ auth_UUID row) →
  refines d d'.
Proof.
  intros E1 E2 E3 Hok Hst Harch Hinv.
  destruct (authorize_unknown d d' row Hinv E1 Hok) as [_ Hno].
  destruct (delivery_authorized d d' row Hinv E1 E2 E3 Hok Harch) as [Hold Hnew].
  split.
  - pose proof (proj1 Hok) as Hnd. rewrite E1 in Hnd.
    destruct Hinv. constructor; rewrite ?E1, ?E2, ?E3; try done.
    + intros e He. destruct (inv_owner0 e He) as (a & ? & ?). exists a. set_solver.
    + intros e a He [Ha| ->%list_elem_of_singleton]%elem_of_app Hc Hu; [eauto|].
      by destruct (Hno e He).
    + intros x a Hx [Ha| ->%list_elem_of_singleton]%elem_of_app; eauto.
  - intros uuid. rewrite Hnew. case_decide as Hu; [|constructor]. subst uuid. rewrite Hold. constructor.
Qed.

(** A new event of an authorized connection. *)
Lemma event_of_insert d d' row uuid state :
  t_relay_event_receipts d' = t_relay_event_receipts d ++ [row] →
  NoDup ((λ r, (receipt_UUID r, receipt_State r)) <$> t_relay_event_receipts d') →
  event_of d' uuid state
  = if decide (receipt_UUID row = uuid ∧ receipt_State row = state)
    then Some (receipt_EventID row) else event_of d uuid state.
Proof.
  intros E Hnd. rewrite E in Hnd. apply NoDup_fmap_snoc in Hnd as [_ Hnew].
  unfold event_of. rewrite E, select_one_app, select_one_singleton.
  case_decide as Hd.
  - rewrite (proj2 (select_one_None _ _)); [done|]. intros r Hr Hr'. apply Hnew. cbn.
    destruct Hd as [-> ->], Hr' as [<- <-].
    by apply (list_elem_of_fmap_2 (λ r, (receipt_UUID r, receipt_State r))).
  - by destruct (select_one _ _).
Qed.

Lemma event_of_fresh d row :
  NoDup ((λ r, (receipt_UUID r, receipt_State r)) <$> t_relay_event_receipts d ++ [row]) →
  event_of d (receipt_UUID row) (receipt_State row) = None.
Proof.
  intros [_ Hnew]%NoDup_fmap_snoc. unfold event_of.
  rewrite (proj2 (select_one_None _ _)); [done|]. intros r Hr [Hu Hs]. apply Hnew. cbn.
  rewrite <- Hu, <- Hs. by apply (list_elem_of_fmap_2 (λ r, (receipt_UUID r, receipt_State r))).
Qed.

(** No closing event unless the authorization is closed. *)
Lemma event_of_open d a :
  relay_inv d → a ∈ t_relay_authorizations d → auth_State a ≠ "closed" →
  event_of d (auth_UUID a) "closed" = None.
Proof.
  intros Hinv Ha Hst. unfold event_of. rewrite (proj2 (select_one_None _ _)); [done|].
  intros e He [Hu Hs]. apply Hst. by eapply (inv_closed d Hinv e a).
Qed.

(** The field of the record that an event of this kind fills. *)
Definition event_slot (st : string) (x : delivery) : option string :=
  if bool_decide (st = "active") then dl_active x else dl_closed x.

Definition record_event (st e : string) (x : delivery) : delivery :=
  if bool_decide (st = "active") then x <| dl_active := Some e |> else x <| dl_closed := Some e |>.

(** The receipt [row] of an event is new, and moves the authorization of its
    connection to the state [st] it reports. *)
Record new_event (d d' : DB) (row : RelayReceipt) (a : RelayAuthorization) (st : string) : Prop := {
  ne_auth : t_relay_authorizations d'
    = update_where (λ a, auth_UUID a = receipt_UUID row) (λ a, a <| auth_State := st |>)
        (t_relay_authorizations d);
  ne_receipts : t_relay_event_receipts d' = t_relay_event_receipts d ++ [row];
  ne_archive : t_relay_delivery_archive d' = t_relay_delivery_archive d;
  ne_ok : relay_event_receipts_ok d';
  ne_state : st = receipt_State row;
  ne_kind : st = "active" ∨ st = "closed";
  ne_id : receipt_EventID row ≠ "";
  ne_row : select_one (λ a, auth_UUID a = receipt_UUID row) (t_relay_authorizations d) = Some a;
  ne_owner : auth_RelayID a = receipt_RelayID row;
  ne_generation : auth_Generation a = receipt_Generation row;
  ne_open : auth_State a = "closed" → st = "closed"
}.

Lemma delivery_recorded d d' row a st :
  relay_inv d → new_event d d' row a st →
  ∃ x, delivery_of d (receipt_UUID row) = Some x
    ∧ dl_owner x = receipt_RelayID row ∧ dl_generation x = receipt_Generation row
    ∧ event_slot st x = None ∧ (st = "active" → dl_closed x = None)
    ∧ ∀ uuid, delivery_of d' uuid
        = if decide (uuid = receipt_UUID row) then Some (record_event st (receipt_EventID row) x)
          else delivery_of d uuid.
Proof.
  intros Hinv [E1 E2 E3 (Hev & Hstates & _) Hst Hkind _ Hsel Har Hag Hacl].
  set (u := receipt_UUID row) in *. pose proof (select_one_Some _ _ _ Hsel) as [Ha Hau].
  assert (Hst0 : event_of d u st = None).
  { rewrite Hst. apply event_of_fresh. by rewrite <- E2. }
  assert (Hcl0 : st = "active" → event_of d u "closed" = None).
  { intros ->. rewrite <- Hau. apply event_of_open; [done..|]. by intros ?%Hacl. }
  exists (mkDelivery (auth_RelayID a) (auth_Generation a) (event_of d u "active") (event_of d u "closed")).
  split_and!; [unfold delivery_of; by rewrite Hsel|done..| | |]; [|done|].
  { unfold event_slot. by destruct Hkind as [-> | ->]. }
  intros uuid. unfold delivery_of. rewrite E1, E3, select_one_update by done.
  rewrite !(event_of_insert d d' row) by done. fold u.
  destruct (decide (uuid = u)) as [->|Hne].
  - rewrite Hsel. cbn. rewrite decide_True by done. cbn. rewrite <- Hst. unfold record_event.
    destruct Hkind as [Hk|Hk]; rewrite Hk.
    + rewrite decide_True, decide_False by naive_solver. done.
    + rewrite decide_False, decide_True by naive_solver. done.
  - rewrite !decide_False by naive_solver.
    destruct (select_one (λ a, auth_UUID a = uuid) (t_relay_authorizations d)) as [b|] eqn:Hb; cbn; [|done].
    apply select_one_Some in Hb as [_ Hbu]. by rewrite decide_False by congruence.
Qed.

Lemma new_event_inv d d' row a st : relay_inv d → new_event d d' row a st → relay_inv d'.
Proof.
  intros [] [E1 E2 E3 (Hev & Hstates & _) Hst Hkind Hid Hsel Har Hag Hacl].
  apply select_one_Some in Hsel as [Ha Hau].
  constructor; rewrite ?E1, ?E2, ?E3; try done.
  - by rewrite fmap_update_where.
  - by rewrite <- E2.
  - by rewrite <- E2.
  - intros e [He| ->%list_elem_of_singleton]%elem_of_app.
    + destruct (inv_owner0 e He) as (b & Hb & ? & ? & ?).
      exists (if decide (auth_UUID b = receipt_UUID row) then b <| auth_State := st |> else b).
      split; [apply elem_of_update_where; eauto|]. by case_decide.
    + exists (a <| auth_State := st |>). split; [|done]. apply elem_of_update_where.
      exists a. by rewrite decide_True.
  - intros e b [He| ->%list_elem_of_singleton]%elem_of_app (b0 & Hb0 & ->)%elem_of_update_where Hc Hu.
    + case_decide as Hbu; [|eauto]. cbn in *.
      assert (b0 = a) as -> by (eapply (unique_row auth_UUID); [done..|congruence]).
      apply Hacl. eauto.
    + case_decide as Hbu; [cbn in *; congruence|]. by destruct Hbu.
  - intros e [He| ->%list_elem_of_singleton]%elem_of_app; eauto.
  - intros x b Hx (b0 & Hb0 & ->)%elem_of_update_where. case_decide; by eapply (inv_disjoint0 x b0).
Qed.

Lemma refines_event d d' row a st : new_event d d' row a st → refines d d'.
Proof.
  intros Hn Hinv. split; [by eapply new_event_inv|]. intros uuid.
  destruct (delivery_recorded d d' row a st Hinv Hn) as (x & Hx & _ & _ & Hslot & Hcl & Hnew).
  rewrite Hnew. case_decide as Hu; [subst uuid|constructor]. rewrite Hx.
  unfold record_event, event_slot in *. destruct (ne_kind _ _ _ _ _ Hn) as [-> | ->]; cbn in *.
  - apply step_activate; auto.
  - by apply step_close.
Qed.

Lemma tombstone_Some uuid now d x :
  tombstone uuid now d = Some x →
  ∃ a c, select_one (λ a, auth_UUID a = uuid) (t_relay_authorizations d) = Some a
    ∧ select_one (λ e, receipt_UUID e = uuid ∧ receipt_State e = "closed")
        (t_relay_event_receipts d) = Some c
    ∧ x = mkRelayArchive uuid (auth_RelayID a) (auth_Generation a)
            (default "" (event_of d uuid "active")) (receipt_EventID c) (millis now).
Proof.
  unfold tombstone, event_of. intros (a & Ha & (c & Hc & Hx)%bind_Some)%bind_Some.
  injection Hx as <-. exists a, c. split_and!; [done..|].
  by destruct (select_one (λ e, receipt_UUID e = uuid ∧ receipt_State e = "active") _).
Qed.

(** A compacted authorization: its tombstone says the same. *)
Lemma compact_invisible d d' uuid x now :
  relay_inv d → tombstone uuid now d = Some x →
  t_relay_delivery_archive d' = t_relay_delivery_archive d ++ [x] →
  relay_delivery_archive_ok d' →
  t_relay_event_receipts d' = delete_where (λ e, receipt_UUID e = uuid) (t_relay_event_receipts d) →
  t_relay_authorizations d' = delete_where (λ a, auth_UUID a = uuid) (t_relay_authorizations d) →
  relay_inv d' ∧ ∀ u, delivery_of d' u = delivery_of d u.
Proof.
  intros Hinv Hx E3 [Harch _] E2 E1.
  apply tombstone_Some in Hx as (a & c & Ha & Hc & Hx).
  assert (Hxu : archive_UUID x = uuid) by (by subst x).
  split.
  - destruct Hinv. constructor; rewrite ?E1, ?E2, ?E3; try by apply NoDup_fmap_delete_where.
    + by rewrite <- E3.
    + intros e [He Hne]%elem_of_delete_where. destruct (inv_owner0 e He) as (b & Hb & Hbu & ?).
      exists b. split; [|done]. apply elem_of_delete_where. split; [done|]. congruence.
    + intros e b [He _]%elem_of_delete_where [Hb _]%elem_of_delete_where. eauto.
    + intros e [He _]%elem_of_delete_where. eauto.
    + intros y b [Hy| ->%list_elem_of_singleton]%elem_of_app [Hb Hbu]%elem_of_delete_where;
        [eauto|congruence].
  - intros u. unfold delivery_of, event_of. rewrite E1, E2, E3.
    destruct (decide (u = uuid)) as [->|Hne].
    + rewrite (select_one_deleted (λ a, auth_UUID a = uuid)) by done.
      rewrite select_one_app, select_one_singleton.
      rewrite (proj2 (select_one_None _ (t_relay_delivery_archive d))).
      2:{ intros y Hy Hyu. rewrite E3 in Harch. apply NoDup_fmap_snoc in Harch as [_ Hnew].
          apply Hnew. rewrite Hxu, <- Hyu. by apply list_elem_of_fmap_2. }
      rewrite decide_True by done. rewrite Ha, Hc, Hx. cbn. unfold event_of.
      destruct (select_one (λ e, receipt_UUID e = uuid ∧ receipt_State e = "active") _) as [e|] eqn:He;
        cbn; [|done].
      apply select_one_Some in He as [He _]. by rewrite bool_decide_false by (by eapply inv_id).
    + rewrite !select_one_delete by naive_solver. rewrite select_one_app, select_one_singleton.
      rewrite decide_False by congruence.
      by destruct (select_one (λ x, archive_UUID x = u) (t_relay_delivery_archive d)).
Qed.

(** ** The operations *)

Definition keeps_delivery (d d' : DB) : Prop :=
  relay_inv d → relay_inv d' ∧ ∀ u, delivery_of d' u = delivery_of d u.

Lemma keeps_refines d d' : keeps_delivery d d' → refines d d'.
Proof. intros Hk Hinv. destruct (Hk Hinv) as [? Heq]. split; [done|]. intros u. rewrite Heq. constructor. Qed.

Lemma keeps_trans d1 d2 d3 : keeps_delivery d1 d2 → keeps_delivery d2 d3 → keeps_delivery d1 d3.
Proof.
  intros H12 H23 Hinv. destruct (H12 Hinv) as [Hinv2 E12]. destruct (H23 Hinv2) as [Hinv3 E23].
  split; [done|]. intros u. by rewrite E23.
Qed.

Lemma compact_one_keeps id uuid now d h :
  wp true (compact_one id uuid now) (λ r d' _, is_ok r = true → keeps_delivery d d') d h.
Proof.
  unfold compact_one. wp_go; try done; intros _ Hinv.
  - assert (Hs : same_delivery d d0)
      by (split_and!; read_tables; by rewrite ?update_where_id).
    split; [by eapply same_delivery_inv|]. intros u. by apply same_delivery_of.
  - assert (Hs : same_delivery d d0)
      by (split_and!; read_tables; by rewrite ?update_where_id).
    assert (Hinv0 : relay_inv d0) by (by eapply same_delivery_inv).
    destruct (compact_invisible d0 d3 uuid r now) as [Hinv3 Heq]; [done|done|by read_tables| |by read_tables..|].
    { match goal with Hok : tbl_ok t_relay_delivery_archive ?d1 |- _ => hnf in Hok; revert Hok end.
      unfold relay_delivery_archive_ok. by read_tables. }
    split; [done|]. intros u. rewrite Heq. by apply same_delivery_of.
Qed.

Lemma compact_all_keeps id uuids now d h :
  wp true (compact_all id uuids now) (λ r d' _, is_ok r = true → keeps_delivery d d') d h.
Proof.
  revert d h. induction uuids as [|uuid uuids IH]; intros d h; cbn [compact_all].
  { apply wp_ret. by intros _ Hinv. }
  apply wp_bind. eapply wp_mono; [apply compact_one_keeps|]. intros [n|e] d1 h1 H1; [|done].
  apply wp_bind. eapply wp_mono; [apply IH|]. intros [n'|e] d2 h2 H2; [|done].
  apply wp_ret. intros _. eapply keeps_trans; [by apply H1|by apply H2].
Qed.

Lemma CompactRelayDelivery_keeps id now d h :
  wp true (CompactRelayDelivery id now) (λ _ d' _, keeps_delivery d d') d h.
Proof.
  unfold CompactRelayDelivery. apply wp_tx; [by intros _ Hinv|]. apply wp_bind, wp_query; [by intros _ Hinv|].
  eapply wp_mono; [apply compact_all_keeps|]. intros [n|e] d' h' Hd'; [|by intros Hinv].
  split; [by apply Hd'|by intros _ Hinv].
Qed.

(** An event outside a current authorization writes nothing. *)
Lemma checkArchivedRelayEvent_reads id token m d h :
  wp true (checkArchivedRelayEvent id token m) (λ _ d' _, d' = d) d h.
Proof. unfold checkArchivedRelayEvent. wp_go; done. Qed.

(** The update that locks the row finds the connection's own authorization. *)
Lemma locked_row d id token m :
  NoDup (auth_UUID <$> t_relay_authorizations d) →
  count_where (λ a, auth_UUID a = msg_UUID m ∧ auth_RelayID a = id
                    ∧ owner_current id token (auth_Generation a) d) (t_relay_authorizations d) = 1 →
  ∃ a, a ∈ t_relay_authorizations d ∧ auth_UUID a = msg_UUID m ∧ auth_RelayID a = id
       ∧ owner_current id token (auth_Generation a) d
       ∧ ∀ b, select_one (λ a, auth_UUID a = msg_UUID m) (t_relay_authorizations d) = Some b → b = a.
Proof.
  intros Hnd Hc. apply count_where_ex in Hc as Hex; [|done].
  destruct Hex as (a & Ha & Hu & Hr & Ho).
  exists a. split_and!; try done. intros b [Hb Hbu]%select_one_Some.
  eapply (unique_row auth_UUID); [done..|congruence].
Qed.

(** The relay's current credential lets it report the event, and the event is on
    record, in the receipts or in the tombstone. *)
Definition on_record (x : delivery) (m : Message) : Prop :=
  (msg_Status m = "active" ∧ dl_active x = Some (msg_RequestID m))
  ∨ (msg_Status m = "closed" ∧ dl_closed x = Some (msg_RequestID m)).

Definition acknowledged (d : DB) (id token : string) (m : Message) : Prop :=
  ∃ x, delivery_of d (msg_UUID m) = Some x ∧ dl_owner x = id
       ∧ owner_current id token (dl_generation x) d ∧ on_record x m.

Lemma event_of_receipt d r :
  NoDup ((λ r, (receipt_UUID r, receipt_State r)) <$> t_relay_event_receipts d) →
  r ∈ t_relay_event_receipts d →
  event_of d (receipt_UUID r) (receipt_State r) = Some (receipt_EventID r).
Proof.
  intros Hnd Hr. unfold event_of.
  destruct (select_one _ _) as [r'|] eqn:Hs.
  - apply select_one_Some in Hs as [Hr' [Hu Hst]]. cbn. f_equal. f_equal.
    eapply (unique_row (λ r, (receipt_UUID r, receipt_State r))); [done..|]. cbn. congruence.
  - rewrite select_one_None in Hs. by destruct (Hs r).
Qed.

Lemma acknowledged_receipt d id token m a r :
  relay_inv d → event_well_formed m = true →
  a ∈ t_relay_authorizations d → auth_UUID a = msg_UUID m → auth_RelayID a = id →
  owner_current id token (auth_Generation a) d →
  r ∈ t_relay_event_receipts d → receipt_UUID r = msg_UUID m → receipt_State r = msg_Status m →
  receipt_EventID r = msg_RequestID m → acknowledged d id token m.
Proof.
  intros Hinv Hwf Ha Hau Hao Hcur Hr Hru Hrs Hre.
  exists (mkDelivery id (auth_Generation a) (event_of d (msg_UUID m) "active")
            (event_of d (msg_UUID m) "closed")). split_and!; [|done..|].
  - unfold delivery_of. rewrite <- Hau, (select_one_unique auth_UUID _ a) by (done || apply Hinv).
    by rewrite Hao.
  - pose proof (event_of_receipt d r (inv_states d Hinv) Hr) as He.
    rewrite Hru, Hrs, Hre in He. unfold on_record. cbn.
    assert (Hst : msg_Status m = "active" ∨ msg_Status m = "closed").
    { unfold event_well_formed in Hwf. rewrite negb_true_iff, !orb_false_iff, negb_false_iff in Hwf.
      destruct Hwf as [_ Hwf]. apply orb_true_iff in Hwf as [?%bool_decide_eq_true|?%bool_decide_eq_true]; auto. }
    destruct Hst as [Hst|Hst]; rewrite Hst in *; auto.
Qed.

(** What an accepted event did: nothing, or it was recorded as a new one by the
    owner of the connection. *)
Definition event_effect (id token : string) (m : Message) (d d' : DB) : Prop :=
  d' = d
  ∨ ∃ a received,
      new_event d d' (mkRelayReceipt id (msg_RequestID m) (msg_UUID m) (auth_Generation a) (msg_Status m)
                        received) a (msg_Status m)
      ∧ owner_current id token (auth_Generation a) d.

Definition event_post (id token : string) (m : Message) (d : DB) (r : res unit) (d' : DB) : Prop :=
  refines d d'
  ∧ match r with
    | Ok _ => relay_inv d → acknowledged d' id token m ∧ event_effect id token m d d'
    | Err _ => d' = d
    end.

Lemma event_post_err id token m d e : event_post id token m d (Err e) d.
Proof. split; [apply refines_refl|done]. Qed.
#[local] Hint Resolve event_post_err : core.

Lemma event_post_replay id token m d :
  (relay_inv d → acknowledged d id token m) → event_post id token m d (Ok tt) d.
Proof. intros Hack. split; [apply refines_refl|]. intros Hinv. split; [by apply Hack|by left]. Qed.

Lemma checkArchivedRelayEvent_post id token m d h :
  wp true (checkArchivedRelayEvent id token m) (λ r d' _, event_post id token m d r d') d h.
Proof.
  unfold checkArchivedRelayEvent. wp_go; try (by auto).
  apply event_post_replay. intros _. simplify_bool.
  apply select_one_Some in Heqo as [Hc (Hcid & Hch & Hen)].
  eexists. split_and!; [unfold delivery_of; rewrite Heqo0, Heqo1; reflexivity|done| |]; cbn.
  - apply Exists_exists. exists c. cbn. by split_and!.
  - unfold on_record. cbn. destruct Heqb1; simplify_bool; [left|right]; [|split; congruence].
    rewrite bool_decide_false by done. split; congruence.
Qed.

(** [SET state=state] changes nothing. *)
Lemma lock_noop d d' P `{∀ x : RelayAuthorization, Decision (P x)} :
  d' = write t_relay_authorizations (update_where P (λ a, a) (t_relay_authorizations d)) d → d' = d.
Proof. intros ->. rewrite update_where_id. by destruct d. Qed.

Lemma event_status m : event_well_formed m = true → msg_Status m = "active" ∨ msg_Status m = "closed".
Proof.
  unfold event_well_formed. intros Hwf. simplify_bool.
  match goal with H : _ ∨ _ |- _ => destruct H end; simplify_bool; auto.
Qed.

Lemma new_event_post id token m received d d' row a st :
  event_well_formed m = true →
  count_where (λ a, auth_UUID a = msg_UUID m ∧ auth_RelayID a = id
                    ∧ owner_current id token (auth_Generation a) d) (t_relay_authorizations d) = 1 →
  select_one (λ a, auth_UUID a = msg_UUID m) (t_relay_authorizations d) = Some a →
  t_relay_authorizations d'
    = update_where (λ a, auth_UUID a = msg_UUID m) (λ a, a <| auth_State := st |>)
        (t_relay_authorizations d) →
  t_relay_event_receipts d' = t_relay_event_receipts d ++ [row] →
  t_relay_delivery_archive d' = t_relay_delivery_archive d →
  t_relay_credentials d' = t_relay_credentials d → t_relay_servers d' = t_relay_servers d →
  relay_event_receipts_ok d' →
  st = msg_Status m → (auth_State a = "closed" → msg_Status m = "closed") →
  row = mkRelayReceipt id (msg_RequestID m) (msg_UUID m) (auth_Generation a) (msg_Status m)
          (millis received) →
  event_post id token m d (Ok tt) d'.
Proof.
  intros Hwf Hn Hsel E1 E2 E3 E4 E5 Hok -> Hcl ->.
  set (row := mkRelayReceipt id (msg_RequestID m) (msg_UUID m) (auth_Generation a) (msg_Status m)
                (millis received)) in *.
  assert (Hnew : relay_inv d →
            new_event d d' row a (msg_Status m) ∧ owner_current id token (auth_Generation a) d).
  { intros Hinv. destruct (locked_row d id token m (inv_auth d Hinv) Hn) as (b & Hb & Hbu & Hbo & Hcur & Huniq).
    assert (b = a) as -> by (symmetry; by apply Huniq). split; [|done].
    constructor; try done; [by apply event_status|].
    unfold event_well_formed in Hwf. by simplify_bool. }
  split; [intros Hinv; destruct (Hnew Hinv); by eapply refines_event|].
  intros Hinv. destruct (Hnew Hinv) as [Hne Hcur]. split; [|right; by exists a, (millis received)].
  pose proof (select_one_Some _ _ _ Hsel) as [Ha Hau].
  apply (acknowledged_receipt d' id token m (a <| auth_State := msg_Status m |>) row); try done.
  - by eapply new_event_inv.
  - rewrite E1. apply elem_of_update_where. exists a. by rewrite decide_True.
  - by apply (ne_owner _ _ _ _ _ Hne).
  - unfold owner_current, relay_enabled. by rewrite E4, E5.
  - rewrite E2. set_solver.
Qed.

Lemma ApplyRelayEvent_post id token address m received seen d h :
  wp true (ApplyRelayEvent id token address m received seen)
    (λ r d' _, event_post id token m d r d') d h.
Proof.
  unfold ApplyRelayEvent.
  repeat (lazymatch goal with
          | |- wp _ (checkArchivedRelayEvent _ _ _) _ _ _ => apply checkArchivedRelayEvent_post
          | _ => wp_step; cbv beta iota
          end); try discriminate; try (by auto).
  all: simplify_bool.
  all: match goal with E : ?x = write t_relay_authorizations (update_where _ (λ a, a) _) ?y |- _ =>
         apply lock_noop in E; subst x end.
  { apply event_post_replay. intros Hinv.
    destruct (locked_row d id token m (inv_auth d Hinv) Heqb0) as (a & Ha & Hau & Hao & Hcur & Huniq).
    apply select_one_Some in Heqo0 as [Hr0 [_ Hre]].
    by eapply (acknowledged_receipt d id token m a r0). }
  all: eapply new_event_post; [exact Heqb|exact Heqb0|exact Heqo|by read_tables..| |reflexivity| |reflexivity].
  all: try (intros Hc; destruct Heqb1; simplify_bool; [done|congruence]).
  all: match goal with Hok : tbl_ok t_relay_event_receipts _ |- _ => hnf in Hok; revert Hok end;
    unfold relay_event_receipts_ok; read_tables; done.
Qed.

Lemma relay_op_refines op d h : wp true (run_relay_op op) (λ _ d' _, refines d d') d h.
Proof.
  destruct op; cbn [run_relay_op].
  5: { eapply wp_mono; [apply ApplyRelayEvent_post|]. by intros r d' h' []. }
  5: { unfold discard. apply wp_bind. eapply wp_mono; [apply CompactRelayDelivery_keeps|].
       intros [n|e] d' h' Hk; [apply wp_ret|]; by apply keeps_refines. }
  4: { unfold AuthorizeRelay, RelayCredential. wp_go; try apply refines_refl; try done.
       eapply refines_authorize; [by read_tables..| |done|].
       - match goal with Hok : tbl_ok t_relay_authorizations _ |- _ => exact Hok end.
       - intros x Hx Hu. destruct_and!.
         match goal with Hn : may_authorize _ _ _ _ _ |- _ => destruct Hn as (_ & _ & []) end.
         apply Exists_exists. by exists x. }
  all: unfold PutRelayEnrollment, ConsumeRelayEnrollment, RevokeRelayCredential, CreateRelayServer,
         UpdateRelayServer, UpdateRelayHealth, UpsertRelayTelemetry, AppendRelayMetric, PruneRelayMetrics;
    wp_go; try apply refines_refl; apply refines_same; split_and!; by read_tables.
Qed.

Definition run_relay_ops (ops : list relay_op) (w : world) : world :=
  foldl (λ w op, snd (run_relay_op op w)) w ops.

Lemma relay_ops_refine ops w uuid :
  relay_inv (w_db w) →
  relay_inv (w_db (run_relay_ops ops w))
  ∧ rtc record_step (delivery_of (w_db w) uuid) (delivery_of (w_db (run_relay_ops ops w)) uuid).
Proof.
  revert w. induction ops as [|op ops IH]; intros w Hinv; [done|]. cbn.
  destruct (wp_post (λ _ d d', refines d d') (run_relay_op op) w (relay_op_refines op) Hinv) as [Hinv' Hstep].
  destruct (IH _ Hinv') as [Hinv2 Hsteps]. split; [done|]. by eapply rtc_l.
Qed.

(** What a delivery that exists keeps. *)
Definition delivery_kept (x x' : delivery) : Prop :=
  dl_owner x' = dl_owner x ∧ dl_generation x' = dl_generation x
  ∧ (∀ e, dl_active x = Some e → dl_active x' = Some e)
  ∧ (dl_closed x ≠ None → x' = x).

Lemma record_steps_kept x y :
  rtc record_step (Some x) y → ∃ x', y = Some x' ∧ delivery_kept x x'.
Proof.
  intros Hs. remember (Some x) as o eqn:Ho. revert x Ho.
  induction Hs as [o|o1 o2 o3 Hstep Hsteps IH]; intros x ->.
  { exists x. split; [done|]. by split_and!. }
  inversion Hstep as [z Hz|? ? Hz|z e Ha Hc Hz|z e Hc Hz]; subst; clear Hstep.
  - by apply IH.
  - destruct (IH _ eq_refl) as (x' & -> & Ho & Hg & Hact & Hcl). exists x'. split; [done|].
    split_and!; [done..|intros e0 He0; congruence|done].
  - destruct (IH _ eq_refl) as (x' & -> & Ho & Hg & Hact & Hcl). exists x'. split; [done|].
    by split_and!.
Qed.

(** C9: a relay UUID is never reassigned and a closed connection never reopens:
    once a connection is on record, every later history keeps its owner, its
    generation and its events, and once it is closed nothing about it changes. *)
Theorem relay_uuid_never_reassigned ops w uuid x :
  relay_inv (w_db w) → delivery_of (w_db w) uuid = Some x →
  ∃ x', delivery_of (w_db (run_relay_ops ops w)) uuid = Some x' ∧ delivery_kept x x'.
Proof.
  intros Hinv Hx. destruct (relay_ops_refine ops w uuid Hinv) as [_ Hs]. rewrite Hx in Hs.
  by apply record_steps_kept in Hs.
Qed.

(** ** Replays *)

(** The tables the control plane is checked against are untouched, and the
    constraints of the authorizations hold. *)
Definition relay_frame (d d' : DB) : Prop :=
  t_relay_credentials d' = t_relay_credentials d ∧ t_relay_servers d' = t_relay_servers d
  ∧ (relay_authorizations_ok d → relay_authorizations_ok d').

Lemma relay_frame_refl d : relay_frame d d.
Proof. by split_and!. Qed.

Lemma relay_frame_trans d1 d2 d3 : relay_frame d1 d2 → relay_frame d2 d3 → relay_frame d1 d3.
Proof. intros (A1 & A2 & A3) (B1 & B2 & B3). split_and!; [congruence..|auto]. Qed.

Ltac frame_leaf :=
  first [ apply relay_frame_refl
        | split_and!; [by read_tables|by read_tables|];
          schema_auto ltac:(unfold relay_authorizations_ok in *) ].

Lemma compact_one_frame id uuid now d h :
  wp true (compact_one id uuid now) (λ _ d' _, relay_frame d d') d h.
Proof. unfold compact_one. wp_go; frame_leaf. Qed.

Lemma compact_all_frame id uuids now d h :
  wp true (compact_all id uuids now) (λ _ d' _, relay_frame d d') d h.
Proof.
  revert d h. induction uuids as [|uuid uuids IH]; intros d h; cbn [compact_all].
  { apply wp_ret, relay_frame_refl. }
  apply wp_bind. eapply wp_mono; [apply compact_one_frame|]. intros [n|e] d1 h1 H1; [|done].
  apply wp_bind. eapply wp_mono; [apply IH|]. intros [n'|e] d2 h2 H2; [apply wp_ret|];
    by eapply relay_frame_trans.
Qed.

Lemma CompactRelayDelivery_frame id now d h :
  wp true (CompactRelayDelivery id now) (λ _ d' _, relay_frame d d') d h.
Proof.
  unfold CompactRelayDelivery. apply wp_tx; [intros _; apply relay_frame_refl|].
  apply wp_bind, wp_query; [intros _; apply relay_frame_refl|].
  eapply wp_mono; [apply compact_all_frame|]. intros [n|e] d' h' Hd'; [|apply relay_frame_refl].
  split; [done|]. intros _. apply relay_frame_refl.
Qed.

Lemma ApplyRelayEvent_frame id token address m received seen d h :
  wp true (ApplyRelayEvent id token address m received seen) (λ _ d' _, relay_frame d d') d h.
Proof.
  unfold ApplyRelayEvent.
  repeat (lazymatch goal with
          | |- wp _ (checkArchivedRelayEvent _ _ _) _ _ _ =>
              eapply wp_mono; [apply checkArchivedRelayEvent_reads|]; intros ? ? ? ->
          | _ => wp_step; cbv beta iota
          end); frame_leaf.
Qed.

Lemma owner_current_frame d d' id token generation :
  relay_frame d d' → owner_current id token generation d' ↔ owner_current id token generation d.
Proof. intros (E1 & E2 & _). unfold owner_current, relay_enabled. by rewrite E1, E2. Qed.

Lemma acknowledged_frame d d' id token m :
  relay_frame d d' → delivery_of d' (msg_UUID m) = delivery_of d (msg_UUID m) →
  acknowledged d id token m → acknowledged d' id token m.
Proof.
  intros Hf Heq (x & Hx & Ho & Hc & Hr). exists x. rewrite Heq.
  by rewrite (owner_current_frame d d') by done.
Qed.

Lemma replay_recorded id token address m received seen d h a r :
  relay_inv d → relay_authorizations_ok d → event_well_formed m = true →
  a ∈ t_relay_authorizations d → auth_UUID a = msg_UUID m → auth_RelayID a = id →
  owner_current id token (auth_Generation a) d →
  r ∈ t_relay_event_receipts d → receipt_UUID r = msg_UUID m → receipt_State r = msg_Status m →
  receipt_EventID r = msg_RequestID m →
  wp false (ApplyRelayEvent id token address m received seen) (λ res d' _, res = Ok tt ∧ d' = d) d h.
Proof.
  intros Hinv Hok Hwf Ha Hau Hao Hcur Hr Hru Hrs Hre.
  assert (Hown : receipt_RelayID r = id ∧ receipt_Generation r = auth_Generation a).
  { destruct (inv_owner d Hinv r Hr) as (b & Hb & Hbu & Hbo & Hbg).
    assert (b = a) as -> by (eapply (unique_row auth_UUID); [apply Hinv|done..|congruence]).
    split; congruence. }
  destruct Hown as [Hro Hrg].
  assert (Hsel : select_one (λ a, auth_UUID a = msg_UUID m) (t_relay_authorizations d) = Some a).
  { rewrite <- Hau. apply (select_one_unique auth_UUID); [apply Hinv|done]. }
  assert (Hselr : ∀ r', select_one (λ r, receipt_RelayID r = id ∧ receipt_EventID r = msg_RequestID m)
                    (t_relay_event_receipts d) = Some r' → r' = r).
  { intros r' [Hr' [Ho' He']]%select_one_Some.
    eapply (unique_row (λ r, (receipt_RelayID r, receipt_EventID r))); [apply Hinv|done..|]. cbn. congruence. }
  assert (Hn : count_where (λ a, auth_UUID a = msg_UUID m ∧ auth_RelayID a = id
                    ∧ owner_current id token (auth_Generation a) d) (t_relay_authorizations d) = 1).
  { apply (count_where_unique auth_UUID _ _ a); [apply Hinv|done..|]. intros b [Hb _]. congruence. }
  unfold ApplyRelayEvent. rewrite Hwf. cbn [negb].
  apply wp_tx_rollback; [done|]. apply wp_bind, wp_sql_update_sub; [done| |].
  2: { intros Hno. destruct Hno. rewrite update_where_id. by destruct d. }
  intros d1 E _. apply lock_noop in E. subst d1. cbv beta iota.
  rewrite Hn, bool_decide_true by done. cbn [negb].
  apply wp_bind, wp_query_row; [done|]. rewrite Hsel.
  apply wp_bind, wp_sql_insert_ignore; [done| |intros ? Hex|intros Hex]; cycle 1.
  1, 2: exfalso; apply Hex, Exists_exists; by exists r.
  intros Hex. rewrite (bool_decide_true (0 = 0)) by done.
  apply wp_bind, wp_query_row; [done|].
  destruct (select_one _ (t_relay_event_receipts d)) as [r'|] eqn:Hr'.
  - rewrite (Hselr r') by done. rewrite !bool_decide_true by done. cbn [negb orb]. by apply wp_ret.
  - rewrite select_one_None in Hr'. apply Exists_exists in Hex as (r' & Hin & HP). by destruct (Hr' r').
Qed.

Lemma replay_archived id token m d h c x :
  NoDup (cred_RelayID <$> t_relay_credentials d) →
  c ∈ t_relay_credentials d → cred_RelayID c = id → cred_Hash c = Hash token → relay_enabled d id →
  select_one (λ a, auth_UUID a = msg_UUID m) (t_relay_authorizations d) = None →
  select_one (λ a, archive_UUID a = msg_UUID m) (t_relay_delivery_archive d) = Some x →
  archive_RelayID x = id → archive_Generation x = cred_Generation c →
  (msg_Status m = "active" ∧ archive_ActiveEventID x ≠ "" ∧ msg_RequestID m = archive_ActiveEventID x)
  ∨ (msg_Status m = "closed" ∧ msg_RequestID m = archive_ClosedEventID x) →
  wp false (checkArchivedRelayEvent id token m) (λ res d' _, res = Ok tt ∧ d' = d) d h.
Proof.
  intros Hnd Hc Hcid Hch Hen Hauth Hx Hxo Hxg Hev. unfold checkArchivedRelayEvent.
  apply wp_bind, wp_try, wp_query_row; [done|].
  destruct (select_one _ (t_relay_credentials d)) as [c'|] eqn:Hc'.
  2: { rewrite select_one_None in Hc'. by destruct (Hc' c). }
  apply select_one_Some in Hc' as [Hc' (Hcid' & _)].
  assert (c' = c) as -> by (eapply (unique_row cred_RelayID); [done..|congruence]).
  apply wp_bind, wp_try, wp_query_row; [done|]. rewrite Hauth.
  apply wp_bind, wp_try, wp_query_row; [done|]. rewrite Hx.
  rewrite !(bool_decide_true (_ = id)), (bool_decide_true (archive_Generation x = _)) by done.
  cbn [negb]. destruct Hev as [(Hs & Hne & He)|(Hs & He)].
  - rewrite (bool_decide_true (msg_Status m = "active")), (bool_decide_false (archive_ActiveEventID x = "")),
      (bool_decide_true (msg_RequestID m = archive_ActiveEventID x)) by done. by apply wp_ret.
  - rewrite (bool_decide_true (msg_Status m = "closed")),
      (bool_decide_true (msg_RequestID m = archive_ClosedEventID x)), orb_true_r by done. by apply wp_ret.
Qed.

(** An acknowledged event is acknowledged again and changes nothing. *)
Lemma ApplyRelayEvent_replay id token address m received seen d h :
  relay_inv d → relay_authorizations_ok d → relay_credentials_ok d → event_well_formed m = true →
  acknowledged d id token m →
  wp false (ApplyRelayEvent id token address m received seen) (λ res d' _, res = Ok tt ∧ d' = d) d h.
Proof.
  intros Hinv Hauth [Hcred _] Hwf (x & Hx & Ho & Hcur & Hrec). unfold delivery_of in Hx.
  destruct (select_one _ (t_relay_authorizations d)) as [a|] eqn:Ha.
  - injection Hx as <-. cbn in *. apply select_one_Some in Ha as [Ha Hau].
    assert (Hev : event_of d (msg_UUID m) (msg_Status m) = Some (msg_RequestID m)).
    { destruct Hrec as [[Hs He]|[Hs He]]; cbn in He; by rewrite Hs. }
    apply fmap_Some in Hev as (r & [Hr [Hru Hrs]]%select_one_Some & He).
    by eapply (replay_recorded _ _ _ _ _ _ _ _ a r).
  - apply fmap_Some in Hx as (y & Hy & ->). cbn in *.
    apply Exists_exists in Hcur as (c & Hc & Hcid & Hcg & Hch & Hen).
    unfold ApplyRelayEvent. rewrite Hwf. cbn [negb].
    apply wp_tx_rollback; [done|]. apply wp_bind, wp_sql_update_sub; [done| |].
    2: { intros Hno. destruct Hno. rewrite update_where_id. by destruct d. }
    intros d1 E _. cbv beta iota. rewrite (proj2 (count_where_0 _ _)).
    2: { intros b Hb [Hbu _]. rewrite select_one_None in Ha. by destruct (Ha b). }
    rewrite bool_decide_false by done. cbn [negb]. apply wp_ret.
    eapply (replay_archived id token m d h c y); try done.
    destruct Hrec as [[Hs He]|[Hs He]]; cbn in He; [left|right].
    + case_bool_decide; [done|]. split_and!; [done..|congruence].
    + split; [done|congruence].
Qed.

Definition compact_many (cs : list (string * time)) (w : world) : world :=
  foldl (λ w c, (CompactRelayDelivery c.1 c.2 w).2) w cs.

Lemma compact_many_keeps cs w :
  keeps_delivery (w_db w) (w_db (compact_many cs w)) ∧ relay_frame (w_db w) (w_db (compact_many cs w)).
Proof.
  revert w. induction cs as [|c cs IH]; intros w; cbn; [split; [by intros ?|apply relay_frame_refl]|].
  pose proof (wp_post (λ _ d d', keeps_delivery d d') (CompactRelayDelivery c.1 c.2) w
                (CompactRelayDelivery_keeps c.1 c.2)) as Hk.
  pose proof (wp_post (λ _ d d', relay_frame d d') (CompactRelayDelivery c.1 c.2) w
                (CompactRelayDelivery_frame c.1 c.2)) as Hf.
  destruct (IH (CompactRelayDelivery c.1 c.2 w).2) as [Hk2 Hf2].
  split; [by eapply keeps_trans|by eapply relay_frame_trans].
Qed.

(** C10: an acknowledged relay event is safe to repeat: when [ApplyRelayEvent]
    accepted an event, then after any number of compactions (failed ones too) the
    same event is accepted again, whatever address and times it comes with, and
    the repetition changes no table. *)
Theorem relay_event_replayed w id token address m t1 t2 w1 cs address' t1' t2' h :
  relay_inv (w_db w) → relay_authorizations_ok (w_db w) → relay_credentials_ok (w_db w) →
  ApplyRelayEvent id token address m t1 t2 w = (Ok tt, w1) →
  let d := w_db (compact_many cs w1) in
  let again := ApplyRelayEvent id token address' m t1' t2' (mkWorld d [] h) in
  again.1 = Ok tt ∧ w_db again.2 = d.
Proof.
  intros Hinv Hauth Hcred Hrun d again.
  assert (Hwf : event_well_formed m = true).
  { destruct (event_well_formed m) eqn:Hwf; [done|]. unfold ApplyRelayEvent in Hrun. by rewrite Hwf in Hrun. }
  pose proof (wp_run (F:=true) _ _ w I (ApplyRelayEvent_post id token address m t1 t2 _ (w_hub w)))
    as [Href Hack].
  pose proof (wp_run (F:=true) _ _ w I (ApplyRelayEvent_frame id token address m t1 t2 _ (w_hub w))) as Hf1.
  rewrite Hrun in *. cbn in *. destruct (Href Hinv) as [Hinv1 _]. destruct (Hack Hinv) as [Hack' _].
  destruct (compact_many_keeps cs w1) as [Hk Hf2]. fold d in Hk, Hf2.
  destruct (Hk Hinv1) as [Hinv2 Heq].
  assert (Hack2 : acknowledged d id token m) by (by eapply (acknowledged_frame (w_db w1))).
  destruct Hf1 as (A1 & A2 & A3), Hf2 as (B1 & B2 & B3).
  apply (wp_run (F:=false) (λ res d' _, res = Ok tt ∧ d' = d) _ (mkWorld d [] h) eq_refl).
  cbn [w_db w_hub]. apply ApplyRelayEvent_replay; try done; [by auto|].
  unfold relay_credentials_ok in *. by rewrite B1, B2, A1, A2.
Qed.

(** rotating the credential fences the relay: an event of a connection that
    was authorized under an earlier generation is refused with
    [ErrStaleGeneration], before and after compaction, and changes nothing,
    although the relay presents its valid current token. *)
Theorem stale_generation_refused id token address m t1 t2 d h c x :
  relay_inv d → relay_authorizations_ok d → relay_credentials_ok d → event_well_formed m = true →
  c ∈ t_relay_credentials d → cred_RelayID c = id → cred_Hash c = Hash token → relay_enabled d id →
  delivery_of d (msg_UUID m) = Some x → dl_owner x = id → dl_generation x ≠ cred_Generation c →
  let r := ApplyRelayEvent id token address m t1 t2 (mkWorld d [] h) in
  r.1 = Err ErrStaleGeneration ∧ w_db r.2 = d.
Proof.
  intros Hinv Hauth [Hcred _] Hwf Hc Hcid Hch Hen Hx Hxo Hxg r.
  apply (wp_run (F:=false) (λ res d' _, res = Err ErrStaleGeneration ∧ d' = d) _ (mkWorld d [] h) eq_refl).
  cbn [w_db w_hub]. unfold ApplyRelayEvent. rewrite Hwf. cbn [negb].
  apply wp_tx_rollback; [done|]. apply wp_bind, wp_sql_update_sub; [done| |].
  2: { intros Hno. destruct Hno. rewrite update_where_id. by destruct d. }
  intros d1 E _. cbv beta iota. rewrite (proj2 (count_where_0 _ _)).
  2: { intros a Ha (Hau & Hao & (c' & Hc' & Hcid' & Hcg' & _)%Exists_exists).
       assert (c' = c) as -> by (eapply (unique_row cred_RelayID); [done..|congruence]).
       unfold delivery_of in Hx.
       rewrite <- Hau, (select_one_unique auth_UUID _ a) in Hx by (done || apply Hinv).
       injection Hx as <-. cbn in Hxg. congruence. }
  rewrite bool_decide_false by done. cbn [negb]. apply wp_ret.
  unfold checkArchivedRelayEvent. apply wp_bind, wp_try, wp_query_row; [done|].
  destruct (select_one _ (t_relay_credentials d)) as [c'|] eqn:Hc'.
  2: { rewrite select_one_None in Hc'. by destruct (Hc' c). }
  apply select_one_Some in Hc' as [Hc' (Hcid' & _)].
  assert (c' = c) as -> by (eapply (unique_row cred_RelayID); [done..|congruence]).
  apply wp_bind, wp_try, wp_query_row; [done|]. unfold delivery_of in Hx.
  destruct (select_one _ (t_relay_authorizations d)) as [a|].
  - injection Hx as <-. cbn in *. rewrite bool_decide_true, bool_decide_false by done. by apply wp_throw.
  - apply fmap_Some in Hx as (y & Hy & ->). cbn in *.
    apply wp_bind, wp_try, wp_query_row; [done|]. rewrite Hy.
    rewrite bool_decide_true, bool_decide_false by done. by apply wp_throw.
Qed.

Lemma ConsumeRelayEnrollment_spec id secret tokenHash now d h :
  wp true (ConsumeRelayEnrollment id secret tokenHash now)
    (λ r d' _, is_ok r = true → ∃ c, c ∈ t_relay_credentials d
       ∧ (cred_RelayID c = id ∧ cred_EnrollmentHash c = secret ∧ cred_EnrollmentHash c ≠ ""
          ∧ millis now < cred_EnrollmentExpires c ∧ relay_enabled d id)
       ∧ t_relay_credentials d' = update_where
           (λ c, cred_RelayID c = id ∧ cred_EnrollmentHash c = secret ∧ cred_EnrollmentHash c ≠ ""
                 ∧ millis now < cred_EnrollmentExpires c ∧ relay_enabled d id)
           (λ c, c <| cred_Hash := tokenHash |> <| cred_EnrollmentHash := "" |>
                   <| cred_EnrollmentExpires := 0 |> <| cred_UpdatedAt := millis now |>)
           (t_relay_credentials d)) d h.
Proof.
  unfold ConsumeRelayEnrollment. wp_go; try done. intros _.
  match goal with Hn : count_where _ _ ≠ 0 |- _ =>
    eapply count_where_ex in Hn as (c & Hc & HP); [|reflexivity] end.
  exists c. split; [done|]. split; [exact HP|by read_tables].
Qed.

(** an enrollment secret is single-use: when it was exchanged for a token, the
    relay was enabled and the secret unexpired, the token is now the relay's, and
    no later exchange of a secret for that relay succeeds, at any time, until a
    new enrollment is put. *)
Theorem relay_enrollment_single_use id secret tokenHash now w w' :
  relay_credentials_ok (w_db w) →
  ConsumeRelayEnrollment id secret tokenHash now w = (Ok tt, w') →
  relay_enabled (w_db w) id
  ∧ (∃ c, c ∈ t_relay_credentials (w_db w) ∧ cred_RelayID c = id ∧ cred_EnrollmentHash c = secret
          ∧ secret ≠ "" ∧ now < fromMillis (cred_EnrollmentExpires c))
  ∧ (∃ c, c ∈ t_relay_credentials (w_db w') ∧ cred_RelayID c = id ∧ cred_Hash c = tokenHash)
  ∧ ∀ secret' tokenHash' now' w'', w_db w'' = w_db w' →
      is_ok (ConsumeRelayEnrollment id secret' tokenHash' now' w'').1 = false.
Proof.
  intros [Hnd _] Hrun.
  pose proof (wp_run (F:=true) _ _ w I
    (ConsumeRelayEnrollment_spec id secret tokenHash now _ (w_hub w))) as Hs.
  rewrite Hrun in Hs. destruct (Hs eq_refl) as (c & Hc & (Hid & Hsec & Hne & Hexp & Hen) & Ht).
  cbn in Ht. split_and!; [done| | |].
  - exists c. split_and!; [done..|congruence|by apply UnixMilli_lt].
  - eexists. rewrite Ht. split; [apply elem_of_update_where; exists c; split; [done|]|].
    + by rewrite decide_True.
    + done.
  - intros secret' tokenHash' now' w'' Hd.
    pose proof (wp_run (F:=true) _ _ w'' I
      (ConsumeRelayEnrollment_spec id secret' tokenHash' now' _ (w_hub w''))) as Hs'.
    apply not_true_is_false. intros Hok. destruct (Hs' Hok) as (c' & Hc' & (Hid' & _ & Hne' & _) & _).
    rewrite Hd, Ht in Hc'. apply elem_of_update_where in Hc' as (c0 & Hc0 & ->).
    case_decide as Hd0; [done|].
    destruct Hd0. assert (c0 = c) as -> by (eapply (unique_row cred_RelayID); [done..|congruence]). done.
Qed.

(** deleting a relay server forgets its connections, tombstones included:
    after a successful [DeleteRelayServer] no connection it owned is on record,
    so its UUIDs can be authorized anew. *)
Theorem DeleteRelayServer_forgets id w w' uuid x :
  relay_inv (w_db w) → DeleteRelayServer id w = (Ok tt, w') →
  delivery_of (w_db w) uuid = Some x → dl_owner x = id → delivery_of (w_db w') uuid = None.
Proof.
  unfold DeleteRelayServer, affected, exec, mbind, M_bind, bind. intros Hinv Hrun Hx Hxo.
  destruct (fault w); [done|]. case_bool_decide as Hn; [done|].
  rewrite bool_decide_false in Hrun by done. injection Hrun as <-.
  unfold delivery_of in *. cbn.
  destruct (select_one (λ a, auth_UUID a = uuid) (t_relay_authorizations (w_db w))) as [a|] eqn:Ha.
  - injection Hx as <-. cbn in Hxo. apply select_one_Some in Ha as [Ha Hau].
    rewrite (proj2 (select_one_None _ (delete_where _ (t_relay_authorizations (w_db w))))).
    + apply fmap_None, select_one_None. intros y [Hy _]%elem_of_delete_where Hyu.
      by destruct (inv_disjoint _ Hinv y a Hy Ha); congruence.
    + intros b [Hb Hbo]%elem_of_delete_where Hbu. apply Hbo.
      by assert (b = a) as -> by (eapply (unique_row auth_UUID); [apply Hinv|done..|congruence]).
  - apply fmap_Some in Hx as (y & Hy & ->). cbn in Hxo. apply select_one_Some in Hy as [Hy Hyu].
    rewrite (proj2 (select_one_None _ (delete_where _ (t_relay_authorizations (w_db w))))).
    + apply fmap_None, select_one_None. intros z [Hz Hzo]%elem_of_delete_where Hzu. apply Hzo.
      by assert (z = y) as -> by (eapply (unique_row archive_UUID); [apply Hinv|done..|congruence]).
    + intros b [Hb _]%elem_of_delete_where. rewrite select_one_None in Ha. auto.
Qed.

(** ** Witnesses: one relay with a current credential and one authorized connection *)

Definition ex_token : string := "0123456789012345678901234567890123456789abc".
Definition ex_relay : RelayServer :=
  mkRelayServer "" false "r1" "relay" "relay.example" 21117 "eu" true "healthy" 0 0 0 0 0 false.
Definition ex_event (id status : string) : Message :=
  mkMessage "" 0 None None "" false "lifecycle" "s" id "uuid-0001" "" status 0 0 0.
Definition ex_relay_db (generation : string) : DB :=
  empty_db <| t_relay_servers := [ex_relay] |>
           <| t_relay_credentials := [mkCredential "r1" (Hash ex_token) "secret" 1000 generation 0] |>
           <| t_relay_authorizations := [mkRelayAuthorization "uuid-0001" "r1" "g1" "permitted" 0] |>.
Definition ex_relay_world : world := mkWorld (ex_relay_db "g1") [] (NewHub "src").

Lemma ex_relay_inv generation : relay_inv (ex_relay_db generation).
Proof.
  constructor; cbn; try (by intros ? ?%elem_of_nil); try constructor; try (by apply not_elem_of_nil);
    try constructor; by intros ? ? ?%elem_of_nil.
Qed.

Lemma ex_relay_ok generation :
  relay_authorizations_ok (ex_relay_db generation) ∧ relay_credentials_ok (ex_relay_db generation).
Proof.
  apply (bool_decide_eq_true_1 (relay_authorizations_ok _ ∧ relay_credentials_ok _)).
  vm_compute. reflexivity.
Qed.

Lemma relay_uuid_never_reassigned_witness :
  ∃ x', delivery_of (w_db (run_relay_ops
          [OpApplyRelayEvent "r1" ex_token "relay.example" (ex_event "e1" "closed") 0 0;
           OpCompactRelayDelivery "r1" (31 * 24 * hour);
           OpAuthorizeRelay "r1" ex_token "uuid-0001" 0] ex_relay_world)) "uuid-0001" = Some x'
        ∧ delivery_kept (mkDelivery "r1" "g1" None None) x'.
Proof.
  apply (relay_uuid_never_reassigned _ ex_relay_world "uuid-0001"); [apply ex_relay_inv|].
  vm_compute. reflexivity.
Defined.

Lemma relay_event_replayed_witness :
  (ApplyRelayEvent "r1" ex_token "elsewhere" (ex_event "e1" "closed") 7 7
     (mkWorld (w_db (compact_many [("r1", 31 * 24 * hour)]
        (ApplyRelayEvent "r1" ex_token "relay.example" (ex_event "e1" "closed") 0 0 ex_relay_world).2))
        [] (NewHub "src"))).1 = Ok tt.
Proof.
  destruct (ApplyRelayEvent "r1" ex_token "relay.example" (ex_event "e1" "closed") 0 0 ex_relay_world)
    as [r w1] eqn:Hrun.
  assert (Hr : r = Ok tt) by (vm_compute in Hrun; by injection Hrun). subst r.
  apply (relay_event_replayed ex_relay_world "r1" ex_token "relay.example" (ex_event "e1" "closed") 0 0 w1
           [("r1", 31 * 24 * hour)] "elsewhere" 7 7 (NewHub "src"));
    [apply ex_relay_inv|apply ex_relay_ok|apply ex_relay_ok|done].
Defined.

Lemma stale_generation_refused_witness :
  (ApplyRelayEvent "r1" ex_token "relay.example" (ex_event "e1" "active") 0 0
     (mkWorld (ex_relay_db "g2") [] (NewHub "src"))).1 = Err ErrStaleGeneration.
Proof.
  apply (stale_generation_refused "r1" ex_token "relay.example" (ex_event "e1" "active") 0 0
           (ex_relay_db "g2") (NewHub "src") (mkCredential "r1" (Hash ex_token) "secret" 1000 "g2" 0)
           (mkDelivery "r1" "g1" None None));
    [apply ex_relay_inv|apply ex_relay_ok|apply ex_relay_ok|reflexivity|left|reflexivity|reflexivity
    |left; done|vm_compute; reflexivity|reflexivity|discriminate].
Defined.

Lemma relay_enrollment_single_use_witness :
  is_ok (ConsumeRelayEnrollment "r1" "secret" "t2" 6
           (ConsumeRelayEnrollment "r1" "secret" "t1" 5 ex_relay_world).2).1 = false.
Proof.
  destruct (ConsumeRelayEnrollment "r1" "secret" "t1" 5 ex_relay_world) as [r w'] eqn:Hrun.
  assert (Hr : r = Ok tt) by (vm_compute in Hrun; by injection Hrun). subst r.
  by apply (relay_enrollment_single_use "r1" "secret" "t1" 5 ex_relay_world w'); [apply ex_relay_ok| |].
Defined.

Lemma DeleteRelayServer_forgets_witness :
  delivery_of (w_db (DeleteRelayServer "r1" ex_relay_world).2) "uuid-0001" = None.
Proof.
  apply (DeleteRelayServer_forgets "r1" ex_relay_world _ "uuid-0001" (mkDelivery "r1" "g1" None None));
    [apply ex_relay_inv|vm_compute; reflexivity..].
Defined.
