(* ===== verification/Delivery.v ===== *)
(** * The durable relay control plane refines a state machine

    The specification that relay_delivery.go and relay_operations.go implement:
    a connection is unknown, permitted, active, closed or archived, and
    [delivery_step] says, for every request with its result, how one connection
    may move.  [relay_delivery_refines] shows that the tables move by it at every
    point of every history, the deletion of a relay server included. *)

From S2P Require Export Relay.

(** ** The abstract connection *)

Inductive phase := Permitted | Active | Closed | Archived.
Record connection := mkConnection { cx_phase : phase; cx_record : delivery }.
#[export] Instance eta_connection : Eta connection := λ r, mkConnection (cx_phase r) (cx_record r).

(** The column [state] of relay_authorizations. *)
Definition phase_of (state : string) : phase :=
  if bool_decide (state = "closed") then Closed
  else if bool_decide (state = "active") then Active else Permitted.

(** A connection without an authorization is on record by its tombstone only. *)
Definition phase_at (d : DB) (uuid : string) : phase :=
  match select_one (λ a, auth_UUID a = uuid) (t_relay_authorizations d) with
  | Some a => phase_of (auth_State a)
  | None => Archived
  end.

Definition connection_of (d : DB) (uuid : string) : option connection :=
  mkConnection (phase_at d uuid) <$> delivery_of d uuid.

(** The phase agrees with the events on record. *)
Definition consistent (x : connection) : Prop :=
  match cx_phase x with
  | Permitted => dl_active (cx_record x) = None ∧ dl_closed (cx_record x) = None
  | Active => dl_active (cx_record x) ≠ None ∧ dl_closed (cx_record x) = None
  | Closed | Archived => dl_closed (cx_record x) ≠ None
  end.

Inductive request := Operate (op : relay_op) | DeleteServer (id : string).

Definition run_request (q : request) : M unit :=
  match q with Operate op => run_relay_op op | DeleteServer id => DeleteRelayServer id end.

Definition run_requests (qs : list request) (w : world) : world :=
  foldl (λ w q, (run_request q w).2) w qs.

(** The requests whose acceptance says something about the connection [uuid];
    [x] is what is on record about it. *)
Definition concerns (uuid : string) (q : request) (x : option connection) : Prop :=
  match q with
  | Operate (OpAuthorizeRelay _ _ u _) => u = uuid
  | Operate (OpApplyRelayEvent _ _ _ m _ _) => msg_UUID m = uuid
  | DeleteServer id => ∃ c, x = Some c ∧ dl_owner (cx_record c) = id
  | _ => False
  end.

(** The relay [id] holds the token of the generation [g] of its credential. *)
Definition holds (d : DB) (id token g : string) : Prop :=
  ∃ c, c ∈ t_relay_credentials d ∧ cred_RelayID c = id ∧ cred_Generation c = g
       ∧ cred_Hash c = Hash token.

(** ** The state machine

    [step q r x y]: with the credentials [held] and the relays [enabled], the
    request [q] answered [r] takes what is on record about [uuid] from [x] to
    [y]. *)
Section Steps.
Context (held : string → string → string → Prop) (enabled : string → Prop) (uuid : string).

(** The relay may speak for the connection: it owns it, under its current
    credential, and is enabled. *)
Definition speaks (id token : string) (x : connection) : Prop :=
  dl_owner (cx_record x) = id ∧ held id token (dl_generation (cx_record x)) ∧ enabled id.

Inductive delivery_step : request → res unit → option connection → option connection → Prop :=
| ds_refused q e x : delivery_step q (Err e) x x
| ds_unconcerned q x : ¬ concerns uuid q x → delivery_step q (Ok tt) x x
| ds_authorize id token now g :
    held id token g →
    delivery_step (Operate (OpAuthorizeRelay id token uuid now)) (Ok tt)
      None (Some (mkConnection Permitted (mkDelivery id g None None)))
| ds_activate id token address m t1 t2 x :
    msg_UUID m = uuid → msg_Status m = "active" → speaks id token x → cx_phase x = Permitted →
    delivery_step (Operate (OpApplyRelayEvent id token address m t1 t2)) (Ok tt)
      (Some x) (Some (mkConnection Active (cx_record x <| dl_active := Some (msg_RequestID m) |>)))
| ds_close id token address m t1 t2 x :
    msg_UUID m = uuid → msg_Status m = "closed" → speaks id token x →
    cx_phase x = Permitted ∨ cx_phase x = Active →
    delivery_step (Operate (OpApplyRelayEvent id token address m t1 t2)) (Ok tt)
      (Some x) (Some (mkConnection Closed (cx_record x <| dl_closed := Some (msg_RequestID m) |>)))
| ds_replay id token address m t1 t2 x :
    msg_UUID m = uuid → on_record (cx_record x) m → speaks id token x →
    delivery_step (Operate (OpApplyRelayEvent id token address m t1 t2)) (Ok tt) (Some x) (Some x)
| ds_compact id now x :
    dl_owner (cx_record x) = id → cx_phase x = Closed →
    delivery_step (Operate (OpCompactRelayDelivery id now)) (Ok tt)
      (Some x) (Some (x <| cx_phase := Archived |>))
| ds_delete id x :
    dl_owner (cx_record x) = id → delivery_step (DeleteServer id) (Ok tt) (Some x) None.

Lemma delivery_step_consistent q r x y :
  delivery_step q r x y → (∀ c, x = Some c → consistent c) → ∀ c, y = Some c → consistent c.
Proof.
  intros Hs Hx c Hy. destruct Hs; simplify_eq; eauto; unfold consistent in *; cbn in *; try done.
  - specialize (Hx _ eq_refl). by rewrite H2 in Hx; destruct Hx.
  - specialize (Hx _ eq_refl). by rewrite H0 in Hx.
Qed.
End Steps.

(** ** Every request moves every connection by a step *)

Definition agrees (d : DB) : Prop := ∀ uuid c, connection_of d uuid = Some c → consistent c.

Definition refine_step (q : request) (d : DB) (r : res unit) (d' : DB) : Prop :=
  relay_inv d → agrees d →
  relay_inv d' ∧ ∀ uuid, delivery_step (holds d) (relay_enabled d) uuid q r
                           (connection_of d uuid) (connection_of d' uuid).

Lemma step_agrees q d r d' : refine_step q d r d' → relay_inv d → agrees d → agrees d'.
Proof.
  intros Hs Hinv Hag uuid c. destruct (Hs Hinv Hag) as [_ Hstep].
  eapply delivery_step_consistent; [apply Hstep|apply Hag].
Qed.

Lemma connection_delivery d uuid x :
  delivery_of d uuid = Some x → connection_of d uuid = Some (mkConnection (phase_at d uuid) x).
Proof. intros Hx. unfold connection_of. by rewrite Hx. Qed.

Lemma step_err q d e : refine_step q d (Err e) d.
Proof. intros Hinv _. split; [done|]. intros uuid. constructor. Qed.
#[local] Hint Resolve step_err : core.

Lemma step_same q r d d' :
  same_delivery d d' → (∀ uuid x, ¬ concerns uuid q x) → refine_step q d r d'.
Proof.
  intros Hs Hq Hinv _. split; [by eapply same_delivery_inv|]. intros uuid.
  assert (connection_of d' uuid = connection_of d uuid) as ->.
  { unfold connection_of, phase_at. rewrite (same_delivery_of d d') by done.
    by destruct Hs as (-> & _ & _). }
  destruct r as [[]|e]; constructor. apply Hq.
Qed.

(** *** Authorization *)

Lemma phase_authorized d d' row uuid :
  t_relay_authorizations d' = t_relay_authorizations d ++ [row] →
  auth_UUID row ∉ (auth_UUID <$> t_relay_authorizations d) →
  phase_at d' uuid = if decide (auth_UUID row = uuid) then phase_of (auth_State row) else phase_at d uuid.
Proof.
  intros E Hnew. unfold phase_at. rewrite E, select_one_app, select_one_singleton. case_decide as Hu.
  - subst uuid. rewrite (proj2 (select_one_None _ (t_relay_authorizations d))); [done|].
    intros a Ha Hau. apply Hnew. rewrite <- Hau. by apply list_elem_of_fmap_2.
  - by destruct (select_one (λ a, auth_UUID a = uuid) (t_relay_authorizations d)).
Qed.

Lemma AuthorizeRelay_step id token uuid now d h :
  wp true (AuthorizeRelay id token uuid now)
    (λ r d' _, refine_step (Operate (OpAuthorizeRelay id token uuid now)) d r d') d h.
Proof.
  unfold AuthorizeRelay, RelayCredential. wp_go; try by auto.
  match goal with Hc : scanCredential <$> _ = Some _ |- _ =>
    apply fmap_Some in Hc as (c0 & [Hc Hid]%select_one_Some & ->) end.
  destruct_and!. match goal with Hm : may_authorize _ _ _ _ _ |- _ => destruct Hm as (_ & _ & Harch) end.
  intros Hinv _.
  match goal with E : ?d1 = write _ (_ ++ [?row]) d |- _ =>
    assert (E1 : t_relay_authorizations d1 = t_relay_authorizations d ++ [row]) by (by read_tables);
    assert (E2 : t_relay_event_receipts d1 = t_relay_event_receipts d) by (by read_tables);
    assert (E3 : t_relay_delivery_archive d1 = t_relay_delivery_archive d) by (by read_tables);
    assert (Hok : relay_authorizations_ok d1) by done end.
  assert (Hno : ∀ x, x ∈ t_relay_delivery_archive d → archive_UUID x ≠ uuid).
  { intros x Hx Hu. apply Harch, Exists_exists. by exists x. }
  destruct (authorize_unknown _ _ _ Hinv E1 Hok) as [Hnew _].
  destruct (delivery_authorized _ _ _ Hinv E1 E2 E3 Hok Hno) as [Hold Hdel].
  split; [by eapply refines_authorize|]. intros u. unfold connection_of.
  rewrite Hdel, (phase_authorized _ _ _ u E1 Hnew). cbn [auth_UUID auth_State auth_RelayID auth_Generation].
  case_decide as Hu; [subst u|by constructor].
  cbn in Hold. rewrite Hold. apply ds_authorize. exists c0. simplify_bool.
  unfold Matches in *. simplify_bool. by split_and!.
Qed.

(** *** Events *)

Lemma owner_current_holds id token g d :
  owner_current id token g d → holds d id token g ∧ relay_enabled d id.
Proof.
  intros (c & Hc & Hid & Hg & Hh & Hen)%Exists_exists. split; [by exists c|done].
Qed.

Lemma phase_recorded d d' row a st uuid :
  new_event d d' row a st →
  phase_at d' uuid = if decide (uuid = receipt_UUID row) then phase_of st else phase_at d uuid.
Proof.
  intros [E1 _ _ _ _ _ _ Hsel _ _ _]. unfold phase_at. rewrite E1, select_one_update by done.
  destruct (decide (uuid = receipt_UUID row)) as [->|Hne].
  - rewrite Hsel. cbn. apply select_one_Some in Hsel as [_ Hau]. by rewrite decide_True.
  - destruct (select_one (λ a, auth_UUID a = uuid) (t_relay_authorizations d)) as [b|] eqn:Hb; [|done].
    cbn. apply select_one_Some in Hb as [_ Hbu]. by rewrite decide_False by congruence.
Qed.

(** A new event moves its own connection, and no other. *)
Lemma new_event_step id token address m t1 t2 d d' a received :
  let row := mkRelayReceipt id (msg_RequestID m) (msg_UUID m) (auth_Generation a) (msg_Status m) received in
  new_event d d' row a (msg_Status m) → owner_current id token (auth_Generation a) d →
  refine_step (Operate (OpApplyRelayEvent id token address m t1 t2)) d (Ok tt) d'.
Proof.
  intros row Hn [Hh Hen]%owner_current_holds Hinv Hag. split; [by eapply new_event_inv|]. intros uuid.
  destruct (delivery_recorded _ _ _ _ _ Hinv Hn) as (x & Hx & Hxo & Hxg & Hslot & _ & Hdel).
  unfold connection_of at 2. rewrite Hdel, (phase_recorded _ _ _ _ _ uuid Hn). cbn in Hxo, Hxg.
  case_decide as Hu; [|by constructor; intros Hu'; apply Hu]. subst uuid. cbn [receipt_UUID row] in *.
  pose proof (Hag (msg_UUID m) _ (connection_delivery _ _ _ Hx)) as Hcons.
  assert (Hphase : phase_at d (msg_UUID m) = phase_of (auth_State a)).
  { pose proof (ne_row _ _ _ _ _ Hn) as Hrow. cbn in Hrow. unfold phase_at. by rewrite Hrow. }
  rewrite (connection_delivery _ _ _ Hx). unfold consistent in Hcons. cbn in Hcons. cbn [fmap option_fmap option_map].
  assert (Hsp : speaks (holds d) (relay_enabled d) id token (mkConnection (phase_at d (msg_UUID m)) x))
    by (by split_and!; cbn; rewrite ?Hxg).
  pose proof (ne_open _ _ _ _ _ Hn) as Hopen. unfold phase_of in Hphase.
  unfold record_event, event_slot in *. destruct (ne_kind _ _ _ _ _ Hn) as [Hst|Hst]; rewrite Hst in *;
    cbn in Hslot |- *.
  - apply ds_activate; [done..|]. cbn. rewrite Hphase in Hcons |- *.
    destruct (bool_decide_reflect (auth_State a = "closed")) as [Hc|]; [by apply Hopen in Hc|].
    destruct (bool_decide (auth_State a = "active")); [by destruct Hcons|done].
  - apply ds_close; [done..|]. cbn. rewrite Hphase in Hcons |- *.
    destruct (bool_decide (auth_State a = "closed")); [done|].
    destruct (bool_decide (auth_State a = "active")); auto.
Qed.

Lemma ApplyRelayEvent_step id token address m t1 t2 d h :
  wp true (ApplyRelayEvent id token address m t1 t2)
    (λ r d' _, refine_step (Operate (OpApplyRelayEvent id token address m t1 t2)) d r d') d h.
Proof.
  eapply wp_mono; [apply ApplyRelayEvent_post|]. intros [[]|e] d' h' [_ Hpost]; [|by subst].
  intros Hinv Hag. destruct (Hpost Hinv) as [Hack [->|(a & received & Hn & Hcur)]].
  - split; [done|]. intros uuid. destruct (decide (msg_UUID m = uuid)) as [<-|Hne]; [|by constructor].
    destruct Hack as (x & Hx & Ho & [??]%owner_current_holds & Hrec).
    rewrite (connection_delivery _ _ _ Hx). by apply ds_replay.
  - by eapply new_event_step.
Qed.

(** *** Compaction *)

(** Each connection stayed, or was closed, of the relay, and is archived. *)
Definition compacts (id : string) (d d' : DB) : Prop :=
  relay_inv d →
  relay_inv d' ∧ ∀ uuid, connection_of d' uuid = connection_of d uuid
    ∨ ∃ c, connection_of d uuid = Some c ∧ dl_owner (cx_record c) = id ∧ cx_phase c = Closed
           ∧ connection_of d' uuid = Some (c <| cx_phase := Archived |>).

Lemma compacts_refl id d : compacts id d d.
Proof. intros Hinv. split; [done|]. by left. Qed.

Lemma compacts_trans id d1 d2 d3 : compacts id d1 d2 → compacts id d2 d3 → compacts id d1 d3.
Proof.
  intros H12 H23 Hinv. destruct (H12 Hinv) as [Hinv2 E12]. destruct (H23 Hinv2) as [Hinv3 E23].
  split; [done|]. intros u. destruct (E12 u) as [E|(c & Hc & Ho & Hp & E)], (E23 u) as [E'|(c' & Hc' & Ho' & Hp' & E')].
  - left. congruence.
  - right. exists c'. by rewrite <- E.
  - right. exists c. by rewrite E'.
  - rewrite E in Hc'. by injection Hc' as <-.
Qed.

Lemma compact_one_phase id uuid now d h :
  wp true (compact_one id uuid now)
    (λ r d' _, is_ok r = true → relay_inv d →
       ∀ u, phase_at d' u = phase_at d u
            ∨ ∃ a, select_one (λ a, auth_UUID a = u) (t_relay_authorizations d) = Some a
                   ∧ auth_RelayID a = id ∧ auth_State a = "closed" ∧ phase_at d' u = Archived) d h.
Proof.
  unfold compact_one. wp_go; try done; intros _ Hinv u; unfold phase_at.
  { left. subst. cbn. by rewrite update_where_id. }
  match goal with |- context [t_relay_authorizations ?d'] =>
    assert (E : t_relay_authorizations d'
                = delete_where (λ a, auth_UUID a = uuid) (t_relay_authorizations d))
      by (read_tables; by rewrite update_where_id); rewrite E end.
  destruct (decide (u = uuid)) as [->|Hne]; [right|left; by rewrite select_one_delete by naive_solver].
  match goal with Hn : count_where _ _ ≠ 0 |- _ =>
    apply count_where_pos in Hn as (a & Ha & Hau & Hao & Hst) end.
  exists a. split_and!; [|done..|].
  - rewrite <- Hau. apply (select_one_unique auth_UUID); [apply Hinv|done].
  - by rewrite (select_one_deleted (λ a, auth_UUID a = uuid)).
Qed.

Lemma compact_one_compacts id uuid now d h :
  wp true (compact_one id uuid now) (λ r d' _, is_ok r = true → compacts id d d') d h.
Proof.
  eapply wp_mono; [apply wp_both; [apply compact_one_keeps|apply compact_one_phase]|].
  intros r d' h' [Hk Hp] Hr Hinv. destruct (Hk Hr Hinv) as [Hinv' Hdel]. split; [done|]. intros u.
  unfold connection_of. rewrite Hdel.
  destruct (Hp Hr Hinv u) as [-> | (a & Ha & Ho & Hst & ->)]; [by left|right].
  unfold phase_at, delivery_of. rewrite Ha. cbn. eexists. split_and!; [done|done| |done].
  unfold phase_of. by rewrite bool_decide_true.
Qed.

Lemma compact_all_compacts id uuids now d h :
  wp true (compact_all id uuids now) (λ r d' _, is_ok r = true → compacts id d d') d h.
Proof.
  revert d h. induction uuids as [|uuid uuids IH]; intros d h; cbn [compact_all].
  { apply wp_ret. intros _. apply compacts_refl. }
  apply wp_bind. eapply wp_mono; [apply compact_one_compacts|]. intros [n|e] d1 h1 H1; [|done].
  apply wp_bind. eapply wp_mono; [apply IH|]. intros [n'|e] d2 h2 H2; [|done].
  apply wp_ret. intros _. eapply compacts_trans; [by apply H1|by apply H2].
Qed.

Lemma CompactRelayDelivery_step id now d h :
  wp true (discard (CompactRelayDelivery id now))
    (λ r d' _, refine_step (Operate (OpCompactRelayDelivery id now)) d r d') d h.
Proof.
  unfold discard, CompactRelayDelivery. apply wp_bind, wp_tx; [by auto|].
  apply wp_bind, wp_query; [by auto|].
  eapply wp_mono; [apply compact_all_compacts|]. intros [n|e] d' h' Hc; [|by auto].
  split; [|by auto]. apply wp_ret. intros Hinv _.
  destruct (Hc eq_refl Hinv) as [Hinv' Hu]. split; [done|]. intros u.
  destruct (Hu u) as [-> | (c & -> & Ho & Hp & ->)]; [apply ds_unconcerned; intros []|by apply ds_compact].
Qed.

(** *** Deletion of a relay server *)

Definition relay_deleted (id : string) (d : DB) : DB :=
  d <| t_relay_servers := delete_where (λ r, relay_ID r = id) (t_relay_servers d) |>
    <| t_relay_credentials := delete_where (λ c, cred_RelayID c = id) (t_relay_credentials d) |>
    <| t_relay_authorizations := delete_where (λ a, auth_RelayID a = id) (t_relay_authorizations d) |>
    <| t_relay_event_receipts := delete_where (λ e, receipt_RelayID e = id) (t_relay_event_receipts d) |>
    <| t_relay_delivery_archive := delete_where (λ a, archive_RelayID a = id) (t_relay_delivery_archive d) |>.

Lemma relay_deleted_inv id d : relay_inv d → relay_inv (relay_deleted id d).
Proof.
  intros []. constructor; cbn; try by apply NoDup_fmap_delete_where.
  - intros e [He Hne]%elem_of_delete_where. destruct (inv_owner e He) as (a & Ha & Hau & Hao & Hag).
    exists a. split; [|done]. apply elem_of_delete_where. split; [done|congruence].
  - intros e a [He _]%elem_of_delete_where [Ha _]%elem_of_delete_where. eauto.
  - intros e [He _]%elem_of_delete_where. eauto.
  - intros x a [Hx _]%elem_of_delete_where [Ha _]%elem_of_delete_where. eauto.
Qed.

Lemma select_one_delete_in {A} (P Q : A → Prop) `{∀ x, Decision (P x)} `{∀ x, Decision (Q x)} t :
  (∀ r, r ∈ t → Q r → ¬ P r) → select_one Q (delete_where P t) = select_one Q t.
Proof.
  intros HQP. induction t as [|r t IH]; [done|]. unfold select_one, delete_where in *.
  rewrite !filter_cons. specialize (IH ltac:(set_solver)).
  case_decide as HP; rewrite ?filter_cons; case_decide as HQ; try done.
  exfalso. eapply HQP; [left|done..].
Qed.

(** The rows of one connection go together: they are all the relay's, or none is. *)
Lemma select_one_deleted_owner {A} (key : A → string) (owner : A → string) id k (t : list A) x :
  NoDup (key <$> t) → select_one (λ r, key r = k) t = Some x →
  select_one (λ r, key r = k) (delete_where (λ r, owner r = id) t)
  = if decide (owner x = id) then None else Some x.
Proof.
  intros Hnd Hx. pose proof (select_one_Some _ _ _ Hx) as [Hin Hk]. case_decide as Ho.
  - apply select_one_None. intros r [Hr Hro]%elem_of_delete_where Hrk. apply Hro.
    by assert (r = x) as -> by (eapply (unique_row key); [done..|congruence]).
  - rewrite <- Hk. apply (select_one_unique key); [by apply NoDup_fmap_delete_where|].
    by apply elem_of_delete_where.
Qed.

Lemma relay_deleted_connection id d uuid :
  relay_inv d →
  connection_of (relay_deleted id d) uuid
  = match connection_of d uuid with
    | Some c => if decide (dl_owner (cx_record c) = id) then None else Some c
    | None => None
    end.
Proof.
  intros Hinv. unfold connection_of, phase_at, delivery_of. cbn.
  destruct (select_one (λ a, auth_UUID a = uuid) (t_relay_authorizations d)) as [a|] eqn:Ha.
  - rewrite (select_one_deleted_owner auth_UUID auth_RelayID id uuid _ a) by (done || apply Hinv). cbn.
    pose proof (select_one_Some _ _ _ Ha) as [Hin Hau]. case_decide as Ho.
    + rewrite (proj2 (select_one_None _ (delete_where _ (t_relay_delivery_archive d)))); [done|].
      intros y [Hy _]%elem_of_delete_where Hyu.
      by destruct (inv_disjoint _ Hinv y a Hy Hin); congruence.
    + cbn. unfold event_of. cbn. rewrite !select_one_delete_in; [done|..].
      all: intros e He [Heu _] Heo; apply Ho;
        destruct (inv_owner _ Hinv e He) as (b & Hb & Hbu & Hbo & _);
        assert (b = a) as -> by (eapply (unique_row auth_UUID); [apply Hinv|done..|congruence]); congruence.
  - rewrite (proj2 (select_one_None _ (delete_where _ (t_relay_authorizations d)))).
    2:{ intros b [Hb _]%elem_of_delete_where. rewrite select_one_None in Ha. auto. }
    destruct (select_one (λ x, archive_UUID x = uuid) (t_relay_delivery_archive d)) as [y|] eqn:Hy.
    + rewrite (select_one_deleted_owner archive_UUID archive_RelayID id uuid _ y) by (done || apply Hinv).
      cbn. by case_decide.
    + rewrite (proj2 (select_one_None _ (delete_where _ (t_relay_delivery_archive d)))); [done|].
      intros b [Hb _]%elem_of_delete_where. rewrite select_one_None in Hy. auto.
Qed.

Lemma DeleteRelayServer_step id d h :
  wp true (DeleteRelayServer id) (λ r d' _, refine_step (DeleteServer id) d r d') d h.
Proof.
  unfold DeleteRelayServer, affected. apply wp_bind, wp_exec; [by auto|].
  case_bool_decide as Hn; [rewrite bool_decide_true by done; by apply wp_throw|].
  rewrite bool_decide_false by done. apply wp_ret. fold (relay_deleted id d).
  intros Hinv _. split; [by apply relay_deleted_inv|]. intros u.
  rewrite relay_deleted_connection by done. destruct (connection_of d u) as [c|].
  - case_decide; [by apply ds_delete|]. apply ds_unconcerned. intros (c' & [= <-] & Ho). done.
  - apply ds_unconcerned. by intros (c' & ? & _).
Qed.

Lemma run_request_step q d h : wp true (run_request q) (λ r d' _, refine_step q d r d') d h.
Proof.
  destruct q as [op|id]; [|apply DeleteRelayServer_step].
  destruct op; cbn [run_request run_relay_op].
  4: apply AuthorizeRelay_step.
  4: apply ApplyRelayEvent_step.
  4: apply CompactRelayDelivery_step.
  all: unfold PutRelayEnrollment, ConsumeRelayEnrollment, RevokeRelayCredential, CreateRelayServer,
         UpdateRelayServer, UpdateRelayHealth, UpsertRelayTelemetry, AppendRelayMetric, PruneRelayMetrics;
    wp_go; try apply step_err; apply step_same; try (by intros ? ? []); split_and!; by read_tables.
Qed.

Lemma run_requests_inv qs w :
  relay_inv (w_db w) → agrees (w_db w) →
  relay_inv (w_db (run_requests qs w)) ∧ agrees (w_db (run_requests qs w)).
Proof.
  revert w. induction qs as [|q qs IH]; intros w Hinv Hag; [done|]. cbn.
  pose proof (wp_post (λ r d d', refine_step q d r d') (run_request q) w (run_request_step q)) as Hs.
  apply IH; [exact (proj1 (Hs Hinv Hag))|exact (step_agrees _ _ _ _ Hs Hinv Hag)].
Qed.

(** C8: the relay tables implement the state machine of a connection (unknown,
    permitted, active, closed, archived): at every point of every history of
    requests, compactions and deletions of relay servers included and with any
    statements failing, the next request moves the record of every connection by
    exactly the step that its answer announces.  A refused request changes
    nothing; an accepted event was recorded now, by the relay that owns the
    connection under its current credential and is enabled, or was on record
    already; only a permitted connection becomes active and only an open one
    closed; only a closed one is archived, with its record unchanged; and only
    the deletion of its relay server forgets a connection. *)
Theorem relay_delivery_refines qs q w uuid :
  relay_inv (w_db w) → agrees (w_db w) →
  let w1 := run_requests qs w in
  let w2 := (run_request q w1).2 in
  delivery_step (holds (w_db w1)) (relay_enabled (w_db w1)) uuid q (run_request q w1).1
    (connection_of (w_db w1) uuid) (connection_of (w_db w2) uuid)
  ∧ relay_inv (w_db w2) ∧ agrees (w_db w2).
Proof.
  intros Hinv Hag w1 w2. destruct (run_requests_inv qs w Hinv Hag) as [Hinv1 Hag1].
  pose proof (wp_post (λ r d d', refine_step q d r d') (run_request q) w1 (run_request_step q)) as Hs.
  destruct (Hs Hinv1 Hag1) as [Hinv2 Hstep]. split; [apply Hstep|]. split; [done|exact (step_agrees _ _ _ _ Hs Hinv1 Hag1)].
Qed.

(** ** Witness: a connection that was closed is archived *)

Lemma ex_relay_agrees : agrees (ex_relay_db "g1").
Proof.
  intros uuid c. unfold connection_of, phase_at, delivery_of. cbn. intros Hc.
  rewrite !select_one_singleton in Hc. case_decide; cbn in Hc; [by injection Hc as <-|done].
Qed.

Definition ex_close : request :=
  Operate (OpApplyRelayEvent "r1" ex_token "relay.example" (ex_event "e1" "closed") 0 0).
Definition ex_compact : request := Operate (OpCompactRelayDelivery "r1" (31 * 24 * hour)).

Lemma relay_delivery_refines_witness :
  let w1 := run_requests [ex_close] ex_relay_world in
  delivery_step (holds (w_db w1)) (relay_enabled (w_db w1)) "uuid-0001" ex_compact
    (run_request ex_compact w1).1 (connection_of (w_db w1) "uuid-0001")
    (connection_of (w_db (run_request ex_compact w1).2) "uuid-0001")
  ∧ (run_request ex_compact w1).1 = Ok tt
  ∧ (λ c, cx_phase c) <$> connection_of (w_db (run_request ex_compact w1).2) "uuid-0001" = Some Archived.
Proof.
  split_and!; [|vm_compute; reflexivity..].
  apply (relay_delivery_refines [ex_close] ex_compact ex_relay_world "uuid-0001");
    [apply ex_relay_inv|apply ex_relay_agrees].
Defined.
