(* ===== verification/Gateway.v ===== *)
(** * The relay gateway (art-api/internal/relaygateway: gateway.go, operations.go, quarantine.go)

    One control connection per relay: commands of the API wait for replies of the
    relay, and the relay reports the life of its connections.  The code runs a
    goroutine per connection, one ticker per connection and one per command; the
    definitions are their steps, cut where the mutex is released.  A peer is named
    by its session, which stands for its address: [gw_peers] is the map [peers],
    [gw_heap] the peers that goroutines still hold.  Reading and writing the
    websocket is the environment's part, as are the callbacks, whose results are
    arguments. *)

From S2P Require Export StoreRelay.

#[export] Instance eta_Message : Eta Message := λ r,
  mkMessage (msg_Revision r) (msg_Offset r) (msg_QuarantinePage r) (msg_Delivery r) (msg_Reason r) (msg_Durable r)
    (msg_Type r) (msg_Session r) (msg_RequestID r) (msg_UUID r) (msg_Action r) (msg_Status r) (msg_ExpiresAt r)
    (msg_Connections r) (msg_Bandwidth r).

Record waiter := mkWaiter { waiter_uuid : string; waiter_result : option Message }.

(** [issued]: [None] is the zero time, a permit that became active. *)
Record peer := mkPeer {
  peer_session : string;
  peer_token : string;
  peer_ready : bool;
  peer_pending : gmap string waiter;
  peer_issued : gmap string (option time);
  peer_reports : gmap string Message;
  peer_delivery : option DeliveryStatus;
  peer_observedAt : time
}.
#[export] Instance eta_peer : Eta peer := λ r,
  mkPeer (peer_session r) (peer_token r) (peer_ready r) (peer_pending r) (peer_issued r) (peer_reports r)
    (peer_delivery r) (peer_observedAt r).

Record Gateway := mkGateway { gw_peers : gmap string string; gw_heap : gmap string peer }.
#[export] Instance eta_Gateway : Eta Gateway := λ r, mkGateway (gw_peers r) (gw_heap r).

Definition New : Gateway := mkGateway ∅ ∅.

(** [g.peers[id]] *)
Definition peer_of (g : Gateway) (id : string) : option peer :=
  session ← gw_peers g !! id; gw_heap g !! session.
Definition update_peer (g : Gateway) (p : peer) : Gateway :=
  g <| gw_heap := <[peer_session p := p]> (gw_heap g) |>.

Definition Online (g : Gateway) (id : string) : bool :=
  match peer_of g id with Some p => peer_ready p | None => false end.

Definition Disconnect (g : Gateway) (id : string) : Gateway := g <| gw_peers := delete id (gw_peers g) |>.

(** operations.go *)
Definition max_stamp (now : time) : Z := UnixMilli (now + 5 * minute).

Definition quarantine_event_ok (e : QuarantineEvent) : bool :=
  (1 <=? len (qevent_ID e)) && (len (qevent_ID e) <=? 64)
  && (8 <=? len (qevent_UUID e)) && (len (qevent_UUID e) <=? 128)
  && bool_decide (qevent_Status e ∈ ["active"; "closed"]) && bool_decide (qevent_Reason e = "credential_rotated").

Definition valid (status : option DeliveryStatus) (now : time) : bool :=
  match status with
  | None => true
  | Some v =>
      (dstatus_Capacity v =? 4096)
      && (0 <=? dstatus_Pending v) && (dstatus_Pending v <=? 4096)
      && (0 <=? dstatus_Quarantined v) && (dstatus_Quarantined v <=? 4096)
      && (0 <=? dstatus_Reserved v) && (dstatus_Reserved v <=? 4096)
      && (dstatus_Pending v + dstatus_Quarantined v + dstatus_Reserved v <=? 4096)
      && (Z.of_nat (length (dstatus_Sample v)) <=? 5)
      && (Z.of_nat (length (dstatus_Sample v)) <=? dstatus_Quarantined v)
      && (dstatus_OldestAt v <=? max_stamp now)
      && forallb (λ e, quarantine_event_ok e && (qevent_CreatedAt e <=? max_stamp now)) (dstatus_Sample v)
  end.

Record Observation := mkObservation {
  obs_Connected : bool; obs_ObservedAt : time; obs_Delivery : option DeliveryStatus }.

Definition DeliveryObservation (g : Gateway) (id : string) : Observation :=
  match peer_of g id with
  | None => mkObservation false zero_time None
  | Some p => mkObservation (peer_ready p) (peer_observedAt p) (peer_delivery p)
  end.

(** ** A connection (Serve) *)

Definition zero_message : Message := mkMessage "" 0 None None "" false "" "" "" "" "" "" 0 0 0.

(** The local variables of the loop. *)
Record Conn := mkConn {
  conn_id : string; conn_token : string; conn_session : string; conn_window : time; conn_count : Z }.
#[export] Instance eta_Conn : Eta Conn := λ r,
  mkConn (conn_id r) (conn_token r) (conn_session r) (conn_window r) (conn_count r).

(** Entering: a second connection cannot steal a live session. *)
Definition join (g : Gateway) (id token session : string) : option Gateway :=
  match gw_peers g !! id with
  | Some _ => None
  | None => Some (mkGateway (<[id := session]> (gw_peers g))
                    (<[session := mkPeer session token false ∅ ∅ ∅ None zero_time]> (gw_heap g)))
  end.

(** The deferred removal. *)
Definition leave (g : Gateway) (id session : string) : Gateway :=
  if decide (gw_peers g !! id = Some session) then Disconnect g id else g.

Definition live_permit (now : time) (expiry : option time) : bool :=
  match expiry with Some e => negb (e <? now) | None => true end.

(** The ticker: permits that expired are forgotten. *)
Definition expire (g : Gateway) (session : string) (now : time) : Gateway :=
  match gw_heap g !! session with
  | None => g
  | Some p => update_peer g (p <| peer_issued := filter (λ kv, Is_true (live_permit now kv.2)) (peer_issued p) |>)
  end.

(** What the loop does with a message: [Closed] ends the connection, [Report]
    and [DurableReport] call back before they go on. *)
Inductive verdict :=
| Closed
| Continue (g : Gateway)
| Acknowledge (g : Gateway) (reply : Message)
| CallReport
| CallDurable.

Definition lifecycle_ack (m : Message) : Message :=
  zero_message <| msg_Type := "lifecycle_ack" |> <| msg_Session := msg_Session m |>
    <| msg_RequestID := msg_RequestID m |> <| msg_UUID := msg_UUID m |> <| msg_Status := msg_Status m |>.
Definition lifecycle_rejected (m : Message) : Message :=
  lifecycle_ack m <| msg_Type := "lifecycle_rejected" |> <| msg_Reason := "credential_rotated" |>.

Section Loop.
Context (has_report durable : bool).   (* g.Report != nil, g.DurableReport != nil *)

(** The checks of a message before the switch: session, rate and readiness. *)
Definition admit_frame (c : Conn) (p : peer) (m : Message) (now : time) : option Conn :=
  if negb (bool_decide (msg_Session m = peer_session p)) then None else
  let c := if second <? Sub now (conn_window c) then c <| conn_window := now |> <| conn_count := 0 |> else c in
  let c := c <| conn_count := conn_count c + 1 |> in
  if 100 <? conn_count c then None
  else if negb (peer_ready p) && negb (bool_decide (msg_Type m = "ready")) then None
  else Some c.

(** case "ready" *)
Definition on_ready (g : Gateway) (p : peer) : verdict :=
  if peer_ready p then Closed else Continue (update_peer g (p <| peer_ready := true |>)).

(** case "ack", "quarantine_reply": the reply goes to the command that waits for
    it, if it names its UUID and nothing arrived before. *)
Definition on_reply (g : Gateway) (p : peer) (m : Message) : verdict :=
  match peer_pending p !! msg_RequestID m with
  | Some w =>
      if bool_decide (waiter_uuid w = msg_UUID m) && bool_decide (waiter_result w = None)
      then Continue (update_peer g (p <| peer_pending := <[msg_RequestID m := mkWaiter (waiter_uuid w) (Some m)]> (peer_pending p) |>))
      else Continue g
  | None => Continue g
  end.

Definition commit_telemetry (g : Gateway) (p : peer) (m : Message) (now : time) : verdict :=
  Continue (update_peer g (p <| peer_delivery := msg_Delivery m |> <| peer_observedAt := now |>)).

(** case "telemetry" *)
Definition on_telemetry (g : Gateway) (p : peer) (m : Message) (now : time) : verdict :=
  if negb (valid (msg_Delivery m) now) then Closed
  else if (msg_Connections m <? 0) || (1000000 <? msg_Connections m) || (2 ^ 50 <? msg_Bandwidth m) then Closed
  else if has_report then CallReport else commit_telemetry g p m now.

(** A permit after an event of its connection. *)
Definition mark_issued (issued : gmap string (option time)) (m : Message) : gmap string (option time) :=
  if bool_decide (msg_Status m = "active") then <[msg_UUID m := None]> issued else delete (msg_UUID m) issued.

(** After an event was reported: it is acknowledged, and remembered if it has a
    request. *)
Definition commit_lifecycle (g : Gateway) (p : peer) (m : Message) : verdict :=
  let p := p <| peer_issued := mark_issued (peer_issued p) m |> in
  if bool_decide (msg_RequestID m = "") then Continue (update_peer g p)
  else Acknowledge (update_peer g (p <| peer_reports := <[msg_RequestID m := m]> (peer_reports p) |>)) (lifecycle_ack m).

(** case "lifecycle" *)
Definition on_lifecycle (g : Gateway) (p : peer) (m : Message) : verdict :=
  let requested := negb (bool_decide (msg_RequestID m = "")) in
  if durable && requested then CallDurable
  else if 64 <? len (msg_RequestID m) then Closed
  else
  match (if requested then peer_reports p !! msg_RequestID m else None) with
  | Some previous =>
      if negb (bool_decide (msg_UUID previous = msg_UUID m)) || negb (bool_decide (msg_Status previous = msg_Status m))
      then Closed else Acknowledge g (lifecycle_ack m)
  | None =>
      if requested && (8192 <=? Z.of_nat (size (peer_reports p))) then Closed
      else if bool_decide (peer_issued p !! msg_UUID m = None) || negb (bool_decide (msg_Status m ∈ ["active"; "closed"]))
      then Closed
      else if has_report then CallReport else commit_lifecycle g p m
  end.

(** One iteration of the loop, up to a callback. *)
Definition receive (g : Gateway) (p : peer) (m : Message) (now : time) : verdict :=
  if bool_decide (msg_Type m = "ready") then on_ready g p
  else if bool_decide (msg_Type m ∈ ["ack"; "quarantine_reply"]) then on_reply g p m
  else if bool_decide (msg_Type m = "telemetry") then on_telemetry g p m now
  else if bool_decide (msg_Type m = "lifecycle") then on_lifecycle g p m
  else Closed.

(** The rest of the iteration after [g.Report]. *)
Definition after_report (g : Gateway) (p : peer) (m : Message) (now : time) (outcome : res unit) : verdict :=
  match outcome with
  | Err _ => Closed
  | Ok _ => if bool_decide (msg_Type m = "telemetry") then commit_telemetry g p m now else commit_lifecycle g p m
  end.

(** The rest of the iteration after [g.DurableReport]. *)
Definition after_durable (g : Gateway) (p : peer) (m : Message) (outcome : res unit) : verdict :=
  match outcome with
  | Err ErrStaleGeneration => Acknowledge g (lifecycle_rejected m)
  | Err _ => Closed
  | Ok _ =>
      let issued := peer_issued p in
      let issued := if bool_decide (msg_Status m = "closed") then delete (msg_UUID m) issued
                    else match issued !! msg_UUID m with
                         | Some _ => <[msg_UUID m := None]> issued
                         | None => issued
                         end in
      Acknowledge (update_peer g (p <| peer_issued := issued |>)) (lifecycle_ack m)
  end.
End Loop.

(** ** Commands (Command, Quarantine) *)

Definition command_known (action : string) : bool := bool_decide (action ∈ ["permit"; "terminate"]).

(** The critical section that registers a command with the peer it looked up. *)
Definition begin_command (g : Gateway) (id session requestID action relayUUID : string) (now : time) : option Gateway :=
  p ← gw_heap g !! session;
  let permit := bool_decide (action = "permit") in
  if negb (bool_decide (gw_peers g !! id = Some session)) || negb (peer_ready p)
     || (64 <=? Z.of_nat (size (peer_pending p))) || (permit && (4096 <=? Z.of_nat (size (peer_issued p))))
  then None else
  let p := p <| peer_pending := <[requestID := mkWaiter relayUUID None]> (peer_pending p) |> in
  Some (update_peer g (if permit then p <| peer_issued := <[relayUUID := Some (now + 2 * minute)]> (peer_issued p) |> else p)).

(** The permit is withdrawn when [g.Authorize] refuses it. *)
Definition withdraw (g : Gateway) (session relayUUID : string) : Gateway :=
  match gw_heap g !! session with
  | Some p => update_peer g (p <| peer_issued := delete relayUUID (peer_issued p) |>)
  | None => g
  end.

(** The deferred removal of a command. *)
Definition end_command (g : Gateway) (session requestID : string) : Gateway :=
  match gw_heap g !! session with
  | Some p => update_peer g (p <| peer_pending := delete requestID (peer_pending p) |>)
  | None => g
  end.

Definition command_message (session requestID action relayUUID : string) (now : time) : Message :=
  zero_message <| msg_Type := "command" |> <| msg_Session := session |> <| msg_RequestID := requestID |>
    <| msg_UUID := relayUUID |> <| msg_Action := action |> <| msg_ExpiresAt := UnixMilli (now + 5 * second) |>.

(** What a command returns for a reply. *)
Definition command_result (action : string) (reply : Message) : res string :=
  if (bool_decide (action = "permit") && bool_decide (msg_Status reply = "permitted"))
     || (bool_decide (action = "terminate") && bool_decide (msg_Status reply ∈ ["terminated"; "not_found"]))
  then Ok (msg_Status reply) else Err (ErrText "relay rejected command").

(** quarantine.go; [uuid.Parse] succeeds on these texts. *)
Class UUID := { uuid_parses : string → bool }.

Section Quarantine.
Context `{UUID}.

(** The checks of the arguments. *)
Definition quarantine_request (action revision : string) (offset : Z) : res unit :=
  if negb (bool_decide (action ∈ ["list"; "archive"])) || (offset <? 0) || (4096 <? offset)
  then Err (ErrText "invalid quarantine request")
  else if negb (bool_decide (revision = "")) && negb (uuid_parses revision) then Err (ErrText "uuid")
  else if bool_decide (action = "archive") && bool_decide (revision = "") then Err (ErrText "revision required")
  else Ok tt.

(** The critical section: a waiter without UUID. *)
Definition begin_quarantine (g : Gateway) (id session requestID : string) : option Gateway :=
  p ← gw_heap g !! session;
  if negb (bool_decide (gw_peers g !! id = Some session)) || negb (peer_ready p)
     || (64 <=? Z.of_nat (size (peer_pending p)))
  then None else
  Some (update_peer g (p <| peer_pending := <[requestID := mkWaiter "" None]> (peer_pending p) |>)).

Definition quarantine_message (session requestID action revision : string) (offset : Z) (now : time) : Message :=
  zero_message <| msg_Type := "quarantine" |> <| msg_Session := session |> <| msg_RequestID := requestID |>
    <| msg_Action := action |> <| msg_Revision := revision |> <| msg_Offset := offset |>
    <| msg_ExpiresAt := UnixMilli (now + 10 * second) |>.

(** What a request returns for a reply. *)
Definition quarantine_result (action revision : string) (offset : Z) (reply : Message) : res QuarantinePage :=
  match msg_QuarantinePage reply with
  | None => Err (ErrText "quarantine changed or unavailable")
  | Some page =>
      if negb (bool_decide (msg_Type reply = "quarantine_reply")) || negb (bool_decide (msg_Status reply = "ok"))
      then Err (ErrText "quarantine changed or unavailable")
      else if negb (uuid_parses (qpage_Revision page)) then Err (ErrText "invalid revision")
      else if negb (bool_decide (revision = "")) && negb (bool_decide (qpage_Revision page = revision))
      then Err (ErrText "revision mismatch")
      else if (qpage_Total page <? 0) || (4096 <? qpage_Total page) || negb (qpage_Offset page =? offset)
              || (10 <? Z.of_nat (length (qpage_Events page)))
              || (bool_decide (action = "list")
                  && negb (Z.of_nat (length (qpage_Events page)) =? Z.min 10 (qpage_Total page - offset)))
      then Err (ErrText "invalid quarantine page")
      else if negb (forallb quarantine_event_ok (qpage_Events page)) then Err (ErrText "invalid quarantine event")
      else Ok page
  end.
End Quarantine.

(** ** The gateway as a system of goroutines *)

(** [sys_conns] are the loops that wait for a message, [sys_calls] those in a
    callback ([true]: the durable one), by session.  [sys_permitted] and
    [sys_reported] record the permits that were registered and the lifecycle
    events handed to [g.Report], newest first; what [DurableReport] gets and
    answers is recorded by the plants of Lifecycle.v. *)
Record system := mkSystem {
  sys_gateway : Gateway;
  sys_conns : gmap string Conn;
  sys_calls : gmap string (Conn * Message * bool);
  sys_permitted : list (string * string);
  sys_reported : list (string * Message)
}.
#[export] Instance eta_system : Eta system := λ r,
  mkSystem (sys_gateway r) (sys_conns r) (sys_calls r) (sys_permitted r) (sys_reported r).

Inductive label :=
| Joins (id token session : string) (now : time)
| Leaves (id session : string)
| Disconnects (id : string)
| Expires (session : string) (now : time)
| Receives (session : string) (m : Message) (now : time)
| Reported (session : string) (outcome : res unit) (now : time)
| Durably (session : string) (outcome : res unit)
| Commands (id session requestID action relayUUID : string) (now : time)
| Withdraws (session relayUUID : string)
| Ends (session requestID : string)
| Quarantines (id session requestID : string).

Definition no_peers : system := mkSystem New ∅ ∅ [] [].

(** [g.Report] is set, as the server sets it. *)
Section System.
Context (durable : bool).

(** A loop after a verdict. *)
Definition settle (s : system) (c : Conn) (m : Message) (v : verdict) : system :=
  let session := conn_session c in
  match v with
  | Closed => s <| sys_conns := delete session (sys_conns s) |> <| sys_calls := delete session (sys_calls s) |>
  | Continue g | Acknowledge g _ =>
      s <| sys_gateway := g |> <| sys_conns := <[session := c]> (sys_conns s) |>
        <| sys_calls := delete session (sys_calls s) |>
  | CallReport =>
      s <| sys_conns := delete session (sys_conns s) |>
        <| sys_calls := <[session := (c, m, false)]> (sys_calls s) |>
        <| sys_reported := if bool_decide (msg_Type m = "lifecycle") then (session, m) :: sys_reported s
                           else sys_reported s |>
  | CallDurable =>
      s <| sys_conns := delete session (sys_conns s) |>
        <| sys_calls := <[session := (c, m, true)]> (sys_calls s) |>
  end.

Definition permit_note (action session relayUUID : string) (permitted : list (string * string)) :=
  if bool_decide (action = "permit") then (session, relayUUID) :: permitted else permitted.

(** A step, [None] when it is not possible. *)
Definition gateway_step (s : system) (l : label) : option system :=
  let g := sys_gateway s in
  match l with
  | Joins id token session now =>
      if bool_decide (gw_heap g !! session = None) then
        g' ← join g id token session;
        Some (s <| sys_gateway := g' |>
                <| sys_conns := <[session := mkConn id token session now 0]> (sys_conns s) |>)
      else None
  | Leaves id session => Some (s <| sys_gateway := leave g id session |>)
  | Disconnects id => Some (s <| sys_gateway := Disconnect g id |>)
  | Expires session now => Some (s <| sys_gateway := expire g session now |>)
  | Receives session m now =>
      c ← sys_conns s !! session;
      p ← gw_heap g !! session;
      match admit_frame c p m now with
      | None => Some (settle s c m Closed)
      | Some c => Some (settle s c m (receive true durable g p m now))
      end
  | Reported session outcome now =>
      x ← sys_calls s !! session;
      p ← gw_heap g !! session;
      let '(c, m, called) := x in
      if called : bool then None else Some (settle s c m (after_report g p m now outcome))
  | Durably session outcome =>
      x ← sys_calls s !! session;
      p ← gw_heap g !! session;
      let '(c, m, called) := x in
      if called : bool then Some (settle s c m (after_durable g p m outcome)) else None
  | Commands id session requestID action relayUUID now =>
      if negb (command_known action) then None else
      g' ← begin_command g id session requestID action relayUUID now;
      Some (s <| sys_gateway := g' |> <| sys_permitted := permit_note action session relayUUID (sys_permitted s) |>)
  | Withdraws session relayUUID => Some (s <| sys_gateway := withdraw g session relayUUID |>)
  | Ends session requestID => Some (s <| sys_gateway := end_command g session requestID |>)
  | Quarantines id session requestID =>
      g' ← begin_quarantine g id session requestID;
      Some (s <| sys_gateway := g' |>)
  end.

(** The states that some interleaving of steps leads to. *)
Inductive reachable : system → Prop :=
| reach_start : reachable no_peers
| reach_step s l s' : reachable s → gateway_step s l = Some s' → reachable s'.

(** ** Invariants *)

Implicit Types (s : system) (p : peer) (m : Message).

Definition requested (m : Message) : bool := negb (bool_decide (msg_RequestID m = "")).

(** A reply waits only where its request and UUID are awaited. *)
Definition replies_fit (session : string) (pending : gmap string waiter) : Prop :=
  ∀ rid w m, pending !! rid = Some w → waiter_result w = Some m →
    msg_RequestID m = rid ∧ msg_UUID m = waiter_uuid w ∧ msg_Session m = session.

Record peer_ok (session : string) (permitted : list (string * string)) (reported : list (string * Message)) (p : peer)
    : Prop := {
  ok_session : peer_session p = session;
  ok_pending : (size (peer_pending p) ≤ 64)%nat;
  ok_issued : (size (peer_issued p) ≤ 4097)%nat;
  ok_reports : Z.of_nat (size (peer_reports p)) ≤ 8192;
  ok_replies : replies_fit session (peer_pending p);
  ok_permitted : ∀ uuid, is_Some (peer_issued p !! uuid) → (session, uuid) ∈ permitted;
  ok_reported : ∀ rid m, peer_reports p !! rid = Some m → msg_RequestID m = rid ∧ requested m = true ∧ (session, m) ∈ reported
}.

(** A lifecycle event in [g.Report]: room is left for its permit and its report. *)
Record call_ok (session : string) (permitted : list (string * string)) (p : peer) (m : Message) : Prop := {
  call_permitted : (session, msg_UUID m) ∈ permitted;
  call_room : (size (delete (msg_UUID m) (peer_issued p)) ≤ 4096)%nat;
  call_new : requested m = true → peer_reports p !! msg_RequestID m = None ∧ Z.of_nat (size (peer_reports p)) < 8192
}.

(** Where a reported event is: remembered, in its callback, or its loop ended. *)
Definition accounted s session m : Prop :=
  (∃ p, gw_heap (sys_gateway s) !! session = Some p ∧ is_Some (peer_reports p !! msg_RequestID m))
  ∨ (∃ c m', sys_calls s !! session = Some (c, m', false) ∧ msg_RequestID m' = msg_RequestID m ∧ msg_Type m' = "lifecycle")
  ∨ sys_conns s !! session = None ∧ sys_calls s !! session = None.

Definition report_key (x : string * Message) : string * string := (x.1, msg_RequestID x.2).
Definition requested_reports (reported : list (string * Message)) : list (string * Message) :=
  filter (λ x, Is_true (requested x.2)) reported.

Record gateway_inv (s : system) : Prop := {
  inv_peer : ∀ session p, gw_heap (sys_gateway s) !! session = Some p →
    peer_ok session (sys_permitted s) (sys_reported s) p;
  inv_conn : ∀ session c, sys_conns s !! session = Some c →
    conn_session c = session ∧ is_Some (gw_heap (sys_gateway s) !! session) ∧ sys_calls s !! session = None;
  inv_call : ∀ session c m b, sys_calls s !! session = Some (c, m, b) →
    conn_session c = session ∧ sys_conns s !! session = None
    ∧ ∃ p, gw_heap (sys_gateway s) !! session = Some p
        ∧ (b = false → msg_Type m = "telemetry" ∨ msg_Type m = "lifecycle"
             ∧ call_ok session (sys_permitted s) p m ∧ (session, m) ∈ sys_reported s);
  inv_report : ∀ session m, (session, m) ∈ sys_reported s →
    (session, msg_UUID m) ∈ sys_permitted s ∧ is_Some (gw_heap (sys_gateway s) !! session)
    ∧ (requested m = true → accounted s session m);
  inv_once : NoDup (report_key <$> requested_reports (sys_reported s))
}.

(** *** Steps that change one peer and leave the loops alone *)

(** What such a step keeps: the reports, and the permits up to those noted. *)
Record peer_moved (permitted' : list (string * string)) (p p' : peer) : Prop := {
  moved_session : peer_session p' = peer_session p;
  moved_reports : peer_reports p' = peer_reports p;
  moved_pending : (size (peer_pending p') ≤ 64)%nat;
  moved_replies : replies_fit (peer_session p) (peer_pending p');
  moved_permitted : ∀ uuid, is_Some (peer_issued p' !! uuid) → is_Some (peer_issued p !! uuid) ∨ (peer_session p, uuid) ∈ permitted';
  moved_issued : (size (peer_issued p') ≤ 4097)%nat;
  moved_room : ∀ uuid, (size (delete uuid (peer_issued p)) ≤ 4096 → size (delete uuid (peer_issued p')) ≤ 4096)%nat
}.

Lemma inv_peer_moved s p p' peers' permitted' :
  gateway_inv s → gw_heap (sys_gateway s) !! peer_session p = Some p →
  sys_permitted s ⊆ permitted' → peer_moved permitted' p p' →
  gateway_inv (s <| sys_gateway := mkGateway peers' (<[peer_session p' := p']> (gw_heap (sys_gateway s))) |>
                 <| sys_permitted := permitted' |>).
Proof.
  intros [Hp Hc Hcall Hr Ho] Hheap Hsub Hm. pose proof (Hp _ _ Hheap) as Hok.
  rewrite (moved_session _ _ _ Hm).
  assert (Hsome : ∀ session, is_Some (gw_heap (sys_gateway s) !! session) →
      is_Some (<[peer_session p:=p']> (gw_heap (sys_gateway s)) !! session))
    by (intros session Hs; destruct (decide (session = peer_session p)) as [->|];
        [rewrite lookup_insert_eq; by eexists|by rewrite lookup_insert_ne]).
  split; cbn.
  - intros session q Hq. destruct (decide (session = peer_session p)) as [->|Hne].
    + rewrite lookup_insert_eq in Hq. injection Hq as <-. split.
      * apply (moved_session _ _ _ Hm).
      * apply (moved_pending _ _ _ Hm).
      * apply (moved_issued _ _ _ Hm).
      * rewrite (moved_reports _ _ _ Hm). apply (ok_reports _ _ _ _ Hok).
      * apply (moved_replies _ _ _ Hm).
      * intros uuid Hu. destruct (moved_permitted _ _ _ Hm uuid Hu) as [Hi|Hi]; [|done].
        apply Hsub. by apply (ok_permitted _ _ _ _ Hok).
      * rewrite (moved_reports _ _ _ Hm). apply (ok_reported _ _ _ _ Hok).
    + rewrite lookup_insert_ne in Hq by done. destruct (Hp _ _ Hq). split; auto.
  - intros session c Hs. destruct (Hc _ _ Hs) as (? & ? & ?). auto.
  - intros session c m b Hs. destruct (Hcall _ _ _ _ Hs) as (H1 & H2 & q & Hq & Hb). split_and!; [done..|].
    destruct (decide (session = peer_session p)) as [->|Hne].
    + exists p'. rewrite lookup_insert_eq. split; [done|]. intros Hbf. destruct (Hb Hbf) as [Ht|(Ht & [K1 K2 K3] & K4)]; [by left|right].
      assert (q = p) as -> by congruence. split_and!; [done| |done]. split; [by apply Hsub|by apply (moved_room _ _ _ Hm)|].
      by rewrite (moved_reports _ _ _ Hm).
    + exists q. rewrite lookup_insert_ne by done. split; [done|]. intros Hbf.
      destruct (Hb Hbf) as [Ht|(Ht & [K1 K2 K3] & K4)]; [by left|right]. split_and!; [done| |done]. split; auto.
  - intros session m Hs. destruct (Hr _ _ Hs) as (H1 & H2 & H3). split_and!; [by apply Hsub|auto|].
    intros Hreq. destruct (H3 Hreq) as [(q & Hq & Hin)|[Hin|Hin]]; [left|right; by left|right; by right].
    destruct (decide (session = peer_session p)) as [->|Hne].
    + exists p'. cbn. rewrite lookup_insert_eq. split; [done|]. rewrite (moved_reports _ _ _ Hm). congruence.
    + exists q. cbn. by rewrite lookup_insert_ne.
  - done.
Qed.

(** A step that changes only [peers]. *)
Lemma inv_peers_map s peers' :
  gateway_inv s → gateway_inv (s <| sys_gateway := mkGateway peers' (gw_heap (sys_gateway s)) |>).
Proof. intros [H1 H2 H3 H4 H5]. by split. Qed.

(** Sizes of maps that shrink, grow by one or replace an entry. *)
Lemma issued_shrinks (m m' : gmap string (option time)) :
  m' ⊆ m → (size m' ≤ size m)%nat ∧ ∀ u, (size (delete u m') ≤ size (delete u m))%nat.
Proof. intros Hm. split; [by apply map_subseteq_size|]. intros u. by apply map_subseteq_size, delete_mono. Qed.

Lemma issued_grows (m : gmap string (option time)) x e :
  (size m < 4096)%nat → (size (<[x:=e]> m) ≤ 4096)%nat ∧ ∀ u, (size (delete u (<[x:=e]> m)) ≤ 4096)%nat.
Proof.
  intros Hm. assert (Hi : (size (<[x:=e]> m) ≤ 4096)%nat) by (rewrite map_size_insert; destruct (m !! x); cbn; lia).
  split; [done|]. intros u. etrans; [apply map_subseteq_size, delete_subseteq|exact Hi].
Qed.

Lemma issued_replaces (m : gmap string (option time)) x e :
  is_Some (m !! x) → size (<[x:=e]> m) = size m ∧ ∀ u, size (delete u (<[x:=e]> m)) = size (delete u m).
Proof.
  intros Hx. split; [by apply map_size_insert_Some|]. intros u. destruct (decide (u = x)) as [->|Hu].
  - by rewrite delete_insert_eq.
  - rewrite delete_insert_ne by done. apply map_size_insert_Some. by rewrite lookup_delete_ne.
Qed.

(** *** The loops *)

(** A loop that ends. *)
Lemma inv_closed s c m : gateway_inv s → gateway_inv (settle s c m Closed).
Proof.
  intros [Hp Hc Hcall Hr Ho]. split; cbn; try done.
  - intros session c' [Hne Hs]%lookup_delete_Some. destruct (Hc _ _ Hs) as (? & ? & ?). split_and!; [done..|].
    by rewrite lookup_delete_ne.
  - intros session c' m' b [Hne Hs]%lookup_delete_Some. destruct (Hcall _ _ _ _ Hs) as (? & ? & ?).
    split_and!; [done| |done]. by rewrite lookup_delete_ne.
  - intros session m' Hs. destruct (Hr _ _ Hs) as (? & ? & Ha). split_and!; [done..|]. intros Hreq.
    destruct (decide (session = conn_session c)) as [->|Hne].
    + right; right. cbn. by rewrite !lookup_delete_eq.
    + destruct (Ha Hreq) as [Hin|[Hin|Hin]]; [by left|right; left|right; right]; cbn; by rewrite !lookup_delete_ne.
Qed.

(** A loop that goes on with its peer changed. *)
Lemma inv_resume s c m p p' v :
  gateway_inv s → gw_heap (sys_gateway s) !! conn_session c = Some p →
  peer_ok (conn_session c) (sys_permitted s) (sys_reported s) p' →
  (∀ m', (conn_session c, m') ∈ sys_reported s → requested m' = true → is_Some (peer_reports p' !! msg_RequestID m')) →
  v = Continue (update_peer (sys_gateway s) p') ∨ (∃ r, v = Acknowledge (update_peer (sys_gateway s) p') r) →
  gateway_inv (settle s c m v).
Proof.
  intros [Hp Hc Hcall Hr Ho] Hheap Hok Hrep Hv.
  assert (Hs : settle s c m v = s <| sys_gateway := update_peer (sys_gateway s) p' |>
      <| sys_conns := <[conn_session c := c]> (sys_conns s) |> <| sys_calls := delete (conn_session c) (sys_calls s) |>)
    by (by destruct Hv as [->|[r ->]]). rewrite Hs. clear Hs Hv v.
  pose proof (ok_session _ _ _ _ Hok) as Hsession. set (ses := conn_session c) in *.
  split; cbn; rewrite ?Hsession; try done.
  - intros session q Hq. destruct (decide (session = ses)) as [->|Hne].
    + rewrite lookup_insert_eq in Hq. by injection Hq as <-.
    + rewrite lookup_insert_ne in Hq by done. by apply Hp.
  - intros session c' Hs. destruct (decide (session = ses)) as [->|Hne].
    + rewrite lookup_insert_eq in Hs. injection Hs as <-. rewrite lookup_insert_eq, lookup_delete_eq. by eauto.
    + rewrite lookup_insert_ne in Hs by done. rewrite lookup_insert_ne, lookup_delete_ne by done. by apply Hc.
  - intros session c' m' b [Hne Hs]%lookup_delete_Some. destruct (Hcall _ _ _ _ Hs) as (? & ? & ?).
    rewrite !lookup_insert_ne by done. done.
  - intros session m' Hs. destruct (Hr _ _ Hs) as (? & Hsome & Ha). split_and!; [done|..].
    { destruct (decide (session = ses)) as [->|Hne]; [by rewrite lookup_insert_eq|by rewrite lookup_insert_ne]. }
    intros Hreq. destruct (decide (session = ses)) as [->|Hne].
    + left. exists p'. cbn. rewrite Hsession, lookup_insert_eq. split; [done|]. by apply Hrep.
    + destruct (Ha Hreq) as [(q & Hq & Hin)|[Hin|Hin]]; [left; exists q|right; left|right; right]; cbn;
        rewrite ?Hsession, ?lookup_insert_ne, ?lookup_delete_ne by done; done.
Qed.

(** A loop that waits for messages has every report of its session remembered. *)
Lemma waiting_reports s session c p m :
  gateway_inv s → sys_conns s !! session = Some c → gw_heap (sys_gateway s) !! session = Some p →
  (session, m) ∈ sys_reported s → requested m = true → is_Some (peer_reports p !! msg_RequestID m).
Proof.
  intros [Hp Hc Hcall Hr Ho] Hconn Hheap Hm Hreq. destruct (Hr _ _ Hm) as (_ & _ & Ha).
  destruct (Hc _ _ Hconn) as (_ & _ & Hnone).
  destruct (Ha Hreq) as [(q & Hq & Hin)|[(c' & m' & Hcl & _)|[Hno _]]]; congruence.
Qed.

(** A loop that enters a callback. *)
Lemma inv_calls s c c0 m p b :
  gateway_inv s → sys_conns s !! conn_session c = Some c0 → gw_heap (sys_gateway s) !! conn_session c = Some p →
  (b = false → msg_Type m = "telemetry" ∨ msg_Type m = "lifecycle" ∧ call_ok (conn_session c) (sys_permitted s) p m) →
  gateway_inv (settle s c m (if b then CallDurable else CallReport)).
Proof.
  intros Hinv Hconn Hheap Hm. pose proof (λ m, waiting_reports s _ _ _ m Hinv Hconn Hheap) as Hw.
  destruct Hinv as [Hp Hc Hcall Hr Ho]. set (ses := conn_session c) in *.
  set (reported' := if negb b && bool_decide (msg_Type m = "lifecycle") then (ses, m) :: sys_reported s else sys_reported s).
  assert (Hs : settle s c m (if b then CallDurable else CallReport) =
    s <| sys_conns := delete ses (sys_conns s) |> <| sys_calls := <[ses := (c, m, b)]> (sys_calls s) |>
      <| sys_reported := reported' |>) by (unfold reported'; destruct b; [by destruct s|done]).
  rewrite Hs. clear Hs.
  assert (Hsub : sys_reported s ⊆ reported') by (unfold reported'; destruct (_ && _); set_solver).
  split; cbn.
  - intros session q Hq. destruct (Hp _ _ Hq) as [? ? ? ? ? ? Hrep]. split; auto.
    intros rid m' Hm'. destruct (Hrep _ _ Hm') as (? & ? & ?). auto.
  - intros session c' [Hne Hs]%lookup_delete_Some. rewrite lookup_insert_ne by done. by apply Hc.
  - intros session c' m' b' Hs. destruct (decide (session = ses)) as [->|Hne].
    + rewrite lookup_insert_eq in Hs. injection Hs as <- <- <-. split_and!; [done|by rewrite lookup_delete_eq|].
      exists p. split; [done|]. intros Hb. destruct (Hm Hb) as [?|[Ht Hok]]; [by left|right].
      split_and!; [done..|]. unfold reported'. rewrite Hb, Ht. cbn. left.
    + rewrite lookup_insert_ne in Hs by done. destruct (Hcall _ _ _ _ Hs) as (? & ? & q & Hq & Hb).
      split_and!; [done|by rewrite lookup_delete_ne|]. exists q. split; [done|]. intros Hbf.
      destruct (Hb Hbf) as [?|(? & ? & ?)]; [by left|right]. auto.
  - intros session m' Hs.
    assert (Hold : (session, m') ∈ sys_reported s ∨ session = ses ∧ m' = m ∧ b = false ∧ msg_Type m = "lifecycle").
    { unfold reported' in Hs. destruct b; cbn in Hs; [by left|]. case_bool_decide; [|by left].
      apply elem_of_cons in Hs as [[= -> ->]|Hs]; [by right|by left]. }
    destruct Hold as [Hin|(-> & -> & Hb & Ht)].
    + destruct (Hr _ _ Hin) as (? & ? & Ha). split_and!; [done..|]. intros Hreq.
      destruct (decide (session = ses)) as [->|Hne].
      * left. exists p. split; [done|]. by apply Hw.
      * destruct (Ha Hreq) as [Hx|[Hx|Hx]]; [by left|right; left|right; right]; cbn;
          rewrite ?lookup_insert_ne, ?lookup_delete_ne by done; done.
    + destruct (Hm Hb) as [?|[_ Hok]]; [congruence|]. split_and!; [apply (call_permitted _ _ _ _ Hok)|by eexists|].
      intros Hreq. right; left. exists c, m. cbn. rewrite lookup_insert_eq, Hb. done.
  - unfold reported'. destruct b; cbn; [done|]. case_bool_decide as Ht; [|done].
    unfold requested_reports. rewrite filter_cons. case_decide as Hreq; [|done]. cbn. constructor; [|done].
    intros ([session m'] & Heq & Hin)%list_elem_of_fmap. apply list_elem_of_filter in Hin as [Hreq' Hin].
    injection Heq as <- Hrid. apply Is_true_true in Hreq, Hreq'.
    destruct (Hm eq_refl) as [?|[_ Hok]]; [congruence|]. destruct (call_new _ _ _ _ Hok Hreq) as [Hnone _].
    destruct (Hw m' Hin Hreq') as [x Hx]. rewrite <- Hrid, Hnone in Hx. done.
Qed.

(** *** The verdicts *)

Lemma update_peer_same g p : gw_heap g !! peer_session p = Some p → update_peer g p = g.
Proof.
  intros Hp. trans (mkGateway (gw_peers g) (<[peer_session p := p]> (gw_heap g))); [done|].
  rewrite insert_id by done. by destruct g.
Qed.

(** A peer whose reports and permits are what they were. *)
Lemma peer_ok_quiet session permitted reported p p' :
  peer_ok session permitted reported p → peer_session p' = peer_session p →
  peer_issued p' = peer_issued p → peer_reports p' = peer_reports p →
  (size (peer_pending p') ≤ 64)%nat → replies_fit session (peer_pending p') →
  peer_ok session permitted reported p'.
Proof. intros [] Hs Hi Hr ??. split; rewrite ?Hs, ?Hi, ?Hr; auto. Qed.

Lemma commit_ok session permitted reported p m :
  peer_ok session permitted reported p → call_ok session permitted p m → (session, m) ∈ reported →
  let p1 := p <| peer_issued := mark_issued (peer_issued p) m |> in
  peer_ok session permitted reported
    (if bool_decide (msg_RequestID m = "") then p1
     else p1 <| peer_reports := <[msg_RequestID m := m]> (peer_reports p1) |>).
Proof.
  intros Hok Hcall Hin p1.
  assert (Hok1 : peer_ok session permitted reported p1).
  { destruct Hok, Hcall. subst p1. split; cbn; try done.
    - unfold mark_issued. case_bool_decide; [|lia].
      rewrite <- insert_delete_eq, map_size_insert_None by apply lookup_delete_eq. lia.
    - intros uuid Hu. unfold mark_issued in Hu. case_bool_decide.
      + destruct (decide (uuid = msg_UUID m)) as [->|Hne]; [done|]. rewrite lookup_insert_ne in Hu by done. auto.
      + destruct (decide (uuid = msg_UUID m)) as [->|Hne]; [done|]. rewrite lookup_delete_ne in Hu by done. auto. }
  case_bool_decide as Hrid; [done|]. assert (Hreq : requested m = true) by (unfold requested; by rewrite bool_decide_eq_false_2).
  destruct (call_new _ _ _ _ Hcall Hreq) as [Hnone Hsize]. destruct Hok1. split; cbn in *; try done.
  - rewrite map_size_insert_None by done. lia.
  - intros rid m' Hm'. destruct (decide (rid = msg_RequestID m)) as [->|Hne].
    + rewrite lookup_insert_eq in Hm'. by injection Hm' as <-.
    + rewrite lookup_insert_ne in Hm' by done. auto.
Qed.

(** What [on_lifecycle] decides, for a loop that waits. *)
Lemma receive_inv s c c0 p m now :
  gateway_inv s → sys_conns s !! conn_session c = Some c0 → gw_heap (sys_gateway s) !! conn_session c = Some p →
  msg_Session m = peer_session p →
  gateway_inv (settle s c m (receive true durable (sys_gateway s) p m now)).
Proof.
  intros Hinv Hconn Hheap Hms. pose proof (inv_peer s Hinv _ _ Hheap) as Hok.
  pose proof (ok_session _ _ _ _ Hok) as Hses.
  pose proof (λ m', waiting_reports s _ _ _ m' Hinv Hconn Hheap) as Hw.
  assert (Hsame : update_peer (sys_gateway s) p = sys_gateway s) by (apply update_peer_same; by rewrite Hses).
  assert (Hquiet : ∀ p' v, peer_session p' = peer_session p → peer_issued p' = peer_issued p →
     peer_reports p' = peer_reports p → (size (peer_pending p') ≤ 64)%nat → replies_fit (conn_session c) (peer_pending p') →
     v = Continue (update_peer (sys_gateway s) p') ∨ (∃ r, v = Acknowledge (update_peer (sys_gateway s) p') r) →
     gateway_inv (settle s c m v)).
  { intros p' v H1 H2 H3 H4 H5 Hv. apply (inv_resume s c m p p' v Hinv Hheap); [by eapply peer_ok_quiet| |done].
    rewrite H3. exact Hw. }
  destruct Hok as [_ Hsize Hissued Hreports Hfit Hperm Hrep].
  unfold receive. case_bool_decide; [|case_bool_decide; [|case_bool_decide; [|case_bool_decide]]]; [..|by apply inv_closed].
  - unfold on_ready. destruct (peer_ready p); [by apply inv_closed|]. eapply Hquiet; [..|by left]; done.
  - unfold on_reply. destruct (peer_pending p !! msg_RequestID m) as [w|] eqn:Hpend.
    2: { eapply (Hquiet p); [done..|left; by rewrite Hsame]. }
    destruct (_ && _) eqn:Hb.
    2: { eapply (Hquiet p); [done..|left; by rewrite Hsame]. }
    simplify_bool. eapply Hquiet; [..|by left]; cbn; try done.
    + by rewrite map_size_insert_Some.
    + intros rid w' m' Hl Hres. destruct (decide (rid = msg_RequestID m)) as [->|Hne].
      * rewrite lookup_insert_eq in Hl. injection Hl as <-. cbn in *. injection Hres as <-. split_and!; congruence.
      * rewrite lookup_insert_ne in Hl by done. by eapply Hfit.
  - unfold on_telemetry. destruct (negb _); [by apply inv_closed|]. destruct (_ || _); [by apply inv_closed|].
    apply (inv_calls s c c0 m p false Hinv Hconn Hheap). by left.
  - unfold on_lifecycle. fold (requested m). destruct (durable && requested m).
    { apply (inv_calls s c c0 m p true Hinv Hconn Hheap). done. }
    destruct (64 <? _); [by apply inv_closed|].
    destruct (if requested m then peer_reports p !! msg_RequestID m else None) as [previous|] eqn:Hprev.
    { destruct (_ || _); [by apply inv_closed|]. eapply (Hquiet p); [done..|right; eexists; by rewrite Hsame]. }
    destruct (requested m && _) eqn:Hfull; [by apply inv_closed|].
    destruct (_ || _) eqn:Hissue; [by apply inv_closed|]. simplify_bool.
    apply (inv_calls s c c0 m p false Hinv Hconn Hheap). intros _. right. split; [done|].
    assert (Hi : is_Some (peer_issued p !! msg_UUID m)) by (by apply not_eq_None_Some).
    split.
    + rewrite <- Hses. rewrite Hses. by apply Hperm.
    + rewrite map_size_delete_Some by done. lia.
    + intros Hreq. rewrite Hreq in *. split; [done|]. destruct Hfull as [Hfull|Hfull]; [done|]. apply Z.leb_gt in Hfull. lia.
Qed.

(** A loop in a callback has every other report of its session remembered. *)
Lemma calling_reports s session c p m m' b :
  gateway_inv s → sys_calls s !! session = Some (c, m, b) → gw_heap (sys_gateway s) !! session = Some p →
  (session, m') ∈ sys_reported s → requested m' = true →
  is_Some (peer_reports p !! msg_RequestID m')
  ∨ b = false ∧ msg_Type m = "lifecycle" ∧ msg_RequestID m = msg_RequestID m'.
Proof.
  intros Hinv Hcl Hheap Hin Hreq. destruct (inv_report s Hinv _ _ Hin) as (_ & _ & Ha).
  destruct (Ha Hreq) as [(q & Hq & Hs)|[(c' & m1 & Hc & Hrid & Ht)|[_ Hno]]]; [left; congruence| |congruence].
  right. rewrite Hcl in Hc. by injection Hc as <- <- ->.
Qed.

Lemma after_report_inv s c m p now outcome :
  gateway_inv s → sys_calls s !! conn_session c = Some (c, m, false) →
  gw_heap (sys_gateway s) !! conn_session c = Some p →
  gateway_inv (settle s c m (after_report (sys_gateway s) p m now outcome)).
Proof.
  intros Hinv Hcl Hheap. pose proof (inv_peer s Hinv _ _ Hheap) as Hok.
  pose proof (λ m', calling_reports s _ _ _ _ m' _ Hinv Hcl Hheap) as Hw.
  destruct (inv_call s Hinv _ _ _ _ Hcl) as (_ & _ & q & Hq & Hcase).
  assert (q = p) as -> by congruence. specialize (Hcase eq_refl).
  unfold after_report. destruct outcome as [[]|e]; [|by apply inv_closed]. case_bool_decide as Ht.
  - apply (inv_resume s c m p (p <| peer_delivery := msg_Delivery m |> <| peer_observedAt := now |>));
      [done|done| | |by left].
    + by eapply peer_ok_quiet; [exact Hok|..]; destruct Hok.
    + cbn. intros m' Hin Hreq. destruct (Hw m' Hin Hreq) as [Hs|(_ & Ht' & _)]; [done|congruence].
  - destruct Hcase as [?|(Htype & Hcall & Hin0)]; [done|].
    pose proof (commit_ok _ _ _ _ _ Hok Hcall Hin0) as Hok'. cbv zeta in Hok'.
    assert (Hrep : ∀ m', (conn_session c, m') ∈ sys_reported s → requested m' = true →
      is_Some (peer_reports (if bool_decide (msg_RequestID m = "") then p <| peer_issued := mark_issued (peer_issued p) m |>
        else p <| peer_issued := mark_issued (peer_issued p) m |>
               <| peer_reports := <[msg_RequestID m := m]> (peer_reports p) |>) !! msg_RequestID m')).
    { intros m' Hin Hreq. destruct (Hw m' Hin Hreq) as [Hs|(_ & _ & Hrid)].
      - case_bool_decide; [done|]. cbn. destruct (decide (msg_RequestID m' = msg_RequestID m)) as [->|Hne];
          [rewrite lookup_insert_eq; by eexists|by rewrite lookup_insert_ne].
      - unfold requested in Hreq. simplify_bool. case_bool_decide; [congruence|]. cbn. rewrite Hrid, lookup_insert_eq.
        by eexists. }
    unfold commit_lifecycle. case_bool_decide.
    + eapply (inv_resume s c m p); [done|done|exact Hok'|exact Hrep|left; reflexivity].
    + eapply (inv_resume s c m p); [done|done|exact Hok'|exact Hrep|right; eexists; reflexivity].
Qed.

Lemma after_durable_inv s c m p outcome :
  gateway_inv s → sys_calls s !! conn_session c = Some (c, m, true) →
  gw_heap (sys_gateway s) !! conn_session c = Some p →
  gateway_inv (settle s c m (after_durable (sys_gateway s) p m outcome)).
Proof.
  intros Hinv Hcl Hheap. pose proof (inv_peer s Hinv _ _ Hheap) as Hok.
  assert (Hw : ∀ m', (conn_session c, m') ∈ sys_reported s → requested m' = true →
      is_Some (peer_reports p !! msg_RequestID m')).
  { intros m' Hin Hreq. by destruct (calling_reports s _ _ _ _ m' _ Hinv Hcl Hheap Hin Hreq) as [?|(? & _)]. }
  assert (Hsame : update_peer (sys_gateway s) p = sys_gateway s)
    by (apply update_peer_same; by rewrite (ok_session _ _ _ _ Hok)).
  unfold after_durable. destruct outcome as [[]|e].
  - eapply (inv_resume s c m p); [done|done| | |right; eexists; reflexivity]; [|exact Hw].
    destruct Hok as [Hses Hsize Hissued Hreports Hfit Hperm Hrep]. split; cbn; try done.
    + case_bool_decide.
      * etrans; [|exact Hissued]. by apply issued_shrinks, delete_subseteq.
      * destruct (peer_issued p !! msg_UUID m) eqn:Hi; [|done].
        rewrite (proj1 (issued_replaces _ _ None (mk_is_Some _ _ Hi))). done.
    + intros uuid Hu. apply Hperm. case_bool_decide.
      * by apply lookup_delete_is_Some in Hu as [_ ?].
      * destruct (peer_issued p !! msg_UUID m) eqn:Hi; [|done].
        destruct (decide (uuid = msg_UUID m)) as [->|Hne]; [by eexists|]. by rewrite lookup_insert_ne in Hu.
  - destruct e; try by apply inv_closed.
    eapply (inv_resume s c m p p); [done|done|done|exact Hw|right; eexists; by rewrite Hsame].
Qed.

(** *** The other steps *)

Lemma moved_shrink permitted p p' :
  peer_session p' = peer_session p → peer_reports p' = peer_reports p →
  (size (peer_issued p) ≤ 4097)%nat → peer_issued p' ⊆ peer_issued p → (size (peer_pending p') ≤ 64)%nat →
  replies_fit (peer_session p) (peer_pending p') → peer_moved permitted p p'.
Proof.
  intros Hses Hrep Hsize Hsub Hpend Hfit. destruct (issued_shrinks _ _ Hsub) as [Hs Hd]. split; try done; [|lia|].
  - intros uuid [e He]. left. exists e. by eapply lookup_weaken.
  - intros uuid Hu. etrans; [apply Hd|done].
Qed.

Lemma replies_fit_waiter session pending rid uuid :
  replies_fit session pending → replies_fit session (<[rid := mkWaiter uuid None]> pending).
Proof.
  intros Hfit rid' w m Hl Hres. destruct (decide (rid' = rid)) as [->|Hne].
  - rewrite lookup_insert_eq in Hl. by injection Hl as <-.
  - rewrite lookup_insert_ne in Hl by done. by eapply Hfit.
Qed.

Lemma replies_fit_delete session pending rid :
  replies_fit session pending → replies_fit session (delete rid pending).
Proof. intros Hfit rid' w m [_ Hl]%lookup_delete_Some Hres. by eapply Hfit. Qed.

Lemma size_waiter (pending : gmap string waiter) rid w :
  Z.of_nat (size pending) < 64 → (size (<[rid := w]> pending) ≤ 64)%nat.
Proof. intros Hs. rewrite map_size_insert. destruct (pending !! rid); cbn; lia. Qed.

(** A step that moves one peer. *)
Lemma inv_moved s p p' :
  gateway_inv s → gw_heap (sys_gateway s) !! peer_session p = Some p → peer_moved (sys_permitted s) p p' →
  gateway_inv (s <| sys_gateway := update_peer (sys_gateway s) p' |>).
Proof.
  intros Hinv Hp Hm.
  pose proof (inv_peer_moved s p p' (gw_peers (sys_gateway s)) (sys_permitted s) Hinv Hp (reflexivity _) Hm) as Hi.
  by destruct s.
Qed.

(** The critical section of a command, and of a quarantine request. *)
Lemma inv_command s p rid uuid permitted' issued' :
  gateway_inv s → gw_heap (sys_gateway s) !! peer_session p = Some p → sys_permitted s ⊆ permitted' →
  Z.of_nat (size (peer_pending p)) < 64 →
  issued' = peer_issued p ∨ (∃ u e, issued' = <[u := e]> (peer_issued p) ∧ (size (peer_issued p) < 4096)%nat
                                    ∧ (peer_session p, u) ∈ permitted') →
  gateway_inv (s <| sys_gateway := update_peer (sys_gateway s)
      (p <| peer_pending := <[rid := mkWaiter uuid None]> (peer_pending p) |> <| peer_issued := issued' |>) |>
    <| sys_permitted := permitted' |>).
Proof.
  intros Hinv Hp Hsub Hsize Hi. pose proof (inv_peer s Hinv _ _ Hp) as [].
  apply (inv_peer_moved s p (p <| peer_pending := <[rid := mkWaiter uuid None]> (peer_pending p) |> <| peer_issued := issued' |>)
           (gw_peers (sys_gateway s)) permitted' Hinv Hp Hsub).
  split; cbn; try done; [by apply size_waiter|by apply replies_fit_waiter|..];
    (destruct Hi as [->|(u & e & -> & Hs & Hu)]; [by auto|]); destruct (issued_grows (peer_issued p) u e Hs) as [Hg1 Hg2].
  - intros uuid' Hu'. destruct (decide (uuid' = u)) as [->|Hne]; [by right|left]. by rewrite lookup_insert_ne in Hu'.
  - lia.
  - auto.
Qed.

Lemma inv_join s id token session now :
  gateway_inv s → gw_heap (sys_gateway s) !! session = None →
  gateway_inv (s <| sys_gateway := mkGateway (<[id:=session]> (gw_peers (sys_gateway s)))
       (<[session := mkPeer session token false ∅ ∅ ∅ None zero_time]> (gw_heap (sys_gateway s))) |>
     <| sys_conns := <[session := mkConn id token session now 0]> (sys_conns s) |>).
Proof.
  intros [Hp Hc Hcall Hr Ho] Hfresh.
  assert (Hold : ∀ ses, is_Some (gw_heap (sys_gateway s) !! ses) → ses ≠ session) by (intros ses [? ?] ->; congruence).
  split; cbn; try done.
  - intros ses p Hs. destruct (decide (ses = session)) as [->|Hne].
    + rewrite lookup_insert_eq in Hs. injection Hs as <-. split; cbn; rewrite ?map_size_empty; try done; try lia.
      intros uuid [? Hl]. by rewrite lookup_empty in Hl.
    + rewrite lookup_insert_ne in Hs by done. by apply Hp.
  - intros ses c Hs. destruct (decide (ses = session)) as [->|Hne].
    + rewrite lookup_insert_eq in Hs. injection Hs as <-. rewrite lookup_insert_eq. split_and!; [done|by eexists|].
      destruct (sys_calls s !! session) as [[[c' m] b]|] eqn:Hcl; [|done].
      destruct (Hcall _ _ _ _ Hcl) as (_ & _ & p & Hpp & _). congruence.
    + rewrite lookup_insert_ne in Hs by done. rewrite lookup_insert_ne by done. by apply Hc.
  - intros ses c m b Hs. destruct (Hcall _ _ _ _ Hs) as (H1 & H2 & p & Hpp & H3).
    assert (Hne : ses ≠ session) by (apply Hold; by eexists). rewrite !lookup_insert_ne by done. by eauto.
  - intros ses m Hs. destruct (Hr _ _ Hs) as (H1 & H2 & H3). assert (Hne : ses ≠ session) by auto.
    split_and!; [done|by rewrite lookup_insert_ne|]. intros Hreq.
    destruct (H3 Hreq) as [(p & Hpp & Hin)|[Hx|Hx]]; [left; exists p|right; left|right; right]; cbn;
      by rewrite ?lookup_insert_ne.
Qed.

Lemma admit_frame_session c p m now c' :
  admit_frame c p m now = Some c' → conn_session c' = conn_session c ∧ msg_Session m = peer_session p.
Proof.
  unfold admit_frame. case_bool_decide; [|done]. cbn [negb]. destruct (100 <? _); [done|]. destruct (_ && _); [done|].
  intros [= <-]. split; [|done]. by destruct (second <? _).
Qed.

Lemma gateway_step_inv s l s' : gateway_inv s → gateway_step s l = Some s' → gateway_inv s'.
Proof.
  intros Hinv Hstep. pose proof (inv_peer s Hinv) as Hpeer.
  destruct l as [id token session now|id session|id|session now|session m now|session outcome now|session outcome
                |id session rid action uuid now|session uuid|session rid|id session rid]; cbn in Hstep.
  - case_bool_decide as Hfresh; [|done]. unfold join in Hstep. destruct (gw_peers _ !! id); [done|]. injection Hstep as <-.
    by apply inv_join.
  - injection Hstep as <-. unfold leave. case_decide; [by apply inv_peers_map|by destruct s].
  - injection Hstep as <-. by apply inv_peers_map.
  - injection Hstep as <-. unfold expire. destruct (gw_heap _ !! session) as [p|] eqn:Hp; [|by destruct s].
    pose proof (Hpeer _ _ Hp) as [<-]. apply (inv_moved s p); [done..|].
    apply moved_shrink; [done..|apply map_filter_subseteq|done|done].
  - destruct (sys_conns s !! session) as [c|] eqn:Hc; [|done]. cbn in Hstep.
    destruct (gw_heap _ !! session) as [p|] eqn:Hp; [|done]. cbn in Hstep.
    destruct (inv_conn s Hinv _ _ Hc) as [<- _]. destruct (admit_frame c p m now) as [c'|] eqn:Ha; injection Hstep as <-;
      [|by apply (inv_closed s c m)].
    destruct (admit_frame_session _ _ _ _ _ Ha) as [Hses Hm]. apply (receive_inv s c' c p m now); rewrite ?Hses; done.
  - destruct (sys_calls s !! session) as [[[c m] []]|] eqn:Hc; cbn in Hstep; try (by destruct (gw_heap _ !! session));
      [|done]. destruct (gw_heap _ !! session) as [p|] eqn:Hp; [|done]. injection Hstep as <-.
    destruct (inv_call s Hinv _ _ _ _ Hc) as [<- _]. by apply after_report_inv.
  - destruct (sys_calls s !! session) as [[[c m] []]|] eqn:Hc; cbn in Hstep; try (by destruct (gw_heap _ !! session));
      [|done]. destruct (gw_heap _ !! session) as [p|] eqn:Hp; [|done]. injection Hstep as <-.
    destruct (inv_call s Hinv _ _ _ _ Hc) as [<- _]. by apply after_durable_inv.
  - destruct (negb _); [done|]. unfold begin_command in Hstep.
    destruct (gw_heap _ !! session) as [p|] eqn:Hp; [|done]. cbn in Hstep. destruct (_ || _) eqn:Hb; [done|].
    injection Hstep as <-. simplify_bool. pose proof (Hpeer _ _ Hp) as [<-]. unfold permit_note. case_bool_decide as Hact.
    + apply (inv_command s p rid uuid ((peer_session p, uuid) :: sys_permitted s)); [done|done|set_solver|done|].
      right. do 2 eexists. split; [reflexivity|]. split; [|left].
      match goal with Hfull : _ ∨ _ |- _ => destruct Hfull as [Hfull|Hfull]; [done|] end.
      simplify_bool. lia.
    + pose proof (inv_command s p rid uuid (sys_permitted s) (peer_issued p) Hinv Hp (reflexivity _)) as Hi. destruct p. apply Hi; [done|by left].
  - injection Hstep as <-. unfold withdraw. destruct (gw_heap _ !! session) as [p|] eqn:Hp; [|by destruct s].
    pose proof (Hpeer _ _ Hp) as [<-]. apply (inv_moved s p); [done..|].
    apply moved_shrink; [done..|apply delete_subseteq|done|done].
  - injection Hstep as <-. unfold end_command. destruct (gw_heap _ !! session) as [p|] eqn:Hp; [|by destruct s].
    pose proof (Hpeer _ _ Hp) as [<-]. apply (inv_moved s p); [done..|]. 
    apply moved_shrink; [done..| |by apply replies_fit_delete].
    etrans; [|eassumption]. by apply map_subseteq_size, delete_subseteq.
  - unfold begin_quarantine in Hstep. destruct (gw_heap _ !! session) as [p|] eqn:Hp; [|done]. cbn in Hstep.
    destruct (_ || _) eqn:Hb; [done|]. injection Hstep as <-. simplify_bool. pose proof (Hpeer _ _ Hp) as [<-].
    pose proof (inv_command s p rid "" (sys_permitted s) (peer_issued p) Hinv Hp (reflexivity _)) as Hi.
    destruct s, p. apply Hi; [done|by left].
Qed.

Lemma no_peers_inv : gateway_inv no_peers.
Proof.
  split; cbn.
  all: first [by constructor | intros; exfalso].
  all: repeat match goal with
              | H : ∅ !! _ = Some _ |- _ => rewrite lookup_empty in H; discriminate H
              | H : _ ∈ [] |- _ => apply not_elem_of_nil in H; exact H
              | H : is_Some (∅ !! _) |- _ => rewrite lookup_empty in H; destruct H
              end.
Qed.

Lemma reachable_inv s : reachable s → gateway_inv s.
Proof. induction 1; [apply no_peers_inv|by eapply gateway_step_inv]. Qed.

(** A sequence of steps. *)
Fixpoint run_gateway (ls : list label) (s : system) : option system :=
  match ls with
  | [] => Some s
  | l :: ls' => gateway_step s l ≫= run_gateway ls'
  end.

Lemma reachable_run ls s s' : reachable s → run_gateway ls s = Some s' → reachable s'.
Proof.
  revert s. induction ls as [|l ls IH]; intros s Hs; cbn; [by intros [= <-]|].
  destruct (gateway_step s l) as [s1|] eqn:Hl; [|done]. intros Hr. eapply IH; [|exact Hr]. by eapply reach_step.
Qed.

(** what a connected relay can make the gateway hold is bounded: in every
    interleaving of connections, messages, callbacks, timers and commands, a peer
    has at most 64 commands that wait, 8192 reports it remembers and 4097
    permits.  (A command is refused at 4096 permits; one more can come from an
    event that was in [g.Report] when its permit expired.) *)
Theorem gateway_bounded s session p :
  reachable s → gw_heap (sys_gateway s) !! session = Some p →
  (size (peer_pending p) ≤ 64)%nat ∧ (size (peer_issued p) ≤ 4097)%nat ∧ Z.of_nat (size (peer_reports p)) ≤ 8192.
Proof. intros Hs%reachable_inv Hp. by destruct (inv_peer s Hs _ _ Hp). Qed.

(** a relay reports only what it was permitted, and nothing twice: in every
    interleaving, each lifecycle event that reaches [g.Report] names a UUID that a
    permit command of the same session named, and no session hands it two events
    with one request identifier, however often it repeats its messages.  Without
    [DurableReport] that covers every event; with it, as the server runs, the
    events with an identifier go to [DurableReport], which checks and records them
    itself (Lifecycle.v), and only those without one reach [g.Report]. *)
Theorem lifecycle_reported_once s :
  reachable s →
  (∀ session m, (session, m) ∈ sys_reported s → (session, msg_UUID m) ∈ sys_permitted s)
  ∧ NoDup (report_key <$> requested_reports (sys_reported s)).
Proof.
  intros Hs%reachable_inv. split; [|apply (inv_once s Hs)].
  intros session m Hm. by destruct (inv_report s Hs _ _ Hm).
Qed.

(** C33: a command gets its own reply: in every interleaving, the message that
    waits for a command came over the session of its peer and names its request
    and its UUID. *)
Theorem reply_reaches_its_command s session p rid w m :
  reachable s → gw_heap (sys_gateway s) !! session = Some p →
  peer_pending p !! rid = Some w → waiter_result w = Some m →
  msg_Session m = session ∧ msg_RequestID m = rid ∧ msg_UUID m = waiter_uuid w.
Proof.
  intros Hs%reachable_inv Hp Hw Hm. destruct (inv_peer s Hs _ _ Hp) as [_ _ _ _ Hfit _ _].
  by destruct (Hfit rid w m Hw Hm) as (? & ? & ?).
Qed.
End System.

(** ** The theorems at a concrete run *)

Definition ex_message (type rid uuid status : string) : Message :=
  zero_message <| msg_Type := type |> <| msg_Session := "s1" |> <| msg_RequestID := rid |> <| msg_UUID := uuid |>
    <| msg_Status := status |>.

(** A relay connects, gets a permit and a reply, reports the connection, repeats
    the report, and ends it; meanwhile a second connection is refused. *)
Definition ex_run : list label :=
  [Joins "r1" "token" "s1" 0; Receives "s1" (ex_message "ready" "" "" "") 1;
   Commands "r1" "s1" "q1" "permit" "uuid-0001" 2; Receives "s1" (ex_message "ack" "q1" "uuid-0001" "permitted") 3;
   Receives "s1" (ex_message "lifecycle" "e1" "uuid-0001" "active") 4; Expires "s1" (3 * minute);
   Reported "s1" (Ok tt) 5; Receives "s1" (ex_message "lifecycle" "e1" "uuid-0001" "active") 6;
   Commands "r1" "s1" "q2" "permit" "uuid-0002" 7;
   Receives "s1" (ex_message "lifecycle" "e2" "uuid-0001" "closed") 8; Reported "s1" (Ok tt) 9].
Abbreviation ex_system := (run_gateway false ex_run no_peers) (only parsing).

Lemma ex_system_reachable s : ex_system = Some s → reachable false s.
Proof. apply reachable_run. constructor. Qed.

Lemma gateway_bounded_witness :
  ∃ s p, ex_system = Some s ∧ gw_heap (sys_gateway s) !! "s1" = Some p ∧ (size (peer_pending p) ≤ 64)%nat
         ∧ size (peer_pending p) = 2%nat.
Proof.
  destruct ex_system as [s|] eqn:Hs; [|by vm_compute in Hs].
  destruct (gw_heap (sys_gateway s) !! "s1") as [p|] eqn:Hp.
  - exists s, p. split_and!; [reflexivity|exact Hp| |].
    + apply (gateway_bounded false s "s1" p (ex_system_reachable s Hs) Hp).
    + assert (Hc : (p ← (s ← ex_system; gw_heap (sys_gateway s) !! "s1"); Some (size (peer_pending p))) = Some 2%nat)
        by (vm_compute; reflexivity).
      rewrite Hs in Hc. cbn [mbind option_bind] in Hc. rewrite Hp in Hc. by injection Hc.
  - assert (Hc : is_Some (s ← ex_system; gw_heap (sys_gateway s) !! "s1")) by (vm_compute; by eexists).
    rewrite Hs in Hc. cbn [mbind option_bind] in Hc. rewrite Hp in Hc. destruct Hc as [? [=]].
Defined.

Lemma lifecycle_reported_once_witness :
  ∃ s, ex_system = Some s ∧ (λ x, msg_RequestID x.2) <$> sys_reported s = ["e2"; "e1"]
       ∧ NoDup (report_key <$> requested_reports (sys_reported s)).
Proof.
  assert (Hc : (λ s, (λ x, msg_RequestID x.2) <$> sys_reported s) <$> ex_system = Some ["e2"; "e1"]) by (vm_compute; reflexivity).
  destruct ex_system as [s|] eqn:Hs; [|done]. injection Hc as Hc. exists s. split_and!; [reflexivity|exact Hc|].
  apply (lifecycle_reported_once false s (ex_system_reachable s Hs)).
Defined.

Lemma reply_reaches_its_command_witness :
  ∃ s p w m, ex_system = Some s ∧ gw_heap (sys_gateway s) !! "s1" = Some p
    ∧ peer_pending p !! "q1" = Some w ∧ waiter_result w = Some m ∧ msg_UUID m = waiter_uuid w.
Proof.
  assert (Hc : is_Some (s ← ex_system; p ← gw_heap (sys_gateway s) !! "s1"; w ← peer_pending p !! "q1"; waiter_result w))
    by (vm_compute; by eexists).
  destruct ex_system as [s|] eqn:Hs; [|destruct Hc as [? [=]]]. cbn [mbind option_bind] in Hc.
  destruct (gw_heap (sys_gateway s) !! "s1") as [p|] eqn:Hp; [|destruct Hc as [? [=]]]. cbn in Hc.
  destruct (peer_pending p !! "q1") as [w|] eqn:Hw; [|destruct Hc as [? [=]]]. cbn in Hc.
  destruct (waiter_result w) as [m|] eqn:Hm; [|destruct Hc as [? [=]]].
  exists s, p, w, m. split_and!; [reflexivity|exact Hp|exact Hw|exact Hm|].
  exact (proj2 (proj2 (reply_reaches_its_command false s "s1" p "q1" w m (ex_system_reachable s Hs) Hp Hw Hm))).
Defined.
