(* ===== verification/StoreDevices.v ===== *)
(** * Devices, address books, audit and connections: [sqlstore.Store]
    (art-api/internal/store/sqlstore/store.go, connections.go)

    Environment variables and [time.Now()] are arguments. *)

From S2P Require Export StoreSessions.

Section Store.
Context `{Unicode} `{SqlText}.

(** ** Audit *)

Definition scanAuditEvent (e : AuditEvent) : AuditEvent :=
  e <| audit_OccurredAt := fromMillis (audit_OccurredAt e) |>.

Definition AppendAudit (event : AuditEvent) : M unit :=
  discard (sql_insert_ignore t_audit_events (λ e, audit_ID e = audit_ID event)
             (event <| audit_OccurredAt := millis (audit_OccurredAt event) |>)).

Definition ListAudit (limit0 : Z) : M (list AuditEvent) :=
  let limit := if (limit0 <? 1) || (500 <? limit0) then 100 else limit0 in
  query (λ d, scanAuditEvent <$> limit_offset limit 0
    (SliceStable (λ a b, audit_OccurredAt b <? audit_OccurredAt a) (t_audit_events d))).

(** [auditWhere]: an absent field is no condition; the clauses are joined by AND. *)
Definition equal_or_any (wanted value : string) : bool :=
  bool_decide (wanted = "") || bool_decide (value = wanted).

Definition auditWhere (q : AuditQuery) (e : AuditEvent) : bool :=
  equal_or_any (aquery_Type q) (audit_Type e)
  && equal_or_any (aquery_Result q) (audit_Result e)
  && equal_or_any (aquery_ActorUserID q) (audit_ActorUserID e)
  && equal_or_any (aquery_TargetID q) (audit_TargetRustDeskID e)
  && equal_or_any (aquery_IP q) (audit_IP e)
  && match aquery_From q with Some t => millis t <=? audit_OccurredAt e | None => true end
  && match aquery_To q with Some t => audit_OccurredAt e <=? millis t | None => true end
  && (bool_decide (aquery_Search q = "")
      || existsb (λ field, sql_like (sql_lower field) ("%" +:+ ToLower (aquery_Search q) +:+ "%"))
           [audit_Type e; audit_ActorUserID e; audit_ControllerDevice e; audit_TargetRustDeskID e;
            audit_IP e; audit_Result e; audit_Reason e]).

Definition audit_rows (q : AuditQuery) (d : DB) : list AuditEvent :=
  filter (λ e, Is_true (auditWhere q e)) (t_audit_events d).

Definition audit_order (a b : AuditEvent) : bool :=
  then_by (λ a b, audit_OccurredAt b <? audit_OccurredAt a)
          (λ a b, str_lt (audit_ID b) (audit_ID a)) a b.

Definition QueryAudit (q : AuditQuery) : M AuditPage :=
  let limit := if (aquery_Limit q <? 1) || (500 <? aquery_Limit q) then 100 else aquery_Limit q in
  let offset := if (aquery_Offset q <? 0) || (10000000 <? aquery_Offset q) then 0 else aquery_Offset q in
  total ← query (λ d, Z.of_nat (length (audit_rows q d)));
  events ← query (λ d, scanAuditEvent <$>
             limit_offset limit offset (SliceStable audit_order (audit_rows q d)));
  ret (mkAuditPage events total limit offset).

(** SELECT type,result,COUNT of all rows, GROUP BY type,result *)
Fixpoint group_count (rows : list AuditEvent) : list (string * string * Z) :=
  match rows with
  | [] => []
  | e :: rows' =>
      let key := (audit_Type e, audit_Result e) in
      let groups := group_count rows' in
      if decide (Exists (λ g : string * string * Z, g.1 = key) groups)
      then (λ g : string * string * Z, if decide (g.1 = key) then (g.1, g.2 + 1) else g) <$> groups
      else (key, 1) :: groups
  end.

(** One iteration of the loop over the groups. *)
Definition summary_add (r : AuditSummary) (g : string * string * Z) : AuditSummary :=
  let '(eventType, eventResult, count) := g in
  let bump key (m : gmap string Z) := <[key := default 0 (m !! key) + count]> m in
  mkAuditSummary (asummary_Total r + count)
    (if bool_decide (eventType = "connection_allowed") then asummary_AllowedConnections r + count
     else asummary_AllowedConnections r)
    (if bool_decide (eventType = "connection_denied") then asummary_DeniedConnections r + count
     else asummary_DeniedConnections r)
    (if bool_decide (eventType = "login_failed") then asummary_FailedLogins r + count
     else asummary_FailedLogins r)
    (bump eventType (asummary_ByType r)) (bump eventResult (asummary_ByResult r)).

Definition AuditSummary_of (q : AuditQuery) : M AuditSummary :=
  query (λ d, foldl summary_add (mkAuditSummary 0 0 0 0 ∅ ∅) (group_count (audit_rows q d))).

(** ** Devices *)

(** [deviceOnlineTTL]: the parsed setting, [None] when it is absent or invalid. *)
Definition deviceOnlineTTL (setting : option duration) : duration :=
  match setting with
  | Some parsed => if 30 * second <=? parsed then parsed else 180 * second
  | None => 180 * second
  end.

Definition scanDevice (ttl : duration) (now : time) (r : Device) : Device :=
  r <| device_LastSeen := fromMillis (device_LastSeen r) |>
    <| device_CreatedAt := fromMillis (device_CreatedAt r) |>
    <| device_DeployedAt := fromMillis <$> device_DeployedAt r |>
    <| device_ArchivedAt := fromMillis <$> device_ArchivedAt r |>
    <| device_Online := Sub now (fromMillis (device_LastSeen r)) <? ttl |>.

(** The inserted row; [archived_at] is not listed. *)
Definition device_row (v : Device) : Device :=
  v <| device_LastSeen := millis (device_LastSeen v) |>
    <| device_CreatedAt := millis (device_CreatedAt v) |>
    <| device_DeployedAt := millis <$> device_DeployedAt v |>
    <| device_ArchivedAt := None |>.

Definition nonempty_or (new old : string) : string := if bool_decide (new = "") then old else new.

(** The DO UPDATE SET list: [x] is the row EXCLUDED, [o] the stored one. *)
Definition merge_device (x o : Device) : Device :=
  o <| device_ClientUUID := if device_Deployed o then device_ClientUUID o else device_ClientUUID x |>
    <| device_Hostname := nonempty_or (device_Hostname x) (device_Hostname o) |>
    <| device_Platform := nonempty_or (device_Platform x) (device_Platform o) |>
    <| device_Version := nonempty_or (device_Version x) (device_Version o) |>
    <| device_CPU := nonempty_or (device_CPU x) (device_CPU o) |>
    <| device_Memory := nonempty_or (device_Memory x) (device_Memory o) |>
    <| device_Username := nonempty_or (device_Username x) (device_Username o) |>
    <| device_LastSeenIP := nonempty_or (device_LastSeenIP x) (device_LastSeenIP o) |>
    <| device_Online := device_Online x |>
    <| device_LastSeen := device_LastSeen x |>
    <| device_OwnerUserID := nonempty_or (device_OwnerUserID x) (device_OwnerUserID o) |>
    <| device_PublicKey := nonempty_or (device_PublicKey x) (device_PublicKey o) |>
    <| device_Deployed := device_Deployed o || device_Deployed x |>
    <| device_DeployedBy := nonempty_or (device_DeployedBy x) (device_DeployedBy o) |>
    <| device_DeployedAt := match device_DeployedAt x with
                            | Some t => Some t
                            | None => device_DeployedAt o
                            end |>.

Definition UpsertDevice (device : Device) : M unit :=
  sql_upsert t_devices (λ r, device_RustDeskID r = device_RustDeskID device)
    (merge_device (device_row device)) (device_row device).

Definition ListDevices (ttl : duration) (now : time) : M (list Device) :=
  query (λ d, scanDevice ttl now <$>
    SliceStable (λ a b, device_LastSeen b <? device_LastSeen a) (t_devices d)).

Definition DeviceAuditLabel (rustDeskID : string) : M (string * string) :=
  query_row (λ d, (λ v, (device_Hostname v, device_Alias v)) <$>
    select_one (λ v, device_RustDeskID v = rustDeskID) (t_devices d)).

(** The rows of AuditActorByDevice before ORDER BY and LIMIT. *)
Definition actor_rows (rustDeskID : string) (now : time) (d : DB) : list (Session * User) :=
  filter (λ p, session_RevokedAt p.1 = None ∧ millis now < session_ExpiresAt p.1
               ∧ user_Enabled p.2 = true
               ∧ (session_ClientDeviceID p.1 = rustDeskID
                  ∨ Some (session_ClientDeviceID p.1)
                    = device_ClientUUID <$> select_one (λ v, device_RustDeskID v = rustDeskID) (t_devices d)))
    (s ← t_sessions d; (λ u, (s, u)) <$> filter (λ u, user_ID u = session_UserID s) (t_users d)).

Definition AuditActorByDevice (rustDeskID : string) (now : time)
    : M (string * string * string * string) :=
  query_row (λ d, (λ p : Session * User,
      (user_ID p.2, session_ID p.1, user_Username p.2, user_DisplayName p.2)) <$>
    head (SliceStable (λ p q : Session * User, session_LastSeenAt q.1 <? session_LastSeenAt p.1)
            (actor_rows rustDeskID now d))).

(** The device with a given identifier in the list read back. *)
Definition find_device (id : string) (devices : list Device) : M Device :=
  match select_one (λ v, device_RustDeskID v = id) devices with
  | Some v => ret v
  | None => throw ErrNotFound
  end.

Definition UpdateDeviceManagement (ttl : duration) (clock : time) (id alias groupID : string)
    (tags : list string) : M Device :=
  affected (sql_update t_devices (λ v, device_RustDeskID v = id)
    (λ v, v <| device_Alias := alias |> <| device_GroupID := groupID |> <| device_Tags := tags |>));;
  devices ← ListDevices ttl clock;
  find_device id devices.

(** The loop that merges the tags of one device: [seen] is the map of the source. *)
Fixpoint merge_tags (removed seen : list string) (tags : list string) : list string :=
  match tags with
  | [] => []
  | t :: tags' =>
      let tag := TrimSpace t in
      if bool_decide (tag ≠ "" ∧ tag ∉ removed ∧ tag ∉ seen)
      then tag :: merge_tags removed (tag :: seen) tags'
      else merge_tags removed seen tags'
  end.

Definition BulkUpdateDevices (ids : list string) (groupID : option string)
    (addTags removeTags : list string) : M unit :=
  tx (for_each (λ id,
        current ← query_row (λ d, device_Tags <$>
                    select_one (λ v, device_RustDeskID v = id) (t_devices d));
        let merged := merge_tags (TrimSpace <$> removeTags) [] (current ++ addTags) in
        discard (sql_update t_devices (λ v, device_RustDeskID v = id)
          (λ v, match groupID with
                | None => v <| device_Tags := merged |>
                | Some g => v <| device_GroupID := g |> <| device_Tags := merged |>
                end))) ids).

Definition SetDeviceArchived (ttl : duration) (clock : time) (id : string) (archived : bool)
    (now : time) : M Device :=
  affected (sql_update t_devices (λ v, device_RustDeskID v = id)
    (λ v, v <| device_ArchivedAt := if archived then Some (millis now) else None |>));;
  devices ← ListDevices ttl clock;
  find_device id devices.

Definition DeleteArchivedDevice (id : string) : M unit :=
  affected (sql_delete t_devices (λ v, device_RustDeskID v = id ∧ device_ArchivedAt v ≠ None)).

Definition ImportDeviceManagement (values : list DeviceManagementImport) : M unit :=
  tx (for_each (λ i,
        count ← sql_update t_devices
          (λ v, device_RustDeskID v = import_RustDeskID i ∧ device_ArchivedAt v = None)
          (λ v, v <| device_Alias := import_Alias i |> <| device_GroupID := import_GroupID i |>
                  <| device_Tags := import_Tags i |>);
        if bool_decide (count = 1) then ret tt else throw ErrNotFound) values).

(** ** Address books *)

Definition scanBook (b : AddressBook) : AddressBook :=
  b <| book_CreatedAt := fromMillis (book_CreatedAt b) |>
    <| book_UpdatedAt := fromMillis (book_UpdatedAt b) |>.

(** [permission] and [can_manage] are not columns. *)
Definition CreateAddressBook (v : AddressBook) : M unit :=
  sql_insert t_address_books (mkAddressBook (book_ID v) (book_Name v) (book_Kind v)
    (book_OwnerUserID v) "" false (millis (book_CreatedAt v)) (millis (book_UpdatedAt v))).

Definition ListAddressBooks : M (list AddressBook) :=
  query (λ d, scanBook <$> SliceStable (λ a b, str_lt (book_Name a) (book_Name b)) (t_address_books d)).

Definition FindAddressBookByID (id : string) : M AddressBook :=
  query_row (λ d, scanBook <$> select_one (λ b, book_ID b = id) (t_address_books d)).

Definition UpdateAddressBook (v : AddressBook) : M unit :=
  affected (sql_update t_address_books (λ b, book_ID b = book_ID v)
    (λ b, b <| book_Name := book_Name v |> <| book_Kind := book_Kind v |>
            <| book_UpdatedAt := millis (book_UpdatedAt v) |>)).

Definition DeleteAddressBook (id : string) : M unit :=
  tx (sql_delete t_address_book_entries (λ e, entry_AddressBookID e = id);;
      sql_delete t_address_book_tags (λ t, tag_AddressBookID t = id);;
      sql_delete t_address_book_grants (λ g, grant_AddressBookID g = id);;
      affected (sql_delete t_address_books (λ b, book_ID b = id))).

Definition scanAddressBookGrants (g : AddressBookGrant) : AddressBookGrant :=
  g <| grant_CreatedAt := fromMillis (grant_CreatedAt g) |>
    <| grant_UpdatedAt := fromMillis (grant_UpdatedAt g) |>.

Definition grant_key (g : AddressBookGrant) : string * string * string :=
  (grant_AddressBookID g, grant_SubjectType g, grant_SubjectID g).

Definition UpsertAddressBookGrant (v : AddressBookGrant) : M unit :=
  sql_upsert t_address_book_grants (λ g, grant_key g = grant_key v)
    (λ g, g <| grant_Permission := grant_Permission v |>
            <| grant_UpdatedAt := millis (grant_UpdatedAt v) |>)
    (v <| grant_CreatedAt := millis (grant_CreatedAt v) |>
       <| grant_UpdatedAt := millis (grant_UpdatedAt v) |>).

Definition grant_order (a b : AddressBookGrant) : bool :=
  then_by (λ a b, str_lt (grant_SubjectType a) (grant_SubjectType b))
          (λ a b, str_lt (grant_SubjectID a) (grant_SubjectID b)) a b.

Definition ListAddressBookGrants (bookID : string) : M (list AddressBookGrant) :=
  query (λ d, scanAddressBookGrants <$>
    SliceStable grant_order (filter (λ g, grant_AddressBookID g = bookID) (t_address_book_grants d))).

Definition ListAllAddressBookGrants : M (list AddressBookGrant) :=
  query (λ d, scanAddressBookGrants <$>
    SliceStable (then_by (λ a b, str_lt (grant_AddressBookID a) (grant_AddressBookID b)) grant_order)
      (t_address_book_grants d)).

Definition DeleteAddressBookGrant (bookID grantID : string) : M unit :=
  affected (sql_delete t_address_book_grants
              (λ g, grant_ID g = grantID ∧ grant_AddressBookID g = bookID)).

Definition entry_row (bookID : string) (v : AddressBookEntry) : AddressBookEntry :=
  v <| entry_AddressBookID := bookID |> <| entry_CreatedAt := millis (entry_CreatedAt v) |>.

Definition CreateAddressBookEntry (v : AddressBookEntry) : M unit :=
  sql_insert t_address_book_entries (entry_row (entry_AddressBookID v) v).

Definition ListAddressBookEntries (bookID : string) : M (list AddressBookEntry) :=
  query (λ d, (λ e, e <| entry_CreatedAt := fromMillis (entry_CreatedAt e) |>) <$>
    SliceStable (then_by (λ a b, entry_Favourite a && negb (entry_Favourite b))
                   (then_by (λ a b, str_lt (entry_Alias a) (entry_Alias b))
                            (λ a b, str_lt (entry_RustDeskID a) (entry_RustDeskID b))))
      (filter (λ e, entry_AddressBookID e = bookID) (t_address_book_entries d))).

Definition ReplaceAddressBookEntries (bookID : string) (values : list AddressBookEntry) : M unit :=
  tx (sql_delete t_address_book_entries (λ e, entry_AddressBookID e = bookID);;
      for_each (λ v, sql_insert t_address_book_entries (entry_row bookID v)) values).

Definition UpdateAddressBookEntry (v : AddressBookEntry) : M unit :=
  affected (sql_update t_address_book_entries
    (λ e, entry_ID e = entry_ID v ∧ entry_AddressBookID e = entry_AddressBookID v)
    (λ e, v <| entry_ID := entry_ID e |> <| entry_AddressBookID := entry_AddressBookID e |>
            <| entry_CreatedAt := entry_CreatedAt e |>)).

Definition DeleteAddressBookEntry (bookID entryID : string) : M unit :=
  affected (sql_delete t_address_book_entries
              (λ e, entry_ID e = entryID ∧ entry_AddressBookID e = bookID)).

Definition CreateAddressBookTag (v : AddressBookTag) : M unit :=
  sql_insert t_address_book_tags (v <| tag_CreatedAt := millis (tag_CreatedAt v) |>
                                    <| tag_UpdatedAt := millis (tag_UpdatedAt v) |>).

Definition ListAddressBookTags (bookID : string) : M (list AddressBookTag) :=
  query (λ d, (λ t, t <| tag_CreatedAt := fromMillis (tag_CreatedAt t) |>
                      <| tag_UpdatedAt := fromMillis (tag_UpdatedAt t) |>) <$>
    SliceStable (λ a b, str_lt (tag_Name a) (tag_Name b))
      (filter (λ t, tag_AddressBookID t = bookID) (t_address_book_tags d))).

Definition UpdateAddressBookTag (v : AddressBookTag) (oldName : string) : M unit :=
  affected (sql_update t_address_book_tags
    (λ t, tag_AddressBookID t = tag_AddressBookID v ∧ tag_Name t = oldName)
    (λ t, t <| tag_Name := tag_Name v |> <| tag_Color := tag_Color v |>
            <| tag_UpdatedAt := millis (tag_UpdatedAt v) |>)).

Definition DeleteAddressBookTag (bookID name : string) : M unit :=
  affected (sql_delete t_address_book_tags (λ t, tag_AddressBookID t = bookID ∧ tag_Name t = name)).
End Store.

(** ** Connection records (connections.go) *)

Definition scanConnection (r : ConnectionRecord) : ConnectionRecord :=
  r <| conn_StartedAt := fromMillis (conn_StartedAt r) |>
    <| conn_LastSeenAt := fromMillis (conn_LastSeenAt r) |>
    <| conn_ClosedAt := fromMillis <$> conn_ClosedAt r |>.

Definition ConnectionRecord_by (key : string) : M ConnectionRecord :=
  query_row (λ d, scanConnection <$> select_one (λ r, conn_Key r = key) (t_connection_records d)).

Definition merge_connection (x o : ConnectionRecord) : ConnectionRecord :=
  o <| conn_ActorUserID := nonempty_or (conn_ActorUserID x) (conn_ActorUserID o) |>
    <| conn_ActorSessionID := nonempty_or (conn_ActorSessionID x) (conn_ActorSessionID o) |>
    <| conn_ControllerDevice := nonempty_or (conn_ControllerDevice x) (conn_ControllerDevice o) |>
    <| conn_ControllerName := nonempty_or (conn_ControllerName x) (conn_ControllerName o) |>
    <| conn_ControllerLogin := nonempty_or (conn_ControllerLogin x) (conn_ControllerLogin o) |>
    <| conn_TargetRustDeskID := conn_TargetRustDeskID x |>
    <| conn_ConnectionType := conn_ConnectionType x |>
    <| conn_IP := nonempty_or (conn_IP x) (conn_IP o) |>
    <| conn_Transport := nonempty_or (conn_Transport x) (conn_Transport o) |>
    <| conn_RelayUUID := nonempty_or (conn_RelayUUID x) (conn_RelayUUID o) |>
    <| conn_RelayServer := nonempty_or (conn_RelayServer x) (conn_RelayServer o) |>
    <| conn_StartedAt := if conn_StartedAt x <? conn_StartedAt o then conn_StartedAt x
                         else conn_StartedAt o |>
    <| conn_LastSeenAt := if conn_LastSeenAt o <? conn_LastSeenAt x then conn_LastSeenAt x
                          else conn_LastSeenAt o |>
    <| conn_ClosedAt := match conn_ClosedAt x with Some t => Some t | None => conn_ClosedAt o end |>.

Definition connection_row (v : ConnectionRecord) : ConnectionRecord :=
  v <| conn_StartedAt := millis (conn_StartedAt v) |>
    <| conn_LastSeenAt := millis (conn_LastSeenAt v) |>
    <| conn_ClosedAt := millis <$> conn_ClosedAt v |>.

Definition UpsertConnection (value : ConnectionRecord) : M unit :=
  sql_upsert t_connection_records (λ r, conn_Key r = conn_Key value)
    (merge_connection (connection_row value)) (connection_row value).

Definition ListConnectionRecords (since : time) (limit0 : Z) : M (list ConnectionRecord) :=
  let limit := if (limit0 <? 1) || (5000 <? limit0) then 1000 else limit0 in
  query (λ d, scanConnection <$> limit_offset limit 0
    (SliceStable (λ a b, conn_LastSeenAt b <? conn_LastSeenAt a)
       (filter (λ r, millis since ≤ conn_LastSeenAt r) (t_connection_records d)))).

(** closed_at IS NOT NULL AND closed_at<? *)
Definition closed_before (before : time) (r : ConnectionRecord) : bool :=
  match conn_ClosedAt r with Some t => t <? millis before | None => false end.

Definition PruneConnectionRecords (before : time) : M unit :=
  discard (sql_delete t_connection_records (λ r, closed_before before r = true)).
