(* ===== verification/AddressBooks.v ===== *)
(** * Sharing address books (art-api/internal/addressbook/service.go)

    Who may read, write and manage an address book: its owner, administrators,
    and the users and user groups it is shared with.  [time.Now()] and
    [uuid.NewString()] are arguments. *)

From S2P Require Export StoreDevices.
From S2P Require Import Sample.

Definition PermissionRead : string := "read".
Definition PermissionWrite : string := "write".
Definition PermissionManage : string := "manage".

Definition permissionRank (value : string) : Z :=
  if bool_decide (value = PermissionRead) then 1
  else if bool_decide (value = PermissionWrite) then 2
  else if bool_decide (value = PermissionManage) then 3 else 0.

(** The administrator and the owner. *)
Definition full_access (user : User) (book : AddressBook) : bool :=
  bool_decide (user_Role user = RoleAdmin) || bool_decide (user_ID user = book_OwnerUserID book).

Definition active_groups (user : User) (memberships : list UserGroupMembership) : list string :=
  membership_GroupID <$>
    filter (λ m, Is_true (membership_Active m) ∧ membership_UserID m = user_ID user) memberships.

Definition grant_matches (user : User) (groups : list string) (grant : AddressBookGrant) : bool :=
  if bool_decide (grant_SubjectType grant = "user_group") then bool_decide (grant_SubjectID grant ∈ groups)
  else bool_decide (grant_SubjectType grant = "user") && bool_decide (grant_SubjectID grant = user_ID user).

Definition better_grant (user : User) (groups : list string) (best : string) (grant : AddressBookGrant)
    : string :=
  if grant_matches user groups grant && (permissionRank best <? permissionRank (grant_Permission grant))
  then grant_Permission grant else best.

Definition permissionFrom (user : User) (book : AddressBook) (grants : list AddressBookGrant)
    (memberships : list UserGroupMembership) : res string :=
  if full_access user book then Ok PermissionManage
  else if negb (bool_decide (book_Kind book = "shared")) then Err ErrForbidden else
  let best := foldl (better_grant user (active_groups user memberships)) "" grants in
  if bool_decide (best = "") then Err ErrForbidden else Ok best.

Definition permission (user : User) (book : AddressBook) : M string :=
  if full_access user book then ret PermissionManage
  else if negb (bool_decide (book_Kind book = "shared")) then throw ErrForbidden else
  grants ← ListAddressBookGrants (book_ID book);
  memberships ← ListUserGroupMemberships;
  lift (permissionFrom user book grants memberships).

Definition with_permission (book : AddressBook) (p : string) : AddressBook :=
  book <| book_Permission := p |> <| book_CanManage := bool_decide (p = PermissionManage) |>.

Definition Authorize (user : User) (bookID required : string) : M AddressBook :=
  book ← FindAddressBookByID bookID;
  p ← permission user book;
  if permissionRank p <? permissionRank required then throw ErrForbidden
  else ret (with_permission book p).

(** The books of the loop of [List]; an error other than [ErrForbidden] ends it. *)
Fixpoint visible_books (user : User) (books : list AddressBook) (grants : list AddressBookGrant)
    (memberships : list UserGroupMembership) : res (list AddressBook) :=
  match books with
  | [] => Ok []
  | book :: books' =>
      match permissionFrom user book (filter (λ g, grant_AddressBookID g = book_ID book) grants) memberships with
      | Err ErrForbidden => visible_books user books' grants memberships
      | Err e => Err e
      | Ok p => res_map (cons (with_permission book p)) (visible_books user books' grants memberships)
      end
  end.

Definition List (user : User) : M (list AddressBook) :=
  books ← ListAddressBooks;
  grants ← ListAllAddressBookGrants;
  memberships ← ListUserGroupMemberships;
  lift (visible_books user books grants memberships).

Definition Grants (user : User) (bookID : string) : M (list AddressBookGrant) :=
  book ← Authorize user bookID PermissionManage;
  if negb (bool_decide (book_Kind book = "shared")) then throw ErrForbidden
  else ListAddressBookGrants bookID.

(** The subject of a grant exists: a user, or a group of users. *)
Definition check_subject (grant : AddressBookGrant) : M unit :=
  if bool_decide (grant_SubjectType grant = "user") then discard (FindUserByID (grant_SubjectID grant))
  else group ← FindGroupByID (grant_SubjectID grant);
       if negb (bool_decide (group_Kind group = GroupKindUser)) then throw ErrForbidden else ret tt.

Section Service.
Context `{Unicode}.

Definition PutGrant (user : User) (grant : AddressBookGrant) (now : time) (fresh : string)
    : M AddressBookGrant :=
  book ← Authorize user (grant_AddressBookID grant) PermissionManage;
  if negb (bool_decide (book_Kind book = "shared"))
     || negb (bool_decide (grant_SubjectType grant ∈ ["user"; "user_group"]))
     || negb (bool_decide (grant_Permission grant ∈ [PermissionRead; PermissionWrite]))
  then throw ErrForbidden else
  let grant := grant <| grant_SubjectID := TrimSpace (grant_SubjectID grant) |> in
  if bool_decide (grant_SubjectID grant = "")
     || bool_decide (grant_SubjectID grant = book_OwnerUserID book)
  then throw ErrForbidden else
  check_subject grant;;
  let grant := grant <| grant_ID := fresh |> <| grant_CreatedAt := now |> <| grant_UpdatedAt := now |> in
  UpsertAddressBookGrant grant;;
  grants ← ListAddressBookGrants (grant_AddressBookID grant);
  ret (default grant (head (filter (λ g, grant_SubjectType g = grant_SubjectType grant
                                         ∧ grant_SubjectID g = grant_SubjectID grant) grants))).

Definition DeleteGrant (user : User) (bookID grantID : string) : M unit :=
  book ← Authorize user bookID PermissionManage;
  if negb (bool_decide (book_Kind book = "shared")) then throw ErrForbidden
  else DeleteAddressBookGrant bookID grantID.
End Service.

(** ** Access levels: the specification *)

Implicit Types (u : User) (b : AddressBook) (g : AddressBookGrant) (d : DB).

Definition groups_of d u : list string :=
  member_GroupID <$> filter (λ m, member_UserID m = user_ID u) (t_user_group_memberships d).

(** The grants of the table that concern a user and a book. *)
Definition concerns d u b g : Prop :=
  grant_AddressBookID g = book_ID b ∧ grant_matches u (groups_of d u) g = true.

#[export] Instance concerns_dec d u b g : Decision (concerns d u b g).
Proof. unfold concerns. apply _. Defined.

Definition best_rank (l : list AddressBookGrant) : Z :=
  foldr Z.max 0 ((λ g, permissionRank (grant_Permission g)) <$> l).

(** 0: none, 1: read, 2: write, 3: manage. *)
Definition level d u b : Z :=
  if full_access u b then 3
  else if negb (bool_decide (book_Kind b = "shared")) then 0
  else best_rank (filter (concerns d u b) (t_address_book_grants d)).

Definition level_name (n : Z) : string :=
  if n =? 1 then PermissionRead else if n =? 2 then PermissionWrite else PermissionManage.

Lemma rank_range p : 0 ≤ permissionRank p ≤ 3.
Proof. unfold permissionRank. repeat case_bool_decide; lia. Qed.

Lemma rank_name p : 0 < permissionRank p → level_name (permissionRank p) = p.
Proof. unfold permissionRank. repeat case_bool_decide; subst; (done || lia). Qed.

Lemma name_rank n : 1 ≤ n ≤ 3 → permissionRank (level_name n) = n.
Proof. intros Hn. assert (n = 1 ∨ n = 2 ∨ n = 3) as [-> | [-> | ->]] by lia; reflexivity. Qed.

Lemma best_rank_range l : 0 ≤ best_rank l ≤ 3.
Proof.
  unfold best_rank. induction l as [|g l IH]; cbn; [lia|]. pose proof (rank_range (grant_Permission g)). lia.
Qed.

Lemma level_range d u b : 0 ≤ level d u b ≤ 3.
Proof. unfold level. repeat case_match; try lia; apply best_rank_range. Qed.

#[export] Instance best_rank_Permutation : Proper ((≡ₚ) ==> (=)) best_rank.
Proof. intros l l' Hl. unfold best_rank. induction Hl; cbn in *; lia. Qed.

Lemma best_grant_rank u groups l best :
  permissionRank (foldl (better_grant u groups) best l)
  = Z.max (permissionRank best) (best_rank (filter (λ g, grant_matches u groups g = true) l)).
Proof.
  revert best. induction l as [|g l IH]; intros best.
  { pose proof (rank_range best). unfold best_rank. cbn. lia. }
  cbn [foldl]. rewrite IH, filter_cons. unfold better_grant, best_rank.
  destruct (grant_matches u groups g) eqn:Hm; [|by rewrite decide_False].
  rewrite decide_True by done. cbn.
  destruct (Z.ltb_spec (permissionRank best) (permissionRank (grant_Permission g))); lia.
Qed.

(** The loop keeps the empty string or a permission of positive rank. *)
Lemma best_grant_named u groups l best :
  best = "" ∨ 0 < permissionRank best →
  let best' := foldl (better_grant u groups) best l in best' = "" ∨ 0 < permissionRank best'.
Proof.
  revert best. induction l as [|g l IH]; intros best Hb; [done|]. cbn. apply IH. unfold better_grant.
  destruct (_ && _) eqn:Hc; [|done]. simplify_bool. right. pose proof (rank_range best). lia.
Qed.

(** The answer of the service to a user, by level. *)
Definition permission_of d u b : res string :=
  if level d u b =? 0 then Err ErrForbidden else Ok (level_name (level d u b)).

Lemma grant_matches_ext u groups groups' g :
  (∀ x, x ∈ groups ↔ x ∈ groups') → grant_matches u groups g = grant_matches u groups' g.
Proof. intros Hg. unfold grant_matches. by rewrite (bool_decide_ext _ _ (Hg _)). Qed.

(** [permissionFrom] computes the level, from any listing of the grants of the
    book and of the memberships. *)
Lemma permissionFrom_level d u b grants memberships :
  filter (λ g, grant_AddressBookID g = book_ID b) (t_address_book_grants d) ≡ₚ grants →
  (∀ x, x ∈ active_groups u memberships ↔ x ∈ groups_of d u) →
  permissionFrom u b (scanAddressBookGrants <$> grants) memberships = permission_of d u b.
Proof.
  intros Hgrants Hgroups. unfold permissionFrom, permission_of, level.
  destruct (full_access u b); [done|]. destruct (negb _); [done|].
  set (best := foldl _ _ _).
  assert (Hrank : permissionRank best = best_rank (filter (concerns d u b) (t_address_book_grants d))).
  { unfold best. rewrite best_grant_rank. change (permissionRank "") with 0.
    rewrite Z.max_r by apply best_rank_range.
    assert (∀ l, best_rank (filter (λ g, grant_matches u (active_groups u memberships) g = true) (scanAddressBookGrants <$> l))
                 = best_rank (filter (λ g, grant_matches u (groups_of d u) g = true) l)) as ->.
    { induction l as [|g l IHl]; [done|]. rewrite fmap_cons, !filter_cons.
      change (grant_matches u (active_groups u memberships) (scanAddressBookGrants g))
        with (grant_matches u (active_groups u memberships) g).
      rewrite (grant_matches_ext u _ (groups_of d u)) by done. destruct (decide _); [|done].
      unfold best_rank in *. cbn. by rewrite IHl. }
    rewrite <-Hgrants, list_filter_filter. f_equal. apply list_filter_iff. unfold concerns. tauto. }
  destruct (best_grant_named u (active_groups u memberships) (scanAddressBookGrants <$> grants) "")
    as [Hb|Hb]; [by left|fold best in Hb..].
  - rewrite <-Hrank, Hb. done.
  - rewrite <-Hrank. case_bool_decide as He; [by rewrite He in Hb|].
    destruct (Z.eqb_spec (permissionRank best) 0); [lia|]. by rewrite rank_name.
Qed.

Lemma active_groups_of d u :
  ∀ x, x ∈ active_groups u ((λ m, mkUserGroupMembership (member_GroupID m) (member_UserID m) true) <$>
         SliceStable (then_by (λ m m', str_lt (member_GroupID m) (member_GroupID m'))
                              (λ m m', str_lt (member_UserID m) (member_UserID m')))
                     (t_user_group_memberships d)) ↔ x ∈ groups_of d u.
Proof.
  intros x. unfold active_groups, groups_of. rewrite !list_elem_of_fmap. split.
  - intros (m & -> & [[_ Hu] (m' & -> & Hm')%list_elem_of_fmap]%list_elem_of_filter).
    exists m'. split; [done|]. apply list_elem_of_filter. split; [done|]. by apply elem_of_SliceStable in Hm'.
  - intros (m & -> & [Hu Hm]%list_elem_of_filter).
    exists (mkUserGroupMembership (member_GroupID m) (member_UserID m) true). split; [done|].
    apply list_elem_of_filter. split; [done|].
    apply (list_elem_of_fmap_2 (λ m, mkUserGroupMembership (member_GroupID m) (member_UserID m) true)).
    by apply elem_of_SliceStable.
Qed.

(** ** What the service decides *)

Lemma permission_spec {F} u b d h :
  wp F (permission u b)
    (λ r d' h', d' = d ∧ h' = h ∧ (r = permission_of d u b ∨ (F = true ∧ r = Err ErrDriver))) d h.
Proof.
  unfold permission. destruct (full_access u b) eqn:Hf.
  { wp_go. unfold permission_of, level. rewrite Hf. auto. }
  destruct (negb (bool_decide (book_Kind b = "shared"))) eqn:Hk.
  { wp_go. unfold permission_of, level. rewrite Hf, Hk. auto. }
  unfold ListAddressBookGrants, ListUserGroupMemberships. wp_go; auto.
  split_and!; [done|done|left]. apply permissionFrom_level; [|apply active_groups_of].
  by rewrite SliceStable_perm.
Qed.

Lemma Authorize_spec {F} u bookID required d h :
  wp F (Authorize u bookID required) (λ r d' h', d' = d ∧ h' = h
    ∧ ((F = true ∧ r = Err ErrDriver)
       ∨ match select_one (λ b, book_ID b = bookID) (t_address_books d) with
         | None => r = Err ErrNotFound
         | Some b =>
             let n := level d u b in
             r = if (n =? 0) || (n <? permissionRank required) then Err ErrForbidden
                 else Ok (with_permission (scanBook b) (level_name n))
         end)) d h.
Proof.
  unfold Authorize, FindAddressBookByID. wp_go; [by auto| |].
  2: { destruct (select_one _ _); [done|by auto]. }
  destruct (select_one _ _) as [b|] eqn:Hb; [|done]. cbn in Heqo. injection Heqo as <-.
  eapply wp_mono; [apply permission_spec|]. intros r d' h' (-> & -> & [->|[-> ->]]); [|by auto].
  unfold permission_of. change (level d u (scanBook b)) with (level d u b).
  destruct (Z.eqb_spec (level d u b) 0) as [He|He]; [by auto|].
  pose proof (level_range d u b). rewrite name_rank by lia.
  destruct (_ <? _); wp_go; auto.
Qed.

(** who may use an address book: whatever statements fail, Authorize
    changes nothing, and unless the database fails it answers with the book
    and the user's level of access exactly when that level is not below the one
    required; the level is manage for the owner and administrators, none for
    others on a personal book, and otherwise the best grant to the user or one
    of the user's groups. *)
Theorem Authorize_decides u bookID required w :
  let '(r, w') := Authorize u bookID required w in
  w_db w' = w_db w
  ∧ (r = Err ErrDriver
     ∨ match select_one (λ b, book_ID b = bookID) (t_address_books (w_db w)) with
       | None => r = Err ErrNotFound
       | Some b =>
           let n := level (w_db w) u b in
           r = if (n =? 0) || (n <? permissionRank required) then Err ErrForbidden
               else Ok (with_permission (scanBook b) (level_name n))
       end).
Proof.
  pose proof (wp_run (F:=true) _ _ w I (Authorize_spec u bookID required _ (w_hub w))) as Hs.
  destruct (Authorize u bookID required w) as [r w']. cbn in Hs. naive_solver.
Qed.

Lemma visible_books_eq u books grants memberships :
  visible_books u books grants memberships
  = Ok (omap (λ b, match permissionFrom u b (filter (λ g, grant_AddressBookID g = book_ID b) grants) memberships with
                   | Ok p => Some (with_permission b p) | Err _ => None end) books).
Proof.
  induction books as [|b books IH]; [done|]. cbn.
  destruct (permissionFrom _ _ _ _) as [p|e] eqn:Hp; [by rewrite IH|].
  unfold permissionFrom in Hp. cbv zeta in Hp. repeat case_match; simplify_eq; done.
Qed.

Lemma List_spec {F} u d h :
  wp F (List u) (λ r d' h', d' = d ∧ h' = h ∧ ((F = true ∧ r = Err ErrDriver)
    ∨ r = Ok (omap (λ b, match permission_of d u b with Ok p => Some (with_permission b p) | Err _ => None end)
                (scanBook <$> SliceStable (λ b b', str_lt (book_Name b) (book_Name b')) (t_address_books d))))) d h.
Proof.
  unfold List, ListAddressBooks, ListAllAddressBookGrants, ListUserGroupMemberships. wp_go; auto.
  rewrite visible_books_eq. cbn [lift]. wp_go. split_and!; [done|done|right]. f_equal.
  apply list_omap_ext, Forall_Forall2_diag, Forall_forall. intros b _.
  assert (Hp : ∀ l : list AddressBookGrant, filter (λ g, grant_AddressBookID g = book_ID b) (scanAddressBookGrants <$> l)
                    = scanAddressBookGrants <$> filter (λ g, grant_AddressBookID g = book_ID b) l).
  { induction l as [|g l IHl]; [done|]. rewrite fmap_cons, !filter_cons, IHl.
    change (grant_AddressBookID (scanAddressBookGrants g)) with (grant_AddressBookID g). by case_decide. }
  rewrite Hp, permissionFrom_level with (d:=d); [done| |apply active_groups_of].
  by rewrite SliceStable_perm.
Qed.

(** C31: the listing and the access check agree: while no database statement
    fails and the identifiers of books are unique, [List] changes no
    table and shows a user exactly the books that [Authorize] lets the user
    read, each with the level that [Authorize] finds. *)
Theorem List_agrees_with_Authorize u w :
  w_faults w = [] → address_books_ok (w_db w) →
  ∃ books w', List u w = (Ok books, w') ∧ w_db w' = w_db w
    ∧ ∀ b, b ∈ books ↔ (Authorize u (book_ID b) PermissionRead w).1 = Ok b.
Proof.
  intros Hf Hok. pose proof (wp_run (F:=false) _ _ w Hf (List_spec u _ (w_hub w))) as Hl.
  destruct (List u w) as [r w'] eqn:Hrun. cbn in Hl. destruct Hl as (Hd & _ & [[? _]|Hr]); [done|].
  subst r. eexists _, w'. split_and!; [done|done|]. intros b.
  pose proof (wp_run (F:=false) _ _ w Hf (Authorize_spec u (book_ID b) PermissionRead _ (w_hub w))) as Ha.
  cbn in Ha. destruct Ha as (_ & _ & [[? _]|Ha]); [done|].
  change (permissionRank PermissionRead) with 1 in Ha.
  rewrite list_elem_of_omap. split.
  - intros (b' & (b0 & -> & Hb0%elem_of_SliceStable)%list_elem_of_fmap & Hb).
    change (permission_of (w_db w) u (scanBook b0)) with (permission_of (w_db w) u b0) in Hb.
    unfold permission_of in Hb. destruct (Z.eqb_spec (level (w_db w) u b0) 0) as [|Hn]; [done|].
    injection Hb as <-. change (book_ID (with_permission (scanBook b0) _)) with (book_ID b0) in Ha.
    change (book_ID (with_permission (scanBook b0) _)) with (book_ID b0).
    rewrite (select_one_unique book_ID) in Ha by done. rewrite Ha.
    pose proof (level_range (w_db w) u b0).
    destruct (Z.eqb_spec (level (w_db w) u b0) 0), (Z.ltb_spec (level (w_db w) u b0) 1); (done || lia).
  - intros Heq. rewrite Heq in Ha. destruct (select_one _ _) as [b0|] eqn:Hb0; [|done].
    apply select_one_Some in Hb0 as [Hb0 Hid].
    destruct (_ || _) eqn:Hg in Ha; [done|]. injection Ha as Hb. simplify_bool.
    exists (scanBook b0). split; [by apply list_elem_of_fmap_2, elem_of_SliceStable|].
    change (permission_of (w_db w) u (scanBook b0)) with (permission_of (w_db w) u b0).
    unfold permission_of. destruct (Z.eqb_spec (level (w_db w) u b0) 0); [done|]. by rewrite Hb.
Qed.

(** ** Histories of sharing *)

Section History.
Context `{Unicode}.

Inductive book_op :=
| OpPutGrant (u : User) (grant : AddressBookGrant) (now : time) (fresh : string)
| OpDeleteGrant (u : User) (bookID grantID : string).

Definition run_book_op (op : book_op) : M unit :=
  match op with
  | OpPutGrant u grant now fresh => discard (PutGrant u grant now fresh)
  | OpDeleteGrant u bookID grantID => DeleteGrant u bookID grantID
  end.
Definition run_book_ops (ops : list book_op) (w : world) : world :=
  foldl (λ w op, (run_book_op op w).2) w ops.

(** Who asks for the change, of which book. *)
Definition op_user (op : book_op) : User :=
  match op with OpPutGrant u _ _ _ => u | OpDeleteGrant u _ _ => u end.
Definition op_book (op : book_op) : string :=
  match op with OpPutGrant _ g _ _ => grant_AddressBookID g | OpDeleteGrant _ id _ => id end.

Definition limited_grant g : Prop := grant_Permission g ∈ [PermissionRead; PermissionWrite].
Definition grants_limited d : Prop := Forall limited_grant (t_address_book_grants d).
Definition grants_of (id : string) (t : list AddressBookGrant) : list AddressBookGrant :=
  filter (λ g, grant_AddressBookID g = id) t.

Lemma limited_level d u b : grants_limited d → level d u b = 3 → full_access u b = true.
Proof.
  intros Hl. unfold level. destruct (full_access u b); [done|]. destruct (negb _); [done|]. intros Hr. exfalso.
  unfold grants_limited in Hl. cut (best_rank (filter (concerns d u b) (t_address_book_grants d)) ≤ 2); [lia|].
  clear Hr. generalize (concerns_dec d u b). generalize (concerns d u b). intros P HP.
  induction Hl as [|g l Hg _ IH]; [done|]. rewrite filter_cons. destruct (decide (P g)); [|done].
  unfold best_rank in *. cbn. unfold limited_grant in Hg.
  assert (permissionRank (grant_Permission g) ≤ 2); [|lia].
  unfold permissionRank. repeat case_bool_decide; try lia. set_solver.
Qed.

(** Writing the rows of one book leaves the grants of the others. *)
Lemma grants_of_update id (P : AddressBookGrant → Prop) `{∀ g, Decision (P g)} f t :
  (∀ g, P g → grant_AddressBookID g ≠ id ∧ grant_AddressBookID (f g) ≠ id) →
  grants_of id (update_where P f t) = grants_of id t.
Proof.
  intros Hf. unfold grants_of, update_where. induction t as [|g t IH]; [done|].
  rewrite fmap_cons, !filter_cons, IH. destruct (decide (P g)) as [HP|]; [|done].
  destruct (Hf g HP). by rewrite !decide_False.
Qed.

Lemma grants_of_delete id (P : AddressBookGrant → Prop) `{∀ g, Decision (P g)} t :
  (∀ g, P g → grant_AddressBookID g ≠ id) → grants_of id (delete_where P t) = grants_of id t.
Proof.
  intros HP. unfold grants_of, delete_where. rewrite list_filter_filter.
  apply list_filter_iff. naive_solver.
Qed.

(** One change: tables other than the grants stay, grants stay limited, and the
    grants of a book only change for one who manages it. *)
Definition sharing_step (op : book_op) d d' : Prop :=
  ∃ t, d' = write t_address_book_grants t d ∧ Forall limited_grant t
    ∧ ∀ b, b ∈ t_address_books d → (op_book op = book_ID b → full_access (op_user op) b = false) →
        grants_of (book_ID b) t = grants_of (book_ID b) (t_address_book_grants d).

Lemma sharing_step_refl op d : grants_limited d → sharing_step op d d.
Proof. intros Hl. exists (t_address_book_grants d). split_and!; [by destruct d|done|done]. Qed.

(** What [Authorize] for managing tells about the book it found. *)
Lemma authorized_manager d u b0 b :
  grants_limited d → address_books_ok d → b0 ∈ t_address_books d → b ∈ t_address_books d →
  book_ID b0 = book_ID b → full_access u b = false → level d u b0 < permissionRank PermissionManage.
Proof.
  intros Hl Hok Hb0 Hb Hid Hf. assert (b0 = b) as -> by (by eapply (unique_row book_ID)).
  change (permissionRank PermissionManage) with 3. pose proof (level_range d u b).
  destruct (decide (level d u b = 3)) as [He|]; [|lia]. by rewrite (limited_level d u b) in Hf.
Qed.

Lemma wp_Authorize_manage {F A} u id (k : AddressBook → M A) Q d h :
  (∀ e, Q (Err e) d h) →
  (∀ b0, b0 ∈ t_address_books d → book_ID b0 = id → level d u b0 = 3 →
     wp F (k (with_permission (scanBook b0) (level_name (level d u b0)))) Q d h) →
  wp F (book ← Authorize u id PermissionManage; k book) Q d h.
Proof.
  intros He Hk. apply wp_bind. eapply wp_mono; [apply Authorize_spec|].
  intros r d' h' (-> & -> & [[_ ->]|Hr]); [done|].
  destruct (select_one _ _) as [b0|] eqn:Hb; [|by subst]. apply select_one_Some in Hb as [Hb Hid].
  cbv zeta in Hr. destruct (_ || _) eqn:Hg in Hr; subst r; [done|]. simplify_bool. apply Hk; try done.
  pose proof (level_range d u b0). change (permissionRank PermissionManage) with 3 in *. lia.
Qed.

Lemma check_subject_reads grant d h :
  wp true (check_subject grant) (λ _ d' h', d' = d ∧ h' = h) d h.
Proof. unfold check_subject, FindUserByID, FindGroupByID, discard. wp_go; auto. Qed.

Lemma upsert_step op grant row (merge : AddressBookGrant → AddressBookGrant) d b0 :
  grants_limited d → address_books_ok d → b0 ∈ t_address_books d →
  level d (op_user op) b0 = 3 →
  op_book op = book_ID b0 → grant_AddressBookID grant = book_ID b0 →
  grant_AddressBookID row = book_ID b0 → limited_grant row →
  (∀ g, grant_key g = grant_key grant → grant_AddressBookID (merge g) = book_ID b0 ∧ limited_grant (merge g)) →
  sharing_step op d (write t_address_book_grants
    (if decide (Exists (λ g, grant_key g = grant_key grant) (t_address_book_grants d))
     then update_where (λ g, grant_key g = grant_key grant) merge (t_address_book_grants d)
     else t_address_book_grants d ++ [row]) d).
Proof.
  intros Hl Hok Hb0 Hlev Hop Hbook Hrow Hlim Hmerge. eexists. split_and!; [done| |].
  - unfold grants_limited in Hl. case_decide; [|by apply Forall_app; split; [|constructor]].
    apply Forall_forall. intros g' (g & Hg & ->)%elem_of_update_where. rewrite Forall_forall in Hl.
    case_decide; [by apply Hmerge|by apply Hl].
  - intros b Hb Hfull. assert (Hne : book_ID b0 ≠ book_ID b).
    { intros Heq. cut (level d (op_user op) b0 < 3); [lia|]. apply (authorized_manager d _ b0 b); try done. apply Hfull. congruence. }
    case_decide.
    + apply grants_of_update. intros g Hk. destruct (Hmerge g Hk) as [-> _]. split; [|done].
      injection Hk as -> _ _. by rewrite Hbook.
    + unfold grants_of. rewrite filter_app, (filter_cons_False _ row), app_nil_r by (by rewrite Hrow). done.
Qed.

Lemma PutGrant_step u grant now fresh d h :
  grants_limited d → address_books_ok d →
  wp true (PutGrant u grant now fresh) (λ _ d' _, sharing_step (OpPutGrant u grant now fresh) d d') d h.
Proof.
  intros Hl Hok. unfold PutGrant. apply wp_Authorize_manage; [intros; by apply sharing_step_refl|].
  intros b0 Hb0 Hid Hlev. destruct (_ || _) eqn:Hg; [wp_go; by apply sharing_step_refl|].
  destruct (bool_decide _ || _) eqn:Hg2; [wp_go; by apply sharing_step_refl|]. simplify_bool.
  apply wp_bind. eapply wp_mono; [apply check_subject_reads|].
  intros [[]|e] d' h' [-> ->]; [|by apply sharing_step_refl].
  unfold UpsertAddressBookGrant, ListAddressBookGrants. wp_go; try by apply sharing_step_refl.
  all: subst; eapply (upsert_step (OpPutGrant u grant now fresh)); try done.
  all: intros g [= Hk _ _]; cbn; split; [congruence|done].
Qed.

Lemma DeleteGrant_step u bookID grantID d h :
  grants_limited d → address_books_ok d →
  wp true (DeleteGrant u bookID grantID) (λ _ d' _, sharing_step (OpDeleteGrant u bookID grantID) d d') d h.
Proof.
  intros Hl Hok. unfold DeleteGrant. apply wp_Authorize_manage; [intros; by apply sharing_step_refl|].
  intros b0 Hb0 Hid Hlev. destruct (negb _); [wp_go; by apply sharing_step_refl|].
  unfold DeleteAddressBookGrant, affected. wp_go; try by apply sharing_step_refl.
  all: subst; eexists; split_and!; [done| |].
  1, 3: apply Forall_forall; intros g [Hg _]%elem_of_delete_where; unfold grants_limited in Hl;
    rewrite Forall_forall in Hl; by apply Hl.
  all: intros b Hb Hfull; apply grants_of_delete; intros g [_ Hgb] Heq;
    cut (level d u b0 < 3); [lia|]; apply (authorized_manager d u b0 b); try done; try congruence; apply Hfull; cbn; congruence.
Qed.

(** C37: sharing cannot be escalated: grants never give more than read and write,
    in every history of sharing operations by any users, so that only its owner
    and administrators ever manage a book; and the grants of a book stay what
    they are unless its owner or an administrator changes them. *)
Theorem sharing_controlled ops w :
  grants_limited (w_db w) → address_books_ok (w_db w) →
  let d' := w_db (run_book_ops ops w) in
  grants_limited d' ∧ t_address_books d' = t_address_books (w_db w)
  ∧ (∀ u id b w', w_db w' = d' → (Authorize u id PermissionManage w').1 = Ok b → full_access u b = true)
  ∧ ∀ b, b ∈ t_address_books (w_db w) →
      Forall (λ op, op_book op = book_ID b → full_access (op_user op) b = false) ops →
      grants_of (book_ID b) (t_address_book_grants d')
      = grants_of (book_ID b) (t_address_book_grants (w_db w)).
Proof.
  intros Hl Hok.
  assert (Hrun : grants_limited (w_db (run_book_ops ops w))
    ∧ t_address_books (w_db (run_book_ops ops w)) = t_address_books (w_db w)
    ∧ ∀ b, b ∈ t_address_books (w_db w) →
      Forall (λ op, op_book op = book_ID b → full_access (op_user op) b = false) ops →
      grants_of (book_ID b) (t_address_book_grants (w_db (run_book_ops ops w)))
      = grants_of (book_ID b) (t_address_book_grants (w_db w))).
  { revert w Hl Hok. induction ops as [|op ops IH]; intros w Hl Hok; [by split_and!|].
    assert (Hstep : sharing_step op (w_db w) (w_db (run_book_op op w).2)).
    { destruct op as [u grant now fresh|u id gid]; cbn [run_book_op].
      - pose proof (wp_run (F:=true) _ _ w I (PutGrant_step u grant now fresh _ (w_hub w) Hl Hok)) as Hs.
        unfold discard, mbind, M_bind, bind. by destruct (PutGrant u grant now fresh w) as [[g|e] w'].
      - exact (wp_run (F:=true) _ _ w I (DeleteGrant_step u id gid _ (w_hub w) Hl Hok)). }
    destruct Hstep as (t & Hd & Ht & Hsame). cbn [run_book_ops foldl].
    destruct (IH (run_book_op op w).2) as (Hl' & Hb' & Hg'); [by rewrite Hd|by rewrite Hd|].
    rewrite Hd in Hb', Hg'. cbn in Hb', Hg'. split_and!; [done|done|].
    intros b Hb [Hop Hops]%Forall_cons. fold (run_book_ops ops (run_book_op op w).2). rewrite (Hg' b Hb Hops). by apply Hsame. }
  destruct Hrun as (Hl' & Hb' & Hg'). split_and!; [done|done| |done].
  intros u id b w' Hw' Ha.
  pose proof (wp_run (F:=true) _ _ w' I (Authorize_spec u id PermissionManage _ (w_hub w'))) as Hs.
  rewrite Ha in Hs. cbn in Hs. destruct Hs as (_ & _ & [[_ ?]|Hs]); [done|].
  destruct (select_one _ _) as [b0|]; [|done]. destruct (_ || _) eqn:Hg in Hs; [done|]. injection Hs as ->.
  simplify_bool. change (full_access u (with_permission (scanBook b0) _)) with (full_access u b0).
  apply (limited_level (w_db w')); [by rewrite Hw'|].
  match goal with H : _ ≤ _ |- _ => change (permissionRank PermissionManage) with 3 in H end.
  pose proof (level_range (w_db w') u b0). lia.
Qed.
End History.

(** ** The theorems at a concrete installation *)

Definition ex_alice : User := ex_user "u1" "alice" RoleUser.
Definition ex_bob : User := ex_user "u2" "bob" RoleUser.
(** Alice shares "team" with the group both belong to, for reading, and keeps "mine". *)
Definition ex_books : DB :=
  ex_accounts
    <| t_address_books := [mkAddressBook "b1" "mine" "personal" "u1" "" false 0 0;
                           mkAddressBook "b2" "team" "shared" "u1" "" false 0 0] |>
    <| t_address_book_grants := [mkAddressBookGrant "x1" "b2" "user_group" "g1" PermissionRead 0 0] |>.
Definition ex_books_world : world := mkWorld ex_books [] (NewHub "src").

Lemma ex_books_ok : address_books_ok ex_books.
Proof. apply (bool_decide_eq_true_1 (address_books_ok ex_books)). vm_compute. reflexivity. Qed.

Lemma ex_grants_limited : grants_limited ex_books.
Proof. unfold grants_limited. cbn. repeat constructor. Qed.

(** Bob, a member of the group the shared book is granted to, sees that book, to
    read it, and not Ann's own book, which he may not read. *)
Lemma List_agrees_with_Authorize_witness :
  ∃ books w', List ex_bob ex_books_world = (Ok books, w')
    ∧ with_permission (mkAddressBook "b2" "team" "shared" "u1" "" false 0 0) PermissionRead ∈ books
    ∧ ∀ b, b ∈ books → book_ID b ≠ "b1".
Proof.
  destruct (List_agrees_with_Authorize ex_bob ex_books_world) as (books & w' & Hl & _ & Hb);
    [reflexivity|exact ex_books_ok|].
  exists books, w'. split; [exact Hl|]. split.
  - apply (proj2 (Hb _)). vm_compute. reflexivity.
  - intros b Hin Hid. apply (proj1 (Hb _)) in Hin. rewrite Hid in Hin. vm_compute in Hin. discriminate Hin.
Defined.

(** Bob tries to make himself a manager, then to remove the grant. *)
Lemma sharing_controlled_witness :
  let ops := [OpPutGrant ex_bob (mkAddressBookGrant "" "b2" "user" "u2" PermissionManage 0 0) 5 "x2";
              OpDeleteGrant ex_bob "b2" "x1"] in
  let d' := w_db (@run_book_ops ascii_unicode ops ex_books_world) in
  grants_limited d' ∧ grants_of "b2" (t_address_book_grants d') = t_address_book_grants ex_books.
Proof.
  intros ops d'.
  destruct (@sharing_controlled ascii_unicode ops ex_books_world) as (Hl & _ & _ & Hg).
  - exact ex_grants_limited.
  - exact ex_books_ok.
  - split; [exact Hl|].
    apply (Hg (mkAddressBook "b2" "team" "shared" "u1" "" false 0 0)); [right; left|].
    repeat constructor.
Defined.
