(* ===== verification/StoreMisc.v ===== *)
(** * The remaining tables: [sqlstore.Store]
    (art-api/internal/store/sqlstore/store.go, automation.go, cluster.go)

    Settings, preferences, webhooks, notifications, client profiles and builds,
    ACL rules, strategies, automation rules, cluster nodes and leases. *)

From S2P Require Export StoreUsers.

(** [limit < 1 || limit > 500] falls back to 100. *)
Definition limit_500 (limit : Z) : Z := if (limit <? 1) || (500 <? limit) then 100 else limit.

(** ** Runtime settings and user preferences *)

(** ORDER BY key makes no difference to the map. *)
Definition ListRuntimeSettings : M (gmap string string) :=
  query (λ d, list_to_map ((λ s, (setting_Key s, setting_Value s)) <$> t_runtime_settings d)).

(** The loop ranges over a Go map: [values] is the order it happens to visit. *)
Definition UpsertRuntimeSettings (values : list (string * string)) (now : time) : M unit :=
  tx (for_each (λ kv : string * string,
        let row := mkRuntimeSetting kv.1 kv.2 (millis now) in
        sql_upsert t_runtime_settings (λ s, setting_Key s = kv.1) (λ _, row) row) values).

Definition GetUserPreference (userID key : string) : M string :=
  query_row (λ d, pref_Value <$> select_one (λ p, pref_UserID p = userID ∧ pref_Key p = key)
                                   (t_user_preferences d)).

Definition UpsertUserPreference (userID key value : string) (now : time) : M unit :=
  let row := mkUserPreference userID key value (millis now) in
  sql_upsert t_user_preferences (λ p, pref_UserID p = userID ∧ pref_Key p = key) (λ _, row) row.

(** ** Webhooks *)

Definition scanWebhook (w : Webhook) : Webhook :=
  w <| webhook_CreatedAt := fromMillis (webhook_CreatedAt w) |>
    <| webhook_UpdatedAt := fromMillis (webhook_UpdatedAt w) |>.

Definition CreateWebhook (v : Webhook) : M unit :=
  sql_insert t_webhooks (v <| webhook_CreatedAt := millis (webhook_CreatedAt v) |>
                           <| webhook_UpdatedAt := millis (webhook_UpdatedAt v) |>).

Definition ListWebhooks : M (list Webhook) :=
  query (λ d, scanWebhook <$> SliceStable (λ a b, str_lt (webhook_Name a) (webhook_Name b)) (t_webhooks d)).

Definition FindWebhookByID (id : string) : M Webhook :=
  query_row (λ d, scanWebhook <$> select_one (λ w, webhook_ID w = id) (t_webhooks d)).

Definition UpdateWebhook (v : Webhook) : M unit :=
  affected (sql_update t_webhooks (λ w, webhook_ID w = webhook_ID v)
    (λ w, w <| webhook_Name := webhook_Name v |> <| webhook_URL := webhook_URL v |>
            <| webhook_Events := webhook_Events v |> <| webhook_Enabled := webhook_Enabled v |>
            <| webhook_UpdatedAt := millis (webhook_UpdatedAt v) |>)).

Definition DeleteWebhook (id : string) : M unit :=
  affected (sql_delete t_webhooks (λ w, webhook_ID w = id)).

Definition scanWebhookDelivery (v : WebhookDelivery) : WebhookDelivery :=
  v <| delivery_NextAttempt := fromMillis (delivery_NextAttempt v) |>
    <| delivery_CreatedAt := fromMillis (delivery_CreatedAt v) |>
    <| delivery_DeliveredAt := fromMillis <$> delivery_DeliveredAt v |>.

Definition CreateWebhookDelivery (v : WebhookDelivery) : M unit :=
  sql_insert t_webhook_deliveries
    (v <| delivery_NextAttempt := millis (delivery_NextAttempt v) |>
       <| delivery_CreatedAt := millis (delivery_CreatedAt v) |>
       <| delivery_DeliveredAt := millis <$> delivery_DeliveredAt v |>).

Definition ListWebhookDeliveries (webhookID : string) (limit : Z) : M (list WebhookDelivery) :=
  query (λ d, scanWebhookDelivery <$> limit_offset (limit_500 limit) 0
    (SliceStable (λ a b, delivery_CreatedAt b <? delivery_CreatedAt a)
       (filter (λ v, delivery_WebhookID v = webhookID) (t_webhook_deliveries d)))).

Definition ListDueWebhookDeliveries (now : time) (limit : Z) : M (list WebhookDelivery) :=
  query (λ d, scanWebhookDelivery <$> limit_offset limit 0
    (SliceStable (λ a b, delivery_NextAttempt a <? delivery_NextAttempt b)
       (filter (λ v, delivery_Status v = "pending" ∧ delivery_NextAttempt v ≤ millis now)
          (t_webhook_deliveries d)))).

Definition UpdateWebhookDelivery (v : WebhookDelivery) : M unit :=
  affected (sql_update t_webhook_deliveries (λ r, delivery_ID r = delivery_ID v)
    (λ r, r <| delivery_Status := delivery_Status v |> <| delivery_Attempts := delivery_Attempts v |>
            <| delivery_ResponseCode := delivery_ResponseCode v |>
            <| delivery_LastError := delivery_LastError v |>
            <| delivery_NextAttempt := millis (delivery_NextAttempt v) |>
            <| delivery_DeliveredAt := millis <$> delivery_DeliveredAt v |>)).

(** ** Notifications *)

Definition scanNotification (n : Notification) : Notification :=
  n <| notification_CreatedAt := fromMillis (notification_CreatedAt n) |>
    <| notification_ReadAt := fromMillis <$> notification_ReadAt n |>.

Definition CreateNotification (v : Notification) : M unit :=
  sql_insert t_notifications (v <| notification_CreatedAt := millis (notification_CreatedAt v) |>
                                <| notification_ReadAt := millis <$> notification_ReadAt v |>).

Definition ListNotifications (limit : Z) (unreadOnly : bool) : M (list Notification) :=
  query (λ d, scanNotification <$> limit_offset (limit_500 limit) 0
    (SliceStable (λ a b, notification_CreatedAt b <? notification_CreatedAt a)
       (if unreadOnly then filter (λ n, notification_ReadAt n = None) (t_notifications d)
        else t_notifications d))).

(** Already read is no error; an unknown identifier is. *)
Definition MarkNotificationRead (id : string) (at_ : time) : M unit :=
  count ← sql_update t_notifications (λ n, notification_ID n = id ∧ notification_ReadAt n = None)
            (λ n, n <| notification_ReadAt := Some (millis at_) |>);
  if bool_decide (count = 0)
  then query_row (λ d, select_one (λ n, notification_ID n = id) (t_notifications d));; ret tt
  else ret tt.

Definition MarkAllNotificationsRead (at_ : time) : M unit :=
  discard (sql_update t_notifications (λ n, notification_ReadAt n = None)
             (λ n, n <| notification_ReadAt := Some (millis at_) |>)).

(** ** Client profiles *)

Definition scanClientProfile (p : ClientProfile) : ClientProfile :=
  p <| profile_CreatedAt := fromMillis (profile_CreatedAt p) |>
    <| profile_UpdatedAt := fromMillis (profile_UpdatedAt p) |>.

Definition CreateClientProfile (v : ClientProfile) : M unit :=
  sql_insert t_client_profiles (v <| profile_CreatedAt := millis (profile_CreatedAt v) |>
                                  <| profile_UpdatedAt := millis (profile_UpdatedAt v) |>).

Definition ListClientProfiles : M (list ClientProfile) :=
  query (λ d, scanClientProfile <$>
    SliceStable (λ a b, str_lt (profile_Name a) (profile_Name b)) (t_client_profiles d)).

Definition FindClientProfileByID (id : string) : M ClientProfile :=
  query_row (λ d, scanClientProfile <$> select_one (λ p, profile_ID p = id) (t_client_profiles d)).

Definition UpdateClientProfile (v : ClientProfile) : M unit :=
  affected (sql_update t_client_profiles (λ p, profile_ID p = profile_ID v)
    (λ p, v <| profile_ID := profile_ID p |> <| profile_CreatedAt := profile_CreatedAt p |>
            <| profile_UpdatedAt := millis (profile_UpdatedAt v) |>)).

Definition DeleteClientProfile (id : string) : M unit :=
  tx (sql_delete t_client_profile_assignments (λ a, assignment_ProfileID a = id);;
      affected (sql_delete t_client_profiles (λ p, profile_ID p = id))).

Definition CreateClientProfileAssignment (v : ClientProfileAssignment) : M unit :=
  sql_insert t_client_profile_assignments
    (v <| assignment_CreatedAt := millis (assignment_CreatedAt v) |>).

Definition ListClientProfileAssignments : M (list ClientProfileAssignment) :=
  query (λ d, (λ a, a <| assignment_CreatedAt := fromMillis (assignment_CreatedAt a) |>) <$>
    SliceStable (then_by (λ a b, assignment_Priority a <? assignment_Priority b)
                         (λ a b, str_lt (assignment_ID a) (assignment_ID b)))
      (t_client_profile_assignments d)).

Definition DeleteClientProfileAssignment (id : string) : M unit :=
  affected (sql_delete t_client_profile_assignments (λ a, assignment_ID a = id)).

(** ** Client builds and their workers *)

Definition scanClientBuild (b : ClientBuild) : ClientBuild :=
  b <| build_CreatedAt := fromMillis (build_CreatedAt b) |>
    <| build_StartedAt := fromMillis <$> build_StartedAt b |>
    <| build_LeaseUntil := fromMillis <$> build_LeaseUntil b |>
    <| build_CompletedAt := fromMillis <$> build_CompletedAt b |>.

Definition CreateClientBuild (v : ClientBuild) : M unit :=
  sql_insert t_client_builds
    (v <| build_CreatedAt := millis (build_CreatedAt v) |>
       <| build_StartedAt := millis <$> build_StartedAt v |>
       <| build_LeaseUntil := millis <$> build_LeaseUntil v |>
       <| build_CompletedAt := millis <$> build_CompletedAt v |>).

Definition ListClientBuilds (limit : Z) : M (list ClientBuild) :=
  query (λ d, scanClientBuild <$> limit_offset (limit_500 limit) 0
    (SliceStable (λ a b, build_CreatedAt b <? build_CreatedAt a) (t_client_builds d))).

Definition FindClientBuildByID (id : string) : M ClientBuild :=
  query_row (λ d, scanClientBuild <$> select_one (λ b, build_ID b = id) (t_client_builds d)).

Definition set_build (v b : ClientBuild) : ClientBuild :=
  b <| build_Status := build_Status v |> <| build_ArtifactName := build_ArtifactName v |>
    <| build_MediaType := build_MediaType v |> <| build_SHA256 := build_SHA256 v |>
    <| build_Error := build_Error v |> <| build_Artifact := build_Artifact v |>
    <| build_Attempts := build_Attempts v |>
    <| build_StartedAt := millis <$> build_StartedAt v |>
    <| build_LeaseUntil := millis <$> build_LeaseUntil v |>
    <| build_CompletedAt := millis <$> build_CompletedAt v |>.

Definition UpdateClientBuild (v : ClientBuild) : M unit :=
  affected (sql_update t_client_builds (λ b, build_ID b = build_ID v)
    (λ b, set_build v b <| build_WorkerID := build_WorkerID v |>)).

Definition in_progress : list string := ["leased"; "building"; "uploading"].

(** lease_until<? : not true of a NULL. *)
Definition lease_expired (now : time) (b : ClientBuild) : bool :=
  match build_LeaseUntil b with Some t => t <? millis now | None => false end.

Definition claimable (formats platforms architectures : list string) (now : time) (b : ClientBuild)
    : Prop :=
  build_Format b ∈ formats ∧ build_TargetOS b ∈ platforms ∧ build_Architecture b ∈ architectures
  ∧ build_Attempts b < 5
  ∧ (build_Status b = "queued" ∨ (build_Status b ∈ in_progress ∧ lease_expired now b = true)).

#[export] Instance claimable_dec formats platforms architectures now b :
  Decision (claimable formats platforms architectures now b).
Proof. unfold claimable. apply _. Defined.

(** The subquery: the identifier of the oldest claimable build. *)
Definition next_claim (formats platforms architectures : list string) (now : time) (d : DB)
    : option string :=
  build_ID <$> head (SliceStable (λ a b, build_CreatedAt a <? build_CreatedAt b)
    (filter (claimable formats platforms architectures now) (t_client_builds d))).

Definition claim_build (workerID : string) (now leaseUntil : time) (b : ClientBuild) : ClientBuild :=
  b <| build_Status := "leased" |> <| build_WorkerID := workerID |>
    <| build_Attempts := build_Attempts b + 1 |>
    <| build_StartedAt := match build_StartedAt b with Some t => Some t | None => Some (millis now) end |>
    <| build_LeaseUntil := Some (millis leaseUntil) |> <| build_Error := "" |>.

Definition ClaimClientBuild (workerID : string) (formats platforms architectures : list string)
    (now leaseUntil : time) : M ClientBuild :=
  if bool_decide (formats = []) || bool_decide (platforms = []) || bool_decide (architectures = [])
  then throw ErrNotFound else
  affected (sql_update_sub t_client_builds
    (λ d b, Some (build_ID b) = next_claim formats platforms architectures now d
            ∧ build_Attempts b < 5 ∧ (build_Status b = "queued" ∨ lease_expired now b = true))
    (claim_build workerID now leaseUntil));;
  query_row (λ d, scanClientBuild <$>
    head (SliceStable (λ a b, build_CreatedAt a <? build_CreatedAt b)
      (filter (λ b, build_WorkerID b = workerID ∧ build_Status b = "leased"
                    ∧ build_LeaseUntil b = Some (millis leaseUntil)) (t_client_builds d)))).

(** lease_until>? *)
Definition lease_live (now : time) (b : ClientBuild) : bool :=
  match build_LeaseUntil b with Some t => millis now <? t | None => false end.

Definition UpdateClaimedClientBuild (v : ClientBuild) (workerID : string) (now : time) : M unit :=
  affected (sql_update t_client_builds
    (λ b, build_ID b = build_ID v ∧ build_WorkerID b = workerID ∧ build_Status b ∈ in_progress
          ∧ lease_live now b = true)
    (set_build v)).

(** The token hash is kept when the new one is empty, and [created_at] always. *)
Definition UpsertBuilderWorker (v : BuilderWorker) : M unit :=
  let row := v <| worker_LastSeenAt := millis (worker_LastSeenAt v) |>
               <| worker_CreatedAt := millis (worker_CreatedAt v) |>
               <| worker_UpdatedAt := millis (worker_UpdatedAt v) |> in
  sql_upsert t_builder_workers (λ w, worker_ID w = worker_ID v)
    (λ w, row <| worker_ID := worker_ID w |> <| worker_CreatedAt := worker_CreatedAt w |>
              <| worker_TokenHash := if bool_decide (worker_TokenHash v = "") then worker_TokenHash w
                                     else worker_TokenHash v |>)
    row.

Definition scanWorker (w : BuilderWorker) : BuilderWorker :=
  w <| worker_LastSeenAt := fromMillis (worker_LastSeenAt w) |>
    <| worker_CreatedAt := fromMillis (worker_CreatedAt w) |>
    <| worker_UpdatedAt := fromMillis (worker_UpdatedAt w) |>
    <| worker_TokenHash := "" |>.

(** Formats, platforms and architectures are not selected. *)
Definition FindBuilderWorkerByTokenHash (tokenHash : string) : M BuilderWorker :=
  query_row (λ d, (λ w, scanWorker w <| worker_Formats := [] |> <| worker_Platforms := [] |>
                                     <| worker_Architectures := [] |>) <$>
    select_one (λ w, worker_TokenHash w = tokenHash) (t_builder_workers d)).

Definition ListBuilderWorkers : M (list BuilderWorker) :=
  query (λ d, scanWorker <$>
    SliceStable (then_by (λ a b, str_lt (worker_Name a) (worker_Name b))
                         (λ a b, str_lt (worker_ID a) (worker_ID b))) (t_builder_workers d)).

(** ** ACL rules *)

Definition CreateACLRule (v : ACLRule) : M unit :=
  sql_insert t_acl_rules (v <| acl_CreatedAt := millis (acl_CreatedAt v) |>
                            <| acl_UpdatedAt := millis (acl_UpdatedAt v) |> <| acl_Deleted := false |>).

Definition ListACLRules : M (list ACLRule) :=
  query (λ d, (λ r, r <| acl_CreatedAt := fromMillis (acl_CreatedAt r) |>
                      <| acl_UpdatedAt := fromMillis (acl_UpdatedAt r) |>) <$>
    SliceStable (then_by (λ a b, acl_Priority a <? acl_Priority b)
                         (λ a b, str_lt (acl_Name a) (acl_Name b))) (t_acl_rules d)).

Definition UpdateACLRule (v : ACLRule) : M unit :=
  affected (sql_update t_acl_rules (λ r, acl_ID r = acl_ID v)
    (λ r, v <| acl_ID := acl_ID r |> <| acl_CreatedAt := acl_CreatedAt r |>
            <| acl_UpdatedAt := millis (acl_UpdatedAt v) |> <| acl_Deleted := acl_Deleted r |>)).

Definition DeleteACLRule (id : string) : M unit :=
  affected (sql_delete t_acl_rules (λ r, acl_ID r = id)).

(** ** Strategies: deletion keeps the row as a tombstone *)

Definition scanStrategy (s : Strategy) : Strategy :=
  s <| strategy_CreatedAt := fromMillis (strategy_CreatedAt s) |>
    <| strategy_UpdatedAt := fromMillis (strategy_UpdatedAt s) |>.

Definition CreateStrategy (v : Strategy) : M unit :=
  sql_insert t_strategies (v <| strategy_CreatedAt := millis (strategy_CreatedAt v) |>
                             <| strategy_UpdatedAt := millis (strategy_UpdatedAt v) |>
                             <| strategy_Deleted := false |>).

Definition ListStrategies : M (list Strategy) :=
  query (λ d, scanStrategy <$>
    SliceStable (then_by (λ a b, strategy_Priority a <? strategy_Priority b)
                         (λ a b, str_lt (strategy_Name a) (strategy_Name b))) (t_strategies d)).

Definition UpdateStrategy (v : Strategy) : M unit :=
  affected (sql_update t_strategies (λ s, strategy_ID s = strategy_ID v)
    (λ s, v <| strategy_ID := strategy_ID s |> <| strategy_CreatedAt := strategy_CreatedAt s |>
            <| strategy_UpdatedAt := millis (strategy_UpdatedAt v) |> <| strategy_Deleted := false |>)).

Definition DeleteStrategy (id : string) (now : time) : M unit :=
  affected (sql_update t_strategies (λ s, strategy_ID s = id ∧ strategy_Deleted s = false)
    (λ s, s <| strategy_Enabled := false |> <| strategy_Deleted := true |>
            <| strategy_UpdatedAt := millis now |>)).

(** ** Automation (automation.go) *)

Definition CreateAutomationRule (v : AutomationRule) : M unit :=
  sql_insert t_automation_rules (v <| rule_CreatedAt := millis (rule_CreatedAt v) |>
                                   <| rule_UpdatedAt := millis (rule_UpdatedAt v) |>).

Definition scanRule (r : AutomationRule) : AutomationRule :=
  r <| rule_CreatedAt := fromMillis (rule_CreatedAt r) |>
    <| rule_UpdatedAt := fromMillis (rule_UpdatedAt r) |>.

Definition ListAutomationRules : M (list AutomationRule) :=
  query (λ d, scanRule <$> SliceStable (then_by (λ a b, str_lt (rule_Name a) (rule_Name b))
                                                (λ a b, str_lt (rule_ID a) (rule_ID b)))
                             (t_automation_rules d)).

Definition UpdateAutomationRule (v : AutomationRule) : M unit :=
  affected (sql_update t_automation_rules (λ r, rule_ID r = rule_ID v)
    (λ r, v <| rule_ID := rule_ID r |> <| rule_CreatedAt := rule_CreatedAt r |>
            <| rule_UpdatedAt := millis (rule_UpdatedAt v) |>)).

(** ON DELETE CASCADE removes the runs of the rule. *)
Definition DeleteAutomationRule (id : string) : M unit :=
  affected (exec (λ d,
    Ok (count_where (λ r, rule_ID r = id) (t_automation_rules d),
        d <| t_automation_rules := delete_where (λ r, rule_ID r = id) (t_automation_rules d) |>
          <| t_automation_runs := delete_where (λ r, run_RuleID r = id) (t_automation_runs d) |>))).

Definition CreateAutomationRun (v : AutomationRun) : M unit :=
  sql_insert t_automation_runs (v <| run_CreatedAt := millis (run_CreatedAt v) |>).

Definition run_newest_first (a b : AutomationRun) : bool := run_CreatedAt b <? run_CreatedAt a.

Definition ListAutomationRuns (ruleID : string) (limit : Z) : M (list AutomationRun) :=
  query (λ d, (λ r, r <| run_CreatedAt := fromMillis (run_CreatedAt r) |>) <$>
    limit_offset (limit_500 limit) 0 (SliceStable run_newest_first
      (if bool_decide (ruleID = "") then t_automation_runs d
       else filter (λ r, run_RuleID r = ruleID) (t_automation_runs d)))).

(** No completed run is the zero time. *)
Definition LastAutomationRun (ruleID : string) : M time :=
  query (λ d, match head (SliceStable run_newest_first
                (filter (λ r, run_RuleID r = ruleID ∧ run_Status r = "completed") (t_automation_runs d))) with
              | Some r => fromMillis (run_CreatedAt r)
              | None => zero_time
              end).

(** ** Cluster (cluster.go) *)

Definition UpsertClusterNode (v : ClusterNode) : M unit :=
  let row := mkClusterNode (node_ID v) (node_Service v) (node_Version v) (node_Address v)
               (millis (node_StartedAt v)) (millis (node_LastSeenAt v)) 0 in
  sql_upsert t_cluster_nodes (λ n, node_ID n = node_ID v)
    (λ n, row <| node_ID := node_ID n |> <| node_StartedAt := node_StartedAt n |>) row.

(** The lease count is a subquery at [clock], the [time.Now()] of the call. *)
Definition ListClusterNodes (activeAfter clock : time) : M (list ClusterNode) :=
  query (λ d, (λ n, n <| node_StartedAt := fromMillis (node_StartedAt n) |>
                      <| node_LastSeenAt := fromMillis (node_LastSeenAt n) |>
                      <| node_LeaseCount := count_where
                           (λ l, lease_OwnerID l = node_ID n ∧ millis clock < lease_ExpiresAt l)
                           (t_cluster_leases d) |>) <$>
    SliceStable (then_by (λ a b, str_lt (node_Service a) (node_Service b))
                         (λ a b, str_lt (node_ID a) (node_ID b)))
      (filter (λ n, millis activeAfter ≤ node_LastSeenAt n) (t_cluster_nodes d))).

Definition AcquireClusterLease (name ownerID : string) (now expiresAt : time) : M bool :=
  let row := mkClusterLease name ownerID (millis expiresAt) (millis now) in
  count ← sql_upsert_where t_cluster_leases (λ l, lease_Name l = name)
            (λ l, lease_OwnerID l = ownerID ∨ lease_ExpiresAt l ≤ millis now)
            (λ _, row) row;
  ret (0 <? count).

Definition ReleaseClusterLease (name ownerID : string) : M unit :=
  discard (sql_delete t_cluster_leases (λ l, lease_Name l = name ∧ lease_OwnerID l = ownerID)).

Definition ListClusterLeases (now : time) : M (list ClusterLease) :=
  query (λ d, (λ l, l <| lease_ExpiresAt := fromMillis (lease_ExpiresAt l) |>
                      <| lease_UpdatedAt := fromMillis (lease_UpdatedAt l) |>) <$>
    SliceStable (λ a b, str_lt (lease_Name a) (lease_Name b))
      (filter (λ l, millis now < lease_ExpiresAt l) (t_cluster_leases d))).
