(* ===== verification/AuditService.v ===== *)
(** * The audit service (art-api/internal/audit/service.go)

    Every handler records what it did with [Record]: the event is stored, some
    events also become a notification, and all are published to the hub. *)

From S2P Require Export StoreDevices StoreMisc Keeps.
From S2P Require Import Sample.

(** [uuid.NewString()] for an event without identifier and for a notification,
    and [time.Now()]. *)
Record Stamp := mkStamp { stamp_event : string; stamp_notification : string; stamp_now : time }.

(** Severity, title and message of the events that notify. *)
Definition notification_text (type : string) : option (string * string * string) :=
  if bool_decide (type = "login_failed")
  then Some ("warning", "Failed sign-in", "A sign-in attempt was denied")
  else if bool_decide (type = "device_identity_mismatch")
  then Some ("critical", "Device identity mismatch", "A client presented an unexpected device identity")
  else if bool_decide (type = "user_registration")
  then Some ("info", "Registration pending", "A new user registration requires approval")
  else if bool_decide (type ∈ ["mfa_disabled"; "mfa_admin_reset"])
  then Some ("warning", "Multi-factor authentication changed", "Multi-factor authentication was disabled or reset")
  else if bool_decide (type = "api_token_create")
  then Some ("info", "API token created", "A new deployment API token was created")
  else if bool_decide (type = "server_control_command")
  then Some ("info", "Server command queued", "An authenticated server-control command was queued")
  else None.

Definition notificationFor (event : AuditEvent) (fresh : string) : option Notification :=
  '(severity, title, message) ← notification_text (audit_Type event);
  let resource := if bool_decide (audit_TargetRustDeskID event = "") then audit_ActorUserID event
                  else audit_TargetRustDeskID event in
  Some (mkNotification fresh (audit_Type event) severity title message resource
          (audit_OccurredAt event) None).

(** The condition of the loop of [hasRecentNotification]. *)
Definition recent_notification (candidate : Notification) (window : duration) (value : Notification) : bool :=
  let age := Sub (notification_CreatedAt candidate) (notification_CreatedAt value) in
  bool_decide (notification_Type value = notification_Type candidate)
  && bool_decide (notification_Resource value = notification_Resource candidate)
  && (0 <=? age) && (age <? window).

Definition hasRecentNotification (candidate : Notification) (window : duration) : M bool :=
  values ← try (ListNotifications 100 false);
  match values with
  | Err _ => ret false
  | Ok values => ret (existsb (recent_notification candidate window) values)
  end.

(** The event as it is stored: with an identifier and a time. *)
Definition stamped (event : AuditEvent) (s : Stamp) : AuditEvent :=
  let event := if bool_decide (audit_ID event = "") then event <| audit_ID := stamp_event s |> else event in
  if audit_OccurredAt event =? zero_time then event <| audit_OccurredAt := stamp_now s |> else event.

(** The notification of an event, if it has one; its failure is ignored. *)
Definition notify (event : AuditEvent) (fresh : string) : M unit :=
  match notificationFor event fresh with
  | None => ret tt
  | Some n =>
      suppressed ← (if bool_decide (notification_Type n = "device_identity_mismatch")
                    then hasRecentNotification n (15 * minute) else ret false);
      if suppressed : bool then ret tt else discard (try (CreateNotification n))
  end.

(** The service with a hub, as [NewWithHub] builds it. *)
Definition Audit_Record (event : AuditEvent) (s : Stamp) : M unit :=
  let event := stamped event s in
  AppendAudit event;;
  notify event (stamp_notification s);;
  publish AuditRecorded (PAudit event) (stamp_now s).

(** ** What recording does *)

(** Only these two tables change. *)
Definition only_audit (d d' : DB) : Prop :=
  ∃ events notifications,
    d' = write t_notifications notifications (write t_audit_events events d).

Lemma only_audit_refl d : only_audit d d.
Proof. exists (t_audit_events d), (t_notifications d). by destruct d. Qed.

Lemma only_audit_trans d1 d2 d3 : only_audit d1 d2 → only_audit d2 d3 → only_audit d1 d3.
Proof. intros (e1 & n1 & ->) (e2 & n2 & ->). by exists e2, n2. Qed.

Lemma only_audit_events t d : only_audit d (write t_audit_events t d).
Proof. exists t, (t_notifications d). by destruct d. Qed.

Lemma only_audit_notifications t d : only_audit d (write t_notifications t d).
Proof. exists (t_audit_events d), t. by destruct d. Qed.

#[export] Instance only_audit_preorder : PreOrder only_audit.
Proof. split; [intros ?; apply only_audit_refl|intros ???; apply only_audit_trans]. Qed.

Definition stored_event (event : AuditEvent) : AuditEvent :=
  event <| audit_OccurredAt := millis (audit_OccurredAt event) |>.
Definition stored_notification (n : Notification) : Notification :=
  n <| notification_CreatedAt := millis (notification_CreatedAt n) |>
    <| notification_ReadAt := millis <$> notification_ReadAt n |>.

(** The events after an event was recorded: an identifier is stored once. *)
Definition events_after (event : AuditEvent) (t t' : list AuditEvent) : Prop :=
  t' = if decide (Exists (λ e, audit_ID e = audit_ID event) t) then t else t ++ [stored_event event].

(** The notifications after it: at most the one of the event is new. *)
Definition notified (event : AuditEvent) (fresh : string) (t t' : list Notification) : Prop :=
  t' = t ∨ ∃ n, notificationFor event fresh = Some n ∧ t' = t ++ [stored_notification n].

Lemma notify_spec {F} event fresh d h :
  wp F (notify event fresh) (λ r d' h', r = Ok tt ∧ h' = h ∧ t_audit_events d' = t_audit_events d
    ∧ only_audit d d' ∧ notified event fresh (t_notifications d) (t_notifications d')) d h.
Proof.
  unfold notify. destruct (notificationFor event fresh) as [n|] eqn:Hfor;
    [|wp_go; split_and!; try done; by left].
  unfold hasRecentNotification, ListNotifications, CreateNotification.
  wp_go; subst; split_and!; try done; try (by left); try (right; eexists; split; [done|reflexivity]).
  all: apply only_audit_notifications.
Qed.

Lemma Record_spec {F} event0 s d h :
  let event := stamped event0 s in
  wp F (Audit_Record event0 s) (λ r d' h', only_audit d d' ∧
    match r with
    | Ok _ => events_after event (t_audit_events d) (t_audit_events d')
              ∧ notified event (stamp_notification s) (t_notifications d) (t_notifications d')
              ∧ h' = (Publish h AuditRecorded (PAudit event) (stamp_now s)).2
    | Err _ => d' = d ∧ h' = h
    end) d h.
Proof.
  intros event. unfold Audit_Record, AppendAudit. fold event. apply wp_bind.
  apply (wp_mono (λ r d' h', h' = h ∧ only_audit d d' ∧ t_notifications d' = t_notifications d ∧
    match r with Ok _ => events_after event (t_audit_events d) (t_audit_events d') | Err _ => d' = d end)).
  { unfold events_after.
    wp_go; subst; split_and!; try done; try (by rewrite decide_True); try (by rewrite decide_False).
    all: apply only_audit_events. }
  intros [[]|e] d1 h1 (-> & Ho & Hn & He); [|by subst].
  apply wp_bind. eapply wp_mono; [apply notify_spec|]. intros r d2 h2 (-> & -> & He2 & Ho2 & Hn2).
  wp_go. rewrite He2, <-Hn. split_and!; try done. by etrans.
Qed.

(** What the two tables do not concern is kept. *)
Lemma keeps_audit (I : DB → Prop) event s :
  (∀ d d', only_audit d d' → I d → I d') → keeps I (Audit_Record event s).
Proof. intros HI d h Hd. eapply wp_mono; [apply Record_spec|]. cbn. intros r d' h' [Ho _]. by eapply HI. Qed.
