(* ===== verification/Automation.v ===== *)
(** * The automation service (art-api/internal/automation/service.go)

    [handle] matches an event of the hub against the enabled rules, runs their
    actions and records the run.  What [encoding/json] makes of a payload is a
    parameter ([Json]); the clock and the identifiers are functions of the
    position of the rule in the list. *)

From S2P Require Export StoreMisc.
From S2P Require Import Sample Text.

(** [json.Unmarshal] of a marshalled payload into a [map[string]any] ([None] when
    it is no object), and [fmt.Sprint] of a [float64]. *)
Class Json := {
  object_of : payload → option (gmap string any);
  sprint_float : Z → string
}.

(** [first(values...)] *)
Fixpoint first (values : list string) : string :=
  match values with
  | [] => ""
  | value :: values' => if bool_decide (value = "") then first values' else value
  end.

Definition field (fields : gmap string string) (key : string) : string := default "" (fields !! key).

Section Service.
Context `{Unicode} `{Json}.

Definition field_text (value : any) : option string :=
  match value with
  | VString s => Some s
  | VFloat64 bits => Some (sprint_float bits)
  | VBool b => Some (if b then "true" else "false")
  | VOther => None
  end.

Definition eventFields (event : Event) : gmap string string :=
  let base := {["event_type" := event_Type event]} in
  match object_of (event_Payload event) with
  | None => base
  | Some payload => omap field_text payload ∪ base
  end.

Definition conditionsMatch (conditions fields : gmap string string) : bool :=
  forallb (λ kv, EqualFold (TrimSpace (field fields kv.1)) (TrimSpace kv.2)) (map_to_list conditions).

Definition event_id (event : Event) : string :=
  event_SourceID event +:+ ":" +:+ Itoa (event_Revision event).

(** The condition of the loop: enabled, subscribed, conditions met. *)
Definition rule_applies (rule : AutomationRule) (event : Event) : bool :=
  rule_Enabled rule
  && (bool_decide ("*" ∈ rule_EventTypes rule) || bool_decide (event_Type event ∈ rule_EventTypes rule))
  && conditionsMatch (rule_Conditions rule) (eventFields event).

(** One action of a rule. *)
Definition run_action (rule : AutomationRule) (event : Event) (fresh : string) (now : time)
    (action : string) : M unit :=
  let fields := eventFields event in
  if bool_decide (action = "notification") then
    let resource := first [field fields "target_rustdesk_id"; field fields "actor_user_id"; field fields "id"] in
    CreateNotification (mkNotification fresh "automation" (rule_Severity rule) (rule_Name rule)
      ("Rule matched " +:+ event_Type event) resource now None)
  else if bool_decide (action = "webhook") then
    publish AutomationTriggered (PAutomation rule (event_Type event) (event_id event) fields) now
  else throw (ErrText "unsupported action").

(** The actions of a rule up to the first failure; the status of the run. *)
Fixpoint run_actions (rule : AutomationRule) (event : Event) (fresh : nat → string) (now : time)
    (actions : list string) (index : nat) : M (string * option error) :=
  match actions with
  | [] => ret ("completed", None)
  | action :: actions' =>
      result ← try (run_action rule event (fresh index) now action);
      match result with
      | Err e => ret ("failed", Some e)
      | Ok _ => run_actions rule event fresh now actions' (S index)
      end
  end.

(** Whether the throttle of a rule holds it back; [Err] is a failed lookup. *)
Definition throttled (rule : AutomationRule) (now : time) : M bool :=
  if 0 <? rule_ThrottleSeconds rule then
    last ← LastAutomationRun (rule_ID rule);
    ret (negb (last =? zero_time) && (Sub now last <? seconds (rule_ThrottleSeconds rule)))
  else ret false.

(** What a call of [handle] draws: times and identifiers, per rule. *)
Record Draws := mkDraws { draw_now : nat → time; draw_action : nat → nat → string; draw_run : nat → string }.

(** One iteration of the loop of [handle]. *)
Definition handle_rule (event : Event) (r : Draws) (index : nat) (rule : AutomationRule) : M unit :=
  if negb (rule_applies rule event) then ret tt else
  let now := draw_now r index in
  held ← try (throttled rule now);
  match held with
  | Err _ | Ok true => ret tt
  | Ok false =>
      outcome ← run_actions rule event (draw_action r index) now (rule_Actions rule) 0;
      let message := match outcome.2 with None => "actions completed" | Some e => error_text e end in
      discard (try (CreateAutomationRun (mkAutomationRun (draw_run r index) (rule_ID rule)
        (event_Type event) (event_id event) outcome.1 message now)))
  end.

Fixpoint handle_rules (event : Event) (r : Draws) (index : nat) (rules : list AutomationRule) : M unit :=
  match rules with
  | [] => ret tt
  | rule :: rules' => handle_rule event r index rule;; handle_rules event r (S index) rules'
  end.

Definition handle (event : Event) (r : Draws) : M unit :=
  if bool_decide (event_Type event = AutomationTriggered) then ret tt else
  rules ← try ListAutomationRules;
  match rules with
  | Err _ => ret tt
  | Ok rules => handle_rules event r 0 rules
  end.
End Service.

(** ** Throttling: the specification *)

Implicit Types (d : DB) (rule : AutomationRule).

(** The times of the completed runs of a rule, oldest first. *)
Definition completed_runs (id : string) (t : list AutomationRun) : list Z :=
  run_CreatedAt <$> filter (λ r, run_RuleID r = id ∧ run_Status r = "completed") t.

(** Successive completed runs are [gap] milliseconds apart. *)
Definition spaced (gap : Z) (times : list Z) : Prop := StronglySorted (λ a b, a + gap ≤ b) times.

Lemma spaced_snoc gap times t :
  spaced gap times → Forall (λ a, a + gap ≤ t) times → spaced gap (times ++ [t]).
Proof.
  unfold spaced. induction 1 as [|a times Hs IH Ha]; intros Hall.
  { repeat constructor. }
  inversion_clear Hall. cbn. constructor; [by apply IH|]. apply Forall_app. by split; [|repeat constructor].
Qed.

Lemma LastAutomationRun_spec {F} id d h :
  wp F (LastAutomationRun id) (λ r d' h', d' = d ∧ h' = h ∧ match r with
    | Err _ => True
    | Ok last => completed_runs id (t_automation_runs d) = [] ∧ last = zero_time
                 ∨ ∃ ms, last = fromMillis ms ∧ Forall (λ a, a ≤ ms) (completed_runs id (t_automation_runs d))
    end) d h.
Proof.
  unfold LastAutomationRun. apply wp_query; [done|]. split_and!; [done..|].
  unfold completed_runs. set (l := filter _ (t_automation_runs d)).
  destruct (head (SliceStable run_newest_first l)) as [r|] eqn:Hh.
  - right. exists (run_CreatedAt r). split; [done|].
    apply head_SliceStable in Hh as [_ Hmax];
      [|unfold run_newest_first; intros *; rewrite ?Z.ltb_lt, ?Z.ltb_ge; lia..].
    apply Forall_fmap, Forall_forall. intros r' Hr'%Hmax. by apply Z.ltb_ge.
  - apply head_SliceStable_None in Hh. left. by rewrite Hh.
Qed.

Lemma gap_passed T now ms :
  0 < T → T * second ≤ max_int64 → T * second ≤ Sub now (fromMillis ms) → ms + T * 1000 ≤ millis now.
Proof.
  unfold Sub, fromMillis, millis, fromUnixMilli, UnixMilli, second, millisecond, max_int64, min_int64.
  intros HT Hmax Hsub. assert (T * (1000 * 1000000) ≤ now - ms * 1000000) by lia.
  Z.to_euclidean_division_equations. lia.
Qed.

(** The last completed run of a rule that may run is its gap ago. *)
Definition gap_free (rule : AutomationRule) (now : time) d : Prop :=
  0 < rule_ThrottleSeconds rule →
  Forall (λ a, a + rule_ThrottleSeconds rule * 1000 ≤ millis now) (completed_runs (rule_ID rule) (t_automation_runs d)).

Lemma throttled_spec `{Unicode} `{Json} {F} rule now d h :
  rule_ThrottleSeconds rule * second ≤ max_int64 → 0 ≤ now →
  wp F (throttled rule now) (λ r d' h', d' = d ∧ h' = h ∧ (r = Ok false → gap_free rule now d)) d h.
Proof.
  intros Hmax Hnow. unfold throttled, gap_free.
  destruct (Z.ltb_spec 0 (rule_ThrottleSeconds rule)) as [Hpos|]; [|wp_go; split_and!; (done || lia)].
  apply wp_bind. eapply wp_mono; [apply LastAutomationRun_spec|].
  intros [last|e] d' h' (-> & -> & Hl); [|done]. rewrite (seconds_exact (rule_ThrottleSeconds rule)) by lia.
  wp_go. split_and!; [done..|]. intros [= Hheld] _.
  destruct Hl as [[-> ->]|(ms & -> & Hall)]; [constructor|].
  eapply Forall_impl; [exact Hall|]. cbn. intros a Ha.
  cut (ms + rule_ThrottleSeconds rule * 1000 ≤ millis now); [lia|].
  apply andb_false_iff in Hheld as [Hz|Hz]; simplify_bool; [|by apply gap_passed].
  unfold fromMillis, fromUnixMilli, zero_time, millisecond, millis, UnixMilli, second, max_int64 in *.
  unfold millisecond in *. Z.to_euclidean_division_equations. lia.
Qed.

Lemma completed_runs_snoc id t r :
  completed_runs id (t ++ [r])
  = completed_runs id t ++ (if decide (run_RuleID r = id ∧ run_Status r = "completed") then [run_CreatedAt r] else []).
Proof. unfold completed_runs. rewrite filter_app, fmap_app. f_equal. rewrite filter_cons. by case_decide. Qed.

Section Throttling.
Context `{Unicode} `{Json}.

(** The rules as an administrator left them, and the runs they may add. *)
Definition rules_kept d d' : Prop := t_automation_rules d' = t_automation_rules d.

Lemma run_actions_reads {F} rule event fresh now actions index d h :
  wp F (run_actions rule event fresh now actions index) (λ r d' _, is_ok r = true ∧ rules_kept d d'
    ∧ t_automation_runs d' = t_automation_runs d) d h.
Proof.
  revert index d h. induction actions as [|action actions IH]; intros index d h; cbn [run_actions].
  { wp_go. done. }
  apply wp_bind, wp_try.
  apply (wp_mono (λ r d' _, rules_kept d d' ∧ t_automation_runs d' = t_automation_runs d)).
  { unfold run_action, CreateNotification. wp_go; subst; done. }
  intros [[]|e] d' h' [Hr Ht]; [|wp_go; done].
  eapply wp_mono; [apply IH|]. unfold rules_kept. intros r d'' h'' (Hok & -> & ->). done.
Qed.

(** The runs of the rules of [d]: those that throttle are spaced. *)
Definition runs_spaced d : Prop :=
  ∀ rule, rule ∈ t_automation_rules d → 0 < rule_ThrottleSeconds rule →
    spaced (rule_ThrottleSeconds rule * 1000) (completed_runs (rule_ID rule) (t_automation_runs d)).

Definition rules_bounded d : Prop :=
  NoDup (rule_ID <$> t_automation_rules d)
  ∧ Forall (λ rule, rule_ThrottleSeconds rule * second ≤ max_int64) (t_automation_rules d).

Lemma runs_spaced_add d run rule now :
  rules_bounded d → rule ∈ t_automation_rules d → runs_spaced d → gap_free rule now d →
  run_RuleID run = rule_ID rule → run_CreatedAt run = millis now →
  runs_spaced (write t_automation_runs (t_automation_runs d ++ [run]) d).
Proof.
  intros [Hu _] Hin Hs Hfree Hid Hat rl Hrl Hp. change (rl ∈ t_automation_rules d) in Hrl.
  change (t_automation_runs (write _ _ _)) with (t_automation_runs d ++ [run]).
  rewrite completed_runs_snoc. specialize (Hs rl Hrl Hp). case_decide as Hc; [|by rewrite app_nil_r].
  assert (rl = rule) as -> by (apply (unique_row rule_ID _ _ _ Hu); [done..|destruct Hc; congruence]).
  apply spaced_snoc; [done|]. rewrite Hat. by apply Hfree.
Qed.

(** A completed run of a rule is added only when its gap has passed. *)
Lemma handle_rule_spec {F} event r index rule d h :
  scanRule rule ∈ scanRule <$> t_automation_rules d → rules_bounded d → 0 ≤ draw_now r index → runs_spaced d →
  wp F (handle_rule event r index (scanRule rule)) (λ x d' _, x = Ok tt ∧ rules_kept d d' ∧ runs_spaced d') d h.
Proof.
  intros Hin Hb Hnow Hs. apply list_elem_of_fmap in Hin as (row & Hscan & Hrow). rewrite Hscan.
  unfold handle_rule. destruct (negb _); [wp_go; done|]. apply wp_bind, wp_try. cbv zeta. eapply wp_mono.
  { apply (throttled_spec (scanRule row)); [|exact Hnow]. destruct Hb as [_ Hb]. rewrite Forall_forall in Hb.
    by apply Hb in Hrow. }
  intros [[]|e] d' h' (-> & -> & Hfree); [wp_go; done| |wp_go; done]. specialize (Hfree eq_refl).
  apply wp_bind. eapply wp_mono; [apply run_actions_reads|].
  intros [[status message]|e] d1 h1 (Hok & Hk & Hruns); [|done].
  assert (Hs1 : runs_spaced d1) by (intros rl Hrl Hp; rewrite Hk in Hrl; by rewrite Hruns; apply Hs).
  unfold CreateAutomationRun. wp_go; subst; (split_and!; [done|done|]); try done.
  apply (runs_spaced_add _ _ row (draw_now r index)); try done.
  - unfold rules_bounded. by rewrite Hk.
  - by rewrite Hk.
  - unfold gap_free. by rewrite Hruns.
Qed.

Lemma handle_rules_spec {F} event r rules index d h :
  Forall (λ rule, ∃ row, rule = scanRule row ∧ row ∈ t_automation_rules d) rules →
  rules_bounded d → (∀ i, 0 ≤ draw_now r i) → runs_spaced d →
  wp F (handle_rules event r index rules) (λ x d' _, x = Ok tt ∧ rules_kept d d' ∧ runs_spaced d') d h.
Proof.
  revert index d h. induction rules as [|rule rules IH]; intros index d h Hall Hb Hnow Hs; cbn [handle_rules].
  { wp_go. done. }
  apply Forall_cons in Hall as [(row & -> & Hrow) Hall].
  apply wp_bind. eapply wp_mono.
  { apply (handle_rule_spec event r index row); [by apply list_elem_of_fmap_2|done|done|done]. }
  intros x d1 h1 (-> & Hk & Hs1). eapply wp_mono.
  - apply IH; unfold rules_bounded; try rewrite Hk; done.
  - unfold rules_kept in *. intros x d2 h2 (-> & -> & Hs2). done.
Qed.

Lemma handle_spec {F} event r d h :
  rules_bounded d → (∀ i, 0 ≤ draw_now r i) → runs_spaced d →
  wp F (handle event r) (λ x d' _, x = Ok tt ∧ rules_kept d d' ∧ runs_spaced d') d h.
Proof.
  intros Hb Hnow Hs. unfold handle, ListAutomationRules. wp_go; try done.
  apply handle_rules_spec; try done. apply Forall_fmap, Forall_forall. intros row Hrow%elem_of_SliceStable.
  by exists row.
Qed.

Definition handle_all (l : list (Event * Draws)) (w : world) : world :=
  foldl (λ w e, (handle e.1 e.2 w).2) w l.

(** C36: throttling: whatever events arrive, whatever the clock says and whatever
    statements fail, successive completed runs of a rule are recorded at least
    its throttle apart; and an event of the engine itself runs no rule. *)
Theorem throttled_runs_spaced (l : list (Event * Draws)) w rule :
  rules_bounded (w_db w) → Forall (λ e : Event * Draws, ∀ i, 0 ≤ draw_now e.2 i) l → runs_spaced (w_db w) →
  rule ∈ t_automation_rules (w_db w) → 0 < rule_ThrottleSeconds rule →
  spaced (rule_ThrottleSeconds rule * 1000) (completed_runs (rule_ID rule) (t_automation_runs (w_db (handle_all l w))))
  ∧ ∀ event r w', event_Type event = AutomationTriggered → handle event r w' = (Ok tt, w').
Proof.
  intros Hb Hl Hs Hrule Hpos. split.
  2: { intros event r w' He. unfold handle. by rewrite bool_decide_true. }
  cut (rules_kept (w_db w) (w_db (handle_all l w)) ∧ runs_spaced (w_db (handle_all l w))).
  { intros [Hk Hs']. apply Hs'; [by rewrite Hk|done]. }
  clear rule Hrule Hpos. revert w Hb Hs. induction Hl as [|[event r] l Hnow _ IH]; intros w Hb Hs; [done|]. cbn.
  destruct (wp_run (F:=true) _ _ w I (handle_spec event r _ (w_hub w) Hb Hnow Hs)) as (_ & Hk & Hs').
  destruct (IH (handle event r w).2) as [Hk2 Hs2]; [unfold rules_bounded; by rewrite Hk|done|].
  split; [exact (eq_trans Hk2 Hk)|done].
Qed.
End Throttling.

(** ** The theorem at a concrete installation *)

Definition ex_json : Json := {| object_of := λ _, None; sprint_float := λ _, "" |}.
Definition ex_rule : AutomationRule :=
  mkAutomationRule "r1" "watch" ["*"] ∅ ["notification"; "webhook"] "info" 60 true 0 0.
Definition ex_automation : world :=
  mkWorld (empty_db <| t_automation_rules := [ex_rule] |>) [] (NewHub "src").
Definition ex_hub_event (n : Z) : Event := mkEvent "src" n "AUDIT_RECORDED" 0 (PText "").
Definition ex_draws (now : time) (id : string) : Draws :=
  mkDraws (λ _, now) (λ _ _, id) (λ _, id).

(** Events at 100, 130 and 161 seconds: the second is held back. *)
Lemma throttled_runs_spaced_witness :
  spaced 60000 (completed_runs "r1" (t_automation_runs (w_db (@handle_all ascii_unicode ex_json
    [(ex_hub_event 1, ex_draws (100 * second) "a"); (ex_hub_event 2, ex_draws (130 * second) "b");
     (ex_hub_event 3, ex_draws (161 * second) "c")] ex_automation))))
  ∧ completed_runs "r1" (t_automation_runs (w_db (@handle_all ascii_unicode ex_json
    [(ex_hub_event 1, ex_draws (100 * second) "a"); (ex_hub_event 2, ex_draws (130 * second) "b");
     (ex_hub_event 3, ex_draws (161 * second) "c")] ex_automation))) = [100000; 161000].
Proof.
  split; [|vm_compute; reflexivity].
  refine (proj1 (@throttled_runs_spaced ascii_unicode ex_json _ ex_automation ex_rule _ _ _ _ _)).
  - split; [apply NoDup_singleton|]. repeat constructor. discriminate.
  - repeat constructor; cbn; discriminate.
  - intros rl Hrl _. apply list_elem_of_singleton in Hrl as ->. constructor.
  - left.
  - reflexivity.
Defined.
