(* ===== verification/Strategy.v ===== *)
(** * Client strategies (art-api/internal/strategy/service.go)

    Which settings a device gets when several strategies apply to it.  The order
    in which Go ranges over a settings map is an argument of the operations
    ([order]); [%g] of a number is a parameter. *)

From S2P Require Export StoreMisc Text.

Record SettingDefinition := mkSettingDefinition {
  setting_def_Key : string;
  setting_def_Label : string;
  setting_def_LabelEN : string;
  setting_def_Category : string;
  setting_def_Kind : string;
  setting_def_ServerOnly : bool
}.

Definition definitions : list SettingDefinition := [
  mkSettingDefinition "require_login" "Требовать вход" "Require login" "Security" "boolean" true;
  mkSettingDefinition "require_managed_device" "Только управляемые устройства" "Managed devices only" "Security" "boolean" true;
  mkSettingDefinition "allow_remote_control" "Удалённое управление" "Remote control" "Permissions" "boolean" false;
  mkSettingDefinition "allow_file_transfer" "Передача файлов" "File transfer" "Permissions" "boolean" false;
  mkSettingDefinition "allow_clipboard" "Буфер обмена" "Clipboard" "Permissions" "boolean" false;
  mkSettingDefinition "allow_tcp_tunnel" "TCP-туннель" "TCP tunnel" "Permissions" "boolean" false;
  mkSettingDefinition "force_relay" "Принудительный relay" "Force relay" "Network" "boolean" false;
  mkSettingDefinition "disable_direct_ip" "Отключить Direct IP" "Disable Direct IP" "Network" "boolean" false;
  mkSettingDefinition "disable_lan_discovery" "Отключить LAN discovery" "Disable LAN discovery" "Network" "boolean" false;
  mkSettingDefinition "disable_settings" "Заблокировать настройки клиента" "Lock client settings" "UI" "boolean" false;
  mkSettingDefinition "id_server" "ID Server" "ID Server" "Network" "string" false;
  mkSettingDefinition "relay_server" "Relay Server" "Relay Server" "Network" "string" false;
  mkSettingDefinition "api_server" "API Server" "API Server" "Network" "string" false ].

Record Result := mkResult {
  result_ModifiedAt : Z;
  result_ConfigOptions : gmap string string;
  result_EffectiveSettings : gmap string any;
  result_MatchedStrategyIDs : list string
}.

Definition specificity (scope : string) : Z :=
  if bool_decide (scope = "global") then 0
  else if bool_decide (scope = "user_group") then 1
  else if bool_decide (scope = "user") then 2
  else if bool_decide (scope = "device_group") then 3
  else if bool_decide (scope = "device") then 4 else -1.

(** [userGroups] is the set of keys of the Go map, whose values are all true. *)
Definition matches (value : Strategy) (device : Device) (userGroups : gset string) : bool :=
  let scope := strategy_ScopeType value in
  let id := strategy_ScopeID value in
  if bool_decide (scope = "global") then true
  else if bool_decide (scope = "user")
  then negb (bool_decide (device_OwnerUserID device = "")) && bool_decide (id = device_OwnerUserID device)
  else if bool_decide (scope = "user_group") then bool_decide (id ∈ userGroups)
  else if bool_decide (scope = "device_group")
  then negb (bool_decide (device_GroupID device = "")) && bool_decide (id = device_GroupID device)
  else if bool_decide (scope = "device") then bool_decide (id = device_RustDeskID device)
  else false.

(** The order of [sort.SliceStable] in [Resolve]. *)
Definition less (a b : Strategy) : bool :=
  if negb (strategy_Priority a =? strategy_Priority b) then strategy_Priority a <? strategy_Priority b
  else if negb (specificity (strategy_ScopeType a) =? specificity (strategy_ScopeType b))
  then specificity (strategy_ScopeType a) <? specificity (strategy_ScopeType b)
  else strategy_UpdatedAt a <? strategy_UpdatedAt b.

Section Strategy.
Context `{Unicode} (format_g : Z → string).

Definition stringOption (option_ : string) (raw : any) : option (string * string) :=
  match raw with
  | VString value => let value := TrimSpace value in
                     if len value <=? 2048 then Some (option_, value) else None
  | _ => None
  end.

Definition yn (b : bool) : string := if b then "Y" else "N".

(** The settings that are a client option with a boolean value, and whether the
    option is the negation of the setting. *)
Definition boolean_options : list (string * (string * bool)) := [
  ("allow_remote_control", ("enable-keyboard", false));
  ("allow_file_transfer", ("enable-file-transfer", false));
  ("allow_clipboard", ("enable-clipboard", false));
  ("allow_tcp_tunnel", ("enable-tunnel", false));
  ("force_relay", ("force-relay", false));
  ("disable_direct_ip", ("direct-server", true));
  ("disable_lan_discovery", ("enable-lan-discovery", true));
  ("disable_settings", ("disable-settings", false)) ].
Definition string_options : list (string * string) := [
  ("id_server", "custom-rendezvous-server"); ("relay_server", "relay-server"); ("api_server", "api-server") ].

Definition assoc {A} (l : list (string * A)) (key : string) : option A :=
  snd <$> head (filter (λ p, p.1 = key) l).

(** The part of [clientOption] after the switch. *)
Definition rustdesk_option (key : string) (raw : any) : option (string * string) :=
  if negb (HasPrefix key "rustdesk.") then None else
  let option_ := TrimPrefix key "rustdesk." in
  if bool_decide (option_ = "") || (128 <? len option_) || ContainsBlank option_ then None else
  match raw with
  | VBool b => Some (option_, yn b)
  | VString value => if len value <=? 2048 then Some (option_, value) else None
  | VFloat64 bits => Some (option_, format_g bits)
  | VOther => None
  end.

Definition clientOption (key : string) (raw : any) : option (string * string) :=
  match assoc boolean_options key, raw with
  | Some (option_, negated), VBool b => Some (option_, yn (if negated then negb b else b))
  | _, _ =>
      match assoc string_options key with
      | Some option_ => stringOption option_ raw
      | None =>
          if bool_decide (key = "require_login") || bool_decide (key = "require_managed_device") then None
          else rustdesk_option key raw
      end
  end.

(** The options of settings ranged over in the given order. *)
Definition options_of (settings : list (string * any)) : list (string * string) :=
  omap (λ kv, clientOption kv.1 kv.2) settings.

Definition ClientOptions (order : list (string * any)) : gmap string string :=
  foldl (λ m o, <[o.1 := o.2]> m) ∅ (options_of order).

(** The two loops of [Resolve] over [value.Settings]. *)
Definition reset_options (settings : list (string * any)) (m : gmap string string) : gmap string string :=
  foldl (λ m o, <[o.1 := ""]> m) m (options_of settings).
Definition set_options (settings : list (string * any)) (m : gmap string string) : gmap string string :=
  foldl (λ m o, <[o.1 := o.2]> m) m (options_of settings).
Definition set_settings (settings : list (string * any)) (m : gmap string any) : gmap string any :=
  foldl (λ m kv, <[kv.1 := kv.2]> m) m settings.

(** [order1] and [order2]: how the first and the second loop range over the
    settings of a strategy. *)
Definition Resolve (order1 order2 : Strategy → list (string * any))
    (values : list Strategy) (device : Device) (userGroups : gset string) : Result :=
  let values := filter (λ v, Is_true (matches v device userGroups)) values in
  let modified := foldl (λ m v, let stamp := UnixMilli (strategy_UpdatedAt v) in
                                if m <? stamp then stamp else m) 0 values in
  let options := foldl (λ m v, reset_options (order1 v) m) ∅ values in
  let matched := SliceStable less
    (filter (λ v, Is_true (strategy_Enabled v && negb (strategy_Deleted v))) values) in
  mkResult modified
    (foldl (λ m v, set_options (order2 v) m) options matched)
    (foldl (λ m v, set_settings (order2 v) m) ∅ matched)
    (strategy_ID <$> matched).

Definition EffectiveForDevice (order1 order2 : Strategy → list (string * any)) (device : Device)
    : M Result :=
  values ← ListStrategies;
  memberships ← ListUserGroupMemberships;
  let groups := list_to_set (membership_GroupID <$>
    filter (λ m, Is_true (membership_Active m) ∧ membership_UserID m = device_OwnerUserID device) memberships) in
  ret (Resolve order1 order2 values device groups).

(** One setting of [ValidateSettings]; the quoted key is left out of the texts. *)
Definition validate_setting (key : string) (raw : any) : res unit :=
  match setting_def_Kind <$> head (filter (λ d, setting_def_Key d = key) definitions) with
  | None =>
      if negb (HasPrefix key "rustdesk.") || (136 <? len key) || ContainsBlank key
      then Err (ErrText "unsupported setting") else
      match raw with
      | VBool _ | VFloat64 _ => Ok tt
      | VString value => if 2048 <? len value then Err (ErrText "setting is too long") else Ok tt
      | VOther => Err (ErrText "invalid value")
      end
  | Some kind =>
      if bool_decide (kind = "boolean")
      then match raw with VBool _ => Ok tt | _ => Err (ErrText "setting must be boolean") end
      else match raw with
           | VString value => if 2048 <? len value then Err (ErrText "setting must be a string") else Ok tt
           | _ => Err (ErrText "setting must be a string")
           end
  end.

Fixpoint validate_settings (settings : list (string * any)) : res unit :=
  match settings with
  | [] => Ok tt
  | (key, raw) :: settings' =>
      match validate_setting key raw with
      | Ok _ => validate_settings settings'
      | Err e => Err e
      end
  end.

Definition ValidateSettings (order : list (string * any)) : res unit :=
  if bool_decide (order = []) || (64 <? Z.of_nat (length order))
  then Err (ErrText "strategy must contain 1 to 64 settings") else validate_settings order.
End Strategy.

(** ** Theorems *)

Lemma less_asym a b : less a b = true → less b a = false.
Proof. unfold less. repeat case_match; simplify_bool; intros; simplify_bool;
  try (apply Z.ltb_ge); lia. Qed.

Lemma less_negtrans a b c : less a b = false → less b c = false → less a c = false.
Proof. unfold less. repeat case_match; simplify_bool; intros; simplify_bool; try (apply Z.ltb_ge); lia. Qed.

(** Maps built by a fold of insertions. *)
Lemma foldl_insert_union {A} (l : list (string * A)) (m : gmap string A) :
  NoDup l.*1 → foldl (λ m kv, <[kv.1 := kv.2]> m) m l = list_to_map l ∪ m.
Proof.
  revert m. induction l as [|[k v] l IH]; intros m; cbn; [by rewrite (left_id_L ∅ (∪))|].
  intros [Hk Hnd]%NoDup_cons. rewrite IH by done. rewrite <-insert_union_l. apply map_eq. intros i.
  destruct (decide (i = k)) as [->|Hne].
  - rewrite lookup_union, lookup_insert_eq, (not_elem_of_list_to_map_1 l k) by done.
    by rewrite lookup_insert_eq, (left_id_L None _).
  - by rewrite (lookup_insert_ne (list_to_map l ∪ m)), !lookup_union, lookup_insert_ne by done.
Qed.

Lemma foldl_union_lookup {B A} (f : B → gmap string A) (l : list B) (m : gmap string A) k :
  (foldl (λ m s, f s ∪ m) m l) !! k
  = match last (omap (λ s, f s !! k) l) with Some v => Some v | None => m !! k end.
Proof.
  revert m. induction l as [|s l IH] using rev_ind; intros m; [done|].
  rewrite foldl_app, omap_app. cbn. rewrite lookup_union, IH.
  destruct (f s !! k) as [v|] eqn:Hs; cbn.
  - by rewrite last_snoc, union_Some_l.
  - by rewrite app_nil_r, (left_id_L None _).
Qed.

Lemma foldl_ext_eq {A B} (f g : A → B → A) a l : (∀ a b, f a b = g a b) → foldl f a l = foldl g a l.
Proof. intros Hfg. revert a. induction l as [|b l IH]; intros a; [done|]. cbn. by rewrite Hfg, IH. Qed.

Lemma last_omap_split {A B} (f : A → option B) l v :
  last (omap f l) = Some v → ∃ l1 x l2, l = l1 ++ x :: l2 ∧ f x = Some v ∧ Forall (λ y, f y = None) l2.
Proof.
  induction l as [|x l IH] using rev_ind; [done|]. rewrite omap_app. cbn.
  destruct (f x) as [w|] eqn:Hx; cbn.
  - rewrite last_snoc. intros [= ->]. exists l, x, []. by split_and!.
  - rewrite app_nil_r. intros (l1 & y & l2 & -> & Hy & Hl2)%IH. exists l1, y, (l2 ++ [x]).
    split_and!; [by rewrite <-app_assoc|done|]. apply Forall_app. split; [done|by constructor].
Qed.

Lemma last_omap_None {A B} (f : A → option B) l : last (omap f l) = None ↔ ∀ x, x ∈ l → f x = None.
Proof.
  rewrite last_None. split.
  - intros Hn x Hx. destruct (f x) as [y|] eqn:Hf; [|done].
    assert (y ∈ omap f l) as Hy by (apply list_elem_of_omap; by exists x). rewrite Hn in Hy. set_solver.
  - intros Hall. induction l as [|x l IH]; [done|]. cbn. rewrite (Hall x) by left. apply IH. set_solver.
Qed.

Section Theorems.
Context `{Unicode} (format_g : Z → string).
Implicit Types (s : Strategy) (order : Strategy → list (string * any)).

(** An order in which the settings of every strategy can be ranged over. *)
Definition ranges_over order : Prop := ∀ s, order s ≡ₚ map_to_list (strategy_Settings s).

Definition applies (values : list Strategy) (device : Device) (groups : gset string) s : Prop :=
  s ∈ values ∧ matches s device groups = true ∧ strategy_Enabled s = true ∧ strategy_Deleted s = false.

Definition matched_list (values : list Strategy) (device : Device) (groups : gset string) : list Strategy :=
  SliceStable less (filter (λ v, Is_true (strategy_Enabled v && negb (strategy_Deleted v)))
    (filter (λ v, Is_true (matches v device groups)) values)).

Lemma elem_of_matched values device groups s :
  s ∈ matched_list values device groups ↔ applies values device groups s.
Proof.
  unfold matched_list, applies. rewrite elem_of_SliceStable, !list_elem_of_filter, !Is_true_true, andb_true_iff, negb_true_iff.
  tauto.
Qed.

Lemma set_settings_eq order s m : ranges_over order → set_settings (order s) m = strategy_Settings s ∪ m.
Proof.
  intros Ho. assert (Hnd : NoDup (order s).*1) by (rewrite (Ho s); apply NoDup_fst_map_to_list).
  unfold set_settings. rewrite foldl_insert_union by done. f_equal.
  rewrite (list_to_map_proper (order s) (map_to_list (strategy_Settings s))) by done.
  apply list_to_map_to_list.
Qed.

Lemma effective_lookup order1 order2 values device groups k :
  ranges_over order2 →
  result_EffectiveSettings (Resolve format_g order1 order2 values device groups) !! k
  = last (omap (λ s, strategy_Settings s !! k) (matched_list values device groups)).
Proof.
  intros Ho. cbn. rewrite (foldl_ext_eq _ (λ m s, strategy_Settings s ∪ m)) by (intros; by apply set_settings_eq).
  rewrite foldl_union_lookup, lookup_empty. by destruct (last _).
Qed.

(** a larger priority wins, then the scope closest to the device, then the
    later change: a setting has no effective value exactly when no applicable
    strategy sets it, and otherwise the value of an applicable strategy that no
    other applicable strategy with that setting beats, however the settings
    maps are ranged over. *)
Theorem Resolve_winner order1 order2 values device groups k :
  ranges_over order2 →
  let effective := result_EffectiveSettings (Resolve format_g order1 order2 values device groups) in
  (effective !! k = None ↔ ∀ s, applies values device groups s → strategy_Settings s !! k = None)
  ∧ ∀ v, effective !! k = Some v →
      ∃ s, applies values device groups s ∧ strategy_Settings s !! k = Some v
           ∧ ∀ s', applies values device groups s' → is_Some (strategy_Settings s' !! k) → less s s' = false.
Proof.
  intros Ho effective. unfold effective. rewrite effective_lookup by done. split.
  - rewrite last_omap_None. setoid_rewrite elem_of_matched. done.
  - intros v Hv. destruct (last_omap_split _ _ _ Hv) as (l1 & s & l2 & Hl & Hs & Hl2).
    exists s. split; [|split; [done|]].
    + apply elem_of_matched. rewrite Hl. set_solver.
    + intros s' Hs' [w Hw]. apply elem_of_matched in Hs'.
      pose proof (SliceStable_sorted less less_asym less_negtrans
        (filter (λ v, Is_true (strategy_Enabled v && negb (strategy_Deleted v)))
           (filter (λ v, Is_true (matches v device groups)) values))) as Hsort.
      fold (matched_list values device groups) in Hsort. rewrite Hl in Hsort, Hs'.
      apply elem_of_app in Hs' as [Hs'|[->|Hs']%elem_of_cons].
      * apply StronglySorted_app in Hsort as (Hb & _ & _). by apply (Hb s' s); [|left].
      * destruct (less s s) eqn:Hself; [|done]. by rewrite (less_asym _ _ Hself) in Hself.
      * rewrite Forall_forall in Hl2. by rewrite (Hl2 s') in Hw.
Qed.

(** ** Client options *)

#[local] Instance options_Permutation : Proper ((≡ₚ) ==> (≡ₚ)) (options_of format_g).
Proof. intros l l' Hl. unfold options_of. by rewrite Hl. Qed.

Lemma reset_options_lookup settings m o :
  reset_options format_g settings m !! o
  = if decide (o ∈ (options_of format_g settings).*1) then Some "" else m !! o.
Proof.
  unfold reset_options. revert m. induction (options_of format_g settings) as [|[k v] l IH]; intros m; [done|].
  cbn. rewrite IH. repeat case_decide; try done; try set_solver.
  - assert (o = k) as -> by set_solver. by rewrite lookup_insert_eq.
  - rewrite lookup_insert_ne; [done|set_solver].
Qed.

(** No two settings of the strategy are the same client option. *)
Definition distinct_options s : Prop :=
  NoDup (options_of format_g (map_to_list (strategy_Settings s))).*1.

Lemma set_options_eq order s m :
  ranges_over order → distinct_options s →
  set_options format_g (order s) m = list_to_map (options_of format_g (map_to_list (strategy_Settings s))) ∪ m.
Proof.
  intros Ho Hd. unfold set_options, distinct_options in *.
  assert (Hp : options_of format_g (order s) ≡ₚ options_of format_g (map_to_list (strategy_Settings s)))
    by (by rewrite (Ho s)).
  rewrite foldl_insert_union by (by rewrite Hp). f_equal. apply list_to_map_proper; [by rewrite Hp|done].
Qed.

Lemma foldl_ext_in {A B} (f g : A → B → A) a l :
  (∀ a b, b ∈ l → f a b = g a b) → foldl f a l = foldl g a l.
Proof.
  revert a. induction l as [|b l IH]; intros a Hfg; [done|]. cbn. rewrite Hfg by left.
  apply IH. intros. apply Hfg. by right.
Qed.

Lemma reset_options_order order order' s m :
  ranges_over order → ranges_over order' →
  reset_options format_g (order s) m = reset_options format_g (order' s) m.
Proof.
  intros Ho Ho'. apply map_eq. intros o. rewrite !reset_options_lookup. apply decide_ext.
  by rewrite (Ho s), (Ho' s).
Qed.

Lemma options_lookup_default order values m o :
  (∀ s, s ∈ values → o ∉ (options_of format_g (order s)).*1) →
  foldl (λ m s, set_options format_g (order s) m) m values !! o = m !! o.
Proof.
  revert m. induction values as [|s l IH]; intros m Hno; [done|]. cbn.
  rewrite IH by (intros; apply Hno; by right).
  specialize (Hno s ltac:(left)). unfold set_options. revert m Hno.
  induction (options_of format_g (order s)) as [|[k v] os IHo]; intros m Hno; [done|]. cbn in *.
  rewrite IHo by set_solver. apply lookup_insert_ne. set_solver.
Qed.

Lemma reset_all_lookup order values (m : gmap string string) o :
  foldl (λ m s, reset_options format_g (order s) m) m values !! o
  = if decide (Exists (λ s, o ∈ (options_of format_g (order s)).*1) values) then Some "" else m !! o.
Proof.
  revert m. induction values as [|s l IH]; intros m; [done|]. cbn. rewrite IH, reset_options_lookup.
  repeat case_decide; rewrite ?Exists_cons in *; try done; naive_solver.
Qed.

(** *** The order of the strategies *)

(** No two strategies for the device have the same priority, scope and time. *)
Definition distinct_ranks (values : list Strategy) (device : Device) (groups : gset string) : Prop :=
  ∀ s s', applies values device groups s → applies values device groups s' →
          less s s' = false → less s' s = false → s = s'.

Lemma matched_list_perm values values' device groups :
  values' ≡ₚ values → distinct_ranks values device groups →
  matched_list values' device groups = matched_list values device groups.
Proof.
  intros Hp Hranks. eapply (StronglySorted_unique_strong (before less)).
  - intros s s' Hs Hs' H1 H2. apply elem_of_matched in Hs, Hs'.
    assert (Hs0 : applies values device groups s) by (destruct Hs as (Hin & ?); split; [by rewrite <- Hp|done]).
    by apply Hranks.
  - apply SliceStable_sorted; [exact less_asym|exact less_negtrans].
  - apply SliceStable_sorted; [exact less_asym|exact less_negtrans].
  - unfold matched_list. by rewrite !SliceStable_perm, Hp.
Qed.

Lemma modified_perm (l l' : list Strategy) m :
  l ≡ₚ l' →
  foldl (λ m v, let stamp := UnixMilli (strategy_UpdatedAt v) in if m <? stamp then stamp else m) m l
  = foldl (λ m v, let stamp := UnixMilli (strategy_UpdatedAt v) in if m <? stamp then stamp else m) m l'.
Proof.
  intros Hp. revert m. induction Hp as [|x l l' _ IH|x y l|l1 l2 l3 _ IH1 _ IH2]; intros m; cbn; [done|apply IH| |].
  - f_equal. assert (Hmax : ∀ a b, (if a <? b then b else a) = Z.max a b) by (intros a b; destruct (Z.ltb_spec a b); lia).
    rewrite !Hmax. lia.
  - by rewrite IH1.
Qed.

Lemma reset_all_perm order order' l l' :
  ranges_over order → ranges_over order' → l ≡ₚ l' →
  foldl (λ m s, reset_options format_g (order s) m) ∅ l = foldl (λ m s, reset_options format_g (order' s) m) ∅ l'.
Proof.
  intros Ho Ho' Hp. apply map_eq. intros o. rewrite !reset_all_lookup. apply decide_ext.
  rewrite !Exists_exists. setoid_rewrite Hp. setoid_rewrite (λ s, Ho s). by setoid_rewrite (λ s, Ho' s).
Qed.

(** C40: the strategy in force for a device does not depend on the order in which
    Go ranges over the settings maps, provided no strategy for the device sets one
    client option by two settings (which validation does not ensure:
    [client_option_depends_on_order]), nor on the order in which the strategies
    are listed, provided those for the device differ in rank (priority, scope or
    time of the last change). *)
Theorem Resolve_deterministic order1 order2 order1' order2' values values' device groups :
  ranges_over order1 → ranges_over order2 → ranges_over order1' → ranges_over order2' →
  (∀ s, applies values device groups s → distinct_options s) →
  values' = values ∨ values' ≡ₚ values ∧ distinct_ranks values device groups →
  Resolve format_g order1 order2 values device groups = Resolve format_g order1' order2' values' device groups.
Proof.
  intros H1 H2 H1' H2' Hd Hv.
  assert (Hp : values ≡ₚ values') by (destruct Hv as [->|[-> _]]; done).
  assert (Hm : matched_list values' device groups = matched_list values device groups).
  { destruct Hv as [->|[Hp' Hr]]; [done|]. by apply matched_list_perm. }
  unfold Resolve. fold (matched_list values device groups) (matched_list values' device groups). rewrite Hm. f_equal.
  - apply modified_perm. by rewrite Hp.
  - rewrite (reset_all_perm order1 order1' _ (filter (λ v, Is_true (matches v device groups)) values')) by (done || by rewrite Hp).
    apply foldl_ext_in. intros m s Hs%elem_of_matched. by rewrite !set_options_eq by auto.
  - apply foldl_ext_eq. intros m s. by rewrite !set_settings_eq.
Qed.

(** an option that a strategy for the device mentions, but that no enabled
    one sets, is sent to the client as the empty string, which resets it: a
    strategy that is disabled does not leave its values behind. *)
Theorem withdrawn_option_reset order1 order2 values device groups s o :
  ranges_over order1 → ranges_over order2 →
  s ∈ values → matches s device groups = true →
  o ∈ (options_of format_g (map_to_list (strategy_Settings s))).*1 →
  (∀ s', applies values device groups s' → o ∉ (options_of format_g (map_to_list (strategy_Settings s'))).*1) →
  result_ConfigOptions (Resolve format_g order1 order2 values device groups) !! o = Some "".
Proof.
  intros H1 H2 Hs Hm Ho Hno. unfold Resolve. cbn [result_ConfigOptions].
  fold (matched_list values device groups). rewrite options_lookup_default.
  - rewrite reset_all_lookup, decide_True; [done|]. apply Exists_exists. exists s.
    split; [apply list_elem_of_filter; by rewrite Is_true_true|by rewrite (H1 s)].
  - intros s' Hs'%elem_of_matched. rewrite (H2 s'). by apply Hno.
Qed.

Lemma validate_member settings key raw :
  validate_settings settings = Ok tt → (key, raw) ∈ settings → validate_setting key raw = Ok tt.
Proof.
  induction settings as [|[k r] l IH]; [set_solver|]. cbn.
  destruct (validate_setting k r) as [[]|] eqn:Hv; [|done].
  intros Hl [[= -> ->]|Hin]%elem_of_cons; auto.
Qed.

Lemma TrimSpace_le (v : string) : (∀ v, len (trim_nonascii v) ≤ len v) → len (TrimSpace v) ≤ len v.
Proof.
  intros Htrim. unfold TrimSpace. destruct (is_ascii v); [|done].
  rewrite !len_bytes, bytes_of_of_bytes. unfold trim_bytes.
  assert (Hd : ∀ l : bytes, (length (drop_while space_byte l) ≤ length l)%nat).
  { induction l as [|a l IH]; cbn; [lia|]. destruct (space_byte a); cbn; lia. }
  rewrite length_reverse. pose proof (Hd (reverse (drop_while space_byte (bytes_of v)))) as H1.
  rewrite length_reverse in H1. pose proof (Hd (bytes_of v)). lia.
Qed.

(** A key outside the schema that validates is a prefixed option. *)
Lemma rustdesk_option_valid key raw :
  HasPrefix key "rustdesk." = true → len key ≤ 136 → ContainsBlank key = false →
  match raw with VBool _ | VFloat64 _ => True | VString v => len v ≤ 2048 | VOther => False end →
  is_Some (rustdesk_option format_g key raw) ↔ key ≠ "rustdesk.".
Proof.
  intros Hp Hlen Hblank Hraw. unfold rustdesk_option. rewrite Hp. cbn [negb].
  pose proof (TrimPrefix_split _ _ Hp) as Hkey. set (o := TrimPrefix key "rustdesk.") in *.
  assert (len o ≤ 127) by (rewrite Hkey, len_bytes, bytes_of_app, length_app in Hlen; rewrite len_bytes; cbn in Hlen; lia).
  assert (ContainsBlank o = false) as ->.
  { rewrite Hkey in Hblank. unfold ContainsBlank in *. rewrite bytes_of_app, existsb_app in Hblank.
    by apply orb_false_iff in Hblank as [_ ?]. }
  destruct (Z.ltb_spec 128 (len o)); [lia|]. rewrite !orb_false_r.
  case_bool_decide as Ho; [rewrite Ho in Hkey; split; [by intros []|done]|].
  split; [|intros _; destruct raw as [b|v|bits|]; try done; destruct (Z.leb_spec (len v) 2048); [done|lia]].
  intros _ ->. by apply Ho.
Qed.

(** what passes validation reaches the client: every setting that
    ValidateSettings accepts is a client option, but for the two settings only
    the server reads and the bare prefix "rustdesk.". *)
Theorem valid_settings_are_options settings key raw :
  (∀ v, len (trim_nonascii v) ≤ len v) →
  ValidateSettings settings = Ok tt → (key, raw) ∈ settings →
  is_Some (clientOption format_g key raw)
  ↔ key ∉ ["require_login"; "require_managed_device"; "rustdesk."].
Proof.
  intros Htrim Hval Hin. unfold ValidateSettings in Hval. destruct (_ || _); [done|].
  apply (validate_member _ _ _ Hval) in Hin. clear Hval settings.
  destruct (decide (key ∈ setting_def_Key <$> definitions)) as [Hk|Hk].
  - cbn in Hk. repeat (apply elem_of_cons in Hk as [->|Hk]); [..|by apply elem_of_nil in Hk].
    all: destruct raw as [b|v|bits|]; try (by (cbn in Hin; discriminate Hin)).
    all: try (split; [intros [? [=]]|intros []; set_solver]); try (split; [set_solver|intros _; by eexists]).
    all: split; [set_solver|intros _].
    all: assert (Hv : (if 2048 <? len v then Err (ErrText "setting must be a string") else Ok tt) = Ok tt) by exact Hin.
    all: assert (Ho : ∀ o, is_Some (stringOption o (VString v))).
    1, 3, 5: intros o; unfold stringOption; pose proof (TrimSpace_le v Htrim);
      destruct (Z.ltb_spec 2048 (len v)), (Z.leb_spec (len (TrimSpace v)) 2048); (done || lia).
    all: first [exact (Ho "custom-rendezvous-server")|exact (Ho "relay-server")|exact (Ho "api-server")].
  - unfold validate_setting in Hin. destruct (head _) as [d|] eqn:Hd; cbn in Hin.
    { destruct Hk. apply select_one_Some in Hd as [Hd <-]. by apply list_elem_of_fmap_2. }
    cbn in Hk. destruct (_ || _) eqn:Hg in Hin; [done|]. simplify_bool.
    assert (Hraw : match raw with VBool _ | VFloat64 _ => True | VString v => len v ≤ 2048 | VOther => False end).
    { destruct raw as [b|v|bits|]; try done. destruct (Z.ltb_spec 2048 (len v)); done. }
    rewrite not_elem_of_cons, not_elem_of_cons, list_elem_of_singleton.
    rewrite <-(rustdesk_option_valid key raw) by done.
    assert (clientOption format_g key raw = rustdesk_option format_g key raw) as ->; [|set_solver].
    unfold clientOption, assoc. rewrite !filter_none; cbn.
    1: { rewrite !bool_decide_eq_false_2 by set_solver. by destruct raw. }
    all: intros [k x] Hx; cbn; intros ->; cbn in Hx; set_solver.
Qed.
End Theorems.

(** ** Witnesses *)

Definition plain_order (s : Strategy) : list (string * any) := map_to_list (strategy_Settings s).
Definition reverse_order (s : Strategy) : list (string * any) := reverse (plain_order s).

Lemma plain_order_ranges : ranges_over plain_order.
Proof. by intros s. Qed.
Lemma reverse_order_ranges : ranges_over reverse_order.
Proof. intros s. unfold reverse_order. by rewrite reverse_Permutation. Qed.

Definition ex_device : Device :=
  mkDevice "d1" "" "" "" "" "" "" "" "" "" false 0 "u1" "" [] "" true "" None 0 None.
Definition ex_strategy (id scope target : string) (priority : Z) (settings : list (string * any))
    (enabled : bool) : Strategy :=
  mkStrategy id "name" scope target priority (list_to_map settings) enabled 0 0 false.
Definition ex_strategies : list Strategy := [
  ex_strategy "st1" "device" "d1" 5 [("force_relay", VBool false)] true;
  ex_strategy "st2" "global" "" 9 [("force_relay", VBool true)] true;
  ex_strategy "st3" "user" "u1" 20 [("allow_clipboard", VBool false)] false ].

(** two settings of one strategy may be the same client option, as
    allow_remote_control and rustdesk.enable-keyboard are, and then the value
    the client gets depends on the order Go ranges over the map. *)
Theorem client_option_depends_on_order :
  let s := ex_strategy "st1" "global" "" 5
             [("allow_remote_control", VBool true); ("rustdesk.enable-keyboard", VBool false)] true in
  let resolve order := Resolve (H:=ascii_unicode) (λ _, "") plain_order order [s] ex_device ∅ in
  ValidateSettings (plain_order s) = Ok tt
  ∧ result_ConfigOptions (resolve plain_order) !! "enable-keyboard"
    ≠ result_ConfigOptions (resolve reverse_order) !! "enable-keyboard".
Proof. split; [vm_compute; reflexivity|]. vm_compute. discriminate. Qed.

Lemma Resolve_winner_witness :
  ∃ s, applies ex_strategies ex_device ∅ s ∧ strategy_Settings s !! "force_relay" = Some (VBool true).
Proof.
  destruct (Resolve_winner (H:=ascii_unicode) (λ _, "") plain_order reverse_order ex_strategies ex_device ∅
              "force_relay" reverse_order_ranges) as [_ Hwin].
  destruct (Hwin (VBool true)) as (s & Hs & Hv & _); [vm_compute; reflexivity|]. by exists s.
Defined.

Lemma Resolve_deterministic_witness :
  Resolve (H:=ascii_unicode) (λ _, "") plain_order plain_order ex_strategies ex_device ∅
  = Resolve (H:=ascii_unicode) (λ _, "") reverse_order reverse_order (reverse ex_strategies) ex_device ∅.
Proof.
  apply (Resolve_deterministic (H:=ascii_unicode) (λ _, ""));
    try apply plain_order_ranges; try apply reverse_order_ranges.
  - intros s (Hs & _). revert s Hs. apply Forall_forall.
    apply (bool_decide_eq_true_1 (Forall (λ s, NoDup _) _)). vm_compute. reflexivity.
  - right. split; [apply reverse_Permutation|]. intros s s' (Hs & _) (Hs' & _) H1 H2. cbn in Hs, Hs'.
    repeat (apply elem_of_cons in Hs as [->|Hs]); [..|by apply not_elem_of_nil in Hs].
    all: repeat (apply elem_of_cons in Hs' as [->|Hs']); [..|by apply not_elem_of_nil in Hs'].
    all: first [reflexivity|by vm_compute in H1|by vm_compute in H2].
Defined.

Lemma withdrawn_option_reset_witness :
  result_ConfigOptions (Resolve (H:=ascii_unicode) (λ _, "") plain_order plain_order ex_strategies ex_device ∅)
    !! "enable-clipboard" = Some "".
Proof.
  apply (withdrawn_option_reset (H:=ascii_unicode) (λ _, "") plain_order plain_order ex_strategies ex_device ∅
           (ex_strategy "st3" "user" "u1" 20 [("allow_clipboard", VBool false)] false));
    [apply plain_order_ranges..|set_solver|vm_compute; reflexivity|vm_compute; left|].
  intros s (Hs & _ & Hen & _). cbn in Hs. repeat (apply elem_of_cons in Hs as [->|Hs]); [..|set_solver].
  3: by vm_compute in Hen.
  all: apply (bool_decide_eq_true_1 (_ ∉ _)); vm_compute; reflexivity.
Defined.

Lemma valid_settings_are_options_witness :
  is_Some (clientOption (H:=ascii_unicode) (λ _, "") "rustdesk.theme" (VString "dark")).
Proof.
  apply (valid_settings_are_options (H:=ascii_unicode) (λ _, "") [("rustdesk.theme", VString "dark")]);
    [done|vm_compute; reflexivity|set_solver|set_solver].
Defined.
