(* ===== verification/Devices.v ===== *)
(** * Devices, audit and connections: theorems

    A deployed device keeps its identity, bulk edits normalise tags, the audit
    summary counts every event once, and connection reports commute. *)

From S2P Require Export StoreDevices.
From S2P Require Import Sample.

Section Devices.
Context `{Unicode} `{SqlText}.

(** ** Histories of device operations *)

Inductive device_op :=
| OpUpsertDevice (v : Device)
| OpUpdateDeviceManagement (ttl : duration) (clock : time) (id alias groupID : string) (tags : list string)
| OpBulkUpdateDevices (ids : list string) (groupID : option string) (addTags removeTags : list string)
| OpSetDeviceArchived (ttl : duration) (clock : time) (id : string) (archived : bool) (now : time)
| OpDeleteArchivedDevice (id : string)
| OpImportDeviceManagement (values : list DeviceManagementImport).

Definition run_device_op (op : device_op) : M unit :=
  match op with
  | OpUpsertDevice v => UpsertDevice v
  | OpUpdateDeviceManagement ttl clock id a g t => discard (UpdateDeviceManagement ttl clock id a g t)
  | OpBulkUpdateDevices ids g a r => BulkUpdateDevices ids g a r
  | OpSetDeviceArchived ttl clock id a now => discard (SetDeviceArchived ttl clock id a now)
  | OpDeleteArchivedDevice id => DeleteArchivedDevice id
  | OpImportDeviceManagement vs => ImportDeviceManagement vs
  end.

Definition run_device_ops (ops : list device_op) (w : world) : world :=
  foldl (λ w op, snd (run_device_op op w)) w ops.

(** A row keeps its key; what deployment fixed stays fixed, and what is known
    of it is never lost. *)
Definition device_step (v v' : Device) : Prop :=
  device_RustDeskID v = device_RustDeskID v'
  ∧ (device_Deployed v = true →
     device_Deployed v' = true ∧ device_ClientUUID v' = device_ClientUUID v)
  ∧ (device_OwnerUserID v ≠ "" → device_OwnerUserID v' ≠ "")
  ∧ (device_PublicKey v ≠ "" → device_PublicKey v' ≠ "")
  ∧ device_CreatedAt v' = device_CreatedAt v.

Lemma device_step_refl v : device_step v v.
Proof. by split_and!. Qed.

Lemma device_step_trans v1 v2 v3 : device_step v1 v2 → device_step v2 v3 → device_step v1 v3.
Proof. unfold device_step. naive_solver congruence. Qed.

Lemma nonempty_or_kept new old : old ≠ "" → nonempty_or new old ≠ "".
Proof. unfold nonempty_or. by case_bool_decide. Qed.

Lemma merge_device_step x o : device_step o (merge_device x o).
Proof.
  unfold device_step, merge_device. cbn. split_and!; try done; try (by apply nonempty_or_kept).
  by intros ->.
Qed.

(** The device [v] is still there, as [device_step] allows. *)
Definition still_there (v : Device) (d : DB) : Prop :=
  devices_ok d ∧ ∃ v', v' ∈ t_devices d ∧ device_step v v'.

Lemma still_there_update v d d' P `{∀ x : Device, Decision (P x)} f :
  still_there v d → t_devices d' = update_where P f (t_devices d) →
  (∀ x, device_step x (f x)) → still_there v d'.
Proof.
  intros [Hok (v' & Hv' & Hs)] E Hf. split.
  - unfold devices_ok. rewrite E, fmap_update_where; [done|]. intros r _. by destruct (Hf r).
  - exists (if decide (P v') then f v' else v'). rewrite E. split.
    + apply elem_of_update_where. by exists v'.
    + case_decide; [by eapply device_step_trans|done].
Qed.

Lemma still_there_upsert v d d' id merge row :
  still_there v d → devices_ok d' →
  t_devices d' = (if decide (Exists (λ r, device_RustDeskID r = id) (t_devices d))
                  then update_where (λ r, device_RustDeskID r = id) merge (t_devices d)
                  else t_devices d ++ [row]) →
  (∀ x, device_step x (merge x)) → still_there v d'.
Proof.
  intros Hv Hok E Hm. case_decide; [by eapply still_there_update|].
  destruct Hv as [_ (v' & ? & ?)]. split; [done|]. exists v'. rewrite E. split; [set_solver|done].
Qed.

Lemma still_there_delete v d d' P `{∀ x : Device, Decision (P x)} :
  still_there v d → t_devices d' = delete_where P (t_devices d) →
  (∀ x, device_RustDeskID x = device_RustDeskID v → ¬ P x) → still_there v d'.
Proof.
  intros [Hok (v' & Hv' & Hs)] E Hn. split.
  - unfold devices_ok. rewrite E. by apply NoDup_fmap_delete_where.
  - exists v'. rewrite E, elem_of_delete_where. split; [|done]. split; [done|]. apply Hn.
    by destruct Hs as [-> _].
Qed.

Definition deletes (id : string) (op : device_op) : Prop :=
  match op with OpDeleteArchivedDevice i => i = id | _ => False end.

Ltac device_leaf :=
  first
    [ assumption
    | eapply still_there_update; [eassumption|by read_tables|unfold device_step; intros []; by repeat case_match]
    | eapply still_there_upsert; [eassumption|assumption|by read_tables|apply merge_device_step] ].

Lemma device_op_keeps v op d h :
  still_there v d → ¬ deletes (device_RustDeskID v) op →
  wp true (run_device_op op) (λ _ d' _, still_there v d') d h.
Proof.
  intros Hv Hop. destruct op as [x|ttl clock id a g t|ids g a r|ttl clock id a now|id|vs];
    cbn [run_device_op].
  - unfold UpsertDevice. wp_go; device_leaf.
  - unfold UpdateDeviceManagement, ListDevices, find_device. wp_go; device_leaf.
  - unfold BulkUpdateDevices. wp_go; [device_leaf|].
    eapply wp_mono; [apply (wp_for_each (still_there v)); [done|]|
                     intros [|] ???; [split; [done|intros ?; done]|done]].
    intros id d1 h1 _ H1. wp_go; device_leaf.
  - unfold SetDeviceArchived, ListDevices, find_device. wp_go; device_leaf.
  - unfold DeleteArchivedDevice. wp_go; try assumption;
      (eapply still_there_delete; [eassumption|by read_tables|]; cbn in Hop; naive_solver).
  - unfold ImportDeviceManagement. wp_go; [device_leaf|].
    eapply wp_mono; [apply (wp_for_each (still_there v)); [done|]|
                     intros [|] ???; [split; [done|intros ?; done]|done]].
    intros id d1 h1 _ H1. wp_go; device_leaf.
Qed.

(** in every history of device operations that does not delete the device,
    whatever statements fail, it keeps its row: a deployed device stays deployed
    with the same client UUID, and a known owner or public key is never lost. *)
Theorem registered_device_kept ops w v :
  devices_ok (w_db w) → v ∈ t_devices (w_db w) →
  Forall (λ op, ¬ deletes (device_RustDeskID v) op) ops →
  ∃ v', v' ∈ t_devices (w_db (run_device_ops ops w)) ∧ device_step v v'.
Proof.
  intros Hok Hv Hops.
  assert (Hs : still_there v (w_db w)) by (split; [done|]; exists v; split; [done|apply device_step_refl]).
  clear Hok Hv. revert w Hs. induction Hops as [|op ops Hop _ IH]; intros w Hs; [apply Hs|].
  apply IH. apply (wp_run (F:=true) (λ _ d' _, still_there v d') (run_device_op op) w I).
  by apply device_op_keeps.
Qed.

(** ** Bulk edits *)

Lemma elem_of_merge_tags removed seen tags t :
  t ∈ merge_tags removed seen tags
  ↔ t ≠ "" ∧ t ∉ removed ∧ t ∉ seen ∧ ∃ x, x ∈ tags ∧ t = TrimSpace x.
Proof.
  revert seen. induction tags as [|x tags IH]; intros seen; cbn [merge_tags]; [set_solver|].
  assert (Hex : (∃ y, y ∈ x :: tags ∧ t = TrimSpace y) ↔ t = TrimSpace x ∨ ∃ y, y ∈ tags ∧ t = TrimSpace y)
    by (setoid_rewrite elem_of_cons; naive_solver).
  rewrite Hex. clear Hex. case_bool_decide as Hx; rewrite ?elem_of_cons, IH, ?elem_of_cons.
  - destruct Hx as (? & ? & ?). destruct (decide (t = TrimSpace x)) as [->|]; tauto.
  - split; [tauto|]. intros (H1 & H2 & H3 & [->|H4]); [by destruct Hx|done].
Qed.

Lemma NoDup_merge_tags removed seen tags : NoDup (merge_tags removed seen tags).
Proof.
  revert seen. induction tags as [|x tags IH]; intros seen; cbn [merge_tags]; [constructor|].
  case_bool_decide; [|done]. constructor; [|done]. rewrite elem_of_merge_tags. set_solver.
Qed.

(** What a bulk edit makes of one row. *)
Definition bulk_edit (ids : list string) (groupID : option string) (addTags removeTags : list string)
    (v : Device) : Device :=
  if decide (device_RustDeskID v ∈ ids)
  then v <| device_GroupID := default (device_GroupID v) groupID |>
         <| device_Tags := merge_tags (TrimSpace <$> removeTags) [] (device_Tags v ++ addTags) |>
  else v.

Lemma bulk_edit_cons id ids g a r (t : list Device) current :
  id ∉ ids → NoDup (device_RustDeskID <$> t) →
  select_one (λ v, device_RustDeskID v = id) t = Some current →
  bulk_edit ids g a r <$> update_where (λ v, device_RustDeskID v = id)
    (λ v, match g with
          | None => v <| device_Tags := merge_tags (TrimSpace <$> r) [] (device_Tags current ++ a) |>
          | Some g => v <| device_GroupID := g |>
                       <| device_Tags := merge_tags (TrimSpace <$> r) [] (device_Tags current ++ a) |>
          end) t
  = bulk_edit (id :: ids) g a r <$> t.
Proof.
  intros Hid Hnd [Hc Hk]%select_one_Some. unfold update_where. rewrite <- list_fmap_compose.
  apply list_fmap_ext. intros i v Hv%list_elem_of_lookup_2. cbn. unfold bulk_edit.
  destruct (decide (device_RustDeskID v = id)) as [Hv'|Hv'].
  - assert (v = current) as -> by (by eapply (unique_row device_RustDeskID); [..|congruence]).
    rewrite (decide_True (P := _ ∈ id :: ids)) by set_solver.
    destruct g; cbn; rewrite decide_False by congruence; [done|by destruct current].
  - destruct (decide (device_RustDeskID v ∈ ids)); [rewrite decide_True by set_solver|
      rewrite decide_False by set_solver]; done.
Qed.

Lemma bulk_loop F g a r ids d h :
  devices_ok d → NoDup ids →
  wp F (for_each (λ id,
          current ← query_row (λ d, device_Tags <$>
                      select_one (λ v, device_RustDeskID v = id) (t_devices d));
          let merged := merge_tags (TrimSpace <$> r) [] (current ++ a) in
          discard (sql_update t_devices (λ v, device_RustDeskID v = id)
            (λ v, match g with
                  | None => v <| device_Tags := merged |>
                  | Some g => v <| device_GroupID := g |> <| device_Tags := merged |>
                  end))) ids)
    (λ res d' _, match res with
      | Ok _ => t_devices d' = bulk_edit ids g a r <$> t_devices d
                ∧ ∀ id, id ∈ ids → id ∈ device_RustDeskID <$> t_devices d
      | Err _ => F = true ∨ ∃ id, id ∈ ids ∧ id ∉ device_RustDeskID <$> t_devices d
      end) d h.
Proof.
  intros Hok Hnd. revert d h Hok. induction Hnd as [|id ids Hid _ IH]; intros d h Hok; cbn [for_each].
  { apply wp_ret. split; [|set_solver]. symmetry. rewrite <- (list_fmap_id (t_devices d)) at 2.
    apply list_fmap_ext. intros. unfold bulk_edit. by rewrite decide_False by set_solver. }
  assert (Hkeys : ∀ t current, device_RustDeskID <$> update_where (λ v, device_RustDeskID v = id)
      (λ v, match g with
            | None => v <| device_Tags := merge_tags (TrimSpace <$> r) [] (current ++ a) |>
            | Some g => v <| device_GroupID := g |>
                         <| device_Tags := merge_tags (TrimSpace <$> r) [] (current ++ a) |>
            end) t = device_RustDeskID <$> t).
  { intros t c. apply fmap_update_where. intros. by case_match. }
  wp_go; try (by left).
  - apply fmap_Some in Heqo as (cur & Hcur & ->).
    eapply wp_mono; [apply IH; exact H1|]. cbn. intros res d' h' Hres.
    assert (Hk : device_RustDeskID <$> t_devices d0 = device_RustDeskID <$> t_devices d)
      by (read_tables; apply Hkeys).
    rewrite Hk in Hres. destruct res as [[]|e].
    + destruct Hres as [-> Hin]. read_tables. rewrite bulk_edit_cons by done. split; [done|].
      intros i [->|Hi]%elem_of_cons; [|auto]. apply select_one_Some in Hcur as [? <-].
      by apply list_elem_of_fmap_2.
    + destruct Hres as [?|(i & ? & ?)]; [by left|right]. exists i. set_solver.
  - exfalso. refute_constraint. hnf. unfold devices_ok. read_tables. by rewrite Hkeys.
  - right. exists id. split; [set_solver|]. apply fmap_None in Heqo. rewrite select_one_None in Heqo.
    intros (v & -> & Hv)%list_elem_of_fmap. by apply (Heqo v).
Qed.

Lemma BulkUpdateDevices_spec F ids g a r d h :
  devices_ok d → NoDup ids →
  wp F (BulkUpdateDevices ids g a r)
    (λ res d' _, match res with
      | Ok _ => t_devices d' = bulk_edit ids g a r <$> t_devices d
                ∧ ∀ id, id ∈ ids → id ∈ device_RustDeskID <$> t_devices d
      | Err _ => d' = d ∧ (F = true ∨ ∃ id, id ∈ ids ∧ id ∉ device_RustDeskID <$> t_devices d)
      end) d h.
Proof.
  intros Hok Hnd. unfold BulkUpdateDevices. apply wp_tx; [by auto|].
  eapply wp_mono; [by apply bulk_loop|]. intros [[]|e] d' h' Hr; [|done]. by split; [|auto].
Qed.

(** a bulk edit is all or nothing: it fails and changes nothing when one of
    the devices is unknown, and otherwise, unless the database fails, edits
    exactly the rows of these devices; their tags are then the old and the added
    tags, trimmed, without the empty one, the removed ones and duplicates. *)
Theorem BulkUpdateDevices_effect ids g a r w :
  devices_ok (w_db w) → NoDup ids →
  (is_ok (BulkUpdateDevices ids g a r w).1 = true →
     t_devices (w_db (BulkUpdateDevices ids g a r w).2)
     = bulk_edit ids g a r <$> t_devices (w_db w))
  ∧ (is_ok (BulkUpdateDevices ids g a r w).1 = false →
     w_db (BulkUpdateDevices ids g a r w).2 = w_db w)
  ∧ (w_faults w = [] →
     (is_ok (BulkUpdateDevices ids g a r w).1 = true
      ↔ ∀ id, id ∈ ids → id ∈ device_RustDeskID <$> t_devices (w_db w)))
  ∧ ∀ v, device_RustDeskID v ∈ ids →
      NoDup (device_Tags (bulk_edit ids g a r v))
      ∧ ∀ t, t ∈ device_Tags (bulk_edit ids g a r v)
             ↔ t ≠ "" ∧ t ∉ TrimSpace <$> r ∧ ∃ x, x ∈ device_Tags v ++ a ∧ t = TrimSpace x.
Proof.
  intros Hok Hnd.
  pose proof (wp_run (F:=true) _ _ w I (BulkUpdateDevices_spec true ids g a r _ _ Hok Hnd)) as Hr.
  split_and!.
  - intros His. destruct (_.1); [apply Hr|done].
  - intros His. destruct (_.1); [done|apply Hr].
  - intros Hfs. pose proof (wp_run (F:=false) _ _ w Hfs
      (BulkUpdateDevices_spec false ids g a r _ _ Hok Hnd)) as Hr'.
    destruct (_.1); cbn; [by split; [intros _; apply Hr'|]|]. split; [done|]. intros Hall.
    destruct Hr' as [_ [?|(id & ? & [])]]; [done|by apply Hall].
  - intros v Hv. unfold bulk_edit. rewrite decide_True by done.
    cbn [device_Tags set_field]. split; [apply NoDup_merge_tags|]. intros t.
    cbn. rewrite elem_of_merge_tags. set_solver.
Qed.

(** ** Audit totals *)

(** The sum of the counts of the groups whose key satisfies [P]. *)
Definition group_sum (P : string * string → bool) (l : list (string * string * Z)) : Z :=
  foldr (λ g acc, (if P g.1 then g.2 else 0) + acc) 0 l.

Definition event_key (e : AuditEvent) : string * string := (audit_Type e, audit_Result e).

Lemma group_sum_bump P key l :
  NoDup (l.*1) → Exists (λ g : string * string * Z, g.1 = key) l →
  group_sum P ((λ g : string * string * Z, if decide (g.1 = key) then (g.1, g.2 + 1) else g) <$> l)
  = (if P key then 1 else 0) + group_sum P l.
Proof.
  induction l as [|g l IH]; intros Hnd Hex; [by inversion Hex|].
  cbn in Hnd. apply NoDup_cons in Hnd as [Hg Hnd]. cbn [group_sum foldr fmap list_fmap].
  destruct (decide (g.1 = key)) as [<-|Hne].
  - cbn. assert (Hid : (λ g0 : string * string * Z, if decide (g0.1 = g.1) then (g0.1, g0.2 + 1) else g0) <$> l = l).
    { rewrite <- (list_fmap_id l) at 2. apply list_fmap_ext. intros i g0 Hg0%list_elem_of_lookup_2.
      rewrite decide_False; [done|]. intros Heq. apply Hg. rewrite <- Heq. by apply list_elem_of_fmap_2. }
    fold (group_sum P). rewrite Hid. unfold group_sum. destruct (P g.1); lia.
  - apply Exists_cons in Hex as [?|Hex]; [done|]. specialize (IH Hnd Hex).
    unfold group_sum in *. rewrite IH. lia.
Qed.

Lemma group_count_sum rows :
  NoDup ((group_count rows).*1)
  ∧ ∀ P, group_sum P (group_count rows) = count_where (λ e, P (event_key e) = true) rows.
Proof.
  induction rows as [|e rows [Hnd IH]]; [by split; [constructor|]|]. cbn [group_count].
  fold (event_key e). assert (Hc : ∀ P, count_where (λ e, P (event_key e) = true) (e :: rows)
    = (if P (event_key e) then 1 else 0) + count_where (λ e, P (event_key e) = true) rows).
  { intros P. unfold count_where. rewrite filter_cons.
    destruct (P (event_key e)); [rewrite decide_True by done|rewrite decide_False by done]; cbn; lia. }
  destruct (decide (Exists _ (group_count rows))) as [Hex|Hex].
  - split; [|intros P; by rewrite group_sum_bump, IH, Hc].
    rewrite <- list_fmap_compose.
    replace (_ <$> group_count rows) with ((group_count rows).*1); [done|].
    apply list_fmap_ext. intros _ g _. cbn. by case_decide.
  - split; [|intros P; rewrite Hc, <- IH; done]. cbn. constructor; [|done].
    intros (g & Heq & Hg)%list_elem_of_fmap. apply Hex, Exists_exists. by exists g.
Qed.

Lemma summary_fold l r :
  let r' := foldl summary_add r l in
  asummary_Total r' = asummary_Total r + group_sum (λ _, true) l
  ∧ asummary_AllowedConnections r'
    = asummary_AllowedConnections r + group_sum (λ k, bool_decide (k.1 = "connection_allowed")) l
  ∧ asummary_DeniedConnections r'
    = asummary_DeniedConnections r + group_sum (λ k, bool_decide (k.1 = "connection_denied")) l
  ∧ asummary_FailedLogins r'
    = asummary_FailedLogins r + group_sum (λ k, bool_decide (k.1 = "login_failed")) l
  ∧ (∀ t, default 0 (asummary_ByType r' !! t)
          = default 0 (asummary_ByType r !! t) + group_sum (λ k, bool_decide (k.1 = t)) l)
  ∧ (∀ t, default 0 (asummary_ByResult r' !! t)
          = default 0 (asummary_ByResult r !! t) + group_sum (λ k, bool_decide (k.2 = t)) l).
Proof.
  revert r. induction l as [|[[ty re] n] l IH]; intros r; cbn [foldl group_sum foldr].
  { cbn. split_and!; intros; lia. }
  destruct (IH (summary_add r (ty, re, n))) as (E1 & E2 & E3 & E4 & E5 & E6).
  assert (Hlk : ∀ (m : gmap string Z) k t, default 0 (<[k:=default 0 (m !! k) + n]> m !! t)
    = default 0 (m !! t) + if bool_decide (k = t) then n else 0).
  { intros m k t. case_bool_decide as Hk; [subst; by rewrite lookup_insert_eq|].
    rewrite lookup_insert_ne by done. lia. }
  cbn in *. split_and!; intros; rewrite ?E1, ?E2, ?E3, ?E4, ?E5, ?E6, ?Hlk; unfold group_sum;
    repeat case_bool_decide; lia.
Qed.

(** the audit summary counts every selected event exactly once: its total is
    the number of events, and each counter, by kind, by type and by result, is
    the number of the events of that kind. *)
Theorem AuditSummary_totals q w r :
  (AuditSummary_of q w).1 = Ok r →
  let rows := audit_rows q (w_db w) in
  asummary_Total r = Z.of_nat (length rows)
  ∧ asummary_AllowedConnections r = count_where (λ e, audit_Type e = "connection_allowed") rows
  ∧ asummary_DeniedConnections r = count_where (λ e, audit_Type e = "connection_denied") rows
  ∧ asummary_FailedLogins r = count_where (λ e, audit_Type e = "login_failed") rows
  ∧ (∀ t, default 0 (asummary_ByType r !! t) = count_where (λ e, audit_Type e = t) rows)
  ∧ (∀ t, default 0 (asummary_ByResult r !! t) = count_where (λ e, audit_Result e = t) rows).
Proof.
  unfold AuditSummary_of, query, exec. destruct (fault w); [done|]. cbn [fst]. intros [= <-].
  set (rows := audit_rows q (w_db w)). cbn zeta.
  destruct (group_count_sum rows) as [_ Hsum].
  destruct (summary_fold (group_count rows) (mkAuditSummary 0 0 0 0 ∅ ∅)) as (-> & -> & -> & -> & E5 & E6).
  rewrite !Hsum. cbn. split_and!; try (intros t; rewrite ?E5, ?E6, Hsum; cbn; rewrite lookup_empty; cbn);
    try (apply count_where_ext; intros e; cbn; by rewrite bool_decide_eq_true).
  unfold count_where. by rewrite filter_all.
Qed.
End Devices.

(** ** Connection reports *)

(** When a connection started and was last seen, as far as it is known. *)
Definition window (key : string) (d : DB) : option (Z * Z) :=
  (λ r, (conn_StartedAt r, conn_LastSeenAt r)) <$>
  select_one (λ r, conn_Key r = key) (t_connection_records d).

(** A report widens the window of its connection. *)
Definition widen (key : string) (o : option (Z * Z)) (v : ConnectionRecord) : option (Z * Z) :=
  if decide (conn_Key v = key) then
    let s := millis (conn_StartedAt v) in let l := millis (conn_LastSeenAt v) in
    match o with Some (s0, l0) => Some (Z.min s s0, Z.max l l0) | None => Some (s, l) end
  else o.

Lemma widen_comm key o v1 v2 : widen key (widen key o v1) v2 = widen key (widen key o v2) v1.
Proof. unfold widen. repeat case_decide; destruct o as [[]|]; try done; f_equal; f_equal; lia. Qed.

Lemma widen_Permutation key o vs vs' :
  vs ≡ₚ vs' → foldl (widen key) o vs = foldl (widen key) o vs'.
Proof.
  intros Hp. revert o. induction Hp; intros o; cbn; [done|auto|by rewrite widen_comm|congruence].
Qed.

Lemma UpsertConnection_spec v d h :
  connection_records_ok d →
  wp false (UpsertConnection v)
    (λ r d' _, r = Ok tt ∧ connection_records_ok d'
               ∧ ∀ key, window key d' = widen key (window key d) v) d h.
Proof.
  intros Hok. unfold UpsertConnection. wp_go.
  - split; [done|]. split; [exact H|]. intros key. unfold window, widen. read_tables.
    destruct (decide (Exists _ _)) as [Hex|Hex].
    + rewrite select_one_update by (cbn; naive_solver).
      destruct (select_one _ _) as [r|] eqn:Hr; cbn.
      * apply select_one_Some in Hr as [? <-]. destruct (decide (conn_Key v = conn_Key r));
          [rewrite decide_True by done|by rewrite decide_False]. cbn.
        f_equal. f_equal; case_match; lia.
      * rewrite select_one_None in Hr. rewrite decide_False; [done|]. intros <-.
        apply Exists_exists in Hex as (r & ? & ?). by apply (Hr r).
    + rewrite select_one_app, select_one_singleton. cbn.
      destruct (select_one _ _) as [r|] eqn:Hr; cbn; [|by case_decide].
      apply select_one_Some in Hr as [? <-]. rewrite decide_False; [done|]. intros Heq.
      apply Hex, Exists_exists. eauto.
  - exfalso. refute_constraint. hnf. unfold connection_records_ok. read_tables.
    destruct (decide (Exists _ _)) as [Hex|Hex]; [by apply NoDup_fmap_update_where|].
    apply NoDup_fmap_snoc. split; [done|]. intros (r & Heq & Hr)%list_elem_of_fmap.
    apply Hex, Exists_exists. by exists r.
Qed.

(** connection reports commute: without database failures every report is
    accepted, and the start and the last sight of a connection are the earliest
    and the latest reported, in whatever order the reports arrive. *)
Theorem connection_reports_commute vs vs' w :
  connection_records_ok (w_db w) → w_faults w = [] → vs ≡ₚ vs' →
  (for_each UpsertConnection vs w).1 = Ok tt
  ∧ ∀ key, window key (w_db (for_each UpsertConnection vs w).2)
           = foldl (widen key) (window key (w_db w)) vs
           ∧ window key (w_db (for_each UpsertConnection vs' w).2)
             = window key (w_db (for_each UpsertConnection vs w).2).
Proof.
  intros Hok Hfs Hp.
  assert (Hrun : ∀ l d h, connection_records_ok d → wp false (for_each UpsertConnection l)
    (λ r d' _, r = Ok tt ∧ ∀ key, window key d' = foldl (widen key) (window key d) l) d h).
  { intros l. induction l as [|v l IH]; intros d h Hd; cbn [for_each]; [by apply wp_ret|].
    apply wp_bind. eapply wp_mono; [by apply UpsertConnection_spec|]. cbn.
    intros ? d1 h1 (-> & H1 & Hw1). eapply wp_mono; [by apply IH|]. cbn. intros r d2 h2 [-> Hw2].
    split; [done|]. intros key. by rewrite Hw2, Hw1. }
  pose proof (wp_run (F:=false) _ _ w Hfs (Hrun vs _ _ Hok)) as [Hr Hw].
  pose proof (wp_run (F:=false) _ _ w Hfs (Hrun vs' _ _ Hok)) as [_ Hw'].
  split; [done|]. intros key. rewrite Hw', Hw. split; [done|]. symmetry. by apply widen_Permutation.
Qed.

(** ** Witnesses *)

Definition ex_device (id : string) : Device :=
  mkDevice id "uuid" "host" "" "" "" "" "" "" "" false 0 "u1" "" [" ops "; "db"] "key" true "u0"
    None 0 None.
Definition ex_devices : world :=
  mkWorld (empty_db <| t_devices := [ex_device "d1"; ex_device "d2"] |>) [] (NewHub "src").

Lemma ex_devices_ok : devices_ok (w_db ex_devices).
Proof. apply (bool_decide_eq_true_1 (devices_ok (w_db ex_devices))). vm_compute. reflexivity. Qed.

Lemma registered_device_kept_witness :
  ∃ v', v' ∈ t_devices (w_db (@run_device_ops ascii_unicode
          [OpUpsertDevice (ex_device "d1" <| device_ClientUUID := "other" |>);
           OpDeleteArchivedDevice "d2"] ex_devices)) ∧ device_step (ex_device "d1") v'.
Proof.
  apply (@registered_device_kept ascii_unicode).
  - exact ex_devices_ok.
  - left.
  - repeat constructor; cbn; [tauto|discriminate].
Defined.

Lemma BulkUpdateDevices_effect_witness :
  t_devices (w_db (@BulkUpdateDevices ascii_unicode ["d1"] None ["ops"; "eu"] ["db"] ex_devices).2)
  = @bulk_edit ascii_unicode ["d1"] None ["ops"; "eu"] ["db"] <$> t_devices (w_db ex_devices)
  ∧ @merge_tags ascii_unicode ["db"] [] [" ops "; "db"; "ops"; "eu"] = ["ops"; "eu"].
Proof.
  split; [|reflexivity].
  apply (@BulkUpdateDevices_effect ascii_unicode ["d1"] None ["ops"; "eu"] ["db"] ex_devices
           ex_devices_ok); [apply NoDup_singleton|vm_compute; reflexivity].
Defined.

Definition ex_event (id type result : string) : AuditEvent :=
  mkAuditEvent id 0 type "" "" "" "" "" result "" ∅.
Definition ex_audit : world :=
  mkWorld (empty_db <| t_audit_events := [ex_event "e1" "login_failed" "denied";
             ex_event "e2" "login" "ok"; ex_event "e3" "login_failed" "denied"] |>) [] (NewHub "src").
Definition ex_query : AuditQuery := mkAuditQuery 0 0 "" "" "" "" "" "" None None.

Lemma AuditSummary_totals_witness : ∃ r,
  (@AuditSummary_of ascii_unicode ascii_sql ex_query ex_audit).1 = Ok r
  ∧ asummary_Total r = 3 ∧ asummary_FailedLogins r = 2.
Proof.
  destruct (@AuditSummary_of ascii_unicode ascii_sql ex_query ex_audit).1 as [r|e] eqn:Hr;
    [|by vm_compute in Hr].
  exists r. split; [done|]. destruct (@AuditSummary_totals ascii_unicode ascii_sql _ _ _ Hr) as (-> & _ & _ & -> & _).
  split; vm_compute; reflexivity.
Defined.

Definition ex_report (started seen : time) : ConnectionRecord :=
  mkConnectionRecord "k" "" "" "" "" "" "d1" 0 "" "" "" "" (fromMillis started) (fromMillis seen) None.

Lemma connection_reports_commute_witness :
  window "k" (w_db (for_each UpsertConnection [ex_report 5 6; ex_report 2 4] ex_audit).2) = Some (2, 6).
Proof.
  destruct (connection_reports_commute [ex_report 5 6; ex_report 2 4] [ex_report 2 4; ex_report 5 6]
    ex_audit) as [_ Hw].
  - apply (bool_decide_eq_true_1 (connection_records_ok (w_db ex_audit))). vm_compute. reflexivity.
  - reflexivity.
  - apply Permutation_swap.
  - destruct (Hw "k") as [-> _]. vm_compute. reflexivity.
Defined.
