(* ===== verification/Cluster.v ===== *)
(** * The cluster coordinator (art-api/internal/cluster/coordinator.go)

    Heartbeats, and leader election over the renewable database lease
    [AcquireClusterLease] of store/sqlstore/cluster.go.  [c.now()] is an argument
    of each operation; a goroutine that [RunLeader] starts is counted. *)

From S2P Require Export StoreMisc.

Record Coordinator := mkCoordinator {
  coord_node : ClusterNode;
  coord_interval : duration
}.

#[export] Instance eta_Coordinator : Eta Coordinator := λ r,
  mkCoordinator (coord_node r) (coord_interval r).

Definition New (node : ClusterNode) : Coordinator := mkCoordinator node (15 * second).

(** The error of the upsert is discarded; the node record is kept updated. *)
Definition heartbeat (c : Coordinator) (now : time) : M Coordinator :=
  let node := coord_node c <| node_LastSeenAt := now |> in
  let node := if node_StartedAt node =? zero_time then node <| node_StartedAt := now |> else node in
  try (UpsertClusterNode node);;
  ret (c <| coord_node := node |>).

Definition Acquire (c : Coordinator) (name : string) (ttl : duration) (now : time) : M bool :=
  AcquireClusterLease name (node_ID (coord_node c)) now (now + ttl).
Definition Release (c : Coordinator) (name : string) : M unit :=
  ReleaseClusterLease name (node_ID (coord_node c)).
Definition NodeID (c : Coordinator) : string := node_ID (coord_node c).

(** The variables of one [RunLeader] call: [cancel != nil] and the number of
    workers started so far.  [leader_worker] is false from the moment [cancel()]
    is called: the context of the worker is cancelled then, but [RunLeader] does
    not wait for the goroutine to return, so what the worker still does between
    its cancellation and its end is outside this model. *)
Record leader := mkLeader {
  leader_coord : Coordinator;
  leader_name : string;
  leader_ttl : duration;
  leader_worker : bool;
  leader_started : Z
}.

#[export] Instance eta_leader : Eta leader := λ r,
  mkLeader (leader_coord r) (leader_name r) (leader_ttl r) (leader_worker r) (leader_started r).

(** [RunLeader] up to its first [reconcile]; the ticker has period [ttl / 3]. *)
Definition RunLeader (c : Coordinator) (name : string) (ttl : duration) : leader :=
  mkLeader c name (if ttl <? 3 * second then 3 * second else ttl) false 0.
Definition leader_period (l : leader) : duration := leader_ttl l `quot` 3.

Definition reconcile (l : leader) (now : time) : M leader :=
  owned ← try (Acquire (leader_coord l) (leader_name l) (leader_ttl l) now);
  match owned with
  | Ok true =>
      ret (if leader_worker l then l
           else l <| leader_worker := true |> <| leader_started := leader_started l + 1 |>)
  | _ => ret (l <| leader_worker := false |>)
  end.

(** The deferred function: the worker is cancelled, then the lease released. *)
Definition stop_leader (l : leader) : M leader :=
  try (Release (leader_coord l) (leader_name l));;
  ret (l <| leader_worker := false |>).

(** ** The lease of one name, among several nodes

    Each node runs one [RunLeader] loop on [name]; the loops share the database
    and run interleaved.  [clock] is the real time: a node may act on a reading
    of its clock that is late, as between [c.now()] and the statement, and may
    be paused for any time, but no clock runs ahead. *)

Section Election.
Context (name : string).

Record cluster := mkCluster {
  cluster_world : world;
  clock : time;
  leaders : gmap string leader
}.

#[export] Instance eta_cluster : Eta cluster := λ r,
  mkCluster (cluster_world r) (clock r) (leaders r).

(** [id] runs the loop [l] on the lease. *)
Definition runs (c : cluster) (id : string) (l : leader) : Prop :=
  leaders c !! id = Some l ∧ leader_name l = name ∧ NodeID (leader_coord l) = id.

Inductive cluster_step : cluster → cluster → Prop :=
| step_time c t : clock c ≤ t → cluster_step c (c <| clock := t |>)
| step_faults c fs : cluster_step c (c <| cluster_world := cluster_world c <| w_faults := fs |> |>)
| step_start c id co ttl :
    leaders c !! id = None → NodeID co = id →
    cluster_step c (c <| leaders := <[id := RunLeader co name ttl]> (leaders c) |>)
| step_reconcile c id l now l' w' :
    runs c id l → now ≤ clock c → reconcile l now (cluster_world c) = (Ok l', w') →
    cluster_step c (c <| cluster_world := w' |> <| leaders := <[id := l']> (leaders c) |>)
| step_reply_lost c id l now w' r :
    runs c id l → now ≤ clock c →
    Acquire (leader_coord l) name (leader_ttl l) now (cluster_world c) = (r, w') →
    cluster_step c (c <| cluster_world := w' |>
                      <| leaders := <[id := l <| leader_worker := false |>]> (leaders c) |>)
| step_stop c id l l' w' :
    runs c id l → stop_leader l (cluster_world c) = (Ok l', w') →
    cluster_step c (c <| cluster_world := w' |> <| leaders := delete id (leaders c) |>)
| step_crash c id :
    cluster_step c (c <| leaders := delete id (leaders c) |>)
| step_heartbeat c co now r w' :
    heartbeat co now (cluster_world c) = (r, w') →
    cluster_step c (c <| cluster_world := w' |>)
| step_other_lease c other id now expires r w' :
    other ≠ name → AcquireClusterLease other id now expires (cluster_world c) = (r, w') →
    cluster_step c (c <| cluster_world := w' |>)
| step_other_release c other id r w' :
    other ≠ name → ReleaseClusterLease other id (cluster_world c) = (r, w') →
    cluster_step c (c <| cluster_world := w' |>).

Definition leases (c : cluster) : list ClusterLease := t_cluster_leases (w_db (cluster_world c)).

(** A node that runs a worker has renewed its lease in time. *)
Definition timely (c : cluster) : Prop :=
  ∀ id l r, leaders c !! id = Some l → leader_worker l = true →
    r ∈ leases c → lease_Name r = name → lease_OwnerID r = id →
    millis (clock c) < lease_ExpiresAt r.

(** Executions all of whose states but the last are timely. *)
Inductive timely_run : cluster → cluster → Prop :=
| timely_refl c : timely_run c c
| timely_trans c c1 c2 : timely_run c c1 → timely c1 → cluster_step c1 c2 → timely_run c c2.

(** Executions without that assumption. *)
Inductive any_run : cluster → cluster → Prop :=
| any_refl c : any_run c c
| any_trans c c1 c2 : any_run c c1 → cluster_step c1 c2 → any_run c c2.

(** ** The invariant: a node that runs a worker owns the lease *)

Record cluster_ok (c : cluster) : Prop := {
  cluster_schema : cluster_leases_ok (w_db (cluster_world c));
  cluster_ids : ∀ id l, leaders c !! id = Some l → runs c id l;
  cluster_owner : ∀ id l, leaders c !! id = Some l → leader_worker l = true →
    ∃ r, r ∈ leases c ∧ lease_Name r = name ∧ lease_OwnerID r = id
}.

(** No two nodes have a worker that is not cancelled. *)
Definition one_worker (c : cluster) : Prop :=
  ∀ id1 id2 l1 l2, leaders c !! id1 = Some l1 → leaders c !! id2 = Some l2 →
    leader_worker l1 = true → leader_worker l2 = true → id1 = id2.

Lemma cluster_ok_one_worker c : cluster_ok c → one_worker c.
Proof.
  intros [Hs _ Ho] id1 id2 l1 l2 H1 H2 W1 W2.
  destruct (Ho _ _ H1 W1) as (r1 & ? & ? & <-), (Ho _ _ H2 W2) as (r2 & ? & ? & <-).
  f_equal. eapply (unique_row lease_Name); [exact Hs|done..|congruence].
Qed.

(** ** What the lease operations do to the table *)

Lemma Acquire_spec F nm id now e d h :
  cluster_leases_ok d →
  wp F (AcquireClusterLease nm id now e)
    (λ r d' _, cluster_leases_ok d' ∧
       match r with
       | Ok true =>
           (∀ r0, r0 ∈ t_cluster_leases d → lease_Name r0 = nm →
                  lease_OwnerID r0 = id ∨ lease_ExpiresAt r0 ≤ millis now)
           ∧ (∀ x, x ∈ t_cluster_leases d' ↔
                   x = mkClusterLease nm id (millis e) (millis now)
                   ∨ (x ∈ t_cluster_leases d ∧ lease_Name x ≠ nm))
       | Ok false =>
           t_cluster_leases d' = t_cluster_leases d
           ∧ ∃ r0, r0 ∈ t_cluster_leases d ∧ lease_Name r0 = nm
                   ∧ lease_OwnerID r0 ≠ id ∧ millis now < lease_ExpiresAt r0
       | Err _ => t_cluster_leases d' = t_cluster_leases d ∧ F = true
       end) d h.
Proof.
  intros Hok. set (P := λ r, lease_Name r = nm ∧ (lease_OwnerID r = id ∨ lease_ExpiresAt r ≤ millis now)).
  unfold AcquireClusterLease. wp_go; try done.
  - split; [exact H0|]. apply Exists_exists in H as (r0 & Hr0 & Hn0).
    assert (Huniq : ∀ x, x ∈ t_cluster_leases d → lease_Name x = nm → x = r0).
    { intros x Hx Hn. eapply (unique_row lease_Name); [exact Hok|done..|congruence]. }
    destruct (decide (lease_OwnerID r0 = id ∨ lease_ExpiresAt r0 ≤ millis now)) as [Hfree|Hheld].
    + rewrite (count_where_unique lease_Name _ _ r0); [|done..|naive_solver]. cbn.
      split; [intros x Hx Hn; by rewrite (Huniq x)|]. intros x. read_tables.
      rewrite elem_of_update_where. split.
      * intros (y & Hy & ->). case_decide as HP; [by left|]. right. split; [done|]. intros Hn.
        apply HP. rewrite (Huniq y) by done. done.
      * intros [->|[Hx Hn]]; [exists r0; by rewrite decide_True|exists x].
        rewrite decide_False; [done|]. by intros [].
    + replace (count_where _ _) with 0.
      2:{ symmetry. apply count_where_0. intros x Hx [Hn Hf]. apply Hheld. by rewrite <- (Huniq x). }
      cbn. split; [|exists r0; repeat split; [done..|tauto|lia]]. read_tables.
      apply update_where_none. intros x Hx [Hn Hf]. apply Hheld. by rewrite <- (Huniq x).
  - split; [exact H0|]. cbn. assert (Hnone : ∀ x, x ∈ t_cluster_leases d → lease_Name x ≠ nm).
    { intros x Hx Hn. apply H, Exists_exists. eauto. }
    split; [intros x Hx Hn; by destruct (Hnone x)|]. intros x. read_tables.
    rewrite elem_of_app, list_elem_of_singleton. naive_solver.
  - exfalso. refute_constraint. hnf. unfold cluster_leases_ok. read_tables.
    rewrite fmap_update_where; [done|]. by intros r [-> _].
  - exfalso. refute_constraint. hnf. unfold cluster_leases_ok. read_tables.
    apply NoDup_fmap_snoc. split; [done|]. intros (r & Heq & Hr)%list_elem_of_fmap.
    apply H, Exists_exists. by exists r.
Qed.

Definition owns (id : string) (d : DB) : Prop :=
  ∃ r, r ∈ t_cluster_leases d ∧ lease_Name r = name ∧ lease_OwnerID r = id.

(** Rows of other names, and rows of other owners that have not expired, stay. *)
Lemma Acquire_keeps nm id now e d h :
  cluster_leases_ok d →
  wp true (AcquireClusterLease nm id now e)
    (λ r d' _, cluster_leases_ok d'
       ∧ (r = Ok true → ∃ x, x ∈ t_cluster_leases d' ∧ lease_Name x = nm ∧ lease_OwnerID x = id)
       ∧ ∀ x, x ∈ t_cluster_leases d →
              lease_Name x ≠ nm ∨ (lease_OwnerID x ≠ id ∧ millis now < lease_ExpiresAt x) →
              x ∈ t_cluster_leases d') d h.
Proof.
  intros Hok. eapply wp_mono; [by apply Acquire_spec|]. cbn. intros r d' _ [Hok' Hr].
  split; [done|]. destruct r as [[]|e'].
  - destruct Hr as [Hfree Hrows]. split; [|intros x Hx Hk].
    { intros _. eexists. rewrite Hrows. split; [by left|done]. }
    rewrite Hrows. right. split; [done|]. intros Hn. destruct Hk as [?|[Ho Hlt]]; [done|].
    destruct (Hfree x Hx Hn); [done|lia].
  - destruct Hr as [-> _]. done.
  - destruct Hr as [-> _]. done.
Qed.

Lemma Release_keeps nm id d h :
  cluster_leases_ok d →
  wp true (ReleaseClusterLease nm id)
    (λ _ d' _, cluster_leases_ok d' ∧ ∀ x, x ∈ t_cluster_leases d →
       lease_Name x ≠ nm ∨ lease_OwnerID x ≠ id → x ∈ t_cluster_leases d') d h.
Proof.
  intros Hok. unfold ReleaseClusterLease. wp_go; try done. split.
  - unfold cluster_leases_ok. read_tables. by apply NoDup_fmap_delete_where.
  - intros x Hx Hn. read_tables. rewrite elem_of_delete_where. naive_solver.
Qed.

Lemma heartbeat_keeps co now d h :
  wp true (heartbeat co now) (λ _ d' _, t_cluster_leases d' = t_cluster_leases d) d h.
Proof. unfold heartbeat, UpsertClusterNode. wp_go; by read_tables. Qed.

Lemma reconcile_keeps l now d h :
  cluster_leases_ok d → leader_name l = name →
  wp true (reconcile l now)
    (λ r d' _, cluster_leases_ok d'
       ∧ (∀ l', r = Ok l' → leader_name l' = name ∧ leader_coord l' = leader_coord l
            ∧ (leader_worker l' = true → owns (NodeID (leader_coord l)) d'))
       ∧ ∀ x, x ∈ t_cluster_leases d →
              lease_Name x ≠ name ∨ (lease_OwnerID x ≠ NodeID (leader_coord l)
                                     ∧ millis now < lease_ExpiresAt x) →
              x ∈ t_cluster_leases d') d h.
Proof.
  intros Hok Hn. unfold reconcile, Acquire. apply wp_bind, wp_try.
  eapply wp_mono; [by apply Acquire_keeps|]. cbn. intros r d' h' (Hok' & Howns & Hkeep).
  rewrite Hn in Howns, Hkeep.
  destruct r as [[]|e]; apply wp_ret; (split; [done|]); (split; [|exact Hkeep]); intros l' [= <-]; try done.
  destruct (leader_worker l); (split; [done|]); (split; [done|]); intros _; by apply Howns.
Qed.

Lemma stop_keeps l d h :
  cluster_leases_ok d → leader_name l = name →
  wp true (stop_leader l)
    (λ _ d' _, cluster_leases_ok d' ∧ ∀ x, x ∈ t_cluster_leases d →
       lease_Name x ≠ name ∨ lease_OwnerID x ≠ NodeID (leader_coord l) → x ∈ t_cluster_leases d') d h.
Proof.
  intros Hok Hn. unfold stop_leader, Release. apply wp_bind, wp_try.
  eapply wp_mono; [by apply Release_keeps|]. cbn. intros r d' h' Hr. apply wp_ret. by rewrite Hn in Hr.
Qed.

(** ** Every step of a timely state keeps the invariant *)

(** The worker of [id] survives when the lease rows of [id] do. *)
Lemma cluster_ok_next c w' ls :
  cluster_ok c → cluster_leases_ok (w_db w') →
  (∀ id l, ls !! id = Some l →
     (leader_name l = name ∧ NodeID (leader_coord l) = id)
     ∧ (leader_worker l = true → owns id (w_db w'))) →
  cluster_ok (c <| cluster_world := w' |> <| leaders := ls |>).
Proof.
  intros Hc Hw Hls. constructor; [done| |]; cbn; intros id l Hl; destruct (Hls id l Hl); [by split|auto].
Qed.

(** The leases of the nodes that run a worker are not those of an operation on
    behalf of [id] with the clock reading [now]. *)
Lemma others_kept c id now w' :
  cluster_ok c → timely c → now ≤ clock c →
  (∀ x, x ∈ leases c → lease_Name x ≠ name ∨ (lease_OwnerID x ≠ id ∧ millis now < lease_ExpiresAt x) →
        x ∈ t_cluster_leases (w_db w')) →
  ∀ id' l, leaders c !! id' = Some l → id' ≠ id →
    (leader_name l = name ∧ NodeID (leader_coord l) = id')
    ∧ (leader_worker l = true → owns id' (w_db w')).
Proof.
  intros [_ Hids Howner] Ht Hnow Hkeep id' l Hl Hne. destruct (Hids id' l Hl) as (_ & ? & ?).
  split; [done|]. intros Hw. destruct (Howner id' l Hl Hw) as (r & Hr & Hn & Ho). exists r.
  split; [|done]. apply Hkeep; [done|]. right. split; [congruence|].
  specialize (Ht id' l r Hl Hw Hr Hn Ho). pose proof (UnixMilli_mono _ _ Hnow). unfold millis in *. lia.
Qed.

Lemma wp_at {A} (Q : res A → DB → Hub → Prop) (m : M A) w r w' :
  wp true m Q (w_db w) (w_hub w) → m w = (r, w') → Q r (w_db w') (w_hub w').
Proof. intros Hm Heq. pose proof (wp_run (F:=true) Q m w I Hm) as Hr. by rewrite Heq in Hr. Qed.

Lemma untouched c w' :
  cluster_ok c → cluster_leases_ok (w_db w') →
  (∀ x, x ∈ leases c → lease_Name x = name → x ∈ t_cluster_leases (w_db w')) →
  cluster_ok (c <| cluster_world := w' |>).
Proof.
  intros [Hs Hids Howner] Hok Hkeep. constructor; [done|exact Hids|].
  intros id l Hl Hw. destruct (Howner id l Hl Hw) as (r & ? & ? & ?). exists r. by split; [apply Hkeep|].
Qed.

Lemma cluster_step_ok c c' : cluster_ok c → timely c → cluster_step c c' → cluster_ok c'.
Proof.
  intros Hc Ht Hstep. pose proof (cluster_schema _ Hc) as Hs.
  destruct Hstep as [c t Hle|c fs|c id co ttl Hnone Hid|c id l now l' w' (Hl & Hn & Hid) Hnow Hrun
    |c id l now w' r (Hl & Hn & Hid) Hnow Hrun|c id l l' w' (Hl & Hn & Hid) Hrun|c id
    |c co now r w' Hrun|c other id now e r w' Hne Hrun|c other id r w' Hne Hrun].
  - by destruct Hc.
  - by destruct Hc.
  - destruct Hc as [_ Hids Howner]. constructor; [done|cbn..]; unfold runs; cbn;
      intros id' l' [[<- <-]|[Hne Hl']]%lookup_insert_Some;
      [by rewrite lookup_insert_eq|by rewrite lookup_insert_ne; [apply Hids|]|done|by apply Howner].
  - apply (wp_at _ _ _ _ _ (reconcile_keeps l now _ _ Hs Hn)) in Hrun as (Hok & Hl' & Hkeep).
    rewrite Hid in *. apply cluster_ok_next; [done..|].
    intros id' l1 [[<- <-]|[Hne Hl1]]%lookup_insert_Some.
    + destruct (Hl' l' eq_refl) as (? & Heq & ?). by rewrite Heq.
    + by eapply others_kept.
  - apply (wp_at _ _ _ _ _ (Acquire_keeps _ _ _ _ _ _ Hs)) in Hrun as (Hok & _ & Hkeep).
    unfold NodeID in Hid. rewrite Hid in Hkeep. apply cluster_ok_next; [done..|].
    intros id' l1 [[<- <-]|[Hne Hl1]]%lookup_insert_Some; [done|by eapply others_kept].
  - apply (wp_at _ _ _ _ _ (stop_keeps l _ _ Hs Hn)) in Hrun as (Hok & Hkeep). rewrite Hid in Hkeep.
    apply cluster_ok_next; [done..|]. intros id' l1 [Hne Hl1]%lookup_delete_Some.
    eapply (others_kept c id (clock c)); try done. intros x Hx [?|[? _]]; apply Hkeep; auto.
  - destruct Hc as [_ Hids Howner]. constructor; [done|cbn..]; unfold runs; cbn;
      intros id' l' [Hne Hl']%lookup_delete_Some; [by rewrite lookup_delete_ne; [apply Hids|]|by apply Howner].
  - apply (wp_at _ _ _ _ _ (heartbeat_keeps co now _ _)) in Hrun.
    apply untouched; [done| |]; unfold cluster_leases_ok; by rewrite Hrun.
  - apply (wp_at _ _ _ _ _ (Acquire_keeps _ _ _ _ _ _ Hs)) in Hrun as (Hok & _ & Hkeep).
    apply untouched; [done..|]. intros x Hx Hn. apply Hkeep; [done|]. left. congruence.
  - apply (wp_at _ _ _ _ _ (Release_keeps _ _ _ _ Hs)) in Hrun as (Hok & Hkeep).
    apply untouched; [done..|]. intros x Hx Hn. apply Hkeep; [done|]. left. congruence.
Qed.

(** C15: leader election is safe as long as leases are renewed in time: from a
    state where the nodes that run a worker own the lease, whatever the
    interleaving of renewals, takeovers, lost replies, database failures, stops
    and crashes, no two nodes have a worker of the lease that is not cancelled,
    provided a node with such a worker has always renewed before its lease
    expired.  A cancelled worker counts as stopped: [RunLeader] does not wait
    for its goroutine to end. *)
Theorem at_most_one_leader c c' : cluster_ok c → timely_run c c' → one_worker c'.
Proof.
  intros Hc Hrun. apply cluster_ok_one_worker.
  induction Hrun as [c|c c1 c2 _ IH Ht Hstep]; [done|]. eapply cluster_step_ok; [by apply IH|done..].
Qed.

(** one [reconcile] without a database failure decides by the lease: the
    node runs the worker afterwards iff no other node holds an unexpired lease
    at its clock reading, a worker that already runs is not started again, and a
    node that has the worker owns the lease until [ttl] from that reading. *)
Theorem reconcile_decides l now w :
  cluster_leases_ok (w_db w) → w_faults w = [] →
  let id := NodeID (leader_coord l) in
  ∃ l', (reconcile l now w).1 = Ok l'
  ∧ (leader_worker l' = true
     ↔ ∀ r, r ∈ t_cluster_leases (w_db w) → lease_Name r = leader_name l →
            lease_OwnerID r = id ∨ lease_ExpiresAt r ≤ millis now)
  ∧ leader_started l' = leader_started l
      + (if leader_worker l' && negb (leader_worker l) then 1 else 0)
  ∧ (leader_worker l' = true →
     mkClusterLease (leader_name l) id (millis (now + leader_ttl l)) (millis now)
     ∈ t_cluster_leases (w_db (reconcile l now w).2)).
Proof.
  intros Hok Hfs id.
  apply (wp_run (F:=false) (λ r d' _, ∃ l', r = Ok l' ∧ _ ∧ _ ∧ (_ → _ ∈ t_cluster_leases d'))
           (reconcile l now) w Hfs).
  unfold reconcile, Acquire. apply wp_bind, wp_try.
  eapply wp_mono; [by apply Acquire_spec|]. cbn. intros r d' h' [Hok' Hr].
  destruct r as [[]|e]; [| |by destruct Hr]; apply wp_ret; eexists; (split; [done|]).
  - destruct Hr as [Hfree Hrows]. assert (Hw : leader_worker (if leader_worker l then l
      else l <| leader_worker := true |> <| leader_started := leader_started l + 1 |>) = true)
      by (by destruct (leader_worker l) eqn:?).
    rewrite Hw. split; [done|]. split; [destruct (leader_worker l); cbn; lia|].
    intros _. apply Hrows. by left.
  - destruct Hr as [_ (r0 & Hr0 & Hn0 & Hne & Hlt)]. cbn. split; [|split; [lia|done]].
    split; [done|]. intros Hall. destruct (Hall r0 Hr0 Hn0); [done|lia].
Qed.
End Election.

(** ** Concrete elections *)

Definition ex_node (id : string) : Coordinator :=
  New (mkClusterNode id "api" "1" "" 0 0 0).
Definition ex_cluster : cluster := mkCluster (mkWorld empty_db [] (NewHub "src")) 0 ∅.

Lemma ex_cluster_ok : cluster_ok "backup" ex_cluster.
Proof.
  constructor; [|done..].
  apply (bool_decide_eq_true_1 (cluster_leases_ok empty_db)). vm_compute. reflexivity.
Qed.

(** The state after [id] has joined and reconciled. *)
Definition ex_join (id : string) (now : time) (c : cluster) : cluster :=
  let l := RunLeader (ex_node id) "backup" second in
  match reconcile l now (cluster_world c) with
  | (Ok l', w') => mkCluster w' (clock c) (<[id := l']> (<[id := l]> (leaders c)))
  | _ => c
  end.

Definition ex_start (id : string) (c : cluster) : cluster :=
  c <| leaders := <[id := RunLeader (ex_node id) "backup" second]> (leaders c) |>.

Lemma ex_join_steps id now c :
  leaders c !! id = None → now ≤ clock c →
  cluster_step "backup" c (ex_start id c) ∧ cluster_step "backup" (ex_start id c) (ex_join id now c).
Proof.
  intros Hnone Hnow. set (l := RunLeader (ex_node id) "backup" second). split.
  - by apply (step_start "backup" c id (ex_node id)).
  - unfold ex_join. fold l.
    destruct (reconcile l now (cluster_world c)) as [[l'|e] w'] eqn:Hr.
    + apply (step_reconcile "backup" (ex_start id c) id l now l' w'); [|exact Hnow|exact Hr].
      split; [apply lookup_insert_eq|done].
    + exfalso. unfold reconcile, mbind, M_bind, bind, try in Hr.
      destruct (Acquire _ _ _ _ _) as [[[]|] ?]; discriminate Hr.
Qed.

Definition ex_one : cluster := ex_join "a" 0 ex_cluster.
Definition ex_two : cluster := ex_join "b" 0 ex_one.
Definition ex_late : cluster := ex_join "b" (4 * second) (ex_one <| clock := 4 * second |>).

(** the assumption of timely renewal is needed: a node that is paused past
    the expiry of its lease still runs its worker while another node takes the
    lease over and starts a second one. *)
Theorem late_renewal_two_leaders :
  cluster_ok "backup" ex_cluster ∧ any_run "backup" ex_cluster ex_late ∧ ¬ one_worker ex_late.
Proof.
  split; [exact ex_cluster_ok|]. split.
  - destruct (ex_join_steps "a" 0 ex_cluster eq_refl) as [S1 S2]; [done|].
    destruct (ex_join_steps "b" (4 * second) (ex_one <| clock := 4 * second |>)) as [S3 S4];
      [vm_compute; reflexivity|done|].
    eapply any_trans; [|exact S4]. eapply any_trans; [|exact S3].
    eapply any_trans; [|apply step_time; vm_compute; discriminate].
    eapply any_trans; [|exact S2]. eapply any_trans; [apply any_refl|exact S1].
  - intros Hone.
    assert (Ha : ∃ l, leaders ex_late !! "a" = Some l ∧ leader_worker l = true)
      by (vm_compute; eexists; split; reflexivity).
    assert (Hb : ∃ l, leaders ex_late !! "b" = Some l ∧ leader_worker l = true)
      by (vm_compute; eexists; split; reflexivity).
    destruct Ha as (l1 & ? & ?), Hb as (l2 & ? & ?). 
    assert (Heq : "a" = "b") by (by eapply Hone). discriminate Heq.
Qed.

Lemma at_most_one_leader_witness : one_worker (ex_one <| clock := 2 * second |>).
Proof.
  destruct (ex_join_steps "a" 0 ex_cluster eq_refl) as [S1 S2]; [done|].
  apply (at_most_one_leader "backup" ex_cluster); [exact ex_cluster_ok|].
  assert (T0 : timely "backup" ex_cluster) by (intros id l r Hl; discriminate Hl).
  assert (T1 : timely "backup" (ex_start "a" ex_cluster)).
  { intros id l r Hl. unfold ex_start in Hl. cbn [leaders set_field] in Hl.
    apply lookup_insert_Some in Hl. destruct Hl as [[_ <-]|[_ Hl]]; [intros Hw; cbn in Hw; done|cbn in Hl; by rewrite lookup_empty in Hl]. }
  assert (T2 : timely "backup" ex_one).
  { intros id l r _ _ Hr _ _. apply list_elem_of_singleton in Hr. subst r. vm_compute. reflexivity. }
  eapply timely_trans; [|exact T2|apply step_time; vm_compute; discriminate].
  eapply timely_trans; [|exact T1|exact S2].
  eapply timely_trans; [apply timely_refl|exact T0|exact S1].
Defined.

Lemma reconcile_decides_witness :
  ∃ l', (reconcile (RunLeader (ex_node "a") "backup" second) 0 (cluster_world ex_cluster)).1 = Ok l'
        ∧ leader_worker l' = true.
Proof.
  destruct (reconcile_decides (RunLeader (ex_node "a") "backup" second) 0 (cluster_world ex_cluster))
    as (l' & Hl' & [_ Hw] & _ & _).
  - apply (bool_decide_eq_true_1 (cluster_leases_ok empty_db)). vm_compute. reflexivity.
  - reflexivity.
  - exists l'. split; [exact Hl'|]. apply Hw. intros r Hr. by apply not_elem_of_nil in Hr.
Defined.
