(* ===== verification/Builds.v ===== *)
(** * Client builds and their workers: theorems

    A build is leased to one worker at a time; a claim takes the oldest build
    that waits.  The definitions are in [StoreMisc]. *)

From S2P Require Export StoreMisc.

Implicit Types (d : DB) (h : Hub) (b : ClientBuild).

(** ** What a claim does to the table *)

Lemma oldest_first_head (l : list ClientBuild) b :
  head (SliceStable (λ a b, build_CreatedAt a <? build_CreatedAt b) l) = Some b →
  b ∈ l ∧ ∀ b', b' ∈ l → build_CreatedAt b ≤ build_CreatedAt b'.
Proof.
  intros [Hb Hmin]%head_SliceStable; [|intros *; rewrite ?Z.ltb_lt, ?Z.ltb_ge; lia..].
  split; [done|]. intros b' Hb'%Hmin. by apply Z.ltb_ge.
Qed.

Section Claim.
Context (fs ps ars : list string) (now : time).

Lemma next_claim_Some d id :
  next_claim fs ps ars now d = Some id →
  ∃ b, b ∈ t_client_builds d ∧ build_ID b = id ∧ claimable fs ps ars now b
       ∧ ∀ b', b' ∈ t_client_builds d → claimable fs ps ars now b' → build_CreatedAt b ≤ build_CreatedAt b'.
Proof.
  intros (b & Hb & ->)%fmap_Some. apply oldest_first_head in Hb as [Hb Hmin].
  apply list_elem_of_filter in Hb as [Hc Hb]. exists b. split_and!; try done.
  intros b' Hb' Hc'. apply Hmin. by apply list_elem_of_filter.
Qed.

Lemma next_claim_None d :
  next_claim fs ps ars now d = None ↔ ∀ b, b ∈ t_client_builds d → ¬ claimable fs ps ars now b.
Proof.
  unfold next_claim. rewrite fmap_None, head_SliceStable_None. split.
  - intros Hf b Hb Hc. apply (not_elem_of_nil b). rewrite <- Hf. by apply list_elem_of_filter.
  - intros Hn. by apply filter_none.
Qed.

(** The claimed row, and its conditions repeated by the UPDATE. *)
Lemma claim_where d b :
  client_builds_ok d → b ∈ t_client_builds d →
  (Some (build_ID b) = next_claim fs ps ars now d ∧ build_Attempts b < 5
   ∧ (build_Status b = "queued" ∨ lease_expired now b = true))
  ↔ Some (build_ID b) = next_claim fs ps ars now d.
Proof.
  intros Hok Hb. split; [by intros []|]. intros Heq. split; [done|].
  destruct (next_claim_Some d (build_ID b)) as (b0 & Hb0 & Hid & Hc & _); [done|].
  assert (b0 = b) as -> by (by eapply (unique_row build_ID)).
  destruct Hc as (_ & _ & _ & ? & ?). naive_solver.
Qed.

Lemma ClaimClientBuild_spec F workerID until d h :
  client_builds_ok d →
  wp F (ClaimClientBuild workerID fs ps ars now until)
    (λ r d' _, client_builds_ok d' ∧
      match next_claim fs ps ars now d with
      | None => t_client_builds d' = t_client_builds d ∧ (F = false → r = Err ErrNotFound)
                ∧ is_ok r = false
      | Some id =>
          (is_ok r = false ∧ F = true ∧ t_client_builds d' = t_client_builds d)
          ∨ (t_client_builds d'
               = update_where (λ b, build_ID b = id) (claim_build workerID now until) (t_client_builds d)
             ∧ match r with
               | Ok v => build_WorkerID v = workerID ∧ build_Status v = "leased"
                         ∧ build_LeaseUntil v = Some (fromMillis (millis until))
               | Err _ => F = true
               end)
      end) d h.
Proof.
  intros Hok. unfold ClaimClientBuild. destruct (_ || _) eqn:Hempty.
  { apply wp_throw. split; [done|].
    replace (next_claim fs ps ars now d) with (@None string); [done|]. symmetry.
    apply next_claim_None. intros b Hb (Hf & Hp & Ha & _).
    rewrite !orb_true_iff, !bool_decide_eq_true in Hempty. destruct Hempty as [[->| ->]| ->]; set_solver. }
  destruct (next_claim fs ps ars now d) as [id|] eqn:Hid.
  - assert (Hup : ∀ f, update_where (λ b, Some (build_ID b) = next_claim fs ps ars now d
        ∧ build_Attempts b < 5 ∧ (build_Status b = "queued" ∨ lease_expired now b = true)) f
        (t_client_builds d) = update_where (λ b, build_ID b = id) f (t_client_builds d)).
    { intros f. unfold update_where. apply list_fmap_ext. intros i b Hb%list_elem_of_lookup_2.
      pose proof (claim_where d b Hok Hb) as Hiff. rewrite Hid in *.
      destruct (decide (build_ID b = id)) as [Heq|Hne]; [rewrite decide_True|rewrite decide_False];
        rewrite ?Hiff; [done|by rewrite Heq|done|congruence]. }
    destruct (next_claim_Some d id Hid) as (b0 & Hb0 & Hb0id & _).
    assert (Hsel : claim_build workerID now until b0
                   ∈ update_where (λ b, build_ID b = id) (claim_build workerID now until) (t_client_builds d)).
    { apply elem_of_update_where. exists b0. by rewrite decide_True. }
    wp_go; try done.
    + split; [done|]. left. done.
    + exfalso. apply count_where_0 with (r := b0) in e; [|done]. apply e, claim_where; [done..|].
      by rewrite Hid, Hb0id.
    + split; [exact H|]. right. split; [by read_tables; apply Hup|done].
    + split; [exact H|]. right. split; [by read_tables; apply Hup|].
      apply fmap_Some in Heqo as (b & Hb & ->). apply oldest_first_head in Hb as [Hb _].
      apply list_elem_of_filter in Hb as [(? & ? & Hl) _]. cbn. by rewrite Hl.
    + exfalso. apply fmap_None, head_SliceStable_None in Heqo.
      apply (not_elem_of_nil (claim_build workerID now until b0)). rewrite <- Heqo.
      apply list_elem_of_filter. split; [done|]. by read_tables; rewrite Hup.
    + exfalso. refute_constraint. hnf. unfold client_builds_ok. read_tables. rewrite Hup.
      by apply NoDup_fmap_update_where.
  - rewrite next_claim_None in Hid.
    assert (Hno : ∀ b, b ∈ t_client_builds d →
      ¬ (Some (build_ID b) = next_claim fs ps ars now d ∧ build_Attempts b < 5
         ∧ (build_Status b = "queued" ∨ lease_expired now b = true))).
    { intros b Hb [Heq _]. apply next_claim_None in Hid. by rewrite Hid in Heq. }
    wp_go; try done; try (by exfalso; match goal with Hc : _ ≠ 0 |- _ =>
      apply count_where_pos in Hc as (b & Hb & HP); exact (Hno b Hb HP) end).
    + split; [done|]. split; [done|]. by rewrite H.
    + split; [exact H|]. split; [|done]. read_tables. by apply update_where_none.
    + exfalso. refute_constraint. hnf. unfold client_builds_ok. read_tables.
      by rewrite update_where_none.
Qed.
End Claim.

(** without database failures a claim takes the oldest build that the worker
    can make and that waits or whose lease has expired: it is leased to the
    worker with one more attempt and no other row changes; when there is none
    the claim fails with [ErrNotFound] and changes nothing. *)
Theorem ClaimClientBuild_effect workerID fs ps ars now until w :
  client_builds_ok (w_db w) → w_faults w = [] →
  let r := (ClaimClientBuild workerID fs ps ars now until w).1 in
  let t := t_client_builds (w_db w) in
  let t' := t_client_builds (w_db (ClaimClientBuild workerID fs ps ars now until w).2) in
  (r = Err ErrNotFound ∧ t' = t ∧ ∀ b, b ∈ t → ¬ claimable fs ps ars now b)
  ∨ (is_ok r = true ∧ ∃ b, b ∈ t ∧ claimable fs ps ars now b
     ∧ (∀ b', b' ∈ t → claimable fs ps ars now b' → build_CreatedAt b ≤ build_CreatedAt b')
     ∧ t' = update_where (λ x, build_ID x = build_ID b) (claim_build workerID now until) t).
Proof.
  intros Hok Hfs r t t'.
  pose proof (wp_run (F:=false) _ _ w Hfs
    (ClaimClientBuild_spec fs ps ars now false workerID until _ _ Hok)) as [_ Hr].
  fold r t t' in Hr. destruct (next_claim fs ps ars now (w_db w)) as [id|] eqn:Hid; [right|left].
  - destruct Hr as [(_ & ? & _)|[Ht Hv]]; [done|]. destruct (next_claim_Some _ _ _ _ _ _ Hid) as (b & ? & <- & ? & ?).
    split; [by destruct r|]. by exists b.
  - destruct Hr as (? & ? & _). rewrite next_claim_None in Hid. auto.
Qed.

(** ** Leases *)

Inductive build_op :=
| OpCreateClientBuild (v : ClientBuild)
| OpUpdateClientBuild (v : ClientBuild)
| OpClaimClientBuild (workerID : string) (fs ps ars : list string) (now until : time)
| OpUpdateClaimedClientBuild (v : ClientBuild) (workerID : string) (now : time).

Definition run_build_op (op : build_op) : M unit :=
  match op with
  | OpCreateClientBuild v => CreateClientBuild v
  | OpUpdateClientBuild v => UpdateClientBuild v
  | OpClaimClientBuild w fs ps ars now until => discard (ClaimClientBuild w fs ps ars now until)
  | OpUpdateClaimedClientBuild v w now => UpdateClaimedClientBuild v w now
  end.

Definition run_build_ops (ops : list build_op) (w : world) : world :=
  foldl (λ w op, snd (run_build_op op w)) w ops.

(** Operations that are not the holder's, nor an administrator's, on [b], while
    its lease has not expired. *)
Definition foreign (b : ClientBuild) (op : build_op) : Prop :=
  match op with
  | OpCreateClientBuild _ => True
  | OpUpdateClientBuild v => build_ID v ≠ build_ID b
  | OpClaimClientBuild _ _ _ _ now _ => lease_expired now b = false
  | OpUpdateClaimedClientBuild v workerID _ => ¬ (build_ID v = build_ID b ∧ workerID = build_WorkerID b)
  end.

Lemma update_where_other (t : list ClientBuild) b P `{∀ x, Decision (P x)} f :
  b ∈ t → ¬ P b → b ∈ update_where P f t.
Proof. intros Hb Hn. apply elem_of_update_where. exists b. by rewrite decide_False. Qed.

Lemma build_op_foreign b op d h :
  client_builds_ok d → b ∈ t_client_builds d → build_Status b ≠ "queued" → foreign b op →
  wp true (run_build_op op) (λ _ d' _, client_builds_ok d' ∧ b ∈ t_client_builds d') d h.
Proof.
  intros Hok Hb Hst Hop. destruct op as [v|v|w fs ps ars now until|v w now]; cbn in Hop |- *.
  - unfold CreateClientBuild. wp_go; try done. split; [assumption|]. read_tables. set_solver.
  - unfold UpdateClientBuild. wp_go; try done;
      (split; [assumption|]; read_tables; apply update_where_other; [done|congruence]).
  - apply wp_bind. eapply wp_mono; [by apply ClaimClientBuild_spec|]. cbn. intros r d' h' [Hok' Hr].
    assert (Hb' : b ∈ t_client_builds d').
    { destruct (next_claim fs ps ars now d) as [id|] eqn:Hid; [|by destruct Hr as [-> _]].
      destruct Hr as [(_ & _ & ->)|[-> _]]; [done|]. apply update_where_other; [done|]. intros <-.
      destruct (next_claim_Some _ _ _ _ _ _ Hid) as (b0 & ? & ? & (_ & _ & _ & _ & Hc) & _).
      assert (b0 = b) as -> by (by apply (unique_row build_ID (t_client_builds d))). destruct Hc as [?|[_ ?]]; congruence. }
    destruct r; [by apply wp_ret|done].
  - unfold UpdateClaimedClientBuild. wp_go; try done;
      (split; [assumption|]; read_tables; apply update_where_other; [done|naive_solver]).
Qed.

(** a lease is exclusive: in every history whose claims happen before the
    lease of a build expires, and that has no update by the worker that holds it
    or by an administrator, its row does not change at all, whatever other
    workers claim and report and whichever statements fail. *)
Theorem leased_build_exclusive ops w b :
  client_builds_ok (w_db w) → b ∈ t_client_builds (w_db w) → build_Status b ∈ in_progress →
  Forall (foreign b) ops →
  b ∈ t_client_builds (w_db (run_build_ops ops w)).
Proof.
  intros Hok Hb Hst Hops. assert (Hq : build_Status b ≠ "queued").
  { intros Heq. revert Hst. rewrite Heq. apply (bool_decide_eq_false_1 ("queued" ∈ in_progress)). reflexivity. }
  cut (client_builds_ok (w_db (run_build_ops ops w)) ∧ b ∈ t_client_builds (w_db (run_build_ops ops w)));
    [by intros []|].
  revert w Hok Hb. induction Hops as [|op ops Hop _ IH]; intros w Hok Hb; [done|]. cbn.
  pose proof (wp_run (F:=true) (λ _ d' _, client_builds_ok d' ∧ b ∈ t_client_builds d')
    (run_build_op op) w I) as [? ?]; [by apply build_op_foreign|]. by apply IH.
Qed.

(** ** Concrete claims *)

Definition ex_build (id : string) (created : Z) : ClientBuild :=
  mkClientBuild id "p" "linux" "x86_64" "deb" "queued" "" "" "" "" "" "u0" "" 0 created None None None.
Definition ex_builds : world :=
  mkWorld (empty_db <| t_client_builds := [ex_build "b1" 1; ex_build "b2" 2] |>) [] (NewHub "src").
Definition ex_claim (w : world) : res ClientBuild * world :=
  ClaimClientBuild "w1" ["deb"] ["linux"] ["x86_64"] (10 * second) (70 * second) w.

(** the claim reads the claimed build back by its worker and lease end, not
    by its identifier: when a worker claims twice within one millisecond the
    second claim leases another build but returns the first one again. *)
Theorem ClaimClientBuild_may_return_another_build :
  ∃ w (id : string) v, client_builds_ok (w_db w) ∧ w_faults w = []
    ∧ next_claim ["deb"] ["linux"] ["x86_64"] (10 * second) (w_db w) = Some id
    ∧ (ex_claim w).1 = Ok v ∧ build_ID v ≠ id.
Proof.
  exists (ex_claim ex_builds).2, "b2". eexists. split_and!.
  - apply (bool_decide_eq_true_1 (client_builds_ok (w_db (ex_claim ex_builds).2))). vm_compute. reflexivity.
  - reflexivity.
  - vm_compute. reflexivity.
  - vm_compute. reflexivity.
  - discriminate.
Qed.

Lemma ex_builds_ok : client_builds_ok (w_db ex_builds).
Proof. apply (bool_decide_eq_true_1 (client_builds_ok (w_db ex_builds))). vm_compute. reflexivity. Qed.

Lemma ClaimClientBuild_effect_witness :
  is_ok (ex_claim ex_builds).1 = true
  ∧ ∃ b, b ∈ t_client_builds (w_db ex_builds) ∧ build_Status b = "queued"
         ∧ t_client_builds (w_db (ex_claim ex_builds).2)
           = update_where (λ x, build_ID x = build_ID b) (claim_build "w1" (10 * second) (70 * second))
               (t_client_builds (w_db ex_builds)).
Proof.
  destruct (ClaimClientBuild_effect "w1" ["deb"] ["linux"] ["x86_64"] (10 * second) (70 * second)
              ex_builds ex_builds_ok eq_refl) as [(_ & _ & Hn)|(Hr & b & Hb & _ & _ & Ht)].
  - exfalso. apply (Hn (ex_build "b1" 1)); [left|]. apply (bool_decide_eq_true_1 _). vm_compute. reflexivity.
  - split; [exact Hr|]. exists b. split; [exact Hb|]. split; [|exact Ht].
    apply elem_of_cons in Hb as [->|Hb]; [reflexivity|]. apply list_elem_of_singleton in Hb as ->. reflexivity.
Defined.

Lemma leased_build_exclusive_witness :
  let w := (ex_claim ex_builds).2 in
  let b := claim_build "w1" (10 * second) (70 * second) (ex_build "b1" 1) in
  b ∈ t_client_builds (w_db (run_build_ops
        [OpClaimClientBuild "w2" ["deb"] ["linux"] ["x86_64"] (20 * second) (90 * second);
         OpUpdateClaimedClientBuild (ex_build "b1" 1) "w2" (30 * second)] w)).
Proof.
  cbv zeta. apply leased_build_exclusive.
  - apply (bool_decide_eq_true_1 (client_builds_ok _)). vm_compute. reflexivity.
  - vm_compute. left.
  - apply (bool_decide_eq_true_1 _). vm_compute. reflexivity.
  - apply Forall_cons_2; [vm_compute; reflexivity|]. apply Forall_singleton. intros [_ H]. discriminate H.
Defined.
