(* ===== verification/Auth.v ===== *)
(** * The authentication service (art-api/internal/auth/service.go, jwt.go)

    [s.now()], fresh identifiers and salts are arguments; the JWT library, argon2
    and the external password providers are parameters.  The mutexes of the
    service only make the reads of its settings atomic. *)

From S2P Require Export StoreSessions Password.

(** ** jwt.go *)

(** [jwt.NumericDate]: [jwt.NewNumericDate] truncates to seconds. *)
Definition NewNumericDate (t : time) : time := t / second * second.

Record Claims := mkClaims {
  claims_SessionID : string;
  claims_Username : string;
  claims_DisplayName : string;
  claims_Role : string;
  claims_TokenVersion : Z;
  claims_DeviceID : string;
  claims_Subject : string;
  claims_Issuer : string;
  claims_Audience : list string;
  claims_IssuedAt : option time;
  claims_ExpiresAt : option time
}.

Inductive jwt_result :=
| JwtValid (claims : Claims)
| JwtExpired                 (* errors.Is(err, jwt.ErrTokenExpired) *)
| JwtInvalid.

(** github.com/golang-jwt/jwt/v5: [SignedString] with HS256, and [ParseWithClaims]
    with the options of [Parse] at a time.  A token that was signed with the
    secret is accepted when issuer and audience agree and the time is in the
    window of its claims. *)
Class Jwt := {
  SignedString : string → Claims → res string;
  ParseWithClaims : (string * string * string) → time → string → jwt_result;
  jwt_accepts secret issuer audience now claims token iat exp :
    SignedString secret claims = Ok token →
    claims_Issuer claims = issuer → audience ∈ claims_Audience claims →
    claims_IssuedAt claims = Some iat → claims_ExpiresAt claims = Some exp →
    iat ≤ now → now < exp →
    ParseWithClaims (secret, issuer, audience) now token = JwtValid claims
}.

Record TokenManager := mkTokenManager {
  tokens_secret : string;
  tokens_issuer : string;
  tokens_audience : string;
  tokens_ttl : duration
}.

#[export] Instance eta_TokenManager : Eta TokenManager := λ r,
  mkTokenManager (tokens_secret r) (tokens_issuer r) (tokens_audience r) (tokens_ttl r).

(** ** The service *)

(** [identity.Profile] and [identity.PasswordProvider] *)
Record Profile := mkProfile {
  profile_Subject : string; profile_Username : string; profile_Email : string;
  profile_DisplayName : string; profile_EmailVerified : bool; profile_Groups : list string }.

(** [groupMapping] is a Go map: its entries in the order a range visits them. *)
Record passwordProvider := mkPasswordProvider {
  provider_Name : string;
  provider_Authenticate : string → string → option Profile;
  autoProvision : bool;
  groupMapping : list (string * string)
}.

Record Service := mkService {
  tokens : TokenManager;
  sessionTTL : duration;
  dummyHash : string;
  passwordProviders : list passwordProvider;
  passwordPolicy : PasswordPolicy
}.

#[export] Instance eta_Service : Eta Service := λ r,
  mkService (tokens r) (sessionTTL r) (dummyHash r) (passwordProviders r) (passwordPolicy r).

Record LoginInput := mkLoginInput {
  login_Username : string; login_Password : string; login_IP : string;
  login_UserAgent : string; login_ClientDeviceID : string }.

Record LoginOutput := mkLoginOutput {
  AccessToken : string; out_User : User; out_Session : Session; out_Claims : Claims }.

Record CreateUserInput := mkCreateUserInput {
  input_Username : string; input_Email : string; input_Password : string;
  input_DisplayName : string; input_Role : string; input_Enabled : bool }.

(** What a call draws from [uuid.NewString] and [rand.Read]. *)
Record Entropy := mkEntropy {
  fresh_user : string; fresh_session : string; fresh_secret : string;
  fresh_salt : option (list Ascii.ascii); numCPU : Z }.

Definition user_id_payload (userID : string) : payload := PUserID userID.

(** [domain.User] with the fields given, the others zero. *)
Definition new_user (id username email hash display role : string) (enabled : bool)
    (status : string) (version : Z) (now : time) : User :=
  mkUser id username email "" hash display role [] enabled status version now now None None "" false.

Section Service.
Context `{Unicode} `{Argon2} `{Jwt}.

Definition Issue (m : TokenManager) (user : User) (session : Session) (now : time)
    : res (string * Claims) :=
  let expiresAt := if session_ExpiresAt session <? now + tokens_ttl m then session_ExpiresAt session
                   else now + tokens_ttl m in
  let claims := mkClaims (session_ID session) (user_Username user) (user_DisplayName user)
    (user_Role user) (user_TokenVersion user) (session_ClientDeviceID session) (user_ID user)
    (tokens_issuer m) [tokens_audience m] (Some (NewNumericDate now)) (Some (NewNumericDate expiresAt)) in
  res_map (λ token, (token, claims)) (SignedString (tokens_secret m) claims).

Definition Parse (m : TokenManager) (now : time) (raw : string) : res Claims :=
  match ParseWithClaims (tokens_secret m, tokens_issuer m, tokens_audience m) now raw with
  | JwtExpired => Err ErrTokenExpired
  | JwtInvalid => Err ErrTokenInvalid
  | JwtValid c =>
      if bool_decide (claims_Subject c = "") || bool_decide (claims_SessionID c = "")
         || bool_decide (claims_IssuedAt c = None) || bool_decide (claims_ExpiresAt c = None)
      then Err ErrTokenInvalid else Ok c
  end.

Definition withPermissions (user : User) : M User :=
  if bool_decide (user_Role user = RoleAdmin) then ret (user <| user_Permissions := [PermissionAll] |>)
  else role ← try (FindRoleByID (user_Role user));
       match role with
       | Ok r => ret (user <| user_Permissions := roledef_Permissions r |>)
       | Err _ => ret user
       end.

Definition validateLoginUser (user : User) : M User :=
  if negb (user_Enabled user) then throw ErrUserDisabled
  else if bool_decide (user_ApprovalStatus user = ApprovalRejected) then throw ErrApprovalRejected
  else withPermissions user.

(** The value of a Go map of strings, "" when the key is absent. *)
Definition map_get (m : list (string * string)) (key : string) : string :=
  default "" (snd <$> head (filter (λ kv : string * string, kv.1 = key) m)).

(** The loop over [mapping]; [seen] holds the targets already done. *)
Fixpoint sync_targets (userID : string) (wanted seen : list string) (targets : list string)
    (now : time) : M unit :=
  match targets with
  | [] => ret tt
  | target :: rest =>
      if bool_decide (target ∈ seen) then sync_targets userID wanted seen rest now
      else FindGroupByID target;;
           SetUserGroupMember target userID (bool_decide (target ∈ wanted)) now;;
           publish UserGroupMembershipUpdated
             (PMembership (mkUserGroupMembership target userID (bool_decide (target ∈ wanted)))) now;;
           sync_targets userID wanted (target :: seen) rest now
  end.

Definition syncExternalGroups (userID : string) (sourceGroups : list string)
    (mapping : list (string * string)) (now : time) : M unit :=
  if bool_decide (mapping = []) then ret tt
  else let wanted := filter (λ t, t ≠ "") (map_get mapping <$> sourceGroups) in
       sync_targets userID wanted [] (snd <$> mapping) now.

Definition provisionExternalUser (provider : string) (profile : Profile) (f : Entropy) (now : time)
    : M User :=
  passwordHash ← lift (HashPassword (fresh_secret f) (fresh_salt f) (numCPU f));
  let user := new_user (fresh_user f) (profile_Username profile) (profile_Email profile) passwordHash
                (profile_DisplayName profile) RoleUser true ApprovalApproved 1 now in
  CreateUser user;;
  linked ← try (CreateOIDCIdentity (mkOIDCIdentity provider (profile_Subject profile) (user_ID user)
                                      (profile_Email profile) now));
  match linked with
  | Err e => try (StoreUsers.DeleteUser (user_ID user));; throw e
  | Ok _ =>
      try (SetUserGroupMember ApprovedUsersGroupID (user_ID user) true now);;
      publish UserUpdated (PUser user) now;;
      publish UserGroupMembershipUpdated
        (PMembership (mkUserGroupMembership ApprovedUsersGroupID (user_ID user) true)) now;;
      ret user
  end.

(** Any error of [m] becomes [ErrInvalidCredentials]. *)
Definition or_invalid {A} (m : M A) : M A :=
  r ← try m; match r with Ok a => ret a | Err _ => throw ErrInvalidCredentials end.

(** The loop over the external providers. *)
Fixpoint try_providers (username password : string) (f : Entropy) (now : time)
    (providers : list passwordProvider) : M User :=
  match providers with
  | [] => throw ErrInvalidCredentials
  | p :: rest =>
      match provider_Authenticate p username password with
      | None => try_providers username password f now rest
      | Some profile =>
          record ← try (FindOIDCIdentity (provider_Name p) (profile_Subject profile));
          match record with
          | Ok identity =>
              user ← or_invalid (FindUserByID (oidc_UserID identity));
              or_invalid (syncExternalGroups (user_ID user) (profile_Groups profile) (groupMapping p) now);;
              validateLoginUser user
          | Err e =>
              if negb (bool_decide (e = ErrNotFound)) || negb (autoProvision p)
              then throw ErrInvalidCredentials else
              collision ← try (FindUserByUsername (profile_Username profile));
              if is_ok collision then throw ErrInvalidCredentials else
              user ← or_invalid (provisionExternalUser (provider_Name p) profile f now);
              or_invalid (syncExternalGroups (user_ID user) (profile_Groups profile) (groupMapping p) now);;
              validateLoginUser user
          end
      end
  end.

(** The check against the dummy hash takes time and has no result. *)
Definition VerifyCredentials (s : Service) (username password : string) (f : Entropy) (now : time)
    : M User :=
  found ← try (FindUserByUsername username);
  match found with
  | Ok user =>
      if bool_decide (VerifyPassword (user_PasswordHash user) password = Ok true)
      then validateLoginUser user
      else try_providers username password f now (passwordProviders s)
  | Err _ => try_providers username password f now (passwordProviders s)
  end.

Definition CompleteLogin (s : Service) (user0 : User) (input : LoginInput) (f : Entropy) (now : time)
    : M LoginOutput :=
  user ← withPermissions user0;
  let session := mkSession (fresh_session f) (user_ID user) now (now + sessionTTL s) None now
                   (login_IP input) (login_UserAgent input) (login_ClientDeviceID input) in
  CreateSession session;;
  updated ← try (UpdateLastLogin (user_ID user) now);
  match updated with
  | Err e => try (StoreSessions.RevokeSession (session_ID session) now);; throw e
  | Ok _ =>
      match Issue (tokens s) user session now with
      | Err e => try (StoreSessions.RevokeSession (session_ID session) now);; throw e
      | Ok (token, claims) =>
          publish SessionCreated (PSession session) now;;
          ret (mkLoginOutput token user session claims)
      end
  end.

(** ** Construction and settings *)

Definition NewTokenManager (secret issuer audience : string) (ttl : duration) : TokenManager :=
  mkTokenManager secret issuer audience ttl.

Definition NewService (m : TokenManager) (ttl : duration) (f : Entropy) : res Service :=
  res_map (λ dummy, mkService m ttl dummy [] (mkPasswordPolicy 1 false false false false))
    (HashPassword "not-a-real-password-57F2eC4d" (fresh_salt f) (numCPU f)).

Definition SetTTLs (s : Service) (accessTokenTTL ttl : duration) : Service :=
  s <| sessionTTL := ttl |>
    <| tokens := tokens s <| tokens_ttl := accessTokenTTL |> |>.

Definition SetPasswordPolicy (s : Service) (value : PasswordPolicy) : Service :=
  s <| passwordPolicy := value |>.

Definition AddPasswordProviderWithGroups (s : Service) (name : string)
    (authenticate : string → string → option Profile) (auto : bool)
    (mapping : list (string * string)) : Service :=
  s <| passwordProviders := passwordProviders s ++ [mkPasswordProvider name authenticate auto mapping] |>.

Definition AddPasswordProvider (s : Service) (name : string)
    (authenticate : string → string → option Profile) (auto : bool) : Service :=
  AddPasswordProviderWithGroups s name authenticate auto [].

(** ** Operations *)

Definition Login (s : Service) (input : LoginInput) (f : Entropy) (now : time) : M LoginOutput :=
  user ← VerifyCredentials s (login_Username input) (login_Password input) f now;
  CompleteLogin s user input f now.

Definition validatePassword (s : Service) (password : string) : M unit :=
  lift (PasswordPolicy_Validate (passwordPolicy s) password).

Definition CreateLocalUser (s : Service) (input : CreateUserInput) (f : Entropy) (now : time) : M User :=
  validatePassword s (input_Password input);;
  passwordHash ← lift (HashPassword (input_Password input) (fresh_salt f) (numCPU f));
  let user := new_user (fresh_user f) (input_Username input) (input_Email input) passwordHash
                (input_DisplayName input) (input_Role input) (input_Enabled input) ApprovalApproved 1 now in
  CreateUser user;;
  publish UserUpdated (PUser user) now;;
  ret user.

Definition Register (s : Service) (input : CreateUserInput) (autoApprove : bool) (f : Entropy)
    (now : time) : M User :=
  validatePassword s (input_Password input);;
  passwordHash ← lift (HashPassword (input_Password input) (fresh_salt f) (numCPU f));
  let status := if autoApprove then ApprovalApproved else ApprovalPending in
  let user := new_user (fresh_user f) (input_Username input) (input_Email input) passwordHash
                (input_DisplayName input) RoleUser true status 1 now in
  (if autoApprove then CreateUser user else CreateRegisteredUser user);;
  publish UserUpdated (PUser user) now;;
  publish UserGroupMembershipUpdated (PMembership (mkUserGroupMembership
    (if autoApprove then ApprovedUsersGroupID else PendingUsersGroupID) (user_ID user) true)) now;;
  ret user.

Definition SetUserApproval (userID status : string) (now : time) : M User :=
  user ← StoreUsers.SetUserApproval userID status now;
  when (bool_decide (status = ApprovalRejected))
    (RevokeUserSessions userID now;; publish SessionRevokedAll (user_id_payload userID) now);;
  publish UserUpdated (PUser user) now;;
  publish UserGroupMembershipUpdated
    (PMembership (mkUserGroupMembership PendingUsersGroupID userID false)) now;;
  publish UserGroupMembershipUpdated
    (PMembership (mkUserGroupMembership ApprovedUsersGroupID userID
                    (bool_decide (status = ApprovalApproved)))) now;;
  ret user.

Definition SetPassword (s : Service) (userID password : string) (f : Entropy) (now : time) : M User :=
  validatePassword s password;;
  passwordHash ← lift (HashPassword password (fresh_salt f) (numCPU f));
  user ← UpdateUserPassword userID passwordHash now;
  RevokeUserSessions userID now;;
  publish UserUpdated (PUser user) now;;
  publish SessionRevokedAll (user_id_payload userID) now;;
  ret user.

(** Without a new password, [input.PasswordHash] is the caller's. *)
Definition new_password_hash (s : Service) (input : UserUpdate) (password : string) (f : Entropy)
    : M string :=
  if bool_decide (password = "") then ret (update_PasswordHash input)
  else validatePassword s password;; lift (HashPassword password (fresh_salt f) (numCPU f)).

Definition UpdateUser (s : Service) (userID : string) (input : UserUpdate) (password : string)
    (f : Entropy) (now : time) : M User :=
  hash ← new_password_hash s input password f;
  user ← StoreUsers.UpdateUser userID (input <| update_PasswordHash := hash |>) now;
  publish UserUpdated (PUser user) now;;
  publish SessionRevokedAll (user_id_payload userID) now;;
  memberships ← try ListUserGroupMemberships;
  match memberships with
  | Ok ms => for_each (λ m, when (bool_decide (membership_UserID m = userID))
                              (publish UserGroupMembershipUpdated (PMembership m) now)) ms
  | Err _ => ret tt
  end;;
  ret user.

Definition DeleteUser (userID : string) (now : time) : M unit :=
  StoreUsers.DeleteUser userID;;
  publish UserUpdated (PUser (mkUser userID "" "" "" "" "" "" [] false "" 0 zero_time zero_time
                                None None "" false)) now;;
  publish SessionRevokedAll (user_id_payload userID) now.

Definition Authenticate (s : Service) (raw : string) (now : time) : M (User * Session * Claims) :=
  claims ← lift (Parse (tokens s) now raw);
  user_ ← try (FindUserByID (claims_Subject claims));
  match user_ with
  | Err _ => throw ErrSessionRevoked
  | Ok user =>
      if negb (user_Enabled user) then throw ErrUserDisabled else
      if bool_decide (user_ApprovalStatus user = ApprovalRejected) then throw ErrApprovalRejected else
      session_ ← try (FindSession (claims_SessionID claims));
      match session_ with
      | Err _ => throw ErrSessionRevoked
      | Ok session =>
          if bool_decide (session_RevokedAt session ≠ None) then throw ErrSessionRevoked else
          if negb (now <? session_ExpiresAt session) then throw ErrSessionExpired else
          if negb (user_TokenVersion user =? claims_TokenVersion claims)
             || negb (bool_decide (session_UserID session = user_ID user))
          then throw ErrStaleToken else
          user ← withPermissions user;
          try (TouchSession (session_ID session) now);;
          ret (user, session, claims)
      end
  end.

Definition RevokeSession (sessionID : string) (now : time) : M unit :=
  r ← try (StoreSessions.RevokeSession sessionID now);
  match r with
  | Ok session => publish SessionRevoked (PSession session) now
  | Err e => if bool_decide (e = ErrNotFound) then ret tt else throw e
  end.

Definition RevokeAll (userID : string) (now : time) : M unit :=
  RevokeUserSessions userID now;;
  publish SessionRevokedAll (user_id_payload userID) now.

Definition SetUserEnabled (userID : string) (enabled : bool) (now : time) : M User :=
  user ← StoreUsers.SetUserEnabled userID enabled now;
  (if enabled then publish UserUpdated (PUser user) now
   else RevokeUserSessions userID now;;
        publish UserDisabled (PUser user) now;;
        publish SessionRevokedAll (user_id_payload userID) now);;
  ret user.

Definition ForceRelogin (userID : string) (now : time) : M User :=
  user ← StoreUsers.ForceRelogin userID now;
  RevokeUserSessions userID now;;
  publish UserUpdated (PUser user) now;;
  publish SessionRevokedAll (user_id_payload userID) now;;
  ret user.
End Service.
