(* ===== verification/Authentication.v ===== *)
(** * Authentication: theorems

    What [Authenticate] accepts, that a login is accepted until it expires, and
    that no token outlives the change that invalidates it. *)

From S2P Require Export Auth Sessions.
From S2P Require Import Sample.

Section Authentication.
Context `{Unicode} `{SqlText} `{Argon2} `{Jwt}.

Definition user_of (id : string) (d : DB) : option User := select_one (λ u, user_ID u = id) (t_users d).
Definition session_of (id : string) (d : DB) : option Session :=
  select_one (λ s, session_ID s = id) (t_sessions d).

(** The tables admit the bearer of the claims at a time. *)
Definition admissible (c : Claims) (now : time) (d : DB) : Prop :=
  ∃ u ss, user_of (claims_Subject c) d = Some u ∧ session_of (claims_SessionID c) d = Some ss
    ∧ user_Enabled u = true ∧ user_ApprovalStatus u ≠ ApprovalRejected
    ∧ session_RevokedAt ss = None ∧ now < fromMillis (session_ExpiresAt ss)
    ∧ user_TokenVersion u = claims_TokenVersion c ∧ session_UserID ss = user_ID u.

(** ** What an authentication reads *)

Lemma withPermissions_spec F u d h :
  wp F (withPermissions u) (λ r d' _, d' = d ∧ ∃ p, r = Ok (u <| user_Permissions := p |>)) d h.
Proof. unfold withPermissions, FindRoleByID. wp_go; (split; [done|]);
  first [by eexists|by exists (user_Permissions u); destruct u]. Qed.

Lemma Authenticate_spec F s raw now d h :
  wp F (Authenticate s raw now)
    (λ r d' _, match r with
       | Ok (u, ss, c) => Parse (tokens s) now raw = Ok c ∧ admissible c now d
                          ∧ user_ID u = claims_Subject c ∧ session_ID ss = claims_SessionID c
       | Err _ => F = true ∨ ∀ c, Parse (tokens s) now raw = Ok c → ¬ admissible c now d
       end) d h.
Proof.
  unfold Authenticate. destruct (Parse (tokens s) now raw) as [c|e] eqn:Hp; cbn [lift].
  2:{ apply wp_bind, wp_throw. by right. }
  apply wp_bind, wp_ret. unfold FindUserByID, FindSession.
  assert (Hdeny : (admissible c now d → False) → F = true ∨ ∀ c', Ok c = Ok c' → ¬ admissible c' now d)
    by (intros Hd; right; by intros c' [= <-]).
  wp_go; try (by left).
  all: repeat match goal with Hx : _ <$> _ = Some _ |- _ => apply fmap_Some in Hx as (? & ? & ->)
                            | Hx : _ <$> _ = None |- _ => apply fmap_None in Hx end.
  all: try (apply Hdeny; intros (u1 & ss1 & Hu1 & Hs1 & ?); unfold user_of, session_of in *;
            simplify_eq; cbn in *; simplify_bool; destruct_and?; destruct_or?; simplify_bool;
            repeat match goal with Hr : session_RevokedAt _ = None |- _ => rewrite Hr in * end;
            naive_solver (congruence || lia)).
  eapply wp_mono; [apply withPermissions_spec|]. intros r d' h' [-> [p ->]]. unfold TouchSession.
  assert (Had : admissible c now d).
  { exists x0, x. cbn in *. simplify_bool. split_and!; try done.
    destruct (session_RevokedAt x); [by destruct n0|done]. }
  apply select_one_Some in H3 as [_ H3], H4 as [_ H4]. wp_go; by split_and!.
Qed.

(** [Authenticate] decides by the token and the tables: it accepts only a
    token that parses and whose claims the tables admit (the user enabled, not
    rejected and at the token's version, the session of that user, neither
    revoked nor expired), and returns the user and session of the claims;
    unless the database fails it accepts every such token. *)
Theorem Authenticate_decides s raw now w :
  (∀ u ss c, (Authenticate s raw now w).1 = Ok (u, ss, c) →
     Parse (tokens s) now raw = Ok c ∧ admissible c now (w_db w)
     ∧ user_ID u = claims_Subject c ∧ session_ID ss = claims_SessionID c)
  ∧ (w_faults w = [] → ∀ c, Parse (tokens s) now raw = Ok c → admissible c now (w_db w) →
     is_ok (Authenticate s raw now w).1 = true).
Proof.
  split.
  - intros u ss c Hr. pose proof (wp_run (F:=true) _ _ w I (Authenticate_spec true s raw now _ _)) as Hs.
    by rewrite Hr in Hs.
  - intros Hfs c Hp Had. pose proof (wp_run (F:=false) _ _ w Hfs (Authenticate_spec false s raw now _ _)) as Hs.
    destruct (_.1); [done|]. destruct Hs as [?|Hs]; [done|]. by destruct (Hs c Hp).
Qed.

(** ** Token versions in histories *)

(** A history that does not create the account again. *)
Definition never_recreates (id : string) (ops : list session_op) : Prop :=
  Forall (λ op, match op with
                | OpAccount (OpCreateUser u) | OpAccount (OpCreateRegisteredUser u) => user_ID u ≠ id
                | _ => True
                end) ops.

Lemma session_op_tokens op d h : wp true (run_session_op op) (λ _ d' _, token_mono d d') d h.
Proof.
  destruct op as [op|s|id at_|id at_|id at_]; cbn [run_session_op]; [apply account_op_token_mono|..];
    unfold CreateSession, TouchSession, StoreSessions.RevokeSession, RevokeUserSessions; wp_go;
    unfold token_mono; read_tables; apply evolves_refl; exact token_step_refl.
Qed.

Lemma created_users op d h :
  wp true (run_session_op op)
    (λ _ d' _, ∀ u', u' ∈ t_users d' →
       user_ID u' ∈ user_ID <$> t_users d
       ∨ match op with
         | OpAccount (OpCreateUser u) | OpAccount (OpCreateRegisteredUser u) => user_ID u' = user_ID u
         | _ => False
         end) d h.
Proof.
  destruct op as [op|s|id at_|id at_|id at_]; [destruct op|..];
    cbn [run_session_op run_account_op];
    unfold CreateUser, CreateRegisteredUser, StoreUsers.SetUserEnabled, StoreUsers.SetUserApproval,
      StoreUsers.ForceRelogin, UpdateUserPassword, StoreUsers.UpdateUser, StoreUsers.DeleteUser,
      UpdateLastLogin, SetUserTOTP, CreateRole, UpdateRole, DeleteRole, CreateGroup, UpdateGroup,
      DeleteGroup, SetUserGroupMember, CreateSession, TouchSession, StoreSessions.RevokeSession,
      RevokeUserSessions;
    wp_go; intros u'; read_tables;
    rewrite ?elem_of_delete_where, ?elem_of_update_where, ?elem_of_app, ?list_elem_of_singleton.
  all: first [ intros (u0 & Hu0 & ->); left; destruct (decide _); by apply (list_elem_of_fmap_2 user_ID _ u0)
             | intros [?| ->]; [left; by apply list_elem_of_fmap_2|by right]
             | intros [? _]; left; by apply list_elem_of_fmap_2
             | intros ?; left; by apply list_elem_of_fmap_2 ].
Qed.

Lemma stale_after_ops id v ops w :
  accounts_ok (w_db w) → never_recreates id ops →
  (∀ u, u ∈ t_users (w_db w) → user_ID u = id → v < user_TokenVersion u) →
  ∀ u, u ∈ t_users (w_db (run_session_ops ops w)) → user_ID u = id → v < user_TokenVersion u.
Proof.
  intros Hok Hnew. revert w Hok. induction Hnew as [|op ops Hop _ IH]; intros w Hok Hall; [done|].
  apply IH; [by apply session_op_inv|]. intros u' Hu' Hid.
  pose proof (wp_post (λ _ d d', token_mono d d') (run_session_op op) w (session_op_tokens op)) as Hm.
  destruct (Hm u' Hu') as [(u & Hu & Hs & Hle & _)|Hfresh].
  - specialize (Hall u Hu ltac:(congruence)). lia.
  - destruct (wp_post (λ _ d d', ∀ u', u' ∈ t_users d' → _) _ w (created_users op) u' Hu') as [?|Hc]; [done|].
    destruct op as [[]|?|?|?|?]; try done; congruence.
Qed.

(** C2: a token does not outlive its version: once the account's version is
    above the one in the token, as after every change of password, role, state
    or second factor, no authentication with the token succeeds at any time
    after any history of account and session operations that does not create an
    account with that identifier again, whatever statements fail. *)
Theorem stale_token_never_accepted s raw now c u ops fs w :
  accounts_ok (w_db w) → u ∈ t_users (w_db w) → user_ID u = claims_Subject c →
  claims_TokenVersion c < user_TokenVersion u → never_recreates (user_ID u) ops →
  Parse (tokens s) now raw = Ok c →
  is_ok (Authenticate s raw now (run_session_ops ops w <| w_faults := fs |>)).1 = false.
Proof.
  intros Hok Hu Hid Hv Hnew Hp. set (w' := run_session_ops ops w <| w_faults := fs |>).
  destruct (Authenticate s raw now w').1 as [[[u' ss] c']|e] eqn:Hr; [exfalso|done].
  pose proof (wp_run (F:=true) _ _ w' I (Authenticate_spec true s raw now _ _)) as Hs. rewrite Hr in Hs.
  destruct Hs as (Hp' & Had & _). rewrite Hp in Hp'. injection Hp' as <-.
  destruct Had as (u1 & ss1 & Hu1 & _ & _ & _ & _ & _ & Htv & _).
  apply select_one_Some in Hu1 as [Hin Hid1].
  assert (Hall : ∀ x, x ∈ t_users (w_db w) → user_ID x = user_ID u → claims_TokenVersion c < user_TokenVersion x).
  { intros x Hx Hxid. assert (x = u) as ->; [|done]. apply (unique_row user_ID (t_users (w_db w))); [|done..].
    apply Hok. }
  pose proof (stale_after_ops (user_ID u) _ ops w Hok Hnew Hall u1 Hin ltac:(congruence)). lia.
Qed.

(** ** A login is accepted *)

(** A user returned by the credential check: its row lets it in. *)
Definition lets_in (u : User) (d : DB) : Prop :=
  ∃ r, r ∈ t_users d ∧ user_ID r = user_ID u ∧ user_TokenVersion r = user_TokenVersion u
       ∧ user_Enabled r = true ∧ user_ApprovalStatus r ≠ ApprovalRejected
       ∧ user_TOTPEnabled r = user_TOTPEnabled u ∧ user_TOTPSecret r = user_TOTPSecret u.

Lemma lets_in_same u d d' : t_users d' = t_users d → lets_in u d → lets_in u d'.
Proof. unfold lets_in. by intros ->. Qed.

Lemma validateLoginUser_spec F u r d h :
  r ∈ t_users d → user_ID r = user_ID u → user_TokenVersion r = user_TokenVersion u →
  user_Enabled r = user_Enabled u → user_ApprovalStatus r = user_ApprovalStatus u →
  user_TOTPEnabled r = user_TOTPEnabled u → user_TOTPSecret r = user_TOTPSecret u →
  wp F (validateLoginUser u) (λ res d' _, d' = d ∧ ∀ u', res = Ok u' → lets_in u' d) d h.
Proof.
  intros Hr Hid Htv Hen Hap Htotp Hsecret. unfold validateLoginUser. wp_go; try done.
  eapply wp_mono; [apply withPermissions_spec|]. intros res d' h' [-> [p ->]]. split; [done|].
  intros u' [= <-]. exists r. cbn. simplify_bool. split_and!; congruence.
Qed.

Lemma sync_targets_users userID wanted seen targets now d h :
  wp true (sync_targets userID wanted seen targets now) (λ _ d' _, t_users d' = t_users d) d h.
Proof.
  revert seen d h. induction targets as [|t ts IH]; intros seen d h; cbn [sync_targets]; [by apply wp_ret|].
  unfold FindGroupByID, SetUserGroupMember. wp_go; try (by read_tables); try apply IH;
    (eapply wp_mono; [apply IH|]); intros ???; by read_tables; intros ->; read_tables.
Qed.

Lemma syncExternalGroups_users userID gs m now d h :
  wp true (syncExternalGroups userID gs m now) (λ _ d' _, t_users d' = t_users d) d h.
Proof.
  unfold syncExternalGroups. destruct (bool_decide _); [by apply wp_ret|apply sync_targets_users].
Qed.

(** A row with the fields [validateLoginUser] looks at. *)
Definition row_of (u : User) (d : DB) : Prop :=
  ∃ r, r ∈ t_users d ∧ user_ID r = user_ID u ∧ user_TokenVersion r = user_TokenVersion u
       ∧ user_Enabled r = user_Enabled u ∧ user_ApprovalStatus r = user_ApprovalStatus u
       ∧ user_TOTPEnabled r = user_TOTPEnabled u ∧ user_TOTPSecret r = user_TOTPSecret u.

Lemma row_of_same u d d' : t_users d' = t_users d → row_of u d → row_of u d'.
Proof. unfold row_of. by intros ->. Qed.

Lemma validate_row u d h :
  row_of u d → wp true (validateLoginUser u) (λ r d' _, ∀ u', r = Ok u' → lets_in u' d') d h.
Proof.
  intros (r & Hr & ? & ? & ? & ? & ? & ?). eapply wp_mono; [by apply (validateLoginUser_spec _ u r)|].
  cbn. intros res d' h' [-> Hu] u' Hres. by apply Hu.
Qed.

Lemma found_row P `{∀ x : User, Decision (P x)} d u :
  scanUser <$> select_one P (t_users d) = Some u → row_of u d.
Proof. intros (r & [Hr _]%select_one_Some & ->)%fmap_Some. by exists r. Qed.

Lemma or_invalid_spec {A} F (m : M A) Q d h :
  wp F m (λ r d' h', match r with Ok a => Q (Ok a) d' h' | Err _ => Q (Err ErrInvalidCredentials) d' h' end) d h →
  wp F (or_invalid m) Q d h.
Proof.
  intros Hm. unfold or_invalid. apply wp_bind, wp_try. eapply wp_mono; [exact Hm|].
  intros [a|e] d' h' Hr; [by apply wp_ret|by apply wp_throw].
Qed.

Lemma CreateUser_row user d h :
  user_ApprovalStatus user = ApprovalApproved → user_TOTPEnabled user = false → user_TOTPSecret user = "" →
  wp true (CreateUser user) (λ r d' _, r = Ok tt → row_of user d') d h.
Proof.
  intros Ha Ht Hsec. unfold CreateUser. rewrite Ha. cbn [bool_decide]. wp_go; try done; intros _.
  all: exists (user_row user ApprovalApproved); split; [read_tables|by rewrite Ha, Ht, Hsec].
  all: apply elem_of_app; right; apply list_elem_of_singleton; done.
Qed.

Lemma provisionExternalUser_spec provider profile f now d h :
  wp true (provisionExternalUser provider profile f now)
    (λ r d' _, ∀ u, r = Ok u → row_of u d') d h.
Proof.
  unfold provisionExternalUser. destruct (HashPassword _ _ _) as [hash|e]; cbn [lift];
    [|by apply wp_bind, wp_throw].
  apply wp_bind, wp_ret. set (user := new_user _ _ _ _ _ _ _ _ _ _). cbv zeta.
  apply wp_bind. eapply wp_mono; [by apply CreateUser_row|]. intros [[]|e] d1 h1 Hrow; [|done].
  specialize (Hrow eq_refl). unfold CreateOIDCIdentity, SetUserGroupMember.
  apply wp_bind, wp_try.
  apply wp_sql_insert; [intros _|intros d2 Ed2 _|intros _]; try (
    apply wp_bind, wp_try; eapply wp_mono; [apply wp_True|];
    intros; by apply wp_throw).
  apply wp_bind, wp_try. wp_go; intros u [= <-]; (eapply row_of_same; [|exact Hrow]); by read_tables.
Qed.

Lemma try_providers_spec username password f now ps d h :
  wp true (try_providers username password f now ps) (λ r d' _, ∀ u, r = Ok u → lets_in u d') d h.
Proof.
  revert d h. induction ps as [|p ps IH]; intros d h; cbn [try_providers]; [by apply wp_throw|].
  destruct (provider_Authenticate _ _ _) as [profile|]; [|apply IH].
  assert (Hrest : ∀ u d1 h1, row_of u d1 →
    wp true (or_invalid (syncExternalGroups (user_ID u) (profile_Groups profile) (groupMapping p) now))
      (λ r d' h', match r with
                  | Ok _ => wp true (validateLoginUser u) (λ r d' _, ∀ u', r = Ok u' → lets_in u' d') d' h'
                  | Err e => ∀ u', Err e = Ok u' → lets_in u' d'
                  end) d1 h1).
  { intros u d1 h1 Hrow. apply or_invalid_spec.
    eapply wp_mono; [apply syncExternalGroups_users|]. intros [[]|e] d2 h2 Heq; [|done].
    by apply validate_row, (row_of_same _ d1). }
  unfold FindOIDCIdentity, FindUserByUsername, FindUserByID. wp_go; try done.
  - apply or_invalid_spec. wp_go; try done. by eapply Hrest, found_row.
  - apply or_invalid_spec. eapply wp_mono; [apply provisionExternalUser_spec|].
    intros [u|e'] d1 h1 Hrow; [by apply wp_bind, Hrest, Hrow|done].
  - apply or_invalid_spec. eapply wp_mono; [apply provisionExternalUser_spec|].
    intros [u|e'] d1 h1 Hrow; [by apply wp_bind, Hrest, Hrow|done].
Qed.

Lemma VerifyCredentials_spec s username password f now d h :
  wp true (VerifyCredentials s username password f now) (λ r d' _, ∀ u, r = Ok u → lets_in u d') d h.
Proof.
  unfold VerifyCredentials, FindUserByUsername. wp_go; try apply try_providers_spec.
  by eapply validate_row, found_row.
Qed.

(** What a successful login leaves: the session row, the user's row, the claims. *)
Record logged_in (s : Service) (f : Entropy) (now : time) (out : LoginOutput) (d : DB) : Prop := {
  login_users : users_ok d;
  login_sessions : NoDup (session_ID <$> t_sessions d);
  login_user : lets_in (out_User out) d;
  login_row : ∃ ss, ss ∈ t_sessions d ∧ session_ID ss = fresh_session f
    ∧ session_UserID ss = user_ID (out_User out) ∧ session_RevokedAt ss = None
    ∧ session_ExpiresAt ss = millis (now + sessionTTL s);
  login_session : session_ID (out_Session out) = fresh_session f
    ∧ session_ExpiresAt (out_Session out) = now + sessionTTL s;
  login_token : Issue (tokens s) (out_User out) (out_Session out) now
                = Ok (AccessToken out, out_Claims out)
}.

Lemma CompleteLogin_spec s u input f now d h :
  lets_in u d →
  wp true (CompleteLogin s u input f now)
    (λ r d' _, ∀ out, r = Ok out → logged_in s f now out d') d h.
Proof.
  intros (r0 & Hr0 & Hid & Htv & Hen & Hap & Htotp & Hsecret). unfold CompleteLogin. apply wp_bind.
  eapply wp_mono; [apply withPermissions_spec|]. intros r d' h' [-> [p ->]]. cbv zeta.
  set (user := u <| user_Permissions := p |>). set (session := mkSession _ _ _ _ _ _ _ _ _).
  unfold CreateSession, UpdateLastLogin, StoreSessions.RevokeSession.
  wp_go; try done. intros out [= <-]. match goal with Hs : tbl_ok t_sessions ?ds |- _ =>
    pose proof (proj1 (Hs : sessions_ok ds)) as Hnd end.
  constructor; cbn [out_User out_Session out_Claims AccessToken]; try done.
  - revert Hnd. by read_tables.
  - exists (if decide (user_ID r0 = user_ID user)
            then r0 <| user_LastLoginAt := Some (millis now) |> <| user_UpdatedAt := millis now |> else r0).
    read_tables. rewrite elem_of_update_where. split; [by exists r0|]. by case_decide.
  - eexists. read_tables. rewrite elem_of_app, list_elem_of_singleton. split; [by right|done].
Qed.

Lemma Login_spec s input f now d h :
  wp true (Login s input f now) (λ r d' _, ∀ out, r = Ok out → logged_in s f now out d') d h.
Proof.
  unfold Login. apply wp_bind. eapply wp_mono; [apply VerifyCredentials_spec|].
  intros [u|e] d' h' Hu; [|done]. by apply CompleteLogin_spec, Hu.
Qed.

Lemma NewNumericDate_le t : NewNumericDate t ≤ t.
Proof. unfold NewNumericDate, second, millisecond. Z.to_euclidean_division_equations. lia. Qed.

Lemma NewNumericDate_millis t u : t ≤ u → NewNumericDate t ≤ fromMillis (millis u).
Proof.
  unfold NewNumericDate, fromMillis, millis, fromUnixMilli, UnixMilli, second, millisecond.
  intros. Z.to_euclidean_division_equations. lia.
Qed.

(** When the token and the session of a login end. *)
Definition login_expiry (s : Service) (now : time) : time :=
  NewNumericDate (Z.min (now + tokens_ttl (tokens s)) (now + sessionTTL s)).

(** The token of a login parses to its claims until it expires. *)
Lemma logged_in_parses s f now now' out d :
  logged_in s f now out d → user_ID (out_User out) ≠ "" → fresh_session f ≠ "" →
  now ≤ now' → now' < login_expiry s now →
  Parse (tokens s) now' (AccessToken out) = Ok (out_Claims out)
  ∧ claims_Subject (out_Claims out) = user_ID (out_User out)
  ∧ claims_SessionID (out_Claims out) = fresh_session f
  ∧ claims_TokenVersion (out_Claims out) = user_TokenVersion (out_User out).
Proof.
  intros [_ _ _ _ [Hsid Hexp] Htok] Huid Hfs Hle Hlt. unfold Issue in Htok.
  set (c := mkClaims _ _ _ _ _ _ _ _ _ _ _) in Htok.
  destruct (SignedString _ _) as [token|e] eqn:Hsign; [|done]. cbn in Htok. injection Htok as Ht Hc.
  rewrite <- Ht, <- Hc. split; [|by rewrite <- Hsid].
  unfold Parse. rewrite (jwt_accepts _ _ _ now' c token (NewNumericDate now) (login_expiry s now));
    try done.
  - rewrite !bool_decide_eq_false_2; [done|done|done|by cbn; rewrite Hsid|done].
  - by apply list_elem_of_singleton.
  - cbn. unfold login_expiry. rewrite Hexp. do 2 f_equal.
    destruct (Z.ltb_spec (now + sessionTTL s) (now + tokens_ttl (tokens s))); lia.
  - pose proof (NewNumericDate_le now). lia.
Qed.

(** C6: a login works: whichever way the credentials were checked and whatever
    statements failed on the way, the token of a successful [Login] is accepted
    by [Authenticate], with the user and session of the login, at every time
    from the login until the token or the session ends. *)
Theorem login_then_authenticate s input f now now' w out :
  (Login s input f now w).1 = Ok out →
  user_ID (out_User out) ≠ "" → fresh_session f ≠ "" →
  now ≤ now' → now' < login_expiry s now →
  ∃ u ss, (Authenticate s (AccessToken out) now' ((Login s input f now w).2 <| w_faults := [] |>)).1
          = Ok (u, ss, out_Claims out)
    ∧ user_ID u = user_ID (out_User out) ∧ session_ID ss = session_ID (out_Session out).
Proof.
  intros Hr Huid Hfs Hle Hlt. set (w' := (Login s input f now w).2 <| w_faults := [] |>).
  pose proof (wp_run (F:=true) _ _ w I (Login_spec s input f now _ _) out Hr) as Hin.
  change (w_db (Login s input f now w).2) with (w_db w') in Hin.
  destruct (logged_in_parses s f now now' out _ Hin) as (Hp & Hsub & Hsid & Htv); [done..|].
  destruct Hin as [[Hus _] Hss (ru & Hru & Hruid & Hrtv & Hen & Hap & _)
                   (rs & Hrs & Hrsid & Hrsu & Hrev & Hexp) [Hos _] _].
  assert (Had : admissible (out_Claims out) now' (w_db w')).
  { exists ru, rs. unfold user_of, session_of. rewrite Hsub, Hsid, <- Hruid, <- Hrsid.
    rewrite (select_one_unique user_ID), (select_one_unique session_ID) by done.
    split_and!; try done; try congruence. rewrite Hexp.
    pose proof (NewNumericDate_millis (Z.min (now + tokens_ttl (tokens s)) (now + sessionTTL s))
                  (now + sessionTTL s) ltac:(lia)) as Hms. unfold login_expiry in Hlt. lia. }
  pose proof (wp_run (F:=false) _ _ w' eq_refl (Authenticate_spec false s (AccessToken out) now' _ _)) as Ha.
  destruct (Authenticate s (AccessToken out) now' w').1 as [[[u ss] c]|e].
  - destruct Ha as (Hp' & _ & Hu & Hs'). rewrite Hp in Hp'. injection Hp' as <-.
    exists u, ss. split; [done|]. split; congruence.
  - destruct Ha as [?|Hn]; [done|]. by destruct (Hn _ Hp).
Qed.
End Authentication.

(** ** A concrete service

    The library that signs one set of claims, which it accepts in their window. *)

#[export] Instance Claims_eq_dec : EqDecision Claims.
Proof. solve_decision. Defined.

Section OneToken.
Context (key : string * string * string) (c0 : Claims).

Definition one_token_parse (k : string * string * string) (now : time) (raw : string) : jwt_result :=
  if bool_decide (raw = "token") && bool_decide (k = key) then
    match claims_IssuedAt c0, claims_ExpiresAt c0 with
    | Some iat, Some exp => if exp <=? now then JwtExpired else if now <? iat then JwtInvalid else JwtValid c0
    | _, _ => JwtInvalid
    end
  else JwtInvalid.

#[local] Program Instance one_token : Jwt := {|
  SignedString := λ secret c, if decide (c = c0 ∧ key = (secret, claims_Issuer c, default "" (head (claims_Audience c)))
                                         ∧ length (claims_Audience c) = 1%nat)
                              then Ok "token" else Err (ErrText "unknown claims");
  ParseWithClaims := one_token_parse
|}.
Next Obligation.
  intros secret issuer audience now c token iat exp. cbn. case_decide as Hc; [|done].
  destruct Hc as (-> & Hkey & Hlen). intros [= <-] <- Ha Hiat Hexp Hle Hlt. unfold one_token_parse.
  destruct (claims_Audience c0) as [|a [|]] eqn:Haud; try done.
  apply list_elem_of_singleton in Ha as ->. rewrite !bool_decide_eq_true_2 by done. cbn [andb].
  rewrite Hiat, Hexp. destruct (Z.leb_spec exp now), (Z.ltb_spec now iat); try lia. done.
Qed.
End OneToken.

Definition ex_tokens : TokenManager := NewTokenManager "secret" "api" "clients" (15 * minute).
Definition ex_claims : Claims :=
  mkClaims "s9" "alice" "" RoleUser 1 "" "u1" "api" ["clients"] (Some (10 * second))
    (Some (10 * second + 15 * minute)).
Definition ex_jwt : Jwt := one_token ("secret", "api", "clients") ex_claims.
Definition ex_entropy : Entropy := mkEntropy "u9" "s9" "x" (Some (replicate 16 Ascii.zero)) 4.
Definition ex_input : LoginInput := mkLoginInput "alice" "secret" "" "" "".
Definition ex_service : Service :=
  mkService ex_tokens hour "" [] (mkPasswordPolicy 1 false false false false).
Definition ex_login_world : world :=
  ex_world <| w_db := ex_accounts <| t_users := [ex_user "u1" "alice" RoleUser <| user_PasswordHash :=
    match @HashPassword ex_argon2 "secret" (Some (replicate 16 Ascii.zero)) 4 with
    | Ok h => h | Err _ => "" end |>] |> <| t_sessions := [] |> |>.
Abbreviation ex_login :=
  (@Login ascii_unicode ex_argon2 ex_jwt ex_service ex_input ex_entropy (10 * second) ex_login_world)
  (only parsing).

Lemma login_then_authenticate_witness :
  ∃ out, ex_login.1 = Ok out
  ∧ ∃ u ss, (@Authenticate ex_jwt ex_service (AccessToken out) (11 * second)
               (ex_login.2 <| w_faults := [] |>)).1 = Ok (u, ss, out_Claims out)
            ∧ user_ID u = user_ID (out_User out) ∧ session_ID ss = session_ID (out_Session out).
Proof.
  assert (Hex : match ex_login.1 with
                | Ok out => bool_decide (user_ID (out_User out) ≠ "") = true
                | Err _ => False end) by (vm_compute; reflexivity).
  destruct ex_login.1 as [out|e] eqn:Hr; [|destruct Hex].
  exists out. split; [reflexivity|].
  apply (@login_then_authenticate ascii_unicode ex_argon2 ex_jwt ex_service ex_input ex_entropy
           (10 * second) (11 * second) ex_login_world out Hr).
  - exact (bool_decide_eq_true_1 _ Hex).
  - discriminate.
  - vm_compute. discriminate.
  - vm_compute. reflexivity.
Defined.

Lemma Authenticate_decides_witness :
  is_ok (@Authenticate ex_jwt ex_service "token" (11 * second) ex_login.2).1 = true.
Proof.
  apply (proj2 (@Authenticate_decides ex_jwt ex_service "token" (11 * second) ex_login.2))
    with (c := ex_claims).
  - vm_compute. reflexivity.
  - vm_compute. reflexivity.
  - do 2 eexists. split; [vm_compute; reflexivity|]. split; [vm_compute; reflexivity|].
    split_and!; vm_compute; congruence.
Defined.

Lemma stale_token_never_accepted_witness :
  is_ok (@Authenticate ex_jwt ex_service "token" (11 * second)
           (@run_session_ops ascii_unicode [OpAccount (OpSetUserEnabled "u1" true 0); OpTouchSession "s9" 0]
              (@StoreUsers.ForceRelogin "u1" 0 ex_login.2).2 <| w_faults := [] |>)).1 = false.
Proof.
  set (w := (@StoreUsers.ForceRelogin "u1" 0 ex_login.2).2).
  destruct (t_users (w_db w)) as [|u l] eqn:Hu; [vm_compute in Hu; discriminate Hu|].
  apply (@stale_token_never_accepted ascii_unicode ex_jwt ex_service "token"
           (11 * second) ex_claims u).
  - apply (bool_decide_eq_true_1 (accounts_ok (w_db w))). vm_compute. reflexivity.
  - rewrite Hu. left.
  - vm_compute in Hu. injection Hu as <- _. reflexivity.
  - vm_compute in Hu. injection Hu as <- _. reflexivity.
  - repeat constructor.
  - vm_compute. reflexivity.
Defined.
