(* ===== verification/Http.v ===== *)
(** * Requests, replies and guards (art-api/internal/httpapi: server.go, context.go, rbac.go)

    A handler is a program of the monad [M] that always ends in a [Reply]; the
    JSON of a reply is kept as the value that [writeJSON] is given.  A request
    body is the decoded struct, [None] when [decodeJSON] refuses it.  One
    handler reads the clock once: [call_now]. *)

From S2P Require Export Authentication Mfa AuditService.
From S2P Require Import Text Crypto Sample.

(** ** Replies *)

Inductive content (A : Type) :=
| Value (a : A)                    (* writeJSON of a value *)
| Message (message : string)       (* writeError *)
| NoContent.                       (* writeJSON of nil, and WriteHeader alone *)
Arguments Value {A} a.
Arguments Message {A} message.
Arguments NoContent {A}.

Record Reply (A : Type) := mkReply { reply_Status : Z; reply_Content : content A }.
Arguments mkReply {A} reply_Status reply_Content.
Arguments reply_Status {A} r.
Arguments reply_Content {A} r.

Definition writeJSON {A} (status : Z) (value : A) : Reply A := mkReply status (Value value).
Definition writeError {A} (status : Z) (message : string) : Reply A := mkReply status (Message message).

Definition statusForStore (e : error) : Z := match e with ErrNotFound => 404 | _ => 500 end.

(** ** Requests *)

Record Request := mkRequest {
  request_Header : string → string;   (* Header.Get *)
  request_IP : string;                (* clientIP *)
  request_UserAgent : string
}.

(** What a request draws: the time, the stamps of the audit events and the
    identifiers and random bytes of the authentication service. *)
Record Call := mkCall { call_now : time; call_stamp : nat → Stamp; call_entropy : Entropy }.

Record Principal := mkPrincipal {
  principal_User : User; principal_Session : Session; principal_Claims : Claims }.

(** The fields of [Server] that the modelled handlers use. *)
Record Server := mkServer {
  server_auth : Auth.Service;
  server_mfa : Mfa.Service;
  server_internalSecret : string;
  server_builderToken : string
}.

(** [_ = s.audit.Record(ctx, event)] *)
Definition record (c : Call) (index : nat) (event : AuditEvent) : M unit :=
  discard (try (Audit_Record event (call_stamp c index))).

(** [domain.AuditEvent] with the fields given, the others zero. *)
Definition audit_event (type actor session ip result reason : string) (metadata : gmap string any) : AuditEvent :=
  mkAuditEvent "" zero_time type actor session "" "" ip result reason metadata.

(** ** Permissions *)

Definition hasPermission (user : User) (permission : string) : bool :=
  bool_decide (user_Role user = RoleAdmin)
  || existsb (λ candidate, bool_decide (candidate = PermissionAll) || bool_decide (candidate = permission))
       (user_Permissions user).

Definition canGrant (user : User) (permissions : list string) : bool :=
  bool_decide (user_Role user = RoleAdmin) || forallb (hasPermission user) permissions.

Definition authErrorMessage (e : error) : string :=
  match e with
  | ErrTokenExpired | ErrSessionExpired => "session expired"
  | ErrSessionRevoked => "session revoked"
  | ErrUserDisabled => "user disabled"
  | ErrApprovalRejected => "registration rejected"
  | ErrStaleToken => "force re-login required"
  | _ => "invalid token"
  end.

Section Guards.
Context `{Unicode} `{Argon2} `{Jwt}.

(** ** The guards *)

Definition requireAuth {A} (s : Server) (req : Request) (c : Call) (next : Principal → M (Reply A)) : M (Reply A) :=
  let header := request_Header req "Authorization" in
  if negb (HasPrefix header "Bearer ") then ret (writeError 401 "authentication required") else
  found ← try (Authenticate (server_auth s) (TrimSpace (TrimPrefix header "Bearer ")) (call_now c));
  match found with
  | Err e => ret (writeError 401 (authErrorMessage e))
  | Ok (user, session, claims) => next (mkPrincipal user session claims)
  end.

Definition requirePermission {A} (s : Server) (permission : string) (req : Request) (c : Call)
    (next : Principal → M (Reply A)) : M (Reply A) :=
  requireAuth s req c (λ principal,
    if negb (hasPermission (principal_User principal) permission) then ret (writeError 403 "forbidden")
    else next principal).

(** [len(a) == len(b) && subtle.ConstantTimeCompare(a, b) == 1] is equality. *)
Definition internal_token (req : Request) : string :=
  let header := request_Header req "X-RDS-Internal-Token" in
  if bool_decide (header = "") then request_Header req "X-ART-Internal-Token" else header.

Definition requireInternal {A} (s : Server) (req : Request) (next : M (Reply A)) : M (Reply A) :=
  if negb (bool_decide (internal_token req = server_internalSecret s))
  then ret (writeError 401 "unauthorized") else next.

Definition bearer (req : Request) : string :=
  TrimSpace (TrimPrefix (TrimSpace (request_Header req "Authorization")) "Bearer ").

Definition requireBuilder {A} (s : Server) (req : Request) (next : M (Reply A)) : M (Reply A) :=
  if (len (server_builderToken s) <? 32) || negb (bool_decide (bearer req = server_builderToken s))
  then ret (writeError 401 "unauthorized") else next.

(** builder_api.go *)
Definition builderTokenHash (token : string) : string := hex_encode (sha256_Sum (bytes_of token)).

Definition findBuilderWorkerByToken (token : string) : M BuilderWorker :=
  if len token <? 32 then throw ErrNotFound else FindBuilderWorkerByTokenHash (builderTokenHash token).

Definition requireBuilderWorker {A} (req : Request) (next : string → M (Reply A)) : M (Reply A) :=
  worker ← try (findBuilderWorkerByToken (bearer req));
  match worker with
  | Err _ => ret (writeError 401 "unauthorized")
  | Ok worker => next (worker_ID worker)
  end.

(** ** The routes *)

Inductive guard :=
| Public
| RequireAuth
| RequirePermission (permission : string)
| RequireInternal
| RequireBuilder
| RequireBuilderWorker.

(** What a guard hands to its handler. *)
Inductive caller :=
| Anyone
| User_ (principal : Principal)
| InternalService
| Builder
| BuilderWorker_ (id : string).

(** A handler behind its guard. *)
Definition guarded {A} (s : Server) (g : guard) (req : Request) (c : Call) (next : caller → M (Reply A))
    : M (Reply A) :=
  match g with
  | Public => next Anyone
  | RequireAuth => requireAuth s req c (λ p, next (User_ p))
  | RequirePermission permission => requirePermission s permission req c (λ p, next (User_ p))
  | RequireInternal => requireInternal s req (next InternalService)
  | RequireBuilder => requireBuilder s req (next Builder)
  | RequireBuilderWorker => requireBuilderWorker req (λ id, next (BuilderWorker_ id))
  end.
End Guards.

(** The patterns of [Server.routes] with their guards and handlers. *)
Definition routes : list (string * guard * string) := [
  ("POST /api/admin/relay-servers/{relayID}/enrollment", RequirePermission PermissionRelaysWrite, "createRelayEnrollment");
  ("GET /api/admin/relay-servers/{relayID}/delivery", RequirePermission PermissionRelaysRead, "relayDeliveryStatus");
  ("POST /api/admin/relay-servers/{relayID}/delivery/compact", RequirePermission PermissionRelaysWrite, "compactRelayDelivery");
  ("GET /api/admin/relay-servers/{relayID}/quarantine", RequirePermission PermissionRelaysRead, "relayQuarantine");
  ("GET /api/admin/relay-servers/{relayID}/quarantine/export", RequirePermission PermissionRelaysWrite, "exportRelayQuarantine");
  ("POST /api/admin/relay-servers/{relayID}/quarantine/archive", RequirePermission PermissionRelaysWrite, "archiveRelayQuarantine");
  ("DELETE /api/admin/relay-servers/{relayID}/credential", RequirePermission PermissionRelaysWrite, "revokeRelayCredential");
  ("POST /api/relay/enroll", Public, "enrollRelay");
  ("GET /api/relay/{relayID}/control", Public, "connectRelay");
  ("POST /internal/v1/relay/permit", RequireInternal, "permitRelay");
  ("GET /healthz", Public, "health");
  ("GET /metrics", Public, "metrics");
  ("GET /api/login-options", Public, "loginOptions");
  ("GET /api/registration-options", Public, "registrationOptions");
  ("GET /api/branding/logo", Public, "brandingLogo");
  ("GET /api/avatar/{userID}", Public, "userAvatar");
  ("GET /avatar/{userID}", Public, "userAvatar");
  ("POST /api/register", Public, "register");
  ("POST /api/oidc/auth", Public, "oidcAuth");
  ("GET /api/oidc/auth-query", Public, "oidcAuthQuery");
  ("GET /api/oidc/callback", Public, "oidcCallback");
  ("POST /api/login", Public, "login");
  ("POST /api/heartbeat", Public, "clientHeartbeat");
  ("POST /api/sysinfo", Public, "clientSysinfo");
  ("POST /api/sysinfo_ver", Public, "clientSysinfoVersion");
  ("POST /api/audit/conn", Public, "clientConnectionAudit");
  ("POST /api/audit/file", Public, "clientFileAudit");
  ("GET /api/users", RequireAuth, "clientUsers");
  ("GET /api/peers", RequireAuth, "clientPeers");
  ("GET /api/device-group/accessible", RequireAuth, "clientDeviceGroups");
  ("POST /api/logout", RequireAuth, "logout");
  ("POST /api/logout/all", RequireAuth, "logoutAll");
  ("GET /api/me", RequireAuth, "me");
  ("POST /api/me/avatar", RequireAuth, "uploadMyAvatar");
  ("DELETE /api/me/avatar", RequireAuth, "deleteMyAvatar");
  ("GET /api/api-tokens", RequireAuth, "listAPITokens");
  ("POST /api/api-tokens", RequireAuth, "createAPIToken");
  ("DELETE /api/api-tokens/{tokenID}", RequireAuth, "revokeAPIToken");
  ("POST /api/devices/deploy", Public, "deployDevice");
  ("POST /api/mfa/totp/enroll", RequireAuth, "enrollTOTP");
  ("POST /api/mfa/totp/confirm", RequireAuth, "confirmTOTP");
  ("DELETE /api/mfa/totp", RequireAuth, "disableTOTP");
  ("POST /api/mfa/totp/recovery-codes", RequireAuth, "regenerateRecoveryCodes");
  ("GET /api/oidc/identities", RequireAuth, "listMyOIDCIdentities");
  ("POST /api/oidc/link", RequireAuth, "beginOIDCLink");
  ("GET /api/oidc/link-query", RequireAuth, "queryOIDCLink");
  ("DELETE /api/oidc/identity", RequireAuth, "deleteMyOIDCIdentity");
  ("DELETE /api/admin/users/{userID}/mfa", RequirePermission PermissionUsersWrite, "adminResetTOTP");
  ("GET /api/admin/oidc/identities", RequirePermission PermissionUsersRead, "listAdminOIDCIdentities");
  ("DELETE /api/admin/oidc/identity", RequirePermission PermissionUsersWrite, "deleteAdminOIDCIdentity");
  ("GET /api/user/info", RequireAuth, "me");
  ("GET /api/currentUser", RequireAuth, "me");
  ("POST /api/currentUser", RequireAuth, "me");
  ("POST /api/sessions/{sessionID}/revoke", RequireAuth, "revokeSession");
  ("POST /api/admin/users/{userID}/disable", RequirePermission PermissionUsersWrite, "disableUser");
  ("POST /api/admin/users/{userID}/enable", RequirePermission PermissionUsersWrite, "enableUser");
  ("POST /api/admin/users/{userID}/force-relogin", RequirePermission PermissionUsersWrite, "forceRelogin");
  ("POST /api/admin/users/{userID}/approve", RequirePermission PermissionUsersWrite, "approveUser");
  ("POST /api/admin/users/{userID}/reject", RequirePermission PermissionUsersWrite, "rejectUser");
  ("GET /api/admin/users", RequirePermission PermissionUsersRead, "listUsers");
  ("POST /api/admin/users", RequirePermission PermissionUsersWrite, "createUser");
  ("PATCH /api/admin/users/{userID}", RequirePermission PermissionUsersWrite, "updateUser");
  ("DELETE /api/admin/users/{userID}", RequirePermission PermissionUsersWrite, "deleteUser");
  ("POST /api/admin/users/{userID}/password", RequirePermission PermissionUsersWrite, "setUserPassword");
  ("POST /api/admin/users/{userID}/avatar", RequirePermission PermissionUsersWrite, "uploadAdminUserAvatar");
  ("DELETE /api/admin/users/{userID}/avatar", RequirePermission PermissionUsersWrite, "deleteAdminUserAvatar");
  ("GET /api/admin/devices", RequirePermission PermissionDevicesRead, "listDevices");
  ("PATCH /api/admin/devices", RequirePermission PermissionDevicesWrite, "bulkUpdateDevices");
  ("PATCH /api/admin/devices/{rustdeskID}", RequirePermission PermissionDevicesWrite, "updateDevice");
  ("POST /api/admin/devices/{rustdeskID}/archive", RequirePermission PermissionDevicesWrite, "archiveDevice");
  ("POST /api/admin/devices/{rustdeskID}/restore", RequirePermission PermissionDevicesWrite, "restoreDevice");
  ("DELETE /api/admin/devices/{rustdeskID}", RequirePermission PermissionDevicesWrite, "deleteArchivedDevice");
  ("GET /api/admin/devices-export.csv", RequirePermission PermissionDevicesRead, "exportDevicesCSV");
  ("POST /api/admin/devices-import.csv", RequirePermission PermissionDevicesWrite, "importDevicesCSV");
  ("GET /api/admin/groups", RequirePermission PermissionGroupsRead, "listGroups");
  ("POST /api/admin/groups", RequirePermission PermissionGroupsWrite, "createGroup");
  ("PATCH /api/admin/groups/{groupID}", RequirePermission PermissionGroupsWrite, "updateGroup");
  ("DELETE /api/admin/groups/{groupID}", RequirePermission PermissionGroupsWrite, "deleteGroup");
  ("GET /api/admin/groups/{groupID}/members", RequirePermission PermissionGroupsRead, "listGroupMembers");
  ("PUT /api/admin/groups/{groupID}/members/{userID}", RequirePermission PermissionGroupsWrite, "addGroupMember");
  ("DELETE /api/admin/groups/{groupID}/members/{userID}", RequirePermission PermissionGroupsWrite, "removeGroupMember");
  ("GET /api/admin/sessions", RequirePermission PermissionSessionsRead, "listSessions");
  ("GET /api/admin/sessions/query", RequirePermission PermissionSessionsRead, "querySessions");
  ("GET /api/admin/sessions/summary", RequirePermission PermissionSessionsRead, "sessionSummary");
  ("POST /api/admin/sessions/revoke", RequirePermission PermissionSessionsRevoke, "bulkRevokeSessions");
  ("GET /api/admin/connections", RequirePermission PermissionAuditRead, "liveConnections");
  ("POST /api/admin/connections/contain", RequirePermission PermissionSessionsRevoke, "containLiveConnection");
  ("GET /api/admin/audit", RequirePermission PermissionAuditRead, "listAudit");
  ("GET /api/admin/audit/query", RequirePermission PermissionAuditRead, "queryAudit");
  ("GET /api/admin/audit/summary", RequirePermission PermissionAuditRead, "auditSummary");
  ("GET /api/admin/audit/export.csv", RequirePermission PermissionAuditRead, "exportAuditCSV");
  ("GET /api/admin/notifications", RequirePermission PermissionAuditRead, "listNotifications");
  ("POST /api/admin/notifications/read-all", RequirePermission PermissionAuditRead, "markAllNotificationsRead");
  ("POST /api/admin/notifications/{notificationID}/read", RequirePermission PermissionAuditRead, "markNotificationRead");
  ("GET /api/admin/automation/rules", RequirePermission PermissionAutomationRead, "listAutomationRules");
  ("POST /api/admin/automation/rules", RequirePermission PermissionAutomationWrite, "createAutomationRule");
  ("PATCH /api/admin/automation/rules/{ruleID}", RequirePermission PermissionAutomationWrite, "updateAutomationRule");
  ("DELETE /api/admin/automation/rules/{ruleID}", RequirePermission PermissionAutomationWrite, "deleteAutomationRule");
  ("GET /api/admin/automation/runs", RequirePermission PermissionAutomationRead, "listAutomationRuns");
  ("GET /api/admin/cluster", RequirePermission PermissionInfrastructureRead, "clusterState");
  ("GET /api/admin/support-bundle", RequirePermission PermissionInfrastructureRead, "supportBundle");
  ("GET /api/admin/settings", RequirePermission PermissionSettingsRead, "settings");
  ("PATCH /api/admin/settings", RequirePermission PermissionSettingsWrite, "updateSettings");
  ("POST /api/admin/settings/logo", RequirePermission PermissionSettingsWrite, "uploadBrandingLogo");
  ("DELETE /api/admin/settings/logo", RequirePermission PermissionSettingsWrite, "deleteBrandingLogo");
  ("POST /api/admin/settings/avatar", RequirePermission PermissionSettingsWrite, "uploadGlobalAvatar");
  ("DELETE /api/admin/settings/avatar", RequirePermission PermissionSettingsWrite, "deleteGlobalAvatar");
  ("GET /api/admin/backups/sqlite", RequirePermission PermissionBackupRead, "backupSQLite");
  ("POST /api/admin/backups/sqlite/inspect", RequirePermission PermissionBackupRead, "inspectSQLiteBackup");
  ("GET /api/admin/backups", RequirePermission PermissionBackupRead, "listManagedBackups");
  ("POST /api/admin/backups", RequirePermission PermissionBackupWrite, "createManagedBackup");
  ("GET /api/admin/backups/restore", RequirePermission PermissionBackupRead, "restoreStatus");
  ("POST /api/admin/backups/restore", RequirePermission PermissionBackupWrite, "stageRestore");
  ("DELETE /api/admin/backups/restore", RequirePermission PermissionBackupWrite, "cancelRestore");
  ("GET /api/admin/backups/{name}", RequirePermission PermissionBackupRead, "downloadManagedBackup");
  ("DELETE /api/admin/backups/{name}", RequirePermission PermissionBackupWrite, "deleteManagedBackup");
  ("GET /api/admin/infrastructure", RequirePermission PermissionInfrastructureRead, "infrastructure");
  ("GET /api/admin/presence", RequirePermission PermissionUsersRead, "userPresence");
  ("GET /api/admin/preferences/dashboard", RequireAuth, "getDashboardLayout");
  ("PUT /api/admin/preferences/dashboard", RequireAuth, "putDashboardLayout");
  ("GET /api/admin/diagnostics", RequirePermission PermissionInfrastructureRead, "diagnostics");
  ("GET /api/admin/infrastructure/commands", RequirePermission PermissionInfrastructureRead, "listServiceCommands");
  ("POST /api/admin/infrastructure/commands", RequirePermission PermissionInfrastructureWrite, "createServiceCommand");
  ("GET /api/admin/address-books", RequirePermission PermissionAddressBooksRead, "listAddressBooks");
  ("POST /api/admin/address-books", RequirePermission PermissionAddressBooksWrite, "createAddressBook");
  ("PATCH /api/admin/address-books/{bookID}", RequirePermission PermissionAddressBooksWrite, "updateAddressBook");
  ("DELETE /api/admin/address-books/{bookID}", RequirePermission PermissionAddressBooksWrite, "deleteAddressBook");
  ("GET /api/admin/address-books/{bookID}/entries", RequirePermission PermissionAddressBooksRead, "listAddressBookEntries");
  ("POST /api/admin/address-books/{bookID}/entries", RequirePermission PermissionAddressBooksWrite, "createAddressBookEntry");
  ("PATCH /api/admin/address-books/{bookID}/entries/{entryID}", RequirePermission PermissionAddressBooksWrite, "updateAddressBookEntry");
  ("DELETE /api/admin/address-books/{bookID}/entries/{entryID}", RequirePermission PermissionAddressBooksWrite, "deleteAddressBookEntry");
  ("GET /api/address-books", RequireAuth, "listAddressBooks");
  ("POST /api/address-books", RequireAuth, "createAddressBook");
  ("PATCH /api/address-books/{bookID}", RequireAuth, "updateAddressBook");
  ("DELETE /api/address-books/{bookID}", RequireAuth, "deleteAddressBook");
  ("GET /api/address-books/{bookID}/entries", RequireAuth, "listAddressBookEntries");
  ("POST /api/address-books/{bookID}/entries", RequireAuth, "createAddressBookEntry");
  ("PATCH /api/address-books/{bookID}/entries/{entryID}", RequireAuth, "updateAddressBookEntry");
  ("DELETE /api/address-books/{bookID}/entries/{entryID}", RequireAuth, "deleteAddressBookEntry");
  ("GET /api/address-books/{bookID}/grants", RequireAuth, "listAddressBookGrants");
  ("PUT /api/address-books/{bookID}/grants", RequireAuth, "putAddressBookGrant");
  ("DELETE /api/address-books/{bookID}/grants/{grantID}", RequireAuth, "deleteAddressBookGrant");
  ("GET /api/ab", RequireAuth, "legacyAddressBook");
  ("POST /api/ab", RequireAuth, "updateLegacyAddressBook");
  ("POST /api/ab/get", RequireAuth, "legacyAddressBook");
  ("POST /api/ab/personal", RequireAuth, "clientPersonalAddressBook");
  ("POST /api/ab/settings", RequireAuth, "clientAddressBookSettings");
  ("POST /api/ab/shared/profiles", RequireAuth, "clientSharedAddressBooks");
  ("POST /api/ab/shared-profiles", RequireAuth, "clientSharedAddressBooks");
  ("GET /api/ab/peers", RequireAuth, "clientAddressBookPeers");
  ("POST /api/ab/peers", RequireAuth, "clientAddressBookPeers");
  ("POST /api/ab/tags/{bookID}", RequireAuth, "clientAddressBookTags");
  ("POST /api/ab/tag/add/{bookID}", RequireAuth, "clientAddAddressBookTag");
  ("PUT /api/ab/tag/rename/{bookID}", RequireAuth, "clientRenameAddressBookTag");
  ("PUT /api/ab/tag/update/{bookID}", RequireAuth, "clientUpdateAddressBookTag");
  ("DELETE /api/ab/tag/{bookID}", RequireAuth, "clientDeleteAddressBookTags");
  ("POST /api/ab/peer/add/{bookID}", RequireAuth, "clientAddAddressBookPeer");
  ("PUT /api/ab/peer/update/{bookID}", RequireAuth, "clientUpdateAddressBookPeer");
  ("DELETE /api/ab/peer/{bookID}", RequireAuth, "clientDeleteAddressBookPeer");
  ("GET /api/admin/relay-servers", RequirePermission PermissionRelaysRead, "listRelayServers");
  ("POST /api/admin/relay-servers", RequirePermission PermissionRelaysWrite, "createRelayServer");
  ("PATCH /api/admin/relay-servers/{relayID}", RequirePermission PermissionRelaysWrite, "updateRelayServer");
  ("DELETE /api/admin/relay-servers/{relayID}", RequirePermission PermissionRelaysWrite, "deleteRelayServer");
  ("GET /api/admin/relay-servers/{relayID}/metrics", RequirePermission PermissionRelaysRead, "listRelayMetrics");
  ("GET /api/admin/acl", RequirePermission PermissionACLRead, "listACLRules");
  ("POST /api/admin/acl/evaluate", RequirePermission PermissionACLRead, "evaluateACL");
  ("POST /api/admin/acl", RequirePermission PermissionACLWrite, "createACLRule");
  ("PATCH /api/admin/acl/{ruleID}", RequirePermission PermissionACLWrite, "updateACLRule");
  ("DELETE /api/admin/acl/{ruleID}", RequirePermission PermissionACLWrite, "deleteACLRule");
  ("GET /api/admin/strategies", RequirePermission PermissionStrategiesRead, "listStrategies");
  ("GET /api/admin/strategies/schema", RequirePermission PermissionStrategiesRead, "strategySchema");
  ("POST /api/admin/strategies/evaluate", RequirePermission PermissionStrategiesRead, "evaluateStrategy");
  ("POST /api/admin/strategies", RequirePermission PermissionStrategiesWrite, "createStrategy");
  ("PATCH /api/admin/strategies/{strategyID}", RequirePermission PermissionStrategiesWrite, "updateStrategy");
  ("DELETE /api/admin/strategies/{strategyID}", RequirePermission PermissionStrategiesWrite, "deleteStrategy");
  ("GET /api/admin/roles", RequirePermission PermissionRolesRead, "listRoles");
  ("POST /api/admin/roles", RequirePermission PermissionRolesWrite, "createRole");
  ("PATCH /api/admin/roles/{roleID}", RequirePermission PermissionRolesWrite, "updateRole");
  ("DELETE /api/admin/roles/{roleID}", RequirePermission PermissionRolesWrite, "deleteRole");
  ("GET /api/admin/permissions", RequirePermission PermissionRolesRead, "listPermissions");
  ("GET /api/admin/webhooks", RequirePermission PermissionWebhooksRead, "listWebhooks");
  ("POST /api/admin/webhooks", RequirePermission PermissionWebhooksWrite, "createWebhook");
  ("PATCH /api/admin/webhooks/{webhookID}", RequirePermission PermissionWebhooksWrite, "updateWebhook");
  ("DELETE /api/admin/webhooks/{webhookID}", RequirePermission PermissionWebhooksWrite, "deleteWebhook");
  ("GET /api/admin/webhooks/{webhookID}/deliveries", RequirePermission PermissionWebhooksRead, "listWebhookDeliveries");
  ("GET /api/admin/client-profiles", RequirePermission PermissionClientProfilesRead, "listClientProfiles");
  ("POST /api/admin/client-profiles", RequirePermission PermissionClientProfilesWrite, "createClientProfile");
  ("PATCH /api/admin/client-profiles/{profileID}", RequirePermission PermissionClientProfilesWrite, "updateClientProfile");
  ("DELETE /api/admin/client-profiles/{profileID}", RequirePermission PermissionClientProfilesWrite, "deleteClientProfile");
  ("GET /api/admin/client-profiles/{profileID}/bundle", RequirePermission PermissionClientProfilesRead, "clientProfileBundle");
  ("GET /api/admin/client-profile-assignments", RequirePermission PermissionClientProfilesRead, "listClientProfileAssignments");
  ("POST /api/admin/client-profile-assignments", RequirePermission PermissionClientProfilesWrite, "createClientProfileAssignment");
  ("DELETE /api/admin/client-profile-assignments/{assignmentID}", RequirePermission PermissionClientProfilesWrite, "deleteClientProfileAssignment");
  ("GET /api/admin/client-builds", RequirePermission PermissionClientProfilesRead, "listClientBuilds");
  ("GET /api/admin/builder-workers", RequirePermission PermissionClientProfilesRead, "listBuilderWorkers");
  ("POST /api/admin/client-builds", RequirePermission PermissionClientProfilesWrite, "createClientBuild");
  ("POST /api/admin/client-builds/{buildID}/cancel", RequirePermission PermissionClientProfilesWrite, "cancelClientBuild");
  ("POST /api/admin/client-builds/{buildID}/retry", RequirePermission PermissionClientProfilesWrite, "retryClientBuild");
  ("GET /api/admin/client-builds/{buildID}/artifact", RequirePermission PermissionClientProfilesRead, "clientBuildArtifact");
  ("GET /internal/v1/client-profile/{rustdeskID}", RequireInternal, "effectiveClientProfile");
  ("POST /internal/v1/client-builds/claim", RequireBuilderWorker, "claimClientBuild");
  ("POST /internal/v1/builders/register", RequireBuilder, "registerBuilderWorker");
  ("POST /internal/v1/builders/heartbeat", RequireBuilderWorker, "registerBuilderWorker");
  ("POST /internal/v1/client-builds/{buildID}/heartbeat", RequireBuilderWorker, "heartbeatClientBuild");
  ("GET /internal/v1/client-builds/{buildID}/payload", RequireBuilderWorker, "clientBuildPayload");
  ("POST /internal/v1/client-builds/{buildID}/complete", RequireBuilderWorker, "completeClientBuild");
  ("POST /internal/v1/client-builds/{buildID}/fail", RequireBuilderWorker, "failClientBuild");
  ("GET /internal/v1/auth/snapshot", RequireInternal, "authSnapshot");
  ("GET /internal/v1/relay/select", RequireInternal, "selectRelay");
  ("GET /internal/v1/auth/events", RequireInternal, "authEvents");
  ("POST /internal/v1/audit/connections", RequireInternal, "connectionAudit");
  ("POST /internal/v1/devices/heartbeat", RequireInternal, "deviceHeartbeat");
  ("POST /internal/v1/relay/telemetry", RequireInternal, "relayTelemetry");
  ("POST /internal/v1/relay/connections/state", RequireInternal, "relayConnectionState");
  ("POST /internal/v1/services/heartbeat", RequireInternal, "serviceHeartbeat");
  ("GET /", Public, "webui") ].

(** ** What the guards let through *)

Definition role_permissions (d : DB) (role : string) : list string :=
  if bool_decide (role = RoleAdmin) then [PermissionAll]
  else match select_one (λ r, roledef_ID r = role) (t_roles d) with
       | Some r => roledef_Permissions r
       | None => []
       end.

(** The role of an account gives a permission. *)
Definition permits (d : DB) (u : User) (permission : string) : Prop :=
  user_Role u = RoleAdmin ∨ PermissionAll ∈ role_permissions d (user_Role u)
  ∨ permission ∈ role_permissions d (user_Role u).

Lemma hasPermission_spec d u (l : list string) permission :
  (∀ p, p ∈ l → p ∈ role_permissions d (user_Role u)) →
  hasPermission (scanUser u <| user_Permissions := l |>) permission = true → permits d u permission.
Proof.
  intros Hl. unfold hasPermission, permits. cbn. case_bool_decide; [by left|]. cbn.
  intros (p & Hp & Hc)%existsb_exists. apply list_elem_of_In, Hl in Hp.
  apply orb_true_iff in Hc as [Hc|Hc]; apply bool_decide_eq_true in Hc; subst; auto.
Qed.

Lemma permits_hasPermission d u permission :
  permits d u permission →
  hasPermission (scanUser u <| user_Permissions := role_permissions d (user_Role u) |>) permission = true.
Proof.
  unfold hasPermission, permits. cbn. intros Hp. apply orb_true_iff. rewrite bool_decide_eq_true.
  destruct Hp as [|[Hp|Hp]]; [by left|right; apply existsb_exists..];
    (eexists; split; [by apply list_elem_of_In|]); apply orb_true_iff; rewrite !bool_decide_eq_true; auto.
Qed.

(** Only the last-seen time of a session changed. *)
Definition forget_seen (s : Session) : Session := s <| session_LastSeenAt := 0 |>.
Definition touched (d d' : DB) : Prop :=
  ∃ t, d' = write t_sessions t d ∧ forget_seen <$> t = forget_seen <$> t_sessions d.

Lemma touched_refl d : touched d d.
Proof. exists (t_sessions d). by destruct d. Qed.

Lemma touched_update (P : Session → Prop) `{∀ s, Decision (P s)} at_ d :
  touched d (write t_sessions (update_where P (λ s, s <| session_LastSeenAt := at_ |>) (t_sessions d)) d).
Proof.
  eexists. split; [done|]. unfold update_where. rewrite <-list_fmap_compose. apply list_fmap_ext.
  intros i s _. cbn. by case_decide.
Qed.

Lemma touched_users d d' : touched d d' → t_users d' = t_users d ∧ t_roles d' = t_roles d.
Proof. by intros (t & -> & _). Qed.

Section Enforced.
Context `{Unicode} `{SqlText} `{Argon2} `{Jwt}.

Lemma withPermissions_exact F row d h :
  wp F (withPermissions (scanUser row)) (λ r d' h', d' = d ∧ h' = h
    ∧ ∃ l, r = Ok (scanUser row <| user_Permissions := l |>)
           ∧ (l = role_permissions d (user_Role row) ∨ (F = true ∧ l = []))) d h.
Proof.
  unfold withPermissions, FindRoleByID, role_permissions. cbn [user_Role scanUser].
  change (user_Role (scanUser row)) with (user_Role row).
  destruct (bool_decide _) eqn:Hr; [wp_go; split_and!; eauto|].
  wp_go; split_and!; try done; eexists; (split; [reflexivity|]).
  - by right.
  - left. apply fmap_Some in Heqo as (role & -> & ->). done.
  - left. apply fmap_None in Heqo as ->. done.
Qed.

(** The bearer of a token and the account the tables hold for it. *)
Definition authenticated (s : Server) (req : Request) (now : time) (d : DB) (p : Principal) (row : User) : Prop :=
  ∃ c, HasPrefix (request_Header req "Authorization") "Bearer " = true
    ∧ Parse (tokens (server_auth s)) now (TrimSpace (TrimPrefix (request_Header req "Authorization") "Bearer ")) = Ok c
    ∧ admissible c now d ∧ user_of (claims_Subject c) d = Some row
    ∧ session_ID (principal_Session p) = claims_SessionID c
    ∧ ∃ l, principal_User p = scanUser row <| user_Permissions := l |>
           ∧ ∀ x, x ∈ l → x ∈ role_permissions d (user_Role row).

Lemma Authenticate_row F s raw now d h :
  wp F (Authenticate s raw now) (λ r d' h', touched d d' ∧ h' = h ∧ match r with
    | Ok (u, ss, c) => Parse (tokens s) now raw = Ok c ∧ admissible c now d ∧ session_ID ss = claims_SessionID c
        ∧ ∃ row l, user_of (claims_Subject c) d = Some row ∧ u = scanUser row <| user_Permissions := l |>
          ∧ (l = role_permissions d (user_Role row) ∨ (F = true ∧ l = []))
    | Err _ => True
    end) d h.
Proof.
  eapply wp_mono.
  { apply wp_both; [apply (Authenticate_spec F s raw now d h)|].
    instantiate (1 := λ r d' h', touched d d' ∧ h' = h ∧ match r with
      | Ok (u, ss, c) => ∃ row l, user_of (claims_Subject c) d = Some row ∧ u = scanUser row <| user_Permissions := l |>
          ∧ (l = role_permissions d (user_Role row) ∨ (F = true ∧ l = []))
      | Err _ => True end).
    unfold Authenticate, FindUserByID, FindSession, TouchSession.
    destruct (Parse _ _ _) as [c|e]; cbn [lift]; [|wp_go; by split; [apply touched_refl|]].
    wp_go; try (by split; [apply touched_refl|]).
    apply fmap_Some in Heqo as (row & Hrow & ->).
    eapply wp_mono; [apply withPermissions_exact|]. intros r d' h' (-> & -> & l & -> & Hl).
    wp_go; subst; (split; [try apply touched_refl; try apply touched_update|]); eauto 10. }
  intros [[[u ss] c]|e] d' h' [Hs Ht]; [|naive_solver].
  destruct Hs as (Hp & Had & _ & Hss), Ht as (Ht & -> & row & l & Hrow & Hu & Hl). split_and!; eauto 10.
Qed.

(** Who a guard lets through, by the tables and the request. *)
Definition admitted (s : Server) (g : guard) (req : Request) (now : time) (d : DB) (who : caller) : Prop :=
  match g, who with
  | Public, Anyone => True
  | RequireAuth, User_ p => ∃ row, authenticated s req now d p row
  | RequirePermission permission, User_ p => ∃ row, authenticated s req now d p row ∧ permits d row permission
  | RequireInternal, InternalService => internal_token req = server_internalSecret s
  | RequireBuilder, Builder => 32 ≤ len (server_builderToken s) ∧ bearer req = server_builderToken s
  | RequireBuilderWorker, BuilderWorker_ id =>
      ∃ w, w ∈ t_builder_workers d ∧ worker_ID w = id ∧ worker_TokenHash w = builderTokenHash (bearer req)
           ∧ 32 ≤ len (bearer req)
  | _, _ => False
  end.

(** The account of an authentication without database failures has all the
    permissions of its role. *)
Lemma requireAuth_runs {A} s req c (next : Principal → M (Reply A)) w :
  let '(r, w') := requireAuth s req c next w in
  (∃ row p w1, authenticated s req (call_now c) (w_db w) p row ∧ touched (w_db w) (w_db w1)
     ∧ (w_faults w = [] → w_faults w1 = [] ∧ user_Permissions (principal_User p) = role_permissions (w_db w) (user_Role row))
     ∧ (r, w') = next p w1)
  ∨ (∃ message, r = Ok (writeError 401 message) ∧ touched (w_db w) (w_db w')).
Proof.
  unfold requireAuth. destruct (HasPrefix _ _) eqn:Hpre; cbn [negb].
  2: { right. eexists. split; [reflexivity|apply touched_refl]. }
  set (raw := TrimSpace _). unfold mbind, M_bind, bind, try.
  pose proof (wp_run (F:=true) _ _ w I (Authenticate_row true (server_auth s) raw (call_now c) _ _)) as Hs.
  pose proof (λ Hf, wp_run_faults (F:=false) _ _ w Hf (Authenticate_row false (server_auth s) raw (call_now c) _ _)) as Hs0.
  destruct (Authenticate (server_auth s) raw (call_now c) w) as [[[[u ss] cl]|e] w1]; cbn in Hs, Hs0.
  - destruct (next _ w1) as [r w'] eqn:Hn. left.
    destruct Hs as (Ht & _ & Hp & Had & Hss & row & l & Hrow & -> & Hl).
    exists row, (mkPrincipal (scanUser row <| user_Permissions := l |>) ss cl), w1.
    split_and!; try done.
    + exists cl. split_and!; try done. exists l. split; [done|]. destruct Hl as [->|[_ ->]]; [done|set_solver].
    + intros Hf. destruct (Hs0 Hf) as [(_ & _ & _ & _ & _ & row' & l' & Hrow' & Hu & Hl') Hf'].
      split; [done|]. rewrite Hrow in Hrow'. injection Hrow' as <-. destruct Hl' as [->|[? _]]; [|done].
      by apply (f_equal user_Permissions) in Hu.
  - right. destruct Hs as (Ht & _). eexists. by split.
Qed.

(** C4: every guard is enforced: behind a guard the handler runs for exactly
    one caller whom the tables and the request admit, on tables that differ at
    most in a last-seen time; otherwise the request is refused with 401 or 403
    and changes nothing else; and a caller who is admitted is not refused for
    lack of permission unless the database fails. *)
Theorem guard_enforced {A} s g req c (next : caller → M (Reply A)) w :
  let '(r, w') := guarded s g req c next w in
  (∃ who w1, admitted s g req (call_now c) (w_db w) who ∧ touched (w_db w) (w_db w1) ∧ (r, w') = next who w1)
  ∨ (∃ status message, r = Ok (writeError status message) ∧ touched (w_db w) (w_db w')
       ∧ (status = 401
          ∨ ∃ permission p row, status = 403 ∧ g = RequirePermission permission
            ∧ authenticated s req (call_now c) (w_db w) p row
            ∧ (w_faults w = [] → ¬ permits (w_db w) row permission))).
Proof.
  destruct g as [| |permission| | |]; cbn [guarded].
  - destruct (next Anyone w) as [r w'] eqn:Hn. left. exists Anyone, w. split_and!; [done|apply touched_refl|done].
  - pose proof (requireAuth_runs s req c (λ p, next (User_ p)) w) as Hr.
    destruct (requireAuth s req c _ w) as [r w'].
    destruct Hr as [(row & p & w1 & Ha & Ht & _ & Hn)|(m & -> & Ht)].
    + left. exists (User_ p), w1. split_and!; [by exists row|done..].
    + right. exists 401, m. auto.
  - unfold requirePermission. set (k := λ p : Principal, if negb _ then _ else _).
    pose proof (requireAuth_runs s req c k w) as Hr.
    destruct (requireAuth s req c k w) as [r w'].
    destruct Hr as [(row & p & w1 & Ha & Ht & Hf & Hn)|(m & -> & Ht)].
    2: { right. exists 401, m. auto. }
    pose proof Ha as (cl & _ & _ & _ & Hrow & _ & l & Hu & Hl). unfold k in Hn.
    destruct (hasPermission (principal_User p) permission) eqn:Hp; cbn [negb] in Hn.
    + left. exists (User_ p), w1. split_and!; [|done|done]. exists row. split; [done|].
      rewrite Hu in Hp. by eapply hasPermission_spec.
    + right. injection Hn as -> ->. exists 403, "forbidden". split_and!; [done|done|]. right.
      exists permission, p, row. split_and!; [done..|]. intros Hfaults Hpermits.
      destruct (Hf Hfaults) as [_ Hl']. rewrite Hu in Hl', Hp. cbn in Hl'. subst l.
      by rewrite permits_hasPermission in Hp.
  - unfold requireInternal. case_bool_decide as Hi; cbn [negb].
    + destruct (next InternalService w) as [r w'] eqn:Hn. left. exists InternalService, w.
      split_and!; [done|apply touched_refl|done].
    + right. eexists 401, _. split_and!; [reflexivity|apply touched_refl|by left].
  - unfold requireBuilder. destruct (_ || _) eqn:Hb; simplify_bool.
    + right. eexists 401, _. split_and!; [reflexivity|apply touched_refl|by left].
    + destruct (next Builder w) as [r w'] eqn:Hn. left. exists Builder, w.
      split_and!; [|apply touched_refl|done]. by split.
  - unfold requireBuilderWorker, findBuilderWorkerByToken. unfold mbind, M_bind, bind, try.
    destruct (Z.ltb_spec (len (bearer req)) 32) as [|Hlen]; cbn.
    { right. eexists 401, _. split_and!; [reflexivity|apply touched_refl|by left]. }
    unfold FindBuilderWorkerByTokenHash, query_row, exec. destruct (fault w) eqn:Hfault; cbn.
    { right. eexists 401, _. split_and!; [reflexivity| |by left]. by apply touched_refl. }
    destruct (select_one _ (t_builder_workers (w_db w))) as [b|] eqn:Hb; cbn.
    + apply select_one_Some in Hb as [Hb Hh]. set (w1 := _ <| w_db := w_db w |>).
      destruct (next (BuilderWorker_ _) w1) as [r w'] eqn:Hn. left.
      exists (BuilderWorker_ (worker_ID b)), w1. split_and!; [|apply touched_refl|done]. by exists b.
    + right. eexists 401, _. split_and!; [reflexivity| |by left]. by apply touched_refl.
Qed.
End Enforced.

(** ** The table of routes *)

(** A pattern is a method and a path. *)
Definition admin_pattern (pattern : string) : bool :=
  existsb (λ m, HasPrefix pattern (m +:+ " /api/admin/")) ["GET"; "POST"; "PUT"; "PATCH"; "DELETE"].
Definition internal_pattern (pattern : string) : bool :=
  existsb (λ m, HasPrefix pattern (m +:+ " /internal/")) ["GET"; "POST"; "PUT"; "PATCH"; "DELETE"].
Definition reads (pattern : string) : bool := HasPrefix pattern "GET ".

Definition write_permissions : list string := [
  PermissionUsersWrite; PermissionDevicesWrite; PermissionGroupsWrite; PermissionAddressBooksWrite;
  PermissionACLWrite; PermissionStrategiesWrite; PermissionSessionsRevoke; PermissionRelaysWrite;
  PermissionInfrastructureWrite; PermissionSettingsWrite; PermissionRolesWrite; PermissionBackupWrite;
  PermissionWebhooksWrite; PermissionClientProfilesWrite; PermissionAutomationWrite ].

(** Requests of the console that change nothing but the caller's own settings or
    the read marks of notifications. *)
Definition light_writes : list string := [
  "POST /api/admin/notifications/read-all"; "POST /api/admin/notifications/{notificationID}/read";
  "POST /api/admin/backups/sqlite/inspect"; "PUT /api/admin/preferences/dashboard";
  "POST /api/admin/acl/evaluate"; "POST /api/admin/strategies/evaluate" ].

(** What the table promises about one route. *)
Definition route_guarded (r : string * guard * string) : bool :=
  let '(pattern, g, _) := r in
  if internal_pattern pattern then
    match g with RequireInternal | RequireBuilder | RequireBuilderWorker => true | _ => false end
  else if negb (admin_pattern pattern) then true
  else match g with
       | RequirePermission p =>
           bool_decide (p ∈ AvailablePermissions)
           && (reads pattern || bool_decide (pattern ∈ light_writes) || bool_decide (p ∈ write_permissions))
       | RequireAuth => bool_decide (pattern ∈ light_writes) || bool_decide (pattern = "GET /api/admin/preferences/dashboard")
       | _ => false
       end.

(** the table of routes guards the console: no two routes share a pattern,
    every route under /internal/ asks for the internal secret or a builder, and
    every route under /api/admin/ that writes asks for a write permission that
    can be granted, but for six that change no data of others. *)
Theorem routes_guarded :
  NoDup ((λ r : string * guard * string, r.1.1) <$> routes) ∧ Forall (λ r, route_guarded r = true) routes.
Proof.
  split; [apply (bool_decide_eq_true_1 (NoDup _)); vm_compute; reflexivity|].
  apply (bool_decide_eq_true_1 (Forall _ _)). vm_compute. reflexivity.
Qed.
