(* ===== verification/Managed.v ===== *)
(** * Client profiles (art-api/internal/managedclient/service.go)

    Validation of profiles, the profile that applies to a device, and the signed
    bundle of a profile.  [url.Parse] and [json.Marshal] of the bundle are
    parameters. *)

From S2P Require Export Strategy StoreMisc Crypto Encoding.

(** [url.Parse]: scheme and host of the URL, [None] for an error. *)
Class Url := { ParseURL : string → option (string * string) }.

Definition hex_byte (a : Ascii.ascii) : bool :=
  ((48 <=? byte a) && (byte a <=? 57)) || ((65 <=? byte a) && (byte a <=? 70)) || ((97 <=? byte a) && (byte a <=? 102)).

(** [regexp.MustCompile(`^#[0-9A-Fa-f]{6}$`)] *)
Definition colorPattern (s : string) : bool :=
  match bytes_of s with
  | a :: rest => (byte a =? 35) && bool_decide (length rest = 6%nat) && forallb hex_byte rest
  | [] => false
  end.

Record Effective := mkEffective {
  effective_Profiles : list string;
  effective_Settings : gmap string any;
  effective_Branding : gmap string any;
  effective_Version : Z;
  effective_ModifiedAt : Z
}.

Record Bundle := mkBundle {
  bundle_Schema : string; bundle_Profile : ClientProfile; bundle_IssuedAt : time; bundle_Signature : string }.

Section Service.
Context `{Unicode} `{Url}.

(** One setting of the loop over [value.Branding]. *)
Definition validate_branding (key : string) (raw : any) : res unit :=
  if bool_decide (key ∈ ["product_name"; "organization"]) then
    match raw with
    | VString text => if 128 <? len (TrimSpace text) then Err (ErrText "invalid branding text") else Ok tt
    | _ => Err (ErrText "invalid branding text")
    end
  else if bool_decide (key = "primary_color") then
    match raw with
    | VString text => if colorPattern text then Ok tt else Err (ErrText "invalid branding color")
    | _ => Err (ErrText "invalid branding color")
    end
  else if bool_decide (key ∈ ["logo_url"; "support_url"]) then
    match raw with
    | VString text =>
        if 2048 <? len text then Err (ErrText "invalid branding URL") else
        match ParseURL text with
        | Some (scheme, host) =>
            if bool_decide (scheme = "https") && negb (bool_decide (host = "")) then Ok tt
            else Err (ErrText "branding URL must use HTTPS")
        | None => Err (ErrText "branding URL must use HTTPS")
        end
    | _ => Err (ErrText "invalid branding URL")
    end
  else if bool_decide (key ∈ ["hide_tray"; "only_show_local_id"; "prevent_outgoing_connections"]) then
    match raw with VBool _ => Ok tt | _ => Err (ErrText "invalid branding flag") end
  else Err (ErrText "unsupported branding setting").

(** The first error of a range over [branding]. *)
Fixpoint validate_brandings (order : list (string * any)) : res unit :=
  match order with
  | [] => Ok tt
  | (key, raw) :: rest =>
      match validate_branding key raw with Ok _ => validate_brandings rest | Err e => Err e end
  end.

(** [settings] and [branding]: how the loops range over the two maps. *)
Definition ValidateProfile (settings branding : list (string * any)) (value : ClientProfile) : res unit :=
  if (len (TrimSpace (profile_Name value)) <? 2) || (128 <? len (TrimSpace (profile_Name value)))
     || (1024 <? len (TrimSpace (profile_Description value)))
     || negb (bool_decide (TrimSpace (profile_Platform value) ∈ ["all"; "windows"; "linux"; "macos"; "android"]))
  then Err (ErrText "invalid client profile") else
  match ValidateSettings settings with
  | Err e => Err e
  | Ok _ =>
      if 16 <? Z.of_nat (length branding) then Err (ErrText "too many branding settings")
      else validate_brandings branding
  end.

(** ** The profile of a device *)

Definition assignment_matches (value : ClientProfileAssignment) (device : Device) (groups : gset string) : bool :=
  let scope := assignment_ScopeType value in
  let id := assignment_ScopeID value in
  if bool_decide (scope = "global") then true
  else if bool_decide (scope = "user")
  then negb (bool_decide (device_OwnerUserID device = "")) && bool_decide (id = device_OwnerUserID device)
  else if bool_decide (scope = "user_group") then bool_decide (id ∈ groups)
  else if bool_decide (scope = "device_group")
  then negb (bool_decide (device_GroupID device = "")) && bool_decide (id = device_GroupID device)
  else if bool_decide (scope = "device") then bool_decide (id = device_RustDeskID device)
  else false.

Definition scope_specificity (scope : string) : Z :=
  if bool_decide (scope = "global") then 0 else if bool_decide (scope = "user_group") then 1
  else if bool_decide (scope = "user") then 2 else if bool_decide (scope = "device_group") then 3
  else if bool_decide (scope = "device") then 4 else -1.

Definition assignment_less (a b : ClientProfileAssignment) : bool :=
  if negb (assignment_Priority a =? assignment_Priority b)
  then assignment_Priority a <? assignment_Priority b
  else scope_specificity (assignment_ScopeType a) <? scope_specificity (assignment_ScopeType b).

(** [byID[id]]: the last profile with the identifier. *)
Definition profile_named (id : string) (profiles : list ClientProfile) : option ClientProfile :=
  last (filter (λ p, profile_ID p = id) profiles).

Definition assignment_applies (profiles : list ClientProfile) (device : Device) (groups : gset string)
    (a : ClientProfileAssignment) : bool :=
  assignment_matches a device groups
  && match profile_named (assignment_ProfileID a) profiles with
     | Some p => profile_Enabled p
                 && (bool_decide (profile_Platform p = "all") || EqualFold (profile_Platform p) (device_Platform device))
     | None => false
     end.

(** The body of the loop over the matched assignments. *)
Definition add_profile (e : Effective) (p : ClientProfile) : Effective :=
  let stamp := UnixMilli (profile_UpdatedAt p) in
  mkEffective (effective_Profiles e ++ [profile_ID p])
    (profile_Settings p ∪ effective_Settings e) (profile_Branding p ∪ effective_Branding e)
    (if effective_Version e <? profile_Version p then profile_Version p else effective_Version e)
    (if effective_ModifiedAt e <? stamp then stamp else effective_ModifiedAt e).

Definition effective_profile (profiles : list ClientProfile) (assignments : list ClientProfileAssignment)
    (device : Device) (groups : gset string) : Effective :=
  let matched := SliceStable assignment_less
    (filter (λ a, Is_true (assignment_applies profiles device groups a)) assignments) in
  foldl (λ e a, match profile_named (assignment_ProfileID a) profiles with
                | Some p => add_profile e p | None => e end) (mkEffective [] ∅ ∅ 0 0) matched.

Definition Managed_EffectiveForDevice (device : Device) : M Effective :=
  profiles ← ListClientProfiles;
  assignments ← ListClientProfileAssignments;
  memberships ← ListUserGroupMemberships;
  let groups := list_to_set (membership_GroupID <$>
    filter (λ m, Is_true (membership_Active m) ∧ membership_UserID m = device_OwnerUserID device) memberships) in
  ret (effective_profile profiles assignments device groups).

(** [marshal] is [json.Marshal] of schema, profile and time. *)
Definition make_bundle (signingSecret : bytes) (marshal : string * ClientProfile * time → option bytes)
    (profile : ClientProfile) (now : time) : res Bundle :=
  let schema := "art-rustdesk/client-profile/v1" in
  match marshal (schema, profile, now) with
  | None => Err (ErrText "json")
  | Some data =>
      Ok (mkBundle schema profile now
            ("sha256=" +:+ base64_encode url_alphabet (hmac_sum sha256_Sum signingSecret data)))
  end.
End Service.
