(* ===== verification/Acl.v ===== *)
(** * Access rules (art-api/internal/httpapi: server.go, inventory.go)

    The rules that say which account may do what on which device: their
    validation, the decision of [evaluateACL], and the lists of devices that the
    client shows.  Identifiers and the clock come with the [Call]; [ttl] is the
    time after which a silent device is offline. *)

From S2P Require Export Http Keeps.
From S2P Require Import Sample.

(** ** One rule *)

(** [allowedPermissions] of [evaluateACL], [allowed] of [validACLRule]. *)
Definition acl_permissions : list string :=
  ["remote_control"; "file_transfer"; "clipboard"; "tcp_tunnel"; "terminal"; "audio"; "camera"; "view"; "manage"].

Definition subject_matches (rule : ACLRule) (userID : string) (userGroups : list string) : bool :=
  bool_decide (acl_SubjectID rule = "")
  || (bool_decide (acl_SubjectType rule = "user") && bool_decide (acl_SubjectID rule = userID))
  || (bool_decide (acl_SubjectType rule = "user_group") && bool_decide (acl_SubjectID rule ∈ userGroups)).

Definition target_matches (rule : ACLRule) (device : Device) : bool :=
  bool_decide (acl_TargetID rule = "")
  || (bool_decide (acl_TargetType rule = "device") && bool_decide (acl_TargetID rule = device_RustDeskID device))
  || (bool_decide (acl_TargetType rule = "device_group") && negb (bool_decide (device_GroupID device = ""))
      && bool_decide (acl_TargetID rule = device_GroupID device)).

Definition validACLRule `{Unicode} (value : ACLRule) : bool :=
  (2 <=? len (TrimSpace (acl_Name value))) && (len (acl_Name value) <=? 128)
  && negb (bool_decide (acl_Permissions value = []))
  && (1 <=? acl_Priority value) && (acl_Priority value <=? 10000)
  && bool_decide (acl_Effect value ∈ ["allow"; "deny"])
  && bool_decide (acl_SubjectType value ∈ ["user"; "user_group"])
  && bool_decide (acl_TargetType value ∈ ["device"; "device_group"])
  && forallb (λ permission, bool_decide (permission ∈ acl_permissions)) (acl_Permissions value).

Definition normalizeACLEffect `{Unicode} (value : string) : string :=
  if bool_decide (TrimSpace value = "") then "allow" else ToLower (TrimSpace value).

(** ** The decision *)

Record aclQuestion := mkAclQuestion {
  question_UserID : string; question_TargetID : string; question_Permission : string }.

(** An element of [trace]. *)
Record aclTrace := mkAclTrace {
  trace_RuleID : string; trace_Name : string; trace_Priority : Z; trace_Effect : string;
  trace_Subject : bool; trace_Target : bool; trace_Permission : bool; trace_Matched : bool }.

(** The object [evaluateACL] answers with. *)
Record aclDecision := mkAclDecision {
  dec_allowed : bool; dec_reason : string; dec_winning_effect : string; dec_winning_priority : Z;
  dec_matched_rule_ids : list string; dec_matched_rules : list aclTrace; dec_enabled_rule_count : Z;
  dec_user_id : string; dec_user_group_ids : list string; dec_target_id : string;
  dec_target_group_id : string; dec_permission : string }.

(** [int(^uint(0) >> 1)] *)
Definition max_int : Z := 2 ^ 63 - 1.

Definition rule_trace (user : User) (userGroups : list string) (device : Device) (permission : string)
    (rule : ACLRule) : aclTrace :=
  let subject := subject_matches rule (user_ID user) userGroups in
  let target := target_matches rule device in
  let permitted := bool_decide (permission ∈ acl_Permissions rule) in
  mkAclTrace (acl_ID rule) (acl_Name rule) (acl_Priority rule) (acl_Effect rule) subject target permitted
    (subject && target && permitted).

(** The assignment to [winningPriority] and [winningEffect]. *)
Definition better_rule (winner : Z * string) (rule : ACLRule) : Z * string :=
  if (acl_Priority rule <? winner.1)
     || ((acl_Priority rule =? winner.1) && bool_decide (acl_Effect rule = "deny"))
  then (acl_Priority rule, acl_Effect rule) else winner.

Definition decide_access (user : User) (userGroups : list string) (device : Device) (permission : string)
    (rules : list ACLRule) : aclDecision :=
  let enabled := filter acl_Enabled rules in
  let matching := filter (λ r, trace_Matched (rule_trace user userGroups device permission r)) enabled in
  let '(winningPriority, winningEffect) := foldl better_rule (max_int, "") matching in
  let allowed := user_Enabled user && bool_decide (user_ApprovalStatus user = ApprovalApproved)
    && (bool_decide (user_Role user = RoleAdmin) || bool_decide (enabled = [])
        || bool_decide (winningEffect = "allow")) in
  let reason :=
    if negb (user_Enabled user) then "user_disabled"
    else if negb (bool_decide (user_ApprovalStatus user = ApprovalApproved)) then "user_not_approved"
    else if bool_decide (user_Role user = RoleAdmin) then "administrator_bypass"
    else if bool_decide (enabled = []) then "no_acl_rules_configured"
    else if bool_decide (winningEffect = "deny") then "explicit_deny"
    else if negb allowed then "no_matching_acl_rule" else "matched_acl_rule" in
  mkAclDecision allowed reason winningEffect winningPriority (acl_ID <$> matching)
    (rule_trace user userGroups device permission <$> enabled) (Z.of_nat (length enabled))
    (user_ID user) userGroups (device_RustDeskID device) (device_GroupID device) permission.

(** The groups of the active memberships of an account. *)
Definition user_groups (userID : string) (memberships : list UserGroupMembership) : list string :=
  membership_GroupID <$> filter (λ m, Is_true (membership_Active m) ∧ membership_UserID m = userID) memberships.

(** The loop that looks for a device. *)
Definition device_named (id : string) (devices : list Device) : option Device :=
  head (filter (λ v, device_RustDeskID v = id) devices).

Section Handlers.
Context `{Unicode}.

Definition evaluateACL (ttl : duration) (c : Call) (body : option aclQuestion) : M (Reply aclDecision) :=
  match body with
  | None => ret (writeError 400 "invalid request")
  | Some input =>
      user ← try (FindUserByID (question_UserID input));
      match user with
      | Err _ => ret (writeError 404 "user not found")
      | Ok user =>
          if negb (bool_decide (question_Permission input ∈ acl_permissions))
          then ret (writeError 400 "invalid permission") else
          devices ← try (ListDevices ttl (call_now c));
          match devices with
          | Err _ => ret (writeError 500 "devices unavailable")
          | Ok devices =>
              match device_named (question_TargetID input) devices with
              | None => ret (writeError 404 "device not found")
              | Some device =>
                  rules ← try ListACLRules;
                  match rules with
                  | Err _ => ret (writeError 500 "ACL unavailable")
                  | Ok rules =>
                      memberships ← try ListUserGroupMemberships;
                      match memberships with
                      | Err _ => ret (writeError 500 "memberships unavailable")
                      | Ok memberships =>
                          ret (writeJSON 200 (decide_access user (user_groups (user_ID user) memberships) device
                                 (question_Permission input) rules))
                      end
                  end
              end
          end
      end
  end.

(** ** Changing the rules *)

Definition validate_subject (value : ACLRule) : M unit :=
  if bool_decide (acl_SubjectID value = "") then ret tt
  else if bool_decide (acl_SubjectType value = "user") then
    found ← try (FindUserByID (acl_SubjectID value));
    if is_ok found then ret tt else throw (ErrText "ACL subject not found")
  else
    group ← try (FindGroupByID (acl_SubjectID value));
    match group with
    | Ok g => if bool_decide (group_Kind g = GroupKindUser) then ret tt else throw (ErrText "user group not found")
    | Err _ => throw (ErrText "user group not found")
    end.

Definition validate_target (ttl : duration) (now : time) (value : ACLRule) : M unit :=
  if bool_decide (acl_TargetID value = "") then ret tt
  else if bool_decide (acl_TargetType value = "device") then
    devices ← try (ListDevices ttl now);
    match devices with
    | Err _ => throw (ErrText "devices unavailable")
    | Ok devices =>
        match device_named (acl_TargetID value) devices with
        | Some _ => ret tt
        | None => throw (ErrText "target device not found")
        end
    end
  else
    group ← try (FindGroupByID (acl_TargetID value));
    match group with
    | Ok g => if bool_decide (group_Kind g = GroupKindDevice) then ret tt else throw (ErrText "device group not found")
    | Err _ => throw (ErrText "device group not found")
    end.

Definition validateACLRule (ttl : duration) (now : time) (value : ACLRule) : M unit :=
  if negb (validACLRule value) then throw (ErrText "invalid ACL rule") else
  validate_subject value;; validate_target ttl now value.

Definition listACLRules : M (Reply (list ACLRule)) :=
  values ← try ListACLRules;
  ret (match values with Ok values => writeJSON 200 values | Err _ => writeError 500 "failed to list ACL rules" end).

(** [fresh] is [uuid.NewString()]. *)
Definition createACLRule (ttl : duration) (fresh : string) (c : Call) (p : Principal) (body : option ACLRule)
    : M (Reply ACLRule) :=
  match body with
  | None => ret (writeError 400 "invalid ACL rule")
  | Some v =>
      let v := v <| acl_Name := TrimSpace (acl_Name v) |> <| acl_Effect := normalizeACLEffect (acl_Effect v) |> in
      let v := if acl_Priority v =? 0 then v <| acl_Priority := 100 |> else v in
      valid ← try (validateACLRule ttl (call_now c) v);
      match valid with
      | Err e => ret (writeError 400 (error_text e))
      | Ok _ =>
          let v := v <| acl_ID := fresh |> <| acl_Enabled := true |> <| acl_CreatedAt := call_now c |>
                     <| acl_UpdatedAt := call_now c |> in
          created ← try (CreateACLRule v);
          if negb (is_ok created) then ret (writeError 500 "failed to create ACL rule") else
          publish ACLUpdated (PACLRule v) (call_now c);;
          record c 0 (audit_event "acl_update" (user_ID (principal_User p)) "" "" "success" "" ∅);;
          ret (writeJSON 201 v)
      end
  end.

Definition updateACLRule (ttl : duration) (ruleID : string) (c : Call) (p : Principal) (body : option ACLRule)
    : M (Reply ACLRule) :=
  match body with
  | None => ret (writeError 400 "invalid ACL rule")
  | Some v =>
      let v := v <| acl_Name := TrimSpace (acl_Name v) |> <| acl_Effect := normalizeACLEffect (acl_Effect v) |> in
      valid ← try (validateACLRule ttl (call_now c) v);
      match valid with
      | Err e => ret (writeError 400 (error_text e))
      | Ok _ =>
          let v := v <| acl_ID := ruleID |> <| acl_UpdatedAt := call_now c |> in
          updated ← try (UpdateACLRule v);
          match updated with
          | Err ErrNotFound => ret (writeError 404 "ACL rule not found")
          | Err _ => ret (writeError 500 "failed to update ACL rule")
          | Ok _ =>
              publish ACLUpdated (PACLRule v) (call_now c);;
              record c 0 (audit_event "acl_update" (user_ID (principal_User p)) "" "" "success" ""
                            {["rule_id" := VString ruleID]});;
              ret (writeJSON 200 v)
          end
      end
  end.

Definition zero_rule : ACLRule := mkACLRule "" "" "" "" "" "" [] "" false 0 zero_time zero_time false.

Definition deleteACLRule (id : string) (c : Call) (p : Principal) : M (Reply unit) :=
  deleted ← try (DeleteACLRule id);
  match deleted with
  | Err ErrNotFound => ret (writeError 404 "ACL rule not found")
  | Err _ => ret (writeError 500 "failed to delete ACL rule")
  | Ok _ =>
      publish ACLUpdated (PACLRule (zero_rule <| acl_ID := id |> <| acl_Deleted := true |>)) (call_now c);;
      record c 0 (audit_event "acl_delete" (user_ID (principal_User p)) "" "" "success" ""
                    {["rule_id" := VString id]});;
      ret (mkReply 204 NoContent)
  end.

(** ** What the client lists (inventory.go) *)

Definition inventoryACLAllows (rules : list ACLRule) (userID : string) (groups : list string) (device : Device) : bool :=
  existsb (λ rule, acl_Enabled rule && subject_matches rule userID groups && target_matches rule device
                   && existsb (λ permission, bool_decide (permission ∈ ["view"; "remote_control"; "manage"]))
                        (acl_Permissions rule)) rules.

Definition accessibleDevices (ttl : duration) (c : Call) (user : User) : M (list Device) :=
  devices ← ListDevices ttl (call_now c);
  if bool_decide (user_Role user = RoleAdmin) then ret devices else
  rules ← ListACLRules;
  memberships ← ListUserGroupMemberships;
  let groups := user_groups (user_ID user) memberships in
  ret (filter (λ device, device_OwnerUserID device = user_ID user
                         ∨ Is_true (inventoryACLAllows rules (user_ID user) groups device)) devices).
End Handlers.

(** ** The decision: specification *)

Section Decision.
Context `{Unicode}.
Implicit Types (d : DB) (rule : ACLRule) (l : list ACLRule).

Definition acl_valid (d : DB) : Prop := ∀ rule, rule ∈ t_acl_rules d → validACLRule rule = true.

(** An enabled rule that speaks about the account, the device and the permission. *)
Definition governs (d : DB) (u : User) (v : Device) (permission : string) (rule : ACLRule) : Prop :=
  rule ∈ t_acl_rules d ∧ acl_Enabled rule = true
  ∧ (acl_SubjectID rule = ""
     ∨ acl_SubjectType rule = "user" ∧ acl_SubjectID rule = user_ID u
     ∨ acl_SubjectType rule = "user_group"
       ∧ ∃ m, m ∈ t_user_group_memberships d ∧ member_UserID m = user_ID u ∧ member_GroupID m = acl_SubjectID rule)
  ∧ (acl_TargetID rule = ""
     ∨ acl_TargetType rule = "device" ∧ acl_TargetID rule = device_RustDeskID v
     ∨ acl_TargetType rule = "device_group" ∧ device_GroupID v ≠ "" ∧ acl_TargetID rule = device_GroupID v)
  ∧ permission ∈ acl_Permissions rule.

(** Some governing rule allows, and none of a smaller or the same priority denies. *)
Definition may_access (d : DB) (u : User) (v : Device) (permission : string) : Prop :=
  user_Enabled u = true ∧ user_ApprovalStatus u = ApprovalApproved
  ∧ (user_Role u = RoleAdmin
     ∨ (∀ rule, rule ∈ t_acl_rules d → acl_Enabled rule = false)
     ∨ ∃ rule, governs d u v permission rule ∧ acl_Effect rule = "allow"
         ∧ ∀ rule', governs d u v permission rule' →
             acl_Priority rule ≤ acl_Priority rule'
             ∧ (acl_Priority rule' = acl_Priority rule → acl_Effect rule' = "allow")).

Lemma validACLRule_parts rule :
  validACLRule rule = true → acl_Priority rule < max_int ∧ acl_Effect rule ∈ ["allow"; "deny"].
Proof. unfold validACLRule, max_int. intros Hv. simplify_bool. repeat case_bool_decide; try done. split; [lia|done]. Qed.

(** The loop finds the best rule: the smallest priority, denial first. *)
Lemma better_rule_spec l :
  (∀ rule, rule ∈ l → acl_Priority rule < max_int) →
  let '(p, e) := foldl better_rule (max_int, "") l in
  l = [] ∧ p = max_int ∧ e = ""
  ∨ ∃ rule, rule ∈ l ∧ p = acl_Priority rule ∧ e = acl_Effect rule
     ∧ ∀ rule', rule' ∈ l → p ≤ acl_Priority rule'
         ∧ (acl_Priority rule' = p → acl_Effect rule' = "deny" → e = "deny").
Proof.
  induction l as [|x l IH] using rev_ind; intros Hl; [by left|].
  assert (Hx : acl_Priority x < max_int) by (apply Hl; set_solver).
  assert (Hl' : ∀ rule, rule ∈ l → acl_Priority rule < max_int) by (intros; apply Hl; set_solver).
  specialize (IH Hl'). rewrite foldl_app. cbn. destruct (foldl _ _ l) as [p e].
  unfold better_rule. cbn [fst snd].
  destruct ((acl_Priority x <? p) || ((acl_Priority x =? p) && bool_decide (acl_Effect x = "deny"))) eqn:Hb; right.
  - exists x. split_and!; [set_solver|done..|]. intros r' [Hr'|Hr']%elem_of_app.
    2: { assert (r' = x) as -> by set_solver. split; [lia|done]. }
    destruct IH as [(-> & _)|(r & Hr & -> & -> & Hbest)]; [set_solver|].
    destruct (Hbest r' Hr') as [Hp Hd]. simplify_bool. destruct Hb as [Hb|Hb]; simplify_bool; (split; [lia|]); [lia|done].
  - simplify_bool. destruct IH as [(-> & -> & ->)|(r & Hr & -> & -> & Hbest)]; [lia|].
    exists r. split_and!; [set_solver|done..|]. intros r' [Hr'|Hr']%elem_of_app; [by apply Hbest|].
    assert (r' = x) as -> by set_solver. split; [lia|]. intros Hp Hd.
    match goal with Hx : _ ∨ _ |- _ => destruct Hx as [Hx|Hx]; simplify_bool; [lia|done] end.
Qed.

Lemma winner_allows l :
  (∀ rule, rule ∈ l → validACLRule rule = true) →
  (foldl better_rule (max_int, "") l).2 = "allow"
  ↔ ∃ rule, rule ∈ l ∧ acl_Effect rule = "allow"
      ∧ ∀ rule', rule' ∈ l → acl_Priority rule ≤ acl_Priority rule'
          ∧ (acl_Priority rule' = acl_Priority rule → acl_Effect rule' = "allow").
Proof.
  intros Hv. pose proof (better_rule_spec l (λ r Hr, proj1 (validACLRule_parts r (Hv r Hr)))) as Hb.
  assert (Heff : ∀ rule, rule ∈ l → acl_Effect rule = "allow" ∨ acl_Effect rule = "deny").
  { intros r Hr. destruct (validACLRule_parts r (Hv r Hr)) as [_ He]. set_solver. }
  destruct (foldl _ _ l) as [p e]. cbn [snd]. destruct Hb as [(-> & -> & ->)|(r & Hr & -> & -> & Hbest)].
  - split; [done|]. intros (r & Hr & _). set_solver.
  - split.
    + intros He. exists r. split_and!; [done..|]. intros r' Hr'. destruct (Hbest r' Hr') as [Hp Hd].
      split; [done|]. intros Heq. destruct (Heff r' Hr') as [?|Hdeny]; [done|]. rewrite Hd in He by done. done.
    + intros (r0 & Hr0 & He & Hall). destruct (Hall r Hr) as [Hp Ha], (Hbest r0 Hr0) as [Hp' _].
      apply Ha. lia.
Qed.

Lemma subject_matches_spec d u rule memberships :
  (∀ g, g ∈ user_groups (user_ID u) memberships
        ↔ ∃ m, m ∈ t_user_group_memberships d ∧ member_UserID m = user_ID u ∧ member_GroupID m = g) →
  subject_matches rule (user_ID u) (user_groups (user_ID u) memberships) = true
  ↔ (acl_SubjectID rule = ""
     ∨ acl_SubjectType rule = "user" ∧ acl_SubjectID rule = user_ID u
     ∨ acl_SubjectType rule = "user_group"
       ∧ ∃ m, m ∈ t_user_group_memberships d ∧ member_UserID m = user_ID u ∧ member_GroupID m = acl_SubjectID rule).
Proof.
  intros Hg. unfold subject_matches. rewrite !orb_true_iff, !andb_true_iff, !bool_decide_eq_true, <- Hg. tauto.
Qed.

Lemma target_matches_spec v rule :
  target_matches rule v = true
  ↔ (acl_TargetID rule = ""
     ∨ acl_TargetType rule = "device" ∧ acl_TargetID rule = device_RustDeskID v
     ∨ acl_TargetType rule = "device_group" ∧ device_GroupID v ≠ "" ∧ acl_TargetID rule = device_GroupID v).
Proof.
  unfold target_matches. rewrite !orb_true_iff, !andb_true_iff, negb_true_iff, !bool_decide_eq_true, bool_decide_eq_false.
  tauto.
Qed.

(** The rows as [ListUserGroupMemberships] and [ListACLRules] return them. *)
Definition listed_memberships d : list UserGroupMembership :=
  (λ m, mkUserGroupMembership (member_GroupID m) (member_UserID m) true) <$>
    SliceStable (then_by (λ a b, str_lt (member_GroupID a) (member_GroupID b))
                         (λ a b, str_lt (member_UserID a) (member_UserID b))) (t_user_group_memberships d).
Definition read_rule rule : ACLRule :=
  rule <| acl_CreatedAt := fromMillis (acl_CreatedAt rule) |> <| acl_UpdatedAt := fromMillis (acl_UpdatedAt rule) |>.
Definition listed_rules d : list ACLRule :=
  read_rule <$>
    SliceStable (then_by (λ a b, acl_Priority a <? acl_Priority b)
                         (λ a b, str_lt (acl_Name a) (acl_Name b))) (t_acl_rules d).

Lemma elem_of_user_groups d u g :
  g ∈ user_groups (user_ID u) (listed_memberships d)
  ↔ ∃ m, m ∈ t_user_group_memberships d ∧ member_UserID m = user_ID u ∧ member_GroupID m = g.
Proof.
  unfold user_groups, listed_memberships. rewrite list_elem_of_fmap. setoid_rewrite list_elem_of_filter.
  setoid_rewrite list_elem_of_fmap. setoid_rewrite elem_of_SliceStable. split.
  - intros (x & -> & [_ Hid] & m & -> & Hm). by exists m.
  - intros (m & Hm & Hid & <-). exists (mkUserGroupMembership (member_GroupID m) (member_UserID m) true).
    split_and!; [done..|]. by exists m.
Qed.

Definition matching_rules d u v permission : list ACLRule :=
  filter (λ r, trace_Matched (rule_trace u (user_groups (user_ID u) (listed_memberships d)) v permission r))
    (filter acl_Enabled (listed_rules d)).

Lemma elem_of_matching d u v permission r :
  r ∈ matching_rules d u v permission ↔ ∃ r0, r = read_rule r0 ∧ governs d u v permission r0.
Proof.
  unfold matching_rules, listed_rules. rewrite !list_elem_of_filter, list_elem_of_fmap.
  setoid_rewrite elem_of_SliceStable. rewrite !Is_true_true. cbn [rule_trace trace_Matched].
  rewrite !andb_true_iff, bool_decide_eq_true, target_matches_spec, (subject_matches_spec d u r _ (elem_of_user_groups d u)).
  unfold governs. split.
  - intros (Ht & He & r0 & -> & Hr0). exists r0. cbn in Ht, He. tauto.
  - intros (r0 & -> & Hr0 & He & Ht). cbn. split_and!; try tauto. by exists r0.
Qed.

(** The decision over the tables is [may_access]. *)
Lemma decide_access_spec d u v permission :
  acl_valid d →
  dec_allowed (decide_access u (user_groups (user_ID u) (listed_memberships d)) v permission (listed_rules d)) = true
  ↔ may_access d u v permission.
Proof.
  intros Hv. unfold decide_access, may_access.
  change (filter _ (filter acl_Enabled (listed_rules d))) with (matching_rules d u v permission).
  assert (Hw := winner_allows (matching_rules d u v permission)).
  destruct (foldl better_rule _ _) as [p e]. cbn [dec_allowed snd] in *.
  rewrite !andb_true_iff, !orb_true_iff, !bool_decide_eq_true, Hw by
    (intros r (r0 & -> & Hr0 & _)%elem_of_matching; by apply (Hv r0)).
  assert (Hnone : filter acl_Enabled (listed_rules d) = [] ↔ ∀ rule, rule ∈ t_acl_rules d → acl_Enabled rule = false).
  { split.
    - intros Hnil rule Hr. destruct (acl_Enabled rule) eqn:He; [|done].
      assert (Hin : read_rule rule ∈ filter acl_Enabled (listed_rules d)); [|rewrite Hnil in Hin; set_solver].
      apply list_elem_of_filter. split; [by apply Is_true_true|]. apply list_elem_of_fmap. exists rule.
      by rewrite elem_of_SliceStable.
    - intros Hall. apply filter_none. intros r Hr He. apply list_elem_of_fmap in Hr as (r0 & -> & Hr0).
      rewrite elem_of_SliceStable in Hr0. apply Is_true_true in He. specialize (Hall r0 Hr0). cbn in He. congruence. }
  rewrite Hnone.
  assert (Hm : (∃ rule, rule ∈ matching_rules d u v permission ∧ acl_Effect rule = "allow"
      ∧ ∀ rule', rule' ∈ matching_rules d u v permission → acl_Priority rule ≤ acl_Priority rule'
          ∧ (acl_Priority rule' = acl_Priority rule → acl_Effect rule' = "allow"))
    ↔ ∃ rule, governs d u v permission rule ∧ acl_Effect rule = "allow"
      ∧ ∀ rule', governs d u v permission rule' → acl_Priority rule ≤ acl_Priority rule'
          ∧ (acl_Priority rule' = acl_Priority rule → acl_Effect rule' = "allow")).
  { setoid_rewrite elem_of_matching. split.
    - intros (r & (r0 & -> & Hr0) & He & Hall). exists r0. split_and!; [done..|]. intros r' Hr'.
      apply (Hall (read_rule r')). by exists r'.
    - intros (r & Hr & He & Hall). exists (read_rule r). split_and!; [by exists r|done|].
      intros r' (r0 & -> & Hr0). exact (Hall r0 Hr0). }
  rewrite Hm. tauto.
Qed.

Lemma device_named_listed ttl now d v :
  devices_ok d → v ∈ t_devices d →
  device_named (device_RustDeskID v) (scanDevice ttl now <$>
    SliceStable (λ a b, device_LastSeen b <? device_LastSeen a) (t_devices d)) = Some (scanDevice ttl now v).
Proof.
  intros Hok Hv. unfold device_named. destruct (filter _ _) as [|x l] eqn:Hf.
  - assert (Hin : scanDevice ttl now v ∈ @nil Device); [|by apply not_elem_of_nil in Hin]. rewrite <- Hf.
    apply list_elem_of_filter. split; [done|]. apply list_elem_of_fmap. exists v. by rewrite elem_of_SliceStable.
  - apply filter_head_elem in Hf as [Hx Hid]. apply list_elem_of_fmap in Hx as (v' & -> & Hv').
    rewrite elem_of_SliceStable in Hv'. cbn. do 2 f_equal. by eapply unique_row.
Qed.

(** C14: the decision of [evaluateACL]: for an account and a device of the tables,
    and rules that passed validation, the answer is 200 and allows exactly when
    the account is enabled and approved and is an administrator, or no rule is
    enabled, or some governing rule allows while every governing rule of a
    smaller priority number or of the same one allows too; in whatever order the
    tables hold the rules. *)
Theorem evaluateACL_decides ttl c u v permission w :
  w_faults w = [] → users_ok (w_db w) → devices_ok (w_db w) → acl_valid (w_db w) →
  u ∈ t_users (w_db w) → v ∈ t_devices (w_db w) → permission ∈ acl_permissions →
  ∃ dec, (evaluateACL ttl c (Some (mkAclQuestion (user_ID u) (device_RustDeskID v) permission)) w).1
           = Ok (writeJSON 200 dec)
         ∧ (dec_allowed dec = true ↔ may_access (w_db w) u v permission).
Proof.
  intros Hf [Hus _] Hdev Hacl Hu Hv Hperm.
  apply (wp_run (F:=false) (λ r _ _, ∃ dec, r = Ok (writeJSON 200 dec)
           ∧ (dec_allowed dec = true ↔ may_access (w_db w) u v permission)) _ w Hf).
  unfold evaluateACL, FindUserByID, ListDevices, ListACLRules, ListUserGroupMemberships.
  wp_go; cbn [question_UserID question_TargetID question_Permission] in *.
  - by rewrite bool_decide_eq_true_2 in *.
  - match goal with Hu0 : scanUser <$> _ = Some _ |- _ =>
      rewrite (select_one_unique user_ID) in Hu0 by done; injection Hu0 as <- end.
    match goal with Hd : device_named _ _ = Some _ |- _ => rewrite device_named_listed in Hd by done; injection Hd as <- end.
    eexists. split; [done|]. exact (decide_access_spec (w_db w) (scanUser u) (scanDevice ttl (call_now c) v) permission Hacl).
  - by rewrite device_named_listed in * by done.
  - by rewrite (select_one_unique user_ID) in * by done.
Qed.
End Decision.

(** ** Only valid rules are stored *)

Section Stored.
Context `{Unicode}.

Lemma valid_CreateACLRule v : validACLRule v = true → keeps acl_valid (CreateACLRule v).
Proof.
  intros Hv d h Hd. unfold CreateACLRule. wp_go; try done. intros r. read_tables.
  intros [Hr| ->%list_elem_of_singleton]%elem_of_app; [by apply Hd|exact Hv].
Qed.

Lemma valid_UpdateACLRule v : validACLRule v = true → keeps acl_valid (UpdateACLRule v).
Proof.
  intros Hv d h Hd. unfold UpdateACLRule. wp_go; try done; intros r; read_tables;
    intros (r0 & Hr0 & ->)%elem_of_update_where; (case_decide; [exact Hv|by apply Hd]).
Qed.

Lemma valid_DeleteACLRule id : keeps acl_valid (DeleteACLRule id).
Proof.
  intros d h Hd. unfold DeleteACLRule. wp_go; try done; intros r; read_tables;
    intros [Hr _]%elem_of_delete_where; by apply Hd.
Qed.
Lemma valid_Record event s : keeps acl_valid (Audit_Record event s).
Proof. apply keeps_audit. by intros d d' (t1 & t2 & ->). Qed.
#[local] Hint Resolve valid_DeleteACLRule valid_Record : keeps.

(** A rule that passes [validateACLRule] is valid. *)
Lemma keeps_validate ttl now v d h :
  acl_valid d →
  wp true (try (validateACLRule ttl now v))
    (λ r d' _, acl_valid d' ∧ match r with Ok (Ok _) => validACLRule v = true | _ => True end) d h.
Proof.
  intros Hd. apply wp_try. unfold validateACLRule. destruct (validACLRule v) eqn:Hv; cbn [negb]; [|by apply wp_throw].
  assert (Hk : keeps acl_valid (validate_subject v;; validate_target ttl now v)).
  { unfold validate_subject, validate_target, FindUserByID, FindGroupByID, ListDevices. keep. }
  eapply wp_mono; [by apply Hk|]. intros [] ??; done.
Qed.

Inductive acl_request :=
| AskCreateRule (fresh : string) (c : Call) (p : Principal) (body : option ACLRule)
| AskUpdateRule (ruleID : string) (c : Call) (p : Principal) (body : option ACLRule)
| AskDeleteRule (ruleID : string) (c : Call) (p : Principal).

Definition serve_acl (ttl : duration) (r : acl_request) : M unit :=
  match r with
  | AskCreateRule fresh c p body => discard (createACLRule ttl fresh c p body)
  | AskUpdateRule id c p body => discard (updateACLRule ttl id c p body)
  | AskDeleteRule id c p => discard (deleteACLRule id c p)
  end.
Definition serve_acls (ttl : duration) (rs : list acl_request) (w : world) : world :=
  foldl (λ w r, (serve_acl ttl r w).2) w rs.

Lemma valid_serve ttl r : keeps acl_valid (serve_acl ttl r).
Proof.
  destruct r as [fresh c p [v|]|id c p [v|]|id c p]; cbn [serve_acl]; apply keeps_discard;
    unfold createACLRule, updateACLRule, deleteACLRule, record; try solve [keep].
  - eapply keeps_bind_post; [intros; by apply keeps_validate|]. intros [[]|e] Hv; [|keep].
    apply keeps_bind; [apply keeps_try, valid_CreateACLRule, Hv|]. intros. keep.
  - eapply keeps_bind_post; [intros; by apply keeps_validate|]. intros [[]|e] Hv; [|keep].
    apply keeps_bind; [apply keeps_try, valid_UpdateACLRule, Hv|]. intros. keep.
Qed.

(** the handlers keep the rules valid: in every history of requests that
    create, change and delete rules, under any failures of the database, every
    stored rule has a priority from 1 to 10000, the effect allow or deny, known
    subject and target types and known permissions. *)
Theorem acl_rules_stay_valid ttl rs w :
  acl_valid (w_db w) → acl_valid (w_db (serve_acls ttl rs w)).
Proof.
  revert w. induction rs as [|r rs IH]; intros w Hw; [done|]. apply IH.
  by apply (keeps_run acl_valid), Hw; apply valid_serve.
Qed.
End Stored.

(** ** The theorems at a concrete installation *)

Definition ex_laptop : Device :=
  mkDevice "d1" "uuid" "" "" "" "" "" "" "" "" false 0 "u0" "" [] "" false "" None 0 None.
Definition ex_rule (id : string) (priority : Z) (effect subjectType subjectID : string) : ACLRule :=
  mkACLRule id id subjectType subjectID "device" "d1" ["view"; "remote_control"] effect true priority 0 0 false.
Definition ex_acl_world (rules : list ACLRule) : world :=
  mkWorld (ex_accounts <| t_devices := [ex_laptop] |> <| t_acl_rules := rules |>) [] (NewHub "src").
Definition ex_acl_call : Call :=
  mkCall second (λ _, mkStamp "e1" "e1" second) (mkEntropy "" "" "" None 1).

(** The group of alice is allowed, she herself is denied at the same priority. *)
Definition ex_rules : list ACLRule :=
  [ex_rule "r1" 10 "allow" "user_group" "g1"; ex_rule "r2" 10 "deny" "user" "u1"; ex_rule "r3" 20 "allow" "user" ""].

Lemma ex_rules_valid : @acl_valid ascii_unicode (w_db (ex_acl_world ex_rules)).
Proof.
  intros r Hr. cbn in Hr. repeat (apply elem_of_cons in Hr as [->|Hr]; [vm_compute; reflexivity|]).
  by apply not_elem_of_nil in Hr.
Qed.

Lemma evaluateACL_decides_witness :
  (∃ dec, (evaluateACL 0 ex_acl_call (Some (mkAclQuestion "u2" "d1" "view")) (ex_acl_world ex_rules)).1
            = Ok (writeJSON 200 dec) ∧ dec_allowed dec = true)
  ∧ ∃ dec, (evaluateACL 0 ex_acl_call (Some (mkAclQuestion "u1" "d1" "view")) (ex_acl_world ex_rules)).1
            = Ok (writeJSON 200 dec) ∧ dec_allowed dec = false.
Proof.
  assert (Hus : users_ok (w_db (ex_acl_world ex_rules))) by (apply (bool_decide_eq_true_1 (users_ok _)); vm_compute; reflexivity).
  assert (Hdev : devices_ok (w_db (ex_acl_world ex_rules))) by (apply (bool_decide_eq_true_1 (devices_ok _)); vm_compute; reflexivity).
  split.
  - destruct (@evaluateACL_decides ascii_unicode 0 ex_acl_call (ex_user "u2" "bob" RoleUser) ex_laptop "view"
      (ex_acl_world ex_rules) eq_refl Hus Hdev ex_rules_valid) as (dec & Hd & Hiff).
    + right; right; left.
    + left.
    + apply (bool_decide_eq_true_1 (_ ∈ _)). vm_compute. reflexivity.
    + exists dec. split; [exact Hd|]. apply Hiff. split_and!; [done..|]. right; right.
      exists (ex_rule "r1" 10 "allow" "user_group" "g1"). split_and!.
      * split_and!; [left|done|right; right; split; [done|]|right; left; done|left].
        exists (mkMembership "g1" "u2" 0). split_and!; [right; left|done..].
      * done.
      * intros r' (Hr' & _ & Hs & _). cbn in Hr'.
        repeat (apply elem_of_cons in Hr' as [->|Hr']; [cbn|]); [split; [lia|done]| |split; [lia|done]|by apply not_elem_of_nil in Hr'].
        cbn in Hs. destruct Hs as [Hs|[[_ Hs]|[Hs _]]]; discriminate Hs.
  - destruct (@evaluateACL_decides ascii_unicode 0 ex_acl_call (ex_user "u1" "alice" RoleUser) ex_laptop "view"
      (ex_acl_world ex_rules) eq_refl Hus Hdev ex_rules_valid) as (dec & Hd & Hiff).
    + right; left.
    + left.
    + apply (bool_decide_eq_true_1 (_ ∈ _)). vm_compute. reflexivity.
    + exists dec. split; [exact Hd|]. apply not_true_is_false. intros Ha%Hiff.
      destruct Ha as (_ & _ & [Ha|[Ha|(r & (Hr & _) & He & Hall)]]); [done| |].
      * by specialize (Ha (ex_rule "r1" 10 "allow" "user_group" "g1") ltac:(left)).
      * destruct (Hall (ex_rule "r2" 10 "deny" "user" "u1")) as [Hp Heq].
        { split_and!; [right; left|done|right; left; done|right; left; done|left]. }
        cbn in Hr. repeat (apply elem_of_cons in Hr as [->|Hr]; [cbn in *|]); [by specialize (Heq eq_refl)|done|lia|by apply not_elem_of_nil in Hr].
Defined.

Lemma acl_rules_stay_valid_witness :
  @acl_valid ascii_unicode (w_db (@serve_acls ascii_unicode 0
    [AskCreateRule "r9" ex_acl_call (mkPrincipal (ex_user "u0" "root" RoleAdmin) (ex_session "s1" "u0") ex_claims)
       (Some (ex_rule "" 0 " Deny " "user" "u1" <| acl_Name := "no alice" |>));
     AskUpdateRule "r1" ex_acl_call (mkPrincipal (ex_user "u0" "root" RoleAdmin) (ex_session "s1" "u0") ex_claims)
       (Some (ex_rule "" 0 "permit" "user" "u1"))] (ex_acl_world ex_rules))).
Proof. apply acl_rules_stay_valid, ex_rules_valid. Defined.

(** the client's list of devices does not read the effect of a rule: the
    only rule denies alice to see a device of somebody else, [evaluateACL]
    refuses it, and the list shows it to her, which it does not without the
    rule. *)
Theorem deny_rule_reveals_device :
  let rule := ex_rule "r2" 10 "deny" "user" "u1" in
  let alice := ex_user "u1" "alice" RoleUser in
  let listed rules := res_map (fmap device_RustDeskID)
    (accessibleDevices 0 ex_acl_call alice (ex_acl_world rules)).1 in
  @validACLRule ascii_unicode rule = true
  ∧ (∃ dec, (evaluateACL 0 ex_acl_call (Some (mkAclQuestion "u1" "d1" "view")) (ex_acl_world [rule])).1
             = Ok (writeJSON 200 dec) ∧ dec_allowed dec = false)
  ∧ listed [rule] = Ok ["d1"] ∧ listed [] = Ok [].
Proof. cbv zeta. split_and!; [vm_compute; reflexivity|eexists; split; vm_compute; reflexivity|vm_compute; reflexivity..]. Qed.
