(* ===== verification/Rbac.v ===== *)
(** * Accounts and roles over HTTP (art-api/internal/httpapi: rbac.go, server.go)

    The handlers that change accounts and roles, and the theorem that no
    coalition of callers obtains a permission that none of them had.
    [mail.ParseAddress] is a parameter ([MailAddress]). *)

From S2P Require Export Http Keeps.
From S2P Require Import Text Sample.

(** [mail.ParseAddress(s)]: the address it parses, [None] when it fails. *)
Class MailAddress := { ParseAddress : string → option string }.

Record roleRequest := mkRoleRequest {
  rolereq_ID : string; rolereq_Name : string; rolereq_Description : string; rolereq_Permissions : list string }.

Record createUserRequest := mkCreateUserRequest {
  newuser_Username : string; newuser_Email : string; newuser_Password : string; newuser_DisplayName : string;
  newuser_Phone : string; newuser_GroupIDs : list string; newuser_Role : string; newuser_Enabled : option bool }.

Record updateUserRequest := mkUpdateUserRequest {
  upduser_Username : string; upduser_Email : string; upduser_Phone : string; upduser_Password : string;
  upduser_DisplayName : string; upduser_Role : string; upduser_Enabled : option bool; upduser_GroupIDs : list string }.

(** [clientUser(user)]: the account as clients see it. *)
Definition displayName `{Unicode} (user : User) : string :=
  if negb (bool_decide (TrimSpace (user_DisplayName user) = "")) then user_DisplayName user else user_Username user.
Definition boolStatus (enabled : bool) : Z := if enabled then 1 else 0.

Record ClientUser := mkClientUser {
  cu_id : string; cu_name : string; cu_username : string; cu_email : string; cu_phone : string;
  cu_display_name : string; cu_status : Z; cu_avatar : string; cu_enabled : bool;
  cu_approval_status : string; cu_is_admin : bool; cu_role : string; cu_permissions : list string;
  cu_totp_enabled : bool; cu_note : string }.

Definition clientUser `{Unicode} (user : User) : ClientUser :=
  mkClientUser (user_ID user) (displayName user) (user_Username user) (user_Email user) (user_Phone user)
    (user_DisplayName user) (boolStatus (user_Enabled user)) ("/api/avatar/" +:+ user_ID user)
    (user_Enabled user) (user_ApprovalStatus user) (bool_decide (user_Role user = RoleAdmin)) (user_Role user)
    (user_Permissions user) (user_TOTPEnabled user) "".

(** [regexp.MustCompile(`^[a-z][a-z0-9_-]{1,63}$`)] *)
Definition lower_letter (a : Ascii.ascii) : bool := (97 <=? byte a) && (byte a <=? 122).
Definition role_id_byte (a : Ascii.ascii) : bool :=
  lower_letter a || digit_byte a || (byte a =? 95) || (byte a =? 45).
Definition roleIDPattern (id : string) : bool :=
  match bytes_of id with
  | [] => false
  | a :: rest => lower_letter a && forallb role_id_byte rest
                 && (1 <=? Z.of_nat (length rest)) && (Z.of_nat (length rest) <=? 63)
  end.

(** [seen] and the trimmed permissions, in order of first appearance. *)
Definition remove_repeated (l : list string) : list string :=
  foldl (λ acc p, if bool_decide (p ∈ acc) then acc else acc ++ [p]) [] l.

Section Handlers.
Context `{Unicode} `{SqlText} `{Argon2} `{Jwt} `{MailAddress}.

Definition normalizeRole (input : roleRequest) : option roleRequest :=
  let id := ToLower (TrimSpace (rolereq_ID input)) in
  let name := TrimSpace (rolereq_Name input) in
  let description := TrimSpace (rolereq_Description input) in
  if negb (roleIDPattern id) || (len name <? 2) || (128 <? len name) || (512 <? len description)
     || (Z.of_nat (length AvailablePermissions) <? Z.of_nat (length (rolereq_Permissions input)))
  then None else
  let permissions := TrimSpace <$> rolereq_Permissions input in
  if existsb (λ p, bool_decide (p = PermissionAll) || negb (bool_decide (p ∈ AvailablePermissions))) permissions
  then None
  else Some (mkRoleRequest id name description (SliceStable str_lt (remove_repeated permissions))).

Definition validUsername (username : string) : bool :=
  (2 <=? len username) && (len username <=? 128)
  && forallb (λ a, lower_letter a || digit_byte a || (byte a =? 46) || (byte a =? 95) || (byte a =? 45)) (bytes_of username).

Definition validEmail (email : string) : bool :=
  if bool_decide (email = "") then true
  else if 320 <? len email then false
  else bool_decide (ParseAddress email = Some email).

Definition success (c : Call) (p : Principal) (type : string) (metadata : gmap string any) : M unit :=
  record c 0 (audit_event type (user_ID (principal_User p)) (session_ID (principal_Session p)) "" "success" "" metadata).
(** The role handlers do not record the session of the actor. *)
Definition success_role (c : Call) (p : Principal) (type id : string) : M unit :=
  record c 0 (audit_event type (user_ID (principal_User p)) "" "" "success" "" {["role_id" := VString id]}).

(** ** Roles *)

Definition createRole (c : Call) (p : Principal) (body : option roleRequest) : M (Reply RoleDefinition) :=
  match body ≫= normalizeRole with
  | None => ret (writeError 400 "invalid role")
  | Some input =>
      if negb (canGrant (principal_User p) (rolereq_Permissions input))
         || bool_decide (rolereq_ID input ∈ [RoleAdmin; RoleUser])
      then ret (writeError 400 "invalid role") else
      let role := mkRoleDefinition (rolereq_ID input) (rolereq_Name input) (rolereq_Description input)
                    (rolereq_Permissions input) false (call_now c) (call_now c) in
      created ← try (CreateRole role);
      if negb (is_ok created) then ret (writeError 409 "role already exists") else
      success_role c p "role_create" (roledef_ID role);;
      ret (writeJSON 201 role)
  end.

(** The values of [users, _ := s.repository.ListUsers(ctx)]. *)
Definition listed {A} (r : res (list A)) : list A := match r with Ok l => l | Err _ => [] end.

Definition updateRole (c : Call) (p : Principal) (roleID : string) (body : option roleRequest)
    : M (Reply RoleDefinition) :=
  match body with
  | None => ret (writeError 400 "invalid role")
  | Some input =>
      match normalizeRole (mkRoleRequest roleID (rolereq_Name input) (rolereq_Description input) (rolereq_Permissions input)) with
      | None => ret (writeError 400 "invalid role")
      | Some input =>
          if negb (canGrant (principal_User p) (rolereq_Permissions input))
          then ret (writeError 400 "invalid role") else
          found ← try (FindRoleByID (rolereq_ID input));
          match found with
          | Err _ => ret (writeError 409 "system role cannot be changed")
          | Ok existing =>
              if roledef_System existing then ret (writeError 409 "system role cannot be changed") else
              let existing := existing <| roledef_Name := rolereq_Name input |>
                                       <| roledef_Description := rolereq_Description input |>
                                       <| roledef_Permissions := rolereq_Permissions input |>
                                       <| roledef_UpdatedAt := call_now c |> in
              updated ← try (UpdateRole existing);
              if negb (is_ok updated) then ret (writeError 404 "role not found") else
              users ← try ListUsers;
              for_each (λ user, when (bool_decide (user_Role user = roledef_ID existing))
                                  (discard (try (Auth.ForceRelogin (user_ID user) (call_now c))))) (listed users);;
              success_role c p "role_update" (roledef_ID existing);;
              ret (writeJSON 200 existing)
          end
      end
  end.

Definition deleteRole (c : Call) (p : Principal) (id : string) : M (Reply unit) :=
  users ← try ListUsers;
  deleted ← try (DeleteRole id);
  match deleted with
  | Err ErrNotFound => ret (writeError 404 "role not found")
  | Err (ErrText message) => ret (writeError 409 message)
  | Err _ => ret (writeError 409 "")          (* the text of the driver *)
  | Ok _ =>
      for_each (λ user, when (bool_decide (user_Role user = id))
        (updated ← try (FindUserByID (user_ID user));
         match updated with
         | Err _ => ret tt
         | Ok updated => publish UserUpdated (PUser updated) (call_now c);;
                         publish SessionRevokedAll (PUserID (user_ID user)) (call_now c)
         end)) (listed users);;
      success_role c p "role_delete" id;;
      ret (mkReply 204 NoContent)
  end.

(** ** Accounts *)

Definition validRole (role : string) : M bool :=
  if bool_decide (role ∈ [RoleAdmin; RoleUser]) then ret true
  else found ← try (FindRoleByID role); ret (is_ok found).

Definition canAssignRole (actor : User) (role : string) : M bool :=
  valid ← validRole role;
  if negb valid then ret false
  else if bool_decide (user_Role actor = RoleAdmin) then ret true
  else if bool_decide (role = RoleAdmin) then ret false
  else found ← try (FindRoleByID role);
       ret (match found with Ok definition => canGrant actor (roledef_Permissions definition) | Err _ => false end).

Definition createUser (s : Server) (c : Call) (p : Principal) (body : option createUserRequest)
    : M (Reply ClientUser) :=
  match body with
  | None => ret (writeError 400 "invalid request")
  | Some input =>
      let username := ToLower (TrimSpace (newuser_Username input)) in
      let email := TrimSpace (newuser_Email input) in
      let display := TrimSpace (newuser_DisplayName input) in
      let phone := TrimSpace (newuser_Phone input) in
      if negb (validUsername username) || (len (newuser_Password input) <? 1) || (1024 <? len (newuser_Password input))
         || (256 <? len display) || (64 <? len phone) || (128 <? Z.of_nat (length (newuser_GroupIDs input)))
         || negb (validEmail email)
      then ret (writeError 400 "invalid user") else
      assignable ← canAssignRole (principal_User p) (newuser_Role input);
      if negb assignable then ret (writeError 400 "invalid user") else
      created ← try (CreateLocalUser (server_auth s) (mkCreateUserInput username email (newuser_Password input)
        display (newuser_Role input) (default true (newuser_Enabled input))) (call_entropy c) (call_now c));
      match created with
      | Err ErrPasswordPolicy => ret (writeError 400 "password does not satisfy security policy")
      | Err _ => ret (writeError 409 "user could not be created")
      | Ok user =>
          completed ← (if negb (bool_decide (phone = "")) || negb (bool_decide (newuser_GroupIDs input = []))
            then try (Auth.UpdateUser (server_auth s) (user_ID user) (mkUserUpdate (user_Username user) (user_Email user)
                   phone (user_DisplayName user) "" (user_Role user) (user_Enabled user) (newuser_GroupIDs input))
                   "" (call_entropy c) (call_now c))
            else ret (Ok user));
          match completed with
          | Err _ => ret (writeError 409 "user groups could not be assigned")
          | Ok user =>
              success c p "user_create" {["user_id" := VString (user_ID user)]};;
              ret (writeJSON 201 (clientUser user))
          end
      end
  end.

Definition updateUser (s : Server) (c : Call) (p : Principal) (userID : string) (body : option updateUserRequest)
    : M (Reply ClientUser) :=
  match body with
  | None => ret (writeError 400 "invalid user update")
  | Some input =>
      let username := ToLower (TrimSpace (upduser_Username input)) in
      let email := TrimSpace (upduser_Email input) in
      let phone := TrimSpace (upduser_Phone input) in
      let display := TrimSpace (upduser_DisplayName input) in
      if negb (validUsername username) || negb (validEmail email) || (64 <? len phone) || (256 <? len display)
         || (1024 <? len (upduser_Password input)) || bool_decide (upduser_Enabled input = None)
      then ret (writeError 400 "invalid user update") else
      assignable ← canAssignRole (principal_User p) (upduser_Role input);
      if negb assignable || (128 <? Z.of_nat (length (upduser_GroupIDs input)))
      then ret (writeError 400 "invalid user update") else
      updated ← try (Auth.UpdateUser (server_auth s) userID (mkUserUpdate username email phone display ""
        (upduser_Role input) (default false (upduser_Enabled input)) (upduser_GroupIDs input))
        (upduser_Password input) (call_entropy c) (call_now c));
      match updated with
      | Err ErrLastAdmin => ret (writeError 409 "last administrator cannot be changed")
      | Err ErrNotFound => ret (writeError 404 "user or group not found")
      | Err _ => ret (writeError 409 "user could not be updated")
      | Ok user =>
          success c p "user_update" {["user_id" := VString (user_ID user)]};;
          ret (writeJSON 200 (clientUser user))
      end
  end.

Definition deleteUser (c : Call) (p : Principal) (userID : string) : M (Reply unit) :=
  if bool_decide (userID = user_ID (principal_User p))
  then ret (writeError 409 "current administrator cannot be deleted") else
  deleted ← try (Auth.DeleteUser userID (call_now c));
  match deleted with
  | Err ErrLastAdmin => ret (writeError 409 "last administrator cannot be deleted")
  | Err ErrNotFound => ret (writeError 404 "user not found")
  | Err _ => ret (writeError 409 "user could not be deleted")
  | Ok _ =>
      success c p "user_delete" {["user_id" := VString userID]};;
      ret (mkReply 204 NoContent)
  end.

Definition setUserEnabled (c : Call) (p : Principal) (userID : string) (enabled : bool) : M (Reply ClientUser) :=
  updated ← try (Auth.SetUserEnabled userID enabled (call_now c));
  match updated with
  | Err _ => ret (writeError 404 "user not found")
  | Ok user =>
      success c p (if enabled then "user_enable" else "user_disable") {["user_id" := VString (user_ID user)]};;
      ret (writeJSON 200 (clientUser user))
  end.
Definition disableUser (c : Call) (p : Principal) (userID : string) := setUserEnabled c p userID false.
Definition enableUser (c : Call) (p : Principal) (userID : string) := setUserEnabled c p userID true.

Definition forceRelogin (c : Call) (p : Principal) (userID : string) : M (Reply ClientUser) :=
  updated ← try (Auth.ForceRelogin userID (call_now c));
  match updated with
  | Err _ => ret (writeError 404 "user not found")
  | Ok user =>
      success c p "force_relogin" {["user_id" := VString (user_ID user)]};;
      ret (writeJSON 200 (clientUser user))
  end.

Definition setUserApproval (c : Call) (p : Principal) (userID status : string) : M (Reply ClientUser) :=
  updated ← try (Auth.SetUserApproval userID status (call_now c));
  match updated with
  | Err _ => ret (writeError 404 "user not found")
  | Ok user =>
      record c 0 (audit_event "user_approval_update" (user_ID (principal_User p)) (session_ID (principal_Session p))
        "" status "" {["user_id" := VString (user_ID user)]});;
      ret (writeJSON 200 (clientUser user))
  end.
Definition approveUser (c : Call) (p : Principal) (userID : string) := setUserApproval c p userID ApprovalApproved.
Definition rejectUser (c : Call) (p : Principal) (userID : string) := setUserApproval c p userID ApprovalRejected.

Definition setUserPassword (s : Server) (c : Call) (p : Principal) (userID : string) (body : option string)
    : M (Reply unit) :=
  match body with
  | None => ret (writeError 400 "invalid password")
  | Some password =>
      if (len password <? 1) || (1024 <? len password) then ret (writeError 400 "invalid password") else
      updated ← try (SetPassword (server_auth s) userID password (call_entropy c) (call_now c));
      match updated with
      | Err _ => ret (writeError 404 "user not found")
      | Ok user =>
          success c p "user_password_reset" {["user_id" := VString (user_ID user)]};;
          ret (mkReply 200 NoContent)
      end
  end.

(** [DELETE .../mfa] (mfa.go) *)
Definition adminResetTOTP (c : Call) (p : Principal) (userID : string) : M (Reply unit) :=
  updated ← try (SetUserTOTP userID "" false (call_now c));
  match updated with
  | Err ErrNotFound => ret (writeError 404 "user not found")
  | Err _ => ret (writeError 500 "two-factor reset failed")
  | Ok user =>
      cleared ← try (ReplaceMFARecoveryCodes (user_ID user) [] (call_now c));
      if negb (is_ok cleared) then ret (writeError 500 "two-factor reset failed") else
      try (RevokeUserSessions (user_ID user) (call_now c));;
      publish UserUpdated (PUser user) (call_now c);;
      publish SessionRevokedAll (PUserID (user_ID user)) (call_now c);;
      success c p "mfa_admin_reset" {["user_id" := VString (user_ID user)]};;
      ret (mkReply 200 NoContent)
  end.
End Handlers.

(** ** Rights: the specification *)

Definition role_grants (d : DB) (role x : string) : Prop :=
  role = RoleAdmin ∨ PermissionAll ∈ role_permissions d role ∨ x ∈ role_permissions d role.

(** The account with an identifier has a permission. *)
Definition holds (d : DB) (id x : string) : Prop :=
  ∃ u, u ∈ t_users d ∧ user_ID u = id ∧ role_grants d (user_Role u) x.

(** The role "user" is a system role, as [Migrate] inserts it. *)
Definition system_user (d : DB) : Prop :=
  ∀ r, r ∈ t_roles d → roledef_ID r = RoleUser → roledef_System r = true.

Section Rights.
(** What the caller may hand out. *)
Context (R : string → Prop) (R_all : R PermissionAll → ∀ x, R x).

(** A role gives nothing beyond [R] and what every user has. *)
Definition allowed (d : DB) (role : string) : Prop :=
  ∀ x, role_grants d role x → R x ∨ role_grants d RoleUser x.

(** A change hands out nothing beyond [R]. *)
Definition grants_step (d d' : DB) : Prop :=
  (∀ id x, holds d' id x → holds d id x ∨ R x ∨ role_grants d RoleUser x)
  ∧ role_permissions d' RoleUser = role_permissions d RoleUser
  ∧ (system_user d → system_user d').

Lemma role_grants_user d d' x :
  role_permissions d' RoleUser = role_permissions d RoleUser → role_grants d' RoleUser x → role_grants d RoleUser x.
Proof. unfold role_grants. by intros ->. Qed.

Lemma grants_step_trans d1 d2 d3 : grants_step d1 d2 → grants_step d2 d3 → grants_step d1 d3.
Proof.
  intros (H1 & P1 & S1) (H2 & P2 & S2). split_and!; [|congruence|auto].
  intros id x [Hh|[Hr|Hu]]%H2; [by apply H1|auto|]. right. right. by eapply role_grants_user.
Qed.

(** Accounts keep their roles or get allowed ones, and the roles stay. *)
Lemma grants_users d d' :
  t_roles d' = t_roles d →
  (∀ u', u' ∈ t_users d' →
     (∃ u, u ∈ t_users d ∧ user_ID u = user_ID u' ∧ user_Role u = user_Role u') ∨ allowed d (user_Role u')) →
  grants_step d d'.
Proof.
  intros Hr Hu. assert (Hp : ∀ role, role_permissions d' role = role_permissions d role)
    by (intros role; unfold role_permissions; by rewrite Hr).
  split_and!; [|done|unfold system_user; by rewrite Hr].
  intros id x (u' & Hu' & <- & Hx). unfold role_grants in Hx. rewrite Hp in Hx.
  destruct (Hu u' Hu') as [(u & Hin & Hid & Hrole)|Ha]; [|right; by apply Ha].
  left. exists u. split_and!; [done..|]. by rewrite Hrole.
Qed.

Lemma grants_same d d' : t_users d' = t_users d → t_roles d' = t_roles d → grants_step d d'.
Proof. intros Hu Hr. apply grants_users; [done|]. rewrite Hu. intros u Hin. left. by exists u. Qed.

Lemma grants_update d d' P `{∀ u : User, Decision (P u)} f :
  t_roles d' = t_roles d → t_users d' = update_where P f (t_users d) →
  (∀ u, user_ID (f u) = user_ID u) →
  (∀ u, P u → user_Role (f u) = user_Role u ∨ allowed d (user_Role (f u))) → grants_step d d'.
Proof.
  intros Hr Hu Hid Hf. apply grants_users; [done|]. rewrite Hu. intros u' (u & Hin & ->)%elem_of_update_where.
  case_decide as HP; [|left; by exists u]. destruct (Hf u HP) as [He|]; [|by right]. left. by exists u.
Qed.

Lemma grants_delete d d' P `{∀ u : User, Decision (P u)} :
  t_roles d' = t_roles d → t_users d' = delete_where P (t_users d) → grants_step d d'.
Proof.
  intros Hr Hu. apply grants_users; [done|]. rewrite Hu. intros u [Hin _]%elem_of_delete_where. left. by exists u.
Qed.

Lemma grants_insert d d' r :
  t_roles d' = t_roles d → t_users d' = t_users d ++ [r] → allowed d (user_Role r) → grants_step d d'.
Proof.
  intros Hr Hu Ha. apply grants_users; [done|]. rewrite Hu.
  intros u [Hin| ->%list_elem_of_singleton]%elem_of_app; [left; by exists u|by right].
Qed.

(** The roles change, and none gives more than before or than [R]. *)
Lemma grants_roles d d' :
  t_users d' = t_users d →
  (∀ role x, x ∈ role_permissions d' role → x ∈ role_permissions d role ∨ R x) →
  role_permissions d' RoleUser = role_permissions d RoleUser → (system_user d → system_user d') →
  grants_step d d'.
Proof.
  intros Hu Hr Hp Hs. split_and!; [|done|done]. intros id x (u & Hin & Hid & Hx). rewrite Hu in Hin.
  destruct Hx as [Ha|[Hall|Hx]].
  - left. exists u. split_and!; [done..|by left].
  - apply Hr in Hall as [Hall|HR]; [|auto]. left. exists u. split_and!; [done..|]. right. by left.
  - apply Hr in Hx as [Hx|HR]; [|auto]. left. exists u. split_and!; [done..|]. right. by right.
Qed.

Lemma grants_create_role d d' r :
  t_users d' = t_users d → t_roles d' = t_roles d ++ [r] → roledef_ID r ≠ RoleUser →
  (∀ x, x ∈ roledef_Permissions r → R x) → grants_step d d'.
Proof.
  intros Hu Hr Hne Hx. apply grants_roles; [done|..].
  - intros role x. unfold role_permissions. case_bool_decide; [auto|]. rewrite Hr, select_one_app.
    destruct (select_one _ (t_roles d)); [auto|]. rewrite select_one_singleton. case_decide; [auto|set_solver].
  - unfold role_permissions. rewrite Hr, select_one_app. destruct (select_one _ (t_roles d)); [done|].
    by rewrite select_one_singleton, decide_False.
  - intros Hs r0. rewrite Hr. intros [Hin| ->%list_elem_of_singleton]%elem_of_app; [by apply Hs|done].
Qed.

Lemma grants_update_role d d' id (f : RoleDefinition → RoleDefinition) :
  t_users d' = t_users d →
  t_roles d' = update_where (λ r, roledef_ID r = id ∧ roledef_System r = false) f (t_roles d) →
  (∀ r, roledef_ID (f r) = roledef_ID r ∧ roledef_System (f r) = roledef_System r) →
  (∀ r x, x ∈ roledef_Permissions (f r) → R x) → id ≠ RoleUser → grants_step d d'.
Proof.
  intros Hu Hr Hf Hx Hne.
  assert (Hsel : ∀ role, select_one (λ r, roledef_ID r = role) (t_roles d')
     = (λ r, if decide (roledef_ID r = id ∧ roledef_System r = false) then f r else r)
         <$> select_one (λ r, roledef_ID r = role) (t_roles d)).
  { intros role. rewrite Hr. apply select_one_update. intros r _. by rewrite (proj1 (Hf r)). }
  apply grants_roles; [done|..].
  - intros role x. unfold role_permissions. case_bool_decide; [auto|]. rewrite Hsel.
    destruct (select_one _ (t_roles d)) as [r|]; [|auto]. cbn. case_decide; [|auto]. intros. right. by eapply Hx.
  - unfold role_permissions. rewrite Hsel. destruct (select_one _ (t_roles d)) as [r|] eqn:Hr0; [|done].
    apply select_one_Some in Hr0 as [_ Hr0]. cbn. by rewrite decide_False by (intros [? _]; congruence).
  - intros Hs r'. rewrite Hr. intros (r & Hin & ->)%elem_of_update_where. case_decide; [|by apply Hs].
    destruct (Hf r) as [-> ->]. by apply Hs.
Qed.

Lemma grants_delete_role d d' id :
  id ≠ RoleUser →
  t_users d' = update_where (λ u, user_Role u = id) (λ u, bump_token (u <| user_Role := RoleUser |>)) (t_users d) →
  t_roles d' = delete_where (λ r, roledef_ID r = id) (t_roles d) → grants_step d d'.
Proof.
  intros Hne Hu Hr.
  assert (Hsel : ∀ role, role ≠ id → select_one (λ r, roledef_ID r = role) (t_roles d')
                       = select_one (λ r, roledef_ID r = role) (t_roles d)).
  { intros role Hrole. rewrite Hr. apply select_one_delete. congruence. }
  assert (Hperm : ∀ role, role ≠ id → role_permissions d' role = role_permissions d role)
    by (intros role Hrole; unfold role_permissions; by rewrite Hsel).
  split_and!; [|by apply Hperm|].
  - intros i x (u' & Hin & Hid & Hx). rewrite Hu in Hin. apply elem_of_update_where in Hin as (u & Hin & ->).
    unfold role_grants in Hx. case_decide as Hrole.
    + right. right. change (user_Role _) with RoleUser in Hx. by rewrite Hperm in Hx.
    + left. exists u. rewrite Hperm in Hx by done. done.
  - intros Hs r. rewrite Hr. intros [Hin _]%elem_of_delete_where. by apply Hs.
Qed.
End Rights.

(** ** What the operations hand out *)

Section Inventory.
Context `{Unicode} `{SqlText} `{Argon2} `{Jwt} `{MailAddress}.
Context (R : string → Prop) (R_all : R PermissionAll → ∀ x, R x) (d0 : DB) (role : string).

(** The tables during a request that may hand out [role]. *)
Definition handed (d : DB) : Prop := grants_step R d0 d ∧ system_user d ∧ allowed R d role.

Lemma handed_step d d' :
  handed d → grants_step R d d' → t_roles d' = t_roles d ∨ role = RoleUser → handed d'.
Proof.
  intros (Hg & Hs & Ha) Hstep Hr. pose proof Hstep as (_ & Hp & Hs').
  split_and!; [by eapply grants_step_trans|by apply Hs'|].
  destruct Hr as [Hr| ->]; [|intros x Hx; by right]. unfold allowed, role_grants, role_permissions. by rewrite Hr.
Qed.

Ltac handed_leaf :=
  first [ assumption
        | eapply handed_step; [eassumption| |left; by read_tables];
          first [ apply grants_same; by read_tables
                | eapply grants_update; [by read_tables|by read_tables|done|intros ? _; by left]
                | eapply grants_delete; by read_tables ] ].

Lemma keeps_Record event s : keeps handed (Audit_Record event s).
Proof.
  apply keeps_audit. intros d d' (t1 & t2 & ->) Hd. eapply handed_step; [exact Hd|by apply grants_same|by left].
Qed.

Lemma keeps_RevokeUserSessions id at_ : keeps handed (RevokeUserSessions id at_).
Proof. intros d h Hd. unfold RevokeUserSessions. wp_go; handed_leaf. Qed.

Lemma keeps_update_user id f :
  (∀ u, user_ID (f u) = user_ID u ∧ user_Role (f u) = user_Role u) → keeps handed (update_user id f).
Proof.
  intros Hf d h Hd. wp_go; try handed_leaf. eapply handed_step; [exact Hd| |left; by read_tables].
  eapply grants_update; [by read_tables|by read_tables|apply Hf|]. intros u _. left. apply Hf.
Qed.

Lemma keeps_store_SetUserApproval id status now : keeps handed (StoreUsers.SetUserApproval id status now).
Proof. intros d h Hd. unfold StoreUsers.SetUserApproval. wp_go; handed_leaf. Qed.

Lemma keeps_store_DeleteUser id : keeps handed (StoreUsers.DeleteUser id).
Proof. intros d h Hd. unfold StoreUsers.DeleteUser. wp_go; handed_leaf. Qed.

Lemma keeps_ReplaceMFARecoveryCodes id now : keeps handed (ReplaceMFARecoveryCodes id [] now).
Proof. intros d h Hd. unfold ReplaceMFARecoveryCodes. cbn [for_each]. wp_go; handed_leaf. Qed.

Lemma keeps_store_CreateUser u : user_Role u = role → keeps handed (CreateUser u).
Proof.
  intros Hr d h Hd. unfold CreateUser. wp_go; try handed_leaf.
  all: eapply handed_step; [exact Hd| |left; by read_tables].
  all: eapply grants_insert; [by read_tables|by read_tables|]; cbn; rewrite Hr; apply Hd.
Qed.

Lemma keeps_store_UpdateUser id input now : update_Role input = role → keeps handed (StoreUsers.UpdateUser id input now).
Proof.
  intros Hr d h Hd. unfold StoreUsers.UpdateUser. wp_go; try handed_leaf.
  all: eapply handed_step; [exact Hd| |left; by read_tables].
  all: eapply grants_update; [by read_tables|by read_tables|done|]; intros u _; right; cbn; rewrite Hr; apply Hd.
Qed.

Lemma keeps_CreateRole r :
  role = RoleUser → roledef_ID r ≠ RoleUser → (∀ x, x ∈ roledef_Permissions r → R x) → keeps handed (CreateRole r).
Proof.
  intros Hrole Hne Hx d h Hd. unfold CreateRole. wp_go; try handed_leaf.
  eapply handed_step; [exact Hd| |by right]. eapply (grants_create_role R R_all); [by read_tables|by read_tables|exact Hne|exact Hx].
Qed.

Lemma keeps_UpdateRole r :
  role = RoleUser → roledef_ID r ≠ RoleUser → (∀ x, x ∈ roledef_Permissions r → R x) → keeps handed (UpdateRole r).
Proof.
  intros Hrole Hne Hx d h Hd. unfold UpdateRole. wp_go; try handed_leaf.
  all: eapply handed_step; [exact Hd| |by right].
  all: eapply (grants_update_role R R_all _ _ (roledef_ID r)); [by read_tables|by read_tables|done|intros ?; exact Hx|exact Hne].
Qed.

Lemma keeps_DeleteRole id : role = RoleUser → keeps handed (DeleteRole id).
Proof.
  intros Hrole d h Hd. unfold DeleteRole. wp_go; try handed_leaf.
  eapply handed_step; [exact Hd| |by right].
  eapply (grants_delete_role _ _ _ id); [|by read_tables|by read_tables].
  intros ->. apply fmap_Some in Heqo as (r & Hr & Hsys). apply select_one_Some in Hr as [Hr Hid].
  destruct Hd as (_ & Hs & _). rewrite (Hs r Hr Hid) in Hsys. congruence.
Qed.
End Inventory.

#[export] Hint Resolve keeps_Record keeps_RevokeUserSessions keeps_store_SetUserApproval
  keeps_store_DeleteUser keeps_ReplaceMFARecoveryCodes keeps_store_CreateUser keeps_store_UpdateUser : keeps.
#[export] Hint Extern 2 (keeps _ (update_user _ _)) => apply keeps_update_user; done : keeps.
#[export] Hint Extern 1 (@eq string _ _) => reflexivity : keeps.

(** ** The handlers *)

Section Escalation.
Context `{Unicode} `{SqlText} `{Argon2} `{Jwt} `{MailAddress}.

(** The requests of the console that change accounts and roles. *)
Inductive admin_request :=
| AskCreateRole (body : option roleRequest)
| AskUpdateRole (id : string) (body : option roleRequest)
| AskDeleteRole (id : string)
| AskCreateUser (body : option createUserRequest)
| AskUpdateUser (id : string) (body : option updateUserRequest)
| AskDeleteUser (id : string)
| AskSetUserEnabled (id : string) (enabled : bool)
| AskForceRelogin (id : string)
| AskSetUserApproval (id status : string)
| AskSetUserPassword (id : string) (body : option string)
| AskAdminResetTOTP (id : string).

(** The permission its route asks for. *)
Definition needs (a : admin_request) : string :=
  match a with
  | AskCreateRole _ | AskUpdateRole _ _ | AskDeleteRole _ => PermissionRolesWrite
  | _ => PermissionUsersWrite
  end.

Definition status_of {A} (m : M (Reply A)) : M Z := r ← m; ret (reply_Status r).

Definition handle_admin (s : Server) (c : Call) (a : admin_request) (p : Principal) : M Z :=
  match a with
  | AskCreateRole body => status_of (createRole c p body)
  | AskUpdateRole id body => status_of (updateRole c p id body)
  | AskDeleteRole id => status_of (deleteRole c p id)
  | AskCreateUser body => status_of (createUser s c p body)
  | AskUpdateUser id body => status_of (updateUser s c p id body)
  | AskDeleteUser id => status_of (deleteUser c p id)
  | AskSetUserEnabled id enabled => status_of (setUserEnabled c p id enabled)
  | AskForceRelogin id => status_of (forceRelogin c p id)
  | AskSetUserApproval id status => status_of (setUserApproval c p id status)
  | AskSetUserPassword id body => status_of (setUserPassword s c p id body)
  | AskAdminResetTOTP id => status_of (adminResetTOTP c p id)
  end.

(** A request as it arrives, with its guard. *)
Definition serve_admin (s : Server) (req : Request) (c : Call) (a : admin_request) : M (Reply Z) :=
  requirePermission s (needs a) req c (λ p, status ← handle_admin s c a p; ret (writeJSON status status)).

Section OneRequest.
Context (R : string → Prop) (R_all : R PermissionAll → ∀ x, R x) (d0 : DB) (p : Principal).
Context (R_has : ∀ x, hasPermission (principal_User p) x = true → R x).

Lemma canGrant_rights l x : canGrant (principal_User p) l = true → x ∈ l → R x.
Proof.
  unfold canGrant. intros [Ha|Hl]%orb_true_iff Hx; apply R_has.
  - unfold hasPermission. by rewrite Ha.
  - rewrite forallb_forall in Hl. by apply Hl, list_elem_of_In.
Qed.

Lemma canAssignRole_spec {F} role d h :
  wp F (canAssignRole (principal_User p) role)
    (λ r d' h', d' = d ∧ h' = h ∧ match r with Ok true => allowed R d role | _ => True end) d h.
Proof.
  unfold canAssignRole, validRole, FindRoleByID. wp_go; (split_and!; [done|done|]); try done.
  all: try (intros x _; left; apply R_has; unfold hasPermission; by rewrite bool_decide_true).
  all: destruct (canGrant _ _) eqn:Hg; [|done].
  all: repeat match goal with Hf : scanRole <$> _ = Some _ |- _ => apply fmap_Some in Hf as (? & ? & ->) end.
  all: intros y [?|Hx]; [done|]; left; unfold role_permissions in Hx; rewrite bool_decide_false in Hx by done.
  all: match goal with Hs : select_one _ _ = Some _ |- _ => rewrite Hs in Hx end.
  all: destruct Hx as [Hx|Hx]; [apply R_all|]; by eapply canGrant_rights.
Qed.

Lemma handed_weaken role d : handed R d0 role d → handed R d0 RoleUser d.
Proof. intros (? & ? & _). split_and!; [done..|]. intros x Hx. by right. Qed.

(** A program that runs once an assignable role was checked. *)
Lemma keeps_assignable {A} role (k : bool → M A) :
  keeps (handed R d0 RoleUser) (k false) → keeps (handed R d0 role) (k true) →
  keeps (handed R d0 RoleUser) (assignable ← canAssignRole (principal_User p) role; k assignable).
Proof.
  intros Hf Ht d h Hd. apply wp_bind. eapply wp_mono; [apply canAssignRole_spec|].
  intros [[]|e] d' h' (-> & -> & Ha); [|by apply Hf|done].
  eapply wp_mono; [apply Ht; destruct Hd as (? & ? & _); by split_and!|]. intros r d' h'. apply handed_weaken.
Qed.

Lemma CreateLocalUser_role s input f now role :
  input_Role input = role →
  ∀ d h, handed R d0 role d → wp true (try (CreateLocalUser s input f now))
    (λ r d' _, handed R d0 role d' ∧ match r with Ok (Ok u) => user_Role u = role | _ => True end) d h.
Proof.
  intros Hr d h Hd. apply wp_try. unfold CreateLocalUser, validatePassword.
  wp_step. wp_step. destruct (PasswordPolicy_Validate _ _); [|done].
  wp_step. wp_step. destruct (HashPassword _ _ _); [|done].
  wp_step. eapply wp_mono; [by apply keeps_store_CreateUser|].
  intros [[]|e] d' h' Hd'; [|done]. wp_go. done.
Qed.

Lemma keeps_status {A} I (m : M (Reply A)) : keeps I m → keeps I (status_of m).
Proof. intros Hm. unfold status_of. keep. Qed.

Ltac open_handlers :=
  unfold setUserEnabled, forceRelogin, setUserApproval, setUserPassword, adminResetTOTP,
    deleteUser, Auth.SetUserEnabled, Auth.ForceRelogin, Auth.SetUserApproval, Auth.SetPassword, Auth.DeleteUser,
    Auth.UpdateUser, new_password_hash, validatePassword, StoreUsers.SetUserEnabled, StoreUsers.ForceRelogin,
    UpdateUserPassword, SetUserTOTP, ListUsers, ListUserGroupMemberships, FindRoleByID, FindUserByID,
    success, success_role, record.

Lemma keeps_createUser s c body : keeps (handed R d0 RoleUser) (createUser s c p body).
Proof.
  unfold createUser. destruct body as [input|]; [|keep]. destruct (_ || _); [keep|].
  apply keeps_assignable; cbn [negb]; [keep|].
  eapply keeps_bind_post; [by apply CreateLocalUser_role|].
  intros [u|e] Hu; [|keep]. open_handlers. keep.
Qed.

Lemma keeps_updateUser s c id body : keeps (handed R d0 RoleUser) (updateUser s c p id body).
Proof.
  unfold updateUser. destruct body as [input|]; [|keep]. destruct (_ || _); [keep|].
  apply keeps_assignable; cbn [negb orb]; [keep|]. open_handlers. keep.
Qed.

Lemma keeps_createRole c body : keeps (handed R d0 RoleUser) (createRole c p body).
Proof.
  unfold createRole. open_handlers. destruct (body ≫= normalizeRole) as [input|]; [|keep].
  destruct (_ || _) eqn:Hc; [keep|]. simplify_bool. keep_step; [keep_step|keep].
  apply keeps_CreateRole; [done|done|set_solver|]. intros x. by apply canGrant_rights.
Qed.

Lemma FindRoleByID_post id d h :
  handed R d0 RoleUser d → wp true (try (FindRoleByID id)) (λ r d' _, handed R d0 RoleUser d' ∧ match r with
    | Ok (Ok role) => roledef_ID role = id ∧ (id = RoleUser → roledef_System role = true)
    | _ => True end) d h.
Proof.
  intros Hd. apply wp_try. unfold FindRoleByID. wp_go; try done. split; [done|].
  apply fmap_Some in Heqo as (row & Hrow & ->). apply select_one_Some in Hrow as [Hrow Hid].
  destruct Hd as (_ & Hs & _). split; [done|]. intros ->. exact (Hs row Hrow Hid).
Qed.

Lemma keeps_updateRole c id body : keeps (handed R d0 RoleUser) (updateRole c p id body).
Proof.
  unfold updateRole. destruct body as [body|]; [|keep].
  destruct (normalizeRole _) as [input|]; [|keep]. destruct (negb _) eqn:Hc; [keep|]. simplify_bool.
  eapply keeps_bind_post; [apply FindRoleByID_post|]. intros [role|e] Hrole; [|keep].
  destruct Hrole as [Hid Hsys]. destruct (roledef_System role) eqn:Hsystem; [keep|].
  keep_step; [keep_step|open_handlers; keep].
  apply keeps_UpdateRole; [done|done| |].
  - cbn. intros He. rewrite Hid in He. by specialize (Hsys He).
  - cbn. intros x. by apply canGrant_rights.
Qed.

Lemma keeps_deleteRole c id : keeps (handed R d0 RoleUser) (deleteRole c p id).
Proof.
  unfold deleteRole. open_handlers. keep_step; [keep|]. intros users. keep_step; [keep_step; by apply keeps_DeleteRole|].
  intros [[]|e]; keep.
Qed.

(** One request hands out nothing beyond what its caller has. *)
Lemma keeps_admin s c a : keeps (handed R d0 RoleUser) (handle_admin s c a p).
Proof.
  destruct a; cbn [handle_admin]; apply keeps_status.
  - apply keeps_createRole.
  - apply keeps_updateRole.
  - apply keeps_deleteRole.
  - apply keeps_createUser.
  - apply keeps_updateUser.
  - open_handlers. keep.
  - open_handlers. keep.
  - open_handlers. keep.
  - open_handlers. keep.
  - open_handlers. keep.
  - open_handlers. keep.
Qed.
End OneRequest.

(** ** Histories of requests *)

Definition serve_all (s : Server) (l : list (Request * Call * admin_request)) (w : world) : world :=
  foldl (λ w r, (serve_admin s r.1.1 r.1.2 r.2 w).2) w l.

(** The account whose token a request carries. *)
Definition acts_as (s : Server) (req : Request) (now : time) (id : string) : Prop :=
  ∃ c, Parse (tokens (server_auth s)) now (TrimSpace (TrimPrefix (request_Header req "Authorization") "Bearer ")) = Ok c
       ∧ claims_Subject c = id.

Lemma touched_grants R d d' : touched d d' → grants_step R d d'.
Proof. intros [Hu Hr]%touched_users. by apply grants_same. Qed.

(** One request: what is handed out is what the account of its token has. *)
Lemma serve_admin_step s req c a w :
  system_user (w_db w) →
  grants_step (λ x, ∃ id, acts_as s req (call_now c) id ∧ holds (w_db w) id x) (w_db w) (w_db (serve_admin s req c a w).2).
Proof.
  intros Hs. unfold serve_admin, requirePermission. set (k := λ p : Principal, if negb _ then _ else _).
  pose proof (requireAuth_runs s req c k w) as Hr. destruct (requireAuth s req c k w) as [r w'].
  destruct Hr as [(row & p & w1 & Ha & Ht & _ & Hk)|(m & -> & Ht)]; [|by apply touched_grants].
  destruct Ha as (cl & _ & Hp & _ & Hrow & _ & l & Hu & Hl).
  set (R := λ x, role_grants (w_db w) (user_Role row) x).
  assert (Hhas : ∀ x, hasPermission (principal_User p) x = true → R x)
    by (intros x; rewrite Hu; by apply hasPermission_spec).
  assert (Hall : R PermissionAll → ∀ x, R x) by (intros [?|[?|?]] x; [by left|right; by left..]).
  assert (Hkeep : keeps (handed R (w_db w) RoleUser) (k p)).
  { unfold k. destruct (negb _); [apply keeps_ret|]. apply keeps_bind; [by apply keeps_admin|]. intros. apply keeps_ret. }
  assert (Hh : handed R (w_db w) RoleUser (w_db w1)).
  { destruct (touched_grants R _ _ Ht) as (? & ? & Hs1). split_and!; [by split_and!|by apply Hs1|]. intros x Hx. by right. }
  pose proof (keeps_run _ _ w1 Hkeep Hh) as ((Hg & Hperm & Hs') & _). rewrite <-Hk in Hg, Hperm, Hs'.
  split_and!; [|done|done]. intros id x Hx. destruct (Hg id x Hx) as [?|[Hr|?]]; [by left| |auto].
  right. left. exists (claims_Subject cl). split; [by exists cl|].
  apply select_one_Some in Hrow as [Hin Hid]. by exists row.
Qed.

(** C5: privileges cannot be escalated: whatever requests for accounts and
    roles arrive and whatever statements fail, if no account that asks had a
    permission at the start, and the role of ordinary users does not give it,
    then nobody has it at the end who did not have it at the start. *)
Theorem no_privilege_escalation s l w x :
  system_user (w_db w) → ¬ role_grants (w_db w) RoleUser x →
  Forall (λ r, ∀ id, acts_as s r.1.1 (call_now r.1.2) id → ¬ holds (w_db w) id x) l →
  ∀ id, holds (w_db (serve_all s l w)) id x → holds (w_db w) id x.
Proof.
  intros Hs Hx Hl. set (d0 := w_db w) in *.
  cut (∀ w1, system_user (w_db w1) → role_permissions (w_db w1) RoleUser = role_permissions d0 RoleUser →
             (∀ id, holds (w_db w1) id x → holds d0 id x) →
             ∀ id, holds (w_db (serve_all s l w1)) id x → holds d0 id x).
  { intros Hcut. by apply Hcut. }
  induction Hl as [|[[req c] a] l Hact _ IH]; intros w1 Hs1 Hp1 Hh1; [done|]. cbn.
  destruct (serve_admin_step s req c a w1 Hs1) as (Hg & Hp & Hs2).
  apply IH; [by apply Hs2|congruence|]. intros id Hid.
  destruct (Hg id x Hid) as [Hh|[(id' & Ha & Hh)|Hu]]; [by apply Hh1| |].
  - destruct (Hact id' Ha). by apply Hh1.
  - destruct Hx. by eapply role_grants_user.
Qed.
End Escalation.

(** ** The theorems at a concrete installation *)

(** An operator who may change accounts and roles, and little else. *)
Definition ex_mail : MailAddress := {| ParseAddress := Some |}.
Definition ex_operator_role : RoleDefinition :=
  mkRoleDefinition "operators" "Operators" "" [PermissionUsersWrite; PermissionRolesWrite] false 0 0.
Definition ex_console : world :=
  mkWorld (ex_accounts
    <| t_users := [ex_user "u0" "root" RoleAdmin; ex_user "u1" "alice" "operators"; ex_user "u2" "bob" RoleUser] |>
    <| t_sessions := [mkSession "s9" "u1" 0 100000000 None 0 "" "" ""] |>
    <| t_roles := [mkRoleDefinition RoleAdmin "Administrator" "" [PermissionAll] true 0 0;
                   mkRoleDefinition RoleUser "User" "" [] true 0 0; ex_operator_role] |>)
    [] (NewHub "src").
Definition ex_server : Server := mkServer ex_service (Mfa.mkService [] [] "" "") "internal" "builder".
Definition ex_request : Request :=
  mkRequest (λ h, if bool_decide (h = "Authorization") then "Bearer token" else "") "10.0.0.1" "curl".
Definition ex_call (id : string) : Call :=
  mkCall (11 * second) (λ _, mkStamp id id (11 * second))
    (mkEntropy id id "x" (Some (replicate 16 Ascii.zero)) 4).
Definition ex_attempts : list (Request * Call * admin_request) := [
  (ex_request, ex_call "e1", AskUpdateUser "u1" (Some (mkUpdateUserRequest "alice" "" "" "" "" RoleAdmin (Some true) [])));
  (ex_request, ex_call "e2", AskCreateRole (Some (mkRoleRequest "backup" "Backup" "" [PermissionBackupWrite])));
  (ex_request, ex_call "e3", AskUpdateUser "u2" (Some (mkUpdateUserRequest "bob" "" "" "" "" "operators" (Some true) []))) ].

(** The attempts to become administrator and to create a stronger role are
    refused; making another account an operator is not. *)
Example ex_attempts_answered :
  (λ r, match (@serve_admin ascii_unicode ex_argon2 ex_jwt ex_mail ex_server r.1.1 r.1.2 r.2 ex_console).1 with
        | Ok reply => reply_Content reply | Err _ => NoContent end) <$> ex_attempts
  = [Value 400; Value 400; Value 200].
Proof. vm_compute. reflexivity. Qed.

Lemma no_privilege_escalation_witness :
  ¬ holds (w_db (@serve_all ascii_unicode ex_argon2 ex_jwt ex_mail ex_server ex_attempts ex_console))
      "u1" PermissionBackupWrite.
Proof.
  assert (Hx : ¬ holds (w_db ex_console) "u1" PermissionBackupWrite).
  { intros (u & Hu & Hid & Hg). cbn in Hu. repeat (apply elem_of_cons in Hu as [->|Hu]; [try discriminate Hid|]);
      [|by apply not_elem_of_nil in Hu].
    destruct Hg as [Hg|[Hg|Hg]]; [discriminate|apply (bool_decide_eq_true_2 (_ ∈ _)) in Hg; vm_compute in Hg; discriminate..]. }
  intros Hh. apply Hx.
  refine (@no_privilege_escalation ascii_unicode ex_argon2 ex_jwt ex_mail ex_server ex_attempts
            ex_console PermissionBackupWrite _ _ _ "u1" Hh).
  - intros r Hr Hid. cbn in Hr. repeat (apply elem_of_cons in Hr as [->|Hr]; [first [reflexivity|discriminate Hid]|]).
    by apply not_elem_of_nil in Hr.
  - intros [Hg|[Hg|Hg]]; [discriminate|..]; by apply not_elem_of_nil in Hg.
  - repeat constructor; intros id (c & Hc & <-); vm_compute in Hc; injection Hc as <-; exact Hx.
Defined.

Abbreviation ex_takeover :=
  (@serve_admin ascii_unicode ex_argon2 ex_jwt ex_mail ex_server ex_request (ex_call "e4")
     (AskSetUserPassword "u0" (Some "known")) ex_console) (only parsing).

(** the handler that sets a password does not compare its target with its
    caller: an operator with users.write, who cannot assign the administrator's
    role, sets the administrator's password and signs in as administrator. *)
Theorem password_reset_reaches_administrator :
  ¬ role_grants (w_db ex_console) "operators" PermissionBackupWrite
  ∧ ex_takeover.1 = Ok (writeJSON 200 200)
  ∧ ∃ u, (@VerifyCredentials ascii_unicode ex_argon2 ex_service "root" "known" ex_entropy (12 * second)
            ex_takeover.2).1 = Ok u ∧ user_ID u = "u0" ∧ hasPermission u PermissionBackupWrite = true.
Proof.
  split_and!.
  - intros [Hg|[Hg|Hg]]; [discriminate|apply (bool_decide_eq_true_2 (_ ∈ _)) in Hg; vm_compute in Hg; discriminate..].
  - vm_compute. reflexivity.
  - assert (Hv : match (@VerifyCredentials ascii_unicode ex_argon2 ex_service "root" "known" ex_entropy (12 * second)
            ex_takeover.2).1 with Ok u => bool_decide (user_ID u = "u0") && hasPermission u PermissionBackupWrite
            | Err _ => false end = true) by (vm_compute; reflexivity).
    destruct (_ : res User) as [u|]; [|discriminate]. exists u. apply andb_true_iff in Hv as [Hid Hp].
    split_and!; [done|by apply bool_decide_eq_true in Hid|done].
Qed.
