(* ===== verification/Inventory.v ===== *)
(** * Devices over HTTP (art-api/internal/httpapi: inventory.go, api_tokens.go, server.go)

    The requests by which clients and rendezvous servers announce devices, the
    deployment of a device with an API token, and what the client lists.  [ttl]
    is the time after which a silent device is offline; the orders say how Go
    ranges over the settings of strategies and profiles. *)

From S2P Require Export Acl Managed Rbac StoreSessions.
From S2P Require Import Sample.

Record heartbeatRequest := mkHeartbeatRequest {
  hb_ID : string; hb_UUID : string; hb_Version : Z; hb_ModifiedAt : Z; hb_Connections : list Z }.

Record sysinfoRequest := mkSysinfoRequest {
  si_ID : string; si_UUID : string; si_CPU : string; si_Hostname : string; si_Memory : string;
  si_OS : string; si_Username : string; si_Version : string }.

(** server.go: the heartbeat of a rendezvous server. *)
Record deviceHeartbeatRequest := mkDeviceHeartbeatRequest {
  dh_RustDeskID : string; dh_ClientUUID : string; dh_LastSeenIP : string }.

(** The body of [deployDevice]. *)
Record deployRequest := mkDeployRequest { deploy_ID : string; deploy_UUID : string; deploy_PK : string }.

(** The payload of a heartbeat. *)
Record heartbeatReply := mkHeartbeatReply {
  reply_modified_at : Z; reply_strategy : option (gmap string string); reply_sysinfo : bool }.

Record Orders := mkOrders {
  order_float : Z → string;                              (* the text of a float64 *)
  order_reset : Strategy → list (string * any);
  order_set : Strategy → list (string * any);
  order_profile : gmap string any → list (string * any) }.

(** [net.ParseIP(s) != nil] *)
Class Net := { valid_ip : string → bool }.

Definition firstNonEmpty (values : list string) : string :=
  default "" (head (filter (λ v, v ≠ "") values)).

Definition zero_device : Device :=
  mkDevice "" "" "" "" "" "" "" "" "" "" false zero_time "" "" [] "" false "" None zero_time None.

(** The device with an identifier, if it exists, and whether its UUID differs. *)
Definition inventoryDevice (ttl : duration) (now : time) (id clientUUID : string) : M (option Device * bool) :=
  devices ← ListDevices ttl now;
  ret (match device_named id devices with
       | None => (None, false)
       | Some device => (Some device, negb (bool_decide (device_ClientUUID device = ""))
                                      && negb (bool_decide (device_ClientUUID device = clientUUID)))
       end).

Definition hashAPIToken (secret : string) : string := hex_encode (sha256_Sum (bytes_of secret)).
Definition deployScope : string := "devices:deploy".
Definition hasScope (scopes : list string) (expected : string) : bool := bool_decide (expected ∈ scopes).

Section Handlers.
Context `{Unicode} `{SqlText} `{Net}.
Context (ttl : duration) (orders : Orders) (managed : bool).

Definition validInventoryIdentity (id clientUUID : string) : bool :=
  let id := TrimSpace id in
  let clientUUID := TrimSpace clientUUID in
  negb (bool_decide (id = "")) && negb (bool_decide (clientUUID = "")) && (len id <=? 64) && (len clientUUID <=? 512).

(** The event of a client with somebody else's identifier. *)
Definition identity_mismatch (req : Request) (id : string) : AuditEvent :=
  mkAuditEvent "" zero_time "device_identity_mismatch" "" "" "" id (request_IP req) "denied" "uuid_mismatch" ∅.

(** The settings of strategies and, when profiles are managed, of the profile. *)
Definition device_settings (device : Device) : M (Reply heartbeatReply + (Z * gmap string string)) :=
  strategy ← try (Strategy.EffectiveForDevice (order_float orders) (order_reset orders) (order_set orders) device);
  match strategy with
  | Err _ => ret (inl (writeError 500 "device strategy unavailable"))
  | Ok result =>
      if negb managed then ret (inr (result_ModifiedAt result, result_ConfigOptions result)) else
      profile ← try (Managed_EffectiveForDevice device);
      match profile with
      | Err _ => ret (inl (writeError 500 "managed client profile unavailable"))
      | Ok profile =>
          let options := ClientOptions (order_float orders) (order_profile orders (effective_Settings profile)) in
          let modified := if result_ModifiedAt result <? effective_ModifiedAt profile
                          then effective_ModifiedAt profile else result_ModifiedAt result in
          ret (inr (modified, options ∪ result_ConfigOptions result))
      end
  end.

Definition clientHeartbeat (req : Request) (c : Call) (body : option heartbeatRequest) : M (Reply heartbeatReply) :=
  match body with
  | None => ret (writeError 400 "invalid device heartbeat")
  | Some input =>
      if negb (validInventoryIdentity (hb_ID input) (hb_UUID input))
      then ret (writeError 400 "invalid device heartbeat") else
      let now := call_now c in
      found ← try (inventoryDevice ttl now (hb_ID input) (hb_UUID input));
      match found with
      | Err _ => ret (writeError 500 "device inventory unavailable")
      | Ok (known, mismatch) =>
          let device := default zero_device known in
          if mismatch && device_Deployed device then
            record c 0 (identity_mismatch req (hb_ID input));;
            ret (writeError 403 "device identity mismatch")
          else
          let device := device <| device_RustDeskID := hb_ID input |> <| device_ClientUUID := hb_UUID input |>
                               <| device_Online := true |> <| device_LastSeen := now |>
                               <| device_LastSeenIP := request_IP req |> in
          let device := if device_CreatedAt device =? zero_time then device <| device_CreatedAt := now |> else device in
          stored ← try (UpsertDevice device);
          if negb (is_ok stored) then ret (writeError 500 "device heartbeat failed") else
          settings ← device_settings device;
          ret (match settings with
               | inl reply => reply
               | inr (modified, options) =>
                   writeJSON 200 (mkHeartbeatReply modified
                     (if hb_ModifiedAt input =? modified then None else Some options)
                     (bool_decide (known = None) || bool_decide (device_Hostname device = "")
                      || bool_decide (device_Platform device = "") || bool_decide (device_Version device = "")))
               end)
      end
  end.

Definition clientSysinfo (req : Request) (c : Call) (body : option sysinfoRequest) : M (Reply string) :=
  match body with
  | None => ret (writeError 400 "invalid device sysinfo")
  | Some input =>
      if negb (validInventoryIdentity (si_ID input) (si_UUID input)) || (512 <? len (si_Hostname input))
         || (256 <? len (si_OS input)) || (512 <? len (si_Username input)) || (128 <? len (si_Version input))
         || (2048 <? len (si_CPU input)) || (512 <? len (si_Memory input))
      then ret (writeError 400 "invalid device sysinfo") else
      let now := call_now c in
      found ← try (inventoryDevice ttl now (si_ID input) (si_UUID input));
      match found with
      | Err _ => ret (writeError 500 "device inventory unavailable")
      | Ok (known, mismatch) =>
          let device := default zero_device known in
          if mismatch && device_Deployed device then
            record c 0 (identity_mismatch req (si_ID input));;
            ret (writeJSON 200 "ID_NOT_FOUND")
          else
          let device := device <| device_RustDeskID := si_ID input |> <| device_ClientUUID := si_UUID input |>
            <| device_Hostname := TrimSpace (si_Hostname input) |> <| device_Platform := TrimSpace (si_OS input) |>
            <| device_Version := TrimSpace (si_Version input) |> <| device_CPU := TrimSpace (si_CPU input) |>
            <| device_Memory := TrimSpace (si_Memory input) |> <| device_Username := TrimSpace (si_Username input) |>
            <| device_LastSeenIP := request_IP req |> <| device_Online := true |> <| device_LastSeen := now |> in
          let device := if device_CreatedAt device =? zero_time then device <| device_CreatedAt := now |> else device in
          stored ← try (UpsertDevice device);
          if negb (is_ok stored) then ret (writeError 500 "device sysinfo update failed") else
          when (bool_decide (known = None))
            (record c 0 (mkAuditEvent "" zero_time "device_discovered" "" "" "" (si_ID input) (request_IP req) "success" ""
               {["platform" := VString (device_Platform device); "version" := VString (device_Version device)]}));;
          ret (writeJSON 200 "SYSINFO_UPDATED")
      end
  end.

Definition deviceHeartbeat (c : Call) (body : option deviceHeartbeatRequest) : M (Reply unit) :=
  match body with
  | None => ret (writeError 400 "invalid device heartbeat")
  | Some input =>
      let id := TrimSpace (dh_RustDeskID input) in
      let ip := TrimSpace (dh_LastSeenIP input) in
      if (len id <? 3) || (64 <? len id) || (256 <? len (dh_ClientUUID input)) || ((0 <? len ip) && negb (valid_ip ip))
      then ret (writeError 400 "invalid device heartbeat") else
      stored ← try (UpsertDevice (zero_device <| device_RustDeskID := id |> <| device_ClientUUID := dh_ClientUUID input |>
        <| device_Online := true |> <| device_LastSeenIP := ip |> <| device_LastSeen := call_now c |>
        <| device_CreatedAt := call_now c |>));
      ret (if is_ok stored then mkReply 204 NoContent else writeError 500 "device heartbeat failed")
  end.

(** ** API tokens and deployment (api_tokens.go) *)

Definition listAPITokens (p : Principal) : M (Reply (list APIToken)) :=
  values ← try (ListAPITokens (user_ID (principal_User p)));
  ret (match values with Ok values => writeJSON 200 values | Err _ => writeError 500 "API tokens unavailable" end).

(** The name and the days of the body; [fresh] is [uuid.NewString()] and
    [random] the 32 bytes of [rand.Read]. *)
Definition createAPIToken (req : Request) (c : Call) (p : Principal) (fresh : string) (random : option bytes)
    (body : option (string * Z)) : M (Reply (string * APIToken)) :=
  match body with
  | None => ret (writeError 400 "invalid API token")
  | Some (name, days) =>
      let name := TrimSpace name in
      if bool_decide (name = "") || (128 <? len name) || (days <? 1) || (365 <? days)
      then ret (writeError 400 "invalid API token") else
      match random with
      | None => ret (writeError 500 "API token generation failed")
      | Some secretBytes =>
          let secret := "art_pat_" +:+ base64_encode url_alphabet secretBytes in
          let now := call_now c in
          let value := mkAPIToken fresh (user_ID (principal_User p)) name (hashAPIToken secret)
            (String.substring 0 16 secret) [deployScope] now (now + days * 24 * hour) None None in
          created ← try (CreateAPIToken value);
          if negb (is_ok created) then ret (writeError 500 "API token creation failed") else
          record c 0 (audit_event "api_token_create" (user_ID (principal_User p)) (session_ID (principal_Session p))
            (request_IP req) "success" "" {["token_id" := VString fresh; "scopes" := VOther]});;
          ret (writeJSON 201 (secret, value))
      end
  end.

Definition revokeAPIToken (req : Request) (c : Call) (p : Principal) (tokenID : string) : M (Reply unit) :=
  revoked ← try (RevokeAPIToken (user_ID (principal_User p)) tokenID (call_now c));
  match revoked with
  | Err ErrNotFound => ret (writeError 404 "API token not found")
  | Err _ => ret (writeError 500 "API token revoke failed")
  | Ok _ =>
      record c 0 (audit_event "api_token_revoke" (user_ID (principal_User p)) (session_ID (principal_Session p))
        (request_IP req) "success" "" {["token_id" := VString tokenID]});;
      ret (mkReply 204 NoContent)
  end.

Definition bearerToken (header : string) : string :=
  match Fields header with
  | [scheme; token] => if EqualFold scheme "Bearer" then token else ""
  | _ => ""
  end.

(** The account that may deploy, or the reply. *)
Definition deploy_account (req : Request) (c : Call) : M (Reply string + (APIToken * User)) :=
  let secret := bearerToken (request_Header req "Authorization") in
  token ← try (FindAPITokenByHash (hashAPIToken secret));
  match token with
  | Err _ => ret (inl (writeJSON 401 "INVALID_TOKEN"))
  | Ok token =>
      if bool_decide (secret = "") || negb (bool_decide (token_RevokedAt token = None))
         || negb (call_now c <? token_ExpiresAt token) || negb (hasScope (token_Scopes token) deployScope)
      then ret (inl (writeJSON 401 "INVALID_TOKEN")) else
      user ← try (FindUserByID (token_UserID token));
      match user with
      | Err _ => ret (inl (writeJSON 403 "INVALID_TOKEN"))
      | Ok user =>
          if negb (user_Enabled user) || negb (bool_decide (user_ApprovalStatus user = ApprovalApproved))
          then ret (inl (writeJSON 403 "INVALID_TOKEN")) else ret (inr (token, user))
      end
  end.

(** The body, trimmed and checked. *)
Definition deploy_input (body : option deployRequest) : option deployRequest :=
  input ← body;
  let id := TrimSpace (deploy_ID input) in
  let uuid := TrimSpace (deploy_UUID input) in
  let pk := TrimSpace (deploy_PK input) in
  if (len id <? 3) || (64 <? len id) || bool_decide (uuid = "") || (512 <? len uuid)
     || negb (bool_decide (length <$> StdEncoding_DecodeString pk = Some 32%nat))
  then None else Some (mkDeployRequest id uuid pk).

(** What a deployment reads before it writes. *)
Definition deploy_checked (req : Request) (c : Call) (body : option deployRequest)
    : M (Reply string + (APIToken * User * deployRequest * Device)) :=
  account ← deploy_account req c;
  match account with
  | inl reply => ret (inl reply)
  | inr (token, user) =>
      match deploy_input body with
      | None => ret (inl (writeJSON 200 "INVALID_INPUT"))
      | Some input =>
          found ← try (inventoryDevice ttl (call_now c) (deploy_ID input) (deploy_UUID input));
          match found with
          | Err _ => ret (inl (writeJSON 500 "SERVER_ERROR"))
          | Ok (known, mismatch) =>
              if negb (bool_decide (known = None)) && mismatch then ret (inl (writeJSON 200 "ID_TAKEN"))
              else ret (inr (token, user, input, default zero_device known))
          end
      end
  end.

(** The writes of a deployment. *)
Definition deploy_device (req : Request) (c : Call) (v : APIToken * User * deployRequest * Device) : M (Reply string) :=
  let '(token, user, input, device) := v in
  let now := call_now c in
  let device := device <| device_RustDeskID := deploy_ID input |> <| device_ClientUUID := deploy_UUID input |>
    <| device_PublicKey := deploy_PK input |> <| device_Deployed := true |> <| device_DeployedBy := user_ID user |>
    <| device_DeployedAt := Some now |>
    <| device_OwnerUserID := firstNonEmpty [device_OwnerUserID device; user_ID user] |> in
  let device := if device_CreatedAt device =? zero_time then device <| device_CreatedAt := now |> else device in
  stored ← try (UpsertDevice device);
  if negb (is_ok stored) then ret (writeJSON 500 "SERVER_ERROR") else
  try (TouchAPIToken (token_ID token) now);;
  publish DeviceUpdated (PDevice device) now;;
  record c 0 (mkAuditEvent "" zero_time "device_deploy" (user_ID user) "" "" (deploy_ID input) (request_IP req) "success" ""
    {["token_id" := VString (token_ID token)]});;
  ret (writeJSON 200 "OK").

Definition deployDevice (req : Request) (c : Call) (body : option deployRequest) : M (Reply string) :=
  checked ← deploy_checked req c body;
  match checked with
  | inl reply => ret reply
  | inr v => deploy_device req c v
  end.

(** ** What the client lists *)

Definition clientUsers (p : Principal) : M (Reply (list ClientUser)) :=
  users ← try ListUsers;
  ret (match users with
       | Err _ => writeError 500 "users unavailable"
       | Ok users => writeJSON 200 (clientUser <$> filter (λ user, user_Role (principal_User p) = RoleAdmin
                                                         ∨ user_ID user = user_ID (principal_User p)) users)
       end).

Record clientPeer := mkClientPeer {
  peer_id : string; peer_device_name : string; peer_os : string; peer_username : string; peer_status : Z;
  peer_user : string; peer_user_name : string; peer_device_group_name : string }.

(** [m[key]] of a map from identifiers to names, filled in the order of the list. *)
Definition name_of (names : list (string * string)) (key : string) : string :=
  default "" (snd <$> last (filter (λ kv, kv.1 = key) names)).

Definition clientPeers (c : Call) (p : Principal) : M (Reply (list clientPeer)) :=
  devices ← try (accessibleDevices ttl c (principal_User p));
  match devices with
  | Err _ => ret (writeError 500 "devices unavailable")
  | Ok devices =>
      users ← try ListUsers;
      groups ← try ListGroups;
      let userNames := (λ u, (user_ID u, user_Username u)) <$> listed users in
      let groupNames := (λ g, (group_ID g, group_Name g)) <$> listed groups in
      ret (writeJSON 200 ((λ d, mkClientPeer (device_RustDeskID d) (firstNonEmpty [device_Alias d; device_Hostname d])
        (device_Platform d) (device_Username d) (boolStatus (device_Online d)) (device_OwnerUserID d)
        (name_of userNames (device_OwnerUserID d)) (name_of groupNames (device_GroupID d))) <$> devices))
  end.

Definition clientDeviceGroups (c : Call) (p : Principal) : M (Reply (list Group)) :=
  devices ← try (accessibleDevices ttl c (principal_User p));
  match devices with
  | Err _ => ret (writeError 500 "device groups unavailable")
  | Ok devices =>
      let allowed := filter (λ g, g ≠ "") (device_GroupID <$> devices) in
      groups ← try ListGroups;
      ret (match groups with
           | Err _ => writeError 500 "device groups unavailable"
           | Ok groups => writeJSON 200 (filter (λ g, group_Kind g = GroupKindDevice
                ∧ (user_Role (principal_User p) = RoleAdmin ∨ group_ID g ∈ allowed)) groups)
           end)
  end.
End Handlers.
