(* ===== verification/Runtime.v ===== *)
(** * The live state of the server (art-api/internal/httpapi/runtime_state.go)

    What the API knows of the running rendezvous and relay servers: their last
    heartbeats, the commands queued for them and the samples of the dashboard.
    The state is in memory under a mutex, so every method is one step. *)

From S2P Require Export Prelude GoStd.

Record servicePulse := mkServicePulse {
  pulse_service : string; pulse_instanceID : string; pulse_onlinePeers : Z; pulse_receivedAt : time }.

Record serviceCommand := mkServiceCommand {
  command_ID : string; command_Service : string; command_TargetInstance : string; command_Type : string;
  command_CreatedAt : time; command_ExpiresAt : time;
  command_AcknowledgedAt : option time; command_AcknowledgedBy : string }.
#[export] Instance eta_serviceCommand : Eta serviceCommand := λ r,
  mkServiceCommand (command_ID r) (command_Service r) (command_TargetInstance r) (command_Type r)
    (command_CreatedAt r) (command_ExpiresAt r) (command_AcknowledgedAt r) (command_AcknowledgedBy r).

(** Of a sample only its time matters to the state; the figures are kept as [A]. *)
Record infrastructureSample (A : Type) := mkSample { sample_Timestamp : time; sample_Figures : A }.
Arguments mkSample {A} sample_Timestamp sample_Figures.
Arguments sample_Timestamp {A} i.
Arguments sample_Figures {A} i.

Section State.
Context {A : Type}.

Record runtimeState := mkRuntimeState {
  rt_pulses : gmap string servicePulse;
  rt_history : list (infrastructureSample A);
  rt_commands : list serviceCommand
}.
#[export] Instance eta_runtimeState : Eta runtimeState := λ r,
  mkRuntimeState (rt_pulses r) (rt_history r) (rt_commands r).

Definition newRuntimeState : runtimeState := mkRuntimeState ∅ [] [].

Definition heartbeat (s : runtimeState) (service instanceID : string) (onlinePeers : Z) (now : time) : runtimeState :=
  s <| rt_pulses := <[service +:+ ":" +:+ instanceID := mkServicePulse service instanceID onlinePeers now]> (rt_pulses s) |>.

(** [fresh] is [uuid.NewString()]. *)
Definition enqueueCommand (s : runtimeState) (service target commandType fresh : string) (now : time)
    : serviceCommand * runtimeState :=
  let command := mkServiceCommand fresh service target commandType now (now + 5 * minute) None "" in
  (command, s <| rt_commands := rt_commands s ++ [command] |>).

(** The loop body: a command is acknowledged by whoever names it. *)
Definition acknowledge (instanceID : string) (acknowledged : list string) (now : time) (c : serviceCommand)
    : serviceCommand :=
  if bool_decide (command_AcknowledgedAt c = None) && bool_decide (command_ID c ∈ acknowledged)
  then c <| command_AcknowledgedAt := Some now |> <| command_AcknowledgedBy := instanceID |> else c.

Definition deliverable (service instanceID : string) (now : time) (c : serviceCommand) : bool :=
  bool_decide (command_AcknowledgedAt c = None) && (now <? command_ExpiresAt c)
  && bool_decide (command_Service c = service)
  && (bool_decide (command_TargetInstance c = "*") || bool_decide (command_TargetInstance c = instanceID)).

(** [s[len(s)-n:]] when the slice is longer than [n]. *)
Definition newest {B} (n : nat) (l : list B) : list B := drop (length l - n) l.

Definition heartbeatCommands (s : runtimeState) (service instanceID : string) (acknowledged : list string) (now : time)
    : list serviceCommand * runtimeState :=
  let commands := acknowledge instanceID acknowledged now <$> rt_commands s in
  (filter (λ c, deliverable service instanceID now c) commands, s <| rt_commands := newest 200 commands |>).

Definition listCommands (s : runtimeState) : list serviceCommand := rt_commands s.

(** [service]: pulses ten times too old are forgotten. *)
Definition service_status (s : runtimeState) (name : string) (maxAge : duration) (now : time)
    : string * Z * Z * runtimeState :=
  let kept := filter (λ kv, Is_true (negb (10 * maxAge <? Sub now (pulse_receivedAt kv.2)))) (rt_pulses s) in
  let live := filter (λ kv, Is_true (bool_decide (pulse_service kv.2 = name)
                                     && (Sub now (pulse_receivedAt kv.2) <=? maxAge))) kept in
  let instances := Z.of_nat (size live) in
  let peers := map_fold (λ _ p n, pulse_onlinePeers p + n) 0 live in
  (if instances =? 0 then ("offline", 0, 0) else ("online", instances, peers), s <| rt_pulses := kept |>).

Definition record_sample (s : runtimeState) (sample : infrastructureSample A)
    : list (infrastructureSample A) * runtimeState :=
  let due := match last (rt_history s) with
             | None => true
             | Some x => 8 * second <=? Sub (sample_Timestamp sample) (sample_Timestamp x)
             end in
  let history := if due then newest 180 (rt_history s ++ [sample]) else rt_history s in
  (history, s <| rt_history := history |>).

(** ** Commands reach their instance *)

(** The requests that change the commands. *)
Inductive command_event :=
| Enqueued (service target type fresh : string) (now : time)
| Beat (service instance : string) (acknowledged : list string) (now : time).

Definition command_step (s : runtimeState) (e : command_event) : runtimeState :=
  match e with
  | Enqueued service target type fresh now => (enqueueCommand s service target type fresh now).2
  | Beat service instance acknowledged now => (heartbeatCommands s service instance acknowledged now).2
  end.

Definition command_run (s : runtimeState) (es : list command_event) : runtimeState := foldl command_step s es.

Fixpoint enqueues (es : list command_event) : nat :=
  match es with
  | [] => 0
  | Enqueued _ _ _ _ _ :: es' => S (enqueues es')
  | Beat _ _ _ _ :: es' => enqueues es'
  end.
Definition names (id : string) (e : command_event) : Prop :=
  match e with Beat _ _ acknowledged _ => id ∈ acknowledged | _ => False end.

Implicit Types (s : runtimeState) (c : serviceCommand).

(** The commands that were queued after [c]. *)
Definition queued (c : serviceCommand) (after : nat) s : Prop :=
  ∃ l1 l2, rt_commands s = l1 ++ c :: l2 ∧ length l2 = after.

Lemma newest_app {B} n (l1 l2 : list B) x : (length l2 < n)%nat → ∃ l1', newest n (l1 ++ x :: l2) = l1' ++ x :: l2.
Proof.
  intros Hn. unfold newest. exists (drop (length (l1 ++ x :: l2) - n) l1). rewrite drop_app_le; [done|].
  rewrite length_app. cbn. lia.
Qed.

Lemma length_newest {B} n (l : list B) : (length (newest n l) ≤ n)%nat.
Proof. unfold newest. rewrite length_drop. lia. Qed.

Lemma acknowledge_other instance acks now c : command_ID c ∉ acks → acknowledge instance acks now c = c.
Proof. intros Hc. unfold acknowledge. rewrite (bool_decide_eq_false_2 _ Hc). by rewrite andb_false_r. Qed.

Lemma command_step_queued c after s e :
  queued c after s → ¬ names (command_ID c) e → (after + enqueues [e] < 200)%nat →
  queued c (after + enqueues [e]) (command_step s e).
Proof.
  intros (l1 & l2 & Hs & <-) Hn Hlt. destruct e as [svc target type fresh now|svc inst acks now]; cbn.
  - exists l1, (l2 ++ [mkServiceCommand fresh svc target type now (now + 5 * minute) None ""]).
    rewrite Hs, <- app_assoc. split; [done|]. by rewrite length_app.
  - rewrite Hs, fmap_app, fmap_cons. cbn in Hn, Hlt. rewrite acknowledge_other by done.
    destruct (newest_app 200 (acknowledge inst acks now <$> l1) (acknowledge inst acks now <$> l2) c) as [l1' ->];
      [rewrite length_fmap; lia|].
    exists l1', (acknowledge inst acks now <$> l2). split; [done|]. rewrite length_fmap. lia.
Qed.

Lemma command_run_queued c es after s :
  queued c after s → Forall (λ e, ¬ names (command_ID c) e) es → (after + enqueues es < 200)%nat →
  queued c (after + enqueues es) (command_run s es).
Proof.
  revert after s. induction es as [|e es IH]; intros after s Hq Hn Hlt.
  - cbn. by replace (after + 0)%nat with after by lia.
  - inversion_clear Hn as [|? ? He Hes].
    assert (Heq : enqueues (e :: es) = (enqueues [e] + enqueues es)%nat)
      by (by destruct e).
    rewrite Heq in *. replace (after + (enqueues [e] + enqueues es))%nat with (after + enqueues [e] + enqueues es)%nat by lia.
    apply IH; [|done|lia]. apply command_step_queued; [done..|lia].
Qed.

(** a queued command reaches its instance: whatever commands and heartbeats
    come after it, as long as nobody acknowledges it and fewer than 200 commands
    follow it, every heartbeat of its target before it expires is answered with
    it. *)
Theorem queued_command_delivered s service target type fresh now es acks later :
  let c := mkServiceCommand fresh service target type now (now + 5 * minute) None "" in
  Forall (λ e, ¬ names fresh e) es → fresh ∉ acks → (enqueues es < 200)%nat → later < now + 5 * minute →
  let s' := command_run (enqueueCommand s service target type fresh now).2 es in
  c ∈ (heartbeatCommands s' service target acks later).1.
Proof.
  intros c Hes Hacks Hlt Hlater s'.
  destruct (command_run_queued c es 0 (enqueueCommand s service target type fresh now).2) as (l1 & l2 & Hs & _);
    [by exists (rt_commands s), []|done|lia|].
  unfold heartbeatCommands. cbn [fst]. apply list_elem_of_filter. split.
  - unfold deliverable, c. cbn [command_AcknowledgedAt command_ExpiresAt command_Service command_TargetInstance].
    rewrite (bool_decide_eq_true_2 (service = service)), (bool_decide_eq_true_2 (target = target)) by done.
    apply Z.ltb_lt in Hlater. by rewrite Hlater, orb_true_r.
  - unfold s'. rewrite Hs. apply list_elem_of_fmap. exists c.
    split; [by rewrite acknowledge_other|]. set_solver.
Qed.
End State.
Arguments runtimeState A : clear implicits.

Lemma queued_command_delivered_witness :
  let s' := command_run (enqueueCommand (newRuntimeState (A:=unit)) "hbbs" "n1" "reconcile_auth" "c1" 0).2
              [Beat "hbbs" "n2" ["c9"] second; Enqueued "hbbs" "n1" "reconcile_auth" "c2" second] in
  mkServiceCommand "c1" "hbbs" "n1" "reconcile_auth" 0 (5 * minute) None ""
    ∈ (heartbeatCommands s' "hbbs" "n1" [] (2 * second)).1.
Proof.
  refine (queued_command_delivered newRuntimeState "hbbs" "n1" "reconcile_auth" "c1" 0 _ [] (2 * second) _ _ _ _).
  - apply Forall_cons; split; [cbn; intros Hin; apply elem_of_cons in Hin as [Hin|Hin]; [discriminate Hin|by apply not_elem_of_nil in Hin]|].
    apply Forall_cons; split; [by intros []|apply Forall_nil; exact I].
  - apply not_elem_of_nil.
  - cbn. lia.
  - vm_compute. reflexivity.
Defined.
