(* ===== verification/RelayApi.v ===== *)
(** * The relay control plane of the API (art-api/internal: httpapi/relay_gateway.go,
    httpapi/relay_operations.go, httpapi/relay_quarantine.go, the relay handlers of
    httpapi/server.go, relay/monitor.go)

    Handlers that touch the connected relays take the [Gateway] and return it.
    What a relay or a TCP connection answers is an argument: [Gateway.Command] and
    [Gateway.Quarantine] wait for it, their steps are in [Gateway].  The store
    implements every optional interface the handlers ask it for. *)

From S2P Require Export Gateway Http Runtime.
From S2P Require Import Text Crypto Encoding Sample Keeps.

(** [net.JoinHostPort] with a number as port. *)
Definition JoinHostPort (host : string) (port : Z) : string :=
  if existsb (λ a, byte a =? 58) (bytes_of host)
  then "[" +:+ host +:+ "]:" +:+ Itoa port else host +:+ ":" +:+ Itoa port.
Definition relay_address (v : RelayServer) : string := JoinHostPort (relay_Hostname v) (relay_Port v).

(** [int64(x)] of a uint64 *)
Definition int64_of (x : Z) : Z := if 2 ^ 63 <=? x then x - 2 ^ 64 else x.

(** ** Health and selection (relay/monitor.go) *)

(** What the dial of a relay gives: the latency in milliseconds, or an error; the
    two clock readings after it. *)
Record Probe := mkProbe { probe_latency : option Z; probe_checkedAt : time; probe_recordedAt : time }.

Definition check_one (probe : RelayServer → Probe) (value : RelayServer) : M unit :=
  if negb (relay_Enabled value) then ret tt else
  let p := probe value in
  let '(health, latency) := match probe_latency p with Some ms => ("healthy", ms) | None => ("offline", 0) end in
  updated ← try (UpdateRelayHealth (relay_ID value) health latency (probe_checkedAt p));
  let changed := is_ok updated
    && (negb (bool_decide (relay_Health value = health)) || negb (relay_LatencyMS value =? latency)) in
  when changed (publish RelayUpdated (PRelay (value <| relay_Health := health |> <| relay_LatencyMS := latency |>))
                  (probe_recordedAt p));;
  discard (try (AppendRelayMetric (mkRelayMetric (relay_ID value) (probe_recordedAt p) health latency
                                    (relay_Connections value) (relay_Bandwidth value)))).

(** [check] of the monitor; [now] is the clock after the loop. *)
Definition check (probe : RelayServer → Probe) (now : time) : M unit :=
  values ← try ListRelayServers;
  match values with
  | Err _ => ret tt
  | Ok values =>
      for_each (check_one probe) values;;
      discard (try (PruneRelayMetrics (now - 30 * 24 * hour)))
  end.

Definition selectable (region : string) (value : RelayServer) : bool :=
  relay_Enabled value && bool_decide (relay_Health value = "healthy")
  && (bool_decide (region = "") || bool_decide (relay_Region value = region)).

(** The comparison with [best]; [None] is the zero value, whose ID is empty. *)
Definition better_relay (best : option RelayServer) (value : RelayServer) : option RelayServer :=
  match best with
  | Some b =>
      if bool_decide (relay_ID b = "") || (relay_Connections value <? relay_Connections b)
         || ((relay_Connections value =? relay_Connections b) && (relay_LatencyMS value <? relay_LatencyMS b))
      then Some value else best
  | None => Some value
  end.

Definition Select (values : list RelayServer) (region : string) : res RelayServer :=
  match foldl better_relay None (filter (λ v, selectable region v) values) with
  | Some best => if bool_decide (relay_ID best = "") then Err ErrNotFound else Ok best
  | None => Err ErrNotFound
  end.

(** ** Credentials (relay_gateway.go) *)

Definition relayByID (id : string) : M RelayServer :=
  values ← ListRelayServers;
  lift (of_option ErrNotFound (head (filter (λ v, relay_ID v = id) values))).

Definition checkRelayCredential (id token : string) : M unit :=
  v ← try (relayByID id);
  match v with
  | Err _ => throw ErrUnauthorized
  | Ok v =>
      if negb (relay_Enabled v) then throw ErrUnauthorized else
      c ← try (RelayCredential id);
      match c with
      | Ok c => if Matches c token then ret tt else throw ErrUnauthorized
      | Err _ => throw ErrUnauthorized
      end
  end.

(** [NewToken]: [random] is what [rand.Read] gives. *)
Definition NewToken (random : option bytes) : res string :=
  match random with Some b => Ok (base64_encode url_alphabet b) | None => Err (ErrText "rand") end.

(** An event of the audit log about a relay. *)
Definition relay_event (type : string) (actor : string) (result : string) (metadata : gmap string any) : AuditEvent :=
  audit_event type actor "" "" result "" metadata.

(** [fresh] is [uuid.NewString()]; the reply is the token and its expiry. *)
Definition createRelayEnrollment (g : Gateway) (id fresh : string) (random : option bytes) (c : Call) (p : Principal)
    : M (Reply (string * time) * Gateway) :=
  relay ← try (relayByID id);
  match relay with
  | Err _ => ret (writeError 409 "enabled relay required", g)
  | Ok relay =>
      if negb (relay_Enabled relay) then ret (writeError 409 "enabled relay required", g) else
      match NewToken random with
      | Err _ => ret (writeError 500 "credential generation failed", g)
      | Ok token =>
          let now := call_now c in
          let credential := mkCredential id "" (Hash token) (now + 10 * minute) fresh now in
          stored ← try (PutRelayEnrollment credential);
          if negb (is_ok stored) then ret (writeError 500 "enrollment unavailable", g) else
          record c 0 (relay_event "relay_enrollment_created" (user_ID (principal_User p)) "success"
                        {["relay_id" := VString id]});;
          ret (writeJSON 201 (token, now + 10 * minute), Disconnect g id)
      end
  end.

(** [secure] is [secureRelayRequest]: TLS, or HTTPS at the proxy. *)
Definition enrollRelay (secure : bool) (random : option bytes) (c : Call) (body : option (string * string))
    : M (Reply (string * string)) :=
  if negb secure then ret (writeError 400 "HTTPS required") else
  match body with
  | None => ret (writeError 401 "invalid enrollment")
  | Some (relayID, enrollment) =>
      if (128 <? len relayID) || negb (len enrollment =? 43) then ret (writeError 401 "invalid enrollment") else
      match NewToken random with
      | Err _ => ret (writeError 500 "credential generation failed")
      | Ok token =>
          consumed ← try (ConsumeRelayEnrollment relayID (Hash enrollment) (Hash token) (call_now c));
          if negb (is_ok consumed) then ret (writeError 401 "invalid enrollment") else
          record c 0 (relay_event "relay_enrolled" "" "success" {["relay_id" := VString relayID]});;
          ret (writeJSON 201 (relayID, token))
      end
  end.

Definition revokeRelayCredential (g : Gateway) (id : string) (c : Call) (p : Principal) : M (Reply unit * Gateway) :=
  revoked ← try (RevokeRelayCredential id (call_now c));
  match revoked with
  | Err e => ret (writeError (statusForStore e) "relay credential not found", g)
  | Ok _ =>
      record c 0 (relay_event "relay_credential_revoked" (user_ID (principal_User p)) "success"
                    {["relay_id" := VString id]});;
      ret (mkReply 204 NoContent, Disconnect g id)
  end.

(** [connectRelay] up to the upgrade: the token [Serve] is called with. *)
Definition connectRelay (secure : bool) (id : string) (req : Request) : M (Reply unit + string) :=
  if negb secure || negb (bool_decide (request_Header req "Origin" = ""))
  then ret (inl (writeError 400 "secure non-browser control channel required")) else
  let token := TrimPrefix (request_Header req "Authorization") "Bearer " in
  checked ← try (checkRelayCredential id token);
  ret (if is_ok checked then inr token else inl (writeError 401 "invalid relay credential")).

Definition control_state (g : Gateway) (v : RelayServer) : M RelayServer :=
  credential ← try (RelayCredential (relay_ID v));
  match credential with
  | Err ErrNotFound => ret (v <| relay_ControlMode := "legacy" |>)
  | _ =>
      let connected := match credential with
                       | Ok c => negb (bool_decide (cred_Hash c = "")) && Online g (relay_ID v)
                       | Err _ => false
                       end in
      let v := v <| relay_ControlMode := "wss" |> <| relay_ControlConnected := connected |> in
      ret (if connected then v else v <| relay_Health := "offline" |>)
  end.

Fixpoint relayControlState (g : Gateway) (values : list RelayServer) : M (list RelayServer) :=
  match values with
  | [] => ret []
  | v :: rest => v ← control_state g v; rest ← relayControlState g rest; ret (v :: rest)
  end.

(** ** Commands *)

(** [relaycontrol.ErrNotFound] *)
Definition stream_not_found : error := ErrText "relay stream not found".

(** [relaycontrol.Client.Terminate] from the acknowledgement on: its request
    identifier, UUID and status, or the error before it. *)
Definition Terminate (requestID relayUUID : string) (acknowledgement : res (string * string * string)) : res unit :=
  match acknowledgement with
  | Err e => Err e
  | Ok (ack_RequestID, ack_UUID, ack_Status) =>
      if negb (bool_decide (ack_RequestID = requestID)) || negb (bool_decide (ack_UUID = relayUUID))
      then Err (ErrText "relay acknowledgement correlation mismatch")
      else if bool_decide (ack_Status = "terminated") then Ok tt
      else if bool_decide (ack_Status = "not_found") then Err stream_not_found
      else Err (ErrText "unexpected relay acknowledgement")
  end.

(** What the control plane answers: [gateway_command] the result of
    [Gateway.Command], [legacy_permit] and [legacy_ack] the UDP datagrams;
    [requestID] is [uuid.NewString()]. *)
Section Commands.
Context (gateway_command : string → string → string → res string).
Context (legacy_permit : string → string → res unit).
Context (requestID : string) (legacy_ack : string → string → res (string * string * string)).

Definition relayCommand (address id action : string) : M string :=
  values ← ListRelayServers;
  match head (filter (λ v, relay_address v = address) values) with
  | None => throw ErrNotFound
  | Some v =>
      if negb (relay_Enabled v) then throw ErrOffline else
      credential ← try (RelayCredential (relay_ID v));
      match credential with
      | Ok _ => lift (gateway_command (relay_ID v) action id)
      | Err ErrNotFound =>
          if bool_decide (action = "permit")
          then match legacy_permit address id with Ok _ => ret "legacy_sent" | Err e => throw e end
          else match Terminate requestID id (legacy_ack address id) with
               | Err e => if bool_decide (e = stream_not_found) then ret "not_found" else throw e
               | Ok _ => ret "terminated"
               end
      | Err e => throw e
      end
  end.

Definition permitRelay (body : option (string * string)) : M (Reply string) :=
  match body with
  | None => ret (writeError 400 "invalid relay permit")
  | Some (address, uuid) =>
      if (len uuid <? 8) || (128 <? len uuid) || (300 <? len address) then ret (writeError 400 "invalid relay permit") else
      status ← try (relayCommand address uuid "permit");
      ret (match status with Ok status => writeJSON 200 status | Err _ => writeError 503 "relay permit not confirmed" end)
  end.
End Commands.

Definition zero_connection : ConnectionRecord :=
  mkConnectionRecord "" "" "" "" "" "" "" 0 "" "" "" "" zero_time zero_time None.

(** [g.Report] *)
Definition reportRelay (id : string) (m : StoreRelay.Message) (now : time) : M unit :=
  relay ← relayByID id;
  if bool_decide (msg_Type m = "telemetry") then
    relay ← UpsertRelayTelemetry (relay <| relay_Connections := msg_Connections m |>
      <| relay_Bandwidth := int64_of (msg_Bandwidth m) |> <| relay_UpdatedAt := now |>);
    publish RelayUpdated (PRelay relay) now;;
    AppendRelayMetric (mkRelayMetric id now "healthy" 0 (msg_Connections m) (int64_of (msg_Bandwidth m)))
  else
    found ← try (ConnectionRecord_by ("relay:" +:+ msg_UUID m));
    record ← match found with
             | Ok r => ret r
             | Err ErrNotFound => ret (zero_connection <| conn_Key := "relay:" +:+ msg_UUID m |> <| conn_Transport := "relay" |>
                                        <| conn_RelayUUID := msg_UUID m |> <| conn_StartedAt := now |>)
             | Err e => throw e
             end;
    let address := relay_address relay in
    if negb (bool_decide (conn_RelayServer record = "")) && negb (bool_decide (conn_RelayServer record = address))
    then throw ErrUnauthorized else
    let record := record <| conn_RelayServer := address |> <| conn_LastSeenAt := now |> in
    UpsertConnection (if bool_decide (msg_Status m = "closed") then record <| conn_ClosedAt := Some now |> else record).

(** [g.DurableReport] *)
Definition durableReport (id token : string) (m : StoreRelay.Message) (received seen : time) : M unit :=
  relay ← relayByID id;
  ApplyRelayEvent id token (relay_address relay) m received seen.

(** ** Quarantine (relay_quarantine.go) *)

Section QuarantineApi.
Context `{UUID}.

(** [Gateway.Quarantine] for what the relay answers: a reply, or the error of the
    connection. *)
Definition Quarantine (action revision : string) (offset : Z) (reply : res StoreRelay.Message) : res QuarantinePage :=
  match quarantine_request action revision offset with
  | Err e => Err e
  | Ok _ => match reply with Err e => Err e | Ok m => quarantine_result action revision offset m end
  end.

(** [offset] is the query parameter. *)
Definition relayQuarantine (offset revision : string) (reply : res StoreRelay.Message) : Reply QuarantinePage :=
  match (if bool_decide (offset = "") then Some 0 else Atoi offset) with
  | None => writeError 400 "invalid offset"
  | Some offset =>
      if (offset <? 0) || (4096 <? offset) then writeError 400 "invalid offset" else
      match Quarantine "list" revision offset reply with
      | Err _ => writeError 409 "quarantine changed or relay unavailable; refresh"
      | Ok page => writeJSON 200 page
      end
  end.

(** One turn of the export: the context ended, or the ticker fired and the relay
    answered. *)
Inductive export_tick :=
| ContextDone
| Tick (reply : res StoreRelay.Message).

Inductive export_result :=
| ExportTimedOut
| ExportChanged
| Exported (events : list QuarantineEvent) (total : Z).

(** The loop: [ticks n] is its n-th turn; [None] when the fuel does not suffice. *)
Fixpoint export_loop (fuel : nat) (revision : string) (ticks : nat → export_tick) (n : nat)
    (events : list QuarantineEvent) (total : Z) : option export_result :=
  match fuel with
  | O => None
  | S fuel' =>
      match ticks n with
      | ContextDone => Some ExportTimedOut
      | Tick reply =>
          match Quarantine "list" revision (Z.of_nat (length events)) reply with
          | Err _ => Some ExportChanged
          | Ok page =>
              if (0 <=? total) && negb (qpage_Total page =? total) then Some ExportChanged else
              let total := qpage_Total page in
              let events := events ++ qpage_Events page in
              if Z.of_nat (length events) =? total then Some (Exported events total)
              else export_loop fuel' revision ticks (S n) events total
          end
      end
  end.

(** At most 4096 events come, ten at a time. *)
Definition export_fuel : nat := 410.

(** The reply has the events and their number. *)
Definition exportRelayQuarantine (id revision : string) (ticks : nat → export_tick) (c : Call) (p : Principal)
    : M (Reply (list QuarantineEvent * Z)) :=
  if negb (uuid_parses revision) then ret (writeError 400 "revision required") else
  let event type result metadata :=
    relay_event type (user_ID (principal_User p)) result
      (metadata ∪ {["relay_id" := VString id; "revision" := VString revision]}) in
  audited ← try (Audit_Record (event "relay_quarantine_export_requested" "requested" ∅) (call_stamp c 0));
  if negb (is_ok audited) then ret (writeError 503 "audit unavailable") else
  match export_loop export_fuel revision ticks 0 [] (-1) with
  | None | Some ExportTimedOut => ret (writeError 504 "export timed out")
  | Some ExportChanged => ret (writeError 409 "quarantine changed or relay unavailable; refresh")
  | Some (Exported events total) =>
      audited ← try (Audit_Record (event "relay_quarantine_exported" "success" {["count" := VOther]}) (call_stamp c 1));
      if negb (is_ok audited) then ret (writeError 503 "audit unavailable")
      else ret (writeJSON 200 (events, total))
  end.

(** The body is the revision and the confirmation; [operation] is
    [uuid.NewString()]; the reply names the revision and its backup. *)
Definition archiveRelayQuarantine (id operation : string) (reply : res StoreRelay.Message) (c : Call) (p : Principal)
    (body : option (string * bool)) : M (Reply (string * string)) :=
  match body with
  | Some (revision, true) =>
      if negb (uuid_parses revision) then ret (writeError 400 "invalid revision") else
      let metadata := {["relay_id" := VString id; "revision" := VString revision; "operation_id" := VString operation]} in
      let actor := user_ID (principal_User p) in
      audited ← try (Audit_Record (mkAuditEvent operation zero_time "relay_quarantine_archive_requested" actor "" "" "" ""
                                     "requested" "" metadata) (call_stamp c 0));
      if negb (is_ok audited) then ret (writeError 503 "audit unavailable; command not sent") else
      let archived := Quarantine "archive" revision 0 reply in
      audited ← try (Audit_Record (relay_event "relay_quarantine_archived" actor
                                     (if is_ok archived then "success" else "unknown") metadata) (call_stamp c 1));
      ret (if negb (is_ok archived)
           then writeError 409 "outcome uncertain or quarantine changed; refresh, retry same revision only"
           else if negb (is_ok audited)
           then writeError 503 "relay archived; result audit unavailable; request audit retained"
           else writeJSON 200 (revision, "quarantine-" +:+ revision +:+ ".json"))
  | _ => ret (writeError 400 "explicit confirmation required")
  end.
End QuarantineApi.

(** ** Delivery (relay_operations.go) *)

Definition relayDeliveryStatus (g : Gateway) (id : string) (c : Call) : M (Reply (Observation * DeliveryCounts)) :=
  relay ← try (relayByID id);
  if negb (is_ok relay) then ret (writeError 404 "relay not found") else
  counts ← try (RelayDeliveryCounts id (call_now c));
  ret (match counts with
       | Err _ => writeError 503 "relay history unavailable"
       | Ok counts => writeJSON 200 (DeliveryObservation g id, counts)
       end).

Definition compactRelayDelivery (id : string) (c : Call) (p : Principal) : M (Reply Z) :=
  relay ← try (relayByID id);
  if negb (is_ok relay) then ret (writeError 404 "relay not found") else
  compacted ← try (CompactRelayDelivery id (call_now c));
  match compacted with
  | Err _ => ret (writeError 503 "relay history compaction failed")
  | Ok n =>
      record c 0 (relay_event "relay_history_compacted" (user_ID (principal_User p)) "success"
                    {["relay_id" := VString id; "archived" := VOther]});;
      ret (writeJSON 200 n)
  end.

(** ** Relay servers (server.go) *)

Record relayTelemetryRequest := mkRelayTelemetryRequest {
  rtele_ID : string; rtele_Name : string; rtele_Hostname : string; rtele_Port : Z; rtele_Region : string;
  rtele_Connections : Z; rtele_Bandwidth : Z }.

Record serviceHeartbeatRequest := mkServiceHeartbeatRequest {
  shb_Service : string; shb_InstanceID : string; shb_OnlinePeers : Z; shb_AcknowledgedCommands : list string }.

Definition zero_relay : RelayServer := mkRelayServer "" false "" "" "" 0 "" false "" 0 0 0 zero_time zero_time false.

Section Servers.
Context `{Unicode} {A : Type}.
Implicit Types (rt : runtimeState A).

Definition relayTelemetry rt (c : Call) (body : option relayTelemetryRequest) : M (Reply RelayServer * runtimeState A) :=
  match body with
  | None => ret (writeError 400 "invalid relay telemetry", rt)
  | Some input =>
      let id := TrimSpace (rtele_ID input) in
      let name := TrimSpace (rtele_Name input) in
      let hostname := TrimSpace (rtele_Hostname input) in
      let region := TrimSpace (rtele_Region input) in
      if bool_decide (id = "") || (128 <? len id) || (len name <? 2) || (128 <? len name)
         || bool_decide (hostname = "") || (253 <? len hostname) || (rtele_Port input <? 1) || (65535 <? rtele_Port input)
         || (64 <? len region) || (rtele_Connections input <? 0) || (rtele_Bandwidth input <? 0)
      then ret (writeError 400 "invalid relay telemetry", rt) else
      stored ← try (UpsertRelayTelemetry (zero_relay <| relay_ID := id |> <| relay_Name := name |>
        <| relay_Hostname := hostname |> <| relay_Port := rtele_Port input |> <| relay_Region := region |>
        <| relay_Connections := rtele_Connections input |> <| relay_Bandwidth := rtele_Bandwidth input |>
        <| relay_UpdatedAt := call_now c |>));
      match stored with
      | Err _ => ret (writeError 500 "relay telemetry unavailable", rt)
      | Ok value =>
          publish RelayUpdated (PRelay value) (call_now c);;
          discard (try (AppendRelayMetric (mkRelayMetric (relay_ID value) (relay_UpdatedAt value) "healthy"
            (relay_LatencyMS value) (relay_Connections value) (relay_Bandwidth value))));;
          ret (writeJSON 200 value, heartbeat rt "hbbr" (relay_ID value) 0 (call_now c))
      end
  end.

Definition serviceHeartbeat rt (c : Call) (body : option serviceHeartbeatRequest)
    : Reply (list serviceCommand) * runtimeState A :=
  match body with
  | None => (writeError 400 "invalid service heartbeat", rt)
  | Some input =>
      let service := TrimSpace (shb_Service input) in
      let instance := TrimSpace (shb_InstanceID input) in
      if negb (bool_decide (service = "hbbs")) || bool_decide (instance = "") || (128 <? len instance)
         || (shb_OnlinePeers input <? 0)
      then (writeError 400 "invalid service heartbeat", rt) else
      let rt := heartbeat rt service instance (shb_OnlinePeers input) (call_now c) in
      let '(commands, rt) := heartbeatCommands rt service instance (shb_AcknowledgedCommands input) (call_now c) in
      (writeJSON 200 commands, rt)
  end.

Definition listServiceCommands rt : Reply (list serviceCommand) := writeJSON 200 (listCommands rt).

(** The body is the service, the instance and the type. *)
Definition createServiceCommand rt (fresh : string) (c : Call) (p : Principal) (body : option (string * string * string))
    : M (Reply serviceCommand * runtimeState A) :=
  match body with
  | None => ret (writeError 400 "invalid command", rt)
  | Some (service, target, type) =>
      let service := TrimSpace service in
      let target := TrimSpace target in
      let type := TrimSpace type in
      if negb (bool_decide (service = "hbbs")) || negb (bool_decide (type = "reconcile_auth"))
         || (bool_decide (target = "") || (128 <? len target))
      then ret (writeError 400 "invalid command", rt) else
      let '(command, rt) := enqueueCommand rt service target type fresh (call_now c) in
      record c 0 (audit_event "server_control_command" (user_ID (principal_User p)) (session_ID (principal_Session p)) ""
                    "queued" "" {["command_id" := VString (command_ID command); "service" := VString (command_Service command);
                                  "target" := VString (command_TargetInstance command);
                                  "command" := VString (command_Type command)]});;
      ret (writeJSON 202 command, rt)
  end.

(** The reply is the identifier, the address, the region and the latency. *)
Definition selectRelay (g : Gateway) (region : string) : M (Reply (string * string * string * Z)) :=
  values ← try ListRelayServers;
  match values with
  | Err _ => ret (writeError 500 "relay selection unavailable")
  | Ok values =>
      values ← relayControlState g values;
      ret (match Select values (TrimSpace region) with
           | Err ErrNotFound => writeError 503 "no healthy relay available"
           | Err _ => writeJSON 200 ("", ":0", "", 0)
           | Ok v => writeJSON 200 (relay_ID v, relay_address v, relay_Region v, relay_LatencyMS v)
           end)
  end.

(** The check and the struct it leaves. *)
Definition validRelay (v : RelayServer) : bool * RelayServer :=
  let v := v <| relay_Name := TrimSpace (relay_Name v) |> <| relay_Hostname := TrimSpace (relay_Hostname v) |>
             <| relay_Region := TrimSpace (relay_Region v) |> in
  ((2 <=? len (relay_Name v)) && (len (relay_Name v) <=? 128) && (1 <=? len (relay_Hostname v))
   && (len (relay_Hostname v) <=? 253) && (1 <=? relay_Port v) && (relay_Port v <=? 65535) && (len (relay_Region v) <=? 64), v).

Definition listRelayServers (g : Gateway) : M (Reply (list RelayServer)) :=
  values ← try ListRelayServers;
  match values with
  | Err _ => ret (writeError 500 "failed to list relay servers")
  | Ok values => values ← relayControlState g values; ret (writeJSON 200 values)
  end.

Definition createRelayServer (fresh : string) (c : Call) (p : Principal) (body : option RelayServer)
    : M (Reply RelayServer) :=
  match validRelay <$> body with
  | Some (true, v) =>
      let v := v <| relay_ID := fresh |> <| relay_Enabled := true |> <| relay_Health := "unknown" |>
                 <| relay_CreatedAt := call_now c |> <| relay_UpdatedAt := call_now c |> in
      created ← try (CreateRelayServer v);
      if negb (is_ok created) then ret (writeError 409 "relay server already exists") else
      publish RelayUpdated (PRelay v) (call_now c);;
      record c 0 (relay_event "relay_create" (user_ID (principal_User p)) "success" ∅);;
      ret (writeJSON 201 v)
  | _ => ret (writeError 400 "invalid relay server")
  end.

Definition updateRelayServer (id : string) (c : Call) (p : Principal) (body : option RelayServer) : M (Reply RelayServer) :=
  match validRelay <$> body with
  | Some (true, v) =>
      let v := v <| relay_ID := id |> <| relay_Health := "unknown" |> <| relay_UpdatedAt := call_now c |> in
      updated ← try (UpdateRelayServer v);
      match updated with
      | Err e => ret (writeError (statusForStore e) "relay server not found")
      | Ok _ =>
          values ← try ListRelayServers;
          let v := match values with
                   | Ok values => default v (head (filter (λ current, relay_ID current = relay_ID v) values))
                   | Err _ => v
                   end in
          publish RelayUpdated (PRelay v) (call_now c);;
          record c 0 (relay_event "relay_update" (user_ID (principal_User p)) "success" ∅);;
          ret (writeJSON 200 v)
      end
  | _ => ret (writeError 400 "invalid relay server")
  end.

Definition deleteRelayServer (id : string) (c : Call) (p : Principal) : M (Reply unit) :=
  deleted ← try (DeleteRelayServer id);
  match deleted with
  | Err e => ret (writeError (statusForStore e) "relay server not found")
  | Ok _ =>
      publish RelayUpdated (PRelay (zero_relay <| relay_ID := id |> <| relay_Deleted := true |>)) (call_now c);;
      record c 0 (relay_event "relay_delete" (user_ID (principal_User p)) "success" ∅);;
      ret (mkReply 204 NoContent)
  end.

(** [hours] is the query parameter. *)
Definition listRelayMetrics (id hours : string) (c : Call) : M (Reply (list RelayMetric)) :=
  let hours := match Atoi hours with
               | Some n => if (n <? 1) || (720 <? n) then 24 else n
               | None => 24
               end in
  values ← try (ListRelayMetrics id (call_now c - hours * hour) 2000);
  ret (match values with Ok values => writeJSON 200 values | Err _ => writeError 500 "relay metrics unavailable" end).
End Servers.

(** ** The export ends *)

Section Exporting.
Context `{UUID}.
Implicit Types (events : list QuarantineEvent) (ticks : nat → export_tick).

(** What the checks of a page leave. *)
Lemma Quarantine_page revision offset reply page :
  Quarantine "list" revision offset reply = Ok page →
  0 ≤ qpage_Total page ≤ 4096
  ∧ Z.of_nat (length (qpage_Events page)) = Z.min 10 (qpage_Total page - offset)
  ∧ Forall quarantine_event_ok (qpage_Events page).
Proof.
  unfold Quarantine. destruct (quarantine_request _ _ _); [|done]. destruct reply as [m|]; [|done].
  unfold quarantine_result. destruct (msg_QuarantinePage m) as [page'|]; [|done].
  destruct (_ || _); [done|]. destruct (negb _); [done|]. destruct (_ && _); [done|].
  destruct (_ || _) eqn:Hb; [done|]. destruct (forallb _ _) eqn:Hok; cbn [negb]; [|done].
  intros [= <-]. rewrite (bool_decide_eq_true_2 ("list" = "list")) in Hb by done. rewrite andb_true_l in Hb.
  simplify_bool. split_and!; [lia..|]. by apply forallb_True, Is_true_true_2.
Qed.

Definition exported_well (r : export_result) : Prop :=
  match r with
  | Exported events total =>
      Z.of_nat (length events) = total ∧ total ≤ 4096 ∧ Forall quarantine_event_ok events
  | _ => True
  end.

(** After [n] turns that did not end it the export has 10n events of at most 4096. *)
Lemma export_loop_ends fuel revision ticks n events total :
  (n + fuel = export_fuel)%nat → Z.of_nat (length events) = 10 * Z.of_nat n →
  (n = O ∨ Z.of_nat (length events) < total ≤ 4096) → Forall quarantine_event_ok events →
  ∃ r, export_loop fuel revision ticks n events total = Some r ∧ exported_well r.
Proof.
  unfold export_fuel. revert n events total. induction fuel as [|fuel IH]; intros n events total Hn Hlen Hmore Hok; [lia|].
  cbn [export_loop]; cbv zeta. destruct (ticks n) as [|reply]; [by eexists|].
  destruct (Quarantine _ _ _ reply) as [page|] eqn:Hpage; [|by eexists].
  destruct (Quarantine_page _ _ _ _ Hpage) as (Htotal & Hevents & Hpok).
  destruct ((0 <=? total) && _) eqn:Hchanged; [by eexists|].
  assert (Hall : Forall quarantine_event_ok (events ++ qpage_Events page)) by (by apply Forall_app).
  rewrite length_app. destruct (Z.eqb_spec (Z.of_nat (length events + length (qpage_Events page))) (qpage_Total page)) as [Hend|Hend].
  - eexists. split; [done|]. cbn. rewrite length_app. split_and!; [lia..|done].
  - apply IH; [lia| |right; rewrite length_app; lia|done]. rewrite length_app. lia.
Qed.

(** C32: the export of the quarantine ends: whatever the relay answers, after at
    most 410 requests it has timed out, been refused or delivered exactly as many
    events as the relay announced, at most 4096, each of them well formed. *)
Theorem export_terminates revision ticks :
  ∃ r, export_loop export_fuel revision ticks 0 [] (-1) = Some r
       ∧ match r with
         | Exported events total =>
             Z.of_nat (length events) = total ∧ total ≤ 4096 ∧ Forall quarantine_event_ok events
         | _ => True
         end.
Proof. apply (export_loop_ends export_fuel revision ticks 0 [] (-1)); [done..|by left|done]. Qed.

(** A relay whose quarantine does not change answers with the pages of a list. *)
Definition honest_page (revision : string) (l : list QuarantineEvent) (offset : nat) : StoreRelay.Message :=
  zero_message <| msg_Type := "quarantine_reply" |> <| msg_Status := "ok" |>
    <| msg_QuarantinePage := Some (mkQuarantinePage revision (Z.of_nat (length l)) (Z.of_nat offset)
                                     (take 10 (drop offset l))) |>.
Definition honest revision l (n : nat) : export_tick := Tick (Ok (honest_page revision l (10 * n))).

Lemma Quarantine_honest revision l offset :
  uuid_parses revision = true → (offset ≤ length l ≤ 4096)%nat → Forall quarantine_event_ok l →
  Quarantine "list" revision (Z.of_nat offset) (Ok (honest_page revision l offset))
  = Ok (mkQuarantinePage revision (Z.of_nat (length l)) (Z.of_nat offset) (take 10 (drop offset l))).
Proof.
  intros Hr Hl Hok.
  assert (Hlen : Z.of_nat (length (take 10 (drop offset l))) = Z.min 10 (Z.of_nat (length l) - Z.of_nat offset))
    by (rewrite length_take, length_drop; lia).
  assert (Hpage : forallb quarantine_event_ok (take 10 (drop offset l)) = true).
  { apply Is_true_true, forallb_True, Forall_take, Forall_drop, Hok. }
  unfold Quarantine, quarantine_request, quarantine_result. cbn. rewrite Hr, Hpage, Hlen. cbn.
  repeat lazymatch goal with
         | |- context [bool_decide ("list" ∈ ?l)] => rewrite (bool_decide_eq_true_2 ("list" ∈ l)) by set_solver
         | |- context [bool_decide (?x = ?x)] => rewrite (bool_decide_eq_true_2 (x = x)) by done
         end.
  rewrite !andb_false_r. cbn.
  rewrite (bool_decide_eq_false_2 ("list" = "archive")) by done.
  rewrite !Z.eqb_refl. cbn [negb andb]. rewrite !orb_false_r.
  rewrite !(proj2 (Z.ltb_ge _ _)) by lia. done.
Qed.

Lemma export_honest fuel revision l n :
  uuid_parses revision = true → (length l ≤ 4096)%nat → Forall quarantine_event_ok l →
  (n + fuel = export_fuel)%nat → (n = O ∨ 10 * n < length l)%nat →
  export_loop fuel revision (honest revision l) n (take (10 * n) l) (if bool_decide (n = O) then -1 else Z.of_nat (length l))
  = Some (Exported l (Z.of_nat (length l))).
Proof.
  unfold export_fuel. intros Hr Hl Hok. revert n. induction fuel as [|fuel IH]; intros n Hn Hmore; [lia|].
  cbn [export_loop honest]; cbv zeta.
  assert (Hlen : length (take (10 * n) l) = (10 * n)%nat) by (rewrite length_take; lia).
  rewrite Hlen, Quarantine_honest by (done || lia). cbn [qpage_Total qpage_Events].
  assert (Hsame : (0 <=? (if bool_decide (n = O) then -1 else Z.of_nat (length l)))
                  && negb (Z.of_nat (length l) =? (if bool_decide (n = O) then -1 else Z.of_nat (length l))) = false).
  { case_bool_decide; [done|]. by rewrite Z.eqb_refl, andb_false_r. }
  rewrite Hsame, take_take_drop. replace (10 * n + 10)%nat with (10 * S n)%nat by lia.
  rewrite length_take. destruct (Z.eqb_spec (Z.of_nat (Nat.min (10 * S n) (length l))) (Z.of_nat (length l))) as [Hend|Hend].
  - by rewrite take_ge by lia.
  - apply IH; lia.
Qed.

(** the export is complete: from a relay whose quarantine does not change
    during it, the export delivers exactly the list of its events, in order. *)
Theorem export_complete revision l :
  uuid_parses revision = true → (length l ≤ 4096)%nat → Forall quarantine_event_ok l →
  export_loop export_fuel revision (honest revision l) 0 [] (-1) = Some (Exported l (Z.of_nat (length l))).
Proof. intros Hr Hl Hok. by apply (export_honest export_fuel revision l 0); [..|left]. Qed.
End Exporting.

(** ** The relay that is selected *)

Section Selection.
Context `{Unicode}.
Implicit Types (d : DB) (v : RelayServer) (l : list RelayServer).

(** No credential row (a relay of the old protocol), or one that is not revoked
    and a control connection that is ready. *)
Definition controllable (g : Gateway) d v : Prop :=
  ∀ c, c ∈ t_relay_credentials d → cred_RelayID c = relay_ID v → cred_Hash c ≠ "" ∧ Online g (relay_ID v) = true.

Definition eligible_relay (g : Gateway) d (region : string) v : Prop :=
  v ∈ t_relay_servers d ∧ relay_Enabled v = true ∧ relay_Health v = "healthy"
  ∧ (region = "" ∨ relay_Region v = region) ∧ controllable g d v.

(** Fewer connections, then a smaller latency. *)
Definition no_worse v v' : Prop :=
  relay_Connections v < relay_Connections v'
  ∨ relay_Connections v = relay_Connections v' ∧ relay_LatencyMS v ≤ relay_LatencyMS v'.

#[local] Instance no_worse_trans : Transitive no_worse.
Proof. intros a b c. unfold no_worse. lia. Qed.

Lemma best_relay l :
  (∀ v, v ∈ l → relay_ID v ≠ "") →
  match foldl better_relay None l with
  | None => l = []
  | Some b => b ∈ l ∧ ∀ v, v ∈ l → no_worse b v
  end.
Proof.
  induction l as [|x l IH] using rev_ind; intros Hl; [done|]. rewrite foldl_app. cbn.
  specialize (IH (λ v Hv, Hl v (proj2 (elem_of_app _ _ _) (or_introl Hv)))).
  destruct (foldl better_relay None l) as [b|]; cbn.
  - destruct IH as [Hb Hbest]. rewrite (bool_decide_eq_false_2 (relay_ID b = "")) by (apply Hl; set_solver).
    destruct (_ || _) eqn:Hx; (split; [set_solver|]); intros v [Hv|Hv]%elem_of_app; try apply list_elem_of_singleton in Hv as ->.
    + apply Hbest in Hv. etrans; [|done]. simplify_bool. unfold no_worse. destruct Hx as [Hx|Hx]; simplify_bool; [lia|]. lia.
    + unfold no_worse. lia.
    + by apply Hbest.
    + simplify_bool. match goal with Hx : _ ∨ _ |- _ => destruct Hx end; simplify_bool; unfold no_worse; lia.
  - subst l. split; [set_solver|]. intros v Hv. assert (v = x) as -> by set_solver. unfold no_worse. lia.
Qed.

(** What [relayControlState] makes of a relay. *)
Definition with_control (g : Gateway) d v : RelayServer :=
  match select_one (λ c, cred_RelayID c = relay_ID v) (t_relay_credentials d) with
  | None => v <| relay_ControlMode := "legacy" |>
  | Some c =>
      let connected := negb (bool_decide (cred_Hash c = "")) && Online g (relay_ID v) in
      let v := v <| relay_ControlMode := "wss" |> <| relay_ControlConnected := connected |> in
      if connected then v else v <| relay_Health := "offline" |>
  end.

Lemma relayControlState_run g l d h :
  wp false (relayControlState g l) (λ r d' _, d' = d ∧ r = Ok (with_control g d <$> l)) d h.
Proof.
  induction l as [|v l IH]; [by apply wp_ret|]. cbn [relayControlState]. apply wp_bind.
  assert (Hv : wp false (control_state g v) (λ r d' h', d' = d ∧ h' = h ∧ r = Ok (with_control g d v)) d h).
  { unfold control_state, RelayCredential, with_control. apply wp_bind, wp_try, wp_query_row; [done|].
    destruct (select_one _ _) as [c|]; cbn; by apply wp_ret. }
  eapply wp_mono; [exact Hv|]. intros ? d' h' (-> & -> & ->). apply wp_bind. eapply wp_mono; [exact IH|].
  intros ? d' h' [-> ->]. by apply wp_ret.
Qed.

Lemma with_control_same g d v :
  relay_ID (with_control g d v) = relay_ID v ∧ relay_Enabled (with_control g d v) = relay_Enabled v
  ∧ relay_address (with_control g d v) = relay_address v ∧ relay_Region (with_control g d v) = relay_Region v
  ∧ relay_LatencyMS (with_control g d v) = relay_LatencyMS v ∧ relay_Connections (with_control g d v) = relay_Connections v.
Proof. unfold with_control. destruct (select_one _ _) as [c|]; [destruct (_ && _)|]; done. Qed.

Lemma selectable_with_control g d region v :
  relay_credentials_ok d → v ∈ t_relay_servers d →
  selectable region (with_control g d (scanRelay v)) = true ↔ eligible_relay g d region v.
Proof.
  intros [Hcred _] Hv.
  assert (Hh : relay_Health (with_control g d (scanRelay v)) = "healthy" ↔ relay_Health v = "healthy" ∧ controllable g d v).
  { unfold with_control. destruct (select_one _ _) as [c|] eqn:Hc.
    - apply select_one_Some in Hc as [Hc Hid].
      assert (Hctl : controllable g d v ↔ negb (bool_decide (cred_Hash c = "")) && Online g (relay_ID v) = true).
      { rewrite andb_true_iff, negb_true_iff, bool_decide_eq_false. split; [intros Hctl; by apply Hctl|].
        intros Hon c' Hc' Hid'. assert (c' = c) as -> by (eapply unique_row; [exact Hcred|done..|by rewrite Hid', Hid]). done. }
      cbn in Hctl |- *. destruct (_ && _) eqn:Hon; cbn; [naive_solver|]. split; [done|]. intros [_ Hx]. by apply Hctl in Hx.
    - cbn. split; [|naive_solver]. intros Hx. split; [done|]. intros c Hc' Hid.
      exfalso. eapply (proj1 (select_one_None _ _) Hc); [exact Hc'|exact Hid]. }
  unfold selectable, eligible_relay. destruct (with_control_same g d (scanRelay v)) as (_ & -> & _ & -> & _).
  rewrite !andb_true_iff, orb_true_iff, !bool_decide_eq_true, Hh. cbn. tauto.
Qed.

(** the relay handed to clients: while the database answers, [selectRelay]
    answers 503 exactly when no relay is eligible - enabled, healthy, in the
    region, and with a live control connection if it was ever enrolled - and
    otherwise names an eligible relay that no other beats in connections and then
    in latency. *)
Theorem selectRelay_best g region w :
  w_faults w = [] → relay_credentials_ok (w_db w) → (∀ v, v ∈ t_relay_servers (w_db w) → relay_ID v ≠ "") →
  (∃ v, eligible_relay g (w_db w) (TrimSpace region) v
        ∧ (∀ v', eligible_relay g (w_db w) (TrimSpace region) v' → no_worse v v')
        ∧ (selectRelay g region w).1 = Ok (writeJSON 200 (relay_ID v, relay_address v, relay_Region v, relay_LatencyMS v)))
  ∨ (∀ v, ¬ eligible_relay g (w_db w) (TrimSpace region) v)
    ∧ (selectRelay g region w).1 = Ok (writeError 503 "no healthy relay available").
Proof.
  intros Hf Hcred Hids. set (d := w_db w) in *.
  apply (wp_run (F:=false) (λ r _ _, (∃ v, eligible_relay g d (TrimSpace region) v
        ∧ (∀ v', eligible_relay g d (TrimSpace region) v' → no_worse v v')
        ∧ r = Ok (writeJSON 200 (relay_ID v, relay_address v, relay_Region v, relay_LatencyMS v)))
        ∨ (∀ v, ¬ eligible_relay g d (TrimSpace region) v) ∧ r = Ok (writeError 503 "no healthy relay available")) _ w Hf).
  unfold selectRelay, ListRelayServers. apply wp_bind, wp_try, wp_query; [done|]. apply wp_bind.
  eapply wp_mono; [apply relayControlState_run|]. intros ? d' h' [-> ->]. apply wp_ret.
  set (l := with_control g _ <$> _).
  assert (Hl : ∀ x, x ∈ filter (λ v, selectable (TrimSpace region) v) l ↔
                 ∃ v, x = with_control g d (scanRelay v) ∧ eligible_relay g d (TrimSpace region) v).
  { intros x. rewrite list_elem_of_filter. unfold l. setoid_rewrite list_elem_of_fmap. setoid_rewrite list_elem_of_fmap.
    setoid_rewrite elem_of_SliceStable. split.
    - intros (Hs & y & -> & v & -> & Hv). exists v. split; [done|]. by apply (selectable_with_control g d _ v Hcred Hv), Is_true_true.
    - intros (v & -> & Hv). split; [by apply Is_true_true, (selectable_with_control g d _ v Hcred (proj1 Hv))|].
      exists (scanRelay v). split; [done|]. exists v. split; [done|apply Hv]. }
  assert (Hne : ∀ x, x ∈ filter (λ v, selectable (TrimSpace region) v) l → relay_ID x ≠ "").
  { intros x (v & -> & Hv)%Hl. destruct (with_control_same g d (scanRelay v)) as [-> _]. apply (Hids v), Hv. }
  pose proof (best_relay _ Hne) as Hbest. unfold Select.
  destruct (foldl better_relay None _) as [b|].
  - destruct Hbest as [Hb Hmin]. rewrite (bool_decide_eq_false_2 (relay_ID b = "")) by (by apply Hne).
    apply Hl in Hb as (v & -> & Hv). left. exists v.
    destruct (with_control_same g d (scanRelay v)) as (-> & _ & -> & -> & -> & Hconn).
    split_and!; [done| |done]. intros v' Hv'.
    specialize (Hmin _ (proj2 (Hl (with_control g d (scanRelay v'))) (ex_intro _ v' (conj eq_refl Hv')))).
    destruct (with_control_same g d (scanRelay v)) as (_ & _ & _ & _ & H1 & H2).
    destruct (with_control_same g d (scanRelay v')) as (_ & _ & _ & _ & H3 & H4).
    unfold no_worse in Hmin |- *. rewrite H1, H2, H3, H4 in Hmin. exact Hmin.
  - right. split; [|done]. intros v Hv. assert (Hx : with_control g d (scanRelay v) ∈ []).
    { rewrite <- Hbest. apply Hl. by exists v. } by apply not_elem_of_nil in Hx.
Qed.
End Selection.

(** ** The theorems at concrete relays *)

Definition ex_uuids : UUID := {| uuid_parses := λ s, 8 <=? len s |}.
Definition ex_quarantine : list QuarantineEvent :=
  repeat (mkQuarantineEvent "e1" "uuid-0001" "active" 0 "credential_rotated") 12.

Lemma export_complete_witness :
  @export_loop ex_uuids export_fuel "revision-1" (honest "revision-1" ex_quarantine) 0 [] (-1)
  = Some (Exported ex_quarantine 12).
Proof.
  apply (@export_complete ex_uuids "revision-1" ex_quarantine); [vm_compute; reflexivity|cbn; lia|].
  apply (bool_decide_eq_true_1 (Forall _ _)). vm_compute. reflexivity.
Defined.

(** One relay was enrolled and is offline, the other speaks the old protocol. *)
Definition ex_relay (id region : string) (connections : Z) : RelayServer :=
  zero_relay <| relay_ID := id |> <| relay_Name := id |> <| relay_Hostname := id |> <| relay_Port := 21117 |>
    <| relay_Region := region |> <| relay_Enabled := true |> <| relay_Health := "healthy" |>
    <| relay_Connections := connections |>.
Definition ex_relays : world :=
  mkWorld (ex_accounts <| t_relay_servers := [ex_relay "r1" "eu" 1; ex_relay "r2" "eu" 7] |>
                       <| t_relay_credentials := [mkCredential "r1" "hash" "" 0 "g1" 0] |>) [] (NewHub "src").

Lemma selectRelay_best_witness :
  (∃ v, eligible_relay Gateway.New (w_db ex_relays) "eu" v ∧ relay_ID v = "r2"
     ∧ (@selectRelay ascii_unicode Gateway.New "eu" ex_relays).1 = Ok (writeJSON 200 ("r2", "r2:21117", "eu", 0))).
Proof.
  assert (Hcred : relay_credentials_ok (w_db ex_relays))
    by (apply (bool_decide_eq_true_1 (relay_credentials_ok _)); vm_compute; reflexivity).
  assert (Hids : ∀ v, v ∈ t_relay_servers (w_db ex_relays) → relay_ID v ≠ "").
  { intros v Hv. cbn in Hv. repeat (apply elem_of_cons in Hv as [->|Hv]; [discriminate|]). by apply not_elem_of_nil in Hv. }
  destruct (@selectRelay_best ascii_unicode Gateway.New "eu" ex_relays eq_refl Hcred Hids) as [(v & Hv & _ & Hr)|[_ Hr]];
    [|exfalso; vm_compute in Hr; discriminate Hr].
  exists v. assert (Hs : (@selectRelay ascii_unicode Gateway.New "eu" ex_relays).1 = Ok (writeJSON 200 ("r2", "r2:21117", "eu", 0)))
    by (vm_compute; reflexivity).
  split_and!; [exact Hv| |exact Hs]. rewrite Hs in Hr. by injection Hr.
Defined.
