(* ===== verification/Lifecycle.v ===== *)
(** * Relay events from the control connection to the tables

    The gateway as the server runs it (art-api/internal/httpapi/server.go: [New]):
    lifecycle events with a request identifier go to [DurableReport], whose answer
    the relay gets.  A [plant] is the gateway of gateway.go with the tables its
    callbacks work on; [lifecycle_acknowledged_recorded] says what the answers are
    worth. *)

From S2P Require Export RelayApi Delivery.

(** An answer to a lifecycle event that went to [DurableReport]: the relay, the
    event, what was sent, and the tables at that time. *)
Record answer := mkAnswer {
  answer_relay : string; answer_event : StoreRelay.Message; answer_reply : StoreRelay.Message; answer_tables : DB }.

Record plant := mkPlant { pl_system : system; pl_world : world; pl_answers : list answer }.

(** The steps: a loop, a timer or a command of the gateway; the callbacks of a
    loop, which run on the tables; and any other operation of the relay tables
    but the deletion of a relay server. *)
Inductive plant_event :=
| Loops (l : label)
| CallsReport (session : string) (now : time)
| CallsDurable (session : string) (received seen : time)
| Stores (op : relay_op).

Definition verdict_reply (v : verdict) : option StoreRelay.Message :=
  match v with Acknowledge _ reply => Some reply | _ => None end.

Definition note_answer (id : string) (m : StoreRelay.Message) (v : verdict) (d : DB) (answers : list answer) : list answer :=
  match verdict_reply v with Some reply => mkAnswer id m reply d :: answers | None => answers end.

Definition plant_step (pl : plant) (e : plant_event) : option plant :=
  let s := pl_system pl in
  match e with
  | Loops (Reported _ _ _) | Loops (Durably _ _) => None
  | Loops l => s' ← gateway_step true s l; Some (mkPlant s' (pl_world pl) (pl_answers pl))
  | CallsReport session now =>
      x ← sys_calls s !! session;
      let '(c, m, _) := x in
      let '(r, w) := reportRelay (conn_id c) m now (pl_world pl) in
      s' ← gateway_step true s (Reported session r now);
      Some (mkPlant s' w (pl_answers pl))
  | CallsDurable session received seen =>
      x ← sys_calls s !! session;
      p ← gw_heap (sys_gateway s) !! session;
      let '(c, m, _) := x in
      let '(r, w) := durableReport (conn_id c) (conn_token c) m received seen (pl_world pl) in
      s' ← gateway_step true s (Durably session r);
      Some (mkPlant s' w (note_answer (conn_id c) m (after_durable (sys_gateway s) p m r) (w_db w) (pl_answers pl)))
  | Stores op => Some (mkPlant s (run_relay_op op (pl_world pl)).2 (pl_answers pl))
  end.

Inductive plant_reachable (w : world) : plant → Prop :=
| plant_start : plant_reachable w (mkPlant no_peers w [])
| plant_next pl e pl' : plant_reachable w pl → plant_step pl e = Some pl' → plant_reachable w pl'.

(** ** What the answers say *)

(** The event is on record, as an event of a connection of this relay. *)
Definition stored (d : DB) (id : string) (m : StoreRelay.Message) : Prop :=
  ∃ x, delivery_of d (msg_UUID m) = Some x ∧ dl_owner x = id ∧ on_record x m.

(** The connection is the relay's, authorized under another generation of its
    credential. *)
Definition fenced (d : DB) (id : string) (m : StoreRelay.Message) : Prop :=
  ∃ x c, delivery_of d (msg_UUID m) = Some x ∧ dl_owner x = id
         ∧ c ∈ t_relay_credentials d ∧ cred_RelayID c = id ∧ cred_Generation c ≠ dl_generation x.

Definition answer_ok (d : DB) (a : answer) : Prop :=
  answer_reply a = lifecycle_ack (answer_event a) ∧ stored d (answer_relay a) (answer_event a)
  ∨ answer_reply a = lifecycle_rejected (answer_event a)
    ∧ fenced (answer_tables a) (answer_relay a) (answer_event a).

(** *** The callbacks on the tables *)

Lemma relayByID_reads id d h :
  wp true (relayByID id) (λ r d' _, d' = d ∧ r ≠ Err ErrStaleGeneration) d h.
Proof. unfold relayByID, ListRelayServers. wp_go; try done. by destruct (head _). Qed.

Lemma checkArchivedRelayEvent_fenced id token m d h :
  wp true (checkArchivedRelayEvent id token m) (λ r d' _, r = Err ErrStaleGeneration → fenced d id m) d h.
Proof.
  unfold checkArchivedRelayEvent. wp_go; try done; intros _; simplify_bool.
  all: match goal with Hc : select_one _ (t_relay_credentials _) = Some ?c |- _ =>
    apply select_one_Some in Hc as [Hc (Hcid & _)]; eexists _, c; split_and!;
      [unfold delivery_of; rewrite Heqo0, ?Heqo1; reflexivity|..]; cbn; (done || congruence) end.
Qed.

Lemma ApplyRelayEvent_fenced id token address m received seen d h :
  wp true (ApplyRelayEvent id token address m received seen)
    (λ r d' _, r = Err ErrStaleGeneration → fenced d id m) d h.
Proof.
  unfold ApplyRelayEvent.
  repeat (lazymatch goal with
          | |- wp _ (checkArchivedRelayEvent _ _ _) _ _ _ => apply checkArchivedRelayEvent_fenced
          | _ => wp_step; cbv beta iota
          end); try done.
Qed.

Definition durable_post (id token : string) (m : StoreRelay.Message) (d : DB) (r : res unit) (d' : DB) : Prop :=
  refines d d'
  ∧ match r with
    | Ok _ => relay_inv d → stored d' id m
    | Err e => d' = d ∧ (e = ErrStaleGeneration → fenced d id m)
    end.

Lemma durableReport_post id token m received seen d h :
  wp true (durableReport id token m received seen) (λ r d' _, durable_post id token m d r d') d h.
Proof.
  unfold durableReport. apply wp_bind. eapply wp_mono; [apply relayByID_reads|].
  intros [relay|e] d' h' [-> Hne]; [|split; [apply refines_refl|]; split; [done|congruence]].
  eapply wp_mono; [apply wp_both; [apply ApplyRelayEvent_post|apply ApplyRelayEvent_fenced]|].
  intros [[]|e] d' h2 [[Href Hpost] Hf]; (split; [done|]); [|split; [done|intros ->; by apply Hf]].
  intros Hinv. destruct (Hpost Hinv) as [(x & Hx & Ho & _ & Hrec) _]. by exists x.
Qed.

Lemma reportRelay_same id m now d h :
  wp true (reportRelay id m now) (λ _ d' _, same_delivery d d') d h.
Proof.
  unfold reportRelay. apply wp_bind. eapply wp_mono; [apply relayByID_reads|].
  intros [relay|e] d' h' [-> _]; [|done].
  unfold UpsertRelayTelemetry, AppendRelayMetric, UpsertConnection, ConnectionRecord_by.
  wp_go; try done; split_and!; by read_tables.
Qed.

(** ** The invariant *)

(** In this mode an event that reaches [g.Report] has no request identifier. *)
Lemma settle_reported s c m v :
  sys_reported (settle s c m v)
  = match v with
    | CallReport => if bool_decide (msg_Type m = "lifecycle") then (conn_session c, m) :: sys_reported s
                    else sys_reported s
    | _ => sys_reported s
    end.
Proof. by destruct v. Qed.

Lemma receive_report_unrequested g p m now :
  Gateway.receive true true g p m now = CallReport → msg_Type m = "lifecycle" → requested m = false.
Proof.
  intros Hr Ht. unfold Gateway.receive in Hr. rewrite Ht in Hr. cbn in Hr. unfold on_lifecycle in Hr.
  unfold requested. by destruct (negb (bool_decide (msg_RequestID m = ""))).
Qed.

Lemma after_report_quiet g p m now outcome : after_report g p m now outcome ≠ CallReport.
Proof.
  unfold after_report, commit_telemetry, commit_lifecycle. destruct outcome; [|done].
  by repeat case_bool_decide.
Qed.

Lemma after_durable_quiet g p m outcome : after_durable g p m outcome ≠ CallReport.
Proof. unfold after_durable. destruct outcome as [|[]]; done. Qed.

Definition unrequested (reported : list (string * StoreRelay.Message)) : Prop :=
  ∀ session m, (session, m) ∈ reported → requested m = false.

Lemma gateway_step_unrequested s l s' :
  gateway_step true s l = Some s' → unrequested (sys_reported s) → unrequested (sys_reported s').
Proof.
  intros Hs Hu. destruct l; cbn in Hs.
  1: { case_bool_decide; [|done]. apply bind_Some in Hs as (g & _ & [= <-]). exact Hu. }
  1-3: by injection Hs as <-.
  - apply bind_Some in Hs as (c & _ & (p & _ & Hs)%bind_Some).
    destruct (admit_frame c p m now) as [c'|]; injection Hs as <-; [|done].
    rewrite settle_reported. destruct (Gateway.receive true true _ p m now) eqn:Hr; try done.
    case_bool_decide as Ht; [|done]. intros ses m' [[= -> ->]|Hin]%elem_of_cons; [|by eapply Hu].
    by eapply receive_report_unrequested.
  - apply bind_Some in Hs as ([[c m] []] & _ & (p & _ & Hs)%bind_Some); [done|]. injection Hs as <-.
    rewrite settle_reported. pose proof (after_report_quiet (sys_gateway s) p m now outcome).
    by destruct (after_report _ _ _ _ _).
  - apply bind_Some in Hs as ([[c m] []] & _ & (p & _ & Hs)%bind_Some); [|done]. injection Hs as <-.
    rewrite settle_reported. pose proof (after_durable_quiet (sys_gateway s) p m outcome).
    by destruct (after_durable _ _ _ _).
  - destruct (negb _); [done|]. apply bind_Some in Hs as (g & _ & [= <-]). exact Hu.
  - by injection Hs as <-.
  - by injection Hs as <-.
  - apply bind_Some in Hs as (g & _ & [= <-]). exact Hu.
Qed.

(** What is stored stays stored. *)
Lemma stored_refines d d' id m : relay_inv d → refines d d' → stored d id m → stored d' id m.
Proof.
  intros Hinv Href (x & Hx & Ho & Hrec). destruct (Href Hinv) as [_ Hstep]. specialize (Hstep (msg_UUID m)).
  rewrite Hx in Hstep.
  destruct (record_steps_kept x _ (rtc_once _ _ Hstep)) as (x' & Hx' & Ho' & _ & Hact & Hcl).
  exists x'. split_and!; [done|congruence|].
  destruct Hrec as [[Hs He]|[Hs He]]; [left; auto|right]. rewrite Hcl by (by rewrite He). done.
Qed.

Record plant_inv (pl : plant) : Prop := {
  pli_system : reachable true (pl_system pl);
  pli_tables : relay_inv (w_db (pl_world pl));
  pli_reported : unrequested (sys_reported (pl_system pl));
  pli_answers : ∀ a, a ∈ pl_answers pl → answer_ok (w_db (pl_world pl)) a
}.

(** The tables moved, the gateway took a step, and the new answers hold. *)
Lemma plant_inv_step pl l s' w answers :
  plant_inv pl → gateway_step true (pl_system pl) l = Some s' ∨ s' = pl_system pl →
  refines (w_db (pl_world pl)) (w_db w) →
  (∀ a, a ∈ answers → a ∈ pl_answers pl ∨ answer_ok (w_db w) a) →
  plant_inv (mkPlant s' w answers).
Proof.
  intros [Hs Ht Hu Ha] Hl Href Hnew. split; cbn.
  - destruct Hl as [Hl| ->]; [by eapply reach_step|done].
  - by apply Href.
  - destruct Hl as [Hl| ->]; [by eapply gateway_step_unrequested|done].
  - intros a [Hin|?]%Hnew; [|done]. destruct (Ha a Hin) as [[He Hst]|Hf]; [left|by right].
    split; [done|]. by eapply stored_refines.
Qed.

(** The answer to an event, by what the callback made of it. *)
Lemma durable_answer d d' id token m g p r a answers :
  relay_inv d → durable_post id token m d r d' →
  a ∈ note_answer id m (after_durable g p m r) d' answers → a ∈ answers ∨ answer_ok d' a.
Proof.
  intros Hinv [_ Hpost]. unfold note_answer, after_durable. destruct r as [[]|e]; cbn.
  - intros [->|?]%elem_of_cons; [|by left]. right; left. split; [done|]. by apply Hpost.
  - destruct Hpost as [-> Hf]. destruct e; cbn; try by left.
    intros [->|?]%elem_of_cons; [|by left]. right; right. split; [done|]. by apply Hf.
Qed.

Lemma plant_step_inv pl e pl' : plant_inv pl → plant_step pl e = Some pl' → plant_inv pl'.
Proof.
  intros Hinv Hstep. destruct e as [l|session now|session received seen|op]; cbn in Hstep.
  - assert (Hl : ∃ s', gateway_step true (pl_system pl) l = Some s'
                       ∧ pl' = mkPlant s' (pl_world pl) (pl_answers pl)).
    { destruct l; try done; apply bind_Some in Hstep as (s' & Hs' & [= <-]); by exists s'. }
    destruct Hl as (s' & Hs' & ->). eapply plant_inv_step; [done|left; exact Hs'|apply refines_refl|by left].
  - apply bind_Some in Hstep as ([[c m] b] & _ & Hstep). destruct (reportRelay _ _ _ _) as [r w] eqn:Hr.
    apply bind_Some in Hstep as (s' & Hs' & [= <-]).
    pose proof (wp_post (λ _ d d', same_delivery d d') _ (pl_world pl) (reportRelay_same (conn_id c) m now)) as Hd.
    rewrite Hr in Hd.
    eapply (plant_inv_step pl (Reported session r now)); [done|left; exact Hs'|by apply refines_same|by left].
  - apply bind_Some in Hstep as ([[c m] b] & _ & (p & _ & Hstep)%bind_Some).
    destruct (durableReport _ _ _ _ _ _) as [r w] eqn:Hr. apply bind_Some in Hstep as (s' & Hs' & [= <-]).
    pose proof (wp_post (λ r d d', durable_post (conn_id c) (conn_token c) m d r d') _ (pl_world pl)
                  (durableReport_post (conn_id c) (conn_token c) m received seen)) as Hd.
    rewrite Hr in Hd. eapply (plant_inv_step pl (Durably session r)); [done|left; exact Hs'|by apply Hd|].
    intros a Ha. eapply durable_answer; [apply Hinv|exact Hd|exact Ha].
  - injection Hstep as <-. eapply (plant_inv_step pl (Leaves "" "")); [done|by right| |by left].
    apply (wp_post (λ _ d d', refines d d') (run_relay_op op) (pl_world pl) (relay_op_refines op)).
Qed.

Lemma plant_reachable_inv w pl : relay_inv (w_db w) → plant_reachable w pl → plant_inv pl.
Proof.
  intros Hinv. induction 1; [|by eapply plant_step_inv].
  split; cbn; [constructor|done|by intros ? ? ?%not_elem_of_nil|by intros ? ?%not_elem_of_nil].
Qed.

(** C11: what the relay is told about its lifecycle events is true, in every
    interleaving of connections, messages, callbacks, timers, commands and other
    operations of the relay tables (the deletion of a relay server apart), with
    any statements failing.  An event with a request identifier that was
    acknowledged is on record from then on, as an event of a connection of that
    relay; one that was rejected belongs to a connection of the relay authorized
    under another generation of its credential; nothing else is answered.  Two
    acknowledged events with the same UUID and status are the same relay's and
    have the same identifier: a connection starts and ends once.  And an event
    without an identifier, which [g.Report] gets, names a UUID that a permit
    command of the same session named. *)
Theorem lifecycle_acknowledged_recorded w pl :
  relay_inv (w_db w) → plant_reachable w pl →
  (∀ a, a ∈ pl_answers pl → answer_ok (w_db (pl_world pl)) a)
  ∧ (∀ a b, a ∈ pl_answers pl → b ∈ pl_answers pl →
       answer_reply a = lifecycle_ack (answer_event a) → answer_reply b = lifecycle_ack (answer_event b) →
       msg_UUID (answer_event a) = msg_UUID (answer_event b) →
       msg_Status (answer_event a) = msg_Status (answer_event b) →
       answer_relay a = answer_relay b ∧ msg_RequestID (answer_event a) = msg_RequestID (answer_event b))
  ∧ (∀ session m, (session, m) ∈ sys_reported (pl_system pl) →
       requested m = false ∧ (session, msg_UUID m) ∈ sys_permitted (pl_system pl)).
Proof.
  intros Hinv Hpl. destruct (plant_reachable_inv w pl Hinv Hpl) as [Hs Ht Hu Ha]. split_and!; [done| |].
  - intros a b Hina Hinb Hra Hrb Hid Hst.
    destruct (Ha a Hina) as [[_ (x & Hx & Hox & Hrx)]|[Hr _]]; [|by rewrite Hra in Hr].
    destruct (Ha b Hinb) as [[_ (y & Hy & Hoy & Hry)]|[Hr _]]; [|by rewrite Hrb in Hr].
    rewrite Hid, Hy in Hx. injection Hx as <-. split; [congruence|].
    destruct Hrx as [[??]|[??]], Hry as [[??]|[??]]; congruence.
  - intros session m Hm. split; [by eapply Hu|]. apply reachable_inv in Hs.
    by destruct (inv_report _ Hs _ _ Hm).
Qed.

(** ** Witness: a relay reports a connection, repeats the report, and reports an
    event again after its credential was rotated *)

Fixpoint run_plant (es : list plant_event) (pl : plant) : option plant :=
  match es with
  | [] => Some pl
  | e :: es' => plant_step pl e ≫= run_plant es'
  end.

Lemma plant_reachable_run w es pl pl' : plant_reachable w pl → run_plant es pl = Some pl' → plant_reachable w pl'.
Proof.
  revert pl. induction es as [|e es IH]; intros pl Hpl; cbn; [by intros [= <-]|].
  intros (pl1 & He & Hr)%bind_Some. eapply IH; [|exact Hr]. by eapply plant_next.
Qed.

Definition ex_plant_run : list plant_event :=
  [Loops (Joins "r1" ex_token "s1" 0); Loops (Receives "s1" (ex_message "ready" "" "" "") 1);
   Loops (Receives "s1" (ex_message "lifecycle" "e1" "uuid-0001" "active") 2); CallsDurable "s1" 2 2;
   Loops (Receives "s1" (ex_message "lifecycle" "e1" "uuid-0001" "active") 3); CallsDurable "s1" 3 3;
   Stores (OpPutRelayEnrollment (mkCredential "r1" "" (Hash "secret") (10 * minute) "g2" 4));
   Stores (OpConsumeRelayEnrollment "r1" (Hash "secret") (Hash ex_token) 5);
   Loops (Receives "s1" (ex_message "lifecycle" "e2" "uuid-0001" "closed") 6); CallsDurable "s1" 6 6].
Abbreviation ex_plant := (run_plant ex_plant_run (mkPlant no_peers ex_relay_world [])) (only parsing).

Lemma lifecycle_acknowledged_recorded_witness :
  ∃ pl, ex_plant = Some pl
    ∧ (λ a, (msg_RequestID (answer_event a), msg_Type (answer_reply a))) <$> pl_answers pl
      = [("e2", "lifecycle_rejected"); ("e1", "lifecycle_ack"); ("e1", "lifecycle_ack")]
    ∧ ∀ a, a ∈ pl_answers pl → answer_ok (w_db (pl_world pl)) a.
Proof.
  assert (Hc : (λ pl, (λ a, (msg_RequestID (answer_event a), msg_Type (answer_reply a))) <$> pl_answers pl) <$> ex_plant
    = Some [("e2", "lifecycle_rejected"); ("e1", "lifecycle_ack"); ("e1", "lifecycle_ack")])
    by (vm_compute; reflexivity).
  destruct ex_plant as [pl|] eqn:Hpl; [|done]. injection Hc as Hc. exists pl. split_and!; [reflexivity|exact Hc|].
  apply (lifecycle_acknowledged_recorded ex_relay_world pl); [apply ex_relay_inv|].
  eapply plant_reachable_run; [apply plant_start|exact Hpl].
Defined.
