(* ===== verification/AddressBookApi.v ===== *)
(** * Address books of the API (art-api/internal/httpapi: address_books.go, server.go)

    The address-book requests of the console and of RustDesk clients.  Every
    request first asks the sharing service for access.  [fresh n] is the n-th
    [uuid.NewString()] of a request; the result of the order-insensitive
    [sort.Slice] is a parameter. *)

From S2P Require Export AddressBooks Http.
From S2P Require Import Sample Text Keeps.

(** The status of a failed access check. *)
Definition address_book_error {A} (e : error) : Reply A :=
  match e with
  | ErrForbidden => writeError 403 "address book access denied"
  | ErrNotFound => writeError 404 "address book not found"
  | _ => writeError 500 "address book unavailable"
  end.
Record rustDeskAddressBookPeer := mkPeer {
  peer_ID : string; peer_Username : string; peer_Hostname : string; peer_Alias : string; peer_Platform : string;
  peer_Tags : list string; peer_Hash : string; peer_Password : string; peer_ForceAlwaysRelay : any; peer_RDPPort : string;
  peer_RDPUsername : string; peer_LoginName : string; peer_SameServer : bool }.

(** ** Values *)

Section Values.
Context `{Unicode}.

Definition validAddressBookTag (value : string) : bool :=
  negb (bool_decide (TrimSpace value = "")) && (len (TrimSpace value) <=? 64).

(** The loop of [normalizeAddressBookTags]. *)
Fixpoint normalize_tags (values seen : list string) : list string :=
  match values with
  | [] => []
  | value :: rest =>
      let value := TrimSpace value in
      if negb (validAddressBookTag value) || bool_decide (value ∈ seen) then normalize_tags rest seen
      else value :: normalize_tags rest (value :: seen)
  end.
Definition normalizeAddressBookTags (values : list string) : list string := normalize_tags values [].

Definition clientBool (value : any) : bool :=
  match value with
  | VBool b => b
  | VString s => default false (ParseBool (TrimSpace s))
  | _ => false
  end.

Definition client_entry (bookID fresh : string) (now : time) (peer : rustDeskAddressBookPeer) : AddressBookEntry :=
  mkAddressBookEntry fresh bookID (TrimSpace (peer_ID peer)) (TrimSpace (peer_Alias peer)) (TrimSpace (peer_Username peer))
    (TrimSpace (peer_Hostname peer)) (TrimSpace (peer_Platform peer)) "" false (normalizeAddressBookTags (peer_Tags peer))
    (clientBool (peer_ForceAlwaysRelay peer)) (TrimSpace (peer_RDPPort peer)) (TrimSpace (peer_RDPUsername peer))
    (TrimSpace (peer_LoginName peer)) (peer_SameServer peer) now.

(** The loop of [entriesFromClientPeers]; [seen] are the identifiers so far. *)
Fixpoint entries_from (bookID : string) (fresh : nat → string) (now : time) (n : nat) (seen : list string)
    (peers : list rustDeskAddressBookPeer) : option (list AddressBookEntry) :=
  match peers with
  | [] => Some []
  | peer :: rest =>
      let id := TrimSpace (peer_ID peer) in
      if (len id <? 3) || (64 <? len id) || (128 <? len (TrimSpace (peer_Alias peer))) || bool_decide (id ∈ seen) then None
      else cons (client_entry bookID (fresh n) now peer) <$> entries_from bookID fresh now (S n) (id :: seen) rest
  end.
Definition entriesFromClientPeers (bookID : string) (fresh : nat → string) (now : time)
    (peers : list rustDeskAddressBookPeer) : option (list AddressBookEntry) := entries_from bookID fresh now 0 [] peers.

Definition FormatBool (b : bool) : string := if b then "true" else "false".

Definition client_peer (entry : AddressBookEntry) : rustDeskAddressBookPeer :=
  mkPeer (entry_RustDeskID entry) (entry_Username entry) (entry_Hostname entry) (entry_Alias entry) (entry_Platform entry)
    (entry_Tags entry) "" "" (VString (FormatBool (entry_ForceRelay entry))) (entry_RDPPort entry) (entry_RDPUsername entry)
    (entry_LoginName entry) (entry_SameServer entry).
Definition clientPeers (entries : list AddressBookEntry) : list rustDeskAddressBookPeer := client_peer <$> entries.

Definition clientPermissionRule (permission : string) : Z :=
  if bool_decide (permission = PermissionRead) then 1 else if bool_decide (permission = PermissionWrite) then 2 else 3.

(** [current] and [pageSize] of the query, [None] when absent; the bounds of the
    page, [None] for an error. *)
Definition clientPageBounds (current pageSize : option string) (total : nat) : option (nat * nat) :=
  match current, pageSize with
  | None, None => Some (O, total)
  | _, _ =>
      match Atoi (default "" current), Atoi (default "" pageSize) with
      | Some current, Some size =>
          if (current <? 1) || (size <? 1) || (1000 <? size) then None
          else if Z.of_nat total / size <? current - 1 then Some (total, total)
          else let start := (current - 1) * size in
               Some (Z.to_nat start, Z.to_nat (Z.min (start + size) (Z.of_nat total)))
      | _, _ => None
      end
  end.

Definition validAddressBook (v : AddressBook) : bool * AddressBook :=
  let v := v <| book_Name := TrimSpace (book_Name v) |> in
  ((2 <=? len (book_Name v)) && (len (book_Name v) <=? 128) && bool_decide (book_Kind v ∈ ["personal"; "shared"]), v).

Definition validAddressBookEntry (v : AddressBookEntry) : bool * AddressBookEntry :=
  let v := v <| entry_RustDeskID := TrimSpace (entry_RustDeskID v) |> <| entry_Alias := TrimSpace (entry_Alias v) |>
             <| entry_Folder := TrimSpace (entry_Folder v) |> in
  ((3 <=? len (entry_RustDeskID v)) && (len (entry_RustDeskID v) <=? 64) && (len (entry_Alias v) <=? 128)
   && (len (entry_Folder v) <=? 128), v).
End Values.

(** ** The console (server.go) *)

Section Console.
Context `{Unicode}.

Definition book_event (type : string) (p : Principal) (target : string) (metadata : gmap string any) : AuditEvent :=
  mkAuditEvent "" zero_time type (user_ID (principal_User p)) "" "" target "" "success" "" metadata.

(** The access check before a request. *)
Definition with_access {A} (p : Principal) (bookID required : string) (next : AddressBook → M (Reply A)) : M (Reply A) :=
  book ← try (Authorize (principal_User p) bookID required);
  match book with
  | Err e => ret (address_book_error e)
  | Ok book => next book
  end.

Definition listAddressBooks (p : Principal) : M (Reply (list AddressBook)) :=
  values ← try (AddressBooks.List (principal_User p));
  ret (match values with Ok values => writeJSON 200 values | Err _ => writeError 500 "failed to list address books" end).

Definition listAddressBookEntries (bookID : string) (p : Principal) : M (Reply (list AddressBookEntry)) :=
  with_access p bookID PermissionRead (λ _,
    values ← try (ListAddressBookEntries bookID);
    ret (match values with Ok values => writeJSON 200 values
         | Err _ => writeError 500 "failed to list address book entries" end)).

Definition createAddressBookEntry (bookID fresh : string) (c : Call) (p : Principal) (body : option AddressBookEntry)
    : M (Reply AddressBookEntry) :=
  with_access p bookID PermissionWrite (λ _,
    match validAddressBookEntry <$> body with
    | Some (true, v) =>
        let v := v <| entry_ID := fresh |> <| entry_AddressBookID := bookID |> <| entry_CreatedAt := call_now c |> in
        created ← try (CreateAddressBookEntry v);
        if negb (is_ok created) then ret (writeError 409 "device is already in this address book") else
        record c 0 (book_event "address_book_update" p (entry_RustDeskID v) ∅);;
        ret (writeJSON 201 v)
    | _ => ret (writeError 400 "invalid address book entry")
    end).

Definition createAddressBook (fresh : string) (c : Call) (p : Principal) (body : option AddressBook)
    : M (Reply AddressBook) :=
  match validAddressBook <$> body with
  | Some (true, v) =>
      if bool_decide (book_Kind v = "shared") && negb (bool_decide (user_Role (principal_User p) = RoleAdmin))
      then ret (writeError 403 "only administrators can create shared address books") else
      let v := v <| book_ID := fresh |> <| book_OwnerUserID := user_ID (principal_User p) |>
                 <| book_Permission := PermissionManage |> <| book_CanManage := true |>
                 <| book_CreatedAt := call_now c |> <| book_UpdatedAt := call_now c |> in
      created ← try (CreateAddressBook v);
      if negb (is_ok created) then ret (writeError 500 "failed to create address book") else
      record c 0 (book_event "address_book_create" p "" ∅);;
      ret (writeJSON 201 v)
  | _ => ret (writeError 400 "invalid address book")
  end.

Definition updateAddressBook (bookID : string) (c : Call) (p : Principal) (body : option AddressBook)
    : M (Reply AddressBook) :=
  with_access p bookID PermissionManage (λ existing,
    match validAddressBook <$> body with
    | Some (true, v) =>
        if negb (bool_decide (user_Role (principal_User p) = RoleAdmin)) && negb (bool_decide (book_Kind v = book_Kind existing))
        then ret (writeError 403 "only administrators can change address book type") else
        let v := mkAddressBook (book_ID existing) (book_Name v) (book_Kind v) (book_OwnerUserID existing) PermissionManage true
                   (book_CreatedAt existing) (call_now c) in
        updated ← try (UpdateAddressBook v);
        match updated with
        | Err e => ret (writeError (statusForStore e) "address book not found")
        | Ok _ => record c 0 (book_event "address_book_update" p "" ∅);; ret (writeJSON 200 v)
        end
    | _ => ret (writeError 400 "invalid address book")
    end).

Definition deleteAddressBook (bookID : string) (c : Call) (p : Principal) : M (Reply unit) :=
  with_access p bookID PermissionManage (λ _,
    deleted ← try (DeleteAddressBook bookID);
    match deleted with
    | Err e => ret (writeError (statusForStore e) "address book not found")
    | Ok _ => record c 0 (book_event "address_book_delete" p "" ∅);; ret (mkReply 204 NoContent)
    end).

Definition updateAddressBookEntry (bookID entryID : string) (c : Call) (p : Principal) (body : option AddressBookEntry)
    : M (Reply AddressBookEntry) :=
  with_access p bookID PermissionWrite (λ _,
    match validAddressBookEntry <$> body with
    | Some (true, v) =>
        let v := v <| entry_ID := entryID |> <| entry_AddressBookID := bookID |> in
        updated ← try (UpdateAddressBookEntry v);
        match updated with
        | Err e => ret (writeError (statusForStore e) "address book entry not found")
        | Ok _ => record c 0 (book_event "address_book_entry_update" p (entry_RustDeskID v) ∅);; ret (writeJSON 200 v)
        end
    | _ => ret (writeError 400 "invalid address book entry")
    end).

Definition deleteAddressBookEntry (bookID entryID : string) (c : Call) (p : Principal) : M (Reply unit) :=
  with_access p bookID PermissionWrite (λ _,
    deleted ← try (DeleteAddressBookEntry bookID entryID);
    match deleted with
    | Err e => ret (writeError (statusForStore e) "address book entry not found")
    | Ok _ => record c 0 (book_event "address_book_entry_delete" p "" ∅);; ret (mkReply 204 NoContent)
    end).

Definition listAddressBookGrants (bookID : string) (p : Principal) : M (Reply (list AddressBookGrant)) :=
  values ← try (Grants (principal_User p) bookID);
  ret (match values with Ok values => writeJSON 200 values | Err e => address_book_error e end).

Definition putAddressBookGrant (bookID fresh : string) (c : Call) (p : Principal) (body : option AddressBookGrant)
    : M (Reply AddressBookGrant) :=
  match body with
  | None => ret (writeError 400 "invalid address book grant")
  | Some grant =>
      put ← try (PutGrant (principal_User p) (grant <| grant_AddressBookID := bookID |>) (call_now c) fresh);
      match put with
      | Err ErrNotFound => ret (writeError 400 "grant subject not found")
      | Err e => ret (address_book_error e)
      | Ok value =>
          record c 0 (book_event "address_book_grant_update" p "" {["address_book_id" := VString (grant_AddressBookID value);
            "subject_type" := VString (grant_SubjectType value); "subject_id" := VString (grant_SubjectID value);
            "permission" := VString (grant_Permission value)]});;
          ret (writeJSON 200 value)
      end
  end.

Definition deleteAddressBookGrant (bookID grantID : string) (c : Call) (p : Principal) : M (Reply unit) :=
  deleted ← try (DeleteGrant (principal_User p) bookID grantID);
  match deleted with
  | Err e => ret (address_book_error e)
  | Ok _ =>
      record c 0 (book_event "address_book_grant_delete" p "" {["address_book_id" := VString bookID; "grant_id" := VString grantID]});;
      ret (mkReply 204 NoContent)
  end.
End Console.

(** ** RustDesk clients (address_books.go) *)

Section Clients.
Context `{Unicode}.

(** [personalAddressBook]: [None] when there is none and none is created. *)
Definition personalAddressBook (fresh : string) (now : time) (user : User) (create : bool) : M (option AddressBook) :=
  books ← ListAddressBooks;
  match head (filter (λ b, book_OwnerUserID b = user_ID user ∧ book_Kind b = "personal") books) with
  | Some book => ret (Some (book <| book_Permission := PermissionManage |> <| book_CanManage := true |>))
  | None =>
      if negb create then ret None else
      let book := mkAddressBook fresh (user_Username user) "personal" (user_ID user) PermissionManage true now now in
      CreateAddressBook book;; ret (Some book)
  end.

(** The reply is the list of peers, the other fields of the JSON are constant. *)
Definition legacyAddressBook (c : Call) (p : Principal) : M (Reply (list rustDeskAddressBookPeer)) :=
  found ← try (personalAddressBook "" (call_now c) (principal_User p) false);
  match found with
  | Err e => ret (address_book_error e)
  | Ok None => ret (writeJSON 200 [])
  | Ok (Some book) =>
      entries ← try (ListAddressBookEntries (book_ID book));
      ret (match entries with
           | Ok entries => writeJSON 200 (clientPeers entries)
           | Err _ => writeError 500 "address book unavailable"
           end)
  end.

(** [decode] is [json.Unmarshal] of the data; [body] the data of the envelope. *)
Definition updateLegacyAddressBook (decode : string → option (list rustDeskAddressBookPeer)) (fresh : nat → string)
    (c : Call) (p : Principal) (body : option string) : M (Reply unit) :=
  let data := default "" body in
  if bool_decide (data = "") then ret (writeError 400 "invalid address book") else
  match decode data with
  | None => ret (writeError 400 "invalid address book data")
  | Some peers =>
      found ← try (personalAddressBook (fresh O) (call_now c) (principal_User p) true);
      match found with
      | Err e => ret (address_book_error e)
      | Ok book =>
          let bookID := from_option book_ID "" book in
          match entriesFromClientPeers bookID (λ n, fresh (S n)) (call_now c) peers with
          | None => ret (writeError 400 "invalid address book peer")
          | Some entries =>
              replaced ← try (ReplaceAddressBookEntries bookID entries);
              if negb (is_ok replaced) then ret (writeError 409 "address book contains duplicate peers") else
              record c 0 (book_event "address_book_sync" p "" {["address_book_id" := VString bookID; "peer_count" := VOther]});;
              ret (mkReply 200 NoContent)
          end
      end
  end.

(** Identifier, name, owner and rule. *)
Definition clientPersonalAddressBook (fresh : string) (c : Call) (p : Principal)
    : M (Reply (string * string * string * Z)) :=
  found ← try (personalAddressBook fresh (call_now c) (principal_User p) true);
  ret (match found with
       | Err e => address_book_error e
       | Ok book => writeJSON 200 (from_option book_ID "" book, from_option book_Name "" book,
                                   user_Username (principal_User p), 3)
       end).

(** [values[start:end]] *)
Definition page {A} (bounds : nat * nat) (values : list A) : list A := take (bounds.2 - bounds.1) (drop bounds.1 values).

(** Total and page; [current] and [pageSize] come from the query. *)
Definition clientSharedAddressBooks (sort : list (string * string * string * Z) → list (string * string * string * Z))
    (current pageSize : option string) (p : Principal) : M (Reply (nat * list (string * string * string * Z))) :=
  books ← try (AddressBooks.List (principal_User p));
  match books with
  | Err e => ret (address_book_error e)
  | Ok books =>
      users ← try ListUsers;
      ret (match users with
           | Err _ => writeError 500 "address book owners unavailable"
           | Ok users =>
               let owner id := default "" (user_Username <$> last (filter (λ u, user_ID u = id) users)) in
               let profiles := sort ((λ b, (book_ID b, book_Name b, owner (book_OwnerUserID b),
                                            clientPermissionRule (book_Permission b)))
                                      <$> filter (λ b, book_Kind b = "shared") books) in
               match clientPageBounds current pageSize (length profiles) with
               | None => writeError 400 "invalid pagination"
               | Some bounds => writeJSON 200 (length profiles, page bounds profiles)
               end
           end)
  end.

Definition clientAddressBookPeers (sort : list AddressBookEntry → list AddressBookEntry) (ab : string)
    (current pageSize : option string) (p : Principal) : M (Reply (nat * list rustDeskAddressBookPeer)) :=
  let bookID := TrimSpace ab in
  with_access p bookID PermissionRead (λ _,
    entries ← try (ListAddressBookEntries bookID);
    ret (match entries with
         | Err _ => writeError 500 "address book unavailable"
         | Ok entries =>
             let entries := sort entries in
             match clientPageBounds current pageSize (length entries) with
             | None => writeError 400 "invalid pagination"
             | Some bounds => writeJSON 200 (length entries, clientPeers (page bounds entries))
             end
         end)).

(** *** Tags *)

Definition clientAddressBookTags (bookID : string) (p : Principal) : M (Reply (list AddressBookTag)) :=
  with_access p bookID PermissionRead (λ _,
    tags ← try (ListAddressBookTags bookID);
    ret (match tags with Ok tags => writeJSON 200 tags | Err _ => writeError 500 "address book tags unavailable" end)).

Definition clientAddAddressBookTag (bookID fresh : string) (c : Call) (p : Principal) (body : option (string * Z))
    : M (Reply unit) :=
  with_access p bookID PermissionWrite (λ _,
    match body with
    | Some (name, color) =>
        if negb (validAddressBookTag name) then ret (writeError 400 "invalid address book tag") else
        created ← try (CreateAddressBookTag (mkAddressBookTag fresh bookID (TrimSpace name) color (call_now c) (call_now c)));
        ret (if is_ok created then mkReply 200 NoContent else writeError 409 "address book tag already exists")
    | None => ret (writeError 400 "invalid address book tag")
    end).

(** The tags of an entry after a tag was renamed. *)
Definition rename_tag (oldName newName : string) (tags : list string) : list string :=
  (λ tag, if bool_decide (tag = oldName) then newName else tag) <$> tags.

(** [for _, entry := range entries { ... }]: the entries whose tags change. *)
Definition update_tags (f : list string → list string) (changed : AddressBookEntry → bool) (bookID : string) : M unit :=
  entries ← try (ListAddressBookEntries bookID);
  for_each (λ entry, when (changed entry)
    (discard (try (UpdateAddressBookEntry (entry <| entry_Tags := f (entry_Tags entry) |>)))))
    (match entries with Ok entries => entries | Err _ => [] end).

Definition clientRenameAddressBookTag (bookID : string) (c : Call) (p : Principal) (body : option (string * string))
    : M (Reply unit) :=
  with_access p bookID PermissionWrite (λ _,
    match body with
    | Some (old, new) =>
        if negb (validAddressBookTag old) || negb (validAddressBookTag new)
        then ret (writeError 400 "invalid address book tag") else
        tags ← try (ListAddressBookTags bookID);
        match tags with
        | Err _ => ret (writeError 500 "address book tags unavailable")
        | Ok tags =>
            match head (filter (λ t, tag_Name t = TrimSpace old) tags) with
            | None => ret (writeError 404 "address book tag not found")
            | Some value =>
                if bool_decide (tag_ID value = "") then ret (writeError 404 "address book tag not found") else
                let oldName := tag_Name value in
                let newName := TrimSpace new in
                updated ← try (UpdateAddressBookTag (mkAddressBookTag (tag_ID value) (tag_AddressBookID value) newName
                                 (tag_Color value) (tag_CreatedAt value) (call_now c)) oldName);
                if negb (is_ok updated) then ret (writeError 409 "address book tag already exists") else
                update_tags (rename_tag oldName newName) (λ entry, bool_decide (oldName ∈ entry_Tags entry)) bookID;;
                ret (mkReply 200 NoContent)
            end
        end
    | None => ret (writeError 400 "invalid address book tag")
    end).

Definition clientUpdateAddressBookTag (bookID : string) (c : Call) (p : Principal) (body : option (string * Z))
    : M (Reply unit) :=
  with_access p bookID PermissionWrite (λ _,
    match body with
    | Some (name, color) =>
        if negb (validAddressBookTag name) then ret (writeError 400 "invalid address book tag") else
        tags ← try (ListAddressBookTags bookID);
        match tags with
        | Err _ => ret (writeError 500 "address book tags unavailable")
        | Ok tags =>
            match head (filter (λ t, tag_Name t = TrimSpace name) tags) with
            | None => ret (writeError 404 "address book tag not found")
            | Some value =>
                updated ← try (UpdateAddressBookTag (mkAddressBookTag (tag_ID value) (tag_AddressBookID value) (tag_Name value)
                                 color (tag_CreatedAt value) (call_now c)) (tag_Name value));
                ret (match updated with Ok _ => mkReply 200 NoContent | Err e => address_book_error e end)
            end
        end
    | None => ret (writeError 400 "invalid address book tag")
    end).

(** The loop that deletes the tags; the reply that ended it. *)
Fixpoint delete_tags (bookID : string) (names : list string) : M (option (Reply unit)) :=
  match names with
  | [] => ret None
  | name :: rest =>
      let name := TrimSpace name in
      if negb (validAddressBookTag name) then ret (Some (writeError 400 "invalid address book tag")) else
      deleted ← try (DeleteAddressBookTag bookID name);
      match deleted with
      | Ok _ | Err ErrNotFound => delete_tags bookID rest
      | Err e => ret (Some (address_book_error e))
      end
  end.

Definition clientDeleteAddressBookTags (bookID : string) (p : Principal) (body : option (list string)) : M (Reply unit) :=
  with_access p bookID PermissionWrite (λ _,
    match body with
    | Some ((_ :: _) as names) =>
        stopped ← delete_tags bookID names;
        match stopped with
        | Some reply => ret reply
        | None =>
            let remove := TrimSpace <$> names in
            update_tags (filter (λ tag, tag ∉ remove)) (λ entry, existsb (λ tag, bool_decide (tag ∈ remove)) (entry_Tags entry))
              bookID;;
            ret (mkReply 200 NoContent)
        end
    | _ => ret (writeError 400 "invalid address book tags")
    end).

(** *** Peers *)

Definition clientAddAddressBookPeer (bookID fresh : string) (c : Call) (p : Principal)
    (body : option rustDeskAddressBookPeer) : M (Reply unit) :=
  with_access p bookID PermissionWrite (λ _,
    match body ≫= (λ peer, entriesFromClientPeers bookID (λ _, fresh) (call_now c) [peer]) with
    | Some [entry] =>
        created ← try (CreateAddressBookEntry entry);
        ret (if is_ok created then mkReply 200 NoContent else writeError 409 "peer already exists")
    | _ => ret (writeError 400 "invalid address book peer")
    end).

Definition clientUpdateAddressBookPeer (bookID : string) (p : Principal) (body : option rustDeskAddressBookPeer)
    : M (Reply unit) :=
  with_access p bookID PermissionWrite (λ _,
    match body with
    | None => ret (writeError 400 "invalid address book peer")
    | Some peer =>
        if bool_decide (TrimSpace (peer_ID peer) = "") then ret (writeError 400 "invalid address book peer") else
        entries ← try (ListAddressBookEntries bookID);
        match entries with
        | Err _ => ret (writeError 500 "address book unavailable")
        | Ok entries =>
            match head (filter (λ e, entry_RustDeskID e = peer_ID peer) entries) with
            | None => ret (writeError 404 "address book peer not found")
            | Some entry =>
                updated ← try (UpdateAddressBookEntry (mkAddressBookEntry (entry_ID entry) (entry_AddressBookID entry)
                  (entry_RustDeskID entry) (TrimSpace (peer_Alias peer)) (TrimSpace (peer_Username peer))
                  (TrimSpace (peer_Hostname peer)) (TrimSpace (peer_Platform peer)) (entry_Folder entry)
                  (entry_Favourite entry) (normalizeAddressBookTags (peer_Tags peer)) (clientBool (peer_ForceAlwaysRelay peer))
                  (TrimSpace (peer_RDPPort peer)) (TrimSpace (peer_RDPUsername peer)) (TrimSpace (peer_LoginName peer))
                  (peer_SameServer peer) (entry_CreatedAt entry)));
                ret (match updated with
                     | Err e => writeError (statusForStore e) "address book peer not found"
                     | Ok _ => mkReply 200 NoContent
                     end)
            end
        end
    end).

(** [byRustDeskID] keeps the last entry of an identifier. *)
Fixpoint delete_peers (bookID : string) (entries : list AddressBookEntry) (ids : list string) : M (Reply unit) :=
  match ids with
  | [] => ret (mkReply 200 NoContent)
  | id :: rest =>
      match last (filter (λ e, entry_RustDeskID e = id) entries) with
      | None => ret (writeError 404 "address book peer not found")
      | Some entry =>
          deleted ← try (DeleteAddressBookEntry bookID (entry_ID entry));
          match deleted with
          | Err e => ret (writeError (statusForStore e) "address book peer not found")
          | Ok _ => delete_peers bookID entries rest
          end
      end
  end.

Definition clientDeleteAddressBookPeer (bookID : string) (p : Principal) (body : option (list string)) : M (Reply unit) :=
  with_access p bookID PermissionWrite (λ _,
    match body with
    | Some ((_ :: _) as ids) =>
        entries ← try (ListAddressBookEntries bookID);
        match entries with
        | Err _ => ret (writeError 500 "address book unavailable")
        | Ok entries => delete_peers bookID entries ids
        end
    | _ => ret (writeError 400 "invalid address book peer list")
    end).
End Clients.

(** ** Requests change only books the caller may change *)

Section Guarded.
Context `{Unicode}.
Implicit Types (d : DB) (u : User) (id : string).

(** The rows of a book in the four tables. *)
Definition contents d id : list AddressBook * list AddressBookEntry * list AddressBookTag * list AddressBookGrant :=
  (filter (λ b, book_ID b = id) (t_address_books d), filter (λ e, entry_AddressBookID e = id) (t_address_book_entries d),
   filter (λ t, tag_AddressBookID t = id) (t_address_book_tags d), grants_of id (t_address_book_grants d)).

(** Since [d0] only the contents of [bookID] may have changed. *)
Definition only_book (d0 : DB) (bookID : string) d : Prop := ∀ id, id ≠ bookID → contents d id = contents d0 id.

Lemma filter_key_update {A} (key : A → string) id (P : A → Prop) `{∀ x, Decision (P x)} f (t : list A) :
  (∀ x, P x → key x ≠ id ∧ key (f x) ≠ id) →
  filter (λ x, key x = id) (update_where P f t) = filter (λ x, key x = id) t.
Proof.
  intros Hf. unfold update_where. induction t as [|x t IH]; [done|].
  rewrite fmap_cons, !filter_cons, IH. destruct (decide (P x)) as [HP|]; [|done].
  destruct (Hf x HP). by rewrite !decide_False.
Qed.

Lemma filter_key_delete {A} (key : A → string) id (P : A → Prop) `{∀ x, Decision (P x)} (t : list A) :
  (∀ x, P x → key x ≠ id) → filter (λ x, key x = id) (delete_where P t) = filter (λ x, key x = id) t.
Proof. intros HP. unfold delete_where. rewrite list_filter_filter. apply list_filter_iff. naive_solver. Qed.

Lemma filter_key_app {A} (key : A → string) id (t : list A) x :
  key x ≠ id → filter (λ x, key x = id) (t ++ [x]) = filter (λ x, key x = id) t.
Proof. intros Hx. rewrite filter_app, (filter_cons_False _ x), app_nil_r by done. done. Qed.

#[local] Arguments delete_where : simpl never.

(** The goals that operations on the rows of [bookID] leave. *)
Ltac other_rows :=
  intros d h Hd; wp_go; subst; try exact Hd;
  intros id Hid; rewrite <-(Hd id Hid); unfold contents, grants_of; cbn;
  (first [rewrite filter_key_app|rewrite filter_key_update|rewrite filter_key_delete]; [reflexivity|cbn; naive_solver]).

Context (d0 : DB) (bookID : string).
Abbreviation I := (only_book d0 bookID).

Lemma book_CreateEntry v : entry_AddressBookID v = bookID → keeps I (CreateAddressBookEntry v).
Proof. intros Hv. unfold CreateAddressBookEntry. other_rows. Qed.
Lemma book_UpdateEntry v : entry_AddressBookID v = bookID → keeps I (UpdateAddressBookEntry v).
Proof. intros Hv. unfold UpdateAddressBookEntry. other_rows. Qed.
Lemma book_DeleteEntry entryID : keeps I (DeleteAddressBookEntry bookID entryID).
Proof. unfold DeleteAddressBookEntry. other_rows. Qed.
Lemma book_CreateTag v : tag_AddressBookID v = bookID → keeps I (CreateAddressBookTag v).
Proof. intros Hv. unfold CreateAddressBookTag. other_rows. Qed.
Lemma book_UpdateTag v name : tag_AddressBookID v = bookID → keeps I (UpdateAddressBookTag v name).
Proof. intros Hv. unfold UpdateAddressBookTag. other_rows. Qed.
Lemma book_DeleteTag name : keeps I (DeleteAddressBookTag bookID name).
Proof. unfold DeleteAddressBookTag. other_rows. Qed.
Lemma book_Update v : book_ID v = bookID → keeps I (UpdateAddressBook v).
Proof. intros Hv. unfold UpdateAddressBook. other_rows. Qed.
Lemma book_DeleteGrant grantID : keeps I (DeleteAddressBookGrant bookID grantID).
Proof. unfold DeleteAddressBookGrant. other_rows. Qed.
Lemma book_UpsertGrant v : grant_AddressBookID v = bookID → keeps I (UpsertAddressBookGrant v).
Proof.
  intros Hv. unfold UpsertAddressBookGrant. intros d h Hd; wp_go; subst; try exact Hd.
  intros id Hid. rewrite <-(Hd id Hid). unfold contents, grants_of. cbn. case_decide.
  - rewrite filter_key_update; [done|]. intros x [= Hx _ _]. cbn. split; congruence.
  - by rewrite filter_key_app.
Qed.
Lemma book_Delete : keeps I (DeleteAddressBook bookID).
Proof.
  intros d h Hd. unfold DeleteAddressBook. wp_go; subst; try exact Hd; intros id Hid; rewrite <-(Hd id Hid);
    unfold contents, grants_of; cbn;
    rewrite (filter_key_delete book_ID), (filter_key_delete entry_AddressBookID), (filter_key_delete tag_AddressBookID),
      (filter_key_delete grant_AddressBookID) by naive_solver; done.
Qed.

Lemma book_Record event s : keeps I (Audit_Record event s).
Proof. apply keeps_audit. by intros d d' (t1 & t2 & ->). Qed.

(** Reading the rows of the book. *)
Lemma book_entries {A} (k : res (list AddressBookEntry) → M A) :
  (∀ r, match r with Ok l => Forall (λ e, entry_AddressBookID e = bookID) l | Err _ => True end → keeps I (k r)) →
  keeps I (r ← try (ListAddressBookEntries bookID); k r).
Proof.
  apply keeps_bind_post. intros d h Hd. unfold ListAddressBookEntries. apply wp_try, wp_query; [done|].
  split; [done|]. apply Forall_forall. intros e (e0 & -> & He%elem_of_SliceStable)%list_elem_of_fmap.
  apply list_elem_of_filter in He as [He _]. exact He.
Qed.

Lemma book_tags {A} (k : res (list AddressBookTag) → M A) :
  (∀ r, match r with Ok l => Forall (λ t, tag_AddressBookID t = bookID) l | Err _ => True end → keeps I (k r)) →
  keeps I (r ← try (ListAddressBookTags bookID); k r).
Proof.
  apply keeps_bind_post. intros d h Hd. unfold ListAddressBookTags. apply wp_try, wp_query; [done|].
  split; [done|]. apply Forall_forall. intros e (e0 & -> & He%elem_of_SliceStable)%list_elem_of_fmap.
  apply list_elem_of_filter in He as [He _]. exact He.
Qed.
End Guarded.
#[export] Hint Resolve book_CreateEntry book_UpdateEntry book_DeleteEntry book_CreateTag book_UpdateTag book_DeleteTag
  book_Update book_DeleteGrant book_UpsertGrant book_Delete book_Record : keeps.

Section Requests.
Context `{Unicode}.
Implicit Types (d : DB) (u : User).

(** What a request on a book may have done. *)
Definition allowed_on d u (bookID required : string) : Prop :=
  ∃ b, b ∈ t_address_books d ∧ book_ID b = bookID ∧ permissionRank required ≤ level d u b.
Definition guarded_by d u (bookID required : string) d' : Prop :=
  (∀ id, contents d' id = contents d id) ∨ allowed_on d u bookID required ∧ only_book d bookID d'.

Lemma guarded_refl d u bookID required : guarded_by d u bookID required d.
Proof. by left. Qed.

Lemma guarded_Record d0 u bookID required event s : keeps (guarded_by d0 u bookID required) (Audit_Record event s).
Proof. apply keeps_audit. by intros d d' (t1 & t2 & ->). Qed.

(** After the access check the request may change its book. *)
Lemma wp_authorized {A} u bookID required (k : res AddressBook → M A) d h :
  (∀ e d' h', d' = d → wp true (k (Err e)) (λ _ d'' _, guarded_by d u bookID required d'') d' h') →
  (∀ book, book_ID book = bookID → keeps (only_book d bookID) (k (Ok book))) →
  wp true (r ← try (Authorize u bookID required); k r) (λ _ d' _, guarded_by d u bookID required d') d h.
Proof.
  intros He Hk. apply wp_bind, wp_try. eapply wp_mono; [apply Authorize_spec|].
  intros r d' h' (-> & -> & [[_ ->]|Hr]); [by apply He|].
  destruct (select_one _ _) as [b|] eqn:Hb; [|subst r; by apply He]. apply select_one_Some in Hb as [Hb Hid].
  cbv zeta in Hr. destruct (_ || _) eqn:Hl in Hr; subst r; [by apply He|]. simplify_bool.
  eapply wp_mono; [apply (Hk (with_permission (scanBook b) (level_name (level d u b)))); [exact Hid|done]|].
  intros r d' h'' Hd'. right. split; [|exact Hd']. exists b. split_and!; [done|done|lia].
Qed.

Lemma guarded_access {A} p bookID required (next : AddressBook → M (Reply A)) d h :
  (∀ book, book_ID book = bookID → keeps (only_book d bookID) (next book)) →
  wp true (with_access p bookID required next) (λ _ d' _, guarded_by d (principal_User p) bookID required d') d h.
Proof. intros Hk. unfold with_access. apply wp_authorized; [|exact Hk]. intros e d' h' ->. apply wp_ret. by left. Qed.

(** The service reports a failed check as its error. *)
Lemma guarded_service {A} u bookID required (k : AddressBook → M A) d h :
  (∀ book, book_ID book = bookID → keeps (only_book d bookID) (k book)) →
  wp true (book ← Authorize u bookID required; k book) (λ _ d' _, guarded_by d u bookID required d') d h.
Proof.
  intros Hk. apply wp_bind. eapply wp_mono; [apply Authorize_spec|].
  intros r d' h' (-> & -> & [[_ ->]|Hr]); [by left|].
  destruct (select_one _ _) as [b|] eqn:Hb; [|subst r; by left]. apply select_one_Some in Hb as [Hb Hid].
  cbv zeta in Hr. destruct (_ || _) eqn:Hl in Hr; subst r; [by left|]. simplify_bool.
  eapply wp_mono; [apply (Hk (with_permission (scanBook b) (level_name (level d u b)))); [exact Hid|done]|].
  intros r d' h'' Hd'. right. split; [|exact Hd']. exists b. split_and!; [done|done|lia].
Qed.

(** *** The requests that change a book *)

Inductive book_change :=
| AskCreateEntry (fresh : string) (body : option AddressBookEntry)
| AskUpdateBook (body : option AddressBook)
| AskDeleteBook
| AskUpdateEntry (entryID : string) (body : option AddressBookEntry)
| AskDeleteEntry (entryID : string)
| AskPutGrant (fresh : string) (body : option AddressBookGrant)
| AskDeleteGrant (grantID : string)
| AskAddTag (fresh : string) (body : option (string * Z))
| AskRenameTag (body : option (string * string))
| AskUpdateTag (body : option (string * Z))
| AskDeleteTags (body : option (list string))
| AskAddPeer (fresh : string) (body : option rustDeskAddressBookPeer)
| AskUpdatePeer (body : option rustDeskAddressBookPeer)
| AskDeletePeers (body : option (list string)).

Definition serve_book (bookID : string) (c : Call) (p : Principal) (r : book_change) : M unit :=
  match r with
  | AskCreateEntry fresh body => discard (createAddressBookEntry bookID fresh c p body)
  | AskUpdateBook body => discard (updateAddressBook bookID c p body)
  | AskDeleteBook => discard (deleteAddressBook bookID c p)
  | AskUpdateEntry entryID body => discard (updateAddressBookEntry bookID entryID c p body)
  | AskDeleteEntry entryID => discard (deleteAddressBookEntry bookID entryID c p)
  | AskPutGrant fresh body => discard (putAddressBookGrant bookID fresh c p body)
  | AskDeleteGrant grantID => discard (deleteAddressBookGrant bookID grantID c p)
  | AskAddTag fresh body => discard (clientAddAddressBookTag bookID fresh c p body)
  | AskRenameTag body => discard (clientRenameAddressBookTag bookID c p body)
  | AskUpdateTag body => discard (clientUpdateAddressBookTag bookID c p body)
  | AskDeleteTags body => discard (clientDeleteAddressBookTags bookID p body)
  | AskAddPeer fresh body => discard (clientAddAddressBookPeer bookID fresh c p body)
  | AskUpdatePeer body => discard (clientUpdateAddressBookPeer bookID p body)
  | AskDeletePeers body => discard (clientDeleteAddressBookPeer bookID p body)
  end.

Definition required_level (r : book_change) : string :=
  match r with
  | AskUpdateBook _ | AskDeleteBook | AskPutGrant _ _ | AskDeleteGrant _ => PermissionManage
  | _ => PermissionWrite
  end.

Lemma wp_discard {A} (m : M A) (Q : DB → Prop) d h :
  wp true m (λ _ d' _, Q d') d h → wp true (discard m) (λ _ d' _, Q d') d h.
Proof. intros Hm. apply wp_bind. eapply wp_mono; [exact Hm|]. intros [] ???; [by apply wp_ret|done]. Qed.

Lemma entries_update_tags d0 bookID f changed : keeps (only_book d0 bookID) (update_tags f changed bookID).
Proof.
  unfold update_tags. apply book_entries. intros r Hr. apply keeps_for_each. intros e He. apply keeps_when. intros _.
  apply keeps_discard, keeps_try, book_UpdateEntry. destruct r as [l|]; [|by apply not_elem_of_nil in He].
  rewrite Forall_forall in Hr. exact (Hr e He).
Qed.

Lemma peers_delete d0 bookID entries ids : keeps (only_book d0 bookID) (delete_peers bookID entries ids).
Proof. induction ids as [|id ids IH]; cbn [delete_peers]; keep; exact IH. Qed.

Lemma tags_delete d0 bookID names : keeps (only_book d0 bookID) (delete_tags bookID names).
Proof. induction names as [|name names IH]; cbn [delete_tags]; keep; exact IH. Qed.
End Requests.
#[export] Hint Resolve entries_update_tags peers_delete tags_delete : keeps.

Section Guard.
Context `{Unicode}.

Lemma entries_from_book bookID fresh now n seen peers l :
  entries_from bookID fresh now n seen peers = Some l → Forall (λ e, entry_AddressBookID e = bookID) l.
Proof.
  revert n seen l. induction peers as [|x peers IH]; intros n seen l; cbn; [by intros [= <-]|].
  destruct (_ || _); [done|]. destruct (entries_from _ _ _ _ _ peers) as [l'|] eqn:Hl; [|done]. intros [= <-].
  constructor; [done|]. by eapply IH.
Qed.

Lemma head_filter_Forall {A} (P Q : A → Prop) `{∀ x, Decision (Q x)} l x :
  Forall P l → head (filter Q l) = Some x → P x.
Proof.
  intros Hl Hx. rewrite Forall_forall in Hl. apply Hl. destruct (filter Q l) as [|y l'] eqn:Hf; [done|]. injection Hx as ->.
  assert (Hin : x ∈ filter Q l) by (rewrite Hf; left). by apply list_elem_of_filter in Hin as [_ ?].
Qed.

Lemma guarded_tag_rename bookID c p body d h :
  wp true (clientRenameAddressBookTag bookID c p body)
    (λ _ d' _, guarded_by d (principal_User p) bookID PermissionWrite d') d h.
Proof.
  apply guarded_access. intros b Hb. destruct body as [[old new]|]; [|keep]. destruct (_ || _); [keep|].
  apply book_tags. intros [tags|e] Htags; [|keep]. destruct (head _) as [t|] eqn:Ht; [|keep].
  apply (head_filter_Forall _ _ _ _ Htags) in Ht. destruct (bool_decide _); [keep|]. cbv zeta. keep.
Qed.

Lemma guarded_tag_update bookID c p body d h :
  wp true (clientUpdateAddressBookTag bookID c p body)
    (λ _ d' _, guarded_by d (principal_User p) bookID PermissionWrite d') d h.
Proof.
  apply guarded_access. intros b Hb. destruct body as [[name color]|]; [|keep]. destruct (negb _); [keep|].
  apply book_tags. intros [tags|e] Htags; [|keep]. destruct (head _) as [t|] eqn:Ht; [|keep].
  apply (head_filter_Forall _ _ _ _ Htags) in Ht. keep; by apply book_UpdateTag.
Qed.

Lemma guarded_peer_update bookID p body d h :
  wp true (clientUpdateAddressBookPeer bookID p body)
    (λ _ d' _, guarded_by d (principal_User p) bookID PermissionWrite d') d h.
Proof.
  apply guarded_access. intros b Hb. destruct body as [x|]; [|keep]. destruct (bool_decide _); [keep|].
  apply book_entries. intros [l|e] Hl; [|keep]. destruct (head _) as [t|] eqn:Ht; [|keep].
  apply (head_filter_Forall _ _ _ _ Hl) in Ht. keep; by apply book_UpdateEntry.
Qed.

Lemma guarded_peers bookID p body d h :
  wp true (clientDeleteAddressBookPeer bookID p body)
    (λ _ d' _, guarded_by d (principal_User p) bookID PermissionWrite d') d h.
Proof.
  apply guarded_access. intros b Hb. destruct body as [[|id ids]|]; [keep| |keep].
  apply book_entries. intros [l|e] Hl; keep.
Qed.

(** A call of the service, and what the handler does with its result. *)
Lemma guarded_call {A B} d0 u bookID required (m : M A) (k : res A → M B) d h :
  wp true m (λ _ d' _, guarded_by d0 u bookID required d') d h →
  (∀ r, keeps (guarded_by d0 u bookID required) (k r)) →
  wp true (r ← try m; k r) (λ _ d' _, guarded_by d0 u bookID required d') d h.
Proof. intros Hm Hk. apply wp_bind, wp_try. eapply wp_mono; [exact Hm|]. intros r d' h' Hd'. by apply Hk. Qed.

Lemma guarded_PutGrant u grant now fresh bookID d h :
  grant_AddressBookID grant = bookID →
  wp true (PutGrant u grant now fresh) (λ _ d' _, guarded_by d u bookID PermissionManage d') d h.
Proof.
  intros <-. apply guarded_service. intros b Hb. cbv beta zeta. destruct (_ || _); [keep|]. destruct (_ || _); [keep|].
  unfold check_subject, FindUserByID, FindGroupByID, ListAddressBookGrants. keep; by apply book_UpsertGrant.
Qed.

Lemma guarded_DeleteGrant u bookID grantID d h :
  wp true (DeleteGrant u bookID grantID) (λ _ d' _, guarded_by d u bookID PermissionManage d') d h.
Proof. apply guarded_service. intros b Hb. keep. Qed.

Lemma guarded_serve bookID c p r d h :
  wp true (serve_book bookID c p r) (λ _ d' _, guarded_by d (principal_User p) bookID (required_level r) d') d h.
Proof.
  destruct r; cbn [serve_book required_level]; apply wp_discard.
  - apply guarded_access. intros b Hb. unfold record. keep; by apply book_CreateEntry.
  - apply guarded_access. intros b Hb. unfold record. keep.
  - apply guarded_access. intros b Hb. unfold record. keep.
  - apply guarded_access. intros b Hb. unfold record. keep; by apply book_UpdateEntry.
  - apply guarded_access. intros b Hb. unfold record. keep.
  - unfold putAddressBookGrant. destruct body as [grant|]; [|apply wp_ret; by left].
    apply guarded_call; [by apply guarded_PutGrant|]. intros r. unfold record. keep; apply guarded_Record.
  - unfold deleteAddressBookGrant. apply guarded_call; [by apply guarded_DeleteGrant|].
    intros r. unfold record. keep; apply guarded_Record.
  - apply guarded_access. intros b Hb. keep; by apply book_CreateTag.
  - apply guarded_tag_rename.
  - apply guarded_tag_update.
  - apply guarded_access. intros b Hb. keep.
  - apply guarded_access. intros b Hb. keep.
    match goal with Hl : _ ≫= _ = Some _ |- _ => destruct body as [x|]; [|done]; apply entries_from_book in Hl end.
    apply book_CreateEntry. by inversion_clear Heqo.
  - apply guarded_peer_update.
  - apply guarded_peers.
Qed.

(** C25: an address book changes only through those who may change it: whatever
    fails, if a request on the book [bookID] changes the rows of any book - the
    book itself, its entries, tags or grants - then it is that book, and the
    caller has write access to it, or manages it where the request needs that. *)
Theorem book_change_guarded bookID c p r w id :
  let w' := (serve_book bookID c p r w).2 in
  contents (w_db w') id ≠ contents (w_db w) id →
  id = bookID ∧ allowed_on (w_db w) (principal_User p) bookID (required_level r).
Proof.
  intros w' Hch.
  destruct (wp_run (F:=true) (λ _ d' _, guarded_by (w_db w) (principal_User p) bookID (required_level r) d')
              (serve_book bookID c p r) w I (guarded_serve _ _ _ _ _ _)) as [Hsame|[Hall Honly]]; [by destruct Hch|].
  split; [|done]. destruct (decide (id = bookID)) as [|Hne]; [done|]. by destruct Hch; apply Honly.
Qed.
End Guard.

(** ** Pages *)

Section Pages.
Context {A : Type}.
Implicit Types l : list A.

(** The k-th page, from 0, of a client that asks for pages of [size]. *)
Definition page_at (k size : nat) l : list A := take size (drop (k * size) l).

Lemma clientPageBounds_page (current pageSize : string) (k size : nat) l :
  Atoi current = Some (Z.of_nat k + 1) → Atoi pageSize = Some (Z.of_nat size) → (1 ≤ size ≤ 1000)%nat →
  ∃ b, clientPageBounds (Some current) (Some pageSize) (length l) = Some b ∧ page b l = page_at k size l.
Proof.
  intros Hk Hs Hsize. unfold clientPageBounds, page_at. cbn [from_option]. change (id current) with current. change (id pageSize) with pageSize. rewrite Hk, Hs.
  destruct (_ || _) eqn:Hb; [simplify_bool; destruct Hb as [Hb|Hb]; simplify_bool; [destruct Hb; simplify_bool|]; lia|].
  replace (Z.of_nat k + 1 - 1) with (Z.of_nat k) by lia.
  destruct (Z.ltb_spec (Z.of_nat (length l) / Z.of_nat size) (Z.of_nat k)) as [Hlt|Hge]; eexists; (split; [reflexivity|]); unfold page; cbn.
  - assert (length l ≤ k * size)%nat.
    { pose proof (Z.mul_succ_div_gt (Z.of_nat (length l)) (Z.of_nat size) ltac:(lia)). nia. }
    rewrite !drop_ge by lia. by rewrite !take_nil.
  - assert (Hst : Z.to_nat (Z.of_nat k * Z.of_nat size) = (k * size)%nat) by lia. rewrite Hst.
    assert (Hlen : (k * size ≤ length l)%nat).
    { pose proof (Z.mul_div_le (Z.of_nat (length l)) (Z.of_nat size) ltac:(lia)). nia. }
    destruct (decide (k * size + size ≤ length l)%nat) as [Hfit|Hfit].
    + f_equal. lia.
    + rewrite !take_ge; [done| |]; rewrite length_drop; lia.
Qed.

Lemma concat_pages (size n : nat) l : concat ((λ k, page_at k size l) <$> seq 0 n) = take (n * size) l.
Proof.
  induction n as [|n IH]; [done|]. rewrite seq_S, fmap_app, concat_app, IH. cbn [fmap list_fmap concat app].
  rewrite app_nil_r. unfold page_at. rewrite take_take_drop. f_equal. lia.
Qed.

(** pagination loses nothing: the pages of a list are never longer than the
    size asked for, and together, in order, they are the whole list. *)
Theorem pages_cover (current : nat → string) (pageSize : string) (size n : nat) l :
  (∀ k, (k < n)%nat → Atoi (current k) = Some (Z.of_nat k + 1)) → Atoi pageSize = Some (Z.of_nat size) →
  (1 ≤ size ≤ 1000)%nat → (length l ≤ n * size)%nat →
  ∃ pages : nat → list A,
    (∀ k, (k < n)%nat → ∃ b, clientPageBounds (Some (current k)) (Some pageSize) (length l) = Some b ∧ page b l = pages k)
    ∧ (∀ k, (length (pages k) ≤ size)%nat)
    ∧ concat (pages <$> seq 0 n) = l.
Proof.
  intros Hcur Hsize Hb Hn. exists (λ k, page_at k size l). split_and!.
  - intros k Hk. by apply clientPageBounds_page; [apply Hcur| |].
  - intros k. unfold page_at. rewrite length_take. lia.
  - rewrite concat_pages. by apply take_ge.
Qed.
End Pages.

Definition ex_page_numbers (k : nat) : string := nth k ["1"; "2"; "3"] "".

Lemma pages_cover_witness :
  Atoi (ex_page_numbers 2) = Some 3 ∧ Atoi "2" = Some 2
  ∧ ∃ pages : nat → list nat,
      (∀ k, (k < 3)%nat → ∃ b, clientPageBounds (Some (ex_page_numbers k)) (Some "2") 5 = Some b
                              ∧ page b [10; 11; 12; 13; 14]%nat = pages k)
      ∧ (∀ k, (length (pages k) ≤ 2)%nat)
      ∧ concat (pages <$> seq 0 3) = [10; 11; 12; 13; 14]%nat.
Proof.
  split; [reflexivity|]. split; [reflexivity|].
  apply (pages_cover ex_page_numbers "2" 2 3 [10; 11; 12; 13; 14]%nat); [|reflexivity|lia|cbn; lia].
  intros [|[|[|k]]] Hk; [reflexivity|reflexivity|reflexivity|lia].
Defined.

(** Alice, who owns "team" and shares it for reading, adds a tag to it; nothing
    else changes, and the theorem names her access. *)
Definition ex_book_call : Call := mkCall second (λ _, mkStamp "e1" "e1" second) (mkEntropy "" "" "" None 1).
Definition ex_alice_principal : Principal :=
  mkPrincipal ex_alice (ex_session "s1" "u1") (mkClaims "" "" "" "" 0 "" "" "" [] None None).

Lemma book_change_guarded_witness :
  let w' := (@serve_book ascii_unicode "b2" ex_book_call ex_alice_principal (AskAddTag "t1" (Some ("work", 7))) ex_books_world).2 in
  contents (w_db w') "b2" ≠ contents (w_db ex_books_world) "b2"
  ∧ "b2" = "b2" ∧ allowed_on ex_books ex_alice "b2" PermissionWrite.
Proof.
  assert (Hch : contents (w_db (@serve_book ascii_unicode "b2" ex_book_call ex_alice_principal
      (AskAddTag "t1" (Some ("work", 7))) ex_books_world).2) "b2" ≠ contents (w_db ex_books_world) "b2").
  { intros Heq. apply (f_equal (λ c, length c.1.2)) in Heq. vm_compute in Heq. discriminate Heq. }
  split; [exact Hch|].
  exact (@book_change_guarded ascii_unicode "b2" ex_book_call ex_alice_principal (AskAddTag "t1" (Some ("work", 7))) ex_books_world "b2" Hch).
Defined.
