(* ===== verification/Presence.v ===== *)
(** * Presence of accounts (art-api/internal/presence/service.go)

    Which accounts are at work: derived from the live sessions and the time each
    was last seen.  The map [byUser] is a list of sessions per account, in the
    order of the sessions. *)

From S2P Require Export Http.
From S2P Require Import Sample.

Definition OnlineTTL : duration := 3 * minute.
Definition IdleTTL : duration := 15 * minute.

Record UserPresence := mkUserPresence {
  presence_UserID : string; presence_Username : string; presence_DisplayName : string; presence_State : string;
  presence_LastSeenAt : time; presence_ClientDeviceID : string; presence_ActiveDevices : Z }.

Record Snapshot := mkSnapshot {
  snapshot_Online : Z; snapshot_Idle : Z; snapshot_Offline : Z; snapshot_Users : list UserPresence }.

Definition live_session (now : time) (s : Session) : bool :=
  bool_decide (session_RevokedAt s = None) && (now <? session_ExpiresAt s).

(** The session that was seen last; the first of them at one time. *)
Definition latest (sessions : list Session) : time * string :=
  foldl (λ seen s, if seen.1 <? session_LastSeenAt s then (session_LastSeenAt s, session_ClientDeviceID s) else seen)
    (zero_time, "") sessions.

Definition user_presence (sessions : list Session) (now : time) (user : User) : UserPresence :=
  let value state seen device count :=
    mkUserPresence (user_ID user) (user_Username user) (user_DisplayName user) state seen device count in
  if negb (user_Enabled user) then value "disabled" zero_time "" 0
  else if negb (bool_decide (user_ApprovalStatus user = ApprovalApproved)) then value "pending" zero_time "" 0
  else
    let mine := filter (λ s, Is_true (live_session now s) ∧ session_UserID s = user_ID user) sessions in
    let '(seen, device) := latest mine in
    let devices := list_to_set (C := gset string) (filter (λ d, d ≠ "") (session_ClientDeviceID <$> mine)) in
    let age := Sub now seen in
    let state := if negb (seen =? zero_time) && (age <=? OnlineTTL) then "online"
                 else if negb (seen =? zero_time) && (age <=? IdleTTL) then "idle" else "offline" in
    value state seen device (Z.of_nat (size devices)).

Definition state_rank (state : string) : Z :=
  if bool_decide (state = "online") then 0 else if bool_decide (state = "idle") then 1
  else if bool_decide (state = "offline") then 2 else if bool_decide (state = "pending") then 3
  else if bool_decide (state = "disabled") then 4 else 0.

Definition presence_less (a b : UserPresence) : bool :=
  if negb (state_rank (presence_State a) =? state_rank (presence_State b))
  then state_rank (presence_State a) <? state_rank (presence_State b)
  else presence_LastSeenAt b <? presence_LastSeenAt a.

Definition count_state (state : string) (values : list UserPresence) : Z :=
  Z.of_nat (length (filter (λ v, presence_State v = state) values)).

Definition Calculate (users : list User) (sessions : list Session) (now : time) : Snapshot :=
  let values := user_presence sessions now <$> users in
  mkSnapshot (count_state "online" values) (count_state "idle" values) (count_state "offline" values)
    (SliceStable presence_less values).

Definition userPresence (c : Call) : M (Reply Snapshot) :=
  found ← try (ListAuthState (call_now c));
  ret (match found with
       | Err _ => writeError 500 "user presence unavailable"
       | Ok (users, sessions) => writeJSON 200 (Calculate users sessions (call_now c))
       end).

(** ** What a state means *)

Section Meaning.
Implicit Types (sessions : list Session) (u : User).

Lemma latest_spec sessions :
  (∀ s, s ∈ sessions → session_LastSeenAt s ≤ (latest sessions).1)
  ∧ ((latest sessions).1 = zero_time ∨ ∃ s, s ∈ sessions ∧ session_LastSeenAt s = (latest sessions).1)
  ∧ zero_time ≤ (latest sessions).1.
Proof.
  unfold latest. induction sessions as [|x l IH] using rev_ind; [split_and!; [set_solver|by left|done]|].
  rewrite foldl_app. cbn. set (seen := foldl _ _ l) in *. destruct IH as (Hmax & Hin & Hzero).
  destruct (Z.ltb_spec seen.1 (session_LastSeenAt x)); cbn; split_and!; try lia.
  - intros s [Hs|Hs]%elem_of_app; [specialize (Hmax s Hs); lia|]. assert (s = x) as -> by set_solver. lia.
  - right. exists x. split; [set_solver|done].
  - intros s [Hs|Hs]%elem_of_app; [by apply Hmax|]. assert (s = x) as -> by set_solver. done.
  - destruct Hin as [Hin|(s & Hs & Heq)]; [by left|right]. exists s. split; [set_solver|done].
Qed.

(** A live session of [u] that was seen in the last [ttl]. *)
Definition seen_within (sessions : list Session) (now : time) u (ttl : duration) : Prop :=
  ∃ s, s ∈ sessions ∧ live_session now s = true ∧ session_UserID s = user_ID u
       ∧ zero_time < session_LastSeenAt s ∧ Sub now (session_LastSeenAt s) ≤ ttl.

Lemma Sub_antitone now a b : a ≤ b → Sub now b ≤ Sub now a.
Proof. unfold Sub. intros. lia. Qed.

Lemma seen_recently sessions now u ttl :
  let seen := (latest (filter (λ s, Is_true (live_session now s) ∧ session_UserID s = user_ID u) sessions)).1 in
  negb (seen =? zero_time) && (Sub now seen <=? ttl) = true ↔ seen_within sessions now u ttl.
Proof.
  intros seen. unfold seen. set (mine := filter _ sessions). destruct (latest_spec mine) as (Hmax & Hin & Hzero).
  assert (Hmine : ∀ s, s ∈ mine ↔ live_session now s = true ∧ session_UserID s = user_ID u ∧ s ∈ sessions).
  { intros s. unfold mine. rewrite list_elem_of_filter, Is_true_true. tauto. }
  rewrite andb_true_iff, negb_true_iff, Z.eqb_neq, Z.leb_le. split.
  - intros [Hne Hage]. destruct Hin as [?|(s & Hs & Heq)]; [done|]. exists s.
    apply Hmine in Hs as (? & ? & ?). split_and!; [done..|lia|rewrite Heq; exact Hage].
  - intros (s & Hs & Hlive & Hu & Hpos & Hage). specialize (Hmax s (proj2 (Hmine s) (conj Hlive (conj Hu Hs)))).
    split; [lia|]. etrans; [exact (Sub_antitone now _ _ Hmax)|exact Hage].
Qed.

(** The state an account should have. *)
Definition presence_state (sessions : list Session) (now : time) u (state : string) : Prop :=
  if negb (user_Enabled u) then state = "disabled"
  else if negb (bool_decide (user_ApprovalStatus u = ApprovalApproved)) then state = "pending"
  else (state = "online" ∧ seen_within sessions now u OnlineTTL)
       ∨ (state = "idle" ∧ ¬ seen_within sessions now u OnlineTTL ∧ seen_within sessions now u IdleTTL)
       ∨ (state = "offline" ∧ ¬ seen_within sessions now u IdleTTL).

(** the presence of accounts: the snapshot lists every account once, with
    the state its enabled flag, its approval and the live sessions seen in the
    last three or fifteen minutes determine, ordered from online to disabled; and
    its three counts are the numbers of accounts listed as online, idle and
    offline. *)
Theorem Calculate_states users sessions now :
  let result := Calculate users sessions now in
  snapshot_Users result ≡ₚ (user_presence sessions now <$> users)
  ∧ (∀ u, presence_state sessions now u (presence_State (user_presence sessions now u)))
  ∧ StronglySorted (λ a b, state_rank (presence_State a) ≤ state_rank (presence_State b)) (snapshot_Users result)
  ∧ snapshot_Online result = count_state "online" (snapshot_Users result)
  ∧ snapshot_Idle result = count_state "idle" (snapshot_Users result)
  ∧ snapshot_Offline result = count_state "offline" (snapshot_Users result).
Proof.
  intros result. assert (Hperm : snapshot_Users result ≡ₚ (user_presence sessions now <$> users)) by apply SliceStable_perm.
  split_and!; [done| | |unfold count_state; by rewrite Hperm..].
  - intros u. unfold presence_state, user_presence. destruct (negb (user_Enabled u)); [done|].
    destruct (negb (bool_decide _)); [done|]. pose proof (seen_recently sessions now u OnlineTTL) as Hon.
    pose proof (seen_recently sessions now u IdleTTL) as Hidle. cbv zeta in Hon, Hidle. cbv zeta.
    destruct (latest _) as [seen device]. cbn [fst] in Hon, Hidle. cbn [presence_State].
    destruct (negb (seen =? zero_time) && (Sub now seen <=? OnlineTTL)); [left; split; [done|by apply Hon]|right].
    destruct (negb (seen =? zero_time) && (Sub now seen <=? IdleTTL)); [left|right]; split_and?; try done.
    + by intros ?%Hon.
    + by apply Hidle.
    + by intros ?%Hidle.
  - eapply StronglySorted_weaken; [|apply SliceStable_sorted].
    + intros a b. unfold before, presence_less.
      destruct (Z.eqb_spec (state_rank (presence_State b)) (state_rank (presence_State a))); cbn; lia.
    + intros x y. unfold presence_less.
      destruct (Z.eqb_spec (state_rank (presence_State x)) (state_rank (presence_State y))),
        (Z.eqb_spec (state_rank (presence_State y)) (state_rank (presence_State x))); cbn; lia.
    + intros x y z. unfold presence_less.
      destruct (Z.eqb_spec (state_rank (presence_State x)) (state_rank (presence_State y))),
        (Z.eqb_spec (state_rank (presence_State y)) (state_rank (presence_State z))),
        (Z.eqb_spec (state_rank (presence_State x)) (state_rank (presence_State z))); cbn; lia.
Qed.
End Meaning.
