(* ===== verification/LiveConnections.v ===== *)
(** * Live connections (art-api/internal/connections/service.go, httpapi/live_connections.go,
    httpapi/client_audit.go, [connectionAudit] of httpapi/server.go)

    Clients and relays report their connections; the API keeps a record of each,
    shows which are alive and can contain one.  [fmt.Sprint] of a value that is
    neither a string nor a boolean and the conversion of a number to an integer
    are parameters, as is the result of the order-insensitive [sort.Slice]. *)

From S2P Require Export RelayApi Inventory.
From S2P Require Import Sample Text Keeps.

(** [Sprint] of the other values (a nil counts as empty text), [int(value)], and
    [strconv.FormatFloat(x, 'f', -1, 64)]. *)
Class Fmt := {
  sprint : any → string;
  int_of : any → Z;
  FormatFloat : Z → string
}.

Definition StaleAfter : duration := 10 * minute.

(** ** The view (connections/service.go) *)

Record LiveRecord := mkLiveRecord {
  live_Key : string; live_Status : string; live_ActorUserID : string; live_ActorSessionID : string;
  live_ControllerDevice : string; live_ControllerName : string; live_ControllerLogin : string; live_TargetID : string;
  live_ConnectionType : Z; live_IP : string; live_Transport : string; live_RelayUUID : string; live_RelayServer : string;
  live_StartedAt : time; live_LastSeenAt : time; live_ClosedAt : option time; live_DurationSeconds : Z;
  live_Metadata : gmap string any }.
#[export] Instance eta_LiveRecord : Eta LiveRecord := λ r,
  mkLiveRecord (live_Key r) (live_Status r) (live_ActorUserID r) (live_ActorSessionID r) (live_ControllerDevice r)
    (live_ControllerName r) (live_ControllerLogin r) (live_TargetID r) (live_ConnectionType r) (live_IP r)
    (live_Transport r) (live_RelayUUID r) (live_RelayServer r) (live_StartedAt r) (live_LastSeenAt r) (live_ClosedAt r)
    (live_DurationSeconds r) (live_Metadata r).

Record LiveSnapshot := mkLiveSnapshot { live_Active : Z; live_Stale : Z; live_Closed : Z; live_Items : list LiveRecord }.

Section View.
Context `{Unicode} `{Fmt}.

Definition Sprint (v : any) : string :=
  match v with
  | VString s => s
  | VBool b => if b then "true" else "false"
  | _ => sprint v
  end.

(** The first key with a text that is not blank. *)
Fixpoint stringValue (values : gmap string any) (keys : list string) : string :=
  match keys with
  | [] => ""
  | key :: rest =>
      match values !! key with
      | Some value => let text := TrimSpace (Sprint value) in
                      if bool_decide (text = "") then stringValue values rest else text
      | None => stringValue values rest
      end
  end.

Definition intValue (values : gmap string any) (key : string) : Z :=
  match values !! key with
  | Some (VString _) | Some (VBool _) | None => 0
  | Some v => int_of v
  end.

Definition eventKey (event : AuditEvent) : string :=
  audit_TargetRustDeskID event +:+ ":" +:+ audit_ControllerDevice event +:+ ":"
    +:+ stringValue (audit_Metadata event) ["connection_id"] +:+ ":" +:+ stringValue (audit_Metadata event) ["session_id"].

(** The body of the loop over the events. *)
Definition build_event (items : gmap string LiveRecord) (event : AuditEvent) : gmap string LiveRecord :=
  let type := audit_Type event in
  if negb (bool_decide (type ∈ ["connection_started"; "connection_updated"; "connection_closed"])) then items else
  let at_ := audit_OccurredAt event in
  let key := eventKey event in
  let value := default (mkLiveRecord key "active" "" "" "" "" "" (audit_TargetRustDeskID event) 0 "" "" "" "" at_ at_ None 0
                          (audit_Metadata event)) (items !! key) in
  let value := if bool_decide (type = "connection_started")
               then value <| live_StartedAt := at_ |> <| live_ClosedAt := None |> <| live_Status := "active" |> else value in
  let value := if live_LastSeenAt value <? at_ then value <| live_LastSeenAt := at_ |> else value in
  let value := if bool_decide (live_ActorUserID value = "")
               then value <| live_ActorUserID := audit_ActorUserID event |> <| live_ActorSessionID := audit_ActorSessionID event |>
               else value in
  let value := if bool_decide (live_ControllerDevice value = "")
               then value <| live_ControllerDevice := audit_ControllerDevice event |> else value in
  let value := if bool_decide (live_IP value = "") then value <| live_IP := audit_IP event |> else value in
  let name := stringValue (audit_Metadata event) ["controller_display_name"; "controller_name"] in
  let value := if bool_decide (name = "") then value else value <| live_ControllerName := name |> in
  let login := stringValue (audit_Metadata event) ["controller_login"] in
  let value := if bool_decide (login = "") then value else value <| live_ControllerLogin := login |> in
  let type_of := intValue (audit_Metadata event) "connection_type" in
  let value := if negb (type_of =? 0) || (live_ConnectionType value =? 0)
               then value <| live_ConnectionType := type_of |> else value in
  let value := if bool_decide (type = "connection_closed")
                  && match live_ClosedAt value with None => true | Some closed => closed <? at_ end
               then value <| live_ClosedAt := Some at_ |> <| live_Status := "closed" |> else value in
  <[key := value]> items.

(** [max(0, int64(end.Sub(start).Seconds()))] *)
Definition duration_seconds (start end_ : time) : Z := Z.max 0 (Z.quot (Sub end_ start) second).

Definition finalize_one (now : time) (value : LiveRecord) : LiveRecord :=
  let value := match live_ClosedAt value with
               | None => if StaleAfter <? Sub now (live_LastSeenAt value) then value <| live_Status := "stale" |> else value
               | Some _ => value
               end in
  value <| live_DurationSeconds := duration_seconds (live_StartedAt value) (default now (live_ClosedAt value)) |>.

Definition stale (now : time) (value : LiveRecord) : bool :=
  bool_decide (live_ClosedAt value = None) && (StaleAfter <? Sub now (live_LastSeenAt value)).

(** [sort] is [sort.Slice] by [LastSeenAt], latest first. *)
Definition finalize (sort : list LiveRecord → list LiveRecord) (values : list LiveRecord) (now : time) : LiveSnapshot :=
  let count (P : LiveRecord → bool) := Z.of_nat (length (filter (λ v, Is_true (P v)) values)) in
  mkLiveSnapshot
    (count (λ v, bool_decide (live_ClosedAt v = None) && negb (stale now v))) (count (stale now))
    (count (λ v, negb (bool_decide (live_ClosedAt v = None)))) (sort (finalize_one now <$> values)).

(** [range]: the order in which the map of records is ranged over. *)
Definition Build (sort : list LiveRecord → list LiveRecord) (range : gmap string LiveRecord → list LiveRecord)
    (events : list AuditEvent) (now : time) : LiveSnapshot :=
  let events := SliceStable (λ a b, audit_OccurredAt a <? audit_OccurredAt b) events in
  finalize sort (range (foldl build_event ∅ events)) now.

Definition live_record (value : ConnectionRecord) : LiveRecord :=
  mkLiveRecord (conn_Key value) "" (conn_ActorUserID value) (conn_ActorSessionID value) (conn_ControllerDevice value)
    (conn_ControllerName value) (conn_ControllerLogin value) (conn_TargetRustDeskID value) (conn_ConnectionType value)
    (conn_IP value) (conn_Transport value) (conn_RelayUUID value) (conn_RelayServer value) (conn_StartedAt value)
    (conn_LastSeenAt value) (conn_ClosedAt value) 0 ∅.

Definition BuildRecords (sort : list LiveRecord → list LiveRecord) (records : list ConnectionRecord) (now : time)
    : LiveSnapshot :=
  finalize sort (live_record <$> records) now.
End View.

(** ** Reports of clients and relays *)

(** The actor of a controlling device goes into the event. *)
Definition with_actor (event : AuditEvent) (device : string) (now : time) : M AuditEvent :=
  if bool_decide (device = "") then ret event else
  actor ← try (AuditActorByDevice device now);
  ret (match actor with
       | Ok (userID, sessionID, username, displayName) =>
           event <| audit_ActorUserID := userID |> <| audit_ActorSessionID := sessionID |>
             <| audit_Metadata := <["controller_display_name" := VString (firstNonEmpty [displayName; username])]>
                                    (<["controller_login" := VString username]> (audit_Metadata event)) |>
       | Err _ => event
       end).

(** The names of the target device go into the event. *)
Definition with_target (event : AuditEvent) (device : string) : M AuditEvent :=
  label ← try (DeviceAuditLabel device);
  ret (match label with
       | Ok (hostname, alias) =>
           event <| audit_Metadata := <["target_alias" := VString alias]>
                                        (<["target_hostname" := VString hostname]> (audit_Metadata event)) |>
       | Err _ => event
       end).

Record clientConnectionAuditRequest := mkClientConnectionAuditRequest {
  cca_Action : string; cca_ConnectionID : Z; cca_ID : string; cca_Peer : list string; cca_SessionID : Z;
  cca_Type : Z; cca_UUID : string }.

Record clientFileAuditRequest := mkClientFileAuditRequest {
  cfa_ID : string; cfa_Info : string; cfa_IsFile : bool; cfa_Path : string; cfa_PeerID : string; cfa_Type : Z;
  cfa_UUID : string }.

Section Reports.
Context `{Unicode} `{SqlText} `{Fmt}.
Context (ttl : duration).

Definition stringMetadata (values : gmap string any) (key : string) : string :=
  match values !! key with Some (VString s) => TrimSpace s | _ => "" end.

Definition validAuditDevice (now : time) (id clientUUID : string) : M bool :=
  found ← try (inventoryDevice ttl now id clientUUID);
  ret (match found with Ok (Some _, mismatch) => negb mismatch | _ => false end).

Definition persistClientConnection (input : clientConnectionAuditRequest) (event : AuditEvent) (eventType : string)
    (clock : time) : M unit :=
  let now := if audit_OccurredAt event =? zero_time then clock else audit_OccurredAt event in
  let key := cca_ID input +:+ ":" +:+ audit_ControllerDevice event +:+ ":" +:+ Itoa (cca_ConnectionID input)
               +:+ ":" +:+ FormatFloat (cca_SessionID input) in
  discard (try (UpsertConnection (mkConnectionRecord key (audit_ActorUserID event) (audit_ActorSessionID event)
    (audit_ControllerDevice event)
    (firstNonEmpty [stringMetadata (audit_Metadata event) "controller_display_name";
                    stringMetadata (audit_Metadata event) "controller_name"])
    (stringMetadata (audit_Metadata event) "controller_login") (cca_ID input) (cca_Type input) (audit_IP event) "" "" ""
    now now (if bool_decide (eventType = "connection_closed") then Some now else None)))).

Definition clientConnectionAudit (req : Request) (c : Call) (body : option clientConnectionAuditRequest)
    : M (Reply unit) :=
  match body with
  | None => ret (writeError 400 "invalid connection audit")
  | Some input =>
      if negb (validInventoryIdentity (cca_ID input) (cca_UUID input))
         || negb (bool_decide (cca_Action input ∈ [""; "new"; "close"])) || (2 <? Z.of_nat (length (cca_Peer input)))
      then ret (writeError 400 "invalid connection audit") else
      known ← validAuditDevice (call_now c) (cca_ID input) (cca_UUID input);
      if negb known then ret (writeError 403 "device identity mismatch") else
      let fromPeer := default "" (TrimSpace <$> (cca_Peer input !! 0%nat)) in
      let fromName := default "" (TrimSpace <$> (cca_Peer input !! 1%nat)) in
      let eventType := if bool_decide (cca_Action input = "new") then "connection_started"
                       else if bool_decide (cca_Action input = "close") then "connection_closed"
                       else "connection_updated" in
      event ← with_actor (mkAuditEvent "" zero_time eventType "" "" fromPeer (cca_ID input) (request_IP req) "success" ""
        {["connection_id" := VOther; "session_id" := VString (FormatFloat (cca_SessionID input));
          "connection_type" := VOther; "controller_name" := VString fromName]}) fromPeer (call_now c);
      audited ← try (Audit_Record event (call_stamp c 0));
      if negb (is_ok audited) then ret (writeError 500 "connection audit unavailable") else
      persistClientConnection input event eventType (call_now c);;
      ret (writeJSON 200 tt)
  end.

Fixpoint take_until {A} (f : A → bool) (l : list A) : list A :=
  match l with [] => [] | x :: l' => if f x then [] else x :: take_until f l' end.

(** [strings.TrimRight(s, "/\\")] and what follows the last of these bytes. *)
Definition separator (a : Ascii.ascii) : bool := (byte a =? 47) || (byte a =? 92).
Definition auditFileName (path : string) : string :=
  let reversed := drop_while separator (rev (bytes_of (TrimSpace path))) in
  of_bytes (rev (take_until separator reversed)).

(** [info]: what [json.Unmarshal] makes of [input.Info], [None] for an error. *)
Definition clientFileAudit (info : string → option any) (req : Request) (c : Call) (body : option clientFileAuditRequest)
    : M (Reply unit) :=
  match body with
  | None => ret (writeError 400 "invalid file audit")
  | Some input =>
      if negb (validInventoryIdentity (cfa_ID input) (cfa_UUID input)) || (4096 <? len (cfa_Path input))
         || (32768 <? len (cfa_Info input)) || (64 <? len (cfa_PeerID input))
      then ret (writeError 400 "invalid file audit") else
      known ← validAuditDevice (call_now c) (cfa_ID input) (cfa_UUID input);
      if negb known then ret (writeError 403 "device identity mismatch") else
      match (if bool_decide (cfa_Info input = "") then Some VOther else info (cfa_Info input)) with
      | None => ret (writeError 400 "invalid file audit info")
      | Some client_info =>
          let peerID := TrimSpace (cfa_PeerID input) in
          let filePath := TrimSpace (cfa_Path input) in
          event ← with_target (mkAuditEvent "" zero_time "file_transfer" "" "" peerID (cfa_ID input) (request_IP req)
            "success" "" {["path" := VString filePath; "file_name" := VString (auditFileName filePath);
              "is_file" := VBool (cfa_IsFile input); "transfer_type" := VOther; "client_info" := client_info]}) (cfa_ID input);
          event ← with_actor event peerID (call_now c);
          audited ← try (Audit_Record event (call_stamp c 0));
          ret (if is_ok audited then writeJSON 200 tt else writeError 500 "file audit unavailable")
      end
  end.

Definition metadataText (metadata : gmap string any) (key : string) : string :=
  match metadata !! key with Some value => TrimSpace (Sprint value) | None => "" end.
Definition metadataInt (metadata : gmap string any) (key : string) : Z := intValue metadata key.

Definition connectionAudit (c : Call) (body : option AuditEvent) : M (Reply unit) :=
  match body with
  | None => ret (writeError 400 "invalid audit event")
  | Some event =>
      if negb (bool_decide (audit_Type event ∈ ["connection_allowed"; "connection_denied"; "connection_relay_assigned"]))
      then ret (writeError 400 "invalid audit event type") else
      user ← (if bool_decide (audit_ActorUserID event = "") then ret (Err ErrNotFound)
              else try (FindUserByID (audit_ActorUserID event)));
      let event := match user with
                   | Ok user => event <| audit_Metadata :=
                       <["controller_display_name" := VString (displayName user)]>
                         (<["controller_login" := VString (user_Username user)]> (audit_Metadata event)) |>
                   | Err _ => event
                   end in
      event ← (if bool_decide (audit_TargetRustDeskID event = "") then ret event
               else with_target event (audit_TargetRustDeskID event));
      audited ← try (Audit_Record event (call_stamp c 0));
      if negb (is_ok audited) then ret (writeError 500 "audit unavailable") else
      let metadata := audit_Metadata event in
      let relayUUID := metadataText metadata "relay_uuid" in
      if bool_decide (audit_Type event = "connection_relay_assigned") && negb (bool_decide (relayUUID = "")) then
        let now := call_now c in
        stored ← try (UpsertConnection (mkConnectionRecord ("relay:" +:+ relayUUID) (audit_ActorUserID event)
          (audit_ActorSessionID event) (audit_ControllerDevice event) (metadataText metadata "controller_display_name")
          (metadataText metadata "controller_login") (audit_TargetRustDeskID event) (metadataInt metadata "connection_type")
          (audit_IP event) "relay" relayUUID (metadataText metadata "relay_server") now now None));
        ret (if is_ok stored then mkReply 202 NoContent else writeError 500 "connection projection unavailable")
      else ret (mkReply 202 NoContent)
  end.

(** ** The console (live_connections.go) *)

Definition liveConnections (sort : list LiveRecord → list LiveRecord) (c : Call) : M (Reply LiveSnapshot) :=
  records ← try (ListConnectionRecords (call_now c - 7 * 24 * hour) 5000);
  ret (match records with
       | Err _ => writeError 500 "connection telemetry unavailable"
       | Ok records => writeJSON 200 (BuildRecords sort records (call_now c))
       end).

(** The body is the UUID and the state. *)
Definition relayConnectionState (c : Call) (body : option (string * string)) : M (Reply string) :=
  match body with
  | None => ret (writeError 400 "invalid relay connection state")
  | Some (uuid, state) =>
      let uuid := TrimSpace uuid in
      let state := TrimSpace state in
      if (len uuid <? 8) || (128 <? len uuid) || negb (bool_decide (state ∈ ["active"; "closed"]))
      then ret (writeError 400 "invalid relay connection state") else
      let now := call_now c in
      found ← try (ConnectionRecord_by ("relay:" +:+ uuid));
      match (match found with
             | Err ErrNotFound => Ok (zero_connection <| conn_Key := "relay:" +:+ uuid |> <| conn_Transport := "relay" |>
                                       <| conn_RelayUUID := uuid |> <| conn_StartedAt := now |> <| conn_LastSeenAt := now |>)
             | _ => found
             end) with
      | Err _ => ret (writeError 500 "connection telemetry unavailable")
      | Ok record =>
          let record := record <| conn_LastSeenAt := now |> in
          let record := if bool_decide (state = "closed") then record <| conn_ClosedAt := Some now |> else record in
          stored ← try (UpsertConnection record);
          ret (if is_ok stored then writeJSON 202 state else writeError 500 "connection telemetry unavailable")
      end
  end.

Inductive containment :=
| AlreadyClosed (connection : ConnectionRecord)
| Contained (transport_interrupted : bool) (transport_status : string) (connection : ConnectionRecord).

(** [command address uuid] is the outcome of [relayCommand] with "terminate". *)
Definition transport_outcome (command : string → string → M string) (record : ConnectionRecord) : M (bool * string) :=
  if bool_decide (conn_Transport record = "relay") && negb (bool_decide (conn_RelayUUID record = ""))
     && negb (bool_decide (conn_RelayServer record = "")) then
    status ← try (command (conn_RelayServer record) (conn_RelayUUID record));
    ret (match status with
         | Ok status => if bool_decide (status = "not_found") then (false, "not_found") else (true, "terminated")
         | Err e => (false, if bool_decide (e = stream_not_found) then "not_found" else "unconfirmed")
         end)
  else ret (false, "not_available").

Definition containLiveConnection (command : string → string → M string) (c : Call) (p : Principal) (body : option string)
    : M (Reply containment) :=
  match body with
  | None => ret (writeError 400 "invalid connection")
  | Some key =>
      let key := TrimSpace key in
      if bool_decide (key = "") || (512 <? len key) then ret (writeError 400 "invalid connection") else
      found ← try (ConnectionRecord_by key);
      match found with
      | Err ErrNotFound => ret (writeError 404 "connection not found")
      | Err _ => ret (writeError 500 "connection control unavailable")
      | Ok record =>
          if negb (bool_decide (conn_ClosedAt record = None)) then ret (writeJSON 200 (AlreadyClosed record)) else
          if bool_decide (conn_ActorSessionID record = "")
          then ret (writeError 409 "connection has no attributable server session") else
          transport ← transport_outcome command record;
          revoked ← try (Auth.RevokeSession (conn_ActorSessionID record) (call_now c));
          if negb (is_ok revoked) && negb (bool_decide (revoked = Err ErrNotFound))
          then ret (writeError 500 "session revoke failed") else
          let now := call_now c in
          let record := record <| conn_LastSeenAt := now |> <| conn_ClosedAt := Some now |> in
          stored ← try (UpsertConnection record);
          if negb (is_ok stored) then ret (writeError 500 "connection state update failed") else
          Http.record c 0 (mkAuditEvent "" zero_time "connection_contained" (user_ID (principal_User p))
            (session_ID (principal_Session p)) (conn_ControllerDevice record) (conn_TargetRustDeskID record) "" "success" ""
            {["connection_key" := VString (conn_Key record); "revoked_session_id" := VString (conn_ActorSessionID record);
              "effect" := VString "new_connections_blocked"; "transport_interrupt" := VString transport.2;
              "relay_uuid" := VString (conn_RelayUUID record); "relay_server" := VString (conn_RelayServer record)]});;
          ret (writeJSON 200 (Contained transport.1 transport.2 record))
      end
  end.
End Reports.

(** ** Containment *)

Section Containment.
Context `{Unicode} `{SqlText}.
Implicit Type d : DB.

Definition session_over (sid : string) d : Prop :=
  ∀ s, s ∈ t_sessions d → session_ID s = sid → session_RevokedAt s ≠ None.
Definition connection_closed (key : string) d : Prop :=
  ∃ r, r ∈ t_connection_records d ∧ conn_Key r = key ∧ conn_ClosedAt r ≠ None.

Lemma RevokeSession_over sid now d h :
  wp true (Auth.RevokeSession sid now) (λ r d' _, r = Ok tt ∨ r = Err ErrNotFound → session_over sid d') d h.
Proof.
  unfold Auth.RevokeSession, StoreSessions.RevokeSession. wp_go; cbn; try (by intros [|]); intros _ s.
  - intros Hs Hid Hnone. by eapply H1.
  - read_tables. intros (s0 & Hs0 & ->)%elem_of_update_where Hid. case_decide as Hc; [done|].
    intros Hnone. by apply Hc.
Qed.

Lemma UpsertConnection_closed value d h :
  conn_ClosedAt value ≠ None →
  wp true (UpsertConnection value)
    (λ r d' _, (is_ok r = true → connection_closed (conn_Key value) d') ∧ t_sessions d' = t_sessions d) d h.
Proof.
  intros Hclosed. unfold UpsertConnection. wp_go; (split; [|by read_tables]); try done.
  intros _. unfold connection_closed. read_tables. case_decide as Hex.
  - apply Exists_exists in Hex as (r & Hr & Hk). eexists. split; [apply elem_of_update_where; exists r; split; [exact Hr|reflexivity]|].
    rewrite decide_True by done. cbn. destruct (conn_ClosedAt value); done.
  - exists (connection_row value). split; [set_solver|]. cbn. by destruct (conn_ClosedAt value).
Qed.

(** C35: containment works: whatever the relays answer and whatever fails, when
    the console is told that a connection is contained, the server session it was
    made with is revoked and the record of the connection is closed. *)
Theorem contained_connection_blocked command c p key w i st rec :
  let after := containLiveConnection command c p (Some key) w in
  after.1 = Ok (writeJSON 200 (Contained i st rec)) →
  session_over (conn_ActorSessionID rec) (w_db after.2) ∧ connection_closed (conn_Key rec) (w_db after.2).
Proof.
  apply (wp_run (F:=true) (λ r d' _, r = Ok (writeJSON 200 (Contained i st rec)) →
    session_over (conn_ActorSessionID rec) d' ∧ connection_closed (conn_Key rec) d')
    (containLiveConnection command c p (Some key)) w I).
  unfold containLiveConnection. cbv beta iota zeta. destruct (_ || _); [by apply wp_ret|].
  apply wp_bind, wp_try. eapply wp_mono; [apply wp_True|]. intros found d h _. cbn.
  destruct found as [r|[]]; try (by apply wp_ret).
  destruct (negb _); [by apply wp_ret|]. destruct (bool_decide _); [by apply wp_ret|].
  apply wp_bind. eapply wp_mono; [apply wp_True|]. intros [transport|e] d1 h1 _; [|done].
  apply wp_bind, wp_try. eapply wp_mono; [apply RevokeSession_over|]. intros revoked d2 h2 Hover. cbn.
  destruct (negb (is_ok revoked) && negb (bool_decide (revoked = Err ErrNotFound))) eqn:Hr; [by apply wp_ret|].
  apply wp_bind, wp_try. eapply wp_mono; [by apply UpsertConnection_closed|]. intros stored d3 h3 [Hclosed Hs]. cbn.
  destruct (is_ok stored); cbn; [|by apply wp_ret].
  set (J := λ d, session_over (conn_ActorSessionID r) d ∧ connection_closed (conn_Key r) d).
  assert (HJ : J d3).
  { split; [|by apply Hclosed]. unfold session_over. rewrite Hs. apply Hover. destruct revoked as [[]|e]; [by left|right].
    cbn in Hr. apply negb_false_iff, bool_decide_eq_true in Hr. done. }
  apply wp_bind. eapply wp_mono.
  - apply (keeps_discard J); [|exact HJ]. apply keeps_try, keeps_audit. intros da db (t1 & t2 & ->). done.
  - intros [|] d4 h4 HJ4; [|done]. apply wp_ret. intros [= <- <- <-]. exact HJ4.
Qed.
End Containment.

(** ** The statuses the console shows *)

Section Statuses.
Context (sort : list LiveRecord → list LiveRecord) (Hsort : ∀ l, sort l ≡ₚ l).

(** The items of the snapshot are the records; the console shows the connections
    whose status is "active", but only a stale one gets a status here. *)
Theorem stored_connection_without_status records now item :
  item ∈ live_Items (BuildRecords sort records now) → live_Status item ≠ "stale" → live_Status item = "".
Proof.
  unfold BuildRecords, finalize. cbn [live_Items]. rewrite Hsort.
  intros (v & -> & (r & -> & _)%list_elem_of_fmap)%list_elem_of_fmap. unfold finalize_one. cbn.
  destruct (conn_ClosedAt r); [done|]. by destruct (_ <? _).
Qed.
End Statuses.

Lemma stored_connection_without_status_witness :
  let now := 20 * minute in
  let record := mkConnectionRecord "k" "" "s1" "" "" "" "d1" 0 "" "" "" "" 0 (15 * minute) None in
  let snapshot := BuildRecords (SliceStable (λ a b, live_LastSeenAt b <? live_LastSeenAt a)) [record] now in
  live_Active snapshot = 1 ∧ Forall (λ item, live_Status item = "") (live_Items snapshot).
Proof.
  cbv zeta. split; [vm_compute; reflexivity|]. apply Forall_forall. intros item Hitem.
  refine (stored_connection_without_status _ (SliceStable_perm _) _ _ item Hitem _).
  vm_compute in Hitem. apply elem_of_cons in Hitem as [->|Hitem]; [discriminate|by apply not_elem_of_nil in Hitem].
Defined.

(** A connection of bob is contained: his session ends. *)
Definition ex_live : world :=
  mkWorld (ex_accounts <| t_connection_records :=
    [mkConnectionRecord "k" "u2" "s2" "" "" "" "d1" 0 "" "relay" "uuid-0001" "r1:21117" 0 0 None] |>) [] (NewHub "src").
Definition ex_contain (w : world) : res (Reply containment) * world :=
  @containLiveConnection ascii_unicode (λ _ _, ret "terminated") (mkCall second (λ _, mkStamp "e1" "e1" second) (mkEntropy "" "" "" None 1))
    (mkPrincipal (ex_user "u0" "root" RoleAdmin) (ex_session "s1" "u0") (mkClaims "" "" "" "" 0 "" "" "" [] None None)) (Some "k") w.

Definition ex_contained : ConnectionRecord :=
  mkConnectionRecord "k" "u2" "s2" "" "" "" "d1" 0 "" "relay" "uuid-0001" "r1:21117" 0 second (Some second).

Lemma contained_connection_blocked_witness :
  session_over "s2" (w_db (ex_contain ex_live).2) ∧ connection_closed "k" (w_db (ex_contain ex_live).2).
Proof.
  refine (@contained_connection_blocked ascii_unicode _ _ _ "k" ex_live true "terminated" ex_contained _).
  vm_compute. reflexivity.
Defined.
