(* ===== verification/Login.v ===== *)
(** * Signing in over HTTP (art-api/internal/httpapi: server.go, mfa.go)

    The login handler with its rate limits, the challenge of the second factor,
    and the handlers of the signed-in account: its sessions and its second
    factor.  The limiter of the process is passed in and out.  Reply headers are
    left out. *)

From S2P Require Export Inventory Lockout.
From S2P Require Import Sample.

Record deviceInfo := mkDeviceInfo { info_OS : string; info_Type : string; info_Name : string }.

Record loginRequest := mkLoginRequest {
  lr_Username : string; lr_Password : string; lr_ID : string; lr_UUID : string; lr_Type : string;
  lr_AutoLogin : bool; lr_DeviceInfo : deviceInfo; lr_VerificationCode : string;
  lr_ClientVerificationCode : string; lr_TFACode : string; lr_Secret : string }.

#[export] Instance eta_loginRequest : Eta loginRequest := λ r,
  mkLoginRequest (lr_Username r) (lr_Password r) (lr_ID r) (lr_UUID r) (lr_Type r) (lr_AutoLogin r)
    (lr_DeviceInfo r) (lr_VerificationCode r) (lr_ClientVerificationCode r) (lr_TFACode r) (lr_Secret r).

(** The objects the handler answers with. *)
Inductive login_body :=
| SignedIn (token : string) (expires_at : option time) (user : ClientUser)
| Challenged (secret : string) (user : ClientUser)       (* "email_check" with an empty token *)
| InvalidCode (secret : string)
| EnrollmentRequired
| TwoFactorRequired.

(** What the handler draws besides a [Call]: the identifiers of a challenge and
    of a failed attempt, the lockout settings of the environment and the time
    after which a silent device is offline. *)
Record LoginDraws := mkLoginDraws {
  draw_challenge : string; draw_attempt : string; draw_lockout : lockout_settings; draw_offline : duration }.

Section Login.
Context `{Unicode} `{Argon2} `{Jwt} `{Aead}.
Context (s : Server) (req : Request) (c : Call) (x : LoginDraws).

Let now : time := call_now c.
Let ip : string := request_IP req.

Definition denied (index : nat) (actor reason : string) (metadata : gmap string any) : M unit :=
  record c index (audit_event "login_failed" actor "" ip "denied" reason metadata).

Definition account_failure (username : string) : M unit :=
  accountLoginFailure (draw_lockout x) (draw_attempt x) username now.

(** The normalisation of the input before any check. *)
Definition normalized (input : loginRequest) : loginRequest :=
  let input := input <| lr_Username := TrimSpace (ToLower (lr_Username input)) |> in
  let input := if bool_decide (lr_Type input = "email_code") && negb (bool_decide (lr_Secret input = ""))
                  && negb (bool_decide (lr_TFACode input = ""))
               then input <| lr_Type := "tfa_code" |> else input in
  if bool_decide (lr_VerificationCode input = "")
  then input <| lr_VerificationCode := lr_ClientVerificationCode input |> else input.

(** A step of the handler answers, or goes on with a value. *)
Definition answer : Type := Reply login_body * LoginLimiter.
Definition stop {A} (r : Reply login_body) (l : LoginLimiter) : M (answer + A) := ret (inl (r, l)).

(** The branch for [tfa_code]: the account of the challenge, whether a recovery
    code was used, and the input with the device of the challenge. *)
Definition login_challenge (l : LoginLimiter) (input : loginRequest)
    : M (answer + (User * bool * loginRequest)) :=
  if (len (lr_Secret input) <? 16) || (128 <? len (lr_Secret input))
     || (len (lr_TFACode input) <? 6) || (32 <? len (lr_TFACode input))
  then stop (writeError 400 "invalid request") (Failure l ip now) else
  challenge ← try (FindAuthChallenge (lr_Secret input) now);
  match challenge with
  | Err _ => stop (writeError 401 "two-factor challenge expired") (Failure l ip now)
  | Ok challenge =>
      found ← try (FindUserByID (challenge_UserID challenge));
      match found with
      | Err _ => stop (writeError 401 "two-factor challenge expired") l
      | Ok user =>
          if negb (user_Enabled user) || negb (user_TokenVersion user =? challenge_TokenVersion challenge)
          then stop (writeError 401 "two-factor challenge expired") l else
          verified ← try (Verify (server_mfa s) user (lr_TFACode input) now);
          match verified with
          | Err _ => stop (writeError 500 "two-factor verification failed") l
          | Ok (false, _) =>
              account_failure (user_Username user);;
              denied 0 (user_ID user) "invalid_mfa" ∅;;
              stop (writeJSON 401 (InvalidCode (lr_Secret input))) (Failure l ip now)
          | Ok (true, recoveryUsed) =>
              consumed ← try (ConsumeAuthChallenge (lr_Secret input) now);
              if negb (is_ok consumed) then stop (writeError 401 "two-factor challenge already used") l else
              ret (inr (user, recoveryUsed,
                input <| lr_ID := challenge_RustDeskID challenge |> <| lr_UUID := challenge_ClientUUID challenge |>
                      <| lr_DeviceInfo := mkDeviceInfo (challenge_Platform challenge) (challenge_ClientType challenge)
                                            (challenge_DeviceName challenge) |>
                      <| lr_Username := user_Username user |>))
          end
      end
  end.

(** The refusal of bad credentials. *)
Definition refuse_credentials (l : LoginLimiter) (input : loginRequest) (e : error) : M answer :=
  account_failure (lr_Username input);;
  let '(reason, status, message) :=
    match e with
    | ErrUserDisabled => ("user_disabled", 403, "user disabled")
    | ErrApprovalRejected => ("registration_rejected", 403, "registration rejected")
    | _ => ("invalid_credentials", 401, "invalid username or password")
    end in
  denied 0 "" reason {["username" := VString (lr_Username input)]};;
  ret (writeError status message, Failure l ip now).

(** The challenge for a client that sent no valid code. *)
Definition challenge_for (user : User) (input : loginRequest) : AuthChallenge :=
  mkAuthChallenge (draw_challenge x) (user_ID user) (user_TokenVersion user) now (now + 3 * minute)
    ip (request_UserAgent req) (firstNonEmpty [lr_UUID input; lr_ID input]) (lr_ID input) (lr_UUID input)
    (info_OS (lr_DeviceInfo input)) (info_Type (lr_DeviceInfo input)) (info_Name (lr_DeviceInfo input)).

(** The branch for a password: the checks up to the second factor. *)
Definition login_password (l : LoginLimiter) (input : loginRequest)
    : M (answer + (User * bool * loginRequest)) :=
  if (len (lr_Username input) <? 2) || (128 <? len (lr_Username input))
     || (len (lr_Password input) <? 1) || (1024 <? len (lr_Password input))
  then stop (writeError 400 "invalid request") (Failure l ip now) else
  verified ← try (VerifyCredentials (server_auth s) (lr_Username input) (lr_Password input) (call_entropy c) now);
  match verified with
  | Err e => a ← refuse_credentials l input e; ret (inl a)
  | Ok user =>
      if negb (user_TOTPEnabled user) then
        if Required (server_mfa s) user then
          denied 0 (user_ID user) "mfa_enrollment_required" ∅;;
          stop (writeJSON 403 EnrollmentRequired) l
        else ret (inr (user, false, input))
      else
      second ← try (Verify (server_mfa s) user (lr_VerificationCode input) now);
      match second with
      | Err _ => stop (writeError 500 "two-factor verification failed") l
      | Ok (true, recoveryUsed) => ret (inr (user, recoveryUsed, input))
      | Ok (false, _) =>
          let given := negb (bool_decide (lr_VerificationCode input = "")) in
          let l := if given then Failure l ip now else l in
          when given (account_failure (user_Username user));;
          if negb (bool_decide (lr_Type input = "web")) then
            created ← try (CreateAuthChallenge (challenge_for user input));
            if negb (is_ok created) then stop (writeError 500 "two-factor challenge failed") l else
            record c 0 (audit_event "mfa_challenge_created" (user_ID user) "" ip "success" ""
                          {["expires_in_seconds" := VOther]});;
            stop (writeJSON 200 (Challenged (draw_challenge x) (clientUser user))) l
          else stop (writeJSON 401 TwoFactorRequired) l
      end
  end.

(** The device a client signs in from becomes its owner's. *)
Definition login_device (out : LoginOutput) (input : loginRequest) : M unit :=
  found ← try (inventoryDevice (draw_offline x) now (lr_ID input) (lr_UUID input));
  match found with
  | Err _ => ret tt
  | Ok (_, true) =>
      record c 1 (mkAuditEvent "" zero_time "device_identity_mismatch" (user_ID (out_User out))
        (session_ID (out_Session out)) "" (lr_ID input) ip "denied" "uuid_mismatch" ∅)
  | Ok (device, false) =>
      let device := default zero_device device in
      let device := device <| device_RustDeskID := lr_ID input |> <| device_ClientUUID := lr_UUID input |> in
      let device := if bool_decide (device_Hostname device = "")
                    then device <| device_Hostname := info_Name (lr_DeviceInfo input) |> else device in
      let device := if bool_decide (device_Platform device = "")
                    then device <| device_Platform := info_OS (lr_DeviceInfo input) |> else device in
      let device := device <| device_Online := true |> <| device_LastSeen := now |>
                           <| device_LastSeenIP := ip |> <| device_OwnerUserID := user_ID (out_User out) |> in
      let device := if device_CreatedAt device =? zero_time then device <| device_CreatedAt := now |> else device in
      discard (try (UpsertDevice device))
  end.

(** The end of the handler: the session and the token. *)
Definition login_complete (l : LoginLimiter) (v : User * bool * loginRequest) : M answer :=
  let '(user, recoveryUsed, input) := v in
  let deviceID := firstNonEmpty [lr_UUID input; lr_ID input] in
  result ← try (CompleteLogin (server_auth s) user
    (mkLoginInput (lr_Username input) (lr_Password input) ip (request_UserAgent req) deviceID) (call_entropy c) now);
  match result with
  | Err _ => ret (writeError 500 "login failed", l)
  | Ok out =>
      accountLoginSuccess (user_Username user);;
      when (negb (bool_decide (lr_ID input = "")) && negb (bool_decide (lr_Type input = "web")))
        (login_device out input);;
      record c 2 (mkAuditEvent "" zero_time "login_success" (user_ID (out_User out)) (session_ID (out_Session out))
        deviceID "" ip "allowed" "" {["client_type" := VString (info_Type (lr_DeviceInfo input));
                                      "platform" := VString (info_OS (lr_DeviceInfo input));
                                      "recovery_code_used" := VBool recoveryUsed]});;
      ret (writeJSON 200 (SignedIn (AccessToken out) (claims_ExpiresAt (out_Claims out)) (clientUser (out_User out))),
           Success l ip)
  end.

Definition login (l : LoginLimiter) (body : option loginRequest) : M answer :=
  let '(allowed, _, l) := Allowed l ip now in
  if negb allowed then ret (writeError 429 "too many login attempts", l) else
  match body with
  | None => ret (writeError 400 "invalid request", Failure l ip now)
  | Some input =>
      let input := normalized input in
      let tfa := bool_decide (lr_Type input = "tfa_code") in
      permitted ← (if tfa then ret (true, 0) else accountLoginAllowed (lr_Username input) now);
      if negb permitted.1 then
        denied 0 "" "account_locked" {["username" := VString (lr_Username input)]};;
        ret (writeError 429 "account temporarily locked", l)
      else
      outcome ← (if tfa then login_challenge l input else login_password l input);
      match outcome with
      | inl a => ret a
      | inr v => login_complete l v
      end
  end.
End Login.

(** ** What the handler leaves alone *)

(** Only recovery codes with a property are in the table. *)
Definition codes_in (P : RecoveryCode → Prop) (d : DB) : Prop := ∀ rc, rc ∈ t_mfa_recovery_codes d → P rc.

(** The accounts and the recovery codes are what they were. *)
Definition same_factors (d0 d : DB) : Prop :=
  t_users d = t_users d0 ∧ t_mfa_recovery_codes d = t_mfa_recovery_codes d0.

Section Kept.
Context `{Unicode} `{SqlText} `{Argon2} `{Jwt} `{Aead}.

Section Codes.
Context (P : RecoveryCode → Prop).

Ltac codes_leaf Hd :=
  first [ assumption
        | intros rc; read_tables; rewrite ?elem_of_delete_where;
          first [exact (Hd rc) | intros [Hrc _]; exact (Hd rc Hrc)] ].

Lemma codes_CreateUser u : keeps (codes_in P) (CreateUser u).
Proof. intros d h Hd. unfold CreateUser. wp_go; codes_leaf Hd. Qed.
Lemma codes_DeleteUser id : keeps (codes_in P) (StoreUsers.DeleteUser id).
Proof. intros d h Hd. unfold StoreUsers.DeleteUser. wp_go; codes_leaf Hd. Qed.
Lemma codes_CreateOIDCIdentity v : keeps (codes_in P) (CreateOIDCIdentity v).
Proof. intros d h Hd. unfold CreateOIDCIdentity. wp_go; codes_leaf Hd. Qed.
Lemma codes_SetUserGroupMember g u a now : keeps (codes_in P) (SetUserGroupMember g u a now).
Proof. intros d h Hd. unfold SetUserGroupMember. wp_go; codes_leaf Hd. Qed.
Lemma codes_CreateSession v : keeps (codes_in P) (CreateSession v).
Proof. intros d h Hd. unfold CreateSession. wp_go; codes_leaf Hd. Qed.
Lemma codes_UpdateLastLogin id at_ : keeps (codes_in P) (UpdateLastLogin id at_).
Proof. intros d h Hd. unfold UpdateLastLogin. wp_go; codes_leaf Hd. Qed.
Lemma codes_RevokeSession id at_ : keeps (codes_in P) (StoreSessions.RevokeSession id at_).
Proof. intros d h Hd. unfold StoreSessions.RevokeSession. wp_go; codes_leaf Hd. Qed.

#[local] Hint Resolve codes_CreateUser codes_DeleteUser codes_CreateOIDCIdentity codes_SetUserGroupMember
  codes_CreateSession codes_UpdateLastLogin codes_RevokeSession : keeps.

Lemma codes_sync_targets userID wanted seen targets now : keeps (codes_in P) (sync_targets userID wanted seen targets now).
Proof.
  revert seen. induction targets as [|t ts IH]; intros seen; cbn [sync_targets]; unfold FindGroupByID; keep; apply IH.
Qed.
#[local] Hint Resolve codes_sync_targets : keeps.

Lemma codes_try_providers username password f now ps : keeps (codes_in P) (try_providers username password f now ps).
Proof.
  induction ps as [|p ps IH]; cbn [try_providers];
    unfold provisionExternalUser, or_invalid, syncExternalGroups, validateLoginUser, withPermissions,
      FindOIDCIdentity, FindUserByUsername, FindUserByID, FindRoleByID; keep; apply IH.
Qed.
#[local] Hint Resolve codes_try_providers : keeps.

Lemma codes_VerifyCredentials s username password f now : keeps (codes_in P) (VerifyCredentials s username password f now).
Proof. unfold VerifyCredentials, validateLoginUser, withPermissions, FindUserByUsername, FindRoleByID. keep. Qed.

Lemma codes_CompleteLogin s u input f now : keeps (codes_in P) (CompleteLogin s u input f now).
Proof. unfold CompleteLogin, withPermissions, FindRoleByID. keep. Qed.
End Codes.

Section Same.
Context (d0 : DB).

Lemma same_Record event st : keeps (same_factors d0) (Audit_Record event st).
Proof. apply keeps_audit. by intros d d' (t1 & t2 & ->). Qed.
Lemma same_login_failure cfg id username now : keeps (same_factors d0) (accountLoginFailure cfg id username now).
Proof. intros d h Hd. unfold accountLoginFailure, RecordAccountLoginFailure. wp_go; split; read_tables; apply Hd. Qed.
Lemma same_login_allowed username now : keeps (same_factors d0) (accountLoginAllowed username now).
Proof. intros d h Hd. unfold accountLoginAllowed, AccountLoginAllowed. wp_go; done. Qed.
Lemma same_login_success username : keeps (same_factors d0) (accountLoginSuccess username).
Proof. intros d h Hd. unfold accountLoginSuccess, ClearAccountLoginFailures. wp_go; split; read_tables; apply Hd. Qed.
Lemma same_ConsumeAuthChallenge id now : keeps (same_factors d0) (ConsumeAuthChallenge id now).
Proof. intros d h Hd. unfold ConsumeAuthChallenge. wp_go; split; read_tables; apply Hd. Qed.
Lemma same_CreateAuthChallenge v : keeps (same_factors d0) (CreateAuthChallenge v).
Proof. intros d h Hd. unfold CreateAuthChallenge. wp_go; split; read_tables; apply Hd. Qed.
Lemma same_UpsertDevice v : keeps (same_factors d0) (UpsertDevice v).
Proof. intros d h Hd. unfold UpsertDevice. wp_go; split; read_tables; apply Hd. Qed.
End Same.
End Kept.

#[export] Hint Resolve same_Record same_login_failure same_login_allowed same_login_success
  same_ConsumeAuthChallenge same_CreateAuthChallenge same_UpsertDevice : keeps.

(** ** The second factor *)

Section SecondFactor.
Context `{Unicode} `{SqlText} `{Argon2} `{Jwt} `{Aead}.
Context (s : Server) (req : Request) (c : Call) (x : LoginDraws).

(** A recovery code of an account that a text stands for. *)
Definition code_of (u : User) (code : string) (rc : RecoveryCode) : Prop :=
  code_UserID rc = user_ID u ∧ code_Hash rc = recoveryHash (server_mfa s) code.

(** The text is a code of the account's device, or a recovery code that is there
    before and not after. *)
Definition factor_given (u : User) (code : string) (d d' : DB) : Prop :=
  valid_code (server_mfa s) u code (call_now c) = true
  ∨ (∃ rc, rc ∈ t_mfa_recovery_codes d ∧ code_of u code rc) ∧ codes_in (λ rc, ¬ code_of u code rc) d'.

(** The account the handler works for, as the tables have it. *)
Definition account (u : User) (d : DB) : Prop :=
  ∃ r, r ∈ t_users d ∧ user_ID r = user_ID u ∧ user_Enabled r = true
       ∧ user_TOTPEnabled r = user_TOTPEnabled u ∧ user_TOTPSecret r = user_TOTPSecret u.

Definition verified (codes : list string) (u : User) (d d' : DB) : Prop :=
  account u d' ∧ (user_TOTPEnabled u = true → ∃ code, code ∈ codes ∧ factor_given u code d d').

Lemma Verify_given u code d h :
  wp true (Verify (server_mfa s) u code (call_now c))
    (λ r d' _, t_users d' = t_users d ∧ match r with
       | Ok (true, _) => user_TOTPEnabled u = true → factor_given u code d d'
       | _ => True end) d h.
Proof.
  unfold Verify. destruct (user_TOTPEnabled u) eqn:Ht; cbn [negb].
  2: { wp_go. split; [done|]. by destruct (negb _). }
  destruct (valid_code _ _ _ _) eqn:Hv; [wp_go; [done|by left]|].
  unfold ConsumeMFARecoveryCode. wp_go; try done. split; [by read_tables|].
  destruct (_ =? 1) eqn:Hone; [|done]. apply Z.eqb_eq in Hone. intros _. right. split.
  - eapply count_where_ex; [exact Hone|done].
  - intros rc. read_tables. rewrite elem_of_delete_where. by intros [_ ?].
Qed.

Lemma account_same u d d' : t_users d' = t_users d → account u d → account u d'.
Proof. unfold account. by intros ->. Qed.

Lemma factor_given_same u code d d1 d2 :
  t_mfa_recovery_codes d2 = t_mfa_recovery_codes d1 → factor_given u code d d1 → factor_given u code d d2.
Proof. unfold factor_given, codes_in. by intros ->. Qed.

Lemma verified_same codes u d d1 d2 : same_factors d1 d2 → verified codes u d d1 → verified codes u d d2.
Proof.
  intros [Hu Hc] [Ha Hf]. split; [by eapply account_same|]. intros Ht.
  destruct (Hf Ht) as (code & Hin & Hg). exists code. split; [done|]. by eapply factor_given_same.
Qed.

(** Whatever the first program does, the rest decides. *)
Lemma wp_then {A B} (Q : res B → DB → Hub → Prop) (m : M A) (k : A → M B) d h :
  (∀ e d h, Q (Err e) d h) → (∀ a d h, wp true (k a) Q d h) → wp true (mbind k m) Q d h.
Proof.
  intros He Hk. apply wp_bind. eapply wp_mono; [apply wp_True|]. intros [a|e] d' h' _; [apply Hk|apply He].
Qed.

Lemma wp_same {A B} (Q : res B → DB → Hub → Prop) (m : M A) (k : res A → M B) d h :
  keeps (same_factors d) m → (∀ r d' h', same_factors d d' → wp true (k r) Q d' h') → wp true (r ← try m; k r) Q d h.
Proof.
  intros Hm Hk. apply wp_bind, wp_try. eapply wp_mono; [by apply Hm|]. intros r d' h' Hs. by apply Hk.
Qed.

Ltac stops := repeat first [apply wp_ret; by intros | apply wp_then; [done|intros ???]; cbv beta zeta | case_match].

(** An answer that signs nobody in. *)
Definition no_token (a : answer) : Prop := ∀ token expires cu, reply_Content a.1 ≠ Value (SignedIn token expires cu).

(** What a branch promises: an answer without a token, or a verified account. *)
Definition branch_post (codes : list string) (d : DB) (r : res (answer + (User * bool * loginRequest))) (d' : DB) : Prop :=
  match r with
  | Ok (inl a) => no_token a
  | Ok (inr (u, _, _)) => verified codes u d d'
  | Err _ => True
  end.

Lemma challenge_spec l input d h :
  wp true (login_challenge s req c x l input) (λ r d' _, branch_post [lr_TFACode input] d r d') d h.
Proof.
  unfold login_challenge, stop. destruct (_ || _); [stops|].
  unfold FindAuthChallenge, FindUserByID. apply wp_bind, wp_try, wp_query_row; [intros _; stops|].
  destruct (scanAuthChallenge <$> _) as [ch|]; cbn [of_option]; [|stops].
  apply wp_bind, wp_try, wp_query_row; [intros _; stops|].
  destruct (scanUser <$> _) as [u|] eqn:Hu; cbn [of_option]; [|stops].
  apply fmap_Some in Hu as (row & [Hrow _]%select_one_Some & ->).
  destruct (negb _ || _) eqn:Hen; [stops|]. simplify_bool.
  apply wp_bind, wp_try. eapply wp_mono; [apply Verify_given|].
  intros [[[] used]|e] d1 h1 [Hus Hg]; [|stops|stops].
  apply wp_same; [apply same_ConsumeAuthChallenge|]. intros r d2 h2 Hs.
  destruct (negb _); [stops|]. wp_go. eapply verified_same; [exact Hs|]. split.
  - exists row. rewrite Hus. split_and!; done.
  - intros Ht. exists (lr_TFACode input). split; [left|]. by apply Hg.
Qed.

Lemma lets_in_account u d : lets_in u d → account u d.
Proof. intros (r & Hr & Hid & _ & Hen & _ & Ht & Hsec). by exists r. Qed.

(** The codes of the table after a program that adds none. *)
Lemma factor_given_sub u code d d1 d2 :
  codes_in (λ rc, rc ∈ t_mfa_recovery_codes d) d1 → factor_given u code d1 d2 → factor_given u code d d2.
Proof.
  intros Hsub [Hv|[(rc & Hrc & Hc) Hn]]; [by left|]. right. split; [|done]. exists rc. split; [by apply Hsub|done].
Qed.

Lemma refuse_spec l input e d h :
  wp true (refuse_credentials req c x l input e)
    (λ r _ _, match r with Ok a => no_token a | Err _ => True end) d h.
Proof. unfold refuse_credentials. stops. Qed.

Lemma password_spec l input d h :
  wp true (login_password s req c x l input) (λ r d' _, branch_post [lr_VerificationCode input] d r d') d h.
Proof.
  unfold login_password, stop. destruct (_ || _); [stops|].
  apply wp_bind, wp_try. eapply wp_mono.
  { apply wp_both; [apply VerifyCredentials_spec|].
    apply (codes_VerifyCredentials (λ rc, rc ∈ t_mfa_recovery_codes d)). by intros rc. }
  intros [u|e] d1 h1 [Hin Hcodes].
  2: { apply wp_bind. eapply wp_mono; [apply refuse_spec|]. intros [a|e'] d2 h2 Ha; [by apply wp_ret|done]. }
  specialize (Hin u eq_refl). apply lets_in_account in Hin.
  destruct (negb (user_TOTPEnabled u)) eqn:Ht; simplify_bool.
  { destruct (Required _ _); [stops|]. wp_go. split; [done|]. congruence. }
  apply wp_bind, wp_try. eapply wp_mono; [apply Verify_given|].
  intros [[[] used]|e] d2 h2 [Hus Hg]; [|stops|stops].
  wp_go. split; [by eapply account_same|]. intros _. exists (lr_VerificationCode input).
  split; [left|]. eapply factor_given_sub; [exact Hcodes|]. by apply Hg.
Qed.

(** The session is the account's, whose second factor it leaves alone. *)
Lemma CompleteLogin_account u input f d h :
  account u d →
  wp true (CompleteLogin (server_auth s) u input f (call_now c))
    (λ r d' _, ∀ out, r = Ok out → users_ok d' ∧ account u d' ∧ user_ID (out_User out) = user_ID u) d h.
Proof.
  intros (r0 & Hr0 & Hid & Hen & Ht & Hsec). unfold CompleteLogin. apply wp_bind.
  eapply wp_mono; [apply withPermissions_spec|]. intros r d' h' [-> [p ->]]. cbv zeta.
  unfold CreateSession, UpdateLastLogin, StoreSessions.RevokeSession.
  wp_go; try done. intros out [= <-].
  match goal with Hs : tbl_ok t_users ?ds |- _ => change (tbl_ok t_users ds) with (users_ok ds) in Hs end.
  split_and!; [|..|done].
  - match goal with Hs : users_ok ?ds |- _ => exact Hs end.
  - exists (if decide (user_ID r0 = user_ID u)
            then r0 <| user_LastLoginAt := Some (millis (call_now c)) |> <| user_UpdatedAt := millis (call_now c) |> else r0).
    read_tables. rewrite elem_of_update_where. split; [by exists r0|]. by case_decide.
Qed.

Lemma keeps_login_device d0 out input : keeps (same_factors d0) (login_device req c x out input).
Proof. unfold login_device, inventoryDevice, ListDevices, record. keep. Qed.

Lemma complete_spec l u used input d h :
  account u d →
  wp true (login_complete s req c x l (u, used, input))
    (λ r d' _, codes_in (λ rc, rc ∈ t_mfa_recovery_codes d) d'
       ∧ ∀ rep l' token expires cu, r = Ok (rep, l') → reply_Content rep = Value (SignedIn token expires cu) →
         users_ok d' ∧ account u d' ∧ cu_id cu = user_ID u) d h.
Proof.
  intros Hacc. unfold login_complete. apply wp_bind, wp_try. eapply wp_mono.
  { apply wp_both; [by apply CompleteLogin_account|].
    apply (codes_CompleteLogin (λ rc, rc ∈ t_mfa_recovery_codes d)). by intros rc. }
  intros [out|e] d1 h1 [Hout Hcodes]; [|apply wp_ret; split; [done|by intros * [= <- <-]]].
  destruct (Hout out eq_refl) as (Hok & Ha & Hid).
  assert (Hend : ∀ r d2, same_factors d1 d2 →
    (∀ a, r = Ok a → a = (writeJSON 200 (SignedIn (AccessToken out) (claims_ExpiresAt (out_Claims out))
                            (clientUser (out_User out))), Success l (request_IP req))) →
    codes_in (λ rc, rc ∈ t_mfa_recovery_codes d) d2
    ∧ ∀ rep l' token expires cu, r = Ok (rep, l') → reply_Content rep = Value (SignedIn token expires cu) →
      users_ok d2 ∧ account u d2 ∧ cu_id cu = user_ID u).
  { intros r d2 [Hu Hc] Hr. split; [intros rc; rewrite Hc; apply Hcodes|]. intros * [= -> ->]%Hr [= _ _ <-].
    split_and!; [unfold users_ok; by rewrite Hu|by eapply account_same|done]. }
  apply wp_bind. eapply wp_mono; [by apply (same_login_success d1)|]. intros [[]|e] d2 h2 Hs; [|by apply Hend].
  apply wp_bind. eapply wp_mono.
  { apply (keeps_when (same_factors d1)); [intros _; apply keeps_login_device|exact Hs]. }
  intros [[]|e] d3 h3 Hs3; [|by apply Hend]. apply wp_bind. eapply wp_mono.
  { assert (Hr : ∀ i e, keeps (same_factors d1) (record c i e)) by (intros; unfold record; keep). by apply Hr. }
  intros [[]|e] d4 h4 Hs4; [|by apply Hend]. apply wp_ret, Hend; [done|by intros a [= <-]].
Qed.

(** C3: the second factor cannot be skipped: whatever the state, the request and
    the failures of the database, if the login handler answers with an access
    token for an account, then the tables hold that account as enabled, and if
    it has a second factor then the request brought a code of its device for the
    current time, or one of its recovery codes, which is gone afterwards. *)
Theorem login_requires_second_factor l input w w' rep l' token expires cu row :
  login s req c x l (Some input) w = (Ok (rep, l'), w') →
  reply_Content rep = Value (SignedIn token expires cu) →
  row ∈ t_users (w_db w') → user_ID row = cu_id cu →
  user_Enabled row = true
  ∧ (user_TOTPEnabled row = true →
     ∃ code, code ∈ [lr_TFACode input; lr_VerificationCode input; lr_ClientVerificationCode input]
             ∧ factor_given row code (w_db w) (w_db w')).
Proof.
  set (input' := normalized input).
  assert (Hwp : wp true (login s req c x l (Some input))
    (λ r d' _, ∀ rep l' token expires cu, r = Ok (rep, l') → reply_Content rep = Value (SignedIn token expires cu) →
       ∃ u d1, users_ok d' ∧ account u d' ∧ cu_id cu = user_ID u
         ∧ (user_TOTPEnabled u = true → ∃ code, code ∈ [lr_TFACode input'; lr_VerificationCode input']
              ∧ factor_given u code (w_db w) d1)
         ∧ codes_in (λ rc, rc ∈ t_mfa_recovery_codes d1) d') (w_db w) (w_hub w)).
  { assert (Hno : ∀ a : answer, no_token a → ∀ d', (∀ rep l' token expires cu, Ok a = Ok (rep, l') →
        reply_Content rep = Value (SignedIn token expires cu) → ∃ u d1, users_ok d' ∧ account u d' ∧ cu_id cu = user_ID u
         ∧ (user_TOTPEnabled u = true → ∃ code, code ∈ [lr_TFACode input'; lr_VerificationCode input']
              ∧ factor_given u code (w_db w) d1)
         ∧ codes_in (λ rc, rc ∈ t_mfa_recovery_codes d1) d'))
      by (intros a Ha d' rep0 l0 token0 exp0 cu0 [= ->] Hc; by destruct (Ha token0 exp0 cu0)).
    unfold login. destruct (Allowed l _ _) as [[allowed retry] l1]. fold input'. cbv zeta.
    destruct allowed; cbn [negb]; [|apply wp_ret, Hno; by intros].
    apply wp_bind. apply (wp_mono (λ r d' _, same_factors (w_db w) d' ∧ is_ok r = true)).
    { case_bool_decide; [by apply wp_ret|]. eapply wp_mono.
      - apply wp_both; [by apply (same_login_allowed (w_db w))|].
        instantiate (1 := λ r _ _, is_ok r = true). unfold accountLoginAllowed.
        case_bool_decide; [by apply wp_ret|]. apply wp_bind, wp_try. eapply wp_mono; [apply wp_True|].
        intros [a|e] ?? _; by apply wp_ret.
      - done. }
    intros [permitted|e] d1 h1 [Hs Hp]; [|done]. destruct (negb _); [apply wp_then; [done|]; intros; apply wp_ret, Hno; by intros|].
    assert (Hsub : codes_in (λ rc, rc ∈ t_mfa_recovery_codes (w_db w)) d1)
      by (intros rc; by rewrite (proj2 Hs)).
    apply wp_bind. apply (wp_mono (λ r d' _, branch_post [lr_TFACode input'; lr_VerificationCode input'] d1 r d')).
    { case_bool_decide; (eapply wp_mono; [first [apply challenge_spec|apply password_spec]|]);
        intros [[a|[[u used] i]]|e] d' h' Hv; try done; destruct Hv as [Ha Hf]; (split; [done|]);
        intros Ht; destruct (Hf Ht) as (code & Hin & Hg); exists code; (split; [set_solver|done]). }
    intros [[a|[[u used] i]]|e] d2 h2 Hv; [| |done].
    - by apply wp_ret, Hno.
    - destruct Hv as [Ha Hf]. eapply wp_mono; [by apply complete_spec|].
      intros r d3 h3 [Hc Hout] rep0 l0 token0 exp0 cu0 Hr Hcontent.
      destruct (Hout _ _ _ _ _ Hr Hcontent) as (Hok & Hacc & Hid). exists u, d2. split_and!; try done.
      intros Ht. destruct (Hf Ht) as (code & Hin & Hg). exists code. split; [done|].
      by eapply factor_given_sub. }
  pose proof (wp_run (F:=true) _ _ w I Hwp) as Hrun.
  intros Hlogin Hc Hrow Hid. rewrite Hlogin in Hrun. cbn in Hrun.
  destruct (Hrun rep l' token expires cu eq_refl Hc) as (u & d1 & [Hnd _] & (r0 & Hr0 & Hid0 & Hen & Ht & Hsec) & Hcu & Hf & Hkept).
  assert (row = r0) as -> by (apply (unique_row user_ID (t_users (w_db w'))); [done..|congruence]).
  split; [done|]. intros Htotp. rewrite Ht in Htotp. destruct (Hf Htotp) as (code & Hin & Hg). exists code. split.
  - assert (Hn : lr_TFACode input' = lr_TFACode input ∧ lr_VerificationCode input' ∈ [lr_VerificationCode input; lr_ClientVerificationCode input]).
    { unfold input', normalized. repeat case_match; cbn; split; try done; set_solver. }
    destruct Hn as [Hn1 Hn2]. rewrite Hn1 in Hin. set_solver.
  - unfold factor_given, codes_in, code_of, valid_code in *. rewrite Hid0, Hsec. destruct Hg as [Hg|[Hg Hn]]; [by left|].
    right. split; [done|]. intros rc Hrc. by apply Hn, Hkept.
Qed.
End SecondFactor.

(** ** The theorem at a concrete installation *)

(** Alice has a second factor and one recovery code; her device cannot be read. *)
#[local] Program Instance ex_sealed : Aead := {|
  Seal := λ key nonce plain, plain;
  Open := λ key nonce box, Some box
|}.
Next Obligation. done. Qed.

Definition ex_recovery : string := "AAAA-BBBB-CCCC".
Definition ex_protected : world :=
  ex_login_world <| w_db := w_db ex_login_world
    <| t_users := (λ u, u <| user_TOTPEnabled := true |>) <$> t_users (w_db ex_login_world) |>
    <| t_mfa_recovery_codes :=
         [mkRecoveryCode "u1" (@recoveryHash ascii_unicode (server_mfa ex_server) ex_recovery) 0] |> |>.
Definition ex_login_request (code : string) : loginRequest :=
  mkLoginRequest "alice" "secret" "" "" "web" false (mkDeviceInfo "" "" "") code "" "" "".
Definition ex_draws : LoginDraws := mkLoginDraws "c9" "f9" (mkLockoutSettings 5 minute minute) 0.
Definition ex_login_call : Call := mkCall (10 * second) (λ _, mkStamp "e1" "e1" (10 * second)) ex_entropy.
Abbreviation ex_signin code :=
  (@login ascii_unicode ex_argon2 ex_jwt ex_sealed ex_server ex_request
     ex_login_call ex_draws (NewLoginLimiter 5 minute minute)
     (Some (ex_login_request code)) ex_protected) (only parsing).

(** Without a code the answer asks for one. *)
Example ex_signin_refused :
  match (ex_signin "").1 with Ok (r, _) => reply_Content r | Err _ => NoContent end = Value TwoFactorRequired.
Proof. vm_compute. reflexivity. Qed.

(** With the recovery code alice signs in, and the code is spent. *)
Lemma login_requires_second_factor_witness :
  ∃ rep l' w' token expires cu,
    ex_signin ex_recovery = (Ok (rep, l'), w')
    ∧ reply_Content rep = Value (SignedIn token expires cu) ∧ cu_id cu = "u1"
    ∧ ∃ row code, user_ID row = "u1"
      ∧ factor_given (H:=ascii_unicode) ex_server ex_login_call row code (w_db ex_protected) (w_db w').
Proof.
  assert (Hex : match ex_signin ex_recovery with
    | (Ok (rep, _), w') => match reply_Content rep, t_users (w_db w') with
        | Value (SignedIn _ _ cu), row :: _ =>
            bool_decide (cu_id cu = "u1" ∧ user_ID row = "u1") && user_TOTPEnabled row = true
        | _, _ => False end
    | _ => False end) by (vm_compute; reflexivity).
  destruct (ex_signin ex_recovery) as [[[rep l']|e] w'] eqn:Hl; [|destruct Hex].
  destruct (reply_Content rep) as [[token expires cu| | | |]| |] eqn:Hc; try destruct Hex as [].
  destruct (t_users (w_db w')) as [|row rest] eqn:Hrows; [destruct Hex|].
  apply andb_true_iff in Hex as [[Hcu Hrow]%bool_decide_eq_true Ht].
  exists rep, l', w', token, expires, cu. split; [reflexivity|]. split; [exact Hc|]. split; [exact Hcu|].
  destruct (login_requires_second_factor (H:=ascii_unicode) (H1:=ex_argon2) (H2:=ex_jwt) (H3:=ex_sealed)
    ex_server ex_request ex_login_call ex_draws _ _ _ _ _ _ _ _ _ row Hl Hc) as [_ Hf].
  - rewrite Hrows. left.
  - congruence.
  - destruct (Hf Ht) as (code & _ & Hg). exists row, code. split; [exact Hrow|exact Hg].
Defined.
