(* ===== verification/Identity.v ===== *)
(** * The identity of a deployed device

    What the requests that announce devices, of clients, rendezvous servers and
    signed-in accounts, can do to a device that was deployed: its client UUID and
    its public key are pinned. *)

From S2P Require Export Login.
From S2P Require Import Sample.

Inductive device_request :=
| ReqHeartbeat (req : Request) (c : Call) (body : option heartbeatRequest)
| ReqSysinfo (req : Request) (c : Call) (body : option sysinfoRequest)
| ReqDeviceHeartbeat (c : Call) (body : option deviceHeartbeatRequest)
| ReqDeploy (req : Request) (c : Call) (body : option deployRequest)
| ReqLogin (req : Request) (c : Call) (x : LoginDraws) (l : LoginLimiter) (body : option loginRequest).

Section Requests.
Context `{Unicode} `{SqlText} `{Argon2} `{Jwt} `{Aead} `{Net}.
Context (s : Server) (ttl : duration) (orders : Orders) (managed : bool).

Definition serve_device (r : device_request) : M unit :=
  match r with
  | ReqHeartbeat req c body => discard (clientHeartbeat ttl orders managed req c body)
  | ReqSysinfo req c body => discard (clientSysinfo ttl req c body)
  | ReqDeviceHeartbeat c body => discard (deviceHeartbeat c body)
  | ReqDeploy req c body => discard (deployDevice ttl req c body)
  | ReqLogin req c x l body => discard (login s req c x l body)
  end.
Definition serve_devices (rs : list device_request) (w : world) : world :=
  foldl (λ w r, (serve_device r w).2) w rs.

(** A deployment that presents the identifier and the client UUID of a device. *)
Definition redeploys (v : Device) (r : device_request) : Prop :=
  match r with
  | ReqDeploy _ _ body =>
      match deploy_input body with
      | Some i => deploy_ID i = device_RustDeskID v ∧ deploy_UUID i = device_ClientUUID v
      | None => False
      end
  | _ => False
  end.
#[export] Instance redeploys_dec v r : Decision (redeploys v r).
Proof. destruct r; cbn; [..|destruct (deploy_input body)|]; apply _. Defined.

Section Pinned.
Context (v : Device) (key : bool).

Definition same_identity (v' : Device) : Prop :=
  device_RustDeskID v' = device_RustDeskID v ∧ device_ClientUUID v' = device_ClientUUID v
  ∧ device_Deployed v' = true
  ∧ (key = true → device_PublicKey v' = device_PublicKey v ∧ device_DeployedBy v' = device_DeployedBy v).

(** The device is in the tables, deployed, with its identity. *)
Definition pinned (d : DB) : Prop := devices_ok d ∧ ∃ v', v' ∈ t_devices d ∧ same_identity v'.

Lemma pinned_same d d' : pinned d → t_devices d' = t_devices d → pinned d'.
Proof. unfold pinned, devices_ok. by intros Hd ->. Qed.

Lemma pinned_update d d' P `{∀ x : Device, Decision (P x)} f :
  pinned d → t_devices d' = update_where P f (t_devices d) →
  (∀ x, device_RustDeskID (f x) = device_RustDeskID x) →
  (∀ x, x ∈ t_devices d → P x → same_identity x → same_identity (f x)) → pinned d'.
Proof.
  intros [Hok (v' & Hv' & Hs)] E Hid Hf. split.
  - unfold devices_ok. rewrite E, fmap_update_where; [done|]. intros. by rewrite Hid.
  - exists (if decide (P v') then f v' else v'). rewrite E. split.
    + apply elem_of_update_where. by exists v'.
    + case_decide; [by apply Hf|done].
Qed.

(** What a device that is written may be: another one, or one without a new key. *)
Definition harmless (x : Device) : Prop :=
  device_RustDeskID x = device_RustDeskID v →
  key = true → (device_PublicKey x = "" ∨ device_PublicKey x = device_PublicKey v)
               ∧ (device_DeployedBy x = "" ∨ device_DeployedBy x = device_DeployedBy v).

Lemma keeps_UpsertDevice x : harmless x → keeps pinned (UpsertDevice x).
Proof.
  intros Hx d h Hd. unfold UpsertDevice. wp_go; try assumption. subst.
  destruct (decide (Exists (λ r, device_RustDeskID r = device_RustDeskID x) (t_devices d))) as [Hex|Hex].
  - eapply pinned_update; [exact Hd|by read_tables|done|].
    intros o Ho Hoid (Hid & Hu & Hdep & Hk). unfold same_identity, merge_device. cbn. rewrite Hdep.
    split_and!; [done..|]. intros Hkey. destruct (Hk Hkey) as [-> ->].
    destruct Hx as [Hx1 Hx2]; [congruence|done|]. cbn in *. unfold nonempty_or.
    destruct Hx1 as [->|Hx1], Hx2 as [->|Hx2]; rewrite ?Hx1, ?Hx2; split; by case_bool_decide.
  - destruct Hd as [_ (v' & Hv' & Hs)]. split; [assumption|]. exists v'. split; [|exact Hs].
    read_tables. set_solver.
Qed.

Ltac pinned_leaf :=
  first [ assumption
        | eapply pinned_same; [eassumption|by read_tables]
        | eapply pinned_update; [eassumption|by read_tables|done|by intros ? _ _] ].
Ltac pinned_go := intros d h Hd; wp_go; pinned_leaf.

Lemma pinned_Record event st : keeps pinned (Audit_Record event st).
Proof. apply keeps_audit. intros d d' (t1 & t2 & ->) Hd. by eapply pinned_same. Qed.
Lemma keeps_CreateUser u : keeps pinned (CreateUser u).
Proof. unfold CreateUser. pinned_go. Qed.
Lemma keeps_DeleteUser id : keeps pinned (StoreUsers.DeleteUser id).
Proof. unfold StoreUsers.DeleteUser. pinned_go. Qed.
Lemma keeps_CreateOIDCIdentity i : keeps pinned (CreateOIDCIdentity i).
Proof. unfold CreateOIDCIdentity. pinned_go. Qed.
Lemma keeps_SetUserGroupMember g u a now : keeps pinned (SetUserGroupMember g u a now).
Proof. unfold SetUserGroupMember. pinned_go. Qed.
Lemma keeps_CreateSession ss : keeps pinned (CreateSession ss).
Proof. unfold CreateSession. pinned_go. Qed.
Lemma keeps_UpdateLastLogin id at_ : keeps pinned (UpdateLastLogin id at_).
Proof. unfold UpdateLastLogin. pinned_go. Qed.
Lemma keeps_RevokeSession id at_ : keeps pinned (StoreSessions.RevokeSession id at_).
Proof. unfold StoreSessions.RevokeSession. pinned_go. Qed.
Lemma keeps_login_failure cfg id username now : keeps pinned (accountLoginFailure cfg id username now).
Proof. unfold accountLoginFailure, RecordAccountLoginFailure. pinned_go. Qed.
Lemma keeps_login_allowed username now : keeps pinned (accountLoginAllowed username now).
Proof. unfold accountLoginAllowed, AccountLoginAllowed. pinned_go. Qed.
Lemma keeps_login_success username : keeps pinned (accountLoginSuccess username).
Proof. unfold accountLoginSuccess, ClearAccountLoginFailures. pinned_go. Qed.
Lemma keeps_ConsumeAuthChallenge id now : keeps pinned (ConsumeAuthChallenge id now).
Proof. unfold ConsumeAuthChallenge. pinned_go. Qed.
Lemma keeps_CreateAuthChallenge a : keeps pinned (CreateAuthChallenge a).
Proof. unfold CreateAuthChallenge. pinned_go. Qed.
Lemma keeps_ConsumeMFARecoveryCode id code : keeps pinned (ConsumeMFARecoveryCode id code).
Proof. unfold ConsumeMFARecoveryCode. pinned_go. Qed.
Lemma keeps_TouchAPIToken id now : keeps pinned (TouchAPIToken id now).
Proof. unfold TouchAPIToken. pinned_go. Qed.

#[local] Hint Resolve pinned_Record keeps_CreateUser keeps_DeleteUser keeps_CreateOIDCIdentity keeps_SetUserGroupMember
  keeps_CreateSession keeps_UpdateLastLogin keeps_RevokeSession keeps_login_failure keeps_login_allowed
  keeps_login_success keeps_ConsumeAuthChallenge keeps_CreateAuthChallenge keeps_ConsumeMFARecoveryCode
  keeps_TouchAPIToken : keeps.

(** What [inventoryDevice] finds out about the device. *)
Definition seen (id uuid : string) (r : res (option Device * bool)) : Prop :=
  match r with
  | Ok (known, mismatch) => id = device_RustDeskID v →
      mismatch = negb (bool_decide (device_ClientUUID v = "")) && negb (bool_decide (device_ClientUUID v = uuid))
      ∧ ∃ dev, known = Some dev ∧ same_identity dev
  | Err _ => True
  end.

Lemma inventoryDevice_seen t now id uuid d h :
  pinned d → wp true (try (inventoryDevice t now id uuid))
    (λ r d' _, pinned d' ∧ match r with Ok a => seen id uuid a | Err _ => True end) d h.
Proof.
  intros [Hok (v' & Hv' & Hs)]. unfold inventoryDevice, ListDevices. wp_go; (split; [split; [done|by exists v']|]);
    [done|]. cbn [seen]. destruct Hs as (Hid & Hu & Hdep & Hk).
  destruct (device_named id _) as [dev|] eqn:Hdev; intros ->; rewrite <- Hid, device_named_listed in Hdev by done;
    [|done]. injection Hdev as <-. change (device_ClientUUID (scanDevice t now v')) with (device_ClientUUID v'). rewrite Hu. split; [done|].
  by exists (scanDevice t now v').
Qed.

Lemma harmless_seen id uuid known mismatch x :
  seen id uuid (Ok (known, mismatch)) →
  device_RustDeskID x = id → device_PublicKey x = device_PublicKey (default zero_device known) →
  device_DeployedBy x = device_DeployedBy (default zero_device known) → harmless x.
Proof.
  intros Hseen Hid Hp Hb Hv Hkey. destruct Hseen as (_ & dev & -> & _ & _ & _ & Hk); [congruence|].
  destruct (Hk Hkey) as [Hk1 Hk2]. cbn in Hp, Hb. split; right; congruence.
Qed.

Ltac harmless_leaf Hseen :=
  apply keeps_UpsertDevice; eapply harmless_seen; [exact Hseen|..]; by repeat case_match.

Lemma keeps_device_settings dev : keeps pinned (device_settings orders managed dev).
Proof.
  unfold device_settings, Strategy.EffectiveForDevice, Managed_EffectiveForDevice, ListStrategies, ListUserGroupMemberships,
    ListClientProfiles, ListClientProfileAssignments. keep.
Qed.

Lemma keeps_clientHeartbeat req c body : keeps pinned (clientHeartbeat ttl orders managed req c body).
Proof.
  unfold clientHeartbeat, record. destruct body as [input|]; [|keep]. destruct (negb _); [keep|].
  eapply keeps_bind_post; [intros; by apply inventoryDevice_seen|]. intros [[known mismatch]|e] Hseen; [|keep].
  destruct (_ && _); [keep|]. apply keeps_bind; [apply keeps_try; harmless_leaf Hseen|].
  intros a. destruct (negb _); [keep|]. apply keeps_bind; [apply keeps_device_settings|]. intros. keep.
Qed.

Lemma keeps_clientSysinfo req c body : keeps pinned (clientSysinfo ttl req c body).
Proof.
  unfold clientSysinfo, record. destruct body as [input|]; [|keep]. destruct (_ || _); [keep|].
  eapply keeps_bind_post; [intros; by apply inventoryDevice_seen|]. intros [[known mismatch]|e] Hseen; [|keep].
  destruct (_ && _); [keep|]. apply keeps_bind; [apply keeps_try; harmless_leaf Hseen|]. intros a. keep.
Qed.

Lemma keeps_deviceHeartbeat c body : keeps pinned (deviceHeartbeat c body).
Proof.
  unfold deviceHeartbeat. destruct body as [input|]; [|keep]. destruct (_ || _); [keep|].
  apply keeps_bind; [apply keeps_try, keeps_UpsertDevice|]; [|intros; keep]. intros _ _. by split; left.
Qed.

Lemma pinned_login_device req c x out input : keeps pinned (login_device req c x out input).
Proof.
  unfold login_device, record.
  eapply keeps_bind_post; [intros; by apply inventoryDevice_seen|].
  intros [[known []]|e] Hseen; [keep| |keep].
  apply keeps_discard, keeps_try. harmless_leaf Hseen.
Qed.

Lemma keeps_sync_targets userID wanted sn targets now : keeps pinned (sync_targets userID wanted sn targets now).
Proof.
  revert sn. induction targets as [|t ts IH]; intros sn; cbn [sync_targets]; unfold FindGroupByID; keep; apply IH.
Qed.
#[local] Hint Resolve keeps_sync_targets pinned_login_device : keeps.

Lemma keeps_try_providers username password f now ps : keeps pinned (try_providers username password f now ps).
Proof.
  induction ps as [|p ps IH]; cbn [try_providers];
    unfold provisionExternalUser, or_invalid, syncExternalGroups, validateLoginUser, withPermissions,
      FindOIDCIdentity, FindUserByUsername, FindUserByID, FindRoleByID; keep; apply IH.
Qed.
#[local] Hint Resolve keeps_try_providers : keeps.

Lemma keeps_VerifyCredentials sv username password f now : keeps pinned (VerifyCredentials sv username password f now).
Proof. unfold VerifyCredentials, validateLoginUser, withPermissions, FindUserByUsername, FindRoleByID. keep. Qed.
Lemma keeps_CompleteLogin sv u input f now : keeps pinned (CompleteLogin sv u input f now).
Proof. unfold CompleteLogin, withPermissions, FindRoleByID. keep. Qed.
Lemma keeps_Verify m u code now : keeps pinned (Verify m u code now).
Proof. unfold Verify. keep. Qed.
#[local] Hint Resolve keeps_VerifyCredentials keeps_CompleteLogin keeps_Verify : keeps.

Lemma keeps_login req c x l body : keeps pinned (login s req c x l body).
Proof.
  unfold login, login_challenge, login_password, login_complete, refuse_credentials, stop, denied, account_failure,
    record, FindAuthChallenge, FindUserByID. keep.
Qed.

(** A deployment passes its checks only for another device or with its UUID. *)
Lemma keeps_deployDevice req c body :
  device_ClientUUID v ≠ "" → (key = true → ¬ redeploys v (ReqDeploy req c body)) →
  keeps pinned (deployDevice ttl req c body).
Proof.
  intros Hne Hre. unfold deployDevice.
  eapply (keeps_bind_post pinned (λ r, match r with
      | inr (token, user, input, dev) => key = true → deploy_ID input ≠ device_RustDeskID v
      | inl _ => True end)).
  - intros d h Hd. unfold deploy_checked. apply wp_bind. eapply (wp_mono (λ _ d' _, pinned d')).
    { assert (Hk : keeps pinned (deploy_account req c)) by (unfold deploy_account, FindAPITokenByHash, FindUserByID; keep).
      by apply Hk. }
    intros [[reply|[token user]]|e] d1 h1 Hd1; [by apply wp_ret| |done].
    destruct (deploy_input body) as [input|] eqn:Hin; [|by apply wp_ret].
    apply wp_bind. eapply wp_mono; [by apply inventoryDevice_seen|].
    intros [[[known mismatch]|e]|e] d2 h2 [Hd2 Hseen]; [|by apply wp_ret|done].
    destruct (_ && _) eqn:Hm; [by apply wp_ret|]. apply wp_ret. split; [done|]. intros Hkey Hid.
    destruct (Hseen Hid) as (-> & dev & -> & _). cbn in Hm. apply (Hre Hkey). cbn. rewrite Hin. split; [done|].
    rewrite bool_decide_eq_false_2 in Hm by done. cbn in Hm. by apply negb_false_iff, bool_decide_eq_true in Hm.
  - intros [reply|[[[token user] input] dev]] Hq; [keep|]. unfold deploy_device, record. cbv zeta.
    apply keeps_bind; [apply keeps_try, keeps_UpsertDevice|intros; keep].
    intros Hid Hkey. exfalso. apply (Hq Hkey). rewrite <- Hid. by case_match.
Qed.

Lemma keeps_serve r :
  device_ClientUUID v ≠ "" → (key = true → ¬ redeploys v r) → keeps pinned (serve_device r).
Proof.
  intros Hne Hre. destruct r; cbn [serve_device]; apply keeps_discard;
    [apply keeps_clientHeartbeat|apply keeps_clientSysinfo|apply keeps_deviceHeartbeat|by apply keeps_deployDevice|apply keeps_login].
Qed.
End Pinned.

(** C13: the identity of a deployed device is pinned: in every history of whole
    heartbeats, inventory reports, deployments and sign-ins, one after the other,
    from anybody and under any failures of the database, a deployed device with a
    client UUID keeps its row, stays deployed and keeps that UUID.  It keeps its
    public key and the account that deployed it ([DeployedBy]) as long as no
    deployment presents its own identifier together with its own UUID; one that
    does may replace them.  Its owner ([OwnerUserID]) is not pinned: a sign-in
    that presents the identifier and the UUID makes the account the owner. *)
Theorem device_identity_pinned rs w v :
  devices_ok (w_db w) → v ∈ t_devices (w_db w) → device_Deployed v = true → device_ClientUUID v ≠ "" →
  ∃ v', v' ∈ t_devices (w_db (serve_devices rs w))
    ∧ device_RustDeskID v' = device_RustDeskID v ∧ device_ClientUUID v' = device_ClientUUID v
    ∧ device_Deployed v' = true
    ∧ (Forall (λ r, ¬ redeploys v r) rs →
       device_PublicKey v' = device_PublicKey v ∧ device_DeployedBy v' = device_DeployedBy v).
Proof.
  intros Hok Hv Hdep Hne.
  assert (Hrun : ∀ key, (key = true → Forall (λ r, ¬ redeploys v r) rs) → pinned v key (w_db (serve_devices rs w))).
  { intros key Hkey. assert (Hp : pinned v key (w_db w)) by (split; [done|]; exists v; by split_and!).
    clear Hok Hv. revert w Hp. induction rs as [|r rs' IH]; intros w Hp; [done|]. apply IH.
    - intros Hk. by specialize (Hkey Hk); inversion Hkey.
    - apply (keeps_run (pinned v key)), Hp. apply keeps_serve; [done|]. intros Hk. by specialize (Hkey Hk); inversion Hkey. }
  destruct (decide (Forall (λ r, ¬ redeploys v r) rs)) as [Hall|Hall].
  - destruct (Hrun true (λ _, Hall)) as [_ (v' & Hv' & Hid & Hu & Hd & Hk)]. exists v'. split_and!; [done..|]. intros _. by apply Hk.
  - destruct (Hrun false) as [_ (v' & Hv' & Hid & Hu & Hd & _)]; [done|]. by exists v'.
Qed.
End Requests.

(** ** The theorems at a concrete installation *)

#[local] Instance ex_net : Net := {| valid_ip := λ _, true |}.
Definition ex_orders : Orders := mkOrders (λ _, "") plain_order plain_order map_to_list.
Definition ex_key (c : string) : string := String.concat "" (replicate 42 c) +:+ "E=".
Definition ex_token : APIToken :=
  mkAPIToken "t1" "u1" "laptops" (hashAPIToken "art_pat_x") "art_pat_x" [deployScope] 0 (hour / 1000000) None None.
Definition ex_bench : Device :=
  mkDevice "d100" "uuid-1" "bench" "" "linux" "1" "" "" "" "" false 0 "u1" "" [] (ex_key "A") true "u1" (Some 0) 0 None.
Definition ex_fleet (devices : list Device) : world :=
  mkWorld (w_db ex_protected <| t_devices := devices |>
    <| t_api_tokens := [ex_token; ex_token <| token_ID := "t2" |> <| token_TokenHash := hashAPIToken "art_pat_y" |>] |>)
    [] (NewHub "src").
Definition ex_client (token : string) : Request :=
  mkRequest (λ h, if bool_decide (h = "Authorization") then "Bearer " +:+ token else "") "10.0.0.9" "client".
Definition ex_deploy (uuid key : string) : option deployRequest := Some (mkDeployRequest "d100" uuid (ex_key key)).

(** An impostor's heartbeat, report and deployment, and a rendezvous server. *)
Definition ex_intrusion : list device_request :=
  [ReqHeartbeat (ex_client "") ex_login_call (Some (mkHeartbeatRequest "d100" "uuid-2" 1 0 []));
   ReqSysinfo (ex_client "") ex_login_call (Some (mkSysinfoRequest "d100" "uuid-2" "" "evil" "" "linux" "" "1"));
   ReqDeviceHeartbeat ex_login_call (Some (mkDeviceHeartbeatRequest "d100" "uuid-2" "10.0.0.9"));
   ReqDeploy (ex_client "art_pat_x") ex_login_call (ex_deploy "uuid-2" "B")].

Lemma device_identity_pinned_witness :
  ∃ v', v' ∈ t_devices (w_db (serve_devices (H:=ascii_unicode) (H1:=ex_argon2) (H2:=ex_jwt) (H3:=ex_sealed)
          ex_server minute ex_orders false ex_intrusion (ex_fleet [ex_bench])))
    ∧ device_ClientUUID v' = "uuid-1" ∧ device_PublicKey v' = ex_key "A".
Proof.
  destruct (device_identity_pinned (H:=ascii_unicode) (H1:=ex_argon2) (H2:=ex_jwt) (H3:=ex_sealed)
    ex_server minute ex_orders false ex_intrusion (ex_fleet [ex_bench]) ex_bench) as (v' & Hv' & _ & Hu & _ & Hk).
  - apply (bool_decide_eq_true_1 (devices_ok _)). vm_compute. reflexivity.
  - left.
  - reflexivity.
  - discriminate.
  - exists v'. split; [exact Hv'|]. split; [exact Hu|]. apply Hk.
    apply (bool_decide_eq_true_1 (Forall _ _)). vm_compute. reflexivity.
Defined.

(** Two deployments of a new device: the checks of the second run before the
    writes of the first, its writes after them. *)
Abbreviation ex_check :=
  (deploy_checked (H:=ascii_unicode) minute (ex_client "art_pat_y") ex_login_call (ex_deploy "uuid-2" "B") (ex_fleet []))
  (only parsing).
Abbreviation ex_first world :=
  (deployDevice (H:=ascii_unicode) minute (ex_client "art_pat_x") ex_login_call (ex_deploy "uuid-1" "A") world)
  (only parsing).

(** the check of a deployment and its write are not one transaction: when
    two deployments of a new identifier with different UUIDs overlap, both are
    answered OK, and the device keeps the UUID of the first with the public key
    of the second.  One after the other, the second is refused. *)
Theorem concurrent_deploy_replaces_key :
  (∃ checked w1, ex_check = (Ok (inr checked), w1)
    ∧ (ex_first w1).1 = Ok (writeJSON 200 "OK")
    ∧ let '(r, w3) := deploy_device (ex_client "art_pat_y") ex_login_call checked (ex_first w1).2 in
      r = Ok (writeJSON 200 "OK")
      ∧ (λ v, (device_ClientUUID v, device_PublicKey v)) <$> t_devices (w_db w3) = [("uuid-1", ex_key "B")])
  ∧ (deployDevice (H:=ascii_unicode) minute (ex_client "art_pat_y") ex_login_call (ex_deploy "uuid-2" "B")
       (ex_first (ex_fleet [])).2).1 = Ok (writeJSON 200 "ID_TAKEN").
Proof.
  split; [|vm_compute; reflexivity]. do 2 eexists. split; [vm_compute; reflexivity|].
  split; [vm_compute; reflexivity|]. vm_compute. split; reflexivity.
Qed.
