(* ===== verification/ClientBuilds.v ===== *)
(** * Client profiles and builds over HTTP (art-api/internal: managedclient/builder.go,
      httpapi/client_profiles.go, httpapi/builder_api.go)

    The profiles of managed clients, the queue of their builds, and the workers
    that claim a build under a lease and deliver its artifact.  How a profile's
    maps are ranged over and how a bundle is encoded are parameters. *)

From S2P Require Export Managed Http Rbac Inventory.
From S2P Require Import Text Encoding Crypto Builds Sample Keeps.

(** ** Text *)

(** Runs of bytes outside [a-z0-9] become one dash; [dashed]: one was just written. *)
Definition plain_name_byte (a : Ascii.ascii) : bool :=
  ((97 <=? byte a) && (byte a <=? 122)) || ((48 <=? byte a) && (byte a <=? 57)).
Fixpoint dash_runs (dashed : bool) (l : bytes) : bytes :=
  match l with
  | [] => []
  | a :: l => if plain_name_byte a then a :: dash_runs false l
              else if dashed then dash_runs true l else ascii_of 45 :: dash_runs true l
  end.

Definition safeName `{Unicode} (value : string) : string :=
  let l := TrimCut [ascii_of 45] (dash_runs false (bytes_of (ToLower (TrimSpace value)))) in
  if bool_decide (l = []) then "client" else of_bytes (take 64 l).

Definition slash_byte (a : Ascii.ascii) : Ascii.ascii := if byte a =? 92 then ascii_of 47 else a.
Definition safeArtifactName `{Unicode} (value : string) : string :=
  let value := TrimSpace (of_bytes (slash_byte <$> bytes_of value)) in
  if bool_decide (value = "") || bool_decide (ascii_of 47 ∈ bytes_of value) || bool_decide (value ∈ ["."; ".."])
     || (192 <? len value) then "" else value.

Definition truncateBuildError (value : string) : string := String.substring 0 1024 value.

(** The loop of [cleanCapabilities]: [seen] in the order of the result. *)
Fixpoint clean_from `{Unicode} (seen allowed : list string) (values : list string) : option (list string) :=
  match values with
  | [] => Some seen
  | value :: rest =>
      let value := ToLower (TrimSpace value) in
      if negb (bool_decide (value ∈ allowed)) then None
      else clean_from (if bool_decide (value ∈ seen) then seen else seen ++ [value]) allowed rest
  end.
Definition cleanCapabilities `{Unicode} (values allowed : list string) : option (list string) := clean_from [] allowed values.

Definition platforms_allowed : list string := ["windows"; "linux"; "macos"; "android"].
Definition architectures_allowed : list string := ["amd64"; "arm64"].
Definition claim_formats : list string := ["portable"; "installer"; "apk"].
Definition build_formats : list string := "configuration" :: claim_formats.

(** [max(time.Minute, min(lease, 15*time.Minute))] *)
Definition clamp_lease (lease : duration) : duration := Z.max minute (Z.min lease (15 * minute)).

Record BuildRequest := mkBuildRequest {
  breq_ProfileID : string; breq_TargetOS : string; breq_Architecture : string; breq_Format : string; breq_CreatedBy : string }.
Record Artifact := mkArtifact { artifact_Name : string; artifact_MediaType : string; artifact_Data : bytes }.

(** [json.Marshal] of a bundle without its signature, and [json.MarshalIndent]
    of the bundle. *)
Class BundleJson := {
  unsigned_json : string * ClientProfile * time → option bytes;
  bundle_json : Bundle → option bytes
}.

Section Service.
Context `{Unicode} `{BundleJson} (signingSecret : bytes).

(** *** managedclient/builder.go *)

Definition ManifestBuilder_Build (profile : ClientProfile) (request : BuildRequest) (now : time) : res Artifact :=
  res_bind (make_bundle signingSecret unsigned_json profile now) (λ bundle,
    match bundle_json bundle with
    | None => Err (ErrText "json")
    | Some data =>
        Ok (mkArtifact ("rustdesk-" +:+ safeName (profile_Name profile) +:+ "-" +:+ breq_TargetOS request +:+ "-"
                          +:+ breq_Architecture request +:+ ".profile.json") "application/json" data)
    end).

(** The artifact of a configuration, or its failure. *)
Definition with_artifact (value : ClientBuild) (built : res Artifact) (completed : time) : ClientBuild :=
  let value := value <| build_CompletedAt := Some completed |> in
  match built with
  | Err e => value <| build_Status := "failed" |> <| build_Error := truncateBuildError (error_text e) |>
  | Ok artifact =>
      value <| build_Status := "ready" |> <| build_ArtifactName := artifact_Name artifact |>
            <| build_MediaType := artifact_MediaType artifact |>
            <| build_SHA256 := hex_encode (sha256_Sum (artifact_Data artifact)) |>
            <| build_Artifact := of_bytes (artifact_Data artifact) |>
  end.

Definition CreateBuild (request : BuildRequest) (fresh : string) (now : time) : M ClientBuild :=
  let request := mkBuildRequest (TrimSpace (breq_ProfileID request)) (ToLower (TrimSpace (breq_TargetOS request)))
    (ToLower (TrimSpace (breq_Architecture request))) (ToLower (TrimSpace (breq_Format request))) (breq_CreatedBy request) in
  if negb (bool_decide (breq_TargetOS request ∈ platforms_allowed))
     || negb (bool_decide (breq_Architecture request ∈ architectures_allowed))
     || negb (bool_decide (breq_Format request ∈ build_formats))
  then throw (ErrText "unsupported build target") else
  if bool_decide (breq_Format request = "apk") && negb (bool_decide (breq_TargetOS request = "android"))
  then throw (ErrText "APK requires Android target") else
  profile ← FindClientProfileByID (breq_ProfileID request);
  let configuration := bool_decide (breq_Format request = "configuration") in
  let value := mkClientBuild fresh (profile_ID profile) (breq_TargetOS request) (breq_Architecture request)
    (breq_Format request) (if configuration then "building" else "queued") "" "" "" "" "" (breq_CreatedBy request) "" 0
    now None None None in
  CreateClientBuild value;;
  if negb configuration then ret value else
  let value := with_artifact value (ManifestBuilder_Build profile request now) now in
  UpdateClientBuild value;;
  ret value.

Definition ClaimBuild (workerID : string) (formats platforms architectures : list string) (lease : duration) (now : time)
    : M ClientBuild :=
  let workerID := TrimSpace workerID in
  let bad l := bool_decide (l = []) || (16 <? Z.of_nat (length l)) in
  if bool_decide (workerID = "") || (128 <? len workerID) || bad formats || bad platforms || bad architectures
  then throw (ErrText "invalid builder claim") else
  match cleanCapabilities formats claim_formats with
  | None => throw (ErrText "unsupported builder format")
  | Some cleanFormats =>
      match cleanCapabilities platforms platforms_allowed with
      | None => throw (ErrText "unsupported builder platform")
      | Some cleanPlatforms =>
          match cleanCapabilities architectures architectures_allowed with
          | None => throw (ErrText "unsupported builder architecture")
          | Some cleanArchitectures =>
              ClaimClientBuild workerID cleanFormats cleanPlatforms cleanArchitectures now (now + clamp_lease lease)
          end
      end
  end.

Definition ownedActiveBuild (buildID workerID : string) (now : time) : M ClientBuild :=
  value ← FindClientBuildByID (TrimSpace buildID);
  if negb (bool_decide (build_WorkerID value = TrimSpace workerID)) || negb (bool_decide (build_Status value ∈ in_progress))
     || match build_LeaseUntil value with Some until => negb (now <? until) | None => true end
  then throw (ErrText "build lease is not active") else ret value.

Definition RenewBuild (buildID workerID : string) (lease : duration) (now : time) : M ClientBuild :=
  value ← ownedActiveBuild buildID workerID now;
  let value := value <| build_LeaseUntil := Some (now + clamp_lease lease) |> <| build_Status := "building" |> in
  UpdateClaimedClientBuild value workerID now;;
  ret value.

Definition CompleteBuild (buildID workerID name mediaType expectedSHA : string) (artifact : bytes) (now : time) : M ClientBuild :=
  value ← ownedActiveBuild buildID workerID now;
  let name := safeArtifactName name in
  if bool_decide (name = "") || bool_decide (artifact = []) || (2 ^ 24 <? Z.of_nat (length artifact)) || (128 <? len mediaType)
  then throw (ErrText "invalid client artifact") else
  let digest := hex_encode (sha256_Sum artifact) in
  if negb (bool_decide (expectedSHA = "")) && negb (EqualFold (TrimSpace expectedSHA) digest)
  then throw (ErrText "artifact digest mismatch") else
  let mediaType := TrimSpace mediaType in
  let mediaType := if bool_decide (mediaType = "") then "application/octet-stream" else mediaType in
  let value := value <| build_Status := "ready" |> <| build_ArtifactName := name |> <| build_SHA256 := digest |>
    <| build_Artifact := "base64:" +:+ StdEncoding_EncodeToString artifact |> <| build_MediaType := mediaType |>
    <| build_Error := "" |> <| build_LeaseUntil := None |> <| build_CompletedAt := Some now |> in
  UpdateClaimedClientBuild value workerID now;;
  ret value.

Definition FailBuild (buildID workerID message : string) (now : time) : M ClientBuild :=
  value ← ownedActiveBuild buildID workerID now;
  let value := value <| build_Status := "failed" |> <| build_Error := truncateBuildError (TrimSpace message) |>
    <| build_LeaseUntil := None |> <| build_CompletedAt := Some now |> in
  UpdateClaimedClientBuild value workerID now;;
  ret value.
End Service.

(** ** httpapi/builder_api.go

    [workerID] is the worker whose token the request carries. *)

Definition issueBuilderToken (random : option bytes) : option string :=
  (λ raw, "rds_builder_" +:+ base64_encode url_alphabet raw) <$> random.

Record builderClaimRequest := mkBuilderClaimRequest {
  bcr_WorkerID : string; bcr_Formats : list string; bcr_Platforms : list string; bcr_Architectures : list string;
  bcr_LeaseSeconds : Z }.

Record builderWorkerRequest := mkBuilderWorkerRequest {
  bwr_ID : string; bwr_Name : string; bwr_Hostname : string; bwr_Version : string; bwr_Formats : list string;
  bwr_Platforms : list string; bwr_Architectures : list string; bwr_Concurrency : Z }.

(** The worker, with its token when it registers. *)
Definition worker_reply : Type := BuilderWorker * option string.

(** The content of the file that is served. *)
Record served_file := mkServedFile {
  served_MediaType : string; served_Name : string; served_SHA256 : string; served_Data : bytes }.

Section Handlers.
Context `{Unicode} `{Url} `{BundleJson} (signingSecret : bytes) (ttl : duration).
Context (orders : gmap string any → list (string * any)).

Definition validBuilderCapabilities (values allowed : list string) : bool :=
  forallb (λ value, bool_decide (ToLower (TrimSpace value) ∈ allowed)) values.

Definition registerBuilderWorker (registration : bool) (workerID : string) (c : Call) (random : option bytes)
    (body : option builderWorkerRequest) : M (Reply worker_reply) :=
  match body with
  | None => ret (writeError 400 "invalid builder worker")
  | Some input =>
      let id := TrimSpace (bwr_ID input) in let name := TrimSpace (bwr_Name input) in
      let hostname := TrimSpace (bwr_Hostname input) in let version := TrimSpace (bwr_Version input) in
      let count {A} (l : list A) := Z.of_nat (length l) in
      if negb registration && negb (bool_decide (id = workerID)) then ret (writeError 403 "worker identity mismatch") else
      if bool_decide (id = "") || (128 <? len id) || bool_decide (name = "") || (128 <? len name)
         || (253 <? len hostname) || (64 <? len version) || (bwr_Concurrency input <? 1) || (32 <? bwr_Concurrency input)
         || bool_decide (bwr_Formats input = []) || (16 <? count (bwr_Formats input))
         || (16 <? count (bwr_Platforms input)) || (16 <? count (bwr_Architectures input))
      then ret (writeError 400 "invalid builder worker") else
      if negb (validBuilderCapabilities (bwr_Formats input) build_formats)
         || negb (validBuilderCapabilities (bwr_Platforms input) platforms_allowed)
         || negb (validBuilderCapabilities (bwr_Architectures input) architectures_allowed)
      then ret (writeError 400 "invalid builder capabilities") else
      let now := call_now c in
      match (if registration then issueBuilderToken random else Some "") with
      | None => ret (writeError 500 "builder credential generation failed")
      | Some token =>
          let value := mkBuilderWorker id name hostname version (bwr_Formats input) (bwr_Platforms input)
            (bwr_Architectures input) (bwr_Concurrency input) "online" now now now
            (if registration then builderTokenHash token else "") in
          stored ← try (UpsertBuilderWorker value);
          if negb (is_ok stored) then ret (writeError 500 "builder worker update failed") else
          record c 0 (mkAuditEvent "" zero_time "builder_worker_heartbeat" "" "" id "" "" "success" ""
            {["name" := VString name; "version" := VString version; "formats" := VOther]});;
          ret (writeJSON 200 (value, if registration then Some token else None))
      end
  end.

Definition listBuilderWorkers (now : time) : M (Reply (list BuilderWorker)) :=
  values ← try ListBuilderWorkers;
  ret (match values with
       | Err _ => writeError 500 "builder workers unavailable"
       | Ok values => writeJSON 200 ((λ w, if 30 * second <? Sub now (worker_LastSeenAt w)
                                           then w <| worker_Status := "offline" |> else w) <$> values)
       end).

(** A body that names another worker is refused. *)
Definition other_worker (named workerID : string) : bool :=
  negb (bool_decide (named = "")) && negb (bool_decide (named = workerID)).

Definition build_event (type worker result reason : string) (metadata : gmap string any) : AuditEvent :=
  mkAuditEvent "" zero_time type "" "" worker "" "" result reason metadata.

Definition claimClientBuild (workerID : string) (c : Call) (body : option builderClaimRequest) : M (Reply ClientBuild) :=
  match body with
  | None => ret (writeError 400 "invalid builder claim")
  | Some input =>
      if other_worker (bcr_WorkerID input) workerID then ret (writeError 403 "worker identity mismatch") else
      claimed ← try (ClaimBuild workerID (bcr_Formats input) (bcr_Platforms input) (bcr_Architectures input)
                       (seconds (bcr_LeaseSeconds input)) (call_now c));
      match claimed with
      | Err ErrNotFound => ret (mkReply 204 NoContent)
      | Err e => ret (writeError 400 (error_text e))
      | Ok value =>
          record c 0 (build_event "client_build_claimed" workerID "leased" ""
            {["build_id" := VString (build_ID value); "attempt" := VOther]});;
          ret (writeJSON 200 value)
      end
  end.

Definition heartbeatClientBuild (workerID buildID : string) (c : Call) (body : option (string * Z)) : M (Reply ClientBuild) :=
  match body with
  | None => ret (writeError 400 "invalid build heartbeat")
  | Some (named, lease) =>
      if other_worker named workerID then ret (writeError 403 "worker identity mismatch") else
      renewed ← try (RenewBuild buildID workerID (seconds lease) (call_now c));
      ret (match renewed with Ok value => writeJSON 200 value | Err e => writeError 409 (error_text e) end)
  end.

Definition clientBuildPayload (workerID buildID : string) (now : time) : M (Reply (ClientBuild * Bundle)) :=
  found ← try (FindClientBuildByID buildID);
  match found with
  | Err _ => ret (writeError 404 "client build not found")
  | Ok value =>
      if negb (bool_decide (build_WorkerID value = workerID))
         || match build_LeaseUntil value with Some until => negb (now <? until) | None => true end
      then ret (writeError 409 "build lease is not active") else
      profile ← try (FindClientProfileByID (build_ProfileID value));
      ret (match profile with
           | Err _ => writeError 404 "client profile not found"
           | Ok profile =>
               match make_bundle signingSecret unsigned_json profile (build_CreatedAt value) with
               | Err _ => writeError 500 "build payload unavailable"
               | Ok bundle => writeJSON 200 (value, bundle)
               end
           end)
  end.

(** [length]: the header Content-Length parsed, zero when it is no number; the
    body is [None] beyond its limit. *)
Definition completeClientBuild (workerID buildID : string) (req : Request) (c : Call) (length : Z) (body : option bytes)
    : M (Reply ClientBuild) :=
  if bool_decide (workerID = "") || (2 ^ 24 <? length) then ret (writeError 400 "invalid client artifact") else
  match body with
  | None => ret (writeError 413 "client artifact is too large")
  | Some data =>
      completed ← try (CompleteBuild buildID workerID (request_Header req "X-RDS-Artifact-Name")
        (request_Header req "Content-Type") (request_Header req "X-Content-SHA256") data (call_now c));
      match completed with
      | Err e => ret (writeError 409 (error_text e))
      | Ok value =>
          record c 0 (build_event "client_build_completed" workerID "ready" ""
            {["build_id" := VString (build_ID value); "sha256" := VString (build_SHA256 value);
              "artifact_name" := VString (build_ArtifactName value)]});;
          ret (writeJSON 200 value)
      end
  end.

Definition failClientBuild (workerID buildID : string) (c : Call) (body : option (string * string)) : M (Reply ClientBuild) :=
  match body with
  | None => ret (writeError 400 "invalid build failure")
  | Some (named, message) =>
      if other_worker named workerID then ret (writeError 403 "worker identity mismatch") else
      failed ← try (FailBuild buildID workerID message (call_now c));
      match failed with
      | Err e => ret (writeError 409 (error_text e))
      | Ok value =>
          record c 0 (build_event "client_build_failed" workerID "failed" (build_Error value)
            {["build_id" := VString (build_ID value); "attempt" := VOther]});;
          ret (writeJSON 200 value)
      end
  end.

(** ** httpapi/client_profiles.go *)

Definition auditClientProfile (c : Call) (p : Principal) (eventType id : string) : M unit :=
  record c 0 (audit_event eventType (user_ID (principal_User p)) (session_ID (principal_Session p)) "" "success" ""
    {["client_profile_id" := VString id]}).

Definition auditClientBuild (c : Call) (p : Principal) (eventType : string) (value : ClientBuild) : M unit :=
  record c 0 (audit_event eventType (user_ID (principal_User p)) (session_ID (principal_Session p)) "" (build_Status value) ""
    {["build_id" := VString (build_ID value); "profile_id" := VString (build_ProfileID value)]}).

Definition listClientProfiles : M (Reply (list ClientProfile)) :=
  values ← try ListClientProfiles;
  ret (match values with Ok values => writeJSON 200 values | Err _ => writeError 500 "client profiles unavailable" end).

Definition trimmed_profile (value : ClientProfile) : ClientProfile :=
  value <| profile_Name := TrimSpace (profile_Name value) |> <| profile_Description := TrimSpace (profile_Description value) |>
        <| profile_Platform := ToLower (TrimSpace (profile_Platform value)) |>.

Definition validate_profile (value : ClientProfile) : res unit :=
  ValidateProfile (orders (profile_Settings value)) (orders (profile_Branding value)) value.

Definition createClientProfile (c : Call) (p : Principal) (fresh : string) (body : option ClientProfile)
    : M (Reply ClientProfile) :=
  match body with
  | None => ret (writeError 400 "invalid client profile")
  | Some value =>
      let value := trimmed_profile value in
      match validate_profile value with
      | Err e => ret (writeError 400 (error_text e))
      | Ok _ =>
          let now := call_now c in
          let value := value <| profile_ID := fresh |> <| profile_Version := 1 |> <| profile_CreatedAt := now |>
                             <| profile_UpdatedAt := now |> in
          created ← try (CreateClientProfile value);
          if negb (is_ok created) then ret (writeError 409 "client profile already exists") else
          auditClientProfile c p "client_profile_created" fresh;;
          ret (writeJSON 201 value)
      end
  end.

Definition updateClientProfile (c : Call) (p : Principal) (profileID : string) (body : option ClientProfile)
    : M (Reply ClientProfile) :=
  existing ← try (FindClientProfileByID profileID);
  match existing with
  | Err ErrNotFound => ret (writeError 404 "client profile not found")
  | Err _ => ret (writeError 500 "client profile unavailable")
  | Ok existing =>
      match body with
      | None => ret (writeError 400 "invalid client profile")
      | Some value =>
          let value := trimmed_profile (value <| profile_ID := profile_ID existing |>
            <| profile_CreatedAt := profile_CreatedAt existing |> <| profile_Version := profile_Version existing + 1 |>
            <| profile_UpdatedAt := call_now c |>) in
          match validate_profile value with
          | Err e => ret (writeError 400 (error_text e))
          | Ok _ =>
              updated ← try (UpdateClientProfile value);
              if negb (is_ok updated) then ret (writeError 500 "cannot update client profile") else
              auditClientProfile c p "client_profile_updated" (profile_ID value);;
              ret (writeJSON 200 value)
          end
      end
  end.

(** A deletion answered by its error. *)
Definition deleted_reply (deleted : res unit) (missing failed : string) (audit : M unit) : M (Reply unit) :=
  match deleted with
  | Err ErrNotFound => ret (writeError 404 missing)
  | Err _ => ret (writeError 500 failed)
  | Ok _ => audit;; ret (mkReply 204 NoContent)
  end.

Definition deleteClientProfile (c : Call) (p : Principal) (id : string) : M (Reply unit) :=
  deleted ← try (DeleteClientProfile id);
  deleted_reply deleted "client profile not found" "cannot delete client profile"
    (auditClientProfile c p "client_profile_deleted" id).

Definition clientProfileBundle (profileID : string) (now : time) : M (Reply Bundle) :=
  profile ← try (FindClientProfileByID profileID);
  ret (match profile with
       | Err ErrNotFound => writeError 404 "client profile not found"
       | Err _ => writeError 500 "client profile unavailable"
       | Ok profile => match make_bundle signingSecret unsigned_json profile now with
                       | Err _ => writeError 500 "bundle unavailable"
                       | Ok bundle => writeJSON 200 bundle
                       end
       end).

Definition listClientProfileAssignments : M (Reply (list ClientProfileAssignment)) :=
  values ← try ListClientProfileAssignments;
  ret (match values with Ok values => writeJSON 200 values | Err _ => writeError 500 "assignments unavailable" end).

Definition validClientProfileScope (now : time) (scopeType scopeID : string) : M bool :=
  if bool_decide (scopeType = "global") then ret true
  else if bool_decide (scopeType = "user") then user ← try (FindUserByID scopeID); ret (is_ok user)
  else if bool_decide (scopeType = "user_group") || bool_decide (scopeType = "device_group") then
    group ← try (FindGroupByID scopeID);
    ret (match group with
         | Err _ => false
         | Ok group => if bool_decide (scopeType = "user_group") then bool_decide (group_Kind group = GroupKindUser)
                       else bool_decide (group_Kind group = GroupKindDevice)
         end)
  else if bool_decide (scopeType = "device") then
    devices ← try (ListDevices ttl now);
    ret (match devices with
         | Err _ => false
         | Ok devices => existsb (λ device, bool_decide (device_RustDeskID device = scopeID)) devices
         end)
  else ret false.

Definition createClientProfileAssignment (c : Call) (p : Principal) (fresh : string) (body : option ClientProfileAssignment)
    : M (Reply ClientProfileAssignment) :=
  match body with
  | None => ret (writeError 400 "invalid assignment")
  | Some value =>
      let scope := TrimSpace (assignment_ScopeType value) in
      let value := value <| assignment_ProfileID := TrimSpace (assignment_ProfileID value) |>
        <| assignment_ScopeType := scope |> <| assignment_ScopeID := TrimSpace (assignment_ScopeID value) |> in
      let no_id := bool_decide (assignment_ScopeID value = "") in
      if (assignment_Priority value <? 1) || (100000 <? assignment_Priority value)
         || negb (bool_decide (scope ∈ ["global"; "user"; "user_group"; "device_group"; "device"]))
         || (bool_decide (scope = "global") && negb no_id) || (negb (bool_decide (scope = "global")) && no_id)
      then ret (writeError 400 "invalid assignment") else
      profile ← try (FindClientProfileByID (assignment_ProfileID value));
      if negb (is_ok profile) then ret (writeError 400 "client profile not found") else
      valid ← validClientProfileScope (call_now c) scope (assignment_ScopeID value);
      if negb valid then ret (writeError 400 "assignment target not found") else
      let value := value <| assignment_ID := fresh |> <| assignment_CreatedAt := call_now c |> in
      created ← try (CreateClientProfileAssignment value);
      if negb (is_ok created) then ret (writeError 500 "cannot create assignment") else
      auditClientProfile c p "client_profile_assigned" (assignment_ProfileID value);;
      ret (writeJSON 201 value)
  end.

Definition deleteClientProfileAssignment (c : Call) (p : Principal) (assignmentID : string) : M (Reply unit) :=
  deleted ← try (DeleteClientProfileAssignment assignmentID);
  deleted_reply deleted "assignment not found" "cannot delete assignment"
    (auditClientProfile c p "client_profile_unassigned" assignmentID).

Definition effectiveClientProfile (now : time) (rustdeskID : string) : M (Reply Effective) :=
  devices ← try (ListDevices ttl now);
  match devices with
  | Err _ => ret (writeError 500 "devices unavailable")
  | Ok devices =>
      match head (filter (λ device, device_RustDeskID device = rustdeskID) devices) with
      | None => ret (writeError 404 "device not found")
      | Some device =>
          value ← try (Managed_EffectiveForDevice device);
          ret (match value with Ok value => writeJSON 200 value | Err _ => writeError 500 "client profile unavailable" end)
      end
  end.

Definition listClientBuilds : M (Reply (list ClientBuild)) :=
  values ← try (ListClientBuilds 100);
  ret (match values with Ok values => writeJSON 200 values | Err _ => writeError 500 "client builds unavailable" end).

(** The body: profile, system, architecture and format. *)
Definition createClientBuild (c : Call) (p : Principal) (fresh : string) (body : option (string * string * string * string))
    : M (Reply ClientBuild) :=
  match body with
  | None => ret (writeError 400 "invalid build")
  | Some (profileID, os, architecture, format) =>
      created ← try (CreateBuild signingSecret (mkBuildRequest profileID os architecture format (user_ID (principal_User p)))
                       fresh (call_now c));
      match created with
      | Err e => ret (writeError 400 (error_text e))
      | Ok value =>
          record c 0 (audit_event "client_build_created" (user_ID (principal_User p)) (session_ID (principal_Session p))
            "" (build_Status value) "" {["build_id" := VString (build_ID value); "profile_id" := VString (build_ProfileID value);
              "target_os" := VString (build_TargetOS value); "architecture" := VString (build_Architecture value);
              "format" := VString (build_Format value)]});;
          ret (writeJSON 201 value)
      end
  end.

(** The bytes of a stored artifact. *)
Definition artifact_bytes (stored : string) : option bytes :=
  if HasPrefix stored "base64:" then StdEncoding_DecodeString (TrimPrefix stored "base64:") else Some (bytes_of stored).

Definition clientBuildArtifact (buildID : string) : M (Reply served_file) :=
  found ← try (FindClientBuildByID buildID);
  ret (match found with
       | Err ErrNotFound => writeError 404 "client build not found"
       | Err _ => writeError 500 "client build unavailable"
       | Ok value =>
           if negb (bool_decide (build_Status value = "ready")) || bool_decide (build_Artifact value = "")
           then writeError 409 "client artifact is not ready" else
           match artifact_bytes (build_Artifact value) with
           | None => writeError 500 "client artifact unavailable"
           | Some artifact =>
               let mediaType := if bool_decide (build_MediaType value = "") then "application/octet-stream" else build_MediaType value in
               writeJSON 200 (mkServedFile mediaType (build_ArtifactName value) (build_SHA256 value) artifact)
           end
       end).

(** A build that is found, checked, changed and written back. *)
Definition change_build (c : Call) (p : Principal) (buildID : string) (allowed : ClientBuild → bool) (refusal : string)
    (change : ClientBuild → ClientBuild) (eventType : string) : M (Reply ClientBuild) :=
  found ← try (FindClientBuildByID buildID);
  match found with
  | Err _ => ret (writeError 404 "client build not found")
  | Ok value =>
      if negb (allowed value) then ret (writeError 409 refusal) else
      let value := change value in
      updated ← try (UpdateClientBuild value);
      if negb (is_ok updated) then ret (writeError 500 "client build update failed") else
      auditClientBuild c p eventType value;;
      ret (writeJSON 200 value)
  end.

Definition cancelClientBuild (c : Call) (p : Principal) (buildID : string) : M (Reply ClientBuild) :=
  change_build c p buildID (λ value, bool_decide (build_Status value ∈ "queued" :: in_progress)) "client build cannot be cancelled"
    (λ value, value <| build_Status := "cancelled" |> <| build_Error := "" |> <| build_LeaseUntil := None |>
                    <| build_CompletedAt := Some (call_now c) |>) "client_build_cancelled".

Definition retryClientBuild (c : Call) (p : Principal) (buildID : string) : M (Reply ClientBuild) :=
  change_build c p buildID
    (λ value, bool_decide (build_Status value ∈ ["failed"; "cancelled"]) && (build_Attempts value <? 5)) "client build cannot be retried"
    (λ value, value <| build_Status := "queued" |> <| build_Error := "" |> <| build_WorkerID := "" |>
                    <| build_StartedAt := None |> <| build_LeaseUntil := None |> <| build_CompletedAt := None |>) "client_build_retried".

(** ** Histories *)

Inductive build_request :=
| AskCreateBuild (c : Call) (p : Principal) (fresh : string) (body : option (string * string * string * string))
| AskClaim (workerID : string) (c : Call) (body : option builderClaimRequest)
| AskHeartbeat (workerID buildID : string) (c : Call) (body : option (string * Z))
| AskComplete (workerID buildID : string) (req : Request) (c : Call) (length : Z) (body : option bytes)
| AskFail (workerID buildID : string) (c : Call) (body : option (string * string))
| AskCancel (c : Call) (p : Principal) (buildID : string)
| AskRetry (c : Call) (p : Principal) (buildID : string)
| AskWorker (registration : bool) (workerID : string) (c : Call) (random : option bytes) (body : option builderWorkerRequest).

Definition serve_build (r : build_request) : M unit :=
  match r with
  | AskCreateBuild c p fresh body => discard (createClientBuild c p fresh body)
  | AskClaim workerID c body => discard (claimClientBuild workerID c body)
  | AskHeartbeat workerID buildID c body => discard (heartbeatClientBuild workerID buildID c body)
  | AskComplete workerID buildID req c length body => discard (completeClientBuild workerID buildID req c length body)
  | AskFail workerID buildID c body => discard (failClientBuild workerID buildID c body)
  | AskCancel c p buildID => discard (cancelClientBuild c p buildID)
  | AskRetry c p buildID => discard (retryClientBuild c p buildID)
  | AskWorker registration workerID c random body => discard (registerBuilderWorker registration workerID c random body)
  end.
Definition serve_builds (rs : list build_request) (w : world) : world := foldl (λ w r, (serve_build r w).2) w rs.
End Handlers.

(** ** What a build that is ready hands out *)

(** The artifact decodes, and the digest is its digest. *)
Definition deliverable (b : ClientBuild) : Prop :=
  build_Status b = "ready" →
  ∃ data, artifact_bytes (build_Artifact b) = Some data ∧ build_SHA256 b = hex_encode (sha256_Sum data).

(** Every build that is ready is deliverable. *)
Definition artifacts_ok (d : DB) : Prop :=
  client_builds_ok d ∧ ∀ b, b ∈ t_client_builds d → deliverable b.

(** [row] is in the table, and is ready. *)
Definition holds_ready (row : ClientBuild) (d : DB) : Prop :=
  artifacts_ok d ∧ row ∈ t_client_builds d ∧ build_Status row = "ready".

Lemma artifact_encoded data : artifact_bytes ("base64:" +:+ StdEncoding_EncodeToString data) = Some data.
Proof. unfold artifact_bytes. by rewrite HasPrefix_app, TrimPrefix_app, StdEncoding_roundtrip. Qed.

(** A JSON object is not taken for the encoded form. *)
Lemma artifact_json data : head data = Some (ascii_of 123) → artifact_bytes (of_bytes data) = Some data.
Proof.
  intros Hd. unfold artifact_bytes. destruct data as [|a data]; [done|]. injection Hd as ->.
  change (HasPrefix _ _) with false. cbv iota. by rewrite bytes_of_of_bytes.
Qed.

Section Ready.
Context (row : ClientBuild).
Implicit Types (d : DB) (h : Hub) (v b : ClientBuild).

Lemma ready_not_progress b : build_Status b ∈ in_progress → build_Status b ≠ "ready".
Proof. intros Hb Heq. revert Hb. rewrite Heq. apply (bool_decide_eq_false_1 ("ready" ∈ in_progress)). reflexivity. Qed.

(** A table changed where the row is not, by rows that are deliverable. *)
Lemma holds_ready_update d d' (P : ClientBuild → Prop) `{∀ x, Decision (P x)} f :
  holds_ready row d → client_builds_ok d' → t_client_builds d' = update_where P f (t_client_builds d) →
  ¬ P row → (∀ b, b ∈ t_client_builds d → P b → deliverable (f b)) → holds_ready row d'.
Proof.
  intros ((_ & Hall) & Hrow & Hready) Hok' Ht Hnot Hf. split; [split; [done|]|split; [rewrite Ht; by apply update_where_other|done]].
  intros b. rewrite Ht. intros (b0 & Hb0 & ->)%elem_of_update_where. case_decide; auto.
Qed.

Lemma holds_ready_insert d d' v :
  holds_ready row d → client_builds_ok d' → t_client_builds d' = t_client_builds d ++ [v] → deliverable v →
  holds_ready row d'.
Proof.
  intros ((_ & Hall) & Hrow & Hready) Hok' Ht Hv. split; [split; [done|]|split; [rewrite Ht; set_solver|done]].
  intros b. rewrite Ht. intros [?| ->%list_elem_of_singleton]%elem_of_app; auto.
Qed.

(** The stores: what [v] must satisfy to be written. *)
Lemma ready_Update v d h :
  holds_ready row d → build_ID v ≠ build_ID row → deliverable v →
  wp true (UpdateClientBuild v) (λ _ d' _, holds_ready row d') d h.
Proof.
  intros Hd Hid Hv. unfold UpdateClientBuild. wp_go; try done;
    (eapply holds_ready_update; [exact Hd|assumption|by read_tables|naive_solver|]; by intros b Hb _).
Qed.

Lemma ready_UpdateClaimed v workerID now : deliverable v → keeps (holds_ready row) (UpdateClaimedClientBuild v workerID now).
Proof.
  intros Hv d h Hd. unfold UpdateClaimedClientBuild. wp_go; try done;
    (eapply holds_ready_update; [exact Hd|assumption|by read_tables| |]; [|by intros b Hb _];
     intros (_ & _ & Hp & _); by apply ready_not_progress in Hp; destruct Hd as (_ & _ & ?)).
Qed.

Lemma ready_Claim workerID fs ps ars now until : keeps (holds_ready row) (ClaimClientBuild workerID fs ps ars now until).
Proof.
  intros d h Hd. pose proof Hd as ((Hok & Hall) & Hrow & Hready). eapply wp_mono; [by apply ClaimClientBuild_spec|].
  cbn. intros r d' h' [Hok' Hr].
  assert (Hsame : t_client_builds d' = t_client_builds d → holds_ready row d').
  { intros Ht. unfold holds_ready, artifacts_ok. rewrite Ht. auto. }
  destruct (next_claim fs ps ars now d) as [id|] eqn:Hid; [|by apply Hsame, Hr].
  destruct Hr as [(_ & _ & Ht)|[Ht _]]; [by apply Hsame|].
  eapply holds_ready_update; [exact Hd|done|exact Ht| |by intros b _ _ [=]].
  intros <-. destruct (next_claim_Some _ _ _ _ _ _ Hid) as (b & Hb & Heq & (_ & _ & _ & _ & Hst) & _).
  assert (b = row) as -> by (by apply (unique_row build_ID (t_client_builds d))).
  destruct Hst as [?|[?%ready_not_progress _]]; congruence.
Qed.

Lemma ready_Create v d h :
  holds_ready row d → deliverable v →
  wp true (CreateClientBuild v)
    (λ r d' _, holds_ready row d' ∧ (is_ok r = true → build_ID v ≠ build_ID row)) d h.
Proof.
  intros Hd Hv. unfold CreateClientBuild. wp_go; [exact Hd| | |exact Hd].
  - eapply holds_ready_insert; [exact Hd|assumption|by read_tables|done].
  - intros Heq. revert H. cbn. unfold client_builds_ok. read_tables. intros [_ Hn]%NoDup_fmap_snoc. apply Hn. cbn. rewrite Heq.
    apply list_elem_of_fmap_2, Hd.
Qed.

Lemma ready_Record event s : keeps (holds_ready row) (Audit_Record event s).
Proof. apply keeps_audit. by intros d d' (t1 & t2 & ->). Qed.

Lemma ready_UpsertWorker worker : keeps (holds_ready row) (UpsertBuilderWorker worker).
Proof. intros d h Hd. unfold UpsertBuilderWorker. wp_go; by subst. Qed.
End Ready.
#[export] Hint Resolve ready_Claim ready_Record ready_UpsertWorker : keeps.

Section ReadyHandlers.
Context `{Unicode} `{Url} `{BundleJson} (signingSecret : bytes).
Context (bundle_object : ∀ x data, bundle_json x = Some data → head data = Some (ascii_of 123)) (row : ClientBuild).
Implicit Types (d : DB) (h : Hub) (v b : ClientBuild).

Lemma with_artifact_deliverable profile request v now :
  deliverable (with_artifact v (ManifestBuilder_Build signingSecret profile request now) now).
Proof.
  unfold with_artifact, ManifestBuilder_Build. destruct (make_bundle _ _ _ _) as [bundle|e]; cbn [res_bind]; [|by intros [=]].
  destruct (bundle_json bundle) as [data|] eqn:Hj; [|by intros [=]]. intros _. exists data.
  split; [by apply artifact_json, (bundle_object _ _ Hj)|done].
Qed.

Lemma with_artifact_ID v built now : build_ID (with_artifact v built now) = build_ID v.
Proof. by destruct built. Qed.

Lemma ready_CreateBuild request fresh now : keeps (holds_ready row) (CreateBuild signingSecret request fresh now).
Proof.
  unfold CreateBuild. cbv zeta. destruct (_ || _); [apply keeps_throw|]. destruct (_ && _); [apply keeps_throw|].
  apply keeps_bind; [unfold FindClientProfileByID; keep|]. intros profile d h Hd. apply wp_bind.
  eapply wp_mono; [apply ready_Create; [exact Hd|]|].
  { intros Hst. cbn in Hst. by case_bool_decide. }
  intros [[]|e] d' h' [Hd' Hid]; [|exact Hd']. specialize (Hid eq_refl).
  destruct (negb _); [by apply wp_ret|].
  apply wp_bind. eapply wp_mono; [apply ready_Update; [exact Hd'| |apply with_artifact_deliverable]|].
  { by rewrite with_artifact_ID. }
  intros [[]|e] d2 h2 Hd2; [by apply wp_ret|exact Hd2].
Qed.

(** A build in progress that is found is not the row. *)
Lemma keeps_owned {B} buildID workerID now (k : ClientBuild → M B) :
  (∀ v, build_Status v ∈ in_progress → keeps (holds_ready row) (k v)) →
  keeps (holds_ready row) (mbind k (ownedActiveBuild buildID workerID now)).
Proof.
  intros Hk. apply (keeps_bind_post _ (λ v, build_Status v ∈ in_progress)); [|exact Hk].
  intros d h Hd. unfold ownedActiveBuild, FindClientBuildByID. wp_go; try done.
  simplify_bool. done.
Qed.

Lemma ready_RenewBuild buildID workerID lease now : keeps (holds_ready row) (RenewBuild buildID workerID lease now).
Proof. apply keeps_owned. intros v Hv. cbv zeta. keep. apply ready_UpdateClaimed. by intros [=]. Qed.

Lemma ready_CompleteBuild buildID workerID name mediaType sha data now :
  keeps (holds_ready row) (CompleteBuild buildID workerID name mediaType sha data now).
Proof.
  apply keeps_owned. intros v Hv. cbv zeta. keep. apply ready_UpdateClaimed. intros _. exists data.
  split; [apply artifact_encoded|done].
Qed.

Lemma ready_FailBuild buildID workerID message now : keeps (holds_ready row) (FailBuild buildID workerID message now).
Proof. apply keeps_owned. intros v Hv. cbv zeta. keep. apply ready_UpdateClaimed. by intros [=]. Qed.

Lemma found_build id d h :
  holds_ready row d →
  wp true (try (FindClientBuildByID id))
    (λ r d' _, holds_ready row d' ∧ match r with
       | Ok (Ok v) => build_ID v = build_ID row → build_Status v = "ready"
       | _ => True
       end) d h.
Proof.
  intros Hd. apply wp_try. unfold FindClientBuildByID. apply wp_query_row; [done|].
  destruct (select_one _ _) as [b|] eqn:Hs; [|done]. split; [done|]. apply select_one_Some in Hs as [Hb <-].
  destruct Hd as ((Hok & _) & Hrow & Hready). cbn. intros Heq.
  by assert (b = row) as -> by (by apply (unique_row build_ID (t_client_builds d))).
Qed.

(** A change of a build that is not ready, to one that is not ready either. *)
Lemma ready_change_build c p buildID allowed refusal change eventType :
  (∀ v, allowed v = true → build_Status v ≠ "ready") →
  (∀ v, build_Status (change v) ≠ "ready" ∧ build_ID (change v) = build_ID v) →
  keeps (holds_ready row) (change_build c p buildID allowed refusal change eventType).
Proof.
  intros Hallowed Hchange. unfold change_build.
  apply (keeps_bind_post _ (λ r, match r with Ok v => build_ID v = build_ID row → build_Status v = "ready" | _ => True end)).
  { intros d h Hd. eapply wp_mono; [by apply found_build|]. by intros [[]|] ? ? [? ?]. }
  intros [v|e] Hv; [|keep]. destruct (allowed v) eqn:Ha; cbn [negb]; [|keep].
  apply keeps_bind; [|unfold auditClientBuild, record; keep]. apply keeps_try. intros d h Hd.
  destruct (Hchange v) as [Hst Hid]. apply ready_Update; [done| |by intros ?].
  rewrite Hid. intros Heq. by apply (Hallowed v Ha), Hv.
Qed.

Lemma ready_serve r : keeps (holds_ready row) (serve_build signingSecret r).
Proof.
  destruct r; apply keeps_discard.
  - unfold createClientBuild, record. keep; auto using ready_CreateBuild with keeps.
  - unfold claimClientBuild, ClaimBuild, record. keep.
  - unfold heartbeatClientBuild. keep. apply ready_RenewBuild.
  - unfold completeClientBuild, record. keep; auto using ready_CompleteBuild with keeps.
  - unfold failClientBuild, record. keep; auto using ready_FailBuild with keeps.
  - apply ready_change_build; [|done]. intros v Hv Heq. rewrite Heq in Hv. discriminate Hv.
  - apply ready_change_build; [|done]. intros v Hv Heq. rewrite Heq in Hv. discriminate Hv.
  - unfold registerBuilderWorker, record. keep.
Qed.

(** C29: a build that is ready is final: in every history of requests to the
    builder and administration handlers, whatever the workers claim, renew,
    complete and report, whoever cancels or retries, and whichever statements
    fail, its row does not change; and the artifact that is served for it is
    the same bytes, with their SHA-256 digest, as is the artifact of every other
    build that becomes ready. *)
Theorem ready_artifact_final rs w :
  artifacts_ok (w_db w) → row ∈ t_client_builds (w_db w) → build_Status row = "ready" →
  let w' := serve_builds signingSecret rs w in
  row ∈ t_client_builds (w_db w')
  ∧ (∀ b, b ∈ t_client_builds (w_db w') → build_Status b = "ready" →
       ∃ data, artifact_bytes (build_Artifact b) = Some data ∧ build_SHA256 b = hex_encode (sha256_Sum data))
  ∧ ∀ id file, (clientBuildArtifact id w').1 = Ok (writeJSON 200 file) →
       served_SHA256 file = hex_encode (sha256_Sum (served_Data file))
       ∧ (id = build_ID row → artifact_bytes (build_Artifact row) = Some (served_Data file)).
Proof.
  intros Hok Hrow Hready w'. assert (Hw : holds_ready row (w_db w')).
  { assert (Hw : holds_ready row (w_db w)) by done. subst w'. clear Hok Hrow. revert w Hw.
    induction rs as [|r rs IH]; intros w Hw; [exact Hw|]. cbn. apply IH, keeps_run; [apply ready_serve|exact Hw]. }
  destruct Hw as ((Hu & Hall) & Hrow' & _). split; [done|]. split; [exact Hall|].
  intros id file Hserved. revert Hserved.
  apply (wp_run (F:=true) (λ r _ _, r = Ok (writeJSON 200 file) → _) (clientBuildArtifact id) w' I).
  unfold clientBuildArtifact, FindClientBuildByID. wp_go; try done.
  apply fmap_Some in Heqo as (b & [Hb Hid]%select_one_Some & ->). cbn.
  destruct (bool_decide (build_Status b = "ready")) eqn:Hst; [|done]. cbn [negb orb].
  destruct (bool_decide (build_Artifact b = "")); [done|]. apply bool_decide_eq_true in Hst.
  destruct (Hall b Hb Hst) as (data & Hdata & Hsha). rewrite Hdata. intros [= <-]. cbn. split; [done|].
  intros Hrowid. by assert (b = row) as <- by (apply (unique_row build_ID _ _ _ Hu Hb Hrow'); congruence).
Qed.
End ReadyHandlers.

(** *** A build that a worker completes, and attempts to change it *)

Definition ex_bundle_json : BundleJson :=
  {| unsigned_json := λ _, Some (bytes_of "{}"); bundle_json := λ _, Some (bytes_of "{}") |}.
Definition ex_url : Url := {| ParseURL := λ _, None |}.
Definition ex_pending : ClientBuild :=
  mkClientBuild "b1" "p" "linux" "amd64" "portable" "queued" "" "" "" "" "" "u0" "" 0 1 None None None.
Definition ex_build_world : world := mkWorld (empty_db <| t_client_builds := [ex_pending] |>) [] (NewHub "src").
Definition ex_worker_call (now : time) : Call := mkCall now (λ _, mkStamp "e1" "e1" now) (mkEntropy "" "" "" None 1).
Definition ex_upload : Request :=
  mkRequest (λ name, if bool_decide (name = "X-RDS-Artifact-Name") then "client.deb" else "") "10.0.0.2" "builder".
Definition ex_admin : Principal := mkPrincipal (ex_user "u0" "root" RoleAdmin) (ex_session "s0" "u0") ex_claims.
Definition ex_work (worker : string) (now : time) (data : string) : list build_request := [
  AskClaim worker (ex_worker_call now) (Some (mkBuilderClaimRequest "" ["portable"] ["linux"] ["amd64"] 60));
  AskComplete worker "b1" ex_upload (ex_worker_call (now + second)) 0 (Some (bytes_of data))].
Abbreviation ex_serve_builds rs w :=
  (serve_builds (H:=ascii_unicode) (H1:=ex_bundle_json) [] rs w) (only parsing).
Abbreviation ex_built := (ex_serve_builds (ex_work "w1" (10 * second) "client") ex_build_world).
Abbreviation ex_late_requests :=
  ([AskCancel (ex_worker_call (20 * second)) ex_admin "b1"; AskRetry (ex_worker_call (21 * second)) ex_admin "b1"]
     ++ ex_work "w2" (30 * second) "another") (only parsing).
Definition ex_ready : ClientBuild := default ex_pending (head (t_client_builds (w_db ex_built))).

Lemma ready_artifact_final_witness :
  ex_ready ∈ t_client_builds (w_db (ex_serve_builds ex_late_requests ex_built))
  ∧ build_Status ex_ready = "ready" ∧ artifact_bytes (build_Artifact ex_ready) = Some (bytes_of "client").
Proof.
  assert (Hone : t_client_builds (w_db ex_built) = [ex_ready]) by (vm_compute; reflexivity).
  assert (Hready : build_Status ex_ready = "ready") by (vm_compute; reflexivity).
  assert (Hdata : artifact_bytes (build_Artifact ex_ready) = Some (bytes_of "client")) by (vm_compute; reflexivity).
  assert (Hsha : build_SHA256 ex_ready = hex_encode (sha256_Sum (bytes_of "client"))) by (vm_compute; reflexivity).
  split; [|split; [exact Hready|exact Hdata]].
  refine (proj1 (ready_artifact_final (H:=ascii_unicode) (H1:=ex_bundle_json) [] _ ex_ready ex_late_requests ex_built _ _ Hready)).
  - intros x data [= <-]. reflexivity.
  - split; unfold client_builds_ok; rewrite Hone; [apply NoDup_singleton|].
    intros b ->%list_elem_of_singleton _. exists (bytes_of "client"). split; [exact Hdata|exact Hsha].
  - rewrite Hone. left.
Defined.
