(* ===== verification/Oidc.v ===== *)
(** * OpenID Connect sign-in (art-api/internal: oidcauth/service.go, httpapi/oidc.go)

    The authorization code flow: a request is begun with a state, a verifier and
    a nonce, completed by the callback of the browser, and consumed once by the
    client that began it.  The libraries that talk to the provider are the class
    [OIDC]; one method reads the clock once. *)

From S2P Require Export Login.
From S2P Require Import Sample Keeps.

(** The claims of a verified identity token. *)
Record OIDCClaims := mkOIDCClaims {
  oidc_claim_Subject : string; oidc_claim_Nonce : string; oidc_claim_Email : string; oidc_claim_EmailVerified : bool;
  oidc_claim_PreferredUsername : string; oidc_claim_Name : string }.

(** [oidcauth.Config] *)
Record OIDCConfig := mkOIDCConfig {
  oidccfg_Issuer : string; oidccfg_ClientID : string; oidccfg_ClientSecret : string; oidccfg_RedirectURL : string;
  oidccfg_Name : string; oidccfg_Scopes : list string; oidccfg_AutoRegister : bool }.

(** go-oidc and oauth2: what the provider answers at a time. *)
Class OIDC := {
  OIDCProvider : Type;
  OIDCEndpoint : Type;
  OIDCToken : Type;
  OIDCIDToken : Type;
  NewProvider : string → time → res OIDCProvider;                       (* by the issuer *)
  Endpoint : OIDCProvider → OIDCEndpoint;
  (* the configuration of the client: ID, secret, endpoint, redirect URL, scopes *)
  AuthCodeURL : (string * string * OIDCEndpoint * string * list string) → string → string → string → string;
  Exchange : (string * string * OIDCEndpoint * string * list string) → string → string → time → res OIDCToken;
  id_token : OIDCToken → option string;
  VerifyIDToken : OIDCProvider → string → string → time → res OIDCIDToken;   (* by the client ID *)
  IDTokenClaims : OIDCIDToken → res OIDCClaims
}.

(** [identity.LoginContext], [identity.Authorization] *)
Record LoginContext := mkLoginContext {
  lctx_RustDeskID : string; lctx_ClientUUID : string; lctx_Platform : string; lctx_ClientType : string;
  lctx_DeviceName : string; lctx_IP : string; lctx_UserAgent : string; lctx_LinkUserID : string }.
Record Authorization := mkAuthorization { authz_State : string; authz_PollCode : string; authz_URL : string }.

Record oidcAuthRequest := mkOidcAuthRequest {
  oar_Op : string; oar_ID : string; oar_UUID : string; oar_APIDomain : string; oar_DeviceInfo : deviceInfo }.

(** [OIDCIdentity] as a reply, and the two answers of a poll. *)
Inductive oidc_query_body :=
| InProgress (message error : string)
| OIDCSignedIn (token : string) (expires_at : option time) (user : ClientUser).
Inductive oidc_link_body :=
| LinkPending
| Linked (value : OIDCIdentity).

Definition randomToken (random : option bytes) : res string :=
  match random with Some raw => Ok (base64_encode url_alphabet raw) | None => Err (ErrText "random") end.

(** What a flow draws: the random bytes of [randomToken], in the order of the
    calls, and the identifiers of the accounts a registration tries. *)
Record OIDCDraws := mkOIDCDraws { draw_random : nat → option bytes; draw_user : nat → Entropy }.

Section Oidc.
Context `{Unicode} `{Argon2} `{Jwt} `{OIDC}.

Record OIDCService := mkOIDCService {
  oidc_auth : Auth.Service; oidc_config : OIDCConfig;
  oidc_client : option (OIDCProvider * (string * string * OIDCEndpoint * string * list string)) }.

(** [client]: the provider is discovered once. *)
Definition client (s : OIDCService) (now : time)
    : res (OIDCProvider * (string * string * OIDCEndpoint * string * list string)) * OIDCService :=
  match oidc_client s with
  | Some found => (Ok found, s)
  | None =>
      let config := oidc_config s in
      match NewProvider (oidccfg_Issuer config) now with
      | Err e => (Err e, s)
      | Ok provider =>
          let scopes := if bool_decide (oidccfg_Scopes config = []) then ["openid"; "profile"; "email"]
                        else oidccfg_Scopes config in
          let found := (provider, (oidccfg_ClientID config, oidccfg_ClientSecret config, Endpoint provider,
                                   oidccfg_RedirectURL config, scopes)) in
          (Ok found, mkOIDCService (oidc_auth s) config (Some found))
      end
  end.

Definition letter_digit_mark (r : Z) : bool := IsLetter r || IsDigit r || bool_decide (r ∈ [46; 45; 95]).
Definition sanitizeUsername (value : string) : string :=
  let value := ToLower (TrimSpace value) in
  of_bytes (TrimCut (ascii_of <$> [46; 45; 95]) (filter letter_digit_mark (runes (bytes_of value)) ≫= rune_bytes)).

(** The name before the @ of an address. *)
Definition local_part (email : string) : string := of_bytes (default [] (head (Split (ascii_of 64) (bytes_of email)))).

Definition username_base (preferred email : string) : string :=
  let base := sanitizeUsername preferred in
  let base := if bool_decide (base = "") then sanitizeUsername (local_part email) else base in
  if bool_decide (base = "") then "oidc-user" else base.

Definition attempt_name (base : string) (attempt : nat) : string :=
  if decide (attempt = 0%nat) then base else base +:+ "-" +:+ Itoa (Z.of_nat attempt + 1).

(** The loop of [register]: [tries] attempts, [attempt] made so far. *)
Fixpoint register_loop (s : OIDCService) (input : string → CreateUserInput) (base : string) (x : OIDCDraws)
    (now : time) (tries attempt : nat) (last : error) : M User :=
  match tries with
  | O => throw last
  | S tries =>
      created ← try (CreateLocalUser (oidc_auth s) (input (attempt_name base attempt)) (draw_user x attempt) now);
      match created with
      | Ok user => ret user
      | Err e => register_loop s input base x now tries (S attempt) e
      end
  end.

Definition register (s : OIDCService) (preferred email display : string) (x : OIDCDraws) (now : time) : M User :=
  password ← lift (randomToken (draw_random x 0%nat));
  register_loop s (λ name, mkCreateUserInput name email password display RoleUser true)
    (username_base preferred email) x now 5 0 (ErrText "").

(** [fail]: the request is marked, the cause is returned. *)
Definition oidc_fail {A} (state : string) (cause : error) : M A :=
  try (CompleteOIDCAuthRequest state "" "OIDC authentication failed");;
  throw cause.

(** An operation whose error ends the callback through [fail]. *)
Definition or_fail {A} (state : string) (m : M A) : M A :=
  r ← try m; match r with Ok a => ret a | Err e => oidc_fail state e end.

Definition Begin (s : OIDCService) (input : LoginContext) (x : OIDCDraws) (now : time)
    : M (res Authorization * OIDCService) :=
  let '(found, s) := client s now in
  match found with
  | Err e => ret (Err e, s)
  | Ok (_, oauthConfig) =>
      authorization ← try (
        state ← lift (randomToken (draw_random x 0%nat));
        poll ← lift (randomToken (draw_random x 1%nat));
        verifier ← lift (randomToken (draw_random x 2%nat));
        nonce ← lift (randomToken (draw_random x 3%nat));
        let challenge := sha256_Sum (bytes_of verifier) in
        CreateOIDCAuthRequest (mkOIDCAuthRequest state poll (oidccfg_Name (oidc_config s)) verifier nonce ""
          (lctx_LinkUserID input) "" (lctx_RustDeskID input) (lctx_ClientUUID input) (lctx_Platform input)
          (lctx_ClientType input) (lctx_DeviceName input) (lctx_IP input) (lctx_UserAgent input)
          now (now + 5 * minute));;
        ret (mkAuthorization state poll
          (AuthCodeURL oauthConfig state nonce (base64_encode url_alphabet challenge))));
      ret (authorization, s)
  end.

(** The claims of the code that the browser brought, with the verifier of the
    request. *)
Definition code_claims (config : OIDCConfig)
    (found : OIDCProvider * (string * string * OIDCEndpoint * string * list string)) (code verifier : string)
    (now : time) : res OIDCClaims :=
  res_bind (Exchange found.2 code verifier now) (λ token,
  match id_token token with
  | None => Err (ErrText "missing id_token")
  | Some raw =>
      res_bind (VerifyIDToken found.1 (oidccfg_ClientID config) raw now) IDTokenClaims
  end).

Definition completeLink (s : OIDCService) (request : OIDCAuthRequest) (existing : res OIDCIdentity)
    (subject email : string) (now : time) : M unit :=
  let state := oidcreq_State request in
  found ← try (FindUserByID (oidcreq_LinkUserID request));
  match found with
  | Err e => oidc_fail state e
  | Ok user =>
      if negb (user_Enabled user) then oidc_fail state (ErrText "user disabled") else
      match existing with
      | Ok identity =>
          if negb (bool_decide (oidc_UserID identity = oidcreq_LinkUserID request))
          then oidc_fail state (ErrText "OIDC identity is already linked to another user")
          else CompleteOIDCAuthRequest state (oidcreq_LinkUserID request) ""
      | Err ErrNotFound =>
          or_fail state (CreateOIDCIdentity
            (mkOIDCIdentity (oidccfg_Name (oidc_config s)) subject (oidcreq_LinkUserID request) email now));;
          CompleteOIDCAuthRequest state (oidcreq_LinkUserID request) ""
      | Err e => oidc_fail state e
      end
  end.

(** The account of the claims, found or registered. *)
Definition callback_user (s : OIDCService) (existing : res OIDCIdentity) (claims : OIDCClaims) (x : OIDCDraws)
    (now : time) : M User :=
  let config := oidc_config s in
  match existing with
  | Ok identity => FindUserByID (oidc_UserID identity)
  | Err ErrNotFound =>
      if oidccfg_AutoRegister config then
        user ← register s (oidc_claim_PreferredUsername claims) (oidc_claim_Email claims) (oidc_claim_Name claims) x now;
        CreateOIDCIdentity (mkOIDCIdentity (oidccfg_Name config) (oidc_claim_Subject claims) (user_ID user)
          (oidc_claim_Email claims) now);;
        ret user
      else throw (ErrText "OIDC identity is not linked and auto-registration is disabled")
  | Err e => throw e
  end.

(** The callback once the request is found and the provider known. *)
Definition complete_callback (s : OIDCService)
    (found : OIDCProvider * (string * string * OIDCEndpoint * string * list string)) (record : OIDCAuthRequest)
    (code : string) (x : OIDCDraws) (now : time) : M unit :=
  let state := oidcreq_State record in
  claims ← or_fail state (lift (code_claims (oidc_config s) found code (oidcreq_Verifier record) now));
  if bool_decide (oidc_claim_Subject claims = "") || negb (bool_decide (oidc_claim_Nonce claims = oidcreq_Nonce record))
  then oidc_fail state (ErrText "invalid OIDC subject or nonce") else
  existing ← try (FindOIDCIdentity (oidccfg_Name (oidc_config s)) (oidc_claim_Subject claims));
  if negb (bool_decide (oidcreq_LinkUserID record = ""))
  then completeLink s record existing (oidc_claim_Subject claims) (oidc_claim_Email claims) now else
  user ← or_fail state (callback_user s existing claims x now);
  if negb (user_Enabled user) then oidc_fail state (ErrText "user disabled") else
  CompleteOIDCAuthRequest state (user_ID user) "".

Definition Callback (s : OIDCService) (state code : string) (x : OIDCDraws) (now : time) : M (res unit * OIDCService) :=
  found ← try (FindOIDCAuthRequestByState state now);
  match found with
  | Err e => ret (Err e, s)
  | Ok record =>
      let '(known, s) := client s now in
      outcome ← try (match known with
                     | Err e => oidc_fail state e
                     | Ok known => complete_callback s known record code x now
                     end);
      ret (outcome, s)
  end.

(** [None] is [ErrPending]. *)
Definition Consume (pollCode id uuid : string) (now : time) : M (option (OIDCAuthRequest * User)) :=
  record ← try (ConsumeOIDCAuthRequest pollCode id uuid now);
  match record with
  | Err ErrNotFound => ret None
  | Err e => throw e
  | Ok record =>
      if negb (bool_decide (oidcreq_Error record = "")) then throw (ErrText (oidcreq_Error record)) else
      user ← FindUserByID (oidcreq_UserID record);
      ret (Some (record, user))
  end.

Definition ConsumeLink (pollCode userID : string) (now : time) : M (option OIDCIdentity) :=
  record ← try (ConsumeOIDCLinkRequest pollCode userID now);
  match record with
  | Err ErrNotFound => ret None
  | Err e => throw e
  | Ok record =>
      if negb (bool_decide (oidcreq_Error record = "")) then throw (ErrText (oidcreq_Error record)) else
      values ← ListOIDCIdentities userID;
      match head (filter (λ value, oidc_Provider value = oidcreq_Provider record) values) with
      | Some value => ret (Some value)
      | None => throw ErrNotFound
      end
  end.

(** ** httpapi/oidc.go

    The service of the server is passed in and out; [None] when OIDC is not
    configured. *)

Definition not_configured {A} : Reply A := writeError 404 "OIDC is not configured".

Definition authorization_body (a : Authorization) : string * string := (authz_PollCode a, authz_URL a).

Definition oidcAuth (s : option OIDCService) (req : Request) (c : Call) (x : OIDCDraws)
    (body : option oidcAuthRequest) : M (Reply (string * string) * option OIDCService) :=
  match s, body with
  | None, _ => ret (not_configured, s)
  | _, None => ret (writeError 400 "invalid request", s)
  | Some oidc, Some input =>
      if negb (bool_decide (oar_Op input = "")) && negb (bool_decide (oar_Op input = oidccfg_Name (oidc_config oidc)))
      then ret (writeError 400 "unknown OIDC provider", s) else
      let info := oar_DeviceInfo input in
      '(begun, oidc) ← Begin oidc (mkLoginContext (oar_ID input) (oar_UUID input) (info_OS info) (info_Type info)
        (info_Name info) (request_IP req) (request_UserAgent req) "") x (call_now c);
      match begun with
      | Err _ => ret (writeError 502 "OIDC provider unavailable", Some oidc)
      | Ok authorization =>
          record c 0 (mkAuditEvent "" zero_time "oidc_authorization_started" "" ""
            (firstNonEmpty [oar_UUID input; oar_ID input]) "" (request_IP req) "success" "" ∅);;
          ret (writeJSON 200 (authorization_body authorization), Some oidc)
      end
  end.

(** The page is whether the sign-in succeeded. *)
Definition oidcCallback (s : option OIDCService) (c : Call) (x : OIDCDraws) (state code : string)
    : M (Reply bool * option OIDCService) :=
  match s with
  | None => ret (not_configured, s)
  | Some oidc =>
      if bool_decide (state = "") then ret (writeJSON 200 false, s) else
      '(outcome, oidc) ← Callback oidc state code x (call_now c);
      ret (writeJSON 200 (is_ok outcome), Some oidc)
  end.

(** The device of a request that was begun with its identifier. *)
Definition oidc_device (ttl : duration) (now : time) (record : OIDCAuthRequest) (user : User) : M unit :=
  found ← try (inventoryDevice ttl now (oidcreq_RustDeskID record) (oidcreq_ClientUUID record));
  match found with
  | Ok (device, false) =>
      let device := default zero_device device in
      let device := device <| device_RustDeskID := oidcreq_RustDeskID record |>
                           <| device_ClientUUID := oidcreq_ClientUUID record |> in
      let device := if bool_decide (device_Hostname device = "")
                    then device <| device_Hostname := oidcreq_DeviceName record |> else device in
      let device := if bool_decide (device_Platform device = "")
                    then device <| device_Platform := oidcreq_Platform record |> else device in
      let device := device <| device_Online := true |> <| device_LastSeen := now |>
                           <| device_LastSeenIP := oidcreq_IP record |> <| device_OwnerUserID := user_ID user |> in
      let device := if device_CreatedAt device =? zero_time then device <| device_CreatedAt := now |> else device in
      discard (try (UpsertDevice device))
  | _ => ret tt
  end.

Definition oidcAuthQuery (s : option OIDCService) (auth : Auth.Service) (ttl : duration) (c : Call)
    (code id uuid : string) : M (Reply oidc_query_body) :=
  match s with
  | None => ret not_configured
  | Some _ =>
      consumed ← try (Consume code id uuid (call_now c));
      match consumed with
      | Ok None => ret (writeJSON 200 (InProgress "Authorization in progress, please login" "No authed oidc is found"))
      | Err e => ret (writeError 401 (error_text e))
      | Ok (Some (request, user)) =>
          if negb (user_Enabled user) then ret (writeError 403 "user disabled") else
          let deviceID := firstNonEmpty [oidcreq_ClientUUID request; oidcreq_RustDeskID request] in
          result ← try (CompleteLogin auth user
            (mkLoginInput (user_Username user) "" (oidcreq_IP request) (oidcreq_UserAgent request) deviceID)
            (call_entropy c) (call_now c));
          match result with
          | Err _ => ret (writeError 500 "OIDC login failed")
          | Ok out =>
              when (negb (bool_decide (oidcreq_RustDeskID request = ""))) (oidc_device ttl (call_now c) request user);;
              record c 0 (mkAuditEvent "" zero_time "login_success" (user_ID user) (session_ID (out_Session out))
                deviceID "" (oidcreq_IP request) "allowed" "" {["provider" := VString (oidcreq_Provider request)]});;
              ret (writeJSON 200 (OIDCSignedIn (AccessToken out) (claims_ExpiresAt (out_Claims out)) (clientUser (out_User out))))
          end
      end
  end.

Definition listOIDCIdentities (userID : string) : M (Reply (list OIDCIdentity)) :=
  values ← try (ListOIDCIdentities userID);
  ret (match values with Ok values => writeJSON 200 values | Err _ => writeError 500 "OIDC identities unavailable" end).
Definition listMyOIDCIdentities (p : Principal) : M (Reply (list OIDCIdentity)) :=
  listOIDCIdentities (user_ID (principal_User p)).
Definition listAdminOIDCIdentities (user_id : string) : M (Reply (list OIDCIdentity)) := listOIDCIdentities user_id.

Definition beginOIDCLink (s : option OIDCService) (req : Request) (c : Call) (p : Principal) (x : OIDCDraws)
    : M (Reply (string * string) * option OIDCService) :=
  match s with
  | None => ret (not_configured, s)
  | Some oidc =>
      '(begun, oidc) ← Begin oidc (mkLoginContext "" "" "" "" "" (request_IP req) (request_UserAgent req)
        (user_ID (principal_User p))) x (call_now c);
      match begun with
      | Err _ => ret (writeError 502 "OIDC provider unavailable", Some oidc)
      | Ok authorization =>
          record c 0 (audit_event "oidc_link_started" (user_ID (principal_User p)) (session_ID (principal_Session p))
            (request_IP req) "success" "" ∅);;
          ret (writeJSON 200 (authorization_body authorization), Some oidc)
      end
  end.

Definition queryOIDCLink (s : option OIDCService) (req : Request) (c : Call) (p : Principal) (code : string)
    : M (Reply oidc_link_body) :=
  match s with
  | None => ret not_configured
  | Some _ =>
      linked ← try (ConsumeLink code (user_ID (principal_User p)) (call_now c));
      match linked with
      | Ok None => ret (writeJSON 200 LinkPending)
      | Err e => ret (writeError 400 (error_text e))
      | Ok (Some value) =>
          record c 0 (audit_event "oidc_identity_linked" (user_ID (principal_User p)) (session_ID (principal_Session p))
            (request_IP req) "success" ""
            {["provider" := VString (oidc_Provider value); "subject" := VString (oidc_Subject value)]});;
          ret (writeJSON 200 (Linked value))
      end
  end.

Definition deleteOIDCIdentity (req : Request) (c : Call) (actor : Principal) (userID provider subject : string)
    : M (Reply unit) :=
  if bool_decide (provider = "") || bool_decide (subject = "")
  then ret (writeError 400 "provider and subject are required") else
  deleted ← try (DeleteOIDCIdentity provider subject userID);
  match deleted with
  | Err ErrNotFound => ret (writeError 404 "OIDC identity not found")
  | Err _ => ret (writeError 500 "OIDC identity removal failed")
  | Ok _ =>
      record c 0 (audit_event "oidc_identity_unlinked" (user_ID (principal_User actor))
        (session_ID (principal_Session actor)) (request_IP req) "success" ""
        {["provider" := VString provider; "subject" := VString subject; "user_id" := VString userID]});;
      ret (mkReply 204 NoContent)
  end.

Definition deleteMyOIDCIdentity (req : Request) (c : Call) (p : Principal) (provider subject : string) : M (Reply unit) :=
  deleteOIDCIdentity req c p (user_ID (principal_User p)) provider subject.
Definition deleteAdminOIDCIdentity (req : Request) (c : Call) (p : Principal) (user_id provider subject : string)
    : M (Reply unit) :=
  if bool_decide (user_id = "") then ret (writeError 400 "user_id is required")
  else deleteOIDCIdentity req c p user_id provider subject.

(** ** Histories of the flow *)

Inductive oidc_request :=
| AskOIDCAuth (req : Request) (c : Call) (x : OIDCDraws) (body : option oidcAuthRequest)
| AskOIDCLink (req : Request) (c : Call) (p : Principal) (x : OIDCDraws)
| AskOIDCCallback (c : Call) (x : OIDCDraws) (state code : string)
| AskOIDCQuery (auth : Auth.Service) (ttl : duration) (c : Call) (code id uuid : string)
| AskOIDCLinkQuery (req : Request) (c : Call) (p : Principal) (code : string)
| AskOIDCDelete (req : Request) (c : Call) (p : Principal) (provider subject : string)
| AskOIDCAdminDelete (req : Request) (c : Call) (p : Principal) (user_id provider subject : string).

Definition serve_oidc (r : oidc_request) (s : option OIDCService) : M (option OIDCService) :=
  match r with
  | AskOIDCAuth req c x body => '(_, s) ← oidcAuth s req c x body; ret s
  | AskOIDCLink req c p x => '(_, s) ← beginOIDCLink s req c p x; ret s
  | AskOIDCCallback c x state code => '(_, s) ← oidcCallback s c x state code; ret s
  | AskOIDCQuery auth ttl c code id uuid => discard (oidcAuthQuery s auth ttl c code id uuid);; ret s
  | AskOIDCLinkQuery req c p code => discard (queryOIDCLink s req c p code);; ret s
  | AskOIDCDelete req c p provider subject => discard (deleteMyOIDCIdentity req c p provider subject);; ret s
  | AskOIDCAdminDelete req c p user_id provider subject =>
      discard (deleteAdminOIDCIdentity req c p user_id provider subject);; ret s
  end.
End Oidc.

(** ** What a completed request proves

    The history of an installation: its tables after each request of the flow,
    and after anything else that leaves the pending requests alone. *)

Section History.
Context `{Unicode} `{Argon2} `{Jwt} `{OIDC} (cfg : OIDCConfig).
Implicit Types (ds : list DB) (d : DB) (row : OIDCAuthRequest).

(** A provider of the configured issuer, as [client] keeps it. *)
Definition discovered (found : OIDCProvider * (string * string * OIDCEndpoint * string * list string)) : Prop :=
  ∃ now, NewProvider (oidccfg_Issuer cfg) now = Ok found.1
    ∧ found.2.1.1 = (oidccfg_ClientID cfg, oidccfg_ClientSecret cfg, Endpoint found.1).

Definition service_ok (s : option OIDCService) : Prop :=
  ∀ oidc, s = Some oidc → oidc_config oidc = cfg ∧ ∀ found, oidc_client oidc = Some found → discovered found.

Inductive oidc_history : list DB → option OIDCService → world → Prop :=
| history_start s w :
    service_ok s → t_oidc_auth_requests (w_db w) = [] → oidc_history [w_db w] s w
| history_serve past s w r s' w' :
    oidc_history past s w → serve_oidc r s w = (Ok s', w') → oidc_history (w_db w' :: past) s' w'
| history_other past s w (m : M unit) :
    oidc_history past s w → (∀ t, keeps (λ d, t_oidc_auth_requests d = t) m) →
    oidc_history (w_db (m w).2 :: past) s (m w).2.

(** The provider vouches for the claims, for a code with the verifier. *)
Definition attested (verifier : string) (claims : OIDCClaims) : Prop :=
  ∃ found code now, discovered found ∧ code_claims cfg found code verifier now = Ok claims.

(** The tables [d] bind the subject of the claims to the account. *)
Definition bound (claims : OIDCClaims) (userID : string) d : Prop :=
  ∃ i, i ∈ t_oidc_identities d ∧ oidc_Provider i = oidccfg_Name cfg
    ∧ oidc_Subject i = oidc_claim_Subject claims ∧ oidc_UserID i = userID.

Definition proved row ds : Prop :=
  ∃ claims d, attested (oidcreq_Verifier row) claims
    ∧ oidc_claim_Nonce claims = oidcreq_Nonce row ∧ oidc_claim_Subject claims ≠ ""
    ∧ d ∈ ds ∧ bound claims (oidcreq_UserID row) d.

Definition request_ok ds row : Prop :=
  oidcreq_UserID row = ""
  ∨ proved row ds ∧ (oidcreq_LinkUserID row ≠ "" → oidcreq_UserID row = oidcreq_LinkUserID row).

Definition requests_ok ds d : Prop :=
  oidc_auth_requests_ok d ∧ ∀ row, row ∈ t_oidc_auth_requests d → request_ok ds row.

Lemma request_ok_mono ds ds' row : ds ⊆ ds' → request_ok ds row → request_ok ds' row.
Proof.
  intros Hsub [Hu|[(cl & d & Ha & Hn & Hs & Hd & Hb) Hl]]; [by left|right]. split; [|done].
  exists cl, d. split_and!; try done. by apply Hsub.
Qed.

Lemma requests_ok_mono ds ds' d : ds ⊆ ds' → requests_ok ds d → requests_ok ds' d.
Proof. intros Hsub [Hnd Hd]. split; [done|]. intros row Hrow. by eapply request_ok_mono, Hd. Qed.

(** *** The operations that complete no request *)

(** What holds of pending requests holds when some of them are gone. *)
Definition frames (I : DB → Prop) : Prop :=
  ∀ d d', I d → t_oidc_auth_requests d' `sublist_of` t_oidc_auth_requests d → I d'.

Lemma keys_frame : frames oidc_auth_requests_ok.
Proof.
  intros d d' [Hs Hp] Hsub. split; (eapply sublist_NoDup; [|by apply fmap_sublist]); done.
Qed.

Lemma requests_frame ds : frames (requests_ok ds).
Proof.
  intros d d' [Hnd Hd] Hsub. split; [by eapply keys_frame|]. intros row Hrow. apply Hd. by eapply elem_of_sublist.
Qed.

Section Keeping.
Context (I : DB → Prop) (HI : frames I).

Ltac frame_leaf :=
  first [ assumption
        | eapply HI; [eassumption|read_tables; first [reflexivity|apply sublist_filter]] ].
Ltac frame_go := intros d h Hd; wp_go; frame_leaf.

Lemma frame_Record event st : keeps I (Audit_Record event st).
Proof. apply keeps_audit. intros d d' (t1 & t2 & ->) Hd. by eapply HI. Qed.
Lemma frame_CreateUser u : keeps I (CreateUser u).
Proof. unfold CreateUser. frame_go. Qed.
Lemma frame_CreateOIDCIdentity i : keeps I (CreateOIDCIdentity i).
Proof. unfold CreateOIDCIdentity. frame_go. Qed.
Lemma frame_DeleteOIDCIdentity p sub id : keeps I (DeleteOIDCIdentity p sub id).
Proof. unfold DeleteOIDCIdentity. frame_go. Qed.
Lemma frame_CreateSession ss : keeps I (CreateSession ss).
Proof. unfold CreateSession. frame_go. Qed.
Lemma frame_UpdateLastLogin id at_ : keeps I (UpdateLastLogin id at_).
Proof. unfold UpdateLastLogin. frame_go. Qed.
Lemma frame_RevokeSession id at_ : keeps I (StoreSessions.RevokeSession id at_).
Proof. unfold StoreSessions.RevokeSession. frame_go. Qed.
Lemma frame_UpsertDevice v : keeps I (UpsertDevice v).
Proof. unfold UpsertDevice. frame_go. Qed.
Lemma frame_Consume code id uuid now : keeps I (ConsumeOIDCAuthRequest code id uuid now).
Proof. unfold ConsumeOIDCAuthRequest. frame_go. Qed.
Lemma frame_ConsumeLink code id now : keeps I (ConsumeOIDCLinkRequest code id now).
Proof. unfold ConsumeOIDCLinkRequest. frame_go. Qed.

#[local] Hint Resolve frame_Record frame_CreateUser frame_CreateOIDCIdentity frame_DeleteOIDCIdentity
  frame_CreateSession frame_UpdateLastLogin frame_RevokeSession frame_UpsertDevice frame_Consume frame_ConsumeLink : keeps.

Lemma frame_register s preferred email display x now : keeps I (register s preferred email display x now).
Proof.
  unfold register. apply keeps_bind; [apply keeps_lift|]. intros password.
  generalize (username_base preferred email), (ErrText ""), 5%nat. intros base e n. generalize 0%nat. revert e.
  induction n as [|n IH]; intros e i; cbn [register_loop]; unfold CreateLocalUser, validatePassword; keep; apply IH.
Qed.
#[local] Hint Resolve frame_register : keeps.

Lemma frame_callback_user s existing claims x now : keeps I (callback_user s existing claims x now).
Proof. unfold callback_user, FindUserByID. keep. Qed.

Lemma frame_query s auth ttl c code id uuid : keeps I (oidcAuthQuery s auth ttl c code id uuid).
Proof.
  unfold oidcAuthQuery, Consume, CompleteLogin, withPermissions, oidc_device, inventoryDevice, ListDevices, record,
    FindUserByID, FindRoleByID. keep.
Qed.
Lemma frame_link_query s req c p code : keeps I (queryOIDCLink s req c p code).
Proof. unfold queryOIDCLink, ConsumeLink, ListOIDCIdentities, record. keep. Qed.
Lemma frame_delete req c p id provider subject : keeps I (deleteOIDCIdentity req c p id provider subject).
Proof. unfold deleteOIDCIdentity, record. keep. Qed.
End Keeping.

(** A request starts without an account, and a failed one has none. *)
Lemma requests_Create ds row : oidcreq_UserID row = "" → keeps (requests_ok ds) (CreateOIDCAuthRequest row).
Proof.
  intros Hu d h [Hnd Hd]. unfold CreateOIDCAuthRequest. wp_go; try done.
  all: try (eapply requests_frame; [by split|read_tables; apply sublist_filter]).
  all: split; [assumption|]; intros r; read_tables; rewrite elem_of_app, ?elem_of_delete_where, list_elem_of_singleton;
    (intros [Hr| ->]; [|left; exact Hu]; apply Hd; first [exact Hr|exact (proj1 Hr)]).
Qed.

Lemma requests_Complete_fail ds state message : keeps (requests_ok ds) (CompleteOIDCAuthRequest state "" message).
Proof.
  intros d h [Hnd Hd]. unfold CompleteOIDCAuthRequest. wp_go; try done.
  all: split; [assumption|]; intros r; read_tables; rewrite elem_of_update_where; intros (r0 & Hr0 & ->);
    (case_decide; [by left|by apply Hd]).
Qed.

Lemma requests_Begin ds s input x now : keeps (requests_ok ds) (Begin s input x now).
Proof. unfold Begin. keep; by apply requests_Create. Qed.

(** *** The callback *)

(** The request with the state of [record] is still the one that was found. *)
Definition pending ds (record : OIDCAuthRequest) d : Prop :=
  requests_ok ds d ∧ ∀ row, row ∈ t_oidc_auth_requests d → oidcreq_State row = oidcreq_State record →
    oidcreq_Verifier row = oidcreq_Verifier record ∧ oidcreq_Nonce row = oidcreq_Nonce record
    ∧ oidcreq_LinkUserID row = oidcreq_LinkUserID record.

Lemma pending_frame ds record : frames (pending ds record).
Proof.
  intros d d' [Hd Hp] Hsub. split; [by eapply requests_frame|]. intros row Hrow. apply Hp. by eapply elem_of_sublist.
Qed.

(** The tables at the end are part of the history. *)
Definition callback_post ds {A} (_ : A) d (_ : Hub) : Prop := requests_ok (d :: ds) d.

(** A failure ends the callback. *)
Lemma fail_ends {A} (Q : res A → DB → Hub → Prop) ds record state e d h :
  pending ds record d → (∀ d' h', requests_ok (d' :: ds) d' → Q (Err e) d' h') →
  wp true (@oidc_fail A state e) Q d h.
Proof.
  intros [Hd _] HQ. unfold oidc_fail. apply wp_bind, wp_try.
  apply (wp_mono (λ _ d' _, requests_ok (d' :: ds) d')).
  - eapply wp_mono; [by apply (requests_Complete_fail ds state "OIDC authentication failed")|].
    intros r d' h'. apply requests_ok_mono. set_solver.
  - intros r d' h' Hd'. by apply wp_throw, HQ.
Qed.

Lemma fail_post {A} ds record state e d h : pending ds record d → wp true (@oidc_fail A state e) (callback_post ds) d h.
Proof. intros Hp. by eapply fail_ends. Qed.

Lemma complete_post ds record claims userID d h :
  pending ds record d → attested (oidcreq_Verifier record) claims →
  oidc_claim_Nonce claims = oidcreq_Nonce record → oidc_claim_Subject claims ≠ "" → bound claims userID d →
  (oidcreq_LinkUserID record ≠ "" → userID = oidcreq_LinkUserID record) →
  wp true (CompleteOIDCAuthRequest (oidcreq_State record) userID "") (callback_post ds) d h.
Proof.
  intros [[Hnd Hd] Hp] Ha Hn Hs Hb Hl. unfold CompleteOIDCAuthRequest, callback_post.
  assert (Hweak : requests_ok (d :: ds) d) by (apply (requests_ok_mono ds); [set_solver|by split]).
  wp_go; try done.
  all: split; [assumption|]; intros r; read_tables; rewrite elem_of_update_where; intros (r0 & Hr0 & ->); case_decide as Hc;
    [|apply (request_ok_mono ds); [set_solver|by apply Hd]].
  all: right; destruct Hc as [Hst _]; destruct (Hp r0 Hr0 Hst) as (Hv & Hno & Hli); unfold proved; cbn;
    rewrite Hv, Hno, Hli; (split; [|done]); exists claims; eexists;
    (split; [exact Ha|split; [exact Hn|split; [exact Hs|split; [left|]]]]).
  all: destruct Hb as (i & Hi & Hb); exists i; split; [by read_tables|done].
Qed.

Lemma wp_or_fail {A} (Q : res A → DB → Hub → Prop) state (m : M A) d h :
  wp true m (λ r d' h', match r with Ok a => Q (Ok a) d' h' | Err e => wp true (oidc_fail state e) Q d' h' end) d h →
  wp true (or_fail state m) Q d h.
Proof.
  intros Hm. unfold or_fail. apply wp_bind, wp_try. eapply wp_mono; [exact Hm|].
  intros [a|e] d' h' HQ; [by apply wp_ret|done].
Qed.

(** What the lookup of the subject found is in the tables. *)
Definition found_identity (claims : OIDCClaims) (existing : res OIDCIdentity) d : Prop :=
  ∀ i, existing = Ok i → bound claims (oidc_UserID i) d.

Lemma FindOIDCIdentity_bound claims d h :
  wp true (try (FindOIDCIdentity (oidccfg_Name cfg) (oidc_claim_Subject claims)))
    (λ r d' _, d' = d ∧ ∀ existing, r = Ok existing → found_identity claims existing d) d h.
Proof.
  unfold FindOIDCIdentity. wp_go; (split; [done|]; intros ? [= <-]; try done).
  intros ? [= <-]. apply fmap_Some in Heqo as (i & [Hi [Hp Hsub]]%select_one_Some & ->). by exists i.
Qed.

Lemma CreateOIDCIdentity_bound claims userID email now d h :
  wp true (CreateOIDCIdentity (mkOIDCIdentity (oidccfg_Name cfg) (oidc_claim_Subject claims) userID email now))
    (λ r d' _, match r with Ok _ => bound claims userID d' | Err _ => True end) d h.
Proof.
  unfold CreateOIDCIdentity. wp_go; try done. eexists. split; [read_tables; apply elem_of_app; right; by left|]. done.
Qed.

Lemma callback_user_bound s claims existing x now d h :
  oidc_config s = cfg → found_identity claims existing d →
  wp true (callback_user s existing claims x now)
    (λ r d' _, match r with Ok user => bound claims (user_ID user) d' | Err _ => True end) d h.
Proof.
  intros Hc Hf. unfold callback_user. rewrite Hc. destruct existing as [i|[]]; try (by wp_go).
  - specialize (Hf i eq_refl). unfold FindUserByID. wp_go; try done.
    apply fmap_Some in Heqo as (v & [_ Hv]%select_one_Some & ->). cbn. by rewrite Hv.
  - destruct (oidccfg_AutoRegister cfg); [|by wp_go].
    apply wp_bind. eapply wp_mono; [apply wp_True|]. intros [user|e] d1 h1 _; [|done].
    apply wp_bind. eapply wp_mono; [apply CreateOIDCIdentity_bound|]. intros [[]|e] d2 h2 Hb; [|done]. by apply wp_ret.
Qed.

Lemma completeLink_post ds s record claims existing now d h :
  oidc_config s = cfg → pending ds record d → attested (oidcreq_Verifier record) claims →
  oidc_claim_Nonce claims = oidcreq_Nonce record → oidc_claim_Subject claims ≠ "" → found_identity claims existing d →
  wp true (completeLink s record existing (oidc_claim_Subject claims) (oidc_claim_Email claims) now)
    (callback_post ds) d h.
Proof.
  intros Hc Hp Ha Hn Hs Hf. unfold completeLink. rewrite Hc. apply wp_bind.
  eapply (wp_mono (λ _ d' _, d' = d)).
  { unfold FindUserByID. by wp_go. }
  intros [[user|e]|e] d1 h1 ->; [|by eapply fail_post|by apply (requests_ok_mono ds); [set_solver|destruct Hp]].
  destruct (negb (user_Enabled user)); [by eapply fail_post|].
  destruct existing as [i|[]]; try (by eapply fail_post).
  - destruct (negb _) eqn:Heq; [by eapply fail_post|]. simplify_bool. specialize (Hf i eq_refl). rewrite Heq in Hf.
    by eapply complete_post.
  - apply wp_bind, wp_or_fail. eapply wp_mono.
    { apply wp_both; [apply CreateOIDCIdentity_bound|by apply (frame_CreateOIDCIdentity _ (pending_frame ds record))]. }
    intros [[]|e'] d2 h2 [Hb Hp2]; [by eapply complete_post|]. by eapply fail_ends.
Qed.

Lemma complete_callback_post ds s found record code x now d h :
  oidc_config s = cfg → discovered found → pending ds record d →
  wp true (complete_callback s found record code x now) (callback_post ds) d h.
Proof.
  intros Hc Hfound Hp. unfold complete_callback. rewrite Hc. apply wp_bind, wp_or_fail, wp_lift.
  destruct (code_claims _ _ _ _ _) as [claims|e] eqn:Hcl.
  2: { by eapply fail_ends. }
  assert (Ha : attested (oidcreq_Verifier record) claims) by (by exists found, code, now).
  destruct (_ || _) eqn:Hv; [by eapply fail_post|]. simplify_bool.
  apply wp_bind. eapply wp_mono; [apply FindOIDCIdentity_bound|].
  intros [existing|e] d1 h1 [-> Hf]; [specialize (Hf existing eq_refl)|].
  2: { apply (requests_ok_mono ds); [set_solver|by destruct Hp]. }
  destruct (negb (bool_decide (oidcreq_LinkUserID record = ""))) eqn:Hl; simplify_bool; [by eapply completeLink_post|].
  apply wp_bind, wp_or_fail. eapply wp_mono.
  { apply wp_both; [by apply callback_user_bound|by apply (frame_callback_user _ (pending_frame ds record))]. }
  intros [user|e] d2 h2 [Hb Hp2].
  - destruct (negb _); [by eapply fail_post|]. by eapply complete_post.
  - by eapply fail_ends.
Qed.

(** *** The history *)

Lemma client_ok s now : service_ok (Some s) →
  service_ok (Some (client s now).2) ∧ ∀ found, (client s now).1 = Ok found → discovered found.
Proof.
  intros Hs. destruct (Hs s eq_refl) as [Hc Hf]. unfold client.
  destruct (oidc_client s) as [found0|] eqn:Hcl; [split; [done|intros found [= <-]; by apply Hf]|].
  destruct (NewProvider _ _) as [provider|e] eqn:Hn; [|by split].
  rewrite Hc in *. assert (Hd : ∀ scopes, discovered (provider, (oidccfg_ClientID cfg, oidccfg_ClientSecret cfg,
    Endpoint provider, oidccfg_RedirectURL cfg, scopes))) by (intros scopes; by exists now).
  split; [|intros found [= <-]; apply Hd]. intros oidc [= <-]. split; [done|]. intros found [= <-]. apply Hd.
Qed.

Lemma Begin_service s input x now d h :
  wp true (Begin s input x now) (λ r _ _, ∀ a s', r = Ok (a, s') → s' = (client s now).2) d h.
Proof.
  unfold Begin. destruct (client s now) as [[[provider oauth]|e] s'] eqn:Hc; [|apply wp_ret; by intros ? ? [= _ <-]].
  apply wp_bind. eapply wp_mono; [apply wp_True|]. intros [a|e] d' h' _; [|done]. apply wp_ret. by intros ? ? [= _ <-].
Qed.

Lemma Callback_post ds s state code x now d h :
  service_ok (Some s) → requests_ok ds d →
  wp true (Callback s state code x now)
    (λ r d' _, requests_ok (d' :: ds) d' ∧ ∀ a s', r = Ok (a, s') → service_ok (Some s')) d h.
Proof.
  intros Hs Hd. assert (Hd' : requests_ok (d :: ds) d) by (apply (requests_ok_mono ds); [set_solver|done]).
  destruct (client_ok s now Hs) as [Hs' Hf]. destruct (Hs' _ eq_refl) as [Hc _].
  unfold Callback, FindOIDCAuthRequestByState. apply wp_bind, wp_try, wp_query_row.
  { intros _. apply wp_ret. split; [done|]. by intros ? ? [= _ <-]. }
  destruct (_ <$> _) as [record|] eqn:Hrow; [|apply wp_ret; split; [done|]; by intros ? ? [= _ <-]].
  apply fmap_Some in Hrow as (row & [Hrow [Hst _]]%select_one_Some & ->).
  assert (Hp : pending ds (scanOIDCAuthRequest row) d).
  { split; [done|]. intros r0 Hr0 Heq. destruct Hd as [[Hnd _] _]. cbn in *.
    assert (r0 = row) as -> by (by eapply (unique_row oidcreq_State)). done. }
  destruct (client s now) as [known s1]. cbn in *. apply wp_bind, wp_try.
  apply (wp_mono (callback_post ds)).
  - destruct known as [found|e]; [|by eapply fail_post]. subst state. apply complete_callback_post; [done|by apply Hf|done].
  - intros r d' h' Hpost. apply wp_ret. split; [exact Hpost|]. by intros ? ? [= _ <-].
Qed.

Lemma begun_post {B} ds s input x now (k : res Authorization → OIDCService → M (B * option OIDCService)) d h :
  service_ok (Some s) → requests_ok ds d →
  (∀ begun oidc d h, requests_ok ds d →
     wp true (k begun oidc) (λ r d' _, requests_ok ds d' ∧ ∀ a s', r = Ok (a, s') → s' = Some oidc) d h) →
  wp true ('(begun, oidc) ← Begin s input x now; k begun oidc)
    (λ r d' _, requests_ok ds d' ∧ ∀ a s', r = Ok (a, s') → service_ok s') d h.
Proof.
  intros Hs Hd Hk. apply wp_bind. eapply wp_mono; [apply wp_both; [apply Begin_service|by apply (requests_Begin ds)]|].
  intros [[begun oidc]|e] d1 h1 [Hb Hd1]; [|by split]. rewrite (Hb begun oidc eq_refl) in *.
  eapply wp_mono; [by apply Hk|]. intros r d2 h2 [Hd2 Hr]. split; [done|]. intros a s' Ha. rewrite (Hr a s' Ha).
  by apply client_ok.
Qed.

Lemma record_post ds c i event d h :
  requests_ok ds d → wp true (record c i event) (λ _ d' _, requests_ok ds d') d h.
Proof.
  unfold record. assert (Hk : keeps (requests_ok ds) (discard (try (Audit_Record event (call_stamp c i))))).
  { keep. apply frame_Record, requests_frame. }
  intros Hd. by apply Hk.
Qed.

(** The rest of a handler: it writes no request and keeps the service. *)
Ltac same_service :=
  try (apply wp_bind; eapply wp_mono; [by apply record_post|]; intros [[]|?] ? ? ?);
  try apply wp_ret; (split; [assumption|]); try done; by intros ? ? [= _ <-].

Lemma serve_post ds r s d h :
  service_ok s → requests_ok ds d →
  wp true (serve_oidc r s) (λ res d' _, requests_ok (d' :: ds) d' ∧ ∀ s', res = Ok s' → service_ok s') d h.
Proof.
  intros Hs Hd.
  assert (Hweak : ∀ d, requests_ok ds d → requests_ok (d :: ds) d) by (intros d0; apply requests_ok_mono; set_solver).
  assert (Hframe : ∀ {A} (m : M A) d h, keeps (requests_ok ds) m → requests_ok ds d →
    wp true (discard m;; ret s) (λ res d' _, requests_ok (d' :: ds) d' ∧ ∀ s', res = Ok s' → service_ok s') d h).
  { intros A m d0 h0 Hm Hd0. apply wp_bind. eapply wp_mono; [by apply (keeps_discard _ _ Hm)|].
    intros [[]|e] d1 h1 Hd1; [apply wp_ret|]; (split; [by apply Hweak|]); intros s' [=]; by subst. }
  assert (Hservice : ∀ {B} (m : M (B * option OIDCService)),
    wp true m (λ r d' _, requests_ok ds d' ∧ ∀ a s', r = Ok (a, s') → service_ok s') d h →
    wp true ('(_, s) ← m; ret s) (λ res d' _, requests_ok (d' :: ds) d' ∧ ∀ s', res = Ok s' → service_ok s') d h).
  { intros B m Hm. apply wp_bind. eapply wp_mono; [exact Hm|].
    intros [[a s']|e] d' h' [Hd' Hs']; [apply wp_ret|]; (split; [by apply Hweak|]); intros ? [= <-]. by eapply Hs'. }
  pose proof (requests_frame ds) as HI.
  destruct r; cbn [serve_oidc].
  all: try (apply Hframe; [|done]; unfold deleteMyOIDCIdentity, deleteAdminOIDCIdentity; keep;
    first [by apply frame_query|by apply frame_link_query|by apply frame_delete]).
  - apply (Hservice _ (oidcAuth s req c x body)). unfold oidcAuth. destruct s as [oidc|]; [|by same_service].
    destruct body as [input|]; [|by same_service]. destruct (_ && _); [by same_service|]. cbv zeta.
    apply begun_post; [done..|]. intros [a|e] oidc' d1 h1 Hd1; same_service.
  - apply (Hservice _ (beginOIDCLink s req c p x)). unfold beginOIDCLink. destruct s as [oidc|]; [|by same_service].
    apply begun_post; [done..|]. intros [a|e] oidc' d1 h1 Hd1; same_service.
  - apply wp_bind. unfold oidcCallback. destruct s as [oidc|]; [|wp_go; (split; [by apply Hweak|]); by intros ? [= <-]].
    case_bool_decide; [wp_go; (split; [by apply Hweak|]); by intros ? [= <-]|].
    apply wp_bind. eapply wp_mono; [by apply Callback_post|].
    intros [[outcome oidc']|e] d1 h1 [Hd1 Hs1]; wp_go; (split; [done|]); intros ? [= <-]; by eapply Hs1.
Qed.

Lemma history_ok past s w : oidc_history past s w → service_ok s ∧ requests_ok past (w_db w).
Proof.
  induction 1 as [s w Hs Hw|past s w r s' w' _ [Hs Hr] Hrun|past s w m _ [Hs Hr] Hm].
  - split; [done|]. unfold requests_ok, oidc_auth_requests_ok. rewrite Hw. cbn. split; [split; constructor|set_solver].
  - pose proof (wp_run (F:=true) _ (serve_oidc r s) w Logic.I (serve_post past r s _ (w_hub w) Hs Hr)) as [Hr' Hs'].
    rewrite Hrun in Hr', Hs'. split; [by apply Hs'|done].
  - split; [done|]. apply (requests_ok_mono past); [set_solver|]. eapply requests_frame; [exact Hr|].
    rewrite (keeps_run _ m w (Hm _) eq_refl). done.
Qed.

Lemma request_scan ds row : request_ok ds (scanOIDCAuthRequest row) ↔ request_ok ds row.
Proof. done. Qed.

Lemma Consume_proved ds code id uuid now d h :
  requests_ok ds d →
  wp true (Consume code id uuid now) (λ r _ _, ∀ record user, r = Ok (Some (record, user)) →
    proved record ds ∧ user_ID user = oidcreq_UserID record ∧ oidcreq_LinkUserID record = ""
    ∧ oidcreq_RustDeskID record = id ∧ oidcreq_ClientUUID record = uuid) d h.
Proof.
  intros [_ Hd]. unfold Consume, ConsumeOIDCAuthRequest, FindUserByID. wp_go; try done.
  intros record user [= <- <-]. destruct HP as (_ & Hid & Hu & Hl & _ & Hdone). cbn in *.
  apply fmap_Some in Heqo as (v & [_ Hv]%select_one_Some & ->). cbn. simplify_bool.
  destruct (Hd _ Hr) as [Hno|[Hp _]]; [destruct Hdone; congruence|]. by split_and!.
Qed.

Lemma ConsumeLink_proved ds code userID now d h :
  userID ≠ "" → requests_ok ds d →
  wp true (ConsumeLink code userID now) (λ r _ _, ∀ value, r = Ok (Some value) →
    ∃ record, proved record ds ∧ oidcreq_PollCode record = code
      ∧ oidcreq_LinkUserID record = userID ∧ oidcreq_UserID record = userID) d h.
Proof.
  intros Hne [_ Hd]. unfold ConsumeLink, ConsumeOIDCLinkRequest, ListOIDCIdentities. wp_go; try done.
  intros value _. destruct HP as (Hc & Hl & _ & Hdone). cbn in *. simplify_bool. eexists.
  destruct (Hd _ Hr) as [Hno|[Hp Hlink]]; [destruct Hdone; congruence|].
  split_and!; [exact Hp|done..|]. rewrite <-Hl. apply Hlink. congruence.
Qed.
End History.

(** C7: a sign-in through OpenID Connect is vouched for by the provider: in every
    history, under any failures of the database, the request a client consumes
    was begun with its own identifiers and was completed by a callback whose
    verified claims carry the nonce of that request and a subject that the
    tables then bound to the account; and a request that links an identity is
    consumed only by the account that began it, which the claims were bound to. *)
Theorem oidc_signin_attested `{Unicode} `{Argon2} `{Jwt} `{OIDC} cfg past s w :
  oidc_history cfg past s w →
  (∀ code id uuid now record user w', Consume code id uuid now w = (Ok (Some (record, user)), w') →
     proved cfg record past ∧ user_ID user = oidcreq_UserID record ∧ oidcreq_LinkUserID record = ""
     ∧ oidcreq_RustDeskID record = id ∧ oidcreq_ClientUUID record = uuid)
  ∧ (∀ code userID now value w', userID ≠ "" → ConsumeLink code userID now w = (Ok (Some value), w') →
     ∃ record, proved cfg record past ∧ oidcreq_PollCode record = code
       ∧ oidcreq_LinkUserID record = userID ∧ oidcreq_UserID record = userID).
Proof.
  intros [_ Hr]%history_ok. split.
  - intros code id uuid now record user w' Hrun.
    pose proof (wp_run (F:=true) _ _ w Logic.I (Consume_proved cfg past code id uuid now _ (w_hub w) Hr)) as Hc.
    rewrite Hrun in Hc. by apply Hc.
  - intros code userID now value w' Hne Hrun.
    pose proof (wp_run (F:=true) _ _ w Logic.I (ConsumeLink_proved cfg past code userID now _ (w_hub w) Hne Hr)) as Hc.
    rewrite Hrun in Hc. by eapply Hc.
Qed.

(** ** The flow at a concrete provider *)

Definition ex_random (i : nat) : option bytes := Some (replicate 24 (ascii_of (Z.of_nat i))).
Definition ex_nonce : string := base64_encode url_alphabet (replicate 24 (ascii_of 3)).
Definition ex_verifier : string := base64_encode url_alphabet (replicate 24 (ascii_of 2)).

(** The provider vouches for two accounts of its own. *)
#[local] Instance ex_oidc : OIDC := {|
  OIDCProvider := unit; OIDCEndpoint := unit; OIDCToken := string; OIDCIDToken := string;
  NewProvider _ _ := Ok tt; Endpoint _ := tt;
  AuthCodeURL _ state _ _ := "https://id.example/authorize?state=" +:+ state;
  Exchange _ code verifier _ :=
    if bool_decide (verifier = ex_verifier) then Ok code else Err (ErrText "invalid_grant");
  id_token token := Some token;
  VerifyIDToken _ _ raw _ := Ok raw;
  IDTokenClaims token := Ok (mkOIDCClaims token ex_nonce (token +:+ "@example.org") true token "")
|}.

Definition ex_oidc_config : OIDCConfig :=
  mkOIDCConfig "https://id.example" "console" "" "https://rds.example/api/oidc/callback" "corp" [] false.
Definition ex_oidc_service : option OIDCService :=
  Some (mkOIDCService (server_auth ex_server) ex_oidc_config None).
Definition ex_known_service : option OIDCService :=
  Some (mkOIDCService (server_auth ex_server) ex_oidc_config
    (Some (tt, ("console", "", tt, "https://rds.example/api/oidc/callback", ["openid"; "profile"; "email"])))).
Definition ex_oidc_world : world :=
  mkWorld (w_db ex_protected <| t_oidc_identities := [mkOIDCIdentity "corp" "alice" "u1" "alice@example.org" 0] |>)
    [] (NewHub "src").
Definition ex_oidc_draws : OIDCDraws := mkOIDCDraws ex_random (λ _, call_entropy ex_login_call).

Abbreviation ex_serve r s w :=
  (serve_oidc (H:=ascii_unicode) (H0:=ex_argon2) (H1:=ex_jwt) (H2:=ex_oidc) r s w) (only parsing).
Abbreviation ex_begun :=
  (ex_serve (AskOIDCAuth ex_request ex_login_call ex_oidc_draws
     (Some (mkOidcAuthRequest "corp" "d100" "uuid-1" "" (mkDeviceInfo "linux" "client" "bench")))) ex_oidc_service ex_oidc_world)
  (only parsing).
Abbreviation ex_called_back w :=
  (ex_serve (AskOIDCCallback ex_login_call ex_oidc_draws (base64_encode url_alphabet (replicate 24 (ascii_of 0))) "alice")
     ex_known_service w) (only parsing).
Abbreviation ex_poll_code := (base64_encode url_alphabet (replicate 24 (ascii_of 1))) (only parsing).

Lemma run_pair {A} (m : M A) w a : (m w).1 = Ok a → m w = (Ok a, (m w).2).
Proof. by destruct (m w) as [r w'], r; intros [= ->]. Qed.

Lemma ex_service_ok : service_ok ex_oidc_config ex_oidc_service.
Proof. intros oidc Heq. injection Heq as <-. split; [reflexivity|]. intros found [=]. Qed.
Lemma ex_no_requests : t_oidc_auth_requests (w_db ex_oidc_world) = [].
Proof. reflexivity. Qed.
Lemma ex_begun_service : ex_begun.1 = Ok ex_known_service.
Proof. vm_compute. reflexivity. Qed.
Lemma ex_called_back_service : (ex_called_back ex_begun.2).1 = Ok ex_known_service.
Proof. vm_compute. reflexivity. Qed.

Lemma oidc_signin_attested_witness :
  ∃ record user, (Consume ex_poll_code "d100" "uuid-1" (call_now ex_login_call) (ex_called_back ex_begun.2).2).1
                 = Ok (Some (record, user))
    ∧ user_Username user = "alice" ∧ user_ID user = oidcreq_UserID record.
Proof.
  assert (Hrun : ∃ record user w', Consume ex_poll_code "d100" "uuid-1" (call_now ex_login_call)
      (ex_called_back ex_begun.2).2 = (Ok (Some (record, user)), w') ∧ user_Username user = "alice").
  { do 3 eexists. split; vm_compute; reflexivity. }
  destruct Hrun as (record & user & w' & Hrun & Hname). exists record, user.
  assert (Hhist : oidc_history (H:=ascii_unicode) (H0:=ex_argon2) (H1:=ex_jwt) (H2:=ex_oidc) ex_oidc_config
    [w_db (ex_called_back ex_begun.2).2; w_db ex_begun.2; w_db ex_oidc_world] ex_known_service (ex_called_back ex_begun.2).2).
  { apply (history_serve _ _ ex_known_service _ _ _ _ (history_serve _ _ ex_oidc_service _ _ ex_known_service _
      (history_start _ ex_oidc_service ex_oidc_world ex_service_ok ex_no_requests) (run_pair _ _ _ ex_begun_service))
      (run_pair _ _ _ ex_called_back_service)). }
  destruct (oidc_signin_attested (H:=ascii_unicode) (H0:=ex_argon2) (H1:=ex_jwt) (H2:=ex_oidc) _ _ _ _ Hhist) as [Hc _].
  destruct (Hc _ _ _ _ _ _ _ Hrun) as (_ & Hid & _).
  rewrite Hrun. split; [reflexivity|]. split; [exact Hname|exact Hid].
Defined.

(** *** A link that is reported as another *)

Abbreviation ex_link_principal :=
  (mkPrincipal (ex_user "u1" "alice" RoleUser) (ex_session "s1" "u1") ex_claims) (only parsing).
Abbreviation ex_linked :=
  (ex_serve (AskOIDCCallback ex_login_call ex_oidc_draws (base64_encode url_alphabet (replicate 24 (ascii_of 0))) "zoe")
     ex_known_service
     (ex_serve (AskOIDCLink ex_request ex_login_call ex_link_principal ex_oidc_draws) ex_oidc_service ex_oidc_world).2).2
  (only parsing).

(** when an account links a second identity of a provider, the answer and the
    audit event oidc_identity_linked name its first identity of that provider:
    [ConsumeLink] searches the account's identities by the provider alone. *)
Theorem link_reports_other_identity :
  let '(reply, w) := queryOIDCLink (H2:=ex_oidc) ex_known_service ex_request
                       (mkCall (11 * second) (λ _, mkStamp "e2" "e2" (11 * second)) (call_entropy ex_login_call))
                       ex_link_principal ex_poll_code ex_linked in
  oidc_Subject <$> t_oidc_identities (w_db w) = ["alice"; "zoe"]
  ∧ (∃ value, reply = Ok (writeJSON 200 (Linked value)) ∧ oidc_Subject value = "alice")
  ∧ (λ event, (audit_Type event, audit_Metadata event !! "subject")) <$> t_audit_events (w_db w)
    = [("oidc_link_started", None); ("oidc_identity_linked", Some (VString "alice"))].
Proof. vm_compute. split_and!; [reflexivity|by eexists|reflexivity]. Qed.
