(* ===== verification/NetAddress.v ===== *)
(** * Addresses of package [net]

    An [net.IP] is its bytes, four or sixteen of them.  The classes of addresses
    are defined as the package tests them, by masks; [in_network] is the
    definition of a network by its prefix. *)

From S2P Require Export Text.

Abbreviation IP := (list Z) (only parsing).

Definition v4_prefix : IP := [0; 0; 0; 0; 0; 0; 0; 0; 0; 0; 255; 255].

(** [ip.To4()]: four bytes, or the last four of an IPv4-mapped address. *)
Definition To4 (ip : IP) : option IP :=
  if decide (length ip = 4%nat) then Some ip
  else if decide (length ip = 16%nat ∧ take 12 ip = v4_prefix) then Some (drop 12 ip) else None.

Definition at_ (ip : IP) (i : nat) : Z := default 0 (ip !! i).
Definition is16 (ip : IP) : bool := bool_decide (length ip = 16%nat).

Definition IPv6unspecified : IP := replicate 16 0.
Definition IPv6loopback : IP := replicate 15 0 ++ [1].

Definition IsUnspecified (ip : IP) : bool :=
  match To4 ip with Some v => bool_decide (v = [0; 0; 0; 0]) | None => bool_decide (ip = IPv6unspecified) end.
Definition IsLoopback (ip : IP) : bool :=
  match To4 ip with Some v => at_ v 0 =? 127 | None => bool_decide (ip = IPv6loopback) end.
Definition IsPrivate (ip : IP) : bool :=
  match To4 ip with
  | Some v => (at_ v 0 =? 10) || ((at_ v 0 =? 172) && (Z.land (at_ v 1) 240 =? 16)) || ((at_ v 0 =? 192) && (at_ v 1 =? 168))
  | None => is16 ip && (Z.land (at_ ip 0) 254 =? 252)
  end.
Definition IsMulticast (ip : IP) : bool :=
  match To4 ip with Some v => Z.land (at_ v 0) 240 =? 224 | None => is16 ip && (at_ ip 0 =? 255) end.
Definition IsLinkLocalMulticast (ip : IP) : bool :=
  match To4 ip with
  | Some v => (at_ v 0 =? 224) && (at_ v 1 =? 0) && (at_ v 2 =? 0)
  | None => is16 ip && (at_ ip 0 =? 255) && (Z.land (at_ ip 1) 15 =? 2)
  end.
Definition IsLinkLocalUnicast (ip : IP) : bool :=
  match To4 ip with
  | Some v => (at_ v 0 =? 169) && (at_ v 1 =? 254)
  | None => is16 ip && (at_ ip 0 =? 254) && (Z.land (at_ ip 1) 192 =? 128)
  end.

(** [net.SplitHostPort], [net.JoinHostPort] *)

Definition colon : Ascii.ascii := ascii_of 58.
Definition open_bracket : Ascii.ascii := ascii_of 91.
Definition close_bracket : Ascii.ascii := ascii_of 93.

(** [strings.LastIndexByte], [strings.IndexByte] as a cut. *)
Fixpoint cut_first (c : Ascii.ascii) (l : bytes) : option (bytes * bytes) :=
  match l with
  | [] => None
  | x :: l' => if decide (x = c) then Some ([], l')
               else match cut_first c l' with Some (a, b) => Some (x :: a, b) | None => None end
  end.
Definition cut_last (c : Ascii.ascii) (l : bytes) : option (bytes * bytes) :=
  match cut_first c (reverse l) with Some (a, b) => Some (reverse b, reverse a) | None => None end.

Definition no_brackets (l : bytes) : bool := bool_decide (open_bracket ∉ l) && bool_decide (close_bracket ∉ l).

Definition SplitHostPort (hostport : string) : option (string * string) :=
  let l := bytes_of hostport in
  match cut_last colon l with
  | None => None
  | Some (host, port) =>
      match l with
      | c :: rest =>
          if decide (c = open_bracket) then
            match cut_first close_bracket rest with
            | Some (inner, after) =>
                (* the bracket closes right before the last colon *)
                if decide (after = colon :: port) then
                  if bool_decide (open_bracket ∉ inner) && no_brackets port
                  then Some (of_bytes inner, of_bytes port) else None
                else None
            | None => None
            end
          else if bool_decide (colon ∉ host) && no_brackets l then Some (of_bytes host, of_bytes port) else None
      | [] => None
      end
  end.

Definition join_host_port (host port : string) : string :=
  if bool_decide (colon ∈ bytes_of host) then "[" +:+ host +:+ "]:" +:+ port else host +:+ ":" +:+ port.

(** ** Networks *)

Definition number (ip : IP) : Z := foldl (λ n b, n * 256 + b) 0 ip.

(** The addresses of the length of [net] that agree with it in the first [bits] bits. *)
Definition in_network (net : IP) (bits : Z) (ip : IP) : bool :=
  let rest := 8 * Z.of_nat (length net) - bits in
  bool_decide (length ip = length net) && (number ip / 2 ^ rest =? number net / 2 ^ rest).

Definition ip_ok (ip : IP) : Prop :=
  (length ip = 4%nat ∨ length ip = 16%nat) ∧ Forall (λ b, 0 ≤ b < 256) ip.

(** An IPv4-mapped address is the IPv4 address. *)
Definition canonical (ip : IP) : IP := default ip (To4 ip).

Definition v6 (first : IP) : IP := first ++ replicate (16 - length first) 0.

Section Numbers.
Implicit Types (ip : IP) (a b : Z).

Lemma number_app n ip : foldl (λ n b, n * 256 + b) n ip = n * 256 ^ Z.of_nat (length ip) + number ip.
Proof.
  unfold number. revert n. induction ip as [|b ip IH]; intros n; cbn [foldl length]; [lia|].
  rewrite IH, (IH (0 * 256 + b)), Nat2Z.inj_succ, Z.pow_succ_r by lia. ring.
Qed.

Lemma number_cons b ip : number (b :: ip) = b * 256 ^ Z.of_nat (length ip) + number ip.
Proof. unfold number at 1. cbn [foldl]. by rewrite number_app, Z.mul_0_l, Z.add_0_l. Qed.

Lemma number_bounds ip : Forall (λ b, 0 ≤ b < 256) ip → 0 ≤ number ip < 256 ^ Z.of_nat (length ip).
Proof.
  induction 1 as [|b ip Hb Hip IH]; [done|]. rewrite number_cons. cbn [length].
  rewrite Nat2Z.inj_succ, Z.pow_succ_r by lia. set (P := 256 ^ _) in *.
  assert (b * P ≤ 255 * P) by (apply Z.mul_le_mono_nonneg_r; lia). assert (0 ≤ b * P) by (apply Z.mul_nonneg_nonneg; lia). lia.
Qed.

Lemma number_inj ip1 ip2 :
  Forall (λ b, 0 ≤ b < 256) ip1 → Forall (λ b, 0 ≤ b < 256) ip2 → length ip1 = length ip2 →
  number ip1 = number ip2 → ip1 = ip2.
Proof.
  intros H1. revert ip2. induction H1 as [|a ip1 Ha H1 IH]; intros [|b ip2] H2 Hlen Heq; try done.
  apply Forall_cons in H2 as [Hb H2]. injection Hlen as Hlen. rewrite !number_cons, Hlen in Heq.
  pose proof (number_bounds ip1 H1) as B1. pose proof (number_bounds ip2 H2) as B2. rewrite Hlen in B1.
  set (P := 256 ^ _) in *. assert (a = b) as ->.
  { destruct (Z.lt_trichotomy a b) as [Hl|[->|Hl]]; [|done|];
      [assert ((a + 1) * P ≤ b * P) by (apply Z.mul_le_mono_nonneg_r; lia)
      |assert ((b + 1) * P ≤ a * P) by (apply Z.mul_le_mono_nonneg_r; lia)]; lia. }
  f_equal. apply IH; [done|done|lia].
Qed.

(** The bits of the first byte and of the first two. *)
Lemma number_first a ip k :
  Forall (λ b, 0 ≤ b < 256) ip → 0 ≤ k ≤ 8 → 0 ≤ a < 256 →
  number (a :: ip) / 2 ^ (8 * Z.of_nat (S (length ip)) - k) = a / 2 ^ (8 - k).
Proof.
  intros Hip Hk Ha. pose proof (number_bounds ip Hip). rewrite number_cons.
  replace (8 * Z.of_nat (S (length ip)) - k) with (8 * Z.of_nat (length ip) + (8 - k)) by lia.
  rewrite Z.pow_add_r, <-Z.div_div by lia. change 256 with (2 ^ 8) in *. rewrite <-Z.pow_mul_r in * by lia.
  assert (0 < 2 ^ (8 * Z.of_nat (length ip))) by (apply Z.pow_pos_nonneg; lia).
  rewrite Z.div_add_l, (Z.div_small (number ip)) by lia. by rewrite Z.add_0_r.
Qed.

Lemma number_second a b ip k :
  Forall (λ b, 0 ≤ b < 256) ip → 8 ≤ k ≤ 16 → 0 ≤ a < 256 → 0 ≤ b < 256 →
  number (a :: b :: ip) / 2 ^ (8 * Z.of_nat (S (S (length ip))) - k) = (a * 256 + b) / 2 ^ (16 - k).
Proof.
  intros Hip Hk Ha Hb. pose proof (number_bounds ip Hip). rewrite !number_cons. cbn [length].
  replace (8 * Z.of_nat (S (S (length ip))) - k) with (8 * Z.of_nat (length ip) + (16 - k)) by lia.
  rewrite Nat2Z.inj_succ, Z.pow_succ_r by lia.
  rewrite Z.pow_add_r, <-Z.div_div by lia. change 256 with (2 ^ 8) in *. rewrite <-Z.pow_mul_r in * by lia.
  replace (a * (2 ^ 8 * 2 ^ (8 * Z.of_nat (length ip))) + (b * 2 ^ (8 * Z.of_nat (length ip)) + number ip))
    with ((a * 2 ^ 8 + b) * 2 ^ (8 * Z.of_nat (length ip)) + number ip) by ring.
  assert (0 < 2 ^ (8 * Z.of_nat (length ip))) by (apply Z.pow_pos_nonneg; lia).
  rewrite Z.div_add_l, (Z.div_small (number ip)) by lia. by rewrite Z.add_0_r.
Qed.
End Numbers.

(** ** The classes are networks *)

(** A property of bytes that a computation over all of them shows. *)
Lemma all_bytes (P : Z → bool) : forallb P (seqZ 0 256) = true → ∀ b, 0 ≤ b < 256 → P b = true.
Proof. intros Hall b Hb. rewrite forallb_forall in Hall. apply Hall, list_elem_of_In, elem_of_seqZ. lia. Qed.

Lemma mask_254 b : 0 ≤ b < 256 → (Z.land b 254 =? 252) = (b / 2 =? 126).
Proof. intros Hb. by apply eqb_prop, (all_bytes (λ b, eqb (Z.land b 254 =? 252) (b / 2 =? 126))). Qed.
Lemma mask_16 b : 0 ≤ b < 256 → (Z.land b 240 =? 16) = (b / 16 =? 1).
Proof. intros Hb. by apply eqb_prop, (all_bytes (λ b, eqb (Z.land b 240 =? 16) (b / 16 =? 1))). Qed.
Lemma mask_224 b : 0 ≤ b < 256 → (Z.land b 240 =? 224) = (b / 16 =? 14).
Proof. intros Hb. by apply eqb_prop, (all_bytes (λ b, eqb (Z.land b 240 =? 224) (b / 16 =? 14))). Qed.
Lemma mask_192 b : 0 ≤ b < 256 → (Z.land b 192 =? 128) = (b / 64 =? 2).
Proof. intros Hb. by apply eqb_prop, (all_bytes (λ b, eqb (Z.land b 192 =? 128) (b / 64 =? 2))). Qed.

(** A network of one address. *)
Lemma in_network_host net ip :
  Forall (λ b, 0 ≤ b < 256) net → Forall (λ b, 0 ≤ b < 256) ip →
  in_network net (8 * Z.of_nat (length net)) ip = bool_decide (ip = net).
Proof.
  intros Hn Hi. unfold in_network. rewrite Z.sub_diag, !Z.div_1_r. case_bool_decide as Hlen; cbn [andb].
  - destruct (Z.eqb_spec (number ip) (number net)) as [Heq|Hne].
    + rewrite bool_decide_eq_true_2; [done|]. by apply number_inj.
    + rewrite bool_decide_eq_false_2; [done|]. by intros ->.
  - rewrite bool_decide_eq_false_2; [done|]. by intros ->.
Qed.

(** Networks of at most eight bits, and of nine to sixteen. *)
Lemma in_network_first n rest k a ip :
  length ip = length rest → Forall (λ b, 0 ≤ b < 256) ip → Forall (λ b, 0 ≤ b < 256) rest →
  0 ≤ k ≤ 8 → 0 ≤ a < 256 → 0 ≤ n < 256 →
  in_network (n :: rest) k (a :: ip) = (a / 2 ^ (8 - k) =? n / 2 ^ (8 - k)).
Proof.
  intros Hlen Hi Hr Hk Ha Hn. unfold in_network. cbn [length]. rewrite bool_decide_eq_true_2 by (by rewrite Hlen).
  rewrite number_first by done. by rewrite <-Hlen, number_first.
Qed.
Lemma in_network_second n m rest k a b ip :
  length ip = length rest → Forall (λ b, 0 ≤ b < 256) ip → Forall (λ b, 0 ≤ b < 256) rest →
  8 ≤ k ≤ 16 → 0 ≤ a < 256 → 0 ≤ b < 256 → 0 ≤ n < 256 → 0 ≤ m < 256 →
  in_network (n :: m :: rest) k (a :: b :: ip) = ((a * 256 + b) / 2 ^ (16 - k) =? (n * 256 + m) / 2 ^ (16 - k)).
Proof.
  intros Hlen Hi Hr Hk Ha Hb Hn Hm. unfold in_network. cbn [length]. rewrite bool_decide_eq_true_2 by (by rewrite Hlen).
  rewrite number_second by done. by rewrite <-Hlen, number_second.
Qed.
