(* ===== verification/Webhook.v ===== *)
(** * Webhooks (art-api/internal: webhook/service.go, httpapi/webhooks.go)

    Events of the hub become deliveries in the database, and a ticker sends the
    deliveries that are due.  The network is an argument of a step: what the
    resolver answers and what the receiver answers. *)

From S2P Require Export NetAddress Http Rbac StoreMisc.
From S2P Require Import Text Encoding Crypto Sample Keeps.
From Stdlib Require Import Btauto.

(** [url.Parse]: the scheme, [Hostname()] and whether there is user information. *)
Record ParsedURL := mkParsedURL { url_Scheme : string; url_Hostname : string; url_User : bool }.
Class UrlParser := { url_Parse : string → option ParsedURL }.
(** [json.Marshal] of an event of the hub. *)
Class EventJson := { event_json : Event → string }.

(** [LookupIPAddr] *)
Abbreviation resolver := (string → res (list IP)) (only parsing).

Record WebhookService := mkWebhookService { hook_masterSecret : bytes; hook_allowPrivate : bool }.

Definition maxAttempts : Z := 6.

(** The request that is posted, and what [client.Do] gives. *)
Record httpRequest := mkHttpRequest {
  post_URL : string; post_Header : list (string * string); post_Body : string }.
Inductive http_answer :=
| Answered (code : Z)
| Unanswered (message : string).

(** One attempt: the resolver, the time of the signature, the answer to the
    request and the time after it. *)
Record Attempt := mkAttempt {
  try_lookup : resolver; try_sent : time; try_answer : httpRequest → http_answer; try_now : time }.

(** What left the process: the delivery, its webhook, the request and when it
    was answered, with success or not; [sent_stored]: the row of the delivery was
    updated after it ([deliver] only logs the error when it was not). *)
Record Sent := mkSent {
  sent_delivery : string; sent_webhook : string; sent_request : httpRequest; sent_answered : time; sent_ok : bool;
  sent_stored : bool }.

Definition truncate `{Unicode} (value : string) (limit : nat) : string :=
  String.substring 0 limit (TrimSpace value).

Definition isPrivate (ip : IP) : bool :=
  IsLoopback ip || IsPrivate ip || IsLinkLocalUnicast ip || IsLinkLocalMulticast ip || IsUnspecified ip || IsMulticast ip.

(** [dialContext]: the address and port the connection is made to. *)
Definition dialContext (s : WebhookService) (lookup : resolver) (address : string) : res (IP * string) :=
  match SplitHostPort address with
  | None => Err (ErrText "address")
  | Some (host, port) =>
      res_bind (lookup host) (λ addresses,
        match head (filter (λ resolved, ¬ (hook_allowPrivate s = false ∧ isPrivate resolved = true)) addresses) with
        | Some resolved => Ok (resolved, port)
        | None => Err (ErrText "webhook destination is not allowed")
        end)
  end.

Definition Secret (s : WebhookService) (id : string) : string :=
  base64_encode url_alphabet (hmac_sum sha256_Sum (hook_masterSecret s) (bytes_of ("art-webhook-v1:" +:+ id))).

Section Webhook.
Context `{Unicode} `{UrlParser} `{EventJson}.

Definition ValidateURL (s : WebhookService) (lookup : resolver) (raw : string) : res unit :=
  let invalid := Err (ErrText "webhook URL must be an absolute HTTPS URL without credentials") in
  match url_Parse raw with
  | None => invalid
  | Some parsed =>
      if negb (bool_decide (url_Scheme parsed = "https")) || bool_decide (url_Hostname parsed = "") || url_User parsed
      then invalid
      else if hook_allowPrivate s then Ok tt else
      match lookup (url_Hostname parsed) with
      | Err _ | Ok [] => Err (ErrText "webhook hostname cannot be resolved")
      | Ok addresses =>
          if existsb isPrivate addresses then Err (ErrText "private and local webhook destinations are disabled") else Ok tt
      end
  end.

(** The hooks that want an event: one delivery each; [fresh] and [now] by the
    place of the hook in the list. *)
Definition wants (hook : Webhook) (event : Event) : bool :=
  webhook_Enabled hook
  && (bool_decide ("*" ∈ webhook_Events hook) || bool_decide (event_Type event ∈ webhook_Events hook)).

Definition new_delivery (hook : Webhook) (event : Event) (fresh : string) (now : time) : WebhookDelivery :=
  mkWebhookDelivery fresh (webhook_ID hook) (event_Type event) (event_json event) "pending" 0 0 "" now now None.

Definition enqueue (event : Event) (fresh : nat → string) (now : nat → time) : M unit :=
  hooks ← try ListWebhooks;
  match hooks with
  | Err _ => ret tt
  | Ok hooks =>
      for_each (λ '(i, hook),
          if wants hook event
          then discard (try (CreateWebhookDelivery (new_delivery hook event (fresh i) (now i)))) else ret tt)
        (imap (λ i hook, (i, hook)) hooks)
  end.

(** The request of a delivery. *)
Definition signature (s : WebhookService) (hookID timestamp body : string) : string :=
  "sha256=" +:+ hex_encode (hmac_sum sha256_Sum (bytes_of (Secret s hookID)) (bytes_of (timestamp +:+ "." +:+ body))).

Definition webhook_request (s : WebhookService) (hook : Webhook) (delivery : WebhookDelivery) (sent : time) : httpRequest :=
  let timestamp := Itoa (sent / second) in
  let signature := signature s (webhook_ID hook) timestamp (delivery_Payload delivery) in
  mkHttpRequest (webhook_URL hook)
    [("Content-Type", "application/json"); ("User-Agent", "Remote-Control-Server-Webhooks/1");
     ("X-ART-Event", delivery_EventType delivery); ("X-ART-Delivery", delivery_ID delivery);
     ("X-ART-Timestamp", timestamp); ("X-RDS-Signature", signature); ("X-ART-Signature", signature)]
    (delivery_Payload delivery).

Definition backoff (attempts : Z) : duration := 2 ^ (Z.min attempts 8) * second.

(** The delivery after an answer. *)
Definition settled (delivery : WebhookDelivery) (answer : http_answer) (now : time) : WebhookDelivery :=
  let delivery := match answer with
                  | Answered code => delivery <| delivery_ResponseCode := code |>
                  | Unanswered _ => delivery
                  end in
  let failure message :=
    let delivery := delivery <| delivery_LastError := message |> in
    if maxAttempts <=? delivery_Attempts delivery then delivery <| delivery_Status := "failed" |>
    else delivery <| delivery_Status := "pending" |> <| delivery_NextAttempt := now + backoff (delivery_Attempts delivery) |> in
  match answer with
  | Answered code =>
      if (200 <=? code) && (code <? 300)
      then delivery <| delivery_Status := "delivered" |> <| delivery_LastError := "" |> <| delivery_DeliveredAt := Some now |>
      else failure ("HTTP " +:+ Itoa code)
  | Unanswered message => failure (truncate message 512)
  end.

Definition success (answer : http_answer) : bool :=
  match answer with Answered code => (200 <=? code) && (code <? 300) | Unanswered _ => false end.

(** [deliver]; what it returns is what it sent.  The request is always built:
    [ValidateURL] has parsed the URL. *)
Definition deliver_webhook (s : WebhookService) (delivery : WebhookDelivery) (x : Attempt) : M (option Sent) :=
  let update delivery := discard (try (UpdateWebhookDelivery delivery)) in
  found ← try (FindWebhookByID (delivery_WebhookID delivery));
  let cancelled := delivery <| delivery_Status := "cancelled" |> <| delivery_LastError := "webhook disabled or removed" |> in
  match found with
  | Err _ => update cancelled;; ret None
  | Ok hook =>
      if negb (webhook_Enabled hook) then update cancelled;; ret None else
      match ValidateURL s (try_lookup x) (webhook_URL hook) with
      | Err e => update (delivery <| delivery_Status := "failed" |> <| delivery_LastError := error_text e |>);; ret None
      | Ok _ =>
          let delivery := delivery <| delivery_Attempts := delivery_Attempts delivery + 1 |> in
          let request := webhook_request s hook delivery (try_sent x) in
          let answer := try_answer x request in
          stored ← try (UpdateWebhookDelivery (settled delivery answer (try_now x)));
          ret (Some (mkSent (delivery_ID delivery) (webhook_ID hook) request (try_now x) (success answer) (is_ok stored)))
      end
  end.

(** The deliveries of one tick, in their order; [x i] is the attempt of the i-th. *)
Fixpoint deliver_all (s : WebhookService) (values : list WebhookDelivery) (i : nat) (x : nat → Attempt) : M (list Sent) :=
  match values with
  | [] => ret []
  | delivery :: rest =>
      sent ← deliver_webhook s delivery (x i);
      more ← deliver_all s rest (S i) x;
      ret (match sent with Some sent => sent :: more | None => more end)
  end.

Definition deliverDue (s : WebhookService) (now : time) (x : nat → Attempt) : M (list Sent) :=
  values ← try (ListDueWebhookDeliveries now 25);
  match values with
  | Err _ => ret []
  | Ok values => deliver_all s values 0 x
  end.

(** ** httpapi/webhooks.go *)

Definition webhookEventTypes : list string :=
  ["*"; UserUpdated; UserDisabled; SessionCreated; SessionRevoked; SessionRevokedAll; ACLUpdated; StrategyUpdated;
   UserGroupMembershipUpdated; RelayUpdated; DeviceUpdated; AuditRecorded].

Record webhookRequest := mkWebhookRequest {
  whr_Name : string; whr_URL : string; whr_Events : list string; whr_Enabled : bool }.

(** The loop over the event types: the ones seen so far in their order. *)
Fixpoint normalize_events (seen : list string) (events : list string) : option (list string) :=
  match events with
  | [] => Some seen
  | event :: rest =>
      let event := TrimSpace event in
      if negb (bool_decide (event ∈ webhookEventTypes)) then None
      else normalize_events (if bool_decide (event ∈ seen) then seen else seen ++ [event]) rest
  end.

Definition normalizeWebhook (input : webhookRequest) : option webhookRequest :=
  let name := TrimSpace (whr_Name input) in
  let url := TrimSpace (whr_URL input) in
  let count := Z.of_nat (length (whr_Events input)) in
  if (len name <? 2) || (128 <? len name) || (2048 <? len url) || (count <? 1)
     || (Z.of_nat (length webhookEventTypes) <? count) then None else
  match normalize_events [] (whr_Events input) with
  | None => None
  | Some normalized => Some (mkWebhookRequest name url (SliceStable str_lt normalized) (whr_Enabled input))
  end.

(** The checks of a body that is written. *)
Definition accepted_webhook (s : WebhookService) (lookup : resolver) (body : option webhookRequest) : option webhookRequest :=
  match body with
  | None => None
  | Some input =>
      match normalizeWebhook input with
      | None => None
      | Some input => if is_ok (ValidateURL s lookup (whr_URL input)) then Some input else None
      end
  end.

Definition listWebhooks : M (Reply (list Webhook * list string)) :=
  values ← try ListWebhooks;
  ret (match values with Ok values => writeJSON 200 (values, webhookEventTypes) | Err _ => writeError 500 "webhooks unavailable" end).

(** The reply is the webhook with its secret. *)
Definition createWebhook (s : option WebhookService) (lookup : resolver) (c : Call) (p : Principal) (fresh : string)
    (body : option webhookRequest) : M (Reply (Webhook * string)) :=
  match s with
  | None => ret (writeError 503 "webhooks unavailable")
  | Some hooks =>
      match accepted_webhook hooks lookup body with
      | None => ret (writeError 400 "invalid webhook")
      | Some input =>
          let now := call_now c in
          let value := mkWebhook fresh (whr_Name input) (whr_URL input) (whr_Events input) (whr_Enabled input) now now in
          created ← try (CreateWebhook value);
          if negb (is_ok created) then ret (writeError 500 "cannot create webhook") else
          record c 0 (audit_event "webhook_created" (user_ID (principal_User p)) (session_ID (principal_Session p))
            "" "success" "" {["webhook_id" := VString fresh; "name" := VString (whr_Name input)]});;
          ret (writeJSON 201 (value, Secret hooks fresh))
      end
  end.

Definition updateWebhook (s : option WebhookService) (lookup : resolver) (c : Call) (p : Principal) (webhookID : string)
    (body : option webhookRequest) : M (Reply Webhook) :=
  match s with
  | None => ret (writeError 503 "webhooks unavailable")
  | Some hooks =>
      existing ← try (FindWebhookByID webhookID);
      match existing with
      | Err ErrNotFound => ret (writeError 404 "webhook not found")
      | Err _ => ret (writeError 500 "webhook unavailable")
      | Ok existing =>
          match accepted_webhook hooks lookup body with
          | None => ret (writeError 400 "invalid webhook")
          | Some input =>
              let existing := existing <| webhook_Name := whr_Name input |> <| webhook_URL := whr_URL input |>
                <| webhook_Events := whr_Events input |> <| webhook_Enabled := whr_Enabled input |>
                <| webhook_UpdatedAt := call_now c |> in
              updated ← try (UpdateWebhook existing);
              if negb (is_ok updated) then ret (writeError 500 "cannot update webhook") else
              record c 0 (audit_event "webhook_updated" (user_ID (principal_User p)) (session_ID (principal_Session p))
                "" "success" "" {["webhook_id" := VString (webhook_ID existing)]});;
              ret (writeJSON 200 existing)
          end
      end
  end.

Definition deleteWebhook (c : Call) (p : Principal) (webhookID : string) : M (Reply unit) :=
  deleted ← try (DeleteWebhook webhookID);
  match deleted with
  | Err ErrNotFound => ret (writeError 404 "webhook not found")
  | Err _ => ret (writeError 500 "cannot delete webhook")
  | Ok _ =>
      record c 0 (audit_event "webhook_deleted" (user_ID (principal_User p)) (session_ID (principal_Session p))
        "" "success" "" {["webhook_id" := VString webhookID]});;
      ret (mkReply 204 NoContent)
  end.

Definition listWebhookDeliveries (webhookID : string) : M (Reply (list WebhookDelivery)) :=
  values ← try (ListWebhookDeliveries webhookID 100);
  ret (match values with Ok values => writeJSON 200 values | Err _ => writeError 500 "deliveries unavailable" end).
End Webhook.

(** ** Private destinations *)

(** The networks that are not dialled unless private destinations are allowed. *)
Definition reserved_networks : list (IP * Z) :=
  [([127; 0; 0; 0], 8); ([10; 0; 0; 0], 8); ([172; 16; 0; 0], 12); ([192; 168; 0; 0], 16); ([169; 254; 0; 0], 16);
   ([224; 0; 0; 0], 4); ([0; 0; 0; 0], 32);
   (IPv6loopback, 128); (v6 [252], 7); (v6 [254; 128], 10); (v6 [255], 8); (IPv6unspecified, 128)].

Definition reserved (ip : IP) : bool := existsb (λ '(net, bits), in_network net bits (canonical ip)) reserved_networks.

Lemma other_length net bits ip : length ip ≠ length net → in_network net bits ip = false.
Proof. intros Hne. unfold in_network. by rewrite bool_decide_eq_false_2. Qed.

Abbreviation is_byte b := (0 ≤ b < 256) (only parsing).

Lemma bytes_zero n : Forall (λ b, is_byte b) (replicate n 0).
Proof. apply Forall_replicate. lia. Qed.

(** Two bits of arithmetic: the prefixes that end inside the second byte. *)
Lemma prefix12 a b n m : is_byte a → is_byte b → is_byte n → 0 ≤ m < 16 →
  ((a * 256 + b) / 16 =? (n * 256 + 16 * m) / 16) = (a =? n) && (b / 16 =? m).
Proof.
  intros. replace (a * 256 + b) with (16 * a * 16 + b) by ring. replace (n * 256 + 16 * m) with ((16 * n + m) * 16) by ring.
  rewrite Z.div_add_l, Z.div_mul by lia. assert (0 ≤ b / 16 < 16) by (Z.to_euclidean_division_equations; lia).
  destruct (Z.eqb_spec a n), (Z.eqb_spec (b / 16) m); cbn [andb]; apply Z.eqb_eq || apply Z.eqb_neq; lia.
Qed.
Lemma prefix10 a b n m : is_byte a → is_byte b → is_byte n → 0 ≤ m < 4 →
  ((a * 256 + b) / 64 =? (n * 256 + 64 * m) / 64) = (a =? n) && (b / 64 =? m).
Proof.
  intros. replace (a * 256 + b) with (4 * a * 64 + b) by ring. replace (n * 256 + 64 * m) with ((4 * n + m) * 64) by ring.
  rewrite Z.div_add_l, Z.div_mul by lia. assert (0 ≤ b / 64 < 4) by (Z.to_euclidean_division_equations; lia).
  destruct (Z.eqb_spec a n), (Z.eqb_spec (b / 64) m); cbn [andb]; apply Z.eqb_eq || apply Z.eqb_neq; lia.
Qed.
Lemma prefix16 a b n m : is_byte a → is_byte b → is_byte n → is_byte m →
  ((a * 256 + b) / 1 =? (n * 256 + m) / 1) = (a =? n) && (b =? m).
Proof.
  intros. rewrite !Z.div_1_r.
  destruct (Z.eqb_spec a n), (Z.eqb_spec b m); cbn [andb]; apply Z.eqb_eq || apply Z.eqb_neq; lia.
Qed.

Ltac byte_list := rewrite ?Forall_cons, ?Forall_nil; repeat split; lia.

(** The networks of IPv4 and of IPv6 by the first bytes. *)
Lemma reserved_four a b c d :
  is_byte a → is_byte b → is_byte c → is_byte d →
  reserved [a; b; c; d]
  = (a =? 127) || ((a =? 10) || (((a =? 172) && (b / 16 =? 1)) || (((a =? 192) && (b =? 168))
    || (((a =? 169) && (b =? 254)) || ((a / 16 =? 14) || bool_decide ([a; b; c; d] = [0; 0; 0; 0])))))).
Proof.
  intros Ha Hb Hc Hd.
  assert (Hcd : Forall (λ b, is_byte b) [c; d]) by byte_list.
  assert (Hbcd : Forall (λ b, is_byte b) [b; c; d]) by byte_list.
  unfold reserved, reserved_networks, existsb. change (canonical [a; b; c; d]) with [a; b; c; d].
  rewrite (in_network_first 127 [0; 0; 0] 8), (in_network_first 10 [0; 0; 0] 8), (in_network_first 224 [0; 0; 0] 4)
    by first [done|lia|byte_list].
  rewrite (in_network_second 172 16 [0; 0] 12), (in_network_second 192 168 [0; 0] 16), (in_network_second 169 254 [0; 0] 16)
    by first [done|lia|byte_list].
  rewrite (in_network_host [0; 0; 0; 0]) by byte_list. rewrite !other_length by done.
  change (8 - 8) with 0. change (16 - 12) with 4. change (16 - 16) with 0. change (8 - 4) with 4.
  change (2 ^ 0) with 1. change (2 ^ 4) with 16.
  change (172 * 256 + 16) with (172 * 256 + 16 * 1).
  rewrite (prefix12 a b 172 1), (prefix16 a b 192 168), (prefix16 a b 169 254) by lia. rewrite !Z.div_1_r.
  change (224 / 16) with 14. by rewrite !orb_false_r.
Qed.

Lemma reserved_sixteen a b rest :
  is_byte a → is_byte b → Forall (λ b, is_byte b) rest → length rest = 14%nat → To4 (a :: b :: rest) = None →
  reserved (a :: b :: rest)
  = bool_decide (a :: b :: rest = IPv6loopback) || ((a / 2 =? 126) || (((a =? 254) && (b / 64 =? 2))
    || ((a =? 255) || bool_decide (a :: b :: rest = IPv6unspecified)))).
Proof.
  intros Ha Hb Hrest Hlen Hno.
  assert (Hbrest : Forall (λ b, is_byte b) (b :: rest)) by (by constructor).
  assert (Hall : Forall (λ b, is_byte b) (a :: b :: rest)) by (by constructor).
  unfold reserved, reserved_networks, existsb. unfold canonical. rewrite Hno. cbn [default].
  rewrite !(other_length _ _ (a :: b :: rest)) by (cbn; lia).
  change (v6 [252]) with (252 :: replicate 15 0). change (v6 [255]) with (255 :: replicate 15 0).
  change (v6 [254; 128]) with (254 :: 128 :: replicate 14 0).
  rewrite (in_network_first 252 (replicate 15 0) 7), (in_network_first 255 (replicate 15 0) 8)
    by first [apply bytes_zero|done|lia|cbn; lia].
  rewrite (in_network_second 254 128 (replicate 14 0) 10) by first [apply bytes_zero|done|lia].
  rewrite (in_network_host IPv6loopback), (in_network_host IPv6unspecified)
    by first [done|apply bytes_zero|unfold IPv6loopback; apply Forall_app; split; [apply bytes_zero|byte_list]].
  change (8 - 7) with 1. change (16 - 10) with 6. change (8 - 8) with 0. change (2 ^ 0) with 1. change (2 ^ 1) with 2.
  change (2 ^ 6) with 64. change (254 * 256 + 128) with (254 * 256 + 64 * 2). rewrite (prefix10 a b 254 2) by lia. rewrite !Z.div_1_r. change (252 / 2) with 126.
  by rewrite !orb_false_r.
Qed.

(** [isPrivate] is membership in the reserved networks. *)
Lemma isPrivate_reserved ip : ip_ok ip → isPrivate ip = reserved ip.
Proof.
  intros [Hlen Hb]. destruct (To4 ip) as [v|] eqn:H4.
  - assert (Hv : isPrivate ip = isPrivate v ∧ reserved ip = reserved v ∧ ∃ a b c d, v = [a; b; c; d]
                 ∧ is_byte a ∧ is_byte b ∧ is_byte c ∧ is_byte d).
    { assert (Hv4 : length v = 4%nat ∧ Forall (λ b, is_byte b) v).
      { unfold To4 in H4. destruct Hlen as [Hl|Hl]; repeat case_decide; simplify_eq; split; try done.
        - rewrite length_drop. lia.
        - by apply Forall_drop. }
      destruct Hv4 as [Hl4 Hv]. assert (Hself : To4 v = Some v) by (unfold To4; by rewrite decide_True).
      split_and!.
      - unfold isPrivate, IsLoopback, IsPrivate, IsLinkLocalUnicast, IsLinkLocalMulticast, IsUnspecified, IsMulticast.
        by rewrite H4, Hself.
      - unfold reserved, canonical. by rewrite H4, Hself.
      - destruct v as [|a [|b [|c [|d [|]]]]]; try done. rewrite !Forall_cons in Hv. exists a, b, c, d. naive_solver. }
    destruct Hv as (-> & -> & a & b & c & d & -> & Ha & Hbb & Hc & Hd).
    rewrite reserved_four by done.
    unfold isPrivate, IsLoopback, IsPrivate, IsLinkLocalUnicast, IsLinkLocalMulticast, IsUnspecified, IsMulticast.
    change (To4 [a; b; c; d]) with (Some [a; b; c; d]). cbn [at_ lookup list_lookup default].
    unfold at_. cbn [lookup list_lookup default].
    rewrite mask_16, mask_224 by done.
    unfold id. assert (Hm : (a / 16 =? 14) = false → (a =? 224) = false).
    { intros Hm. apply Z.eqb_neq in Hm. apply Z.eqb_neq. by intros ->. }
    destruct (a / 16 =? 14); [|rewrite Hm by done]; btauto.
  - destruct Hlen as [Hl|Hl]; [unfold To4 in H4; by rewrite decide_True in H4|].
    destruct ip as [|a [|b rest]]; try done. apply Forall_cons in Hb as [Ha Hb]. apply Forall_cons in Hb as [Hbb Hrest].
    rewrite reserved_sixteen by first [done|cbn in *; lia].
    unfold isPrivate, IsLoopback, IsPrivate, IsLinkLocalUnicast, IsLinkLocalMulticast, IsUnspecified, IsMulticast.
    rewrite H4. unfold is16. rewrite Hl. unfold at_. cbn [lookup list_lookup default bool_decide].
    rewrite mask_254, mask_192 by done.
    rewrite (bool_decide_eq_true_2 (16%nat = 16%nat)) by done. unfold id. btauto.
Qed.

(** C19: a delivery never connects to a private address: while private
    destinations are not allowed, whatever the resolver answers and whatever the
    host of a URL or of a redirection, the address that is dialled is one the
    resolver gave for that host and lies in none of the loopback, private,
    link-local, multicast and unspecified networks of IPv4, of IPv6, and of IPv4
    mapped into IPv6. *)
Theorem webhook_never_dials_private s lookup address ip port :
  (∀ host ips, lookup host = Ok ips → Forall ip_ok ips) → hook_allowPrivate s = false →
  dialContext s lookup address = Ok (ip, port) →
  ∃ host ips, SplitHostPort address = Some (host, port) ∧ lookup host = Ok ips ∧ ip ∈ ips
    ∧ ∀ net bits, (net, bits) ∈ reserved_networks → in_network net bits (canonical ip) = false.
Proof.
  intros Hips Hno. unfold dialContext. destruct (SplitHostPort address) as [[host port']|]; [|done].
  destruct (lookup host) as [ips|] eqn:Hl; [|done]. cbn [res_bind].
  destruct (head _) as [ip'|] eqn:Hh; [|done]. intros [= -> ->].
  apply select_one_Some in Hh as [Hin Hp]. exists host, ips. split_and!; try done.
  assert (Hr : reserved ip = false).
  { rewrite <-isPrivate_reserved by (by eapply Forall_forall; [eapply Hips|]). destruct (isPrivate ip); [|done]. by destruct Hp. }
  intros net bits Hnet. unfold reserved in Hr. destruct (in_network net bits (canonical ip)) eqn:Hi; [|done].
  assert (existsb (λ '(net, bits), in_network net bits (canonical ip)) reserved_networks = true); [|congruence].
  apply existsb_exists. exists (net, bits). split; [by apply list_elem_of_In|done].
Qed.

Lemma webhook_never_dials_private_witness :
  let s := mkWebhookService [] false in
  let lookup (host : string) := Ok [[127; 0; 0; 1]; v4_prefix ++ [10; 0; 0; 7]; [93; 184; 216; 34]] in
  dialContext s lookup "hooks.example:443" = Ok ([93; 184; 216; 34], "443")
  ∧ in_network [10; 0; 0; 0] 8 (canonical [93; 184; 216; 34]) = false.
Proof.
  intros s lookup. assert (Hd : dialContext s lookup "hooks.example:443" = Ok ([93; 184; 216; 34], "443")) by reflexivity.
  split; [exact Hd|].
  destruct (webhook_never_dials_private s lookup "hooks.example:443" [93; 184; 216; 34] "443") as (host & ips & _ & _ & _ & Hn).
  - intros host ips [= <-]. apply (bool_decide_eq_true_1 (Forall _ _)). vm_compute. reflexivity.
  - reflexivity.
  - exact Hd.
  - apply Hn. right. left.
Defined.

(** ** The life of a delivery *)

(** What happens besides the ticks: events and the requests of administrators. *)
Inductive hook_step :=
| HookEvent (event : Event) (fresh : nat → string) (now : nat → time)
| HookCreate (s : WebhookService) (lookup : resolver) (c : Call) (p : Principal) (fresh : string) (body : option webhookRequest)
| HookUpdate (s : WebhookService) (lookup : resolver) (c : Call) (p : Principal) (id : string) (body : option webhookRequest)
| HookDelete (c : Call) (p : Principal) (id : string).

Section History.
Context `{Unicode} `{UrlParser} `{EventJson}.
Implicit Types (log : list (time * Sent)) (d : DB) (row : WebhookDelivery).

Definition serve_hook (r : hook_step) : M unit :=
  match r with
  | HookEvent event fresh now => enqueue event fresh now
  | HookCreate s lookup c p fresh body => discard (createWebhook (Some s) lookup c p fresh body)
  | HookUpdate s lookup c p id body => discard (updateWebhook (Some s) lookup c p id body)
  | HookDelete c p id => discard (deleteWebhook c p id)
  end.

(** The log of what was sent, with the time of the tick.  Any statement may fail,
    in a tick as well. *)
Inductive hook_history : list (time * Sent) → world → Prop :=
| hooks_start w : t_webhook_deliveries (w_db w) = [] → hook_history [] w
| hooks_tick log w s now x fs sent w' :
    hook_history log w → deliverDue s now x (w <| w_faults := fs |>) = (Ok sent, w') →
    hook_history (log ++ ((λ e, (now, e)) <$> sent)) w'
| hooks_serve log w r fs :
    hook_history log w → hook_history log (serve_hook r (w <| w_faults := fs |>)).2.

(** The attempts of one delivery: the requests after which its row was updated,
    in their order. *)
Definition attempts_of (id : string) log : list (time * Sent) :=
  filter (λ e, sent_delivery e.2 = id ∧ sent_stored e.2 = true) log.

(** The [n]-th attempt failed, and the request came only after the backoff: the
    column keeps milliseconds, rounded down. *)
Definition retried (n : nat) (attempt request : time * Sent) : Prop :=
  sent_ok attempt.2 = false ∧ sent_answered attempt.2 + backoff (Z.of_nat n) - millisecond < request.1.

(** Every request was sent before the sixth attempt, and after the backoff of the
    last one. *)
Definition in_pace log : Prop :=
  ∀ l1 e l2, log = l1 ++ e :: l2 →
    let before := attempts_of (sent_delivery e.2) l1 in
    Z.of_nat (length before) < maxAttempts ∧ ∀ e0, last before = Some e0 → retried (length before) e0 e.

Definition delivery_ok log row : Prop :=
  let l := attempts_of (delivery_ID row) log in
  delivery_Attempts row = Z.of_nat (length l) ∧ Z.of_nat (length l) ≤ maxAttempts
  ∧ (delivery_Status row = "pending" → Z.of_nat (length l) < maxAttempts
     ∧ ∀ e, last l = Some e → sent_ok e.2 = false
         ∧ delivery_NextAttempt row = millis (sent_answered e.2 + backoff (Z.of_nat (length l)))).

Definition deliveries_inv log d : Prop :=
  webhook_deliveries_ok d ∧ (∀ row, row ∈ t_webhook_deliveries d → delivery_ok log row)
  ∧ (∀ e, e ∈ log → sent_delivery e.2 ∈ delivery_ID <$> t_webhook_deliveries d) ∧ in_pace log.

(** Requests of other deliveries, or not stored, are no attempts. *)
Lemma attempts_app_none id log sent :
  (∀ e, e ∈ sent → ¬ (sent_delivery e.2 = id ∧ sent_stored e.2 = true)) → attempts_of id (log ++ sent) = attempts_of id log.
Proof.
  intros Hnone. unfold attempts_of. rewrite filter_app.
  enough (filter (λ e, sent_delivery e.2 = id ∧ sent_stored e.2 = true) sent = []) as -> by apply app_nil_r.
  induction sent as [|e sent IH]; [done|]. rewrite filter_cons_False by (apply Hnone; left).
  apply IH. intros e' He'. apply Hnone. by right.
Qed.

Lemma attempts_snoc id log e :
  attempts_of id (log ++ [e])
  = attempts_of id log ++ (if decide (sent_delivery e.2 = id ∧ sent_stored e.2 = true) then [e] else []).
Proof. unfold attempts_of. rewrite filter_app, filter_cons. by case_decide. Qed.

Lemma in_pace_snoc log e :
  in_pace log →
  (let before := attempts_of (sent_delivery e.2) log in
   Z.of_nat (length before) < maxAttempts ∧ ∀ e0, last before = Some e0 → retried (length before) e0 e) →
  in_pace (log ++ [e]).
Proof.
  intros Hl He l1 e' l2. destruct l2 as [|e2 l2 _] using rev_ind.
  - intros [<- [= <-]]%app_inj_tail. exact He.
  - rewrite app_comm_cons, app_assoc. intros [Hlog _]%app_inj_tail. by eapply Hl.
Qed.

(** Never more than six attempts: each of them was sent before the sixth. *)
Lemma in_pace_bounded id log : in_pace log → Z.of_nat (length (attempts_of id log)) ≤ maxAttempts.
Proof.
  induction log as [|e log IH] using rev_ind; intros Hp; [done|].
  rewrite attempts_snoc, length_app. case_decide as He; cbn.
  - destruct He as [<- _]. destruct (Hp log e [] eq_refl) as [Hlt _]. lia.
  - rewrite Nat.add_0_r. apply IH. intros l1 e' l2 ->. apply (Hp l1 e' (l2 ++ [e])). by rewrite <-app_assoc.
Qed.

(** The row after [UpdateWebhookDelivery]. *)
Definition updated_row (v row : WebhookDelivery) : WebhookDelivery :=
  row <| delivery_Status := delivery_Status v |> <| delivery_Attempts := delivery_Attempts v |>
      <| delivery_ResponseCode := delivery_ResponseCode v |> <| delivery_LastError := delivery_LastError v |>
      <| delivery_NextAttempt := millis (delivery_NextAttempt v) |>
      <| delivery_DeliveredAt := millis <$> delivery_DeliveredAt v |>.

(** A due delivery that is handled: its row is replaced, or left when the update
    failed; the others stay. *)
Definition handled log d (id : string) (r : list (time * Sent)) d' : Prop :=
  deliveries_inv (log ++ r) d'
  ∧ ∀ row, row ∈ t_webhook_deliveries d → delivery_ID row ≠ id → row ∈ t_webhook_deliveries d'.

Lemma delivery_ok_attempts log log' row :
  attempts_of (delivery_ID row) log' = attempts_of (delivery_ID row) log → delivery_ok log row → delivery_ok log' row.
Proof. unfold delivery_ok. by intros ->. Qed.

(** What was sent ([sent], by whether the update was stored), and the row it left. *)
Lemma handled_lost log d id sent :
  deliveries_inv log d → in_pace (log ++ sent) → id ∈ delivery_ID <$> t_webhook_deliveries d →
  (∀ e, e ∈ sent → sent_delivery e.2 = id ∧ sent_stored e.2 = false) → handled log d id sent d.
Proof.
  intros (Hnd & Hrows & Hlog & _) Hp Hid Hsent. split; [|done]. split_and!; [done| | |done].
  - intros row Hr. eapply delivery_ok_attempts, Hrows, Hr.
    apply attempts_app_none. intros e He [_ Hst]. destruct (Hsent e He). congruence.
  - intros e [He|He]%elem_of_app; [by apply Hlog|]. by destruct (Hsent e He) as [-> _].
Qed.

Lemma handled_stored log d d' row v sent :
  deliveries_inv log d → in_pace (log ++ sent) → row ∈ t_webhook_deliveries d → delivery_ID v = delivery_ID row →
  (∀ e, e ∈ sent → sent_delivery e.2 = delivery_ID row) → delivery_ok (log ++ sent) (updated_row v row) →
  d' = write t_webhook_deliveries (update_where (λ r, delivery_ID r = delivery_ID v) (updated_row v) (t_webhook_deliveries d)) d →
  handled log d (delivery_ID row) sent d'.
Proof.
  intros (Hnd & Hrows & Hlog & _) Hp Hrow Hid Hsent Hok Ed. unfold handled, deliveries_inv, webhook_deliveries_ok.
  read_tables. rewrite fmap_update_where by done. split; [split_and!; [exact Hnd| | |exact Hp]|].
  - intros r (r0 & Hr0 & ->)%elem_of_update_where. case_decide as Hc.
    + assert (r0 = row) as -> by (eapply (unique_row delivery_ID); [exact Hnd|done|done|congruence]). done.
    + eapply delivery_ok_attempts, Hrows, Hr0.
      apply attempts_app_none. intros e He [Heq _]. rewrite (Hsent e He) in Heq. congruence.
  - intros e [He|He]%elem_of_app; [by apply Hlog|]. rewrite (Hsent e He). by apply list_elem_of_fmap_2.
  - intros r Hr Hne. apply elem_of_update_where. exists r. split; [done|]. by rewrite decide_False by congruence.
Qed.

Lemma update_handled F log d h row v (sent : bool → list (time * Sent)) :
  deliveries_inv log d → row ∈ t_webhook_deliveries d → delivery_ID v = delivery_ID row →
  (∀ b, in_pace (log ++ sent b)) → (∀ b e, e ∈ sent b → sent_delivery e.2 = delivery_ID row ∧ sent_stored e.2 = b) →
  delivery_ok (log ++ sent true) (updated_row v row) →
  wp F (try (UpdateWebhookDelivery v))
    (λ r d' _, ∃ res, r = Ok res ∧ (F = false → is_ok res = true)
                      ∧ handled log d (delivery_ID row) (sent (is_ok res)) d') d h.
Proof.
  intros Hinv Hrow Hid Hp Hsent Hok. unfold UpdateWebhookDelivery.
  assert (Hlost : ∀ e : error, handled log d (delivery_ID row) (sent (is_ok (Err e : res unit))) d).
  { intros e. apply handled_lost; [done..| |intros e' He'; by apply Hsent]. by apply list_elem_of_fmap_2. }
  assert (Hstep : ∀ d', d' = write t_webhook_deliveries (update_where (λ r, delivery_ID r = delivery_ID v)
      (updated_row v) (t_webhook_deliveries d)) d → handled log d (delivery_ID row) (sent true) d').
  { intros d' Ed. eapply handled_stored; [done..| |done|exact Ed]. intros e He. by destruct (Hsent true e He). }
  assert (Hcount : count_where (λ r, delivery_ID r = delivery_ID v) (t_webhook_deliveries d) ≠ 0).
  { apply count_where_pos. by exists row. }
  apply wp_try. wp_go.
  all: try match goal with Hbad : ¬ tbl_ok _ _ |- _ => destruct Hbad; exact (proj1 (proj1 (Hstep _ eq_refl))) end.
  all: first [done | by eexists (Ok _); split_and!; [done|done|apply Hstep]
             | eexists (Err _); split_and!; [done|by intros ->|apply Hlost]].
Qed.
Lemma settled_facts v answer now :
  delivery_ID (settled v answer now) = delivery_ID v ∧ delivery_Attempts (settled v answer now) = delivery_Attempts v
  ∧ (delivery_Status (settled v answer now) = "pending" →
     success answer = false ∧ delivery_Attempts v < maxAttempts
     ∧ delivery_NextAttempt (settled v answer now) = now + backoff (delivery_Attempts v)).
Proof.
  unfold settled, success. destruct answer as [code|m]; cbn; repeat case_match; cbn in *; split_and!; try done; intros;
    try done; simplify_bool; split_and!; try done; lia.
Qed.

Definition due (now : time) row : Prop := delivery_Status row = "pending" ∧ delivery_NextAttempt row ≤ millis now.

Lemma millis_due t now : millis t ≤ millis now → t - millisecond < now.
Proof. unfold millis, UnixMilli, millisecond. intros. Z.to_euclidean_division_equations. lia. Qed.

(** A delivery that is due is sent in pace. *)
Lemma due_in_pace log now row e :
  in_pace log → delivery_ok log row → due now row → sent_delivery e = delivery_ID row → in_pace (log ++ [(now, e)]).
Proof.
  intros Hp (Hn & _ & Hpend) [Hst Hdue] Hid. apply in_pace_snoc; [done|]. cbn. rewrite Hid.
  destruct (Hpend Hst) as [Hlt Hlast]. split; [done|]. intros e0 He0. destruct (Hlast e0 He0) as [Hf Hnext]. split; [done|].
  rewrite Hnext in Hdue. by apply millis_due in Hdue.
Qed.

(** The row of a delivery that was sent. *)
Lemma sent_delivery_ok log now row e answer :
  delivery_ok log row → due now row → sent_delivery e = delivery_ID row → sent_ok e = success answer → sent_stored e = true →
  delivery_ok (log ++ [(now, e)])
    (updated_row (settled (scanWebhookDelivery row <| delivery_Attempts := delivery_Attempts row + 1 |>) answer
                    (sent_answered e)) row).
Proof.
  intros (Hn & Hmax & Hpend) [Hst Hdue] Hid Hok Hstored. destruct (Hpend Hst) as [Hlt _].
  destruct (settled_facts (scanWebhookDelivery row <| delivery_Attempts := delivery_Attempts row + 1 |>) answer
              (sent_answered e)) as (_ & Ha & Hp). cbn in Ha, Hp.
  unfold delivery_ok. cbn [delivery_ID updated_row]. change (delivery_ID (updated_row ?v row)) with (delivery_ID row).
  rewrite attempts_snoc, decide_True, length_app by done. cbn [length]. rewrite Nat2Z.inj_add. change (Z.of_nat 1) with 1.
  split_and!.
  - change (delivery_Attempts (updated_row ?v row)) with (delivery_Attempts v). rewrite Ha. lia.
  - lia.
  - change (delivery_Status (updated_row ?v row)) with (delivery_Status v).
    change (delivery_NextAttempt (updated_row ?v row)) with (millis (delivery_NextAttempt v)).
    intros Hstatus. destruct (Hp Hstatus) as (Hsucc & Hlt' & ->). split; [lia|].
    intros e0. rewrite last_snoc. intros [= <-]. cbn. rewrite Hok, Hsucc, Hn. done.
Qed.

Lemma unsent_delivery_ok log row status message :
  delivery_ok log row → status ≠ "pending" →
  delivery_ok (log ++ [])
    (updated_row (scanWebhookDelivery row <| delivery_Status := status |> <| delivery_LastError := message |>) row).
Proof. intros (Hn & Hmax & Hpend) Hst. rewrite app_nil_r. by split_and!. Qed.

(** What a tick sent, stored unless a statement may fail. *)
Definition stored_unless (F : bool) (sent : list Sent) : Prop := F = false → Forall (λ e, sent_stored e = true) sent.

Lemma deliver_handled F s log row now x d h :
  deliveries_inv log d → row ∈ t_webhook_deliveries d → due now row →
  wp F (deliver_webhook s (scanWebhookDelivery row) x)
    (λ r d' _, ∃ sent, r = Ok sent ∧ stored_unless F (option_list sent)
       ∧ handled log d (delivery_ID row) (option_list ((λ e, (now, e)) <$> sent)) d') d h.
Proof.
  intros Hinv Hrow Hdue. pose proof Hinv as (_ & Hrows & _ & Hp). specialize (Hrows row Hrow). unfold deliver_webhook.
  assert (Hunsent : ∀ status message h, status ≠ "pending" →
    wp F (discard (try (UpdateWebhookDelivery
                (scanWebhookDelivery row <| delivery_Status := status |> <| delivery_LastError := message |>)));; ret None)
      (λ r d' _, ∃ sent : option Sent, r = Ok sent ∧ stored_unless F (option_list sent)
         ∧ handled log d (delivery_ID row) (option_list ((λ e, (now, e)) <$> sent)) d') d h).
  { intros status message h0 Hst. apply wp_bind, wp_bind. eapply wp_mono.
    - eapply (update_handled F log d h0 row _ (λ _, [])); [done|done|done|intros _; by rewrite app_nil_r|by intros ? ? ?%elem_of_nil|].
      by apply unsent_delivery_ok.
    - intros r d' h' (stored & -> & _ & Hh). apply wp_ret, wp_ret. exists None. split_and!; [done|by intros _|done]. }
  apply wp_bind, wp_try. unfold FindWebhookByID. apply wp_query_row; [intros _; by apply Hunsent|].
  destruct (_ <$> _) as [hook|]; [|by apply Hunsent]. destruct (negb _); [by apply Hunsent|].
  destruct (ValidateURL _ _ _) as [[]|e]; [|by apply Hunsent].
  set (answer := try_answer x _). set (e := mkSent _ _ _ (try_now x) (success answer)).
  apply wp_bind. eapply wp_mono.
  - eapply (update_handled F log d h row _ (λ b, [(now, e b)])); [done|done| | | |].
    + exact (proj1 (settled_facts _ answer _)).
    + intros b. by apply (due_in_pace log now row (e b)).
    + by intros b e' ->%list_elem_of_singleton.
    + by apply (sent_delivery_ok log now row (e true) answer).
  - intros r d' h' (stored & -> & Hok & Hh). apply wp_ret. exists (Some (e (is_ok stored))). split_and!; [done| |done].
    intros HF. by constructor; [apply Hok|].
Qed.

Lemma deliver_all_inv F s rows i now x log d h :
  deliveries_inv log d → NoDup (delivery_ID <$> rows) →
  (∀ row, row ∈ rows → row ∈ t_webhook_deliveries d ∧ due now row) →
  wp F (deliver_all s (scanWebhookDelivery <$> rows) i x)
    (λ r d' _, ∃ sent, r = Ok sent ∧ stored_unless F sent ∧ deliveries_inv (log ++ ((λ e, (now, e)) <$> sent)) d') d h.
Proof.
  revert i log d h. induction rows as [|row rows IH]; intros i log d h Hinv Hnd Hrows; cbn [deliver_all fmap list_fmap].
  { apply wp_ret. exists []. rewrite app_nil_r. by split_and!; [|intros _|]. }
  apply NoDup_cons in Hnd as [Hnew Hnd]. destruct (Hrows row ltac:(left)) as [Hrow Hdue].
  apply wp_bind. eapply wp_mono; [by eapply deliver_handled|].
  intros r d1 h1 (sent & -> & Hst & Hinv1 & Hothers). apply wp_bind. eapply wp_mono.
  { eapply IH; [exact Hinv1|done|]. intros row' Hrow'. destruct (Hrows row' ltac:(by right)) as [Hr' Hd']. split; [|done].
    apply Hothers; [done|]. intros Heq. apply Hnew. rewrite <-Heq. by apply list_elem_of_fmap_2. }
  intros r2 d2 h2 (more & -> & Hst2 & Hinv2). apply wp_ret. rewrite <-app_assoc in Hinv2.
  exists (option_list sent ++ more). split_and!.
  - by destruct sent.
  - intros HF. apply Forall_app. split; auto.
  - by destruct sent.
Qed.

Lemma deliverDue_inv F s now x log d h :
  deliveries_inv log d →
  wp F (deliverDue s now x)
    (λ r d' _, ∃ sent, r = Ok sent ∧ stored_unless F sent ∧ deliveries_inv (log ++ ((λ e, (now, e)) <$> sent)) d') d h.
Proof.
  intros Hinv. unfold deliverDue, ListDueWebhookDeliveries. apply wp_bind, wp_try, wp_query.
  { intros _. apply wp_ret. exists []. rewrite app_nil_r. by split_and!; [|intros _|]. }
  set (rows := limit_offset _ _ _). assert (Hrows : ∀ row, row ∈ rows → row ∈ t_webhook_deliveries d ∧ due now row).
  { intros row Hrow%elem_of_limit_offset. rewrite elem_of_SliceStable, list_elem_of_filter in Hrow. by destruct Hrow. }
  apply deliver_all_inv; [done| |done].
  assert (Hnd : NoDup (delivery_ID <$> t_webhook_deliveries d)) by apply Hinv.
  unfold rows, limit_offset. rewrite fmap_take, fmap_drop. eapply sublist_NoDup; [|etrans; [apply sublist_take|apply sublist_drop]].
  rewrite SliceStable_perm. eapply sublist_NoDup; [exact Hnd|]. apply fmap_sublist, sublist_filter.
Qed.

(** Events and requests leave the deliveries that exist alone. *)
Lemma inv_frame log d d' : deliveries_inv log d → t_webhook_deliveries d' = t_webhook_deliveries d → deliveries_inv log d'.
Proof. unfold deliveries_inv, webhook_deliveries_ok. by intros Hd ->. Qed.

Lemma inv_Create log hook event fresh now :
  keeps (deliveries_inv log) (CreateWebhookDelivery (new_delivery hook event fresh now)).
Proof.
  intros d h Hd. unfold CreateWebhookDelivery. wp_go; try done.
  match goal with Hins : tbl_ok t_webhook_deliveries _ |- _ => pose proof Hins as Hok end.
  destruct Hd as (Hnd & Hrows & Hlog & Hp). split; [exact Hok|]. change (webhook_deliveries_ok d0) in Hok.
  unfold webhook_deliveries_ok in Hok. revert Hok. read_tables. rewrite NoDup_fmap_snoc. intros [_ Hnew]. cbn in Hnew. split_and!; [| |done].
  - intros row [Hrow|Hrow]%elem_of_app; [by apply Hrows|]. apply list_elem_of_singleton in Hrow as ->.
    assert (Hnone : attempts_of fresh log = []).
    { destruct (attempts_of fresh log) as [|e l] eqn:He; [done|]. destruct Hnew.
      assert (Hin : e ∈ attempts_of fresh log) by (rewrite He; left). apply list_elem_of_filter in Hin as [[<- _] Hin]. by apply Hlog. }
    unfold delivery_ok. cbn. rewrite Hnone. cbn. split_and!; [done..|].
    intros _. split; [done|]. by intros ? [=].
  - intros e He. rewrite fmap_app. apply elem_of_app. left. by apply Hlog.
Qed.
Lemma inv_serve log r : keeps (deliveries_inv log) (serve_hook r).
Proof.
  assert (Haudit : ∀ event st, keeps (deliveries_inv log) (Audit_Record event st)).
  { intros. apply keeps_audit. intros d d' (t1 & t2 & ->) Hd. by eapply inv_frame. }
  assert (Hwrites : (∀ v, keeps (deliveries_inv log) (CreateWebhook v)) ∧ (∀ v, keeps (deliveries_inv log) (UpdateWebhook v))
                    ∧ ∀ id, keeps (deliveries_inv log) (DeleteWebhook id)).
  { unfold CreateWebhook, UpdateWebhook, DeleteWebhook.
    split_and!; intros ? d h Hd; wp_go; first [assumption|eapply inv_frame; [eassumption|by read_tables]]. }
  destruct Hwrites as (Hc & Hu & Hdel).
  destruct r; cbn [serve_hook]; unfold enqueue, createWebhook, updateWebhook, deleteWebhook, record, ListWebhooks, FindWebhookByID;
    keep; auto using inv_Create.
Qed.

Lemma history_inv log w : hook_history log w → deliveries_inv log (w_db w).
Proof.
  induction 1 as [w Hw|log w s now x fs sent w' _ IH Hrun|log w r fs _ IH].
  - unfold deliveries_inv, webhook_deliveries_ok. rewrite Hw.
    split_and!; [constructor|set_solver|set_solver|by intros [] ? ?].
  - pose proof (wp_run (F:=true) _ _ (mkWorld (w_db w) fs (w_hub w)) I (deliverDue_inv true s now x log _ (w_hub w) IH)) as Hp.
    cbn [w_db w_hub] in Hp. change (mkWorld (w_db w) fs (w_hub w)) with (w <| w_faults := fs |>) in Hp.
    rewrite Hrun in Hp. by destruct Hp as (? & [= <-] & _ & Hp).
  - apply (keeps_run _ _ (w <| w_faults := fs |>)); [apply inv_serve|done].
Qed.
End History.

(** C20: a delivery has at most six attempts, in every history of events,
    requests of administrators and ticks in which any statement of the database
    may fail.  An attempt is a request after which the row of the delivery was
    updated; in a tick without failures every request is one.  There are at most
    six attempts of one delivery; every request, counted or not, is sent before
    the sixth attempt, after the last attempt failed and only 2^n seconds
    after its answer, when it was the n-th (to the millisecond the column keeps);
    the stored count is the number of attempts, and after six nothing is pending.
    (A request whose update failed is not counted and is sent again:
    [lost_update_sends_again].) *)
Theorem delivery_attempts_bounded `{Unicode} `{UrlParser} `{EventJson} log w :
  hook_history log w →
  (∀ id, Z.of_nat (length (attempts_of id log)) ≤ 6)
  ∧ in_pace log
  ∧ (∀ row, row ∈ t_webhook_deliveries (w_db w) →
       delivery_Attempts row = Z.of_nat (length (attempts_of (delivery_ID row) log))
       ∧ (delivery_Status row = "pending" → delivery_Attempts row < 6))
  ∧ ∀ s now x sent w', deliverDue s now x (w <| w_faults := [] |>) = (Ok sent, w') →
      Forall (λ e, sent_stored e = true) sent.
Proof.
  intros Hinv%history_inv. pose proof Hinv as (_ & Hrows & Hlog & Hp). split_and!; [|done| |].
  - intros id. by apply in_pace_bounded.
  - intros row Hr. destruct (Hrows row Hr) as (Hn & _ & Hpend). split; [done|]. intros Hst. rewrite Hn. by apply Hpend.
  - intros s now x sent w' Hrun.
    pose proof (wp_run (F:=false) _ _ (mkWorld (w_db w) [] (w_hub w)) eq_refl (deliverDue_inv false s now x log _ (w_hub w) Hinv)) as Hd.
    cbn [w_db w_hub] in Hd. change (mkWorld (w_db w) [] (w_hub w)) with (w <| w_faults := [] |>) in Hd.
    rewrite Hrun in Hd. destruct Hd as (? & [= <-] & Hst & _). by apply Hst.
Qed.

(** ** A delivery that is tried twice *)

#[local] Instance ex_urls : UrlParser := {| url_Parse _ := Some (mkParsedURL "https" "hooks.example" false) |}.
#[local] Instance ex_event_json : EventJson := {| event_json e := event_Type e |}.
Definition ex_hooks : WebhookService := mkWebhookService (replicate 32 (ascii_of 7)) false.
Definition ex_public (host : string) : res (list IP) := Ok [[93; 184; 216; 34]].
Definition ex_hook_world : world :=
  mkWorld (empty_db <| t_webhooks := [mkWebhook "h1" "siem" "https://hooks.example/in" ["DEVICE_UPDATED"] true 0 0] |>) [] (NewHub "src").
Definition ex_hook_event : Event := mkEvent "src" 1 DeviceUpdated 0 (PText "").
Definition ex_attempt (code at_ : Z) : nat → Attempt :=
  λ _, mkAttempt ex_public (at_ * second) (λ _, Answered code) (at_ * second).

Abbreviation ex_queued :=
  ((serve_hook (H:=ascii_unicode) (H0:=ex_urls) (H1:=ex_event_json)
      (HookEvent ex_hook_event (λ _, "d1") (λ _, 0)) (ex_hook_world <| w_faults := [] |>)).2) (only parsing).
Abbreviation ex_tick at_ code w :=
  (deliverDue (H:=ascii_unicode) (H0:=ex_urls) ex_hooks (at_ * second) (ex_attempt code at_) (w <| w_faults := [] |>)) (only parsing).
Abbreviation ex_sent m := (match m.1 with Ok l => l | Err _ => [] end) (only parsing).

#[local] Existing Instance ascii_unicode.

Lemma run_list {A} (m : M (list A)) w : is_ok (m w).1 = true → m w = (Ok (ex_sent (m w)), (m w).2).
Proof. by destruct (m w) as [[l|e] w']. Qed.

(** Two attempts: the receiver is unavailable, then answers. *)
Abbreviation ex_tick1 := (ex_tick 1 503 ex_queued) (only parsing).
Abbreviation ex_tick2 := (ex_tick 2 200 ex_tick1.2) (only parsing).
Abbreviation ex_tick3 := (ex_tick 3 200 ex_tick2.2) (only parsing).

Lemma ex_tick1_run : ex_tick1 = (Ok (ex_sent ex_tick1), ex_tick1.2).
Proof. apply run_list. vm_compute. reflexivity. Qed.
Lemma ex_tick2_run : ex_tick2 = (Ok (ex_sent ex_tick2), ex_tick2.2).
Proof. apply run_list. vm_compute. reflexivity. Qed.
Lemma ex_tick3_run : ex_tick3 = (Ok (ex_sent ex_tick3), ex_tick3.2).
Proof. apply run_list. vm_compute. reflexivity. Qed.

Lemma ex_hook_history :
  hook_history ((([] ++ ((λ e, (1 * second, e)) <$> ex_sent ex_tick1)) ++ ((λ e, (2 * second, e)) <$> ex_sent ex_tick2))
                ++ ((λ e, (3 * second, e)) <$> ex_sent ex_tick3)) ex_tick3.2.
Proof.
  eapply (hooks_tick _ _ ex_hooks (3 * second) (ex_attempt 200 3)); [|exact ex_tick3_run].
  eapply (hooks_tick _ _ ex_hooks (2 * second) (ex_attempt 200 2)); [|exact ex_tick2_run].
  eapply (hooks_tick _ _ ex_hooks (1 * second) (ex_attempt 503 1)); [|exact ex_tick1_run].
  apply (hooks_serve [] ex_hook_world (HookEvent ex_hook_event (λ _, "d1") (λ _, 0)) []), hooks_start. reflexivity.
Qed.

Lemma delivery_attempts_bounded_witness :
  ex_sent ex_tick2 = [] ∧ sent_ok <$> ex_sent ex_tick3 = [true]
  ∧ (λ row, (delivery_Status row, delivery_Attempts row)) <$> t_webhook_deliveries (w_db ex_tick3.2) = [("delivered", 2)]
  ∧ ∀ row, row ∈ t_webhook_deliveries (w_db ex_tick3.2) → delivery_Status row = "pending" → delivery_Attempts row < 6.
Proof.
  split; [vm_compute; reflexivity|]. split; [vm_compute; reflexivity|]. split; [vm_compute; reflexivity|].
  intros row Hrow. exact (proj2 (proj1 (proj2 (proj2 (delivery_attempts_bounded _ _ ex_hook_history))) row Hrow)).
Defined.

(** ** Things a reader of the documentation would not expect *)

(** a request whose update fails is sent again, without backoff and without
    bound: [deliver] only logs the error of [UpdateWebhookDelivery], so the row stays
    due with the count it had, and every tick sends the delivery anew, although
    docs/webhooks.md says at most six attempts with exponential backoff. *)
Theorem lost_update_sends_again n :
  ∃ log w, hook_history (H:=ascii_unicode) (H0:=ex_urls) (H1:=ex_event_json) log w
    ∧ length log = n ∧ Forall (λ e, e.1 = second ∧ sent_delivery e.2 = "d1" ∧ sent_stored e.2 = false) log
    ∧ (λ row, (delivery_Status row, delivery_Attempts row)) <$> t_webhook_deliveries (w_db w) = [("pending", 0)].
Proof.
  enough (∃ log w, hook_history (H:=ascii_unicode) (H0:=ex_urls) (H1:=ex_event_json) log w
    ∧ length log = n ∧ Forall (λ e, e.1 = second ∧ sent_delivery e.2 = "d1" ∧ sent_stored e.2 = false) log
    ∧ w_db w = w_db ex_queued ∧ w_hub w = w_hub ex_queued) as (log & w & Hh & Hl & Hf & Hd & _).
  { exists log, w. split_and!; [done..|]. rewrite Hd. vm_compute. reflexivity. }
  induction n as [|n (log & w & Hh & Hl & Hf & Hd & Hhub)].
  - exists [], ex_queued. split_and!; [|done..|vm_compute; reflexivity|vm_compute; reflexivity].
    apply (hooks_serve [] ex_hook_world (HookEvent ex_hook_event (λ _, "d1") (λ _, 0)) []), hooks_start. reflexivity.
  - pose (run := deliverDue (H:=ascii_unicode) (H0:=ex_urls) ex_hooks second (ex_attempt 503 1)
                   (mkWorld (w_db ex_queued) [false; false; true] (w_hub ex_queued))).
    exists (log ++ ((λ e, (second, e)) <$> ex_sent run)), run.2. split_and!.
    + eapply (hooks_tick log w ex_hooks second (ex_attempt 503 1) [false; false; true]); [exact Hh|].
      change (w <| w_faults := [false; false; true] |>) with (mkWorld (w_db w) [false; false; true] (w_hub w)).
      rewrite Hd, Hhub. apply run_list. vm_compute. reflexivity.
    + rewrite length_app, length_fmap, Hl.
      assert (length (ex_sent run) = 1%nat) as -> by (vm_compute; reflexivity). lia.
    + apply Forall_app. split; [exact Hf|]. apply (bool_decide_eq_true_1 (Forall _ _)). vm_compute. reflexivity.
    + vm_compute. reflexivity.
    + vm_compute. reflexivity.
Qed.

(** a resolver that fails once ends a delivery for good: docs/webhooks.md says
    that network failures are retried up to six times, but [deliver] validates
    the URL first, and a name that cannot be resolved at that moment makes the
    delivery failed without an attempt. *)
Theorem unresolved_host_is_not_retried :
  let w := (deliverDue (H:=ascii_unicode) (H0:=ex_urls) ex_hooks second
              (λ _, mkAttempt (λ _, Err (ErrText "temporary failure in name resolution")) second (λ _, Answered 200) second)
              ex_queued).2 in
  (λ row, (delivery_Status row, delivery_Attempts row)) <$> t_webhook_deliveries (w_db w) = [("failed", 0)]
  ∧ ex_sent (ex_tick 60 200 w) = [].
Proof. vm_compute. split; reflexivity. Qed.

(** a failed read of the webhook cancels a delivery for good: [deliver] treats
    every error of [FindWebhookByID] as a webhook that was removed. *)
Theorem failed_read_cancels_delivery :
  let w := (deliverDue (H:=ascii_unicode) (H0:=ex_urls) ex_hooks second (ex_attempt 200 1)
              (ex_queued <| w_faults := [false; true] |>)).2 in
  (λ row, (delivery_Status row, delivery_LastError row)) <$> t_webhook_deliveries (w_db w)
    = [("cancelled", "webhook disabled or removed")]
  ∧ length (t_webhooks (w_db w)) = 1%nat.
Proof. vm_compute. split; reflexivity. Qed.

(** the action webhook of an automation rule publishes AUTOMATION_TRIGGERED, an
    event type that no webhook can be subscribed to by name. *)
Theorem automation_event_not_subscribable `{Unicode} input input' :
  normalizeWebhook input = Some input' → AutomationTriggered ∉ whr_Events input'.
Proof.
  unfold normalizeWebhook. destruct (_ || _); [done|]. destruct (normalize_events _ _) as [l|] eqn:Hl; [|done].
  intros [= <-]. cbn. rewrite elem_of_SliceStable.
  assert (Hsub : ∀ events seen l, normalize_events seen events = Some l →
    seen ⊆ webhookEventTypes → l ⊆ webhookEventTypes).
  { induction events as [|e events IH]; intros seen l0; cbn; [by intros [= ->]|].
    destruct (negb _) eqn:He; [done|]. simplify_bool. intros Hn Hseen. eapply IH; [exact Hn|].
    case_bool_decide; [done|]. intros x [Hx|Hx]%elem_of_app; [by apply Hseen|]. by apply list_elem_of_singleton in Hx as ->. }
  intros Hin. apply (Hsub _ _ _ Hl) in Hin; [|set_solver]. revert Hin. apply (bool_decide_eq_false_1 (_ ∈ _)). reflexivity.
Qed.
