(* ===== verification/Config.v ===== *)
(** * The configuration of a process (art-api/internal/config/config.go)

    The environment is the function [getenv]; [json.Unmarshal] of the group
    mapping and [url.Parse] are parameters.  [config.env] looks for the name
    with the prefix RDS_ before the one with ART_; [envValue] and [envBool] of
    httpapi/server.go do not. *)

From S2P Require Export Duration Managed Http Lockout.

(** ** [path/filepath] *)

Definition slash : Ascii.ascii := ascii_of 47.

(** [filepath.Clean], on the elements between slashes: [stack] are the elements
    kept, last first. *)
Definition clean_element (rooted : bool) (stack : list bytes) (element : bytes) : list bytes :=
  if bool_decide (element = []) || bool_decide (element = bytes_of ".") then stack
  else if bool_decide (element = bytes_of "..") then
    match stack with
    | top :: rest => if bool_decide (top = bytes_of "..") then element :: stack else rest
    | [] => if rooted then [] else [element]
    end
  else element :: stack.

Fixpoint join_with (sep : Ascii.ascii) (l : list bytes) : bytes :=
  match l with [] => [] | [x] => x | x :: rest => x ++ sep :: join_with sep rest end.

Definition Clean (path : string) : string :=
  if bool_decide (path = "") then "." else
  let rooted := HasPrefix path "/" in
  let elements := rev (foldl (clean_element rooted) [] (Split slash (bytes_of path))) in
  if rooted then of_bytes (slash :: join_with slash elements)
  else match elements with [] => "." | _ => of_bytes (join_with slash elements) end.

(** [filepath.Join]: empty elements are left out. *)
Definition Join (elements : list string) : string :=
  match filter (λ e, e ≠ "") elements with
  | [] => ""
  | kept => Clean (of_bytes (join_with slash (bytes_of <$> kept)))
  end.

(** ** config.go *)

(** [json.Unmarshal] of text into a [map[string]string], in the order a range
    over it visits, [None] for an error. *)
Class StringMap := { string_map : string → option (list (string * string)) }.

Record Config := mkConfig {
  cfg_ListenAddress : string; cfg_DataDir : string; cfg_DatabaseDriver : string; cfg_DatabaseDSN : string;
  cfg_JWTSecretFile : string; cfg_InternalSecretFile : string; cfg_BuilderTokenFile : string;
  cfg_MetricsTokenFile : string; cfg_MFASecretFile : string; cfg_NodeIDFile : string;
  cfg_NodeID : string; cfg_AdvertiseAddress : string; cfg_Version : string; cfg_MFAMode : string;
  cfg_BootstrapSecretFile : string; cfg_BootstrapUsername : string; cfg_BootstrapPassword : string;
  cfg_AccessTokenTTL : duration; cfg_SessionTTL : duration; cfg_Issuer : string; cfg_Audience : string;
  cfg_LoginBurst : Z; cfg_LoginWindow : duration; cfg_LoginLockout : duration;
  cfg_OIDCIssuer : string; cfg_OIDCClientID : string; cfg_OIDCClientSecret : string; cfg_OIDCRedirectURL : string;
  cfg_OIDCProviderName : string; cfg_OIDCScopes : string; cfg_OIDCAutoRegister : bool;
  cfg_RegistrationEnabled : bool; cfg_RegistrationAutoApprove : bool;
  cfg_RequireLogin : bool; cfg_RequireDeviceDeployment : bool;
  cfg_LDAPURL : string; cfg_LDAPBindDN : string; cfg_LDAPBindPassword : string; cfg_LDAPBaseDN : string;
  cfg_LDAPUserFilter : string; cfg_LDAPUsernameAttribute : string; cfg_LDAPEmailAttribute : string;
  cfg_LDAPDisplayNameAttribute : string; cfg_LDAPGroupAttribute : string;
  cfg_LDAPGroupMapping : list (string * string);
  cfg_LDAPStartTLS : bool; cfg_LDAPInsecureSkipVerify : bool; cfg_LDAPAutoProvision : bool;
  cfg_WebhookAllowPrivate : bool; cfg_TrustedProxies : list string;
  cfg_BackupInterval : duration; cfg_BackupRetention : Z
}.

Section Config.
Context `{Unicode} `{Url} `{StringMap}.
Implicit Types getenv : string → string.

Definition env getenv (key fallback : string) : string :=
  let renamed := if HasPrefix key "ART_" then getenv ("RDS_" +:+ TrimPrefix key "ART_") else "" in
  if negb (bool_decide (renamed = "")) then renamed
  else if negb (bool_decide (getenv key = "")) then getenv key
  else fallback.

(** [Value] *)
Definition Value getenv (legacyKey : string) : string := env getenv legacyKey "".

Definition envInt getenv (key : string) (fallback : Z) : Z :=
  match Atoi (env getenv key "") with Some value => if value <? 1 then fallback else value | None => fallback end.

Definition config_envBool getenv (key : string) (fallback : bool) : bool :=
  let value := env getenv key "" in
  if bool_decide (value = "") then fallback
  else match ParseBool value with Some parsed => parsed | None => fallback end.

(** The text of the error is dropped but for the name. *)
Definition envDuration getenv (key : string) (fallback : duration) : res duration :=
  let value := env getenv key "" in
  if bool_decide (value = "") then Ok fallback
  else match ParseDuration value with Some d => Ok d | None => Err (ErrText key) end.

Definition splitCSV (value : string) : list string :=
  filter (λ item, item ≠ "") ((λ item, TrimSpace (of_bytes item)) <$> Split (ascii_of 44) (bytes_of value)).

(** An absolute HTTPS URL. *)
Definition https_url (s : string) : bool :=
  match ParseURL s with
  | Some (scheme, host) => bool_decide (scheme = "https") && negb (bool_decide (host = ""))
  | None => false
  end.

(** None of the values, or all the required ones. *)
Definition all_or_none (values required : list string) : bool :=
  bool_decide (Forall (λ v, v = "") values) || bool_decide (Forall (λ v, v ≠ "") required).

Definition mfa_mode_valid (mode : string) : bool :=
  bool_decide (mode ∈ ["optional"; "required_for_admins"; "required_for_all_users"]).

(** The struct literal, the database name and the group mapping. *)
Definition load_fields getenv (version : string) (accessTTL sessionTTL loginWindow loginLockout backupInterval : duration)
    (mapping : list (string * string)) : Config :=
  let e := env getenv in let b := config_envBool getenv in
  let dataDir := e "ART_DATA_DIR" "/data" in
  let secret name := Join [dataDir; "secrets"; name] in
  let driver := e "ART_DB_DRIVER" "sqlite" in let dsn := e "ART_DB_DSN" "" in
  mkConfig (e "ART_API_LISTEN" ":21114") dataDir driver
    (if bool_decide (dsn = "") && bool_decide (driver = "sqlite") then Join [dataDir; "art.db"] else dsn)
    (e "ART_JWT_SECRET_FILE" (secret "jwt.secret")) (e "ART_INTERNAL_SECRET_FILE" (secret "internal.secret"))
    (e "ART_BUILDER_TOKEN_FILE" (secret "builder.token")) (e "ART_METRICS_TOKEN_FILE" (secret "metrics.token"))
    (e "ART_MFA_SECRET_FILE" (secret "mfa.secret")) (e "ART_NODE_ID_FILE" (secret "node.id"))
    (e "ART_NODE_ID" "") (e "ART_ADVERTISE_ADDRESS" "") (e "ART_VERSION" version) (e "ART_MFA_MODE" "optional")
    (e "ART_BOOTSTRAP_SECRET_FILE" (secret "bootstrap-admin.txt")) (e "ART_BOOTSTRAP_ADMIN_USERNAME" "admin")
    (e "ART_BOOTSTRAP_ADMIN_PASSWORD" "")
    accessTTL sessionTTL "art-rustdesk" "art-hbbs" (envInt getenv "ART_LOGIN_BURST" 5) loginWindow loginLockout
    (e "ART_OIDC_ISSUER" "") (e "ART_OIDC_CLIENT_ID" "") (e "ART_OIDC_CLIENT_SECRET" "") (e "ART_OIDC_REDIRECT_URL" "")
    (e "ART_OIDC_PROVIDER_NAME" "oidc") (e "ART_OIDC_SCOPES" "openid profile email") (b "ART_OIDC_AUTO_REGISTER" false)
    (b "ART_REGISTRATION_ENABLED" false) (b "ART_REGISTRATION_AUTO_APPROVE" false)
    (b "ART_REQUIRE_LOGIN" true) (b "ART_REQUIRE_DEVICE_DEPLOYMENT" false)
    (e "ART_LDAP_URL" "") (e "ART_LDAP_BIND_DN" "") (e "ART_LDAP_BIND_PASSWORD" "") (e "ART_LDAP_BASE_DN" "")
    (e "ART_LDAP_USER_FILTER" "(&(objectClass=person)(|(uid={username})(sAMAccountName={username})(userPrincipalName={username})))")
    (e "ART_LDAP_USERNAME_ATTRIBUTE" "uid") (e "ART_LDAP_EMAIL_ATTRIBUTE" "mail")
    (e "ART_LDAP_DISPLAY_NAME_ATTRIBUTE" "displayName") (e "ART_LDAP_GROUP_ATTRIBUTE" "memberOf") mapping
    (b "ART_LDAP_STARTTLS" true) (b "ART_LDAP_INSECURE_SKIP_VERIFY" false) (b "ART_LDAP_AUTO_PROVISION" false)
    (b "ART_WEBHOOK_ALLOW_PRIVATE" false) (splitCSV (e "ART_TRUSTED_PROXIES" ""))
    backupInterval (envInt getenv "ART_BACKUP_RETENTION" 14).

(** The checks of [Load] before the group mapping, in its order. *)
Definition check_config (cfg : Config) : res unit :=
  if cfg_BackupInterval cfg <? hour then Err (ErrText "ART_BACKUP_INTERVAL must be at least 1h")
  else if (cfg_BackupRetention cfg <? 1) || (365 <? cfg_BackupRetention cfg)
  then Err (ErrText "ART_BACKUP_RETENTION must be between 1 and 365")
  else if negb (bool_decide (cfg_DatabaseDriver cfg = "sqlite")) && negb (bool_decide (cfg_DatabaseDriver cfg = "postgres"))
  then Err (ErrText "ART_DB_DRIVER must be sqlite or postgres")
  else if negb (mfa_mode_valid (cfg_MFAMode cfg)) then Err (ErrText "ART_MFA_MODE is invalid")
  else if bool_decide (cfg_DatabaseDSN cfg = "") then Err (ErrText "ART_DB_DSN is required")
  else
    let oidc := [cfg_OIDCIssuer cfg; cfg_OIDCClientID cfg; cfg_OIDCClientSecret cfg; cfg_OIDCRedirectURL cfg] in
    let configuredOIDC := negb (bool_decide (Forall (λ v, v = "") oidc)) in
    if negb (all_or_none oidc [cfg_OIDCIssuer cfg; cfg_OIDCClientID cfg; cfg_OIDCRedirectURL cfg])
    then Err (ErrText "ART_OIDC_ISSUER, ART_OIDC_CLIENT_ID and ART_OIDC_REDIRECT_URL must be configured together")
    else if configuredOIDC && negb (https_url (cfg_OIDCIssuer cfg))
    then Err (ErrText "ART_OIDC_ISSUER must be an absolute HTTPS URL")
    else if configuredOIDC && negb (https_url (cfg_OIDCRedirectURL cfg))
    then Err (ErrText "ART_OIDC_REDIRECT_URL must be an absolute HTTPS URL")
    else
      let ldap := [cfg_LDAPURL cfg; cfg_LDAPBindDN cfg; cfg_LDAPBindPassword cfg; cfg_LDAPBaseDN cfg] in
      if negb (all_or_none ldap ldap)
      then Err (ErrText "ART_LDAP_URL, ART_LDAP_BIND_DN, ART_LDAP_BIND_PASSWORD and ART_LDAP_BASE_DN must be configured together")
      else Ok tt.

Definition load_mapping getenv : res (list (string * string)) :=
  let mapping := env getenv "ART_LDAP_GROUP_MAPPING" "" in
  if bool_decide (mapping = "") then Ok [] else
  match string_map mapping with
  | None => Err (ErrText "ART_LDAP_GROUP_MAPPING must be a JSON object")
  | Some l => if existsb (λ kv : string * string, bool_decide (kv.1 = "") || bool_decide (kv.2 = "")) l
              then Err (ErrText "ART_LDAP_GROUP_MAPPING keys and values must not be empty") else Ok l
  end.

(** [Load]; [version] is [BuildVersion]. *)
Definition Load getenv (version : string) : res Config :=
  res_bind (envDuration getenv "ART_ACCESS_TOKEN_TTL" (7 * 24 * hour)) (λ accessTTL,
  res_bind (envDuration getenv "ART_SESSION_TTL" (7 * 24 * hour)) (λ sessionTTL,
  res_bind (envDuration getenv "ART_LOGIN_WINDOW" (5 * minute)) (λ loginWindow,
  res_bind (envDuration getenv "ART_LOGIN_LOCKOUT" (15 * minute)) (λ loginLockout,
  res_bind (envDuration getenv "ART_BACKUP_INTERVAL" (24 * hour)) (λ backupInterval,
  let cfg := load_fields getenv version accessTTL sessionTTL loginWindow loginLockout backupInterval in
  res_bind (check_config (cfg [])) (λ _, res_map cfg (load_mapping getenv))))))).

(** ** The environment in httpapi (server.go) *)

Definition envValue getenv (key fallback : string) : string :=
  if negb (bool_decide (getenv key = "")) then getenv key else fallback.

Definition envBool getenv (key : string) (fallback : bool) : bool :=
  let value := ToLower (TrimSpace (getenv key)) in
  if bool_decide (value = "") then fallback
  else negb (bool_decide (value ∈ ["0"; "false"; "off"])).

(** *** The account lockout (account_lockout.go) *)

(** [n, _ := strconv.Atoi(s)]: zero for text that is no number, the nearest
    integer for one out of range. *)
Definition Atoi_value (s : string) : Z :=
  match Atoi s with
  | Some n => n
  | None =>
      let '(negative, l) := match bytes_of s with
                            | c :: rest => if byte c =? 45 then (true, rest) else if byte c =? 43 then (false, rest)
                                           else (false, c :: rest)
                            | [] => (false, [])
                            end in
      match decimal l with Some _ => if (negative : bool) then min_int64 else max_int64 | None => 0 end
  end.

(** What [accountLoginFailure] reads; a duration that does not parse is zero. *)
Definition lockout_environment getenv : lockout_settings :=
  mkLockoutSettings (Atoi_value (envValue getenv "ART_LOGIN_BURST" "5"))
    (default 0 (ParseDuration (envValue getenv "ART_LOGIN_WINDOW" "5m")))
    (default 0 (ParseDuration (envValue getenv "ART_LOGIN_LOCKOUT" "15m"))).
End Config.

(** ** The two name spaces *)

Section Names.
Context `{Unicode} `{Url} `{StringMap}.
Implicit Types getenv : string → string.

(** The environment with every variable ART_x renamed RDS_x. *)
Definition renamed getenv (name : string) : string :=
  if HasPrefix name "RDS_" then getenv ("ART_" +:+ TrimPrefix name "RDS_")
  else if HasPrefix name "ART_" then "" else getenv name.

Definition no_new_names getenv : Prop := ∀ x, getenv ("RDS_" +:+ x) = "".

Lemma env_renamed getenv x fallback :
  no_new_names getenv → env (renamed getenv) ("ART_" +:+ x) fallback = env getenv ("ART_" +:+ x) fallback.
Proof.
  intros Hnew. unfold env. rewrite TrimPrefix_app, Hnew.
  assert (Hart : HasPrefix ("ART_" +:+ x) "ART_" = true) by (cbn; by destruct x). rewrite Hart.
  assert (Hr : renamed getenv ("RDS_" +:+ x) = getenv ("ART_" +:+ x)).
  { unfold renamed. rewrite TrimPrefix_app. assert (HasPrefix ("RDS_" +:+ x) "RDS_" = true) as -> by (cbn; by destruct x). done. }
  assert (Ha : renamed getenv ("ART_" +:+ x) = "").
  { unfold renamed. rewrite Hart. assert (HasPrefix ("ART_" +:+ x) "RDS_" = false) as -> by done. done. }
  rewrite Hr, Ha. rewrite (bool_decide_eq_true_2 ("" = "")) by done. cbn [negb]. by case_bool_decide.
Qed.

Lemma envInt_renamed getenv x fallback :
  no_new_names getenv → envInt (renamed getenv) ("ART_" +:+ x) fallback = envInt getenv ("ART_" +:+ x) fallback.
Proof. intros. unfold envInt. by rewrite env_renamed. Qed.

Lemma config_envBool_renamed getenv x fallback :
  no_new_names getenv →
  config_envBool (renamed getenv) ("ART_" +:+ x) fallback = config_envBool getenv ("ART_" +:+ x) fallback.
Proof. intros. unfold config_envBool. by rewrite env_renamed. Qed.

Lemma envDuration_renamed getenv x fallback :
  no_new_names getenv →
  envDuration (renamed getenv) ("ART_" +:+ x) fallback = envDuration getenv ("ART_" +:+ x) fallback.
Proof. intros. unfold envDuration. by rewrite env_renamed. Qed.

(** The names in the goal that begin with ART_, one by one. *)
Ltac rename_variables Hnew :=
  repeat match goal with
  | |- context [?g (renamed ?e) (String ?a (String ?b (String ?c (String ?d ?x)))) ?f] =>
      let E := fresh in
      assert (g (renamed e) (String a (String b (String c (String d x)))) f
              = g e (String a (String b (String c (String d x)))) f) as E
        by first [exact (env_renamed e x f Hnew)|exact (envInt_renamed e x f Hnew)
                 |exact (config_envBool_renamed e x f Hnew)|exact (envDuration_renamed e x f Hnew)];
      rewrite E; clear E
  end.

Lemma load_fields_renamed getenv version a b c d e mapping :
  no_new_names getenv →
  load_fields (renamed getenv) version a b c d e mapping = load_fields getenv version a b c d e mapping.
Proof. intros Hnew. unfold load_fields. cbv zeta. rename_variables Hnew. reflexivity. Qed.

(** renaming every ART_ variable to its RDS_ name does not change the
    configuration a process loads. *)
Theorem Load_renamed getenv version : no_new_names getenv → Load (renamed getenv) version = Load getenv version.
Proof.
  intros Hnew. unfold Load, load_mapping. rename_variables Hnew.
  do 5 (match goal with |- res_bind ?r _ = _ => destruct r; [|reflexivity]; cbn [res_bind] end).
  cbv zeta. rewrite load_fields_renamed by done. destruct (check_config _); [|reflexivity]. cbn [res_bind].
  match goal with |- res_map _ ?r = _ => destruct r; [|reflexivity]; cbn [res_map] end.
  by rewrite load_fields_renamed.
Qed.
End Names.

(** ** What a loaded configuration satisfies *)

Section Valid.
Context `{Unicode} `{Url} `{StringMap}.

Definition config_ok (cfg : Config) : Prop :=
  hour ≤ cfg_BackupInterval cfg ∧ 1 ≤ cfg_BackupRetention cfg ≤ 365
  ∧ cfg_DatabaseDriver cfg ∈ ["sqlite"; "postgres"] ∧ cfg_DatabaseDSN cfg ≠ ""
  ∧ mfa_mode_valid (cfg_MFAMode cfg) = true ∧ 1 ≤ cfg_LoginBurst cfg
  ∧ (cfg_OIDCIssuer cfg ≠ "" → https_url (cfg_OIDCIssuer cfg) = true ∧ cfg_OIDCClientID cfg ≠ ""
                               ∧ https_url (cfg_OIDCRedirectURL cfg) = true)
  ∧ (cfg_OIDCIssuer cfg = "" → cfg_OIDCClientID cfg = "" ∧ cfg_OIDCClientSecret cfg = "" ∧ cfg_OIDCRedirectURL cfg = "")
  ∧ (cfg_LDAPURL cfg ≠ "" → cfg_LDAPBindDN cfg ≠ "" ∧ cfg_LDAPBindPassword cfg ≠ "" ∧ cfg_LDAPBaseDN cfg ≠ "")
  ∧ Forall (λ kv : string * string, kv.1 ≠ "" ∧ kv.2 ≠ "") (cfg_LDAPGroupMapping cfg)
  ∧ Forall (λ p, p ≠ "") (cfg_TrustedProxies cfg).

Lemma load_mapping_ok getenv l :
  load_mapping getenv = Ok l → Forall (λ kv : string * string, kv.1 ≠ "" ∧ kv.2 ≠ "") l.
Proof.
  unfold load_mapping. case_bool_decide; [by intros [= <-]|]. destruct (string_map _) as [m|]; [|done].
  destruct (existsb _ m) eqn:He; [done|]. intros [= <-]. apply Forall_forall. intros kv Hkv%list_elem_of_In.
  destruct (decide (kv.1 ≠ "" ∧ kv.2 ≠ "")) as [|Hbad]; [done|]. exfalso. apply not_true_iff_false in He. apply He.
  apply existsb_exists. exists kv. split; [done|]. rewrite orb_true_iff, !bool_decide_eq_true.
  destruct (decide (kv.1 = "")) as [|Hk]; [by left|]. right. destruct (decide (kv.2 = "")) as [|Hv]; [done|]. by destruct Hbad.
Qed.

Lemma Forall_three {A} (P : A → Prop) a b c : Forall P [a; b; c] ↔ P a ∧ P b ∧ P c.
Proof. rewrite !Forall_cons, Forall_nil. tauto. Qed.
Lemma Forall_four {A} (P : A → Prop) a b c d : Forall P [a; b; c; d] ↔ P a ∧ P b ∧ P c ∧ P d.
Proof. rewrite Forall_cons, Forall_three. tauto. Qed.

Lemma check_config_ok cfg :
  check_config cfg = Ok tt → 1 ≤ cfg_LoginBurst cfg →
  Forall (λ kv : string * string, kv.1 ≠ "" ∧ kv.2 ≠ "") (cfg_LDAPGroupMapping cfg) →
  Forall (λ p, p ≠ "") (cfg_TrustedProxies cfg) → config_ok cfg.
Proof.
  intros Hc Hb Hm Hp. unfold check_config in Hc. cbv zeta in Hc. unfold all_or_none in Hc.
  repeat (match type of Hc with context [if ?b then Err _ else _] => destruct b eqn:?; [discriminate Hc|] end).
  clear Hc. apply orb_false_iff in Heqb0 as [Hr1 Hr2]. apply andb_false_iff in Heqb1 as [Hd|Hd]; simplify_bool.
  all: rewrite !negb_false_iff, bool_decide_eq_true, Forall_four in Heqb5, Heqb6;
    rewrite !bool_decide_eq_true, Forall_four in Heqb4, Heqb7;
    destruct Heqb4 as [Ho|Ho%Forall_three], Heqb7 as [Hl|Hl%Forall_four]; unfold config_ok.
  all: split_and!; try done; try lia; try (rewrite Hd; set_solver); tauto.
Qed.

(** a process that starts has a consistent configuration: durations and
    counts within their bounds, a database with its name, and OIDC and LDAP
    either left out or configured as a whole, OIDC over HTTPS. *)
Theorem Load_valid getenv version cfg : Load getenv version = Ok cfg → config_ok cfg.
Proof.
  unfold Load. repeat (match goal with |- res_bind ?r _ = _ → _ => destruct r as [?|?] eqn:?; [|done]; cbn [res_bind] end).
  cbv zeta. destruct (check_config _) as [[]|] eqn:Hc; [|done]. cbn [res_bind].
  destruct (load_mapping getenv) as [l|] eqn:Hm; [|done]. intros [= <-].
  apply check_config_ok; [exact Hc| |by eapply load_mapping_ok|].
  - cbn [cfg_LoginBurst load_fields]. unfold envInt. destruct (Atoi _); [|lia]. destruct (Z.ltb_spec z 1); lia.
  - cbn [cfg_TrustedProxies load_fields]. unfold splitCSV. apply Forall_forall. by intros p [? _]%list_elem_of_filter.
Qed.
End Valid.

(** ** Witnesses *)

Section Examples.
Context `{Unicode} `{Url} `{StringMap}.

(** An installation set up as the documentation says: two failures lock a name. *)
Definition ex_environment (name : string) : string := if bool_decide (name = "RDS_LOGIN_BURST") then "2" else "".

(** The new name of a variable sets the limit of the in-memory limiter, but not
    the one of the account lockout, which reads the old name only; the old name
    sets both. *)
Theorem renamed_burst_ignored_by_lockout :
  (∃ cfg, Load ex_environment "1" = Ok cfg ∧ cfg_LoginBurst cfg = 2
     ∧ set_burst (lockout_defaults (lockout_environment ex_environment)) = 5)
  ∧ set_burst (lockout_defaults (lockout_environment (λ name, if bool_decide (name = "ART_LOGIN_BURST") then "2" else ""))) = 2.
Proof. split; [eexists; split_and!; vm_compute; reflexivity|vm_compute; reflexivity]. Qed.

End Examples.

Definition ex_url : Url := {| ParseURL _ := None |}.
Definition ex_string_map : StringMap := {| string_map _ := None |}.
Definition ex_old_environment (name : string) : string := if bool_decide (name = "ART_MFA_MODE") then "optional" else "".

Lemma Load_renamed_witness :
  no_new_names ex_old_environment
  ∧ is_ok (@Load ascii_unicode ex_url ex_string_map ex_old_environment "1") = true
  ∧ @Load ascii_unicode ex_url ex_string_map (renamed ex_old_environment) "1"
    = @Load ascii_unicode ex_url ex_string_map ex_old_environment "1".
Proof.
  assert (Hnew : no_new_names ex_old_environment).
  { intros x. unfold ex_old_environment. rewrite bool_decide_eq_false_2; [reflexivity|]. intros Heq. discriminate Heq. }
  split; [exact Hnew|]. split; [vm_compute; reflexivity|].
  exact (@Load_renamed ascii_unicode ex_url ex_string_map ex_old_environment "1" Hnew).
Defined.

Lemma Load_valid_witness :
  ∃ cfg, @Load ascii_unicode ex_url ex_string_map ex_environment "1" = Ok cfg ∧ @config_ok ex_url cfg.
Proof.
  eexists. split; [vm_compute; reflexivity|].
  apply (@Load_valid ascii_unicode ex_url ex_string_map ex_environment "1"). vm_compute. reflexivity.
Defined.
