(* ===== verification/Boot.v ===== *)
(** * The first start of a process (art-api/internal: secret/file.go, bootstrap/admin.go)

    Secrets and the first administrator.  Both work on files next to the
    database, so a machine is a disk and the [world] of the store.  An operation
    on the disk may fail: the disk carries a list of failures that the theorems
    quantify over, and a write that fails leaves what it had written by then.  A
    process that dies is one whose remaining operations all fail. *)

From S2P Require Export Config StoreUsers.
From S2P Require Import Password Encoding Auth Mfa Sample.

(** ** A disk *)

Record file := mkFile { file_Content : bytes; file_Mode : Z }.

Inductive io :=
| Done                            (* the operation is carried out *)
| Broken (written : nat).         (* it fails; a write leaves this many bytes *)

Record disk := mkDisk { disk_io : list io; disk_files : gmap string file }.
Record machine := mkMachine { machine_disk : disk; machine_world : world }.

Definition Boot (A : Type) : Type := machine → res A * machine.
#[export] Instance Boot_ret : MRet Boot := λ A a m, (Ok a, m).
#[export] Instance Boot_bind : MBind Boot := λ A B k x m,
  match x m with (Ok a, m') => k a m' | (Err e, m') => (Err e, m') end.

Definition fail {A} (e : error) : Boot A := λ m, (Err e, m).
(** An error the caller examines. *)
Definition attempt {A} (x : Boot A) : Boot (res A) := λ m, let '(r, m') := x m in (Ok r, m').
Definition pure {A} (r : res A) : Boot A := λ m, (r, m).
Definition store {A} (x : M A) : Boot A := λ m,
  let '(r, w) := x (machine_world m) in (r, mkMachine (machine_disk m) w).

(** [os.ErrNotExist] *)
Definition ErrNotExist : error := ErrText "file does not exist".

Definition disk_op {A} (run : gmap string file → res (A * gmap string file))
    (broken : nat → gmap string file → gmap string file) : Boot A := λ m,
  let d := machine_disk m in
  let next fs := mkMachine (mkDisk (tail (disk_io d)) fs) (machine_world m) in
  match disk_io d with
  | Broken n :: _ => (Err (ErrText "i/o"), next (broken n (disk_files d)))
  | _ => match run (disk_files d) with
         | Ok (a, fs) => (Ok a, next fs)
         | Err e => (Err e, next (disk_files d))
         end
  end.
Definition untouched (_ : nat) (fs : gmap string file) : gmap string file := fs.

Definition os_ReadFile (path : string) : Boot bytes :=
  disk_op (λ fs, match fs !! path with Some f => Ok (file_Content f, fs) | None => Err ErrNotExist end) untouched.
Definition os_Chmod (path : string) (mode : Z) : Boot unit :=
  disk_op (λ fs, match fs !! path with
                 | Some f => Ok (tt, <[path := mkFile (file_Content f) mode]> fs)
                 | None => Err ErrNotExist
                 end) untouched.
(** The directories are not represented. *)
Definition os_MkdirAll : Boot unit := disk_op (λ fs, Ok (tt, fs)) untouched.
(** The file is truncated first; a new one gets the mode. *)
Definition os_WriteFile (path : string) (content : bytes) (mode : Z) : Boot unit :=
  let written l fs := <[path := mkFile l (match fs !! path with Some f => file_Mode f | None => mode end)]> fs in
  disk_op (λ fs, Ok (tt, written content fs)) (λ n, written (take n content)).
Definition os_Rename (old new : string) : Boot unit :=
  disk_op (λ fs, match fs !! old with
                 | Some f => Ok (tt, <[new := f]> (delete old fs))
                 | None => Err ErrNotExist
                 end) untouched.
(** [os.OpenFile] with O_CREATE and O_EXCL. *)
Definition os_Create (path : string) (mode : Z) : Boot unit :=
  disk_op (λ fs, match fs !! path with
                 | Some _ => Err (ErrText "file exists")
                 | None => Ok (tt, <[path := mkFile [] mode]> fs)
                 end) untouched.
(** [fmt.Fprintf] to the file just created. *)
Definition os_Write (path : string) (content : bytes) : Boot unit :=
  let written l fs := match fs !! path with
                      | Some f => <[path := mkFile (file_Content f ++ l) (file_Mode f)]> fs
                      | None => fs
                      end in
  disk_op (λ fs, Ok (tt, written content fs)) (λ n, written (take n content)).
Definition os_Sync : Boot unit := disk_op (λ fs, Ok (tt, fs)) untouched.

Section Secret.
Context `{Unicode}.

(** ** secret/file.go *)

(** [random]: what [rand.Read] fills the 64 bytes with, [None] for an error. *)
Definition LoadOrCreate (path environmentValue : string) (random : option bytes) : Boot string :=
  if negb (bool_decide (environmentValue = "")) then mret environmentValue else
  data ← attempt (os_ReadFile path);
  match data with
  | Ok data =>
      os_Chmod path 384;;
      let value := TrimSpace (of_bytes data) in
      if len value <? 32 then fail (ErrText "secret is too short") else mret value
  | Err e =>
      if negb (bool_decide (e = ErrNotExist)) then fail e else
      os_MkdirAll;;
      match random with
      | None => fail (ErrText "generate secret")
      | Some raw =>
          let value := base64_encode url_alphabet raw in
          let temporary := path +:+ ".tmp" in
          os_WriteFile temporary (bytes_of (value +:+ of_bytes [ascii_of 10])) 384;;
          os_Chmod temporary 384;;
          os_Rename temporary path;;
          mret value
      end
  end.

(** ** bootstrap/admin.go *)

Definition passwordAlphabet : string := "ABCDEFGHJKLMNPQRSTUVWXYZabcdefghijkmnopqrstuvwxyz23456789!@#$%_-".

(** [draw i] is what [rand.Int] gives for the i-th byte, below the length of the
    alphabet. *)
Fixpoint password_bytes (length : nat) (index : nat) (draw : nat → option Z) : option bytes :=
  match length with
  | O => Some []
  | S length' =>
      match draw index with
      | None => None
      | Some v => match nth_error (bytes_of passwordAlphabet) (Z.to_nat v), password_bytes length' (S index) draw with
                  | Some a, Some l => Some (a :: l)
                  | _, _ => None
                  end
      end
  end.
Definition generatePassword (length : nat) (draw : nat → option Z) : res string :=
  match password_bytes length 0 draw with Some l => Ok (of_bytes l) | None => Err (ErrText "generate bootstrap password") end.

(** [strings.Cut] at the first separator. *)
Fixpoint Cut (sep : Ascii.ascii) (l : bytes) : option (bytes * bytes) :=
  match l with
  | [] => None
  | c :: rest => if decide (c = sep) then Some ([], rest)
                 else match Cut sep rest with Some (a, b) => Some (c :: a, b) | None => None end
  end.

Definition newline : Ascii.ascii := ascii_of 10.
Definition equals_sign : Ascii.ascii := ascii_of 61.

(** The map of the lines key=value; a later line replaces an earlier one. *)
Definition credential_values (data : bytes) : gmap string string :=
  foldl (λ values line,
      match Cut equals_sign (bytes_of (TrimSpace (of_bytes line))) with
      | Some (key, value) => <[of_bytes key := of_bytes value]> values
      | None => values
      end) ∅ (Split newline (bytes_of (TrimSpace (of_bytes data)))).

Definition readCredentialsPassword (path username : string) : Boot string :=
  data ← os_ReadFile path;
  let values := credential_values data in
  let password := default "" (values !! "password") in
  if negb (bool_decide (default "" (values !! "username") = username)) || (len password <? 1) || (1024 <? len password)
  then fail (ErrText "invalid bootstrap credentials file") else mret password.

Definition credentials_text (username password : string) : bytes :=
  bytes_of "username=" ++ bytes_of username ++ newline :: bytes_of "password=" ++ bytes_of password ++ [newline].

Definition persistCredentials (path username password : string) : Boot unit :=
  os_MkdirAll;;
  os_Create path 384;;
  os_Write path (credentials_text username password);;
  os_Chmod path 384;;
  os_Sync.
End Secret.

Section Admin.
Context `{Unicode} `{Argon2}.

(** [EnsureAdmin]; the reply is [Created] and whether a credentials file was
    written. *)
Definition EnsureAdmin (username configuredPassword credentialsFile : string)
    (draw : nat → option Z) (f : Entropy) (now : time) : Boot (bool * bool) :=
  count ← store CountUsers;
  if negb (count =? 0) then mret (false, false) else
  let username := TrimSpace (ToLower username) in
  if (len username <? 2) || (128 <? len username)
  then fail (ErrText "bootstrap username must contain 2 to 128 characters") else
  '(password, generated) ←
    (if negb (bool_decide (configuredPassword = "")) then mret (configuredPassword, false) else
     found ← attempt (readCredentialsPassword credentialsFile username);
     match found with
     | Ok password => mret (password, false)
     | Err e =>
         if negb (bool_decide (e = ErrNotExist)) then fail e else
         password ← pure (generatePassword 32 draw);
         mret (password, true)
     end);
  if (len password <? 1) || (1024 <? len password)
  then fail (ErrText "bootstrap password must contain between 1 and 1024 bytes") else
  (if (generated : bool) then persistCredentials credentialsFile username password else mret tt);;
  hash ← pure (HashPassword password (fresh_salt f) (numCPU f));
  store (CreateUser (new_user (fresh_user f) username "" hash "Administrator" RoleAdmin true "" 1 now));;
  mret (true, generated).
End Admin.

(** ** Reasoning about a machine *)

Section Machine.
Implicit Types (m : machine) (fs : gmap string file).

(** [Q] holds of what the operation gives and of the machine it leaves. *)
Definition boot {A} (x : Boot A) (Q : res A → machine → Prop) m : Prop := Q (x m).1 (x m).2.
#[global] Arguments boot : simpl never.

Lemma boot_mono {A} (x : Boot A) (P Q : res A → machine → Prop) m :
  boot x P m → (∀ r m', P r m' → Q r m') → boot x Q m.
Proof. intros Hx HPQ. apply HPQ, Hx. Qed.

Lemma boot_mret {A} (a : A) Q m : Q (Ok a) m → boot (mret a) Q m.
Proof. done. Qed.
Lemma boot_fail {A} e (Q : res A → machine → Prop) m : Q (Err e) m → boot (fail e) Q m.
Proof. done. Qed.
Lemma boot_pure {A} (r : res A) Q m : Q r m → boot (pure r) Q m.
Proof. done. Qed.

Lemma boot_bind {A B} (x : Boot A) (k : A → Boot B) Q m :
  boot x (λ r m', match r with Ok a => boot (k a) Q m' | Err e => Q (Err e) m' end) m → boot (x ≫= k) Q m.
Proof. unfold boot, mbind, Boot_bind. destruct (x m) as [[a|e] m']; done. Qed.

Lemma boot_attempt {A} (x : Boot A) Q m : boot x (λ r m', Q (Ok r) m') m → boot (attempt x) Q m.
Proof. unfold boot, attempt. by destruct (x m). Qed.

Lemma boot_disk_op {A} (run : gmap string file → res (A * gmap string file)) broken Q m :
  (∀ ios n, Q (Err (ErrText "i/o")) (mkMachine (mkDisk ios (broken n (disk_files (machine_disk m)))) (machine_world m))) →
  (∀ ios, match run (disk_files (machine_disk m)) with
          | Ok (a, fs') => Q (Ok a) (mkMachine (mkDisk ios fs') (machine_world m))
          | Err e => Q (Err e) (mkMachine (mkDisk ios (disk_files (machine_disk m))) (machine_world m))
          end) →
  boot (disk_op run broken) Q m.
Proof.
  intros Hbroken Hrun. unfold boot, disk_op. specialize (Hrun (tail (disk_io (machine_disk m)))).
  destruct (disk_io (machine_disk m)) as [|[|n] ios]; [|destruct (run _) as [[a fs']|e]; exact Hrun|apply Hbroken].
  destruct (run _) as [[a fs']|e]; exact Hrun.
Qed.

Lemma boot_store {A} (x : M A) (Q : res A → machine → Prop) m :
  wp true x (λ r d' h', ∀ w', w_db w' = d' → w_hub w' = h' → Q r (mkMachine (machine_disk m) w'))
    (w_db (machine_world m)) (w_hub (machine_world m)) →
  boot (store x) Q m.
Proof.
  intros Hx. unfold boot, store. pose proof (wp_run (F:=true) _ x (machine_world m) I Hx) as Hr. cbn in Hr.
  destruct (x (machine_world m)) as [r w']. by apply Hr.
Qed.
End Machine.

(** ** Secrets outlive the process *)

(** The state a machine has been brought to. *)
Ltac boot_simpl := cbn [machine_disk machine_world disk_files disk_io untouched negb fmap option_fmap option_map file_Content].

Section SecretTheorems.
Context `{Unicode}.

(** Starts of processes on one disk: what each draws, and which of its disk
    operations fail. *)
Definition start : Type := option bytes * list io.
Definition start_on (m : machine) (ios : list io) : machine := mkMachine (mkDisk ios (disk_files (machine_disk m))) (machine_world m).

(** What [LoadOrCreate] gives each of them. *)
Fixpoint secrets (path : string) (starts : list start) (m : machine) : list (res string) :=
  match starts with
  | [] => []
  | (random, ios) :: rest =>
      let '(r, m') := LoadOrCreate path "" random (start_on m ios) in r :: secrets path rest m'
  end.

Lemma url_secret_plain raw : forallb plain_byte (bytes_of (base64_encode url_alphabet raw)) = true.
Proof.
  unfold base64_encode. rewrite bytes_of_of_bytes, forallb_forall. intros a Ha%list_elem_of_In.
  apply list_elem_of_fmap in Ha as (g & -> & Hg). apply elem_of_groups in Hg; [|apply encode_groups_fit; lia].
  assert (Hall : forallb (λ g, plain_byte (to_char url_alphabet g)) (all_groups 6) = true) by (vm_compute; reflexivity).
  rewrite forallb_forall in Hall. apply (Hall g), list_elem_of_In, elem_of_all_groups, Hg.
Qed.

Lemma trim_edges l :
  (∀ c, head l = Some c → space_byte c = false) → (∀ c, last l = Some c → space_byte c = false) →
  trim_bytes (l ++ [newline]) = l.
Proof.
  intros Hh Hl. unfold trim_bytes. destruct l as [|c l]; [done|]. cbn [app drop_while]. rewrite (Hh c) by done.
  change (c :: l ++ [newline]) with ((c :: l) ++ [newline]). rewrite reverse_app.
  change (reverse [newline]) with [newline]. cbn [app drop_while]. change (space_byte newline) with true. cbv iota.
  destruct (reverse (c :: l)) as [|c' l'] eqn:Hr; [apply (f_equal reverse) in Hr; rewrite reverse_involutive in Hr; done|].
  cbn [drop_while]. rewrite (Hl c'); [by rewrite <-Hr, reverse_involutive|].
  by rewrite <-(reverse_involutive (c :: l)), Hr, reverse_cons, last_snoc.
Qed.

Lemma plain_space a : plain_byte a = true → space_byte a = false.
Proof. unfold plain_byte. by intros [_ ?%negb_true_iff]%andb_true_iff. Qed.
Lemma plain_ascii l : forallb plain_byte l = true → forallb (λ a, byte a <? 128) l = true.
Proof. rewrite !forallb_forall. intros Hs a Ha. specialize (Hs a Ha). unfold plain_byte in Hs. by apply andb_true_iff in Hs as [? ?]. Qed.
Lemma plain_head l c : forallb plain_byte l = true → head l = Some c → space_byte c = false.
Proof. destruct l; [done|]. cbn. intros [Hc _]%andb_true_iff [= ->]. by apply plain_space. Qed.
Lemma plain_last l c : forallb plain_byte l = true → last l = Some c → space_byte c = false.
Proof.
  intros Hl Hc. rewrite <-forallb_reverse in Hl. apply (plain_head _ c) in Hl; [done|].
  destruct l as [|x l _] using rev_ind; [done|]. rewrite last_snoc in Hc. injection Hc as ->. by rewrite reverse_app.
Qed.

Lemma TrimSpace_newline s : forallb plain_byte (bytes_of s) = true → TrimSpace (s +:+ of_bytes [ascii_of 10]) = s.
Proof.
  intros Hs. unfold TrimSpace, is_ascii. rewrite bytes_of_app, bytes_of_of_bytes, forallb_app, plain_ascii by done. cbn [andb].
  change (forallb _ [ascii_of 10]) with true. cbv iota. change [ascii_of 10] with [newline]. rewrite (trim_edges (bytes_of s)); [apply of_bytes_bytes_of|..].
  - intros c. by apply plain_head.
  - intros c. by apply plain_last.
Qed.

Definition secret_file (path : string) (m : machine) : option bytes := file_Content <$> disk_files (machine_disk m) !! path.

Lemma tmp_path path : path +:+ ".tmp" ≠ path.
Proof. intros Heq. apply (f_equal bytes_of) in Heq. rewrite bytes_of_app in Heq. apply (f_equal length) in Heq.
  rewrite length_app in Heq. cbn in Heq. lia. Qed.

(** One start: an existing secret stays, and is what a successful start uses; a
    new one is there when the start succeeds. *)
Lemma LoadOrCreate_spec path random m :
  boot (LoadOrCreate path "" random)
    (λ r m', match secret_file path m with
             | Some data => secret_file path m' = Some data ∧ (∀ s, r = Ok s → s = TrimSpace (of_bytes data))
             | None => ∀ s, r = Ok s → ∃ data, secret_file path m' = Some data ∧ TrimSpace (of_bytes data) = s
             end) m.
Proof.
  unfold LoadOrCreate, secret_file. rewrite (bool_decide_eq_true_2 ("" = "")) by done. cbn [negb].
  destruct m as [[ios fs] w]. cbn [machine_disk disk_files]. apply boot_bind, boot_attempt, boot_disk_op.
  - intros ios' n. boot_simpl. rewrite bool_decide_eq_false_2 by done. apply boot_fail. boot_simpl. by destruct (fs !! path).
  - intros ios'. boot_simpl. destruct (fs !! path) as [f|] eqn:Hf; cbn [fmap option_fmap option_map].
    + apply boot_bind, boot_disk_op; [intros; boot_simpl; by rewrite Hf|]. intros ios''. boot_simpl. rewrite Hf.
      case_match; [apply boot_fail|apply boot_mret]; boot_simpl; rewrite lookup_insert_eq; (split; [done|]); by intros s [= <-].
    + rewrite bool_decide_eq_true_2 by done. boot_simpl. apply boot_bind, boot_disk_op; [done|]. intros ios''. boot_simpl.
      destruct random as [raw|]; [|by apply boot_fail]. apply boot_bind, boot_disk_op; [done|]. intros io3. boot_simpl.
      apply boot_bind, boot_disk_op; [done|]. intros io4. boot_simpl. rewrite lookup_insert_eq.
      apply boot_bind, boot_disk_op; [done|]. intros io5. boot_simpl. rewrite lookup_insert_eq.
      apply boot_mret. intros s [= <-]. boot_simpl. rewrite lookup_insert_eq. eexists. split; [reflexivity|].
      cbn [file_Content]. rewrite of_bytes_bytes_of. apply TrimSpace_newline, url_secret_plain.
Qed.

Lemma secrets_settled path starts m data s :
  secret_file path m = Some data → Ok s ∈ secrets path starts m → s = TrimSpace (of_bytes data).
Proof.
  revert m. induction starts as [|[random ios] starts IH]; intros m Hdata; [by intros ?%not_elem_of_nil|]. cbn [secrets].
  pose proof (LoadOrCreate_spec path random (start_on m ios)) as Hs. unfold boot in Hs.
  change (secret_file path (start_on m ios)) with (secret_file path m) in Hs. rewrite Hdata in Hs.
  destruct (LoadOrCreate _ _ _ _) as [r m']. destruct Hs as [Hd Hs].
  intros [Heq|Hin]%elem_of_cons; [by apply Hs|by apply (IH m')].
Qed.

(** C27: a secret is created once: whatever starts fail and wherever they die,
    every process that starts on the disk uses the same secret. *)
Theorem secret_kept path starts m s1 s2 :
  Ok s1 ∈ secrets path starts m → Ok s2 ∈ secrets path starts m → s1 = s2.
Proof.
  revert m. induction starts as [|[random ios] starts IH]; intros m; [by intros ?%not_elem_of_nil|]. cbn [secrets].
  pose proof (LoadOrCreate_spec path random (start_on m ios)) as Hs. unfold boot in Hs.
  change (secret_file path (start_on m ios)) with (secret_file path m) in Hs.
  destruct (LoadOrCreate _ _ _ _) as [r m']. cbn [fst snd] in Hs.
  assert (Hfirst : ∀ s, r = Ok s → ∃ data, secret_file path m' = Some data ∧ s = TrimSpace (of_bytes data)).
  { intros s ->. destruct (secret_file path m) as [data|]; [destruct Hs as [Hd Hs]; exists data; split; [exact Hd|by apply Hs]|].
    destruct (Hs s eq_refl) as (data & ? & <-). by exists data. }
  intros [H1|H1]%elem_of_cons [H2|H2]%elem_of_cons.
  - congruence.
  - destruct (Hfirst s1 ltac:(done)) as (data & Hd & ->). symmetry. by eapply secrets_settled.
  - destruct (Hfirst s2 ltac:(done)) as (data & Hd & ->). by eapply secrets_settled.
  - by apply (IH m').
Qed.
End SecretTheorems.

(** ** The first administrator can log in *)

Section AdminTheorems.
Context `{Unicode} `{Argon2}.

Lemma Cut_app sep l1 l2 : sep ∉ l1 → Cut sep (l1 ++ sep :: l2) = Some (l1, l2).
Proof.
  induction l1 as [|c l1 IH]; intros Hs; cbn; [by rewrite decide_True|].
  rewrite decide_False by set_solver. by rewrite IH by set_solver.
Qed.

Lemma plain_newline l : forallb plain_byte l = true → newline ∉ l.
Proof. rewrite forallb_forall. intros Hl Hin%list_elem_of_In. by specialize (Hl _ Hin). Qed.

(** What is written is read back. *)
Lemma credentials_roundtrip username password :
  forallb plain_byte (bytes_of username) = true → forallb plain_byte (bytes_of password) = true →
  credential_values (credentials_text username password) = {["password" := password; "username" := username]}.
Proof.
  intros Hu Hp. unfold credential_values, credentials_text.
  set (line1 := bytes_of "username=" ++ bytes_of username). set (line2 := bytes_of "password=" ++ bytes_of password).
  assert (H1 : forallb plain_byte line1 = true) by (unfold line1; by rewrite forallb_app, Hu).
  assert (H2 : forallb plain_byte line2 = true) by (unfold line2; by rewrite forallb_app, Hp).
  assert (Htrim : bytes_of (TrimSpace (of_bytes (bytes_of "username=" ++ bytes_of username ++ newline :: bytes_of "password=" ++ bytes_of password ++ [newline])))
                  = line1 ++ newline :: line2).
  { assert (Heq : bytes_of "username=" ++ bytes_of username ++ newline :: bytes_of "password=" ++ bytes_of password ++ [newline]
                  = (line1 ++ newline :: line2) ++ [newline]).
    { unfold line1, line2. by rewrite <-!app_assoc, <-!app_comm_cons, <-!app_assoc. }
    rewrite Heq. unfold TrimSpace, is_ascii. rewrite bytes_of_of_bytes.
    assert (forallb (λ a, byte a <? 128) ((line1 ++ newline :: line2) ++ [newline]) = true) as ->.
    { rewrite !forallb_app. cbn [forallb]. rewrite !plain_ascii by done. reflexivity. }
    rewrite bytes_of_of_bytes. apply trim_edges.
    - intros c Hc. apply (plain_head line1); [done|]. exact Hc.
    - intros c. rewrite last_app, last_cons. destruct (last line2) as [c'|] eqn:Hl; [|by apply last_None in Hl].
      intros [= <-]. by apply (plain_last line2). }
  rewrite Htrim, Split_app, Split_none by (by apply plain_newline). cbn [foldl].
  rewrite !TrimSpace_plain by (by rewrite bytes_of_of_bytes). rewrite !bytes_of_of_bytes. unfold line1, line2.
  change (bytes_of "username=" ++ bytes_of username) with (bytes_of "username" ++ equals_sign :: bytes_of username).
  change (bytes_of "password=" ++ bytes_of password) with (bytes_of "password" ++ equals_sign :: bytes_of password).
  rewrite !Cut_app by (apply (bool_decide_eq_true_1 _); vm_compute; reflexivity).
  by rewrite !of_bytes_bytes_of.
Qed.

Lemma generated_plain n draw p : generatePassword n draw = Ok p → forallb plain_byte (bytes_of p) = true.
Proof.
  unfold generatePassword. destruct (password_bytes n 0 draw) as [l|] eqn:Hl; [|done]. intros [= <-]. rewrite bytes_of_of_bytes.
  revert l Hl. generalize 0%nat. induction n as [|n IH]; intros i l; cbn [password_bytes]; [by intros [= <-]|].
  destruct (draw i) as [v|]; [|done]. destruct (nth_error _ _) as [a|] eqn:Ha; [|done].
  destruct (password_bytes n (S i) draw) as [l'|] eqn:Hl; [|done]. intros [= <-]. cbn [forallb]. rewrite (IH _ _ Hl), andb_true_r.
  apply nth_error_In in Ha. assert (Hall : forallb plain_byte (bytes_of passwordAlphabet) = true) by (vm_compute; reflexivity).
  rewrite forallb_forall in Hall. by apply Hall.
Qed.
Lemma CreateUser_first user d h :
  t_users d = [] → user_ApprovalStatus user = "" →
  wp true (CreateUser user) (λ r d' _, r = Ok tt → t_users d' = [user_row user ApprovalApproved]) d h.
Proof.
  intros Hd Ha. unfold CreateUser. rewrite Ha. cbn [bool_decide]. wp_go; try done; intros _; read_tables; by rewrite Hd.
Qed.

(** The password of the account: the configured one, else the one in the
    credentials file. *)
Definition documented_password (configured path username : string) (m : machine) (password : string) : Prop :=
  if bool_decide (configured = "") then
    ∃ data, secret_file path m = Some data ∧ credential_values data !! "username" = Some username
            ∧ credential_values data !! "password" = Some password
  else password = configured.

Lemma boot_read_credentials path username m :
  2 ≤ len username →
  boot (readCredentialsPassword path username)
    (λ r m', disk_files (machine_disk m') = disk_files (machine_disk m) ∧ machine_world m' = machine_world m
             ∧ match r with
               | Ok password => documented_password "" path username m' password
               | Err e => e = ErrNotExist → secret_file path m' = None
               end) m.
Proof.
  intros Hu. unfold readCredentialsPassword. apply boot_bind, boot_disk_op; [done|]. intros ios.
  destruct (disk_files (machine_disk m) !! path) as [f|] eqn:Hf; boot_simpl.
  2: { split_and!; [done|done|]. intros _. unfold secret_file. boot_simpl. by rewrite Hf. }
  destruct (_ || _) eqn:Hb; [apply boot_fail; by split_and!|apply boot_mret]. split_and!; [done|done|]. simplify_bool.
  unfold documented_password. rewrite bool_decide_eq_true_2 by done. exists (file_Content f).
  unfold secret_file. boot_simpl. rewrite Hf. split; [done|].
  destruct (_ !! "username") as [x|]; cbn in *; [|subst username; by cbn in Hu].
  destruct (_ !! "password") as [y|]; cbn in *; [|by change (len "") with 0 in *]. split; congruence.
Qed.

Lemma boot_persist path username password m :
  forallb plain_byte (bytes_of username) = true → forallb plain_byte (bytes_of password) = true →
  boot (persistCredentials path username password)
    (λ r m', machine_world m' = machine_world m ∧ (r = Ok tt → documented_password "" path username m' password)) m.
Proof.
  intros Hu Hp. unfold persistCredentials. apply boot_bind, boot_disk_op; [done|]. intros ios. boot_simpl.
  apply boot_bind, boot_disk_op; [done|]. intros ios2. boot_simpl. destruct (_ !! path) as [f|]; [done|].
  apply boot_bind, boot_disk_op; [done|]. intros ios3. boot_simpl. rewrite lookup_insert_eq.
  apply boot_bind, boot_disk_op; [done|]. intros ios4. boot_simpl. rewrite lookup_insert_eq.
  apply boot_disk_op; [done|]. intros ios5. split; [done|]. intros _. unfold documented_password.
  rewrite bool_decide_eq_true_2 by done. exists (credentials_text username password).
  unfold secret_file. boot_simpl. rewrite lookup_insert_eq, credentials_roundtrip by done.
  split_and!; [done| |]; by simplify_map_eq.
Qed.
(** The account that [EnsureAdmin] creates. *)
Definition administrator (username hash : string) (f : Entropy) (now : time) : User :=
  user_row (new_user (fresh_user f) username "" hash "Administrator" RoleAdmin true "" 1 now) ApprovalApproved.

(** The last steps, once the password is known and documented. *)
Lemma boot_create configured path username password f now (generated : bool) m :
  t_users (w_db (machine_world m)) = [] → documented_password configured path username m password →
  boot (hash ← pure (HashPassword password (fresh_salt f) (numCPU f));
        store (CreateUser (new_user (fresh_user f) username "" hash "Administrator" RoleAdmin true "" 1 now));;
        mret (true, generated))
    (λ r m', ∀ g, r = Ok (true, g) → ∃ password hash,
       documented_password configured path username m' password
       ∧ HashPassword password (fresh_salt f) (numCPU f) = Ok hash
       ∧ t_users (w_db (machine_world m')) = [administrator username hash f now]) m.
Proof.
  intros Hd Hp. apply boot_bind, boot_pure. destruct (HashPassword _ _ _) as [hash|e] eqn:Hh; [|done].
  apply boot_bind, boot_store. eapply wp_mono; [by apply CreateUser_first|].
  intros [[]|e] d' h' Hu w' <- <-; [|done]. apply boot_mret. intros g [= <-]. exists password, hash.
  split_and!; [exact Hp|done|by apply Hu].
Qed.

Lemma EnsureAdmin_spec username configured path draw f now m :
  forallb plain_byte (bytes_of (TrimSpace (ToLower username))) = true →
  boot (EnsureAdmin username configured path draw f now)
    (λ r m', ∀ g, r = Ok (true, g) → ∃ password hash,
       documented_password configured path (TrimSpace (ToLower username)) m' password
       ∧ HashPassword password (fresh_salt f) (numCPU f) = Ok hash
       ∧ t_users (w_db (machine_world m')) = [administrator (TrimSpace (ToLower username)) hash f now]) m.
Proof.
  intros Hplain. unfold EnsureAdmin. apply boot_bind, boot_store.
  unfold CountUsers. apply wp_query; [done|]. intros w Hw _.
  destruct (Z.eqb_spec (Z.of_nat (length (t_users (w_db (machine_world m))))) 0) as [Hz|]; cbn [negb]; [|by apply boot_mret].
  assert (Hd : t_users (w_db w) = []) by (rewrite Hw; apply length_zero_iff_nil; lia).
  cbv zeta. set (u := TrimSpace (ToLower username)) in *. destruct (_ || _) eqn:Hlen; [by apply boot_fail|]. simplify_bool.
  case_bool_decide as Hconf; cbn [negb].
  - subst configured. apply boot_bind, boot_bind, boot_attempt. eapply boot_mono; [apply boot_read_credentials; lia|].
    intros [password|e] m' (Hfs & Hm & Hr).
    + apply boot_mret. cbv beta iota. destruct (_ || _); [by apply boot_fail|].
      apply boot_bind, boot_mret. apply boot_create; [by rewrite Hm|done].
    + case_bool_decide; cbn [negb]; [|by apply boot_fail]. apply boot_bind, boot_pure.
      destruct (generatePassword 32 draw) as [password|e'] eqn:Hg; [|done]. apply boot_mret. cbv beta iota.
      destruct (_ || _); [by apply boot_fail|]. apply boot_bind.
      eapply boot_mono; [apply boot_persist; [done|by eapply generated_plain]|].
      intros [[]|e'] m'' [Hm' Hp]; [|done]. apply boot_create; [by rewrite Hm', Hm|by apply Hp].
  - apply boot_bind, boot_mret. cbv beta iota. destruct (_ || _); [by apply boot_fail|].
    apply boot_bind, boot_mret. apply boot_create; [done|]. unfold documented_password. by rewrite bool_decide_eq_false_2.
Qed.

(** C28: the first administrator can log in: whatever the disk and the database
    did before, when [EnsureAdmin] reports an account, the table has exactly one,
    an enabled and approved administrator, and the password that is configured,
    or that the credentials file names, verifies against its hash. *)
Theorem bootstrap_password_works username configured path draw f now m g salt :
  forallb plain_byte (bytes_of (TrimSpace (ToLower username))) = true →
  fresh_salt f = Some salt → length salt = Z.to_nat argonSaltLength →
  (EnsureAdmin username configured path draw f now m).1 = Ok (true, g) →
  let m' := (EnsureAdmin username configured path draw f now m).2 in
  ∃ password user,
    documented_password configured path (TrimSpace (ToLower username)) m' password
    ∧ t_users (w_db (machine_world m')) = [user]
    ∧ user_Username user = ToLower (TrimSpace (ToLower username)) ∧ user_Role user = RoleAdmin
    ∧ user_Enabled user = true ∧ user_ApprovalStatus user = ApprovalApproved
    ∧ VerifyPassword (user_PasswordHash user) password = Ok true.
Proof.
  intros Hplain Hsalt Hlen Hrun m'.
  destruct (EnsureAdmin_spec username configured path draw f now m Hplain g Hrun) as (password & hash & Hdoc & Hh & Hu).
  rewrite Hsalt in Hh. pose proof (HashPassword_len _ _ _ _ Hh).
  exists password, (administrator (TrimSpace (ToLower username)) hash f now). split_and!; [exact Hdoc|exact Hu|reflexivity..|].
  change (user_PasswordHash _) with hash. rewrite (VerifyPassword_HashPassword password salt (numCPU f)) by (done || lia).
  by rewrite bool_decide_eq_true_2.
Qed.
End AdminTheorems.

(** ** Witnesses *)

Definition ex_machine : machine := mkMachine (mkDisk [] ∅) (mkWorld (empty_db <| t_users := [] |>) [] (NewHub "src")).
Definition ex_boot_entropy : Entropy := mkEntropy "u1" "s1" "" (Some (replicate 16 Ascii.zero)) 4.

(** The first start dies after the credentials are written; the second one reads
    them back. *)
Abbreviation ex_first_start :=
  (@EnsureAdmin ascii_unicode ex_argon2 "Admin" "" "/data/admin.txt" (λ i, Some (Z.of_nat i)) ex_boot_entropy 1000
     (mkMachine (mkDisk [] ∅) (mkWorld (empty_db <| t_groups := [mkGroup ApprovedUsersGroupID "a" "" GroupKindUser 0 0] |>
        <| t_roles := [mkRoleDefinition RoleAdmin "A" "" [PermissionAll] true 0 0] |>) [false; true] (NewHub "src")))) (only parsing).
Abbreviation ex_second_start :=
  (@EnsureAdmin ascii_unicode ex_argon2 "Admin" "" "/data/admin.txt" (λ i, None) ex_boot_entropy 1000 ex_first_start.2) (only parsing).

Lemma bootstrap_password_works_witness :
  is_ok ex_first_start.1 = false
  ∧ ∃ password user,
      @documented_password ascii_unicode "" "/data/admin.txt" "admin" ex_second_start.2 password
      ∧ t_users (w_db (machine_world ex_second_start.2)) = [user]
      ∧ user_Username user = "admin" ∧ user_Role user = RoleAdmin
      ∧ @VerifyPassword ex_argon2 (user_PasswordHash user) password = Ok true.
Proof.
  split; [vm_compute; reflexivity|].
  destruct (@bootstrap_password_works ascii_unicode ex_argon2 "Admin" "" "/data/admin.txt" (λ i, None) ex_boot_entropy 1000
    ex_first_start.2 false (replicate 16 Ascii.zero)) as (password & user & Hdoc & Hu & Hname & Hrole & _ & _ & Hv);
    [vm_compute; reflexivity|reflexivity|reflexivity|vm_compute; reflexivity|].
  exists password, user. split; [exact Hdoc|]. split; [exact Hu|]. split; [exact Hname|]. split; [exact Hrole|exact Hv].
Defined.

(** The write of the credentials stops after one byte of the password of 32. *)
Abbreviation ex_torn_start :=
  (@EnsureAdmin ascii_unicode ex_argon2 "admin" "" "/data/admin.txt" (λ i, Some (Z.of_nat i)) ex_boot_entropy 1000
     (mkMachine (mkDisk [Done; Done; Done; Broken 25] ∅)
        (mkWorld (empty_db <| t_groups := [mkGroup ApprovedUsersGroupID "a" "" GroupKindUser 0 0] |>
           <| t_roles := [mkRoleDefinition RoleAdmin "A" "" [PermissionAll] true 0 0] |>) [] (NewHub "src")))) (only parsing).
Abbreviation ex_next_start :=
  (@EnsureAdmin ascii_unicode ex_argon2 "admin" "" "/data/admin.txt" (λ i, None) ex_boot_entropy 2000 ex_torn_start.2) (only parsing).

(** The credentials are written in place: when the process dies within the write,
    the next start takes the part of the password that reached the disk, here one
    byte, as the administrator's password. *)
Theorem torn_credentials_become_the_password :
  ex_torn_start.1 = Err (ErrText "i/o")
  ∧ t_users (w_db (machine_world ex_torn_start.2)) = []
  ∧ ex_next_start.1 = Ok (true, false)
  ∧ @documented_password ascii_unicode "" "/data/admin.txt" "admin" ex_next_start.2 "A"
  ∧ (λ user, @VerifyPassword ex_argon2 (user_PasswordHash user) "A") <$> t_users (w_db (machine_world ex_next_start.2)) = [Ok true].
Proof.
  split; [vm_compute; reflexivity|]. split; [vm_compute; reflexivity|]. split; [vm_compute; reflexivity|].
  split; [|vm_compute; reflexivity].
  unfold documented_password. rewrite bool_decide_eq_true_2 by reflexivity.
  exists (bytes_of "username=admin" ++ newline :: bytes_of "password=A"). split; [|split; vm_compute; reflexivity]. vm_compute. reflexivity.
Qed.

Definition ex_starts : list start :=
  [(Some (replicate 64 Ascii.zero), [Done; Done; Done; Broken 0]); (Some (replicate 64 Ascii.one), []); (None, [])].

(** The first start dies before the rename; the second creates the secret, the
    third reads it. *)
Lemma secret_kept_witness :
  ∃ s1 s2, (@secrets ascii_unicode "/data/jwt.secret" ex_starts ex_machine) !! 1%nat = Some (Ok s1)
    ∧ (@secrets ascii_unicode "/data/jwt.secret" ex_starts ex_machine) !! 2%nat = Some (Ok s2) ∧ s1 = s2.
Proof.
  destruct (@secrets ascii_unicode "/data/jwt.secret" ex_starts ex_machine !! 1%nat) as [[s1|e1]|] eqn:H1; [|vm_compute in H1; discriminate H1..].
  destruct (@secrets ascii_unicode "/data/jwt.secret" ex_starts ex_machine !! 2%nat) as [[s2|e2]|] eqn:H2; [|vm_compute in H2; discriminate H2..].
  exists s1, s2. split; [reflexivity|]. split; [reflexivity|].
  exact (@secret_kept ascii_unicode "/data/jwt.secret" ex_starts ex_machine s1 s2
           (list_elem_of_lookup_2 _ _ _ H1) (list_elem_of_lookup_2 _ _ _ H2)).
Defined.
