(* ===== verification/Disk.v ===== *)
(** * Files and directories: more of package [os]

    The operations on a disk that the services use besides those of Boot.v, and
    how to reason about programs of them: what a file holds, the programs that
    leave a file alone ([spares]), and the tactics that find them. *)

From S2P Require Export Boot.

(** ** More operations on a disk *)

(** [os.Stat], [os.Lstat], [os.Open]: the file has to exist. *)
Definition os_Stat (path : string) : Boot unit :=
  disk_op (λ fs, match fs !! path with Some _ => Ok (tt, fs) | None => Err ErrNotExist end) untouched.
(** Of the directory. *)
Definition os_ChmodDirectory : Boot unit := disk_op (λ fs, Ok (tt, fs)) untouched.
Definition os_Close : Boot unit := disk_op (λ fs, Ok (tt, fs)) untouched.
Definition os_Remove (path : string) : Boot unit :=
  disk_op (λ fs, match fs !! path with Some _ => Ok (tt, delete path fs) | None => Err ErrNotExist end) untouched.
(** [info.Size()] *)
Definition os_Size (path : string) : Boot Z :=
  disk_op (λ fs, match fs !! path with
                 | Some f => Ok (Z.of_nat (length (file_Content f)), fs)
                 | None => Err ErrNotExist
                 end) untouched.
(** The names in the directory, in their order. *)
Definition os_ReadDir : Boot (list string) :=
  disk_op (λ fs, Ok (SliceStable str_lt (map_to_list fs).*1, fs)) untouched.
Definition is_err {A} (r : res A) : bool := match r with Ok _ => false | Err _ => true end.

(** ** Paths *)

(** [filepath.Dir] *)
Definition Dir (path : string) : string := Clean (of_bytes (reverse (drop_while (λ a, negb (bool_decide (a = slash))) (reverse (bytes_of path))))).
(** [filepath.Ext]: from the last dot of the last element. *)
Fixpoint extension (l : bytes) : bytes :=
  match l with
  | [] => []
  | a :: l' => if bool_decide (a = slash) then extension l'
               else if bool_decide (a = ascii_of 46)
                    then if existsb (λ b, bool_decide (b = slash) || bool_decide (b = ascii_of 46)) l' then extension l' else l
                    else extension l'
  end.
Definition Ext (path : string) : string := of_bytes (extension (bytes_of path)).

(** ** What programs do to a file *)

Implicit Types (m : machine) (fs : gmap string file).

Definition held (path : string) m : option bytes := file_Content <$> disk_files (machine_disk m) !! path.

Definition spares (path : string) {A} (x : Boot A) : Prop := ∀ m, held path (x m).2 = held path m.

Lemma spares_mret path {A} (a : A) : spares path (mret a : Boot A).
Proof. done. Qed.
Lemma spares_fail path {A} e : spares path (fail e : Boot A).
Proof. done. Qed.
Lemma spares_pure path {A} (r : res A) : spares path (pure r).
Proof. done. Qed.
Lemma spares_bind path {A B} (x : Boot A) (k : A → Boot B) : spares path x → (∀ a, spares path (k a)) → spares path (x ≫= k).
Proof.
  intros Hx Hk m. specialize (Hx m). unfold mbind, Boot_bind. destruct (x m) as [[a|e] m']; [|done]. by rewrite (Hk a m').
Qed.
Lemma spares_attempt path {A} (x : Boot A) : spares path x → spares path (attempt x).
Proof. intros Hx m. specialize (Hx m). unfold attempt. by destruct (x m). Qed.
Lemma spares_disk_op path {A} (run : gmap string file → res (A * gmap string file)) broken :
  (∀ fs a fs', run fs = Ok (a, fs') → file_Content <$> fs' !! path = file_Content <$> fs !! path) →
  (∀ n fs, file_Content <$> broken n fs !! path = file_Content <$> fs !! path) → spares path (disk_op run broken).
Proof.
  intros Hrun Hbroken m. unfold disk_op, held.
  destruct (disk_io (machine_disk m)) as [|[|n] ?]; [destruct (run _) as [[a fs']|] eqn:Hr..|apply Hbroken]; cbn; eauto.
Qed.

(** An operation on another file. *)
Ltac spare_op :=
  apply spares_disk_op;
  [intros fs a fs' Hrun; repeat (case_match; try discriminate Hrun); injection Hrun as <- <-|intros n fs; unfold untouched; repeat case_match];
  rewrite ?lookup_insert_ne, ?lookup_delete_ne by done; done.

Lemma spares_Stat path other : spares path (os_Stat other).
Proof. spare_op. Qed.
Lemma spares_Size path other : spares path (os_Size other).
Proof. spare_op. Qed.
Lemma spares_ReadFile path other : spares path (os_ReadFile other).
Proof. spare_op. Qed.
Lemma spares_ReadDir path : spares path os_ReadDir.
Proof. spare_op. Qed.
Lemma spares_Close path : spares path os_Close.
Proof. spare_op. Qed.
Lemma spares_Chmod path other mode : spares path (os_Chmod other mode).
Proof.
  apply spares_disk_op; [|done]. intros fs a fs' Hrun. destruct (fs !! other) as [f|] eqn:Hf; [|done]. injection Hrun as <- <-.
  destruct (decide (other = path)) as [->|]; [by rewrite lookup_insert_eq, Hf|by rewrite lookup_insert_ne].
Qed.
Lemma spares_Remove path other : other ≠ path → spares path (os_Remove other).
Proof. intros Hne. spare_op. Qed.
Lemma spares_WriteFile path other l mode : other ≠ path → spares path (os_WriteFile other l mode).
Proof. intros Hne. spare_op. Qed.
Lemma spares_Create path other mode : other ≠ path → spares path (os_Create other mode).
Proof. intros Hne. spare_op. Qed.
Lemma spares_Write path other l : other ≠ path → spares path (os_Write other l).
Proof. intros Hne. spare_op. Qed.
Lemma spares_Sync path : spares path os_Sync.
Proof. spare_op. Qed.

Lemma spares_bind_given path {A B} (P : A → Prop) (x : Boot A) (k : A → Boot B) :
  spares path x → (∀ m, boot x (λ r _, match r with Ok a => P a | Err _ => True end) m) →
  (∀ a, P a → spares path (k a)) → spares path (x ≫= k).
Proof.
  intros Hx HP Hk m. specialize (Hx m). specialize (HP m). unfold boot in HP. unfold mbind, Boot_bind.
  destruct (x m) as [[a|e] m']; [|done]. by rewrite (Hk a HP m').
Qed.

Ltac spare :=
  repeat first
    [ apply spares_mret | apply spares_fail | apply spares_pure | apply spares_Stat | apply spares_Size | apply spares_ReadFile
    | apply spares_ReadDir | apply spares_Close | apply spares_Sync | apply spares_Chmod | done
    | apply spares_Remove | apply spares_WriteFile | apply spares_Create | apply spares_Write
    | apply spares_attempt | apply spares_bind; [|intros ?] | case_match ].

Lemma boot_quiet {A} (x : Boot A) (Q : res A → machine → Prop) m :
  (∀ path, spares path x) → (∀ r m', (∀ path, held path m' = held path m) → Q r m') → boot x Q m.
Proof. intros Hx HQ. unfold boot. apply HQ. intros path. apply Hx. Qed.

Lemma boot_read path (Q : res bytes → machine → Prop) m :
  (∀ r m', (∀ other, held other m' = held other m) → match r with Ok l => held path m = Some l | Err _ => True end → Q r m') →
  boot (os_ReadFile path) Q m.
Proof.
  intros HQ. apply boot_disk_op; [intros; by apply HQ|]. intros ios. unfold held in HQ.
  destruct (disk_files (machine_disk m) !! path) as [f|] eqn:Hf; by apply HQ.
Qed.

Lemma boot_new_file path mode (Q : res unit → machine → Prop) m :
  (∀ r m', (∀ other, held other m ≠ None → held other m' = held other m) →
     match r with Ok _ => held path m = None ∧ held path m' = Some [] | Err _ => True end → Q r m') →
  boot (os_Create path mode) Q m.
Proof.
  intros HQ. apply boot_disk_op; [intros; by apply HQ|]. intros ios.
  destruct (disk_files (machine_disk m) !! path) as [f|] eqn:Hf; [by apply HQ|]. apply HQ; unfold held; boot_simpl.
  - intros other Ho. rewrite lookup_insert_ne; [done|]. intros <-. by rewrite Hf in Ho.
  - by rewrite Hf, lookup_insert_eq.
Qed.
