(* ===== verification/Settings.v ===== *)
(** * Runtime settings (art-api/internal: runtimeconfig/service.go,
      httpapi/runtime_settings.go, the settings handler of httpapi/server.go)

    The settings an administrator changes while the server runs, kept in the
    table runtime_settings over the defaults of the environment.  A map that is
    ranged over is the list of its entries in the order of the range. *)

From S2P Require Export Config.
From S2P Require Import Auth Mfa Sample Keeps.

(** ** runtimeconfig/service.go *)

Definition RequireLogin : string := "require_login".
Definition RequireDeviceDeployment : string := "require_device_deployment".
Definition RegistrationEnabled : string := "registration_enabled".
Definition RegistrationAutoApprove : string := "registration_auto_approve".
Definition AccessTokenTTL : string := "access_token_ttl".
Definition SessionTTL : string := "session_ttl".
Definition MFAMode : string := "mfa_mode".
Definition PasswordMinimumLength : string := "password_minimum_length".
Definition PasswordRequireUpper : string := "password_require_upper".
Definition PasswordRequireLower : string := "password_require_lower".
Definition PasswordRequireNumber : string := "password_require_number".
Definition PasswordRequireSpecial : string := "password_require_special".

Record Values := mkValues {
  values_RequireLogin : bool; values_RequireDeviceDeployment : bool;
  values_RegistrationEnabled : bool; values_RegistrationAutoApprove : bool;
  values_AccessTokenTTL : duration; values_SessionTTL : duration; values_MFAMode : string;
  values_PasswordMinimumLength : Z; values_PasswordRequireUpper : bool; values_PasswordRequireLower : bool;
  values_PasswordRequireNumber : bool; values_PasswordRequireSpecial : bool
}.

#[export] Instance eta_Values : Eta Values := λ r,
  mkValues (values_RequireLogin r) (values_RequireDeviceDeployment r) (values_RegistrationEnabled r)
    (values_RegistrationAutoApprove r) (values_AccessTokenTTL r) (values_SessionTTL r) (values_MFAMode r)
    (values_PasswordMinimumLength r) (values_PasswordRequireUpper r) (values_PasswordRequireLower r)
    (values_PasswordRequireNumber r) (values_PasswordRequireSpecial r).

Definition boolean_settings : list string :=
  [RequireLogin; RequireDeviceDeployment; RegistrationEnabled; RegistrationAutoApprove;
   PasswordRequireUpper; PasswordRequireLower; PasswordRequireNumber; PasswordRequireSpecial].

Definition set_boolean (key : string) (parsed : bool) (value : Values) : Values :=
  if bool_decide (key = RequireLogin) then value <| values_RequireLogin := parsed |>
  else if bool_decide (key = RequireDeviceDeployment) then value <| values_RequireDeviceDeployment := parsed |>
  else if bool_decide (key = RegistrationEnabled) then value <| values_RegistrationEnabled := parsed |>
  else if bool_decide (key = RegistrationAutoApprove) then value <| values_RegistrationAutoApprove := parsed |>
  else if bool_decide (key = PasswordRequireUpper) then value <| values_PasswordRequireUpper := parsed |>
  else if bool_decide (key = PasswordRequireLower) then value <| values_PasswordRequireLower := parsed |>
  else if bool_decide (key = PasswordRequireNumber) then value <| values_PasswordRequireNumber := parsed |>
  else if bool_decide (key = PasswordRequireSpecial) then value <| values_PasswordRequireSpecial := parsed |>
  else value.

(** One turn of the loop of [applyTo]. *)
Definition apply_one (value : Values) (key raw : string) : res Values :=
  if bool_decide (key ∈ boolean_settings) then
    match ParseBool raw with
    | Some parsed => Ok (set_boolean key parsed value)
    | None => Err (ErrText (key +:+ " must be boolean"))
    end
  else if bool_decide (key = PasswordMinimumLength) then
    match Atoi raw with
    | Some parsed =>
        if (parsed <? 8) || (128 <? parsed) then Err (ErrText "password_minimum_length must be between 8 and 128")
        else Ok (value <| values_PasswordMinimumLength := parsed |>)
    | None => Err (ErrText "password_minimum_length must be between 8 and 128")
    end
  else if bool_decide (key = AccessTokenTTL) || bool_decide (key = SessionTTL) then
    match ParseDuration raw with
    | Some parsed =>
        if (parsed <? 5 * minute) || (90 * 24 * hour <? parsed) then Err (ErrText (key +:+ " must be between 5m and 2160h"))
        else if bool_decide (key = AccessTokenTTL) then Ok (value <| values_AccessTokenTTL := parsed |>)
        else Ok (value <| values_SessionTTL := parsed |>)
    | None => Err (ErrText (key +:+ " must be between 5m and 2160h"))
    end
  else if bool_decide (key = MFAMode) then
    if mfa_mode_valid raw then Ok (value <| values_MFAMode := raw |>) else Err (ErrText "invalid mfa_mode")
  else Err (ErrText "unknown runtime setting").

Fixpoint apply_entries (value : Values) (input : list (string * string)) : res Values :=
  match input with
  | [] => Ok value
  | (key, raw) :: rest => res_bind (apply_one value key raw) (λ value, apply_entries value rest)
  end.

Definition applyTo (value : Values) (input : list (string * string)) : res Values :=
  res_bind (apply_entries value input) (λ value,
    if values_SessionTTL value <? values_AccessTokenTTL value
    then Err (ErrText "access_token_ttl cannot exceed session_ttl") else Ok value).

(** The state of the service is its [Values]; [order] is how the stored map is
    ranged over. *)
Definition New (order : gmap string string → list (string * string)) (defaults : Values) : M Values :=
  stored ← ListRuntimeSettings;
  lift (applyTo defaults (order stored)).

(** [Update]: the new state, also what it returns; on an error the state stays. *)
Definition Update (s : Values) (input : list (string * string)) (now : time) : M Values :=
  next ← lift (applyTo s input);
  UpsertRuntimeSettings input now;;
  ret next.

(** ** httpapi/runtime_settings.go *)

Record runtimeSettingsRequest := mkRuntimeSettingsRequest {
  setreq_RequireLogin : option bool; setreq_RequireDeviceDeployment : option bool;
  setreq_RegistrationEnabled : option bool; setreq_RegistrationAutoApprove : option bool;
  setreq_AccessTokenTTL : option string; setreq_SessionTTL : option string; setreq_MFAMode : option string;
  setreq_PasswordMinimumLength : option Z; setreq_PasswordRequireUpper : option bool;
  setreq_PasswordRequireLower : option bool; setreq_PasswordRequireNumber : option bool;
  setreq_PasswordRequireSpecial : option bool
}.

Definition FormatBool (b : bool) : string := if b then "true" else "false".

Definition supplied {A} (key : string) (format : A → string) (v : option A) : list (string * string) :=
  match v with Some v => [(key, format v)] | None => [] end.

(** The map [updates]. *)
Definition settings_updates (input : runtimeSettingsRequest) : list (string * string) :=
  supplied RequireLogin FormatBool (setreq_RequireLogin input)
  ++ supplied RequireDeviceDeployment FormatBool (setreq_RequireDeviceDeployment input)
  ++ supplied RegistrationEnabled FormatBool (setreq_RegistrationEnabled input)
  ++ supplied RegistrationAutoApprove FormatBool (setreq_RegistrationAutoApprove input)
  ++ supplied AccessTokenTTL id (setreq_AccessTokenTTL input)
  ++ supplied SessionTTL id (setreq_SessionTTL input)
  ++ supplied MFAMode id (setreq_MFAMode input)
  ++ supplied PasswordMinimumLength Itoa (setreq_PasswordMinimumLength input)
  ++ supplied PasswordRequireUpper FormatBool (setreq_PasswordRequireUpper input)
  ++ supplied PasswordRequireLower FormatBool (setreq_PasswordRequireLower input)
  ++ supplied PasswordRequireNumber FormatBool (setreq_PasswordRequireNumber input)
  ++ supplied PasswordRequireSpecial FormatBool (setreq_PasswordRequireSpecial input).

(** The services whose settings follow the configuration. *)
Record Configured := mkConfigured {
  conf_values : Values;
  conf_auth : Auth.Service;
  conf_mfa : Mfa.Service
}.

Definition policy_of (value : Values) : PasswordPolicy :=
  mkPasswordPolicy (values_PasswordMinimumLength value) (values_PasswordRequireUpper value)
    (values_PasswordRequireLower value) (values_PasswordRequireNumber value) (values_PasswordRequireSpecial value).

(** What the environment of the process and its disk show on the settings page. *)
Record Surroundings := mkSurroundings {
  sur_getenv : string → string; sur_ReadFile : string → option string;
  sur_oidc : option string; sur_ldapEnabled : bool; sur_ldapAutoProvision : bool;
  sur_hasBrandingLogo : bool; sur_hasGlobalAvatar : bool }.

Record settingsReply := mkSettingsReply {
  shown_RequireLogin : bool; shown_RequireDeviceDeployment : bool; shown_DatabaseDriver : string;
  shown_AccessTokenTTL : string; shown_SessionTTL : string;
  shown_LoginBurst : string; shown_LoginWindow : string; shown_LoginLockout : string;
  shown_DeviceOnlineTTL : string; shown_RelayServer : string; shown_ServerPublicKey : string;
  shown_MFAMode : string; shown_PasswordMinimumLength : Z; shown_PasswordRequireUpper : bool;
  shown_PasswordRequireLower : bool; shown_PasswordRequireNumber : bool; shown_PasswordRequireSpecial : bool;
  shown_OIDCEnabled : bool; shown_OIDCProvider : string;
  shown_RegistrationEnabled : bool; shown_RegistrationAutoApprove : bool;
  shown_LDAPEnabled : bool; shown_LDAPAutoProvision : bool;
  shown_CustomLogo : bool; shown_CustomGlobalAvatar : bool }.

Section Handlers.
Context `{Unicode}.

(** [settings]; the two constant URLs of the reply are left out. *)
Definition settings (s : Configured) (e : Surroundings) : settingsReply :=
  let configured := conf_values s in let env := envValue (sur_getenv e) in
  let keyFile := env "ART_SERVER_PUBLIC_KEY_FILE" (env "ART_SERVER_KEY_FILE" "/data/secrets/id_ed25519" +:+ ".pub") in
  mkSettingsReply (values_RequireLogin configured) (values_RequireDeviceDeployment configured)
    (env "ART_DB_DRIVER" "sqlite") (Duration_String (values_AccessTokenTTL configured))
    (Duration_String (values_SessionTTL configured)) (env "ART_LOGIN_BURST" "5") (env "ART_LOGIN_WINDOW" "5m")
    (env "ART_LOGIN_LOCKOUT" "15m") (env "ART_DEVICE_ONLINE_TTL" "180s") (env "ART_RELAY_SERVER" "127.0.0.1:21117")
    (match sur_ReadFile e keyFile with Some value => TrimSpace value | None => "" end)
    (Mfa.mode (conf_mfa s)) (values_PasswordMinimumLength configured) (values_PasswordRequireUpper configured)
    (values_PasswordRequireLower configured) (values_PasswordRequireNumber configured)
    (values_PasswordRequireSpecial configured)
    (bool_decide (is_Some (sur_oidc e))) (default "" (sur_oidc e))
    (values_RegistrationEnabled configured) (values_RegistrationAutoApprove configured)
    (sur_ldapEnabled e) (sur_ldapAutoProvision e) (sur_hasBrandingLogo e) (sur_hasGlobalAvatar e).

(** [updateSettings] when there is a configuration; the new state of the
    services with the reply. *)
Definition updateSettings (s : Configured) (e : Surroundings) (c : Call) (p : Principal)
    (body : option runtimeSettingsRequest) : M (Reply settingsReply * Configured) :=
  match body with
  | None => ret (writeError 400 "invalid request", s)
  | Some input =>
      let updates := settings_updates input in
      if bool_decide (updates = []) then ret (writeError 400 "no settings supplied", s) else
      updated ← try (Update (conf_values s) updates (call_now c));
      match updated with
      | Err err => ret (writeError 400 (error_text err), s)
      | Ok value =>
          let auth := Auth.SetPasswordPolicy
                        (Auth.SetTTLs (conf_auth s) (values_AccessTokenTTL value) (values_SessionTTL value))
                        (policy_of value) in
          match Mfa.SetMode (conf_mfa s) (values_MFAMode value) with
          | Err err => ret (writeError 400 (error_text err), mkConfigured value auth (conf_mfa s))
          | Ok mfa =>
              publish ConfigurationUpdated (PConfiguration (values_RequireLogin value) (values_RequireDeviceDeployment value))
                (call_now c);;
              record c 0 (audit_event "server_configuration_change" (user_ID (principal_User p))
                (session_ID (principal_Session p)) "" "success" "" {["updated" := VOther]});;
              let s := mkConfigured value auth mfa in
              ret (writeJSON 200 (settings s e), s)
          end
      end
  end.

(** ** Start of the process (cmd/art-api/main.go) *)

Definition default_values (cfg : Config) : Values :=
  mkValues (cfg_RequireLogin cfg) (cfg_RequireDeviceDeployment cfg) (cfg_RegistrationEnabled cfg)
    (cfg_RegistrationAutoApprove cfg) (cfg_AccessTokenTTL cfg) (cfg_SessionTTL cfg) (cfg_MFAMode cfg)
    8 false false false false.

(** The part of [run] that builds these services. *)
Definition start_services `{Argon2} (order : gmap string string → list (string * string)) (cfg : Config)
    (jwtSecret : string) (mfaSecret : bytes) (f : Entropy) : M Configured :=
  mfaService ← lift (Mfa.New mfaSecret (cfg_MFAMode cfg) "Remote Control Server");
  runtimeValues ← New order (default_values cfg);
  mfaService ← lift (Mfa.SetMode mfaService (values_MFAMode runtimeValues));
  let tokens := Auth.NewTokenManager jwtSecret (cfg_Issuer cfg) (cfg_Audience cfg) (values_AccessTokenTTL runtimeValues) in
  authService ← lift (Auth.NewService tokens (values_SessionTTL runtimeValues) f);
  ret (mkConfigured runtimeValues (Auth.SetPasswordPolicy authService (policy_of runtimeValues)) mfaService).
End Handlers.

(** ** What a list of settings means

    [pick] is the setting [key] of the entries [f], parsed, or what it was. *)

Definition pick {A} (parse : string → option A) (f : string → option string) (key : string) (d : A) : A :=
  match f key with Some raw => default d (parse raw) | None => d end.

Definition setting_spec (v : Values) (f : string → option string) : Values :=
  mkValues (pick ParseBool f RequireLogin (values_RequireLogin v))
    (pick ParseBool f RequireDeviceDeployment (values_RequireDeviceDeployment v))
    (pick ParseBool f RegistrationEnabled (values_RegistrationEnabled v))
    (pick ParseBool f RegistrationAutoApprove (values_RegistrationAutoApprove v))
    (pick ParseDuration f AccessTokenTTL (values_AccessTokenTTL v)) (pick ParseDuration f SessionTTL (values_SessionTTL v))
    (pick Some f MFAMode (values_MFAMode v)) (pick Atoi f PasswordMinimumLength (values_PasswordMinimumLength v))
    (pick ParseBool f PasswordRequireUpper (values_PasswordRequireUpper v))
    (pick ParseBool f PasswordRequireLower (values_PasswordRequireLower v))
    (pick ParseBool f PasswordRequireNumber (values_PasswordRequireNumber v))
    (pick ParseBool f PasswordRequireSpecial (values_PasswordRequireSpecial v)).

Definition ttl_ok (d : duration) : bool := (5 * minute <=? d) && (d <=? 90 * 24 * hour).

Definition valid_entry (key raw : string) : bool :=
  if bool_decide (key ∈ boolean_settings) then bool_decide (is_Some (ParseBool raw))
  else if bool_decide (key = PasswordMinimumLength) then
    match Atoi raw with Some n => (8 <=? n) && (n <=? 128) | None => false end
  else if bool_decide (key = AccessTokenTTL) || bool_decide (key = SessionTTL) then
    match ParseDuration raw with Some d => ttl_ok d | None => false end
  else bool_decide (key = MFAMode) && mfa_mode_valid raw.

(** One entry, and the entries of a list: the last one for a key counts. *)
Definition single (key raw : string) : string → option string := λ k, if bool_decide (k = key) then Some raw else None.
Definition over (g f : string → option string) : string → option string := λ k, match g k with Some r => Some r | None => f k end.
Fixpoint entries (l : list (string * string)) : string → option string :=
  match l with [] => λ _, None | (key, raw) :: rest => over (entries rest) (single key raw) end.

Lemma setting_spec_ext v f g : (∀ k, f k = g k) → setting_spec v f = setting_spec v g.
Proof. intros Heq. unfold setting_spec, pick. by rewrite !Heq. Qed.

Lemma apply_one_spec v key raw :
  if valid_entry key raw then apply_one v key raw = Ok (setting_spec v (single key raw))
  else is_ok (apply_one v key raw) = false.
Proof.
  destruct v as [v1 v2 v3 v4 v5 v6 v7 v8 v9 v10 v11 v12]. unfold valid_entry, apply_one, ttl_ok.
  destruct (bool_decide_reflect (key ∈ boolean_settings)) as [Hb|_].
  { unfold boolean_settings in Hb. rewrite !elem_of_cons, elem_of_nil in Hb.
    unfold setting_spec, pick. destruct (ParseBool raw) as [b|] eqn:Hp; [|done].
    destruct Hb as [->|[->|[->|[->|[->|[->|[->|[->|[]]]]]]]]]; cbv -[ParseBool]; rewrite ?Hp; reflexivity. }
  destruct (bool_decide_reflect (key = PasswordMinimumLength)) as [->|_].
  { unfold setting_spec, pick. destruct (Atoi raw) as [n|] eqn:Hp; [|done].
    destruct (Z.leb_spec 8 n), (Z.leb_spec n 128), (Z.ltb_spec n 8), (Z.ltb_spec 128 n); try lia; try done.
    cbv -[Atoi ParseBool ParseDuration]; rewrite ?Hp; reflexivity. }
  destruct (bool_decide_reflect (key = AccessTokenTTL)) as [->|_]; [|destruct (bool_decide_reflect (key = SessionTTL)) as [->|_]]; cbn [orb].
  1, 2: unfold setting_spec, pick; destruct (ParseDuration raw) as [d|] eqn:Hp; [|done];
    destruct (Z.leb_spec (5 * minute) d), (Z.leb_spec d (90 * 24 * hour)), (Z.ltb_spec d (5 * minute)), (Z.ltb_spec (90 * 24 * hour) d);
    try lia; try done; cbv -[Atoi ParseBool ParseDuration]; rewrite ?Hp; reflexivity.
  destruct (bool_decide_reflect (key = MFAMode)) as [->|_]; [|done]. cbn [andb].
  destruct (mfa_mode_valid raw); [|done]. cbv -[Atoi ParseBool ParseDuration]. reflexivity.
Qed.

(** The value of a valid entry parses. *)
Lemma pick_over {A} (parse : string → option A) f g key d :
  (∀ raw, g key = Some raw → parse raw ≠ None) → pick parse g key (pick parse f key d) = pick parse (over g f) key d.
Proof.
  intros Hp. unfold pick, over. destruct (g key) as [raw|]; [|done].
  destruct (parse raw) eqn:Hr; [done|]. by destruct (Hp raw eq_refl).
Qed.

(** What [valid_entry] asks of each kind of setting. *)
Lemma valid_entry_boolean key raw :
  bool_decide (key ∈ boolean_settings) = true → valid_entry key raw = bool_decide (is_Some (ParseBool raw)).
Proof. unfold valid_entry. by intros ->. Qed.

Lemma valid_entry_length raw :
  valid_entry PasswordMinimumLength raw = match Atoi raw with Some n => (8 <=? n) && (n <=? 128) | None => false end.
Proof.
  unfold valid_entry. assert (bool_decide (PasswordMinimumLength ∈ boolean_settings) = false) as -> by (vm_compute; reflexivity).
  by rewrite bool_decide_eq_true_2.
Qed.

Lemma valid_entry_ttl key raw :
  key = AccessTokenTTL ∨ key = SessionTTL →
  valid_entry key raw = match ParseDuration raw with Some d => ttl_ok d | None => false end.
Proof.
  unfold valid_entry. intros Hk.
  assert (bool_decide (key ∈ boolean_settings) = false ∧ bool_decide (key = PasswordMinimumLength) = false
          ∧ bool_decide (key = AccessTokenTTL) || bool_decide (key = SessionTTL) = true) as (-> & -> & ->)
    by (destruct Hk as [->| ->]; vm_compute; done).
  done.
Qed.

Lemma valid_entry_mode raw : valid_entry MFAMode raw = mfa_mode_valid raw.
Proof.
  unfold valid_entry.
  assert (bool_decide (MFAMode ∈ boolean_settings) = false ∧ bool_decide (MFAMode = PasswordMinimumLength) = false
          ∧ bool_decide (MFAMode = AccessTokenTTL) || bool_decide (MFAMode = SessionTTL) = false) as (-> & -> & ->)
    by (vm_compute; done).
  done.
Qed.

Lemma valid_boolean key raw :
  bool_decide (key ∈ boolean_settings) = true → valid_entry key raw = true → ParseBool raw ≠ None.
Proof. intros Hk. rewrite valid_entry_boolean, bool_decide_eq_true by done. by intros [? ->]. Qed.

Lemma valid_length raw : valid_entry PasswordMinimumLength raw = true → ∃ n, Atoi raw = Some n ∧ 8 ≤ n ≤ 128.
Proof. rewrite valid_entry_length. destruct (Atoi raw) as [n|]; [|done]. intros Hn. simplify_bool. by exists n. Qed.

Lemma valid_ttl key raw :
  key = AccessTokenTTL ∨ key = SessionTTL → valid_entry key raw = true → ∃ d, ParseDuration raw = Some d ∧ ttl_ok d = true.
Proof. intros Hk. rewrite valid_entry_ttl by done. destruct (ParseDuration raw) as [d|]; [|done]. by exists d. Qed.

Lemma setting_spec_over v f g :
  (∀ key raw, g key = Some raw → valid_entry key raw = true) →
  setting_spec (setting_spec v f) g = setting_spec v (over g f).
Proof.
  intros Hg. unfold setting_spec. cbn [values_RequireLogin values_RequireDeviceDeployment values_RegistrationEnabled
    values_RegistrationAutoApprove values_AccessTokenTTL values_SessionTTL values_MFAMode values_PasswordMinimumLength
    values_PasswordRequireUpper values_PasswordRequireLower values_PasswordRequireNumber values_PasswordRequireSpecial].
  f_equal; apply pick_over; intros raw Hr%Hg; try done.
  1-4, 8-11: revert Hr; apply valid_boolean; vm_compute; reflexivity.
  1, 2: apply valid_ttl in Hr as (d & -> & _); [done|auto].
  apply valid_length in Hr as (n & -> & _). done.
Qed.

(** The last entry of a key is an entry of the list. *)
Lemma entries_elem l key raw : entries l key = Some raw → (key, raw) ∈ l.
Proof.
  induction l as [|[k r] l IH]; cbn; [done|]. unfold over, single. destruct (entries l key) as [r'|].
  - intros [= ->]. right. by apply IH.
  - case_bool_decide; [|done]. intros [= <-]. subst. left.
Qed.

Definition entry_valid (kv : string * string) : Prop := valid_entry kv.1 kv.2 = true.

Lemma entries_valid l key raw : Forall entry_valid l → entries l key = Some raw → valid_entry key raw = true.
Proof. rewrite Forall_forall. intros Hl Hk%entries_elem. exact (Hl _ Hk). Qed.

Lemma apply_entries_spec v l v' :
  apply_entries v l = Ok v' ↔ Forall entry_valid l ∧ v' = setting_spec v (entries l).
Proof.
  revert v. induction l as [|[k r] l IH]; intros v; cbn.
  - split; [intros [= <-]; split; [by constructor|by destruct v]|intros [_ ->]; by destruct v].
  - pose proof (apply_one_spec v k r) as Hone. rewrite Forall_cons. unfold entry_valid at 1. cbn.
    destruct (valid_entry k r) eqn:Hv; [|destruct (apply_one v k r); [done|]; cbn; by split; [|intros [[? _] _]]].
    rewrite Hone. cbn [res_bind]. rewrite IH. split; intros (Hl & ->).
    + split; [done|]. apply setting_spec_over. intros. by eapply entries_valid.
    + split; [tauto|]. symmetry. apply setting_spec_over. intros. eapply entries_valid; [|done]. tauto.
Qed.

Lemma applyTo_spec v l v' :
  applyTo v l = Ok v'
  ↔ Forall entry_valid l ∧ v' = setting_spec v (entries l) ∧ values_AccessTokenTTL v' ≤ values_SessionTTL v'.
Proof.
  unfold applyTo. destruct (apply_entries v l) as [x|e] eqn:Ha; cbn [res_bind].
  - apply apply_entries_spec in Ha as [Hl ->]. destruct (Z.ltb_spec (values_SessionTTL (setting_spec v (entries l)))
      (values_AccessTokenTTL (setting_spec v (entries l)))); (split; [|intros (_ & -> & ?)]); try done; try lia. by intros [= <-].
  - split; [done|]. intros (Hl & Hv & _). assert (Hok : apply_entries v l = Ok v') by (apply apply_entries_spec; done). congruence.
Qed.

(** An order of a map gives the entries of the map. *)
Lemma entries_map (m : gmap string string) l key : l ≡ₚ map_to_list m → entries l key = m !! key.
Proof.
  intros Hl. assert (Hnd : NoDup l.*1) by (rewrite Hl; apply NoDup_fst_map_to_list).
  destruct (m !! key) as [raw|] eqn:Hm.
  - apply elem_of_map_to_list in Hm. rewrite <-Hl in Hm. clear Hl. induction l as [|[k r] l IH]; [by apply not_elem_of_nil in Hm|].
    cbn in Hnd |- *. apply NoDup_cons in Hnd as [Hk Hnd]. unfold over, single.
    apply elem_of_cons in Hm as [[= -> ->]|Hm]; [|by rewrite IH].
    destruct (entries l k) as [r'|] eqn:He; [|by rewrite bool_decide_eq_true_2].
    apply entries_elem in He. destruct Hk. apply list_elem_of_fmap. by exists (k, r').
  - destruct (entries l key) as [raw|] eqn:He; [|done]. apply entries_elem in He. rewrite Hl in He.
    apply elem_of_map_to_list in He. congruence.
Qed.

(** ** The table of settings *)

Definition settings_map (t : list RuntimeSetting) : gmap string string :=
  list_to_map ((λ s, (setting_Key s, setting_Value s)) <$> t).
Definition stored (d : DB) : gmap string string := settings_map (t_runtime_settings d).

Lemma settings_map_update k row t :
  setting_Key row = k →
  <[k := setting_Value row]> (settings_map (update_where (λ s, setting_Key s = k) (λ _, row) t))
  = <[k := setting_Value row]> (settings_map t)
  ∧ (Exists (λ s, setting_Key s = k) t →
     settings_map (update_where (λ s, setting_Key s = k) (λ _, row) t) = <[k := setting_Value row]> (settings_map t)).
Proof.
  intros Hrow. induction t as [|s t [IH1 IH2]]; [split; [done|by intros ?%Exists_nil]|].
  unfold settings_map in *. cbn. case_decide as Hs; cbn; rewrite ?Hrow, ?Hs, ?insert_insert_eq.
  - split; [exact IH1|]. intros _. exact IH1.
  - split.
    + rewrite (insert_insert_ne _ k) by done. unfold update_where in IH1. rewrite IH1. by rewrite insert_insert_ne.
    + intros [?|Hex]%Exists_cons; [done|]. unfold update_where in IH2. rewrite IH2 by done. by rewrite insert_insert_ne.
Qed.

Lemma settings_map_upsert k row t :
  setting_Key row = k →
  settings_map (if decide (Exists (λ s, setting_Key s = k) t) then update_where (λ s, setting_Key s = k) (λ _, row) t
                else t ++ [row])
  = <[k := setting_Value row]> (settings_map t).
Proof.
  intros Hrow. case_decide as Hex; [by apply settings_map_update|]. apply map_eq. intros key. unfold settings_map.
  rewrite fmap_app, list_to_map_app. cbn. rewrite Hrow, lookup_union. destruct (decide (key = k)) as [->|Hne].
  - rewrite lookup_insert_eq, not_elem_of_list_to_map_1; [by rewrite lookup_insert_eq|].
    rewrite <-list_fmap_compose. intros (s & Hs & Hin)%list_elem_of_fmap. apply Hex, Exists_exists. by exists s.
  - rewrite !lookup_insert_ne by done. rewrite lookup_empty. by rewrite (right_id None _).
Qed.

(** What [UpsertRuntimeSettings] leaves in the table. *)
Lemma upserts_stored input now d h :
  wp true (for_each (λ kv : string * string,
            let row := mkRuntimeSetting kv.1 kv.2 (millis now) in
            sql_upsert t_runtime_settings (λ s, setting_Key s = kv.1) (λ _, row) row) input)
    (λ r d' _, r = Ok tt → ∀ key, stored d' !! key = over (entries input) (λ k, stored d !! k) key) d h.
Proof.
  revert d h. induction input as [|[k raw] input IH]; intros d h; cbn [for_each]; [by apply wp_ret|].
  apply wp_bind. cbv zeta. apply wp_sql_upsert; [done| |done]. intros d1 Hd1 _. cbn [fst snd].
  eapply wp_mono; [apply IH|]. cbn. intros r d' _ Hd' Hr key. rewrite (Hd' Hr). unfold over, single, stored at 1.
  destruct (entries input key) as [raw'|]; [done|]. read_tables. rewrite settings_map_upsert by done. cbn.
  case_bool_decide as Hk; [by rewrite Hk, lookup_insert_eq|by rewrite lookup_insert_ne].
Qed.

Lemma Update_spec s input now d h :
  wp true (Update s input now)
    (λ r d' _, match r with
               | Ok s' => applyTo s input = Ok s' ∧ ∀ key, stored d' !! key = over (entries input) (λ k, stored d !! k) key
               | Err _ => stored d' = stored d
               end) d h.
Proof.
  unfold Update. destruct (applyTo s input) as [s'|e] eqn:Ha; [|by apply wp_bind, wp_throw].
  apply wp_bind, wp_ret, wp_bind. unfold UpsertRuntimeSettings. apply wp_tx; [done|].
  eapply wp_mono; [apply upserts_stored|]. cbn. intros [[]|e] d' h' Hd'; [|done]. split; [|done].
  apply wp_ret. split; [done|by apply Hd'].
Qed.

(** The values in force are those the stored settings give over the defaults. *)
Definition values_kept (defaults s : Values) (d : DB) : Prop :=
  (∀ key raw, stored d !! key = Some raw → valid_entry key raw = true)
  ∧ s = setting_spec defaults (λ key, stored d !! key)
  ∧ values_AccessTokenTTL s ≤ values_SessionTTL s.

Lemma values_kept_update defaults s input s' d d' :
  values_kept defaults s d → applyTo s input = Ok s' →
  (∀ key, stored d' !! key = over (entries input) (λ k, stored d !! k) key) → values_kept defaults s' d'.
Proof.
  intros (Hv & -> & _) (Hin & -> & Hle)%applyTo_spec Hd'. split_and!; [| |done].
  - intros key raw. rewrite Hd'. unfold over. destruct (entries input key) as [r|] eqn:He; [|apply Hv].
    intros [= <-]. by eapply entries_valid.
  - rewrite setting_spec_over by (intros; by eapply entries_valid). by apply setting_spec_ext.
Qed.

Lemma values_kept_stored defaults s d d' : stored d' = stored d → values_kept defaults s d → values_kept defaults s d'.
Proof. unfold values_kept. by intros ->. Qed.

Definition map_order (order : gmap string string → list (string * string)) : Prop := ∀ m, order m ≡ₚ map_to_list m.

Lemma values_kept_New defaults s d order :
  map_order order → applyTo defaults (order (stored d)) = Ok s ↔ values_kept defaults s d.
Proof.
  intros Ho. rewrite applyTo_spec. unfold values_kept.
  rewrite (setting_spec_ext _ _ _ (λ key, entries_map (stored d) _ key (Ho _))). rewrite Forall_forall.
  split; intros (Hv & -> & Hle); (split_and!; [|done|done]).
  - intros key raw Hk. apply (Hv (key, raw)). rewrite (Ho _). by apply elem_of_map_to_list.
  - intros [key raw] Hk. rewrite (Ho _) in Hk. apply elem_of_map_to_list in Hk. by apply (Hv key).
Qed.

(** ** A server over time *)

Section Server.
Context `{Unicode} `{Argon2}.

Record settings_request := mkSettingsRequest {
  sreq_call : Call; sreq_principal : Principal; sreq_surroundings : Surroundings;
  sreq_body : option runtimeSettingsRequest }.

(** The requests that reach one process, one after the other. *)
Fixpoint serve_settings (s : Configured) (reqs : list settings_request) : M Configured :=
  match reqs with
  | [] => ret s
  | q :: rest =>
      '(_, s) ← updateSettings s (sreq_surroundings q) (sreq_call q) (sreq_principal q) (sreq_body q);
      serve_settings s rest
  end.

(** The services of a configuration, whatever brought it about. *)
Definition services_of (cfg : Config) (jwtSecret : string) (mfaSecret : bytes) (dummy : string) (v : Values) : Configured :=
  mkConfigured v
    (Auth.mkService (Auth.NewTokenManager jwtSecret (cfg_Issuer cfg) (cfg_Audience cfg) (values_AccessTokenTTL v))
       (values_SessionTTL v) dummy [] (policy_of v))
    (Mfa.mkService (sha256_Sum mfaSecret) (sha256_Sum (bytes_of "art-rustdesk:mfa-recovery:" ++ mfaSecret))
       (values_MFAMode v) "Remote Control Server").

Lemma valid_mode_eq m : Mfa.valid_mode m = mfa_mode_valid m.
Proof.
  unfold Mfa.valid_mode, mfa_mode_valid. apply eq_true_iff_eq. rewrite !orb_true_iff, !bool_decide_eq_true, !elem_of_cons, elem_of_nil.
  unfold Mfa.ModeOptional, Mfa.ModeAdmins, Mfa.ModeAll. tauto.
Qed.

Lemma kept_mode defaults s d :
  mfa_mode_valid (values_MFAMode defaults) = true → values_kept defaults s d → mfa_mode_valid (values_MFAMode s) = true.
Proof.
  intros Hd (Hv & -> & _). cbn. unfold pick. destruct (stored d !! MFAMode) as [raw|] eqn:Hr; [|done].
  rewrite <-valid_entry_mode. by apply Hv.
Qed.

(** Services that follow the values kept in the table. *)
Definition configured_well cfg jwtSecret mfaSecret dummy (s : Configured) (d : DB) : Prop :=
  s = services_of cfg jwtSecret mfaSecret dummy (conf_values s)
  ∧ values_kept (default_values cfg) (conf_values s) d.

Lemma updateSettings_spec cfg jwtSecret mfaSecret dummy s e c p body d h :
  mfa_mode_valid (cfg_MFAMode cfg) = true →
  configured_well cfg jwtSecret mfaSecret dummy s d →
  wp true (updateSettings s e c p body)
    (λ r d' _, match r with Ok (_, s') => configured_well cfg jwtSecret mfaSecret dummy s' d' | Err _ => False end) d h.
Proof.
  intros Hmode [Hs Hk]. unfold updateSettings. destruct body as [input|]; [|by apply wp_ret].
  case_bool_decide; [by apply wp_ret|]. apply wp_bind, wp_try. eapply wp_mono; [apply Update_spec|].
  intros [v|err] d' h' Hd'; [|apply wp_ret; split; [done|by eapply values_kept_stored]].
  destruct Hd' as [Ha Hd']. pose proof (values_kept_update _ _ _ _ _ _ Hk Ha Hd') as Hk'. cbv zeta.
  unfold Mfa.SetMode. rewrite valid_mode_eq, (kept_mode (default_values cfg) _ _ Hmode Hk'). cbn [negb].
  apply wp_bind, wp_publish, wp_bind. unfold record. apply wp_bind, wp_try. eapply wp_mono; [apply Record_spec|].
  intros r d'' h'' [(t1 & t2 & ->) _]. apply wp_ret, wp_ret. split; [|exact Hk'].
  rewrite Hs. reflexivity.
Qed.

Lemma serve_settings_spec cfg jwtSecret mfaSecret dummy reqs s d h :
  mfa_mode_valid (cfg_MFAMode cfg) = true →
  configured_well cfg jwtSecret mfaSecret dummy s d →
  wp true (serve_settings s reqs)
    (λ r d' _, match r with Ok s' => configured_well cfg jwtSecret mfaSecret dummy s' d' | Err _ => False end) d h.
Proof.
  intros Hmode. revert s d h. induction reqs as [|q reqs IH]; intros s d h Hs; cbn [serve_settings]; [by apply wp_ret|].
  apply wp_bind. eapply wp_mono; [by eapply updateSettings_spec|]. intros [[rep s']|err] d' h' Hs'; [|done]. by apply IH.
Qed.

(** What a successful start builds. *)
Lemma start_services_spec order cfg jwtSecret mfaSecret f d h :
  map_order order →
  wp true (start_services order cfg jwtSecret mfaSecret f)
    (λ r d' _, d' = d ∧ match r with
               | Ok s => mfa_mode_valid (cfg_MFAMode cfg) = true
                         ∧ ∃ dummy, HashPassword "not-a-real-password-57F2eC4d" (fresh_salt f) (numCPU f) = Ok dummy
                                    ∧ configured_well cfg jwtSecret mfaSecret dummy s d
               | Err _ => True
               end) d h.
Proof.
  intros Ho. unfold start_services, Mfa.New. rewrite valid_mode_eq.
  destruct (mfa_mode_valid (cfg_MFAMode cfg)) eqn:Hmode; cbn [negb]; [|by apply wp_bind, wp_throw].
  apply wp_bind, wp_ret, wp_bind. unfold New, ListRuntimeSettings. apply wp_bind, wp_query; [done|].
  change (list_to_map _) with (stored d). destruct (applyTo _ _) as [v|err] eqn:Ha; [|by apply wp_throw].
  apply wp_ret, wp_bind. unfold Mfa.SetMode. rewrite valid_mode_eq.
  apply values_kept_New in Ha; [|done]. rewrite (kept_mode (default_values cfg) _ _ Hmode Ha). cbn [negb]. apply wp_ret, wp_bind.
  unfold Auth.NewService. destruct (HashPassword _ _ _) as [dummy|err] eqn:Hh; [|by apply wp_throw].
  apply wp_ret, wp_ret. split; [done|]. split; [done|]. exists dummy. by split_and!.
Qed.

(** Without failures of the database a start on the values kept succeeds. *)
Lemma start_services_runs order cfg jwtSecret mfaSecret dummy f s d hub :
  map_order order → mfa_mode_valid (cfg_MFAMode cfg) = true →
  HashPassword "not-a-real-password-57F2eC4d" (fresh_salt f) (numCPU f) = Ok dummy →
  configured_well cfg jwtSecret mfaSecret dummy s d →
  (start_services order cfg jwtSecret mfaSecret f (mkWorld d [] hub)).1 = Ok s.
Proof.
  intros Ho Hmode Hh [Hs Hk].
  apply (wp_run (F:=false) (λ r _ _, r = Ok s) (start_services order cfg jwtSecret mfaSecret f) (mkWorld d [] hub)); [done|].
  cbn [w_db w_hub]. unfold start_services, Mfa.New. rewrite valid_mode_eq, Hmode. cbn [negb].
  apply wp_bind, wp_ret, wp_bind. unfold New, ListRuntimeSettings. apply wp_bind, wp_query; [done|].
  change (list_to_map _) with (stored d). pose proof Hk as Ha. apply (values_kept_New _ _ _ order) in Ha; [|done]. rewrite Ha.
  apply wp_ret, wp_bind. unfold Mfa.SetMode. rewrite valid_mode_eq, (kept_mode (default_values cfg) _ _ Hmode Hk). cbn [negb]. apply wp_ret, wp_bind.
  unfold Auth.NewService. rewrite Hh. apply wp_ret, wp_ret. by rewrite Hs.
Qed.

(** A started server, after any requests. *)
Lemma served order cfg jwtSecret mfaSecret f w s0 reqs :
  map_order order → (start_services order cfg jwtSecret mfaSecret f w).1 = Ok s0 →
  ∃ s w' dummy, serve_settings s0 reqs (start_services order cfg jwtSecret mfaSecret f w).2 = (Ok s, w')
    ∧ mfa_mode_valid (cfg_MFAMode cfg) = true
    ∧ HashPassword "not-a-real-password-57F2eC4d" (fresh_salt f) (numCPU f) = Ok dummy
    ∧ configured_well cfg jwtSecret mfaSecret dummy s (w_db w').
Proof.
  intros Ho Hstart.
  pose proof (wp_run (F:=true) _ _ w I (start_services_spec order cfg jwtSecret mfaSecret f (w_db w) (w_hub w) Ho)) as Hs0.
  cbv beta in Hs0. destruct (start_services order _ _ _ f w) as [r w1]. cbn [fst snd] in *. subst r.
  destruct Hs0 as (Hd & Hmode & dummy & Hh & Hwell). rewrite <-Hd in Hwell.
  pose proof (wp_run (F:=true) _ _ w1 I (serve_settings_spec cfg jwtSecret mfaSecret dummy reqs s0 (w_db w1) (w_hub w1) Hmode Hwell)) as Hs.
  cbv beta in Hs. destruct (serve_settings s0 reqs w1) as [[s|err] w2]; cbn [fst snd] in Hs; [|done].
  by exists s, w2, dummy.
Qed.

(** C21: a restart restores the configuration: whatever settings were changed
    while a process ran, and whatever failed, a process that starts on the same
    database with the same environment has the same configuration and the same
    services. *)
Theorem settings_survive_restart order order' cfg jwtSecret mfaSecret f w s0 reqs hub :
  map_order order → map_order order' → (start_services order cfg jwtSecret mfaSecret f w).1 = Ok s0 →
  ∃ s w', serve_settings s0 reqs (start_services order cfg jwtSecret mfaSecret f w).2 = (Ok s, w')
    ∧ (start_services order' cfg jwtSecret mfaSecret f (mkWorld (w_db w') [] hub)).1 = Ok s.
Proof.
  intros Ho Ho' Hstart.
  destruct (served order cfg jwtSecret mfaSecret f w s0 reqs Ho Hstart) as (s & w' & dummy & Hrun & Hmode & Hh & Hwell).
  exists s, w'. split; [done|]. by eapply start_services_runs.
Qed.

(** C22: the configuration in force is always consistent: the lifetimes of tokens
    and sessions, the second factor and the password length stay within their
    bounds, a token never outlives its session, and the authentication service
    and the second factor follow the configuration.  A lifetime that no setting
    stores is the default of the environment, which [Load] does not bound: for
    it the theorem states that it equals that default. *)
Theorem settings_stay_valid order cfg jwtSecret mfaSecret f w s0 reqs :
  map_order order → (start_services order cfg jwtSecret mfaSecret f w).1 = Ok s0 →
  ∃ s w', serve_settings s0 reqs (start_services order cfg jwtSecret mfaSecret f w).2 = (Ok s, w')
    ∧ values_AccessTokenTTL (conf_values s) ≤ values_SessionTTL (conf_values s)
    ∧ (ttl_ok (values_AccessTokenTTL (conf_values s)) = true ∨ values_AccessTokenTTL (conf_values s) = cfg_AccessTokenTTL cfg)
    ∧ (ttl_ok (values_SessionTTL (conf_values s)) = true ∨ values_SessionTTL (conf_values s) = cfg_SessionTTL cfg)
    ∧ mfa_mode_valid (values_MFAMode (conf_values s)) = true
    ∧ 8 ≤ values_PasswordMinimumLength (conf_values s) ≤ 128
    ∧ Auth.sessionTTL (conf_auth s) = values_SessionTTL (conf_values s)
    ∧ Auth.tokens_ttl (Auth.tokens (conf_auth s)) = values_AccessTokenTTL (conf_values s)
    ∧ Auth.passwordPolicy (conf_auth s) = policy_of (conf_values s)
    ∧ Mfa.mode (conf_mfa s) = values_MFAMode (conf_values s).
Proof.
  intros Ho Hstart.
  destruct (served order cfg jwtSecret mfaSecret f w s0 reqs Ho Hstart) as (s & w2 & dummy & Hrun & Hmode & Hh & Hs & Hk).
  exists s, w2. pose proof (kept_mode (default_values cfg) _ _ Hmode Hk) as Hm. destruct Hk as (Hv & Hval & Hle).
  split; [done|]. split; [done|].
  assert (Httl : ∀ key d, key = AccessTokenTTL ∨ key = SessionTTL →
    ttl_ok (pick ParseDuration (λ k, stored (w_db w2) !! k) key d) = true ∨ pick ParseDuration (λ k, stored (w_db w2) !! k) key d = d).
  { intros key d Hkey. unfold pick. destruct (stored (w_db w2) !! key) as [raw|] eqn:Hr; [|by right].
    apply Hv, valid_ttl in Hr as (t & -> & Ht); [by left|done]. }
  split; [rewrite Hval; apply Httl; by left|]. split; [rewrite Hval; apply Httl; by right|]. split; [exact Hm|]. split.
  { rewrite Hval. cbn. unfold pick. destruct (stored (w_db w2) !! PasswordMinimumLength) as [raw|] eqn:Hr; [|lia].
    by apply Hv, valid_length in Hr as (n & -> & Hn). }
  rewrite Hs. by split_and!.
Qed.
End Server.

(** ** The settings page *)

Section Page.
Context `{Unicode}.

(** The form of the page, as it is shown. *)
Definition form_of (r : settingsReply) : runtimeSettingsRequest :=
  mkRuntimeSettingsRequest (Some (shown_RequireLogin r)) (Some (shown_RequireDeviceDeployment r))
    (Some (shown_RegistrationEnabled r)) (Some (shown_RegistrationAutoApprove r)) (Some (shown_AccessTokenTTL r))
    (Some (shown_SessionTTL r)) (Some (shown_MFAMode r)) (Some (shown_PasswordMinimumLength r))
    (Some (shown_PasswordRequireUpper r)) (Some (shown_PasswordRequireLower r)) (Some (shown_PasswordRequireNumber r))
    (Some (shown_PasswordRequireSpecial r)).

Lemma ParseBool_FormatBool b : ParseBool (FormatBool b) = Some b.
Proof. by destruct b. Qed.

Lemma pick_self {A} (parse : string → option A) f key raw d :
  f key = Some raw → parse raw = Some d → pick parse f key d = d.
Proof. unfold pick. by intros -> ->. Qed.

(** the settings page is a faithful form: sending back what it shows is
    accepted and changes nothing, when both lifetimes are whole seconds. *)
Theorem settings_form_roundtrip s e n m :
  values_AccessTokenTTL (conf_values s) = n * second → values_SessionTTL (conf_values s) = m * second →
  ttl_ok (n * second) = true → ttl_ok (m * second) = true → n ≤ m →
  mfa_mode_valid (values_MFAMode (conf_values s)) = true → Mfa.mode (conf_mfa s) = values_MFAMode (conf_values s) →
  8 ≤ values_PasswordMinimumLength (conf_values s) ≤ 128 →
  applyTo (conf_values s) (settings_updates (form_of (settings s e))) = Ok (conf_values s).
Proof.
  intros Hn Hm Hnok Hmok Hle Hmode Hmfa Hlen. apply applyTo_spec.
  assert (Hpn : ParseDuration (Duration_String (n * second)) = Some (n * second)).
  { unfold ttl_ok in Hnok. simplify_bool. unfold hour, minute, second, millisecond in *.
    apply ParseDuration_String; unfold second, millisecond; lia. }
  assert (Hpm : ParseDuration (Duration_String (m * second)) = Some (m * second)).
  { unfold ttl_ok in Hmok. simplify_bool. unfold hour, minute, second, millisecond in *.
    apply ParseDuration_String; unfold second, millisecond; lia. }
  destruct (conf_values s) as [v1 v2 v3 v4 v5 v6 v7 v8 v9 v10 v11 v12] eqn:Hv. cbn in Hn, Hm, Hmode, Hmfa, Hlen. subst v5 v6.
  assert (Hi : Atoi (Itoa v8) = Some v8) by (apply Atoi_Itoa; unfold max_int64; lia).
  unfold settings. rewrite Hv, Hmfa. split_and!; [| |cbn; unfold second, millisecond; lia].
  - apply Forall_forall. intros [key raw]. cbn -[Duration_String]. intros Hin. unfold entry_valid. cbn [fst snd].
    repeat (apply elem_of_cons in Hin as [[= -> ->]|Hin]); [..|by apply not_elem_of_nil in Hin].
    1-4, 9-12: rewrite valid_entry_boolean by (vm_compute; reflexivity); rewrite ParseBool_FormatBool; apply bool_decide_eq_true_2; by eexists.
    + unfold id. rewrite valid_entry_ttl, Hpn by auto. done.
    + unfold id. rewrite valid_entry_ttl, Hpm by auto. done.
    + by rewrite valid_entry_mode.
    + rewrite valid_entry_length, Hi. apply andb_true_iff. split; apply Z.leb_le; lia.
  - unfold setting_spec. f_equal.
    1-4, 8-11: symmetry; eapply pick_self; [reflexivity|apply ParseBool_FormatBool].
    1, 2: symmetry; eapply pick_self; [reflexivity|by unfold id].
    symmetry. eapply pick_self; [reflexivity|exact Hi].
Qed.
End Page.

(** ** Witnesses *)

Definition ex_cfg : Config :=
  match @Load ascii_unicode ex_url ex_string_map ex_old_environment "1" with
  | Ok cfg => cfg
  | Err _ => mkConfig "" "" "" "" "" "" "" "" "" "" "" "" "" "" "" "" "" 0 0 "" "" 0 0 0 "" "" "" "" "" "" false false false
               false false "" "" "" "" "" "" "" "" "" [] false false false false [] 0 0
  end.
Definition ex_settings_call : Call := mkCall second (λ _, mkStamp "e1" "e1" second) (mkEntropy "" "" "" None 1).
Definition ex_settings_admin : Principal :=
  mkPrincipal (ex_user "u0" "root" RoleAdmin) (ex_session "s1" "u0") (mkClaims "" "" "" "" 0 "" "" "" [] None None).
Definition ex_surroundings : Surroundings := mkSurroundings (λ _, "") (λ _, None) None false false false false.
(** Shorter sessions and a longer password; then a token that would outlive its
    session, which is refused. *)
Definition ex_settings_requests : list settings_request :=
  [mkSettingsRequest ex_settings_call ex_settings_admin ex_surroundings
     (Some (mkRuntimeSettingsRequest None None None None (Some "30m") (Some "1h30m") (Some "required_for_admins") (Some 12) None None None None));
   mkSettingsRequest ex_settings_call ex_settings_admin ex_surroundings
     (Some (mkRuntimeSettingsRequest None None None None (Some "3h") None None None None None None None))].
Abbreviation ex_start :=
  (@start_services ex_argon2 map_to_list ex_cfg "jwt" (bytes_of "mfa") (mkEntropy "" "" "" (Some (replicate 16 Ascii.zero)) 1)
     (mkWorld empty_db [] (NewHub "src"))) (only parsing).

Lemma ex_map_order : map_order map_to_list.
Proof. intros m. reflexivity. Qed.

Lemma settings_survive_restart_witness :
  ∃ s0 s w', ex_start.1 = Ok s0
    ∧ @serve_settings ascii_unicode s0 ex_settings_requests ex_start.2 = (Ok s, w')
    ∧ (@start_services ex_argon2 (λ m, reverse (map_to_list m)) ex_cfg "jwt" (bytes_of "mfa")
         (mkEntropy "" "" "" (Some (replicate 16 Ascii.zero)) 1) (mkWorld (w_db w') [] (NewHub "src"))).1 = Ok s.
Proof.
  destruct ex_start.1 as [s0|e] eqn:Hs0; [|vm_compute in Hs0; discriminate Hs0].
  destruct (@settings_survive_restart ascii_unicode ex_argon2 map_to_list (λ m, reverse (map_to_list m)) ex_cfg "jwt" (bytes_of "mfa")
    (mkEntropy "" "" "" (Some (replicate 16 Ascii.zero)) 1) (mkWorld empty_db [] (NewHub "src")) s0 ex_settings_requests (NewHub "src")
    ex_map_order (λ m, reverse_Permutation _) Hs0) as (s & w' & Hrun & Hnew).
  exists s0, s, w'. split; [reflexivity|]. split; [exact Hrun|exact Hnew].
Defined.

Lemma settings_stay_valid_witness :
  ∃ s0 s w', ex_start.1 = Ok s0
    ∧ @serve_settings ascii_unicode s0 ex_settings_requests ex_start.2 = (Ok s, w')
    ∧ values_AccessTokenTTL (conf_values s) ≤ values_SessionTTL (conf_values s).
Proof.
  destruct ex_start.1 as [s0|e] eqn:Hs0; [|vm_compute in Hs0; discriminate Hs0].
  destruct (@settings_stay_valid ascii_unicode ex_argon2 map_to_list ex_cfg "jwt" (bytes_of "mfa")
    (mkEntropy "" "" "" (Some (replicate 16 Ascii.zero)) 1) (mkWorld empty_db [] (NewHub "src")) s0 ex_settings_requests
    ex_map_order Hs0) as (s & w' & Hrun & Hle & _).
  exists s0, s, w'. split; [reflexivity|]. split; [exact Hrun|exact Hle].
Defined.

Definition ex_values : Values := mkValues true false false false (2 * hour) (90 * minute * 2) "optional" 10 true false true false.
Definition ex_configured : Configured :=
  services_of ex_cfg "jwt" (bytes_of "mfa") "" ex_values.

Lemma settings_form_roundtrip_witness :
  applyTo ex_values (settings_updates (form_of (@settings ascii_unicode ex_configured ex_surroundings))) = Ok ex_values.
Proof.
  apply (@settings_form_roundtrip ascii_unicode ex_configured ex_surroundings 7200 10800);
    [reflexivity|reflexivity|vm_compute; reflexivity|vm_compute; reflexivity|lia|vm_compute; reflexivity|reflexivity|cbn; lia].
Defined.
