(* ===== verification/StrategyApi.v ===== *)
(** * Strategies over HTTP (art-api/internal/httpapi/server.go)

    The handlers that list, evaluate, create, change and delete strategies.  The
    order in which the settings of a strategy are ranged over is an argument. *)

From S2P Require Export Strategy Http Acl Inventory.
From S2P Require Import Text.

Section Strategies.
Context `{Unicode} (format_g : Z → string) (ttl : duration).
(** How the settings of a body are ranged over. *)
Context (range_of : gmap string any → list (string * any)).

Definition strategy_scopes : list string := ["global"; "user"; "user_group"; "device"; "device_group"].

Definition validStrategy (value : Strategy) : bool :=
  negb ((len (TrimSpace (strategy_Name value)) <? 2) || (128 <? len (strategy_Name value))
        || negb (bool_decide (strategy_ScopeType value ∈ strategy_scopes))
        || bool_decide (strategy_Settings value = ∅) || (64 <? Z.of_nat (size (strategy_Settings value)))
        || (strategy_Priority value <? 1) || (100000 <? strategy_Priority value))
  && negb (bool_decide (strategy_ScopeType value = "global") && negb (bool_decide (strategy_ScopeID value = ""))
           || negb (bool_decide (strategy_ScopeType value = "global"))
              && (bool_decide (strategy_ScopeID value = "") || (128 <? len (strategy_ScopeID value))))
  && is_ok (ValidateSettings (range_of (strategy_Settings value))).

Definition validateStrategy (now : time) (value : Strategy) : M unit :=
  if negb (validStrategy value) then throw (ErrText "invalid strategy") else
  if bool_decide (strategy_ScopeType value = "global") then ret tt
  else if bool_decide (strategy_ScopeType value = "user") then
    user ← try (FindUserByID (strategy_ScopeID value));
    if is_ok user then ret tt else throw (ErrText "strategy user not found")
  else if bool_decide (strategy_ScopeType value ∈ ["user_group"; "device_group"]) then
    group ← try (FindGroupByID (strategy_ScopeID value));
    let expected := if bool_decide (strategy_ScopeType value = "device_group") then GroupKindDevice else GroupKindUser in
    match group with
    | Ok g => if bool_decide (group_Kind g = expected) then ret tt else throw (ErrText "strategy group not found")
    | Err _ => throw (ErrText "strategy group not found")
    end
  else
    devices ← try (ListDevices ttl now);
    match devices with
    | Err _ => throw (ErrText "devices unavailable")
    | Ok devices => match device_named (strategy_ScopeID value) devices with
                    | Some _ => ret tt
                    | None => throw (ErrText "strategy device not found")
                    end
    end.

Definition listStrategies : M (Reply (list Strategy)) :=
  values ← try ListStrategies;
  ret (match values with
       | Err _ => writeError 500 "failed to list strategies"
       | Ok values => writeJSON 200 (filter (λ value, strategy_Deleted value = false) values)
       end).

(** The body: the identifier of a device. *)
Definition evaluateStrategy (order1 order2 : Strategy → list (string * any)) (c : Call) (body : option string)
    : M (Reply Result) :=
  match body with
  | None | Some "" => ret (writeError 400 "invalid request")
  | Some deviceID =>
      devices ← try (ListDevices ttl (call_now c));
      match devices with
      | Err _ => ret (writeError 500 "devices unavailable")
      | Ok devices =>
          match device_named deviceID devices with
          | None => ret (writeError 404 "device not found")
          | Some device =>
              result ← try (Strategy.EffectiveForDevice format_g order1 order2 device);
              ret (match result with
                   | Ok value => writeJSON 200 value
                   | Err _ => writeError 500 "strategy evaluation unavailable"
                   end)
          end
      end
  end.

Definition createStrategy (c : Call) (p : Principal) (fresh : string) (body : option Strategy) : M (Reply Strategy) :=
  match body with
  | None => ret (writeError 400 "invalid strategy")
  | Some v =>
      let v := v <| strategy_Name := TrimSpace (strategy_Name v) |> in
      let v := if strategy_Priority v =? 0 then v <| strategy_Priority := 100 |> else v in
      valid ← try (validateStrategy (call_now c) v);
      match valid with
      | Err e => ret (writeError 400 (error_text e))
      | Ok _ =>
          let v := v <| strategy_ID := fresh |> <| strategy_Enabled := true |> <| strategy_CreatedAt := call_now c |>
                     <| strategy_UpdatedAt := call_now c |> in
          created ← try (CreateStrategy v);
          if negb (is_ok created) then ret (writeError 500 "failed to create strategy") else
          publish StrategyUpdated (PStrategy v) (call_now c);;
          record c 0 (audit_event "strategy_update" (user_ID (principal_User p)) "" "" "success" "" ∅);;
          ret (writeJSON 201 v)
      end
  end.

Definition updateStrategy (c : Call) (p : Principal) (strategyID : string) (body : option Strategy) : M (Reply Strategy) :=
  match body with
  | None => ret (writeError 400 "invalid strategy")
  | Some value =>
      valid ← try (validateStrategy (call_now c) value);
      match valid with
      | Err e => ret (writeError 400 (error_text e))
      | Ok _ =>
          let value := value <| strategy_ID := strategyID |> <| strategy_Name := TrimSpace (strategy_Name value) |>
                             <| strategy_UpdatedAt := call_now c |> in
          updated ← try (UpdateStrategy value);
          match updated with
          | Err ErrNotFound => ret (writeError 404 "strategy not found")
          | Err _ => ret (writeError 500 "failed to update strategy")
          | Ok _ =>
              publish StrategyUpdated (PStrategy value) (call_now c);;
              record c 0 (audit_event "strategy_update" (user_ID (principal_User p)) "" "" "success" ""
                            {["strategy_id" := VString strategyID]});;
              ret (writeJSON 200 value)
          end
      end
  end.

Definition zero_strategy : Strategy := mkStrategy "" "" "" "" 0 ∅ false zero_time zero_time false.

Definition deleteStrategy (c : Call) (p : Principal) (id : string) : M (Reply unit) :=
  deleted ← try (DeleteStrategy id (call_now c));
  match deleted with
  | Err ErrNotFound => ret (writeError 404 "strategy not found")
  | Err _ => ret (writeError 500 "failed to delete strategy")
  | Ok _ =>
      publish StrategyUpdated (PStrategy (zero_strategy <| strategy_ID := id |> <| strategy_Deleted := true |>)) (call_now c);;
      record c 0 (audit_event "strategy_delete" (user_ID (principal_User p)) "" "" "success" ""
                    {["strategy_id" := VString id]});;
      ret (mkReply 204 NoContent)
  end.
End Strategies.
