(* ===== verification/GroupApi.v ===== *)
(** * Groups over HTTP (art-api/internal/httpapi/server.go)

    User and device groups, their members, and what the console announces to the
    rendezvous servers when a group is deleted. *)

From S2P Require Export StrategyApi Rbac.
From S2P Require Import Text.

Section Groups.
Context `{Unicode} (ttl : duration).

Definition listGroups : M (Reply (list Group)) :=
  groups ← try ListGroups;
  ret (match groups with Ok groups => writeJSON 200 groups | Err _ => writeError 500 "groups unavailable" end).

Definition group_text_ok (name description : string) : bool :=
  negb ((len name <? 2) || (128 <? len name) || (512 <? len description)).

Definition group_event (c : Call) (p : Principal) (type id : string) : M unit :=
  record c 0 (audit_event type (user_ID (principal_User p)) (session_ID (principal_Session p)) "" "success" ""
                {["group_id" := VString id]}).

(** The body: name, description and kind. *)
Definition createGroup (c : Call) (p : Principal) (fresh : string) (body : option (string * string * string))
    : M (Reply Group) :=
  match body with
  | None => ret (writeError 400 "invalid request")
  | Some (name, description, kind) =>
      let name := TrimSpace name in let description := TrimSpace description in
      if negb (group_text_ok name description) || negb (bool_decide (kind ∈ [GroupKindUser; GroupKindDevice]))
      then ret (writeError 400 "invalid group") else
      let group := mkGroup fresh name description kind (call_now c) (call_now c) in
      created ← try (CreateGroup group);
      if negb (is_ok created) then ret (writeError 409 "group could not be created") else
      group_event c p "group_create" fresh;;
      ret (writeJSON 201 group)
  end.

(** The body: name and description. *)
Definition updateGroup (c : Call) (p : Principal) (groupID : string) (body : option (string * string)) : M (Reply Group) :=
  found ← try (FindGroupByID groupID);
  match found with
  | Err e => ret (writeError (statusForStore e) "group not found")
  | Ok group =>
      if bool_decide (group_ID group ∈ system_groups) then ret (writeError 409 "system group cannot be edited") else
      match body with
      | None => ret (writeError 400 "invalid request")
      | Some (name, description) =>
          let group := group <| group_Name := TrimSpace name |> <| group_Description := TrimSpace description |> in
          if negb (group_text_ok (group_Name group) (group_Description group)) then ret (writeError 400 "invalid group") else
          let group := group <| group_UpdatedAt := call_now c |> in
          updated ← try (UpdateGroup group);
          match updated with
          | Err e => ret (writeError (statusForStore e) "group could not be updated")
          | Ok _ =>
              group_event c p "group_update" (group_ID group);;
              ret (writeJSON 200 group)
          end
      end
  end.

(** What the deletion of a group changes of the rows it was read with. *)
Definition rule_of_group (id : string) (rule : ACLRule) : bool :=
  (bool_decide (acl_SubjectType rule = "user_group") && bool_decide (acl_SubjectID rule = id))
  || (bool_decide (acl_TargetType rule = "device_group") && bool_decide (acl_TargetID rule = id)).
Definition strategy_of_group (id : string) (value : Strategy) : bool :=
  (bool_decide (strategy_ScopeType value = "user_group") || bool_decide (strategy_ScopeType value = "device_group"))
  && bool_decide (strategy_ScopeID value = id).

Definition deleteGroup (c : Call) (p : Principal) (id : string) : M (Reply unit) :=
  if bool_decide (id ∈ system_groups) then ret (writeError 409 "system group cannot be deleted") else
  memberships ← try ListUserGroupMemberships;
  rules ← try ListACLRules;
  strategies ← try ListStrategies;
  devices ← try (ListDevices ttl (call_now c));
  deleted ← try (DeleteGroup id);
  match deleted with
  | Err e => ret (writeError (statusForStore e) "group could not be deleted")
  | Ok _ =>
      for_each (λ m, when (bool_decide (membership_GroupID m = id))
        (publish UserGroupMembershipUpdated (PMembership (m <| membership_Active := false |>)) (call_now c))) (listed memberships);;
      for_each (λ rule, when (rule_of_group id rule)
        (publish ACLUpdated (PACLRule (zero_rule <| acl_ID := acl_ID rule |> <| acl_Deleted := true |>)) (call_now c))) (listed rules);;
      for_each (λ value, when (strategy_of_group id value)
        (publish StrategyUpdated (PStrategy (zero_strategy <| strategy_ID := strategy_ID value |> <| strategy_Deleted := true |>))
           (call_now c))) (listed strategies);;
      for_each (λ device, when (bool_decide (device_GroupID device = id))
        (publish DeviceUpdated (PDevice (device <| device_GroupID := "" |>)) (call_now c))) (listed devices);;
      group_event c p "group_delete" id;;
      ret (mkReply 204 NoContent)
  end.

(** [group.Kind] is the empty string when the lookup failed. *)
Definition user_group (found : res Group) : option Group :=
  match found with
  | Ok group => if bool_decide (group_Kind group = GroupKindUser) then Some group else None
  | Err _ => None
  end.

Definition listGroupMembers (groupID : string) : M (Reply (list ClientUser)) :=
  found ← try (FindGroupByID groupID);
  match user_group found with
  | None => ret (writeError 404 "user group not found")
  | Some group =>
      memberships ← try ListUserGroupMemberships;
      match memberships with
      | Err _ => ret (writeError 500 "group members unavailable")
      | Ok memberships =>
          users ← try ListUsers;
          match users with
          | Err _ => ret (writeError 500 "group members unavailable")
          | Ok users =>
              let members := membership_UserID <$> filter (λ m, membership_GroupID m = group_ID group) memberships in
              ret (writeJSON 200 (clientUser <$> filter (λ u, user_ID u ∈ members) users))
          end
      end
  end.

Definition setGroupMember (c : Call) (p : Principal) (groupID userID : string) (active : bool)
    : M (Reply UserGroupMembership) :=
  found ← try (FindGroupByID groupID);
  match user_group found with
  | None => ret (writeError 404 "user group not found")
  | Some _ =>
      user ← try (FindUserByID userID);
      match user with
      | Err ErrNotFound => ret (writeError 404 "user not found")
      | Err _ => ret (writeError 500 "membership update failed")
      | Ok _ =>
          updated ← try (SetUserGroupMember groupID userID active (call_now c));
          if negb (is_ok updated) then ret (writeError 500 "membership update failed") else
          let membership := mkUserGroupMembership groupID userID active in
          publish UserGroupMembershipUpdated (PMembership membership) (call_now c);;
          record c 0 (audit_event "group_membership_update" (user_ID (principal_User p)) (session_ID (principal_Session p)) ""
            "success" "" {["group_id" := VString groupID; "user_id" := VString userID; "active" := VBool active]});;
          ret (writeJSON 200 membership)
      end
  end.

Definition addGroupMember (c : Call) (p : Principal) (groupID userID : string) := setGroupMember c p groupID userID true.
Definition removeGroupMember (c : Call) (p : Principal) (groupID userID : string) := setGroupMember c p groupID userID false.
End Groups.
