(* ===== verification/Replica.v ===== *)
(** * What the rendezvous servers are told (art-api/internal/httpapi/server.go)

    The snapshot of the authorization state and the stream of events, and the
    copy of the policy that a rendezvous server keeps from them
    (art-core/src/auth/cache.rs and sync.rs).  Other requests are served between
    the reads of a snapshot. *)

From S2P Require Export GroupApi RelayApi Webhook.
From S2P Require Import Text Config Sample.

(** ** The handlers *)

(** [s.hub.Revision()], [s.hub.SourceID()]; [s.hub.SubscribeAfter]. *)
Definition the_hub : M Hub := λ w, (Ok (w_hub w), w).
Definition hub_subscribe (source : string) (after : Z) : M (Z * list Event) := λ w,
  let '(id, backlog, h) := SubscribeAfter (w_hub w) source after in (Ok (id, backlog), w <| w_hub := h |>).

(** The frames of the stream. *)
Definition backlog_frame `{EventJson} (e : Event) : string := "data: " +:+ event_json e +:+ of_bytes [ascii_of 10; ascii_of 10].
Definition live_frame `{EventJson} (e : Event) : string :=
  "id: " +:+ Itoa (event_Revision e) +:+ of_bytes [ascii_of 10] +:+ "event: auth" +:+ of_bytes [ascii_of 10]
    +:+ "data: " +:+ event_json e +:+ of_bytes [ascii_of 10; ascii_of 10].

(** The start of a stream: the subscription and the frames of the backlog. *)
Definition authEvents `{EventJson} (source after : string) : M (Z * list string) :=
  subscribed ← hub_subscribe source (Atoi_value after);
  ret (subscribed.1, backlog_frame <$> subscribed.2).
(** One turn of its loop: the frame of an event that waits in the channel. *)
Definition authEvents_turn `{EventJson} (id : Z) : M (option string) := λ w,
  match Hub.receive (w_hub w) id with
  | Some (e, h) => (Ok (Some (live_frame e)), w <| w_hub := h |>)
  | None => (Ok None, w)
  end.

Section Snapshot.
(** [others a i]: what other requests do before read [i] of attempt [a]. *)
Context (g : Gateway) (ttl : duration) (requireLogin requireDeployment : bool) (others : nat → nat → M unit) (c : Call).

Definition meanwhile (m : M unit) : M unit := discard (try m).

(** One attempt: [None] when the revision moved. *)
Definition capture (a : nat) : M (option (Reply AuthSnapshot)) :=
  meanwhile (others a 0);; before ← the_hub;
  meanwhile (others a 1);; state ← try (ListAuthState (call_now c));
  match state with
  | Err _ => ret (Some (writeError 500 "snapshot unavailable"))
  | Ok (users, sessions) =>
      meanwhile (others a 2);; devices ← try (ListDevices ttl (call_now c));
      meanwhile (others a 3);; rules ← try ListACLRules;
      meanwhile (others a 4);; strategies ← try ListStrategies;
      meanwhile (others a 5);; memberships ← try ListUserGroupMemberships;
      meanwhile (others a 6);; relays ← try ListRelayServers;
      controlled ← relayControlState g (Rbac.listed relays);
      if negb (is_ok devices && is_ok rules && is_ok strategies && is_ok memberships && is_ok relays)
      then ret (Some (writeError 500 "policy snapshot unavailable")) else
      meanwhile (others a 7);; after ← the_hub;
      ret (if hub_revision before =? hub_revision after then
             Some (writeJSON 200 (mkAuthSnapshot requireLogin requireDeployment (hub_sourceID after) (hub_revision after)
               (call_now c) users sessions (Rbac.listed devices) (Rbac.listed rules) (Rbac.listed strategies) (Rbac.listed memberships) controlled))
           else None)
  end.

Fixpoint captures (n a : nat) : M (Reply AuthSnapshot) :=
  match n with
  | O => ret (writeError 503 "snapshot changed during capture; retry")
  | S n =>
      captured ← capture a;
      match captured with
      | Some reply => ret reply
      | None => captures n (S a)
      end
  end.
Definition authSnapshot : M (Reply AuthSnapshot) := captures 3 0.
End Snapshot.

(** ** The requests that change the policy *)

Inductive policy_request :=
| AskRules (r : acl_request)
| AskCreateStrategy (c : Call) (p : Principal) (fresh : string) (body : option Strategy)
| AskUpdateStrategy (c : Call) (p : Principal) (id : string) (body : option Strategy)
| AskDeleteStrategy (c : Call) (p : Principal) (id : string)
| AskCreateGroup (c : Call) (p : Principal) (fresh : string) (body : option (string * string * string))
| AskUpdateGroup (c : Call) (p : Principal) (id : string) (body : option (string * string))
| AskDeleteGroup (c : Call) (p : Principal) (id : string)
| AskSetMember (c : Call) (p : Principal) (groupID userID : string) (active : bool).

Definition serve_policy `{Unicode} (ttl : duration) (range_of : gmap string any → list (string * any)) (r : policy_request) : M unit :=
  match r with
  | AskRules r => serve_acl ttl r
  | AskCreateStrategy c p fresh body => discard (createStrategy ttl range_of c p fresh body)
  | AskUpdateStrategy c p id body => discard (updateStrategy ttl range_of c p id body)
  | AskDeleteStrategy c p id => discard (deleteStrategy c p id)
  | AskCreateGroup c p fresh body => discard (createGroup c p fresh body)
  | AskUpdateGroup c p id body => discard (updateGroup c p id body)
  | AskDeleteGroup c p id => discard (deleteGroup ttl c p id)
  | AskSetMember c p group user active => discard (setGroupMember c p group user active)
  end.

(** The bodies of a form of the console: the mark of a deleted row is not in it. *)
Definition plain_request (r : policy_request) : Prop :=
  match r with
  | AskRules (AskCreateRule _ _ _ (Some v)) | AskRules (AskUpdateRule _ _ _ (Some v)) => acl_Deleted v = false
  | AskCreateStrategy _ _ _ (Some v) | AskUpdateStrategy _ _ _ (Some v) => strategy_Deleted v = false
  | _ => True
  end.

(** ** The copy of the policy (art-core/src/auth/cache.rs, art-core/src/sync.rs)

    The cache of a rendezvous server, with what decides access under the policy:
    the members of the groups, the rules, the strategies, and of a device its
    identity, key, owner and group.  Its users, sessions, relays and configuration
    are left out, as are the times; the vector of groups of a user is the set of
    pairs. *)

Record replica := mkReplica {
  rep_members : gset (string * string);
  rep_rules : gmap string ACLRule;
  rep_strategies : gmap string Strategy;
  rep_devices : gmap string (string * string * bool * string * string) }.
#[export] Instance eta_replica : Eta replica := λ r, mkReplica (rep_members r) (rep_rules r) (rep_strategies r) (rep_devices r).

Definition rule_policy (r : ACLRule) : ACLRule := r <| acl_CreatedAt := 0 |> <| acl_UpdatedAt := 0 |>.
Definition strategy_policy (s : Strategy) : Strategy := s <| strategy_CreatedAt := 0 |> <| strategy_UpdatedAt := 0 |>.
Definition device_policy (v : Device) : string * string * bool * string * string :=
  (device_ClientUUID v, device_PublicKey v, device_Deployed v, device_OwnerUserID v, device_GroupID v).

(** [upsert_acl], [upsert_strategy], [upsert_user_group_membership], [upsert_device]. *)
Definition apply_event (type : string) (p : payload) (r : replica) : replica :=
  match p with
  | PACLRule v =>
      if bool_decide (type = ACLUpdated) then
        r <| rep_rules := if acl_Deleted v then delete (acl_ID v) (rep_rules r) else <[acl_ID v := rule_policy v]> (rep_rules r) |>
      else r
  | PStrategy v =>
      if bool_decide (type = StrategyUpdated) then
        r <| rep_strategies := if strategy_Deleted v then delete (strategy_ID v) (rep_strategies r)
                               else <[strategy_ID v := strategy_policy v]> (rep_strategies r) |>
      else r
  | PMembership m =>
      if bool_decide (type = UserGroupMembershipUpdated) then
        r <| rep_members := if membership_Active m then {[(membership_GroupID m, membership_UserID m)]} ∪ rep_members r
                            else rep_members r ∖ {[(membership_GroupID m, membership_UserID m)]} |>
      else r
  | PDevice v =>
      if bool_decide (type = DeviceUpdated) then r <| rep_devices := <[device_RustDeskID v := device_policy v]> (rep_devices r) |>
      else r
  | _ => r
  end.
Definition apply_pub (r : replica) (p : publication) : replica := apply_event (pub_type p) (pub_payload p) r.

(** [AuthCache]: the copy, and the source and revision of the last event it has. *)
Record cache := mkCache { cache_source : string; cache_revision : Z; cache_copy : replica }.
#[export] Instance eta_cache : Eta cache := λ r, mkCache (cache_source r) (cache_revision r) (cache_copy r).

Definition accept_revision (c : cache) (source : string) (revision : Z) : option cache :=
  if negb (bool_decide (cache_source c = source)) then Some (c <| cache_source := source |> <| cache_revision := revision |>)
  else if cache_revision c <? revision then Some (c <| cache_revision := revision |>)
  else None.

(** The types of events that sync.rs applies; it skips others. *)
Definition applied_types : list string :=
  [UserUpdated; UserDisabled; SessionCreated; SessionRevoked; SessionRevokedAll; ACLUpdated; StrategyUpdated;
   RelayUpdated; DeviceUpdated; UserGroupMembershipUpdated; ConfigurationUpdated].

(** [decodes]: whether [serde_json::from_value] makes a value of a payload.  The
    struct of a rule has a list of permissions without a default, that of a
    strategy an object of settings: the null that a nil slice or map of Go becomes
    is neither. *)
Section Stream.
Context (decodes : payload → bool).

(** [None]: the error that ends the stream. *)
Definition cache_event (c : cache) (e : Event) : option cache :=
  if negb (bool_decide (event_Type e ∈ applied_types)) then Some c else
  if negb (decodes (event_Payload e)) then None else
  Some (match accept_revision c (event_SourceID e) (event_Revision e) with
        | Some c => c <| cache_copy := apply_event (event_Type e) (event_Payload e) (cache_copy c) |>
        | None => c
        end).

(** The cache that a stream of events leaves. *)
Fixpoint consume_events (c : cache) (es : list Event) : cache :=
  match es with
  | [] => c
  | e :: es => match cache_event c e with Some c => consume_events c es | None => c end
  end.
End Stream.

(** The copy that lists of rows make; a strategy that is deleted is left out. *)
Definition live_strategy (s : Strategy) : option Strategy := if strategy_Deleted s then None else Some (strategy_policy s).
Definition by_key {A V} (key : A → string) (val : A → option V) (rows : list A) : gmap string V :=
  list_to_map (omap (λ r, (λ v, (key r, v)) <$> val r) rows).
Definition replica_rows (members : list (string * string)) (rules : list ACLRule) (strategies : list Strategy)
    (devices : list Device) : replica :=
  mkReplica (list_to_set members) (by_key acl_ID (λ r, Some (rule_policy r)) rules)
    (by_key strategy_ID live_strategy strategies) (by_key device_RustDeskID (λ v, Some (device_policy v)) devices).

(** [replace]: the strategies of a snapshot are all taken, those marked as deleted
    too, which are disabled and decide nothing; a snapshot older than the copy is
    ignored. *)
Definition copy_of (s : AuthSnapshot) : replica :=
  replica_rows ((λ m, (membership_GroupID m, membership_UserID m)) <$> filter (λ m, membership_Active m = true) (snapshot_UserGroupMemberships s))
    (snapshot_ACLRules s) [] (snapshot_Devices s)
    <| rep_strategies := by_key strategy_ID (λ v, Some (strategy_policy v)) (snapshot_Strategies s) |>.
Definition cache_replace (c : cache) (s : AuthSnapshot) : cache :=
  if bool_decide (snapshot_SourceID s = cache_source c) && (snapshot_Revision s <? cache_revision c) then c
  else mkCache (snapshot_SourceID s) (snapshot_Revision s) (copy_of s).

(** What of a copy can decide: the strategies not marked as deleted. *)
Definition live (r : replica) : replica :=
  r <| rep_strategies := filter (λ kv, strategy_Deleted kv.2 = false) (rep_strategies r) |>.

(** The part of a snapshot that can decide. *)
Definition replica_of (s : AuthSnapshot) : replica :=
  replica_rows ((λ m, (membership_GroupID m, membership_UserID m)) <$> filter (λ m, membership_Active m = true) (snapshot_UserGroupMemberships s))
    (snapshot_ACLRules s) (snapshot_Strategies s) (snapshot_Devices s).

(** The policy of the tables. *)
Definition policy (d : DB) : replica :=
  replica_rows ((λ m, (member_GroupID m, member_UserID m)) <$> t_user_group_memberships d)
    (t_acl_rules d) (t_strategies d) (t_devices d).

(** ** What a table makes of the copy *)

Section ByKey.
Context {A V : Type} (key : A → string) (val : A → option V).
Implicit Types (t : list A) (k : string).

Lemma lookup_by_key t k : NoDup (key <$> t) → by_key key val t !! k = select_one (λ r, key r = k) t ≫= val.
Proof.
  intros Hnd. apply option_eq. intros x. unfold by_key. rewrite <- elem_of_list_to_map.
  - rewrite list_elem_of_omap. split.
    + intros (r & Hr & (v & Hv & [= -> ->])%fmap_Some). by rewrite (select_one_unique key).
    + intros (r & Hr & Hx)%bind_Some. apply select_one_Some in Hr as [Hr <-]. exists r. by rewrite Hx.
  - clear k x. induction t as [|r t IH]; [constructor|]. cbn in Hnd |- *. apply NoDup_cons in Hnd as [Hr Hnd].
    destruct (val r); cbn; [|by apply IH]. apply NoDup_cons. split; [|by apply IH].
    intros ((k & v') & Heq & (r' & Hr' & (w & _ & [= -> _])%fmap_Some)%list_elem_of_omap)%list_elem_of_fmap.
    apply Hr. rewrite Heq. by apply (list_elem_of_fmap_2 key).
Qed.

Lemma by_key_perm t t' : NoDup (key <$> t) → t ≡ₚ t' → by_key key val t = by_key key val t'.
Proof.
  intros Hnd Hp. apply map_eq. intros k. rewrite !lookup_by_key by (done || by rewrite <- Hp). f_equal.
  destruct (select_one _ t') as [r|] eqn:Hr.
  - apply select_one_Some in Hr as [Hr <-]. apply select_one_unique; [done|]. by rewrite Hp.
  - rewrite !select_one_None in *. intros r Hin. apply Hr. by rewrite <- Hp.
Qed.

Lemma by_key_snoc t r :
  NoDup (key <$> t ++ [r]) → by_key key val (t ++ [r]) = partial_alter (λ _, val r) (key r) (by_key key val t).
Proof.
  intros Hnd. pose proof Hnd as [Ht Hr]%NoDup_fmap_snoc. apply map_eq. intros k. rewrite lookup_by_key by done.
  rewrite select_one_app, select_one_singleton. destruct (decide (key r = k)) as [<-|Hk].
  - rewrite lookup_partial_alter_eq. replace (select_one _ t) with (@None A); [done|]. symmetry. apply select_one_None.
    intros r' Hr' Heq. apply Hr. rewrite <- Heq. by apply list_elem_of_fmap_2.
  - rewrite lookup_partial_alter_ne, lookup_by_key by done. by destruct (select_one _ t).
Qed.

Lemma by_key_update t (P : A → Prop) `{∀ x, Decision (P x)} f r v :
  NoDup (key <$> t) → r ∈ t → P r → (∀ r', P r' → key r' = key r ∧ key (f r') = key r) → val (f r) = v →
  by_key key val (update_where P f t) = partial_alter (λ _, v) (key r) (by_key key val t).
Proof.
  intros Hnd Hr HP Hkey Hv.
  assert (Hnd' : NoDup (key <$> update_where P f t)).
  { rewrite fmap_update_where; [done|]. intros r' HP'. by destruct (Hkey r' HP') as [-> ->]. }
  apply map_eq. intros k. rewrite lookup_by_key by done.
  rewrite select_one_update by (intros r' [-> ->]%Hkey; done). destruct (decide (key r = k)) as [<-|Hk].
  - rewrite lookup_partial_alter_eq, (select_one_unique key) by done. cbn. by rewrite decide_True.
  - rewrite lookup_partial_alter_ne, lookup_by_key by done. destruct (select_one _ t) as [r'|] eqn:Hr'; [|done]. cbn.
    apply select_one_Some in Hr' as [_ <-]. rewrite decide_False; [done|]. by intros [? _]%Hkey.
Qed.

(** Rows deleted are keys deleted. *)
Lemma by_key_delete t (P : A → Prop) `{∀ x, Decision (P x)} (ks : list string) :
  NoDup (key <$> t) → (∀ r, r ∈ t → P r ↔ key r ∈ ks) →
  by_key key val (delete_where P t) = foldr delete (by_key key val t) ks.
Proof.
  intros Hnd HP. apply map_eq. intros k. rewrite lookup_by_key by by apply NoDup_fmap_delete_where.
  destruct (decide (k ∈ ks)) as [Hk|Hk].
  - rewrite lookup_foldr_delete by done. replace (select_one _ _) with (@None A); [done|]. symmetry.
    apply select_one_None. intros r [Hr Hn]%elem_of_delete_where <-. by apply Hn, HP.
  - rewrite lookup_foldr_delete_not_elem_of, lookup_by_key by done. f_equal.
    destruct (select_one _ t) as [r|] eqn:Hr.
    + apply select_one_Some in Hr as [Hr <-]. apply select_one_unique; [by apply NoDup_fmap_delete_where|].
      apply elem_of_delete_where. split; [done|]. by rewrite HP.
    + rewrite !select_one_None in *. intros r [Hin _]%elem_of_delete_where. by apply Hr.
Qed.
End ByKey.

Definition policy_ok (d : DB) : Prop :=
  user_group_memberships_ok d ∧ acl_rules_ok d ∧ strategies_ok d ∧ devices_ok d
  ∧ ∀ rule, rule ∈ t_acl_rules d → acl_Deleted rule = false.

(** Two copies are the same when their components are. *)
Lemma replica_eq (r r' : replica) :
  rep_members r = rep_members r' → rep_rules r = rep_rules r' → rep_strategies r = rep_strategies r' →
  rep_devices r = rep_devices r' → r = r'.
Proof. destruct r, r'. cbn. by intros -> -> -> ->. Qed.

(** ** Programs whose changes are announced *)

Section Follows.
Implicit Types (d : DB) (h : Hub).

Definition moves d h d' h' : Prop :=
  policy_ok d' ∧ ∃ ps, h' = publish_all h ps ∧ policy d' = foldl apply_pub (policy d) ps.

Definition follows {A} (m : M A) : Prop := ∀ d h, policy_ok d → wp false m (λ _ d' h', moves d h d' h') d h.

Lemma moves_refl d h : policy_ok d → moves d h d h.
Proof. intros Hd. split; [done|]. by exists []. Qed.

Lemma moves_trans d h d1 h1 d2 h2 : moves d h d1 h1 → moves d1 h1 d2 h2 → moves d h d2 h2.
Proof.
  intros (_ & ps1 & -> & H1) (Hok & ps2 & -> & H2). split; [done|]. exists (ps1 ++ ps2). unfold publish_all.
  by rewrite !foldl_app, H2, H1.
Qed.

Lemma moves_same d h d' : policy_ok d → policy d' = policy d → policy_ok d' → moves d h d' h.
Proof. intros _ Heq Hok. split; [done|]. by exists []. Qed.

Lemma moves_publish d h d' ty p now :
  policy_ok d' → policy d' = apply_event ty p (policy d) → moves d h d' (Publish h ty p now).2.
Proof. intros Hok Heq. split; [done|]. by exists [mkPublication ty p now]. Qed.

Lemma follows_bind {A B} (m : M A) (k : A → M B) : follows m → (∀ a, follows (k a)) → follows (mbind k m).
Proof.
  intros Hm Hk d h Hd. apply wp_bind. eapply wp_mono; [by apply Hm|]. intros [a|e] d1 h1 Hm1; [|done].
  eapply wp_mono; [apply Hk, Hm1|]. intros r d2 h2 Hm2. by eapply moves_trans.
Qed.
Lemma follows_ret {A} (a : A) : follows (ret a).
Proof. intros d h Hd. apply wp_ret. by apply moves_refl. Qed.
Lemma follows_throw {A} e : follows (throw e : M A).
Proof. intros d h Hd. apply wp_throw. by apply moves_refl. Qed.
Lemma follows_try {A} (m : M A) : follows m → follows (try m).
Proof. intros Hm d h Hd. apply wp_try. eapply wp_mono; [by apply Hm|]. done. Qed.
Lemma follows_discard {A} (m : M A) : follows m → follows (discard m).
Proof. intros Hm. apply follows_bind; [done|]. intros. apply follows_ret. Qed.
Lemma follows_query {A} (f : DB → A) : follows (query f).
Proof. intros d h Hd. apply wp_query; [done|]. by apply moves_refl. Qed.
Lemma follows_query_row {A} (f : DB → option A) : follows (query_row f).
Proof. intros d h Hd. apply wp_query_row; [done|]. destruct (f d); by apply moves_refl. Qed.
Lemma follows_when b (m : M unit) : follows m → follows (when b m).
Proof. intros Hm. unfold when. destruct b; [done|apply follows_ret]. Qed.

Lemma follows_run {A} (m : M A) w :
  follows m → policy_ok (w_db w) → w_faults w = [] →
  moves (w_db w) (w_hub w) (w_db (m w).2) (w_hub (m w).2) ∧ w_faults (m w).2 = [].
Proof. intros Hm Hd Hf. by apply (wp_run_faults (F:=false) (λ _ d' h', moves (w_db w) (w_hub w) d' h') m w Hf (Hm _ _ Hd)). Qed.

(** A change of the tables, and the announcement that follows it. *)
Lemma follows_change {A B} (m : M A) ty p now (k : res A → M B) (rest : A → M B) :
  (∀ d h, policy_ok d → wp false m (λ r d' h', h' = h ∧ policy_ok d' ∧
     match r with Ok _ => policy d' = apply_event ty p (policy d) | Err _ => policy d' = policy d end) d h) →
  (∀ e, follows (k (Err e))) → (∀ a, k (Ok a) = (publish ty p now;; rest a)) → (∀ a, follows (rest a)) →
  follows (mbind k (try m)).
Proof.
  intros Hm He Hok Hrest d h Hd. apply wp_bind, wp_try. eapply wp_mono; [by apply Hm|].
  intros [a|e] d1 h1 (-> & Hd1 & Heq).
  - rewrite Hok. apply wp_bind, wp_publish. eapply wp_mono; [by apply Hrest|]. intros r d2 h2 Hm2.
    eapply moves_trans; [|exact Hm2]. by apply moves_publish.
  - eapply wp_mono; [by apply He|]. intros r d2 h2 Hm2. eapply moves_trans; [by apply moves_same|exact Hm2].
Qed.

(** What the audit writes is not policy, nor are its events. *)
Lemma follows_record c index event : follows (record c index event).
Proof.
  apply follows_discard, follows_try. intros d h Hd. eapply wp_mono; [apply Record_spec|].
  cbn. intros r d' h' ((t1 & t2 & ->) & Hr). assert (Hd' : policy_ok (d <| t_audit_events := t1 |> <| t_notifications := t2 |>)) by done.
  destruct r as [[]|e]; [destruct Hr as (_ & _ & ->)|destruct Hr as (_ & ->)].
  - by apply moves_publish.
  - by apply moves_same.
Qed.
End Follows.

(** ** The changes of the policy *)

Section Changes.
Implicit Types (d : DB) (h : Hub).

(** A table written: the component of the copy, and the constraints. *)
Lemma policy_rules d t : policy (write t_acl_rules t d) = policy d <| rep_rules := by_key acl_ID (λ r, Some (rule_policy r)) t |>.
Proof. reflexivity. Qed.
Lemma policy_strategies d t : policy (write t_strategies t d) = policy d <| rep_strategies := by_key strategy_ID live_strategy t |>.
Proof. reflexivity. Qed.
Lemma policy_members d t :
  policy (write t_user_group_memberships t d)
  = policy d <| rep_members := list_to_set ((λ m, (member_GroupID m, member_UserID m)) <$> t) |>.
Proof. reflexivity. Qed.
Lemma policy_devices d t :
  policy (write t_devices t d) = policy d <| rep_devices := by_key device_RustDeskID (λ v, Some (device_policy v)) t |>.
Proof. reflexivity. Qed.

Lemma policy_ok_rules d t :
  policy_ok d → NoDup (acl_ID <$> t) → (∀ rule, rule ∈ t → acl_Deleted rule = false) → policy_ok (write t_acl_rules t d).
Proof. intros (? & ? & ? & ? & ?) ? ?. by repeat split. Qed.
Lemma policy_ok_strategies d t : policy_ok d → NoDup (strategy_ID <$> t) → policy_ok (write t_strategies t d).
Proof. intros (? & ? & ? & ? & ?) ?. by repeat split. Qed.

(** A rule stored is the rule of the event, but for its times. *)
Lemma rule_policy_stored v id created updated deleted :
  id = acl_ID v → deleted = acl_Deleted v →
  rule_policy (v <| acl_ID := id |> <| acl_CreatedAt := created |> <| acl_UpdatedAt := updated |> <| acl_Deleted := deleted |>)
  = rule_policy v.
Proof. destruct v. by intros -> ->. Qed.
Lemma strategy_policy_stored v id created updated deleted :
  id = strategy_ID v → deleted = strategy_Deleted v →
  strategy_policy (v <| strategy_ID := id |> <| strategy_CreatedAt := created |> <| strategy_UpdatedAt := updated |>
                     <| strategy_Deleted := deleted |>)
  = strategy_policy v.
Proof. destruct v. by intros -> ->. Qed.

Definition announced {A} ty p d h (r : res A) d' h' : Prop :=
  h' = h ∧ policy_ok d' ∧ match r with Ok _ => policy d' = apply_event ty p (policy d) | Err _ => policy d' = policy d end.

Lemma announced_CreateACLRule v d h :
  policy_ok d → acl_Deleted v = false → wp false (CreateACLRule v) (announced ACLUpdated (PACLRule v) d h) d h.
Proof.
  intros Hd Hplain. pose proof Hd as (_ & Hr & _ & _ & Hdel). unfold CreateACLRule. apply wp_sql_insert; [done|..].
  - intros d' -> Hok. split; [done|]. split.
    + apply policy_ok_rules; [done|exact Hok|]. intros rule [?| ->%list_elem_of_singleton]%elem_of_app; [by apply Hdel|done].
    + rewrite policy_rules, by_key_snoc by exact Hok. cbn. rewrite Hplain. f_equal.
      rewrite <- (rule_policy_stored v (acl_ID v) (millis (acl_CreatedAt v)) (millis (acl_UpdatedAt v)) false) by done.
      by destruct v.
  - intros _. by split.
Qed.

Lemma wp_affected_update {A} (tbl : DB → list A) `{!Setter tbl, !TableSpec tbl} (P : A → Prop) `{∀ x, Decision (P x)} f
    (Q : res unit → DB → Hub → Prop) d h :
  (∀ r, r ∈ tbl d → P r → tbl_ok tbl (write tbl (update_where P f (tbl d)) d) →
        Q (Ok tt) (write tbl (update_where P f (tbl d)) d) h) →
  Q (Err ErrNotFound) (write tbl (tbl d) d) h → Q (Err ErrConstraint) d h →
  wp false (affected (sql_update tbl P f)) Q d h.
Proof.
  intros Hok Hnone Herr. apply wp_bind, wp_sql_update; [done| |by intros _].
  intros d' -> Hd'. case_bool_decide as Hc.
  - apply wp_throw. rewrite count_where_0 in Hc. by rewrite update_where_none.
  - apply wp_ret. apply count_where_pos in Hc as (r & Hr & HP). by eapply Hok.
Qed.

Lemma announced_UpdateACLRule v d h :
  policy_ok d → acl_Deleted v = false → wp false (UpdateACLRule v) (announced ACLUpdated (PACLRule v) d h) d h.
Proof.
  intros Hd Hplain. pose proof Hd as (_ & Hr & _ & _ & Hdel). unfold UpdateACLRule.
  apply wp_affected_update; [|by split; [|split; [apply policy_ok_rules|]]|by split].
  intros r Hin Hid Hok. split; [done|]. split.
  - apply policy_ok_rules; [done|exact Hok|]. intros rule (r0 & Hr0 & ->)%elem_of_update_where.
    case_decide; [change (acl_Deleted r0 = false)|]; by apply Hdel.
  - rewrite policy_rules, (by_key_update _ _ _ _ _ r (Some (rule_policy v))); [|done..| |].
    + cbn. by rewrite Hplain, Hid.
    + intros r' Hid'. cbn. split; congruence.
    + f_equal. cbn. rewrite <- (rule_policy_stored v (acl_ID v) (acl_CreatedAt r) (millis (acl_UpdatedAt v)) (acl_Deleted r)).
      * by rewrite Hid.
      * done.
      * by rewrite Hplain, (Hdel r Hin).
Qed.

Lemma announced_DeleteACLRule id d h :
  policy_ok d →
  wp false (DeleteACLRule id) (announced ACLUpdated (PACLRule (zero_rule <| acl_ID := id |> <| acl_Deleted := true |>)) d h) d h.
Proof.
  intros Hd. pose proof Hd as (_ & Hr & _ & _ & Hdel). unfold DeleteACLRule. apply wp_bind, wp_sql_delete; [done|].
  intros d' ->. case_bool_decide as Hc; [apply wp_throw|apply wp_ret]; (split; [done|]).
  - rewrite count_where_0 in Hc. unfold delete_where. rewrite filter_all by done. by split; [apply policy_ok_rules|].
  - split.
    + apply policy_ok_rules; [done|by apply NoDup_fmap_delete_where|]. intros rule [? _]%elem_of_delete_where. by apply Hdel.
    + rewrite policy_rules, (by_key_delete _ _ _ _ [id]); [done|done|]. intros r _. set_solver.
Qed.

Lemma announced_CreateStrategy v d h :
  policy_ok d → strategy_Deleted v = false → wp false (CreateStrategy v) (announced StrategyUpdated (PStrategy v) d h) d h.
Proof.
  intros Hd Hplain. pose proof Hd as (_ & _ & Hs & _). unfold CreateStrategy. apply wp_sql_insert; [done|..].
  - intros d' -> Hok. split; [done|]. split; [by apply policy_ok_strategies|].
    rewrite policy_strategies, by_key_snoc by exact Hok. cbn. rewrite Hplain. f_equal.
    rewrite <- (strategy_policy_stored v (strategy_ID v) (millis (strategy_CreatedAt v)) (millis (strategy_UpdatedAt v)) false) by done.
    by destruct v.
  - intros _. by split.
Qed.

Lemma announced_UpdateStrategy v d h :
  policy_ok d → strategy_Deleted v = false → wp false (UpdateStrategy v) (announced StrategyUpdated (PStrategy v) d h) d h.
Proof.
  intros Hd Hplain. pose proof Hd as (_ & _ & Hs & _). unfold UpdateStrategy.
  apply wp_affected_update; [|by split; [|split; [apply policy_ok_strategies|]]|by split].
  intros r Hin Hid Hok. split; [done|]. split; [by apply policy_ok_strategies|].
  rewrite policy_strategies, (by_key_update _ _ _ _ _ r (Some (strategy_policy v))); [|done..| |].
  - cbn. by rewrite Hplain, Hid.
  - intros r' Hid'. cbn. split; congruence.
  - unfold live_strategy. cbn. f_equal.
    rewrite <- (strategy_policy_stored v (strategy_ID v) (strategy_CreatedAt r) (millis (strategy_UpdatedAt v)) false) by done.
    by rewrite Hid.
Qed.

Lemma announced_DeleteStrategy id now d h :
  policy_ok d →
  wp false (DeleteStrategy id now)
    (announced StrategyUpdated (PStrategy (zero_strategy <| strategy_ID := id |> <| strategy_Deleted := true |>)) d h) d h.
Proof.
  intros Hd. pose proof Hd as (_ & _ & Hs & _). unfold DeleteStrategy.
  apply wp_affected_update; [|by split; [|split; [apply policy_ok_strategies|]]|by split].
  intros r Hin [<- Hlive] Hok. split; [done|]. split; [by apply policy_ok_strategies|].
  rewrite policy_strategies, (by_key_update _ _ _ _ _ r None); [done..| |done]. by intros r' [? _].
Qed.

Lemma announced_SetUserGroupMember group user active now d h :
  policy_ok d →
  wp false (SetUserGroupMember group user active now)
    (announced UserGroupMembershipUpdated (PMembership (mkUserGroupMembership group user active)) d h) d h.
Proof.
  intros Hd. pose proof Hd as (Hm & Hrest). unfold SetUserGroupMember. destruct active.
  - apply wp_bind, wp_sql_insert_ignore; [done|..].
    + intros Hex. apply wp_ret. split; [done|]. split; [done|]. apply replica_eq; [|done..].
      apply Exists_exists in Hex as (m & Hin & <- & <-). symmetry. apply subseteq_union_L, singleton_subseteq_l, elem_of_list_to_set.
      by apply (list_elem_of_fmap_2 (λ m, (member_GroupID m, member_UserID m))).
    + intros d' _ -> Hok. apply wp_ret. split; [done|]. split; [split; [exact Hok|exact Hrest]|].
      rewrite policy_members. apply replica_eq; [|done..]. rewrite fmap_app.
      change (list_to_set (((λ m, (member_GroupID m, member_UserID m)) <$> t_user_group_memberships d) ++ [(group, user)])
              = ({[(group, user)]} ∪ rep_members (policy d) : gset (string * string))).
      rewrite list_to_set_app_L. apply set_eq. intros x. rewrite !elem_of_union. cbn [list_to_set]. rewrite elem_of_union. set_solver.
    + intros _ _. by split.
  - apply wp_bind, wp_sql_delete; [done|]. intros d' ->. apply wp_ret. split; [done|]. split.
    + split; [|exact Hrest]. by apply NoDup_fmap_delete_where.
    + rewrite policy_members. apply replica_eq; [|done..]. apply set_eq. intros x.
      change (x ∈ (list_to_set ((λ m, (member_GroupID m, member_UserID m))
                     <$> delete_where (λ m, member_GroupID m = group ∧ member_UserID m = user) (t_user_group_memberships d)) : gset (string * string))
              ↔ x ∈ (list_to_set ((λ m, (member_GroupID m, member_UserID m)) <$> t_user_group_memberships d) : gset (string * string)) ∖ {[(group, user)]}).
      rewrite elem_of_difference, elem_of_singleton, !elem_of_list_to_set, !list_elem_of_fmap. split.
      * intros (m & -> & [Hin Hne]%elem_of_delete_where). split; [by exists m|]. intros [= ? ?]. by apply Hne.
      * intros ((m & -> & Hin) & Hne). exists m. split; [done|]. apply elem_of_delete_where. split; [done|].
        intros [<- <-]. by apply Hne.
Qed.
End Changes.

(** ** The requests *)

Section Announcements.
Implicit Types (d : DB) (h : Hub).

(** Events sent one after the other, and what they make of the copy. *)
Definition announcements {A} (P : A → Prop) `{∀ x, Decision (P x)} ty (pl : A → payload) now (l : list A) : list publication :=
  (λ x, mkPublication ty (pl x) now) <$> filter P l.

Lemma wp_announce_each {A} (b : A → bool) ty (pl : A → payload) now l (Q : res unit → DB → Hub → Prop) d h :
  Q (Ok tt) d (publish_all h (announcements (λ x, b x = true) ty pl now l)) →
  wp false (for_each (λ x, when (b x) (publish ty (pl x) now)) l) Q d h.
Proof.
  unfold announcements. revert h. induction l as [|x l IH]; intros h HQ; [by apply wp_ret|].
  apply wp_bind. rewrite filter_cons in HQ. unfold when. destruct (b x); cbn in HQ.
  - apply wp_publish. by apply IH.
  - apply wp_ret. by apply IH.
Qed.

Lemma lookup_foldl_insert {A V} (key : A → string) (val : A → V) l (m : gmap string V) k :
  NoDup (key <$> l) →
  foldl (λ m r, <[key r := val r]> m) m l !! k
  = match select_one (λ r, key r = k) l with Some r => Some (val r) | None => m !! k end.
Proof.
  revert m. induction l as [|r l IH]; intros m Hnd; [done|]. cbn in Hnd |- *. apply NoDup_cons in Hnd as [Hr Hnd].
  rewrite IH by done. change (r :: l) with ([r] ++ l). rewrite select_one_app, select_one_singleton.
  destruct (decide (key r = k)) as [<-|Hk].
  - replace (select_one _ l) with (@None A); [by rewrite lookup_insert_eq|]. symmetry. apply select_one_None.
    intros r' Hr' Heq. apply Hr. rewrite <- Heq. by apply list_elem_of_fmap_2.
  - by rewrite lookup_insert_ne.
Qed.

Lemma lookup_foldl_delete {A V} (key : A → string) l (m : gmap string V) k :
  foldl (λ m r, delete (key r) m) m l !! k = if decide (k ∈ key <$> l) then None else m !! k.
Proof.
  revert m. induction l as [|r l IH]; intros m; [done|]. cbn [foldl]. rewrite IH, fmap_cons.
  destruct (decide (key r = k)) as [<-|Hk].
  - rewrite lookup_delete_eq, (decide_True (P:=_ ∈ _ :: _)) by left. by case_decide.
  - rewrite lookup_delete_ne by done. apply decide_ext. rewrite elem_of_cons. naive_solver.
Qed.

Lemma foldl_members (l : list UserGroupMembership) (r : replica) now :
  foldl apply_pub r ((λ m, mkPublication UserGroupMembershipUpdated (PMembership (m <| membership_Active := false |>)) now) <$> l)
  = r <| rep_members := rep_members r ∖ list_to_set ((λ m, (membership_GroupID m, membership_UserID m)) <$> l) |>.
Proof.
  revert r. induction l as [|m l IH]; intros r.
  - apply replica_eq; [|done..]. cbn. set_solver.
  - cbn [fmap list_fmap foldl]. rewrite IH. apply replica_eq; [|done..]. destruct r, m. cbn. set_solver.
Qed.

Lemma foldl_rules (l : list ACLRule) (r : replica) now :
  foldl apply_pub r ((λ v, mkPublication ACLUpdated (PACLRule (zero_rule <| acl_ID := acl_ID v |> <| acl_Deleted := true |>)) now) <$> l)
  = r <| rep_rules := foldl (λ m v, delete (acl_ID v) m) (rep_rules r) l |>.
Proof. revert r. induction l as [|v l IH]; intros r; [by destruct r|]. cbn [fmap list_fmap foldl]. rewrite IH. by destruct r. Qed.

Lemma foldl_strategies (l : list Strategy) (r : replica) now :
  foldl apply_pub r ((λ v, mkPublication StrategyUpdated
                              (PStrategy (zero_strategy <| strategy_ID := strategy_ID v |> <| strategy_Deleted := true |>)) now) <$> l)
  = r <| rep_strategies := foldl (λ m v, delete (strategy_ID v) m) (rep_strategies r) l |>.
Proof. revert r. induction l as [|v l IH]; intros r; [by destruct r|]. cbn [fmap list_fmap foldl]. rewrite IH. by destruct r. Qed.

Lemma foldl_devices (l : list Device) (r : replica) now :
  foldl apply_pub r ((λ v, mkPublication DeviceUpdated (PDevice (v <| device_GroupID := "" |>)) now) <$> l)
  = r <| rep_devices := foldl (λ m v, <[device_RustDeskID v := device_policy (v <| device_GroupID := "" |>)]> m) (rep_devices r) l |>.
Proof. revert r. induction l as [|v l IH]; intros r; [by destruct r|]. cbn [fmap list_fmap foldl]. rewrite IH. by destruct r. Qed.
End Announcements.

Section DeleteAGroup.
Implicit Types (d : DB) (h : Hub).

(** Rows deleted, and rows changed, are keys deleted and bound of the rows listed. *)
Lemma by_key_delete_listed {A V} (key : A → string) (val : A → option V) t (P : A → Prop) `{∀ x, Decision (P x)} (g : A → A) (b : A → bool) rows :
  NoDup (key <$> t) → rows ≡ₚ t → (∀ r, key (g r) = key r) → (∀ r, b (g r) = true ↔ P r) →
  by_key key val (delete_where P t)
  = foldl (λ m v, delete (key v) m) (by_key key val t) (filter (λ x, b x = true) (g <$> rows)).
Proof.
  intros Hnd Hp Hg Hb. apply map_eq. intros k. rewrite lookup_foldl_delete, (by_key_delete _ _ _ _ (key <$> filter P t)).
  - assert (Hin : k ∈ key <$> filter (λ x, b x = true) (g <$> rows) ↔ k ∈ key <$> filter P t).
    { rewrite !list_elem_of_fmap. setoid_rewrite list_elem_of_filter. setoid_rewrite list_elem_of_fmap. split.
      - intros (x & -> & Hx & r & -> & Hr). exists r. rewrite <- Hb, <- Hp. by rewrite Hg.
      - intros (r & -> & HP & Hr). exists (g r). rewrite Hg, Hb. split_and!; [done..|]. exists r. by rewrite Hp. }
    case_decide as Hk; rewrite Hin in Hk; [by apply lookup_foldr_delete|by apply lookup_foldr_delete_not_elem_of].
  - done.
  - intros r Hr. rewrite list_elem_of_fmap. split.
    + intros HP. exists r. by rewrite list_elem_of_filter.
    + intros (r' & Heq & [HP Hr']%list_elem_of_filter). by rewrite (unique_row key t r r').
Qed.

Lemma by_key_update_listed {A V} (key : A → string) (pol : A → V) t (P : A → Prop) `{∀ x, Decision (P x)} (f f' g : A → A)
    (b : A → bool) rows :
  NoDup (key <$> t) → rows ≡ₚ t → (∀ r, key (g r) = key r) → (∀ r, key (f r) = key r) → (∀ r, b (g r) = true ↔ P r) →
  (∀ r, pol (f' (g r)) = pol (f r)) →
  by_key key (λ v, Some (pol v)) (update_where P f t)
  = foldl (λ m v, <[key v := pol (f' v)]> m) (by_key key (λ v, Some (pol v)) t) (filter (λ x, b x = true) (g <$> rows)).
Proof.
  intros Hnd Hp Hg Hf Hb Hpol.
  assert (Hkeys : NoDup (key <$> update_where P f t)) by by rewrite fmap_update_where.
  assert (Hrows : NoDup (key <$> filter (λ x, b x = true) (g <$> rows))).
  { eapply sublist_NoDup; [|apply fmap_sublist, sublist_filter]. rewrite <- list_fmap_compose.
    rewrite (list_fmap_ext _ key); [by rewrite Hp|]. intros; apply Hg. }
  apply map_eq. intros k. rewrite lookup_foldl_insert, !lookup_by_key by done.
  rewrite select_one_update by (intros r _; by rewrite Hf).
  destruct (select_one (λ r, key r = k) t) as [r|] eqn:Hr; cbn.
  - apply select_one_Some in Hr as [Hr <-]. case_decide as HP.
    + assert (select_one (λ x, key x = key r) (filter (λ x, b x = true) (g <$> rows)) = Some (g r)) as ->; [|by rewrite Hpol].
      rewrite <- (Hg r). apply select_one_unique; [done|]. apply list_elem_of_filter. rewrite Hb. split; [done|]. apply list_elem_of_fmap_2. by rewrite Hp.
    + replace (select_one _ _) with (@None A); [done|]. symmetry. apply select_one_None.
      intros x [Hx (r' & -> & Hr')%list_elem_of_fmap]%list_elem_of_filter Heq. apply HP.
      rewrite Hb in Hx. rewrite (unique_row key t r r'); [done..| |].
      * by rewrite <- Hp.
      * by rewrite <- Heq, Hg.
  - replace (select_one _ _) with (@None A); [done|]. symmetry. apply select_one_None.
    intros x [_ (r' & -> & Hr')%list_elem_of_fmap]%list_elem_of_filter Heq. rewrite select_one_None in Hr.
    apply (Hr r'); [by rewrite <- Hp|]. by rewrite <- Heq, Hg.
Qed.
End DeleteAGroup.

Section GroupDeleted.
Context (ttl : duration).
Implicit Types (d : DB) (h : Hub).

(** What the deletion of a group leaves of the tables. *)
Lemma wp_DeleteGroup id d h :
  policy_ok d →
  wp false (DeleteGroup id) (λ r d' h', h' = h ∧ policy_ok d' ∧
    match r with
    | Err _ => d' = d
    | Ok _ =>
        t_user_group_memberships d' = delete_where (λ m, member_GroupID m = id) (t_user_group_memberships d)
        ∧ t_acl_rules d' = delete_where (λ r, (acl_SubjectType r = "user_group" ∧ acl_SubjectID r = id)
                                            ∨ (acl_TargetType r = "device_group" ∧ acl_TargetID r = id)) (t_acl_rules d)
        ∧ t_strategies d' = delete_where (λ s, (strategy_ScopeType s = "user_group" ∨ strategy_ScopeType s = "device_group")
                                             ∧ strategy_ScopeID s = id) (t_strategies d)
        ∧ t_devices d' = update_where (λ v, device_GroupID v = id) (λ v, v <| device_GroupID := "" |>) (t_devices d)
    end) d h.
Proof.
  intros Hd. pose proof Hd as (Hm & Hr & Hs & Hv & Hdel). unfold DeleteGroup. apply wp_tx; [done|].
  apply wp_bind, wp_query_row; [done|]. destruct (select_one _ (t_groups d)); [|done].
  do 4 (apply wp_bind, wp_sql_delete; [done|]; intros ? ->).
  apply wp_bind, wp_sql_update; [done| |by intros _]. intros ? -> _.
  apply wp_bind, wp_sql_delete; [done|]. intros ? ->. apply wp_ret. split; [|done]. split; [done|]. split; [|done].
  repeat split.
  - by apply NoDup_fmap_delete_where.
  - by apply (NoDup_fmap_delete_where acl_ID).
  - by apply (NoDup_fmap_delete_where strategy_ID).
  - change (NoDup (device_RustDeskID <$> update_where (λ v, device_GroupID v = id) (λ v, v <| device_GroupID := "" |>) (t_devices d))).
    by rewrite fmap_update_where.
  - intros rule [? _]%elem_of_delete_where. by apply Hdel.
Qed.

(** The events of the handler make that of the copy. *)
Lemma deleted_group_announced id now d d' :
  policy_ok d → policy_ok d' →
  t_user_group_memberships d' = delete_where (λ m, member_GroupID m = id) (t_user_group_memberships d) →
  t_acl_rules d' = delete_where (λ r, (acl_SubjectType r = "user_group" ∧ acl_SubjectID r = id)
                                    ∨ (acl_TargetType r = "device_group" ∧ acl_TargetID r = id)) (t_acl_rules d) →
  t_strategies d' = delete_where (λ s, (strategy_ScopeType s = "user_group" ∨ strategy_ScopeType s = "device_group")
                                     ∧ strategy_ScopeID s = id) (t_strategies d) →
  t_devices d' = update_where (λ v, device_GroupID v = id) (λ v, v <| device_GroupID := "" |>) (t_devices d) →
  policy d' = foldl apply_pub (policy d)
    (announcements (λ m, bool_decide (membership_GroupID m = id) = true) UserGroupMembershipUpdated
       (λ m, PMembership (m <| membership_Active := false |>)) now (listed_memberships d)
     ++ announcements (λ r, rule_of_group id r = true) ACLUpdated
       (λ rule, PACLRule (zero_rule <| acl_ID := acl_ID rule |> <| acl_Deleted := true |>)) now (listed_rules d)
     ++ announcements (λ s, strategy_of_group id s = true) StrategyUpdated
       (λ value, PStrategy (zero_strategy <| strategy_ID := strategy_ID value |> <| strategy_Deleted := true |>)) now
       (scanStrategy <$> SliceStable (then_by (λ a b, strategy_Priority a <? strategy_Priority b)
                                              (λ a b, str_lt (strategy_Name a) (strategy_Name b))) (t_strategies d))
     ++ announcements (λ v, bool_decide (device_GroupID v = id) = true) DeviceUpdated
       (λ v, PDevice (v <| device_GroupID := "" |>)) now
       (scanDevice ttl now <$> SliceStable (λ a b, device_LastSeen b <? device_LastSeen a) (t_devices d))).
Proof.
  intros (Hm & Hr & Hs & Hv & _) _ Em Er Es Ev. rewrite !foldl_app. unfold announcements.
  rewrite foldl_members, foldl_rules, foldl_strategies, foldl_devices.
  apply replica_eq; unfold policy; rewrite ?Em, ?Er, ?Es, ?Ev.
  - apply set_eq. intros x. cbn -[list_to_set]. unfold listed_memberships.
    rewrite elem_of_difference, !elem_of_list_to_set, !list_elem_of_fmap. split.
    + intros (m & -> & [Hin Hne]%elem_of_delete_where). split; [by exists m|].
      intros (u & Heq & [Hu _]%list_elem_of_filter). apply bool_decide_eq_true_1 in Hu. congruence.
    + intros ((m & -> & Hin) & Hne). exists m. split; [done|]. apply elem_of_delete_where. split; [done|]. intros <-. apply Hne.
      exists (mkUserGroupMembership (member_GroupID m) (member_UserID m) true). split; [done|].
      apply list_elem_of_filter. split; [by apply bool_decide_eq_true_2|]. apply list_elem_of_fmap. exists m. by rewrite elem_of_SliceStable.
  - apply by_key_delete_listed; [done|apply SliceStable_perm|done|]. intros r. unfold rule_of_group.
    rewrite orb_true_iff, !andb_true_iff, !bool_decide_eq_true. done.
  - apply by_key_delete_listed; [done|apply SliceStable_perm|done|]. intros r. unfold strategy_of_group.
    rewrite andb_true_iff, orb_true_iff, !bool_decide_eq_true. done.
  - apply by_key_update_listed; [done|apply SliceStable_perm|done|done| |done]. intros r. apply bool_decide_eq_true.
Qed.

Lemma follows_deleteGroup c p id : follows (deleteGroup ttl c p id).
Proof.
  intros d h Hd. unfold deleteGroup. case_bool_decide; [apply wp_ret; by apply moves_refl|].
  do 4 (apply wp_bind, wp_try, wp_query; [done|]).
  apply wp_bind, wp_try. eapply wp_mono; [by apply wp_DeleteGroup|]. intros [[]|e] d' h' (-> & Hd' & Ht).
  - destruct Ht as (Em & Er & Es & Ev).
    apply wp_bind, wp_announce_each, wp_bind, wp_announce_each, wp_bind, wp_announce_each, wp_bind, wp_announce_each, wp_bind.
    eapply wp_mono; [by apply follows_record|]. intros r d2 h2 H2.
    assert (H1 : moves d h d2 h2).
    { eapply moves_trans; [|exact H2]. split; [done|]. eexists. split; [|by apply (deleted_group_announced id (call_now c))].
      unfold publish_all. by rewrite !foldl_app. }
    destruct r; [by apply wp_ret|done].
  - subst d'. apply wp_ret. by apply moves_refl.
Qed.
End GroupDeleted.

(** ** Every request is announced *)

(** A change is followed by its event; on an error nothing has happened. *)
Ltac change_announced L :=
  eapply follows_change; [intros; apply L; first [done | by repeat case_match]|intros ?|reflexivity|intros ?].

Ltac follow_step :=
  lazymatch goal with
  | |- ∀ _, _ => intros ?
  | |- follows (mbind _ (try (CreateACLRule _))) => change_announced announced_CreateACLRule
  | |- follows (mbind _ (try (UpdateACLRule _))) => change_announced announced_UpdateACLRule
  | |- follows (mbind _ (try (DeleteACLRule _))) => change_announced announced_DeleteACLRule
  | |- follows (mbind _ (try (CreateStrategy _))) => change_announced announced_CreateStrategy
  | |- follows (mbind _ (try (UpdateStrategy _))) => change_announced announced_UpdateStrategy
  | |- follows (mbind _ (try (DeleteStrategy _ _))) => change_announced announced_DeleteStrategy
  | |- follows (mbind _ (try (SetUserGroupMember _ _ _ _))) => change_announced announced_SetUserGroupMember
  | |- follows (mbind _ _) => apply follows_bind
  | |- follows (ret _) => apply follows_ret
  | |- follows (throw _) => apply follows_throw
  | |- follows (try _) => apply follows_try
  | |- follows (discard _) => apply follows_discard
  | |- follows (when _ _) => apply follows_when
  | |- follows (query _) => apply follows_query
  | |- follows (query_row _) => apply follows_query_row
  | |- follows (record _ _ _) => apply follows_record
  | |- follows (if ?b then _ else _) => destruct b eqn:?
  | |- follows (match ?x with _ => _ end) => destruct x eqn:?
  end.
Ltac follow := repeat (follow_step; cbv beta iota zeta).

Section Requests.
Context `{Unicode} (ttl : duration) (range_of : gmap string any → list (string * any)).

Lemma follows_validateACLRule now v : follows (validateACLRule ttl now v).
Proof. unfold validateACLRule, validate_subject, validate_target, FindUserByID, FindGroupByID, ListDevices. follow. Qed.
Lemma follows_validateStrategy now v : follows (validateStrategy ttl range_of now v).
Proof. unfold validateStrategy, FindUserByID, FindGroupByID, ListDevices. follow. Qed.

(** The table of the groups is not policy. *)
Lemma follows_CreateGroup group : follows (CreateGroup group).
Proof.
  intros d h Hd. apply wp_sql_insert; [done| |intros _; by apply moves_refl].
  intros d' -> _. by apply moves_same.
Qed.
Lemma follows_UpdateGroup group : follows (UpdateGroup group).
Proof.
  intros d h Hd. apply wp_bind, wp_sql_update; [done| |intros _; by apply moves_refl].
  intros d' -> _. case_bool_decide; [apply wp_throw|apply wp_ret]; by apply moves_same.
Qed.

Lemma follows_acl r : plain_request (AskRules r) → follows (serve_acl ttl r).
Proof.
  destruct r as [fresh c p [v|]|id c p [v|]|id c p]; intros Hp; apply follows_discard;
    unfold createACLRule, updateACLRule, deleteACLRule; follow; by try apply follows_validateACLRule.
Qed.

Lemma follows_serve r : plain_request r → follows (serve_policy ttl range_of r).
Proof.
  destruct r as [r|c p fresh [v|]|c p id [v|]|c p id|c p fresh [[[]]|]|c p id [[]|]|c p id|c p group user active]; intros Hp;
    [by apply follows_acl|apply follows_discard..];
    unfold createStrategy, updateStrategy, deleteStrategy, createGroup, updateGroup, setGroupMember, group_event, FindGroupByID, FindUserByID;
    follow; try done; try (apply follows_validateStrategy || apply follows_CreateGroup || apply follows_UpdateGroup); try apply follows_deleteGroup.
Qed.
End Requests.

(** ** The snapshot *)

Section Served.
Context `{Unicode} (ttl : duration) (range_of : gmap string any → list (string * any)).
Implicit Types (d : DB) (h : Hub).

(** Requests served one after the other. *)
Definition serve_policies (rs : list policy_request) : M unit := for_each (λ r, meanwhile (serve_policy ttl range_of r)) rs.

Lemma follows_for_each {A} (f : A → M unit) l : Forall (λ x, follows (f x)) l → follows (for_each f l).
Proof. induction 1; [apply follows_ret|]. by apply follows_bind. Qed.

Lemma follows_serves rs : Forall plain_request rs → follows (serve_policies rs).
Proof.
  intros Hrs. apply follows_for_each. eapply Forall_impl; [exact Hrs|]. intros r Hr.
  apply follows_discard, follows_try. by apply follows_serve.
Qed.

(** The revision tells whether anything was published. *)
Lemma moves_revision d h d' h' ps :
  numbered h ps → moves d h d' h' →
  hub_revision h ≤ hub_revision h' ∧ (hub_revision h' = hub_revision h → h' = h ∧ policy d' = policy d).
Proof.
  intros [Hh Hr] (_ & qs & -> & Hp). destruct (publish_all_spec h qs) as (_ & Hrev & _); [rewrite Hh; apply trim_history_idem|].
  rewrite Hrev. split; [lia|]. intros Hq. destruct qs; [done|cbn in Hq; lia].
Qed.

Lemma moves_numbered d h d' h' ps : numbered h ps → moves d h d' h' → ∃ qs, numbered h' (ps ++ qs).
Proof. intros Hn (_ & qs & -> & _). exists qs. by apply numbered_publish. Qed.

Lemma moves_source d h d' h' ps : numbered h ps → moves d h d' h' → hub_sourceID h' = hub_sourceID h.
Proof.
  intros [Hh _] (_ & qs & -> & _). destruct (publish_all_spec h qs) as (_ & _ & Hs & _); [rewrite Hh; apply trim_history_idem|].
  exact Hs.
Qed.

(** What is listed makes the copy that the table makes. *)
Lemma by_key_listed {A V} (key : A → string) (val : A → option V) t (g : A → A) rows :
  NoDup (key <$> t) → rows ≡ₚ t → (∀ r, key (g r) = key r) → (∀ r, val (g r) = val r) →
  by_key key val (g <$> rows) = by_key key val t.
Proof.
  intros Hnd Hp Hg Hv. rewrite (by_key_perm key val t rows) by done. unfold by_key. f_equal. clear Hnd Hp.
  induction rows as [|r rows IH]; [done|]. cbn. rewrite Hg, Hv. destruct (val r); cbn; [f_equal|]; exact IH.
Qed.

(** The copy made of a snapshot without two strategies of one id. *)
Lemma live_copy snap : NoDup (strategy_ID <$> snapshot_Strategies snap) → live (copy_of snap) = replica_of snap.
Proof.
  intros Hnd. apply replica_eq; try done. cbn. apply map_eq. intros k. rewrite map_lookup_filter, !lookup_by_key by done.
  destruct (select_one _ _) as [v|]; [|done]. cbn. unfold live_strategy. destruct (strategy_Deleted v) eqn:Hv.
  - by case_guard.
  - by case_guard.
Qed.

Section Capture.
Context (g : Gateway) (requireLogin requireDeployment : bool) (others : nat → nat → list policy_request) (c : Call).
Hypothesis Hothers : ∀ a i, Forall plain_request (others a i).

Definition snapshot_made (r : option (Reply AuthSnapshot)) d h : Prop :=
  ∀ snap, r = Some (writeJSON 200 snap) →
    (live (copy_of snap) = policy d) ∧ snapshot_SourceID snap = hub_sourceID h ∧ snapshot_Revision snap = hub_revision h.

Lemma wp_the_hub (Q : res Hub → DB → Hub → Prop) d h : Q (Ok h) d h → wp false the_hub Q d h.
Proof. by intros HQ fs Hfs. Qed.

Lemma wp_meanwhile rs ps (Q : res unit → DB → Hub → Prop) d h :
  Forall plain_request rs → policy_ok d → numbered h ps →
  (∀ d' h' qs, moves d h d' h' → numbered h' qs → Q (Ok tt) d' h') →
  wp false (meanwhile (serve_policies rs)) Q d h.
Proof.
  intros Hrs Hd Hn HQ. apply wp_bind, wp_try. eapply wp_mono; [by apply follows_serves|].
  intros r d' h' Hm. apply wp_ret. destruct (moves_numbered _ _ _ _ _ Hn Hm). by eapply HQ.
Qed.

Lemma wp_control_states values (Q : res (list RelayServer) → DB → Hub → Prop) d h :
  (∀ values, Q (Ok values) d h) → wp false (relayControlState g values) Q d h.
Proof.
  revert Q. induction values as [|v values IH]; intros Q HQ; [by apply wp_ret|].
  apply wp_bind. unfold control_state, RelayCredential.
  apply wp_bind, wp_try, wp_query_row; [done|].
  destruct (select_one _ _); apply wp_ret; apply wp_bind, IH; intros; by apply wp_ret.
Qed.

(** The lists of a snapshot make the copy of the tables they were read from. *)
Lemma replica_listed d1 d2 d3 d4 snap :
  policy_ok d1 → policy_ok d2 → policy_ok d3 → policy_ok d4 →
  policy d2 = policy d1 → policy d3 = policy d1 → policy d4 = policy d1 →
  snapshot_Devices snap = scanDevice ttl (call_now c) <$> SliceStable (λ a b, device_LastSeen b <? device_LastSeen a) (t_devices d1) →
  snapshot_ACLRules snap = listed_rules d2 →
  snapshot_Strategies snap = scanStrategy <$> SliceStable (then_by (λ a b, strategy_Priority a <? strategy_Priority b)
                                                                   (λ a b, str_lt (strategy_Name a) (strategy_Name b))) (t_strategies d3) →
  snapshot_UserGroupMemberships snap = listed_memberships d4 →
  live (copy_of snap) = policy d1.
Proof.
  intros (_ & _ & _ & Hv & _) (_ & Hr & _) (_ & _ & Hs & _) (Hm & _) E2 E3 E4 Lv Lr Ls Lm.
  rewrite live_copy.
  2:{ rewrite Ls, <- list_fmap_compose. eapply NoDup_Permutation_proper; [apply fmap_Permutation, SliceStable_perm|exact Hs]. }
  unfold replica_of. rewrite Lv, Lr, Ls, Lm. apply replica_eq.
  - rewrite <- E4. change (rep_members (policy d4)) with
      (list_to_set ((λ m, (member_GroupID m, member_UserID m)) <$> t_user_group_memberships d4) : gset (string * string)).
    unfold listed_memberships. rewrite filter_all by (by intros m (r & -> & _)%list_elem_of_fmap).
    unfold replica_rows. cbn [rep_members]. apply set_eq. intros x. rewrite !elem_of_list_to_set, <- list_fmap_compose.
    apply elem_of_Permutation_proper. by rewrite SliceStable_perm.
  - rewrite <- E2. apply by_key_listed; [done|apply SliceStable_perm|done..].
  - rewrite <- E3. apply by_key_listed; [done|apply SliceStable_perm|done..].
  - apply by_key_listed; [done|apply SliceStable_perm|done..].
Qed.

Lemma wp_capture a ps d h :
  policy_ok d → numbered h ps →
  wp false (capture g ttl requireLogin requireDeployment (λ a i, serve_policies (others a i)) c a)
    (λ r d' h', moves d h d' h' ∧ ∀ reply, r = Ok reply → snapshot_made reply d' h') d h.
Proof.
  intros Hd0 Hn0. unfold capture.
  apply wp_bind, (wp_meanwhile _ ps); [done..|]. intros d1 h1 q1 M1 N1.
  apply wp_bind, wp_the_hub.
  apply wp_bind, (wp_meanwhile _ q1); [done|by apply M1|done|]. intros d2 h2 q2 M2 N2.
  apply wp_bind, wp_try, wp_bind, wp_query; [done|]. apply wp_bind, wp_query; [done|]. apply wp_ret.
  apply wp_bind, (wp_meanwhile _ q2); [done|by apply M2|done|]. intros d3 h3 q3 M3 N3.
  apply wp_bind, wp_try, wp_query; [done|].
  apply wp_bind, (wp_meanwhile _ q3); [done|by apply M3|done|]. intros d4 h4 q4 M4 N4.
  apply wp_bind, wp_try, wp_query; [done|].
  apply wp_bind, (wp_meanwhile _ q4); [done|by apply M4|done|]. intros d5 h5 q5 M5 N5.
  apply wp_bind, wp_try, wp_query; [done|].
  apply wp_bind, (wp_meanwhile _ q5); [done|by apply M5|done|]. intros d6 h6 q6 M6 N6.
  apply wp_bind, wp_try, wp_query; [done|].
  apply wp_bind, (wp_meanwhile _ q6); [done|by apply M6|done|]. intros d7 h7 q7 M7 N7.
  apply wp_bind, wp_try, wp_query; [done|].
  apply wp_bind, wp_control_states. intros controlled.
  apply wp_bind, (wp_meanwhile _ q7); [done|by apply M7|done|]. intros d8 h8 q8 M8 N8.
  apply wp_bind, wp_the_hub, wp_ret. split.
  { do 7 (eapply moves_trans; [eassumption|]). exact M8. }
  intros reply [= <-] snap Hsnap. destruct (hub_revision h1 =? hub_revision h8) eqn:Heq; [|done]. apply Z.eqb_eq in Heq.
  injection Hsnap as <-.
  destruct (moves_revision _ _ _ _ _ N1 M2) as [L2 E2]. destruct (moves_revision _ _ _ _ _ N2 M3) as [L3 E3].
  destruct (moves_revision _ _ _ _ _ N3 M4) as [L4 E4]. destruct (moves_revision _ _ _ _ _ N4 M5) as [L5 E5].
  destruct (moves_revision _ _ _ _ _ N5 M6) as [L6 E6]. destruct (moves_revision _ _ _ _ _ N6 M7) as [L7 E7].
  destruct (moves_revision _ _ _ _ _ N7 M8) as [L8 E8].
  destruct E4 as [_ E4]; [lia|]. destruct E5 as [_ E5]; [lia|]. destruct E6 as [_ E6]; [lia|].
  destruct E7 as [_ E7]; [lia|]. destruct E8 as [-> E8]; [lia|].
  split; [|done]. rewrite E8, E7, E6, E5, E4.
  apply (replica_listed d3 d4 d5 d6); [by apply M3|by apply M4|by apply M5|by apply M6|congruence..| | | |]; reflexivity.
Qed.

Lemma wp_captures n a ps d h :
  policy_ok d → numbered h ps →
  wp false (captures g ttl requireLogin requireDeployment (λ a i, serve_policies (others a i)) c n a)
    (λ r d' h', moves d h d' h' ∧ ∀ reply, r = Ok reply → snapshot_made (Some reply) d' h') d h.
Proof.
  revert a ps d h. induction n as [|n IH]; intros a ps d h Hd Hn.
  - apply wp_ret. split; [by apply moves_refl|]. by intros reply [= <-] snap.
  - apply wp_bind. eapply wp_mono; [by eapply wp_capture|]. intros [[reply|]|e] d1 h1 [M1 Hr].
    + apply wp_ret. split; [done|]. intros ? [= <-]. by apply Hr.
    + destruct (moves_numbered _ _ _ _ _ Hn M1) as [qs N1].
      eapply wp_mono; [eapply IH; [apply M1|exact N1]|]. intros r d2 h2 [M2 Hr2]. split; [|done]. by eapply moves_trans.
    + by split.
Qed.
End Capture.

(** *** The cache follows the stream *)

Lemma live_apply ty p r : live (apply_event ty p r) = apply_event ty p (live r).
Proof.
  destruct p; cbn; try done; case_bool_decide; try done; apply replica_eq; try done. cbn.
  destruct (strategy_Deleted _) eqn:Hd; [by rewrite map_filter_delete|]. by rewrite map_filter_insert_True.
Qed.

(** A type that sync.rs skips says nothing about the policy. *)
Lemma apply_event_skipped ty p r : ty ∉ applied_types → apply_event ty p r = r.
Proof.
  intros Hty. unfold applied_types in Hty.
  destruct p; cbn; try done; (rewrite bool_decide_false; [done|]); intros ->; apply Hty; set_solver.
Qed.

(** Events numbered on from the revision of the cache are all taken. *)
Lemma cache_events decodes src base rev ps r :
  rev ≤ base → Forall (λ e, decodes (event_Payload e) = true) (events_from src base ps) →
  live (cache_copy (consume_events decodes (mkCache src rev r) (events_from src base ps))) = foldl apply_pub (live r) ps.
Proof.
  revert base rev r. induction ps as [|p ps IH]; intros base rev r Hrev Hdec; [done|].
  cbn [events_from] in Hdec. apply Forall_cons in Hdec as [Hp Hdec]. cbn [events_from consume_events foldl].
  unfold cache_event. cbn [event_Type event_SourceID event_Revision event_Payload] in Hp |- *. rewrite Hp.
  case_bool_decide as Hty; cbn [negb].
  - unfold accept_revision. cbn [cache_source cache_revision]. rewrite bool_decide_true by done. cbn [negb].
    destruct (Z.ltb_spec rev (base + 1)); [|lia]. cbn.
    etransitivity; [apply (IH (base + 1) (base + 1) (apply_event (pub_type p) (pub_payload p) r)); [lia|done]|].
    by rewrite live_apply.
  - etransitivity; [apply (IH (base + 1) rev r); [lia|done]|]. f_equal.
    unfold apply_pub. by rewrite apply_event_skipped.
Qed.

(** C12: the cache of a rendezvous server that takes a snapshot (not older than
    what it has of that source) and then the stream of events decides by the
    policy of the tables: its members of groups, rules, strategies and devices
    (key, owner and group) are those of the database, under these conditions.
    Between the reads of the snapshot, before the subscription and after it, whole
    requests of eight kinds are served one after the other: the creation, update
    and deletion of rules and of strategies, the creation, update and deletion of
    groups, and the membership of a user in a group ([policy_request]); no body
    marks a rule or strategy as deleted; no statement of the database fails; at
    most 1024 events are published between the snapshot and the subscription,
    at most 64 wait in its channel, and every payload of the stream decodes.  The
    payloads of the deletions of rules and strategies do not, as
    [deleted_rule_stops_stream] shows: they reach the cache with a later snapshot,
    for which the theorem holds again, since it asks nothing of the copy that the
    cache had.  (Other requests announce less than they change: [updateDevice]
    publishes no event.) *)
Theorem replica_converges decodes g requireLogin requireDeployment others c rs1 rs2 ps w snap w1 id backlog w3 old :
  policy_ok (w_db w) → w_faults w = [] → numbered (w_hub w) ps →
  (∀ a i, Forall plain_request (others a i)) → Forall plain_request rs1 → Forall plain_request rs2 →
  authSnapshot g ttl requireLogin requireDeployment (λ a i, serve_policies (others a i)) c w = (Ok (writeJSON 200 snap), w1) →
  (cache_source old = snapshot_SourceID snap → cache_revision old ≤ snapshot_Revision snap) →
  let w2 := (serve_policies rs1 w1).2 in
  let taken := cache_replace old snap in
  hub_subscribe (cache_source taken) (cache_revision taken) w2 = (Ok (id, backlog), w3) →
  let w4 := (serve_policies rs2 w3).2 in
  hub_revision (w_hub w2) - snapshot_Revision snap ≤ 1024 → hub_revision (w_hub w4) - hub_revision (w_hub w2) ≤ 64 →
  ∃ chan, hub_subscribers (w_hub w4) !! id = Some chan
          ∧ (Forall (λ e, decodes (event_Payload e) = true) (backlog ++ chan) →
             live (cache_copy (consume_events decodes taken (backlog ++ chan))) = policy (w_db w4)).
Proof.
  intros Hd Hf Hn Hothers Hrs1 Hrs2 Hsnap Hold w2 taken Hsub w4 Hlim1 Hlim2.
  assert (Htaken : taken = mkCache (snapshot_SourceID snap) (snapshot_Revision snap) (copy_of snap)).
  { unfold taken, cache_replace. case_bool_decide as Hs; [|done]. destruct (Z.ltb_spec (snapshot_Revision snap) (cache_revision old)); [|done].
    specialize (Hold (eq_sym Hs)). lia. }
  rewrite Htaken in Hsub |- *. cbn [cache_source cache_revision] in Hsub. clear Htaken Hold taken.
  destruct (wp_run_faults (F:=false) _ _ w Hf (wp_captures g requireLogin requireDeployment others c Hothers 3 0 ps _ _ Hd Hn)) as [[M1 Hmade] F1].
  unfold authSnapshot in Hsnap. rewrite Hsnap in M1, Hmade, F1. cbn in M1, Hmade, F1.
  destruct (Hmade _ eq_refl _ eq_refl) as (Hrep & Hsrc & Hrev).
  destruct (moves_numbered _ _ _ _ _ Hn M1) as [qs0 N1]. destruct M1 as [Hd1 _].
  destruct (follows_run _ w1 (follows_serves rs1 Hrs1) Hd1 F1) as [M2 F2]. fold w2 in M2, F2.
  pose proof (moves_source _ _ _ _ _ N1 M2) as Hsrc2. destruct M2 as (Hd2 & qs1 & Hh2 & Hp2).
  assert (N2 : numbered (w_hub w2) ((ps ++ qs0) ++ qs1)) by (rewrite Hh2; by apply numbered_publish).
  unfold hub_subscribe in Hsub. rewrite Hsrc, <- Hsrc2, Hrev in Hsub.
  destruct (SubscribeAfter _ _ _) as [[id' backlog'] h3] eqn:Hh3. injection Hsub as -> -> <-.
  destruct (follows_run (serve_policies rs2) (w2 <| w_hub := h3 |>) (follows_serves rs2 Hrs2)) as [(_ & qs2 & Hh4 & Hp4) _]; [by clearbody w2; cbn..|].
  fold w4 in Hh4, Hp4. cbn in Hh4, Hp4.
  assert (N4 : numbered (w_hub w4) (((ps ++ qs0) ++ qs1) ++ qs2)).
  { rewrite Hh4. apply numbered_publish. by injection Hh3 as _ _ <-. }
  rewrite Hrev in Hlim1. rewrite (proj2 N1), (proj2 N2), !length_app in Hlim1.
  rewrite (proj2 N4), (proj2 N2), !length_app in Hlim2. rewrite (proj2 N1) in Hh3.
  destruct (stream_no_gap _ _ (length (ps ++ qs0)) qs2 id backlog h3 N2) as (chan & Hchan & Hall).
  1,2,3: rewrite ?length_app; unfold historyLimit, channelCapacity; lia.
  { exact Hh3. }
  exists chan. rewrite Hh4, Hall. split; [exact Hchan|]. intros Hdec. rewrite Hsrc2, <- Hsrc in *.
  rewrite Hrev, (proj2 N1). rewrite cache_events by done.
  rewrite drop_app_length, foldl_app, Hrep, <- Hp2, Hp4. done.
Qed.
End Served.

(** ** The theorem at a concrete installation

    Between the reads of the first attempt another request deletes a rule, so
    that the second attempt succeeds; a rule is created before the subscription;
    after it a member leaves a group and a rule is changed. *)

Definition ex_root : Principal := mkPrincipal (ex_user "u0" "root" RoleAdmin) (ex_session "s1" "u0") ex_claims.
Definition ex_policy_world : world := ex_acl_world ex_rules.
Definition ex_others (a i : nat) : list policy_request :=
  match a, i with 0%nat, 4%nat => [AskRules (AskDeleteRule "r2" ex_acl_call ex_root)] | _, _ => [] end.
Definition ex_before : list policy_request :=
  [AskRules (AskCreateRule "r9" ex_acl_call ex_root (Some (ex_rule "" 0 "Deny" "user" "u1" <| acl_Name := "no alice" |>)))].
Definition ex_after : list policy_request :=
  [AskSetMember ex_acl_call ex_root "g1" "u1" false;
   AskRules (AskUpdateRule "r1" ex_acl_call ex_root (Some (ex_rule "" 30 "deny" "user_group" "g1" <| acl_Name := "the group" |>)))].

Definition ex_serve (rs : list policy_request) : M unit := @serve_policies ascii_unicode 0 map_to_list rs.
Definition ex_snapshot_run : res (Reply AuthSnapshot) * world :=
  authSnapshot Gateway.New 0 true true (λ a i, ex_serve (ex_others a i)) ex_acl_call ex_policy_world.
Definition ex_snapshot : AuthSnapshot :=
  match ex_snapshot_run.1 with
  | Ok (mkReply _ (Http.Value snap)) => snap
  | _ => mkAuthSnapshot true true "" 0 0 [] [] [] [] [] [] []
  end.
Definition ex_stream : res (Z * list Event) * world :=
  hub_subscribe (snapshot_SourceID ex_snapshot) (snapshot_Revision ex_snapshot) (ex_serve ex_before ex_snapshot_run.2).2.

(** A decoder that refuses the null lists. *)
Definition ex_decodes (p : payload) : bool :=
  match p with
  | PACLRule v => negb (bool_decide (acl_Permissions v = []))
  | PStrategy v => negb (bool_decide (strategy_Settings v = ∅))
  | _ => true
  end.

(** A cache that was never filled. *)
Definition ex_cache : cache := mkCache "" 0 (mkReplica ∅ ∅ ∅ ∅).

Lemma ex_policy_ok : policy_ok (w_db ex_policy_world).
Proof.
  split_and!.
  - apply (bool_decide_eq_true_1 (user_group_memberships_ok _)). vm_compute. reflexivity.
  - apply (bool_decide_eq_true_1 (acl_rules_ok _)). vm_compute. reflexivity.
  - apply (bool_decide_eq_true_1 (strategies_ok _)). vm_compute. reflexivity.
  - apply (bool_decide_eq_true_1 (devices_ok _)). vm_compute. reflexivity.
  - intros rule Hr. cbn in Hr. by repeat (apply elem_of_cons in Hr as [->|Hr]; [done|]); apply not_elem_of_nil in Hr.
Qed.

Lemma replica_converges_witness :
  ∃ chan, hub_subscribers (w_hub (ex_serve ex_after ex_stream.2).2) !! 1 = Some chan
          ∧ live (cache_copy (consume_events ex_decodes (cache_replace ex_cache ex_snapshot)
                    (match ex_stream.1 with Ok s => s.2 | Err _ => [] end ++ chan)))
            = policy (w_db (ex_serve ex_after ex_stream.2).2).
Proof.
  edestruct (@replica_converges ascii_unicode 0 map_to_list ex_decodes Gateway.New true true ex_others ex_acl_call ex_before ex_after []
    ex_policy_world ex_snapshot ex_snapshot_run.2 1
    (match ex_stream.1 with Ok s => s.2 | Err _ => [] end) ex_stream.2 ex_cache) as (chan & Hchan & Hlive).
  - apply ex_policy_ok.
  - reflexivity.
  - by split.
  - intros [|a] i; [|constructor]. do 5 (destruct i as [|i]; [repeat constructor|]). constructor.
  - repeat constructor.
  - repeat constructor.
  - vm_compute. reflexivity.
  - vm_compute. discriminate.
  - vm_compute. reflexivity.
  - vm_compute. discriminate.
  - vm_compute. discriminate.
  - exists chan. split; [exact Hchan|]. apply Hlive. apply Forall_app. split.
    + apply (bool_decide_eq_true_1 (Forall _ _)). vm_compute. reflexivity.
    + assert (Some chan = hub_subscribers (w_hub (ex_serve ex_after ex_stream.2).2) !! 1) as Hc by (symmetry; exact Hchan).
      vm_compute in Hc. injection Hc as ->. apply (bool_decide_eq_true_1 (Forall _ _)). vm_compute. reflexivity.
Defined.

(** The events of a deletion end the stream: a rule is deleted, and a cache with
    the policy of before keeps it, whatever follows in the stream, each time it
    subscribes with its cursor, until it takes a newer snapshot. *)
Theorem deleted_rule_stops_stream decodes :
  (∀ v, acl_Permissions v = [] → decodes (PACLRule v) = false) →
  let w := (ex_serve [AskRules (AskDeleteRule "r2" ex_acl_call ex_root)] ex_policy_world).2 in
  let c := mkCache "src" 0 (policy (w_db ex_policy_world)) in
  acl_ID <$> t_acl_rules (w_db w) = ["r1"; "r3"] ∧ is_Some (rep_rules (cache_copy c) !! "r2")
  ∧ ∃ id backlog w', hub_subscribe (cache_source c) (cache_revision c) w = (Ok (id, backlog), w')
      ∧ ∀ later, consume_events decodes c (backlog ++ later) = c.
Proof.
  intros Hdec w c. split; [vm_compute; reflexivity|]. split; [vm_compute; by eexists|]. eexists _, _, _. split; [reflexivity|]. intros later.
  match goal with |- consume_events _ _ (?b ++ _) = _ => assert (∃ e es, b = e :: es ∧ event_Type e = ACLUpdated
    ∧ ∃ v, event_Payload e = PACLRule v ∧ acl_Permissions v = []) as (e & es & -> & Hty & v & Hp & Hv) end.
  { eexists _, _. split; [vm_compute; reflexivity|]. split; [reflexivity|]. eexists. split; reflexivity. }
  cbn [consume_events app]. unfold cache_event. rewrite bool_decide_true by (rewrite Hty; vm_compute; set_solver).
  cbn [negb]. by rewrite Hp, (Hdec v Hv).
Qed.

(** Why a body that marks its rule as deleted is excluded: the table stores the
    rule as live, the event removes it from the copies. *)
Theorem deleted_mark_splits_policy :
  let mark := AskRules (AskCreateRule "r9" ex_acl_call ex_root
    (Some (ex_rule "" 0 "deny" "user" "u1" <| acl_Name := "no alice" |> <| acl_Deleted := true |>))) in
  let w := (ex_serve [mark] ex_policy_world).2 in
  acl_ID <$> t_acl_rules (w_db w) = ["r1"; "r2"; "r3"; "r9"] ∧ (acl_Deleted <$> t_acl_rules (w_db w)) = [false; false; false; false]
  ∧ rep_rules (cache_copy (consume_events ex_decodes (mkCache "api" 0 (policy (w_db ex_policy_world))) (hub_history (w_hub w)))) !! "r9" = None.
Proof. vm_compute. split_and!; reflexivity. Qed.
