(* ===== verification/Csv.v ===== *)
(** * Comma-separated values (encoding/csv)

    What the export and the import of devices and the export of the audit use of
    the package: the writer, and the reader of a whole file with records of any
    length.  The separator is an ASCII byte. *)

From S2P Require Export Text.

Definition quote_byte : Ascii.ascii := ascii_of 34.
Definition newline_byte : Ascii.ascii := ascii_of 10.
Definition return_byte : Ascii.ascii := ascii_of 13.

Section Csv.
Context `{Unicode} (comma : Ascii.ascii).

(** ** [Writer.Write] *)

Definition special (a : Ascii.ascii) : bool :=
  bool_decide (a = comma) || bool_decide (a = quote_byte) || bool_decide (a = newline_byte) || bool_decide (a = return_byte).

(** [unicode.IsSpace] of the first rune. *)
Definition leading_space (field : bytes) : bool :=
  match field with
  | [] => false
  | a :: _ => if byte a <? 128 then space_byte a else match runes field with r :: _ => IsSpace r | [] => false end
  end.

Definition fieldNeedsQuotes (field : bytes) : bool :=
  match field with
  | [] => false
  | _ => bool_decide (field = bytes_of "\.") || existsb special field
         || leading_space field
  end.

Definition double_quotes (field : bytes) : bytes :=
  mjoin ((λ a, if bool_decide (a = quote_byte) then [quote_byte; quote_byte] else [a]) <$> field).
Definition write_field (field : bytes) : bytes :=
  if fieldNeedsQuotes field then quote_byte :: double_quotes field ++ [quote_byte] else field.

(** The fields with the separator between them. *)
Fixpoint write_fields (fields : list bytes) : bytes :=
  match fields with
  | [] => []
  | [field] => write_field field
  | field :: rest => write_field field ++ comma :: write_fields rest
  end.
Definition write_record (fields : list bytes) : bytes := write_fields fields ++ [newline_byte].
Definition write_records (records : list (list bytes)) : bytes := mjoin (write_record <$> records).

(** ** [Reader.ReadAll] *)

(** [readLine]: CR LF is LF, and a CR at the end of the file is dropped. *)
Fixpoint normalize (l : bytes) : bytes :=
  match l with
  | [] => []
  | a :: l' =>
      if bool_decide (a = return_byte) then
        match l' with
        | [] => []
        | b :: _ => if bool_decide (b = newline_byte) then normalize l' else a :: normalize l'
        end
      else a :: normalize l'
  end.

(** Where [readRecord] stands. *)
Inductive place_in :=
| AtRecord                                           (* before a record; empty lines are skipped *)
| AtField (done : list bytes)
| InPlain (done : list bytes) (field : bytes)
| InQuoted (done : list bytes) (field : bytes)
| AfterQuote (done : list bytes) (field : bytes).

(** What a byte that ends the field does. *)
Definition ends (a : Ascii.ascii) : bool := bool_decide (a = comma) || bool_decide (a = newline_byte).

(** [None]: a quote where none may be, or a quoted field without its end. *)
Fixpoint read_from (p : place_in) (l : bytes) : option (list (list bytes)) :=
  let start := λ done a l',
    if bool_decide (a = quote_byte) then read_from (InQuoted done []) l'
    else if bool_decide (a = comma) then read_from (AtField (done ++ [[]])) l'
    else if bool_decide (a = newline_byte) then cons (done ++ [[]]) <$> read_from AtRecord l'
    else read_from (InPlain done [a]) l' in
  match p, l with
  | AtRecord, [] => Some []
  | AtField done, [] => Some [done ++ [[]]]
  | InPlain done field, [] => Some [done ++ [field]]
  | InQuoted _ _, [] => None
  | AfterQuote done field, [] => Some [done ++ [field]]
  | AtRecord, a :: l' => if bool_decide (a = newline_byte) then read_from AtRecord l' else start [] a l'
  | AtField done, a :: l' => start done a l'
  | InPlain done field, a :: l' =>
      if bool_decide (a = comma) then read_from (AtField (done ++ [field])) l'
      else if bool_decide (a = newline_byte) then cons (done ++ [field]) <$> read_from AtRecord l'
      else if bool_decide (a = quote_byte) then None
      else read_from (InPlain done (field ++ [a])) l'
  | InQuoted done field, a :: l' =>
      if bool_decide (a = quote_byte) then read_from (AfterQuote done field) l'
      else read_from (InQuoted done (field ++ [a])) l'
  | AfterQuote done field, a :: l' =>
      if bool_decide (a = quote_byte) then read_from (InQuoted done (field ++ [quote_byte])) l'
      else if bool_decide (a = comma) then read_from (AtField (done ++ [field])) l'
      else if bool_decide (a = newline_byte) then cons (done ++ [field]) <$> read_from AtRecord l'
      else None
  end.
Definition ReadAll (l : bytes) : option (list (list bytes)) := read_from AtRecord (normalize l).

End Csv.

(** ** What is written is read *)

Section Roundtrip.
Context `{Unicode} (comma : Ascii.ascii).
Hypothesis comma_plain : comma ≠ quote_byte ∧ comma ≠ newline_byte ∧ comma ≠ return_byte.
Implicit Types (field l : bytes) (finished : list bytes).

Lemma normalize_plain l : return_byte ∉ l → normalize l = l.
Proof.
  induction l as [|a l IH]; intros Hr; [done|]. apply not_elem_of_cons in Hr as [Ha Hr]. cbn.
  rewrite bool_decide_false by congruence. by rewrite IH.
Qed.

Lemma read_quoted finished acc field l :
  head l ≠ Some quote_byte →
  read_from comma (InQuoted finished acc) (double_quotes field ++ quote_byte :: l)
  = read_from comma (AfterQuote finished (acc ++ field)) l.
Proof.
  intros Hl. induction field as [|a field IH] in acc |- *.
  - rewrite app_nil_r. reflexivity.
  - change (double_quotes (a :: field)) with ((if bool_decide (a = quote_byte) then [quote_byte; quote_byte] else [a]) ++ double_quotes field).
    rewrite <- app_assoc. replace (acc ++ a :: field) with ((acc ++ [a]) ++ field) by by rewrite <- app_assoc.
    rewrite <- IH. case_bool_decide as Ha; [subst a; reflexivity|]. cbn [app read_from]. by rewrite bool_decide_false.
Qed.

Lemma read_plain finished acc field l :
  existsb (special comma) field = false →
  read_from comma (InPlain finished acc) (field ++ l) = read_from comma (InPlain finished (acc ++ field)) l.
Proof.
  induction field as [|a field IH] in acc |- *; intros Hs; [by rewrite app_nil_r|].
  cbn in Hs. apply orb_false_iff in Hs as [Ha Hs]. unfold special in Ha.
  rewrite !orb_false_iff, !bool_decide_eq_false in Ha. destruct Ha as [[[Hc Hq] Hn] _].
  cbn [app read_from]. rewrite !bool_decide_false, IH by done. by rewrite <- app_assoc.
Qed.

(** What follows a field. *)
Definition after_field finished field a l : option (list (list bytes)) :=
  if bool_decide (a = comma) then read_from comma (AtField (finished ++ [field])) l
  else cons (finished ++ [field]) <$> read_from comma AtRecord l.

Lemma read_first finished field a l :
  ends comma a = true → fieldNeedsQuotes comma field = false → field ≠ [] →
  read_from comma (AtField finished) (field ++ a :: l) = after_field finished field a l
  ∧ read_from comma AtRecord (field ++ a :: l) = after_field [] field a l.
Proof.
  intros Ha Hf Hne. destruct field as [|b field]; [done|]. unfold fieldNeedsQuotes in Hf.
  rewrite !orb_false_iff in Hf. destruct Hf as [[_ Hs] _]. cbn in Hs. apply orb_false_iff in Hs as [Hb Hs].
  unfold special in Hb. rewrite !orb_false_iff, !bool_decide_eq_false in Hb. destruct Hb as [[[Hc Hq] Hn] _].
  assert (Hend : ∀ fin, read_from comma (InPlain fin [b]) (field ++ a :: l) = after_field fin (b :: field) a l).
  { intros fin. rewrite read_plain by done. cbn [read_from app]. unfold after_field, ends in *.
    apply orb_true_iff in Ha as [->| Hnl]; [done|]. destruct (bool_decide (a = comma)); [done|]. by rewrite Hnl. }
  cbn [app read_from]. by rewrite !bool_decide_false, !Hend by done.
Qed.

Lemma read_field finished field a l :
  ends comma a = true →
  read_from comma (AtField finished) (write_field comma field ++ a :: l) = after_field finished field a l
  ∧ (field ≠ [] ∨ a = comma → read_from comma AtRecord (write_field comma field ++ a :: l) = after_field [] field a l).
Proof.
  intros Ha. destruct comma_plain as (Cq & Cn & _).
  assert (Hq : a ≠ quote_byte) by (unfold ends in Ha; apply orb_true_iff in Ha as [->%bool_decide_eq_true| ->%bool_decide_eq_true]; done).
  unfold write_field. destruct (fieldNeedsQuotes comma field) eqn:Hf.
  - assert (Hend : ∀ fin, read_from comma (InQuoted fin []) (double_quotes field ++ quote_byte :: a :: l) = after_field fin field a l).
    { intros fin. rewrite read_quoted by (cbn; congruence). cbn [read_from app]. rewrite bool_decide_false by done.
      unfold after_field, ends in *. apply orb_true_iff in Ha as [->| Hnl]; [done|]. destruct (bool_decide (a = comma)); [done|]. by rewrite Hnl. }
    cbn [app]. rewrite <- app_assoc. cbn [app].
    assert (bool_decide (quote_byte = newline_byte) = false) as Hqn by done.
    cbn [read_from]. rewrite !bool_decide_true, Hqn, Hend by done. by rewrite !Hend.
  - destruct (decide (field = [])) as [->|Hne].
    + cbn [app read_from]. rewrite !(bool_decide_false (a = quote_byte)) by done. unfold after_field, ends in *.
      apply orb_true_iff in Ha. split.
      * destruct Ha as [->|Hnl]; [done|]. destruct (bool_decide (a = comma)); [done|]. by rewrite Hnl.
      * intros [|Hac]; [done|]. subst a. by rewrite bool_decide_false, !(bool_decide_true (comma = comma)).
    + destruct (read_first finished field a l Ha Hf Hne) as [-> ->]. done.
Qed.

Lemma read_fields finished fields l :
  fields ≠ [] →
  read_from comma (AtField finished) (write_fields comma fields ++ newline_byte :: l)
  = cons (finished ++ fields) <$> read_from comma AtRecord l.
Proof.
  destruct comma_plain as (_ & Cn & _).
  induction fields as [|field fields IH] in finished |- *; intros Hne; [done|]. destruct fields as [|f2 fields].
  - cbn [write_fields]. destruct (read_field finished field newline_byte l) as [-> _]; [apply orb_true_r|].
    unfold after_field. by rewrite bool_decide_false.
  - change (write_fields comma (field :: f2 :: fields)) with (write_field comma field ++ comma :: write_fields comma (f2 :: fields)).
    rewrite <- app_assoc. cbn [app].
    destruct (read_field finished field comma (write_fields comma (f2 :: fields) ++ newline_byte :: l)) as [-> _];
      [by unfold ends; rewrite bool_decide_true|].
    unfold after_field. rewrite bool_decide_true, IH by done. by rewrite <- app_assoc.
Qed.

(** A record that is written as an empty line is skipped. *)
Definition readable (fields : list bytes) : Prop := fields ≠ [] ∧ fields ≠ [[]].

Lemma read_record fields l :
  readable fields →
  read_from comma AtRecord (write_record comma fields ++ l) = cons fields <$> read_from comma AtRecord l.
Proof.
  destruct comma_plain as (_ & Cn & _).
  intros [Hne Hline]. unfold write_record. rewrite <- app_assoc. cbn [app]. destruct fields as [|field [|f2 fields]]; [done|..].
  - cbn [write_fields]. destruct (read_field [] field newline_byte l) as [_ Hread]; [apply orb_true_r|].
    rewrite Hread by (left; congruence). unfold after_field. by rewrite bool_decide_false.
  - change (write_fields comma (field :: f2 :: fields)) with (write_field comma field ++ comma :: write_fields comma (f2 :: fields)).
    rewrite <- app_assoc. cbn [app].
    destruct (read_field [] field comma (write_fields comma (f2 :: fields) ++ newline_byte :: l)) as [_ Hread];
      [by unfold ends; rewrite bool_decide_true|].
    rewrite Hread by by right. unfold after_field. rewrite bool_decide_true, read_fields by done. done.
Qed.

Lemma write_field_no_return field : return_byte ∉ field → return_byte ∉ write_field comma field.
Proof.
  intros Hr. unfold write_field. destruct (fieldNeedsQuotes comma field); [|done].
  rewrite elem_of_cons, elem_of_app, list_elem_of_singleton. intros [?|[Hin|?]]; [done| |done].
  apply Hr. unfold double_quotes in Hin. apply list_elem_of_join in Hin as (x & Hx & (a & -> & Ha)%list_elem_of_fmap).
  case_bool_decide; [|by apply list_elem_of_singleton in Hx as ->].
  repeat (apply elem_of_cons in Hx as [?|Hx]; [done|]). by apply not_elem_of_nil in Hx.
Qed.

Lemma write_record_no_return fields :
  Forall (λ field, return_byte ∉ field) fields → return_byte ∉ write_record comma fields.
Proof.
  destruct comma_plain as (_ & _ & Cr).
  intros Hf. unfold write_record. rewrite elem_of_app, list_elem_of_singleton. intros [Hin|?]; [|done].
  induction Hf as [|field fields Hfield Hf IH]; [by destruct (not_elem_of_nil return_byte)|].
  destruct fields as [|f2 fields]; [exact (write_field_no_return field Hfield Hin)|].
  cbn [write_fields] in Hin. rewrite elem_of_app, elem_of_cons in Hin. destruct Hin as [Hin|[Hin|Hin]].
  - exact (write_field_no_return field Hfield Hin).
  - congruence.
  - by apply IH.
Qed.

(** A file of records whose fields have no carriage return is read as written. *)
Lemma read_written records :
  Forall readable records → Forall (Forall (λ field, return_byte ∉ field)) records →
  ReadAll comma (write_records comma records) = Some records.
Proof.
  intros Hr Hn. unfold ReadAll. rewrite normalize_plain.
  - unfold write_records. induction Hr as [|fields records Hf Hr IH]; [done|]. inversion_clear Hn.
    change (mjoin (write_record comma <$> fields :: records)) with (write_record comma fields ++ mjoin (write_record comma <$> records)).
    rewrite read_record by done. by rewrite IH.
  - unfold write_records. intros (x & Hx & (fields & -> & Hin)%list_elem_of_fmap)%list_elem_of_join.
    rewrite Forall_forall in Hn. exact (write_record_no_return fields (Hn _ Hin) Hx).
Qed.
End Roundtrip.
