(* ===== verification/DeviceApi.v ===== *)
(** * Devices in the console (art-api/internal/httpapi: server.go, devices_csv.go)

    Listing, changing, archiving and deleting devices, and their export to and
    import from CSV files. *)

From S2P Require Export GroupApi Csv.
From S2P Require Import AddressBookApi Sample.

(** ** Text *)

Definition comma_byte : Ascii.ascii := ascii_of 44.
Definition semicolon_byte : Ascii.ascii := ascii_of 59.
Definition byte_order_mark : bytes := ascii_of <$> [239; 187; 191].

(** The proleptic Gregorian date of a day counted from 1970-01-01. *)
Definition civil_date (days : Z) : Z * Z * Z :=
  let z := days + 719468 in
  let era := z / 146097 in
  let day_of_era := z mod 146097 in
  let year_of_era := (day_of_era - day_of_era / 1460 + day_of_era / 36524 - day_of_era / 146096) / 365 in
  let day_of_year := day_of_era - (365 * year_of_era + year_of_era / 4 - year_of_era / 100) in
  let month := (5 * day_of_year + 2) / 153 in
  let day := day_of_year - (153 * month + 2) / 5 + 1 in
  let month := if month <? 10 then month + 3 else month - 9 in
  (year_of_era + era * 400 + (if month <=? 2 then 1 else 0), month, day).

Definition two_digits (z : Z) : bytes := zero_padded 2 (digits 20 z).
(** [t.UTC().Format("2006-01-02T15:04:05Z07:00")] *)
Definition format_time (t : time) : string :=
  let days := t / (24 * hour) in
  let seconds := t mod (24 * hour) / second in
  let '(year, month, day) := civil_date days in
  let year := if year <? 0 then ascii_of 45 :: zero_padded 4 (digits 20 (- year)) else zero_padded 4 (digits 20 year) in
  of_bytes (year ++ bytes_of "-" ++ two_digits month ++ bytes_of "-" ++ two_digits day ++ bytes_of "T"
            ++ two_digits (seconds / 3600) ++ bytes_of ":" ++ two_digits (seconds / 60 mod 60) ++ bytes_of ":"
            ++ two_digits (seconds mod 60) ++ bytes_of "Z").

Example format_time_1 : format_time 0 = "1970-01-01T00:00:00Z". Proof. reflexivity. Qed.
Example format_time_2 : format_time (1709210096 * second) = "2024-02-29T12:34:56Z". Proof. reflexivity. Qed.
Example format_time_3 : format_time zero_time = "0001-01-01T00:00:00Z". Proof. reflexivity. Qed.

(** ** The handlers *)

(** The body of [updateDevice] and of [bulkUpdateDevices]. *)
Record deviceUpdate := mkDeviceUpdate { update_Alias : string; update_GroupID : string; update_Tags : list string }.
Record bulkUpdate := mkBulkUpdate {
  bulk_IDs : list string; bulk_GroupID : option string; bulk_AddTags : list string; bulk_RemoveTags : list string }.

Section Devices.
Context `{Unicode} (ttl : duration).

Definition device_event (c : Call) (p : Principal) (type session target result reason : string) (metadata : gmap string any) : M unit :=
  record c 0 (mkAuditEvent "" zero_time type (user_ID (principal_User p)) session "" target "" result reason metadata).

(** [archived]: the query is [archived=true]. *)
Definition listDevices (c : Call) (archived : bool) : M (Reply (list Device)) :=
  devices ← try (ListDevices ttl (call_now c));
  ret (match devices with
       | Err _ => writeError 500 "devices unavailable"
       | Ok devices => writeJSON 200 (filter (λ v, bool_decide (device_ArchivedAt v ≠ None) = archived) devices)
       end).

(** The tags of a request, each trimmed. *)
Definition trimmed_tags (tags : list string) : option (list string) :=
  let tags := TrimSpace <$> tags in
  if existsb (λ tag, bool_decide (tag = "") || (64 <? len tag)) tags then None else Some tags.

Definition updateDevice (c : Call) (p : Principal) (rustdeskID : string) (body : option deviceUpdate) : M (Reply Device) :=
  match body with
  | None => ret (writeError 400 "invalid device update")
  | Some input =>
      let alias := TrimSpace (update_Alias input) in
      let groupID := TrimSpace (update_GroupID input) in
      if (128 <? len alias) || (128 <? len groupID) || (32 <? Z.of_nat (length (update_Tags input)))
      then ret (writeError 400 "invalid device update") else
      match trimmed_tags (update_Tags input) with
      | None => ret (writeError 400 "invalid tag")
      | Some tags =>
          updated ← try (UpdateDeviceManagement ttl (call_now c) rustdeskID alias groupID tags);
          match updated with
          | Err ErrNotFound => ret (writeError 404 "device not found")
          | Err _ => ret (writeError 500 "device update failed")
          | Ok device =>
              device_event c p "device_update" "" (device_RustDeskID device) "success" "" ∅;;
              ret (writeJSON 200 device)
          end
      end
  end.

(** The identifiers, each trimmed; [seen] is the map of the source. *)
Fixpoint bulk_ids (seen : list string) (ids : list string) : option (list string) :=
  match ids with
  | [] => Some []
  | id :: ids =>
      let id := TrimSpace id in
      if (len id <? 3) || (64 <? len id) || bool_decide (id ∈ seen) then None
      else cons id <$> bulk_ids (id :: seen) ids
  end.

Definition bulk_group_ok (groupID : option string) : M bool :=
  match groupID with
  | None | Some "" => ret true
  | Some id =>
      found ← try (FindGroupByID id);
      ret (match found with Ok group => bool_decide (group_Kind group = GroupKindDevice) | Err _ => false end)
  end.

Definition bulkUpdateDevices (c : Call) (p : Principal) (body : option bulkUpdate) : M (Reply (list Device)) :=
  match body with
  | None => ret (writeError 400 "invalid bulk device update")
  | Some input =>
      let size {A} (l : list A) := Z.of_nat (length l) in
      if (size (bulk_IDs input) <? 1) || (500 <? size (bulk_IDs input)) || (32 <? size (bulk_AddTags input))
         || (32 <? size (bulk_RemoveTags input))
      then ret (writeError 400 "invalid bulk device update") else
      let groupID := TrimSpace <$> bulk_GroupID input in
      match bulk_ids [] (bulk_IDs input) with
      | None => ret (writeError 400 "invalid device id")
      | Some ids =>
          match trimmed_tags (bulk_AddTags input), trimmed_tags (bulk_RemoveTags input) with
          | Some added, Some removed =>
              group_ok ← bulk_group_ok groupID;
              if negb group_ok then ret (writeError 400 "invalid device group") else
              updated ← try (BulkUpdateDevices ids groupID added removed);
              match updated with
              | Err ErrNotFound => ret (writeError 404 "device not found")
              | Err _ => ret (writeError 500 "bulk device update failed")
              | Ok _ =>
                  device_event c p "device_bulk_update" (session_ID (principal_Session p)) "" "success" ""
                    {["device_ids" := VOther; "group_id" := VOther; "add_tags" := VOther; "remove_tags" := VOther]};;
                  devices ← try (ListDevices ttl (call_now c));
                  ret (writeJSON 200 (Rbac.listed devices))
              end
          | _, _ => ret (writeError 400 "invalid tag")
          end
      end
  end.

Definition setDeviceArchived (c : Call) (p : Principal) (rustdeskID : string) (archived : bool) : M (Reply Device) :=
  updated ← try (SetDeviceArchived ttl (call_now c) rustdeskID archived (call_now c));
  match updated with
  | Err ErrNotFound => ret (writeError 404 "device not found")
  | Err _ => ret (writeError 500 "device lifecycle update failed")
  | Ok device =>
      device_event c p (if archived then "device_archive" else "device_restore") (session_ID (principal_Session p))
        (device_RustDeskID device) "success" "" ∅;;
      ret (writeJSON 200 device)
  end.
Definition archiveDevice (c : Call) (p : Principal) (rustdeskID : string) := setDeviceArchived c p rustdeskID true.
Definition restoreDevice (c : Call) (p : Principal) (rustdeskID : string) := setDeviceArchived c p rustdeskID false.

Definition deleteArchivedDevice (c : Call) (p : Principal) (id : string) : M (Reply unit) :=
  deleted ← try (DeleteArchivedDevice id);
  match deleted with
  | Err ErrNotFound => ret (writeError 409 "only archived devices can be permanently deleted")
  | Err _ => ret (writeError 500 "device deletion failed")
  | Ok _ =>
      device_event c p "device_delete" (session_ID (principal_Session p)) id "success" "" ∅;;
      ret (mkReply 204 NoContent)
  end.

(** ** CSV *)

Definition cells (record : list string) : list bytes := bytes_of <$> record.
Definition texts (record : list bytes) : list string := of_bytes <$> record.

Definition maximumDeviceCSVSize : Z := 8 * 2 ^ 20.
Definition maximumDeviceCSVRows : Z := 5000.

Definition formula_byte (a : Ascii.ascii) : bool := bool_decide (a ∈ bytes_of "=+-@").
Definition spreadsheetSafe (value : string) : string :=
  let value := remove_byte 0 value in
  match bytes_of value with
  | a :: _ => if formula_byte a then "'" +:+ value else value
  | [] => value
  end.

Definition device_columns : list string :=
  ["rustdesk_id"; "hostname"; "alias"; "platform"; "version"; "username"; "last_seen_ip"; "online"; "last_seen";
   "owner_user_id"; "group_id"; "tags"; "deployed"; "archived_at"; "created_at"].
Definition device_row_csv (v : Device) : list string :=
  [spreadsheetSafe (device_RustDeskID v); spreadsheetSafe (device_Hostname v); spreadsheetSafe (device_Alias v);
   spreadsheetSafe (device_Platform v); spreadsheetSafe (device_Version v); spreadsheetSafe (device_Username v);
   spreadsheetSafe (device_LastSeenIP v); FormatBool (device_Online v); format_time (device_LastSeen v);
   spreadsheetSafe (device_OwnerUserID v); spreadsheetSafe (device_GroupID v);
   spreadsheetSafe (of_bytes (JoinWith comma_byte (bytes_of <$> device_Tags v)));
   FormatBool (device_Deployed v); from_option format_time "" (device_ArchivedAt v); format_time (device_CreatedAt v)].
Definition device_file (devices : list Device) : bytes :=
  byte_order_mark ++ write_records semicolon_byte (cells <$> (device_columns :: (device_row_csv <$> devices))).

Definition exportDevicesCSV (c : Call) : M (Reply bytes) :=
  devices ← try (ListDevices ttl (call_now c));
  ret (match devices with
       | Err _ => writeError 500 "devices unavailable"
       | Ok devices => mkReply 200 (Value (device_file devices))
       end).

(** [headings[name] = index], one name after the other. *)
Definition headings_of (names : list string) : gmap string nat :=
  foldl (λ headings '(index, name), <[ToLower (TrimSpace name) := index]> headings) ∅ (imap pair names).

Definition value_at (headings : gmap string nat) (record : list string) (name : string) : string :=
  match record !! default 0%nat (headings !! name) with
  | Some value => TrimSpace (remove_byte 0 value)
  | None => ""
  end.

Definition at_row (text : string) (row : Z) : error := ErrText (text +:+ " at row " +:+ Itoa (row + 2)).

(** The tags of a cell: [tags] are those before. *)
Fixpoint csv_tags (row : Z) (tags : list string) (parts : list string) : res (list string) :=
  match parts with
  | [] => Ok tags
  | part :: parts =>
      let tag := TrimSpace part in
      if bool_decide (tag = "") then csv_tags row tags parts
      else if (64 <? len tag) || (32 <=? Z.of_nat (length tags)) then Err (at_row "invalid tags" row)
      else csv_tags row (if bool_decide (tag ∈ tags) then tags else tags ++ [tag]) parts
  end.

Fixpoint csv_rows (headings : gmap string nat) (seen : list string) (row : Z) (records : list (list string))
    : res (list DeviceManagementImport) :=
  match records with
  | [] => Ok []
  | record :: records =>
      let id := value_at headings record "rustdesk_id" in
      let alias := value_at headings record "alias" in
      let groupID := value_at headings record "group_id" in
      let cell := value_at headings record "tags" in
      if bool_decide (id = "") && bool_decide (alias = "") && bool_decide (groupID = "") && bool_decide (cell = "")
      then csv_rows headings seen (row + 1) records else
      if (len id <? 3) || (64 <? len id) || bool_decide (id ∈ seen) then Err (at_row "invalid or duplicate rustdesk_id" row) else
      if (128 <? len alias) || (128 <? len groupID) then Err (at_row "field too long" row) else
      match csv_tags row [] (of_bytes <$> Split comma_byte (bytes_of cell)) with
      | Err e => Err e
      | Ok tags =>
          res_map (cons (mkDeviceManagementImport id alias groupID tags)) (csv_rows headings (id :: seen) (row + 1) records)
      end
  end.

Definition first_missing (headings : gmap string nat) : option string :=
  head (filter (λ name, headings !! name = None) ["rustdesk_id"; "alias"; "group_id"; "tags"]).

Fixpoint first_line (l : bytes) : bytes :=
  match l with
  | [] => []
  | a :: l => if bool_decide (a = newline_byte) then [] else a :: first_line l
  end.
Definition count_byte (a : Ascii.ascii) (l : bytes) : nat := length (filter (λ b, b = a) l).
Definition trim_mark (l : bytes) : bytes :=
  if bool_decide (byte_order_mark = take 3 l) then drop 3 l else l.

Definition parseDeviceManagementCSV (payload : bytes) : res (list DeviceManagementImport) :=
  let payload := trim_mark payload in
  let line := first_line payload in
  let comma := if bool_decide (count_byte comma_byte line < count_byte semicolon_byte line)%nat then semicolon_byte else comma_byte in
  match ReadAll comma payload with
  | None | Some [] | Some [_] => Err (ErrText "header and at least one data row are required")
  | Some (names :: records) =>
      let headings := headings_of (texts names) in
      match first_missing headings with
      | Some required => Err (ErrText ("missing " +:+ required +:+ " column"))
      | None =>
          if maximumDeviceCSVRows <? Z.of_nat (length records) then Err (ErrText "more than 5000 records") else
          match csv_rows headings [] 0 (texts <$> records) with
          | Ok [] => Err (ErrText "no device records")
          | values => values
          end
      end
  end.

(** [fmt.Errorf("unknown device group %q")]: the quoted name is left out. *)
Definition known_groups (groups : list Group) (values : list DeviceManagementImport) : bool :=
  forallb (λ value, bool_decide (import_GroupID value = "")
                    || existsb (λ group, bool_decide (group_Kind group = GroupKindDevice)
                                         && bool_decide (group_ID group = import_GroupID value)) groups) values.

(** [payload]: the bytes read, when the body can be read. *)
Definition importDevicesCSV (c : Call) (p : Principal) (contentLength : Z) (payload : option bytes) : M (Reply Z) :=
  let denied reason metadata := device_event c p "device_import" (session_ID (principal_Session p)) "" "denied" reason metadata in
  if maximumDeviceCSVSize <? contentLength then ret (writeError 413 "device CSV is too large") else
  match payload with
  | None | Some [] => ret (writeError 400 "invalid device CSV")
  | Some payload =>
      if maximumDeviceCSVSize <? Z.of_nat (length payload) then ret (writeError 400 "invalid device CSV") else
      checked ← try (values ← lift (parseDeviceManagementCSV payload);
                     groups ← ListGroups;
                     if known_groups groups values then ret values else throw (ErrText "unknown device group"));
      match checked with
      | Err e => denied "invalid_csv" ∅;; ret (writeError 422 ("invalid device CSV: " +:+ error_text e))
      | Ok values =>
          imported ← try (ImportDeviceManagement values);
          match imported with
          | Err e =>
              denied "apply_failed" {["records" := VOther]};;
              ret (match e with
                   | ErrNotFound => writeError 404 "CSV contains an unknown or archived device"
                   | _ => writeError 500 "device import failed"
                   end)
          | Ok _ =>
              device_event c p "device_import" (session_ID (principal_Session p)) "" "success" "" {["records" := VOther]};;
              ret (writeJSON 200 (Z.of_nat (length values)))
          end
      end
  end.
End Devices.

(** ** An exported file can be imported *)

Section Roundtrip.
Context `{Unicode}.

Definition no_return (v : string) : Prop := return_byte ∉ bytes_of v.

(** A cell that [spreadsheetSafe] and the reader leave as it is. *)
Definition plain_cell (v : string) : Prop :=
  no_return v ∧ remove_byte 0 v = v ∧ TrimSpace v = v ∧ existsb formula_byte (take 1 (bytes_of v)) = false.
Definition plain_tag (tag : string) : Prop :=
  tag ≠ "" ∧ TrimSpace tag = tag ∧ len tag ≤ 64 ∧ comma_byte ∉ bytes_of tag.
Definition tags_cell (v : Device) : string := of_bytes (JoinWith comma_byte (bytes_of <$> device_Tags v)).

(** The values the console itself lets an administrator give. *)
Definition device_exportable (v : Device) : Prop :=
  Forall no_return [device_Hostname v; device_Platform v; device_Version v; device_Username v; device_LastSeenIP v; device_OwnerUserID v]
  ∧ Forall plain_cell [device_RustDeskID v; device_Alias v; device_GroupID v; tags_cell v]
  ∧ 3 ≤ len (device_RustDeskID v) ≤ 64 ∧ len (device_Alias v) ≤ 128 ∧ len (device_GroupID v) ≤ 128
  ∧ Forall plain_tag (device_Tags v) ∧ NoDup (device_Tags v) ∧ (length (device_Tags v) ≤ 32)%nat.

Definition management (v : Device) : DeviceManagementImport :=
  mkDeviceManagementImport (device_RustDeskID v) (device_Alias v) (device_GroupID v) (device_Tags v).

Lemma spreadsheetSafe_plain v : plain_cell v → spreadsheetSafe v = v.
Proof.
  intros (_ & Hz & _ & Hf). unfold spreadsheetSafe. rewrite Hz. destruct (bytes_of v) as [|a l]; [done|].
  cbn in Hf. rewrite orb_false_r in Hf. by rewrite Hf.
Qed.

Lemma no_return_safe v : no_return v → no_return (spreadsheetSafe v).
Proof.
  unfold no_return, spreadsheetSafe. intros Hv.
  assert (Hr : return_byte ∉ bytes_of (remove_byte 0 v)).
  { unfold remove_byte. rewrite bytes_of_of_bytes, list_elem_of_filter. by intros [_ ?]. }
  destruct (bytes_of (remove_byte 0 v)) as [|a l] eqn:Hl; [by rewrite Hl|]. destruct (formula_byte a); [|by rewrite Hl].
  rewrite bytes_of_app, Hl. intros [Hin|]%elem_of_app; [|done].
  cbn in Hin. by apply list_elem_of_singleton in Hin.
Qed.

Lemma digits_digit_byte fuel z a : a ∈ digits fuel z → digit_byte a = true.
Proof.
  induction fuel as [|fuel IH] in z |- *; cbn; [by intros ?%not_elem_of_nil|].
  rewrite elem_of_app, list_elem_of_singleton. intros [Hin| ->].
  - destruct (z <? 10); [by apply not_elem_of_nil in Hin|by eapply IH].
  - unfold digit_byte. pose proof (Z.mod_pos_bound z 10). rewrite byte_ascii_of by lia.
    apply andb_true_iff. split; lia.
Qed.

Lemma padded_no_return n z : return_byte ∉ zero_padded n (digits 20 z).
Proof.
  unfold zero_padded. rewrite elem_of_app, elem_of_replicate. intros [[? _]|Hin%digits_digit_byte]; done.
Qed.

Lemma no_return_time t : no_return (format_time t).
Proof.
  unfold no_return, format_time. destruct (civil_date _) as [[year month] day]. rewrite bytes_of_of_bytes, !not_elem_of_app.
  split_and!; try apply padded_no_return; try (apply (bool_decide_eq_true_1 (_ ∉ _)); reflexivity).
  destruct (year <? 0); [apply not_elem_of_cons; split; [done|]|]; apply padded_no_return.
Qed.

Lemma no_return_row v : device_exportable v → Forall (λ cell, return_byte ∉ cell) (cells (device_row_csv v)).
Proof.
  intros (Hn & Hp & _). unfold cells. rewrite Forall_fmap.
  assert (Hp' : Forall no_return [device_RustDeskID v; device_Alias v; device_GroupID v; tags_cell v])
    by (eapply Forall_impl; [exact Hp|]; by intros ? [? _]).
  repeat match goal with H : Forall no_return (_ :: _) |- _ => apply Forall_cons_iff in H as [? H] end.
  assert (Hb : ∀ b, no_return (FormatBool b)) by (intros []; unfold no_return; apply (bool_decide_eq_true_1 (_ ∉ _)); reflexivity).
  assert (Ho : no_return (from_option format_time "" (device_ArchivedAt v)))
    by (destruct (device_ArchivedAt v); [apply no_return_time|by intros ?%not_elem_of_nil]).
  unfold device_row_csv. repeat (apply Forall_cons; split; [unfold compose|]); [..|by apply Forall_nil];
    first [by apply no_return_safe|apply Hb|apply no_return_time|exact Ho].
Qed.

Lemma value_at_plain headings record name index v :
  headings !! name = Some index → record !! index = Some (spreadsheetSafe v) → plain_cell v → value_at headings record name = v.
Proof.
  intros Hh Hr Hv. unfold value_at. rewrite Hh. change (default 0%nat (Some index)) with index. rewrite Hr, spreadsheetSafe_plain by done.
  destruct Hv as (_ & -> & -> & _). done.
Qed.

Lemma csv_tags_plain row tags parts :
  Forall plain_tag parts → NoDup (tags ++ parts) → (length (tags ++ parts) ≤ 32)%nat → csv_tags row tags parts = Ok (tags ++ parts).
Proof.
  induction parts as [|tag parts IH] in tags |- *; intros Hp Hnd Hl; [by rewrite app_nil_r|].
  apply Forall_cons_iff in Hp as [(Hne & Ht & Hlen & _) Hp]. cbn. rewrite Ht, bool_decide_false by done.
  rewrite length_app in Hl. cbn in Hl. replace ((64 <? len tag) || (32 <=? Z.of_nat (length tags))) with false by lia.
  rewrite bool_decide_false.
  - rewrite IH; rewrite <- ?app_assoc; cbn; rewrite ?length_app; cbn; [done..|lia].
  - intros Hin. apply NoDup_app in Hnd as (_ & Hd & _). apply (Hd tag Hin). left.
Qed.
End Roundtrip.

Section Importing.
Context `{Unicode} (ttl : duration).

Definition export_headings : gmap string nat := headings_of device_columns.
Lemma export_headings_at :
  export_headings !! "rustdesk_id" = Some 0%nat ∧ export_headings !! "alias" = Some 2%nat
  ∧ export_headings !! "group_id" = Some 10%nat ∧ export_headings !! "tags" = Some 11%nat.
Proof. split_and!; vm_compute; reflexivity. Qed.

Lemma tags_of_cell v row :
  device_exportable v → csv_tags row [] (of_bytes <$> Split comma_byte (bytes_of (tags_cell v))) = Ok (device_Tags v).
Proof.
  intros (_ & _ & _ & _ & _ & Ht & Hnd & Hl). unfold tags_cell. rewrite bytes_of_of_bytes.
  destruct (decide (device_Tags v = [])) as [->|Hne].
  - cbn. by rewrite bool_decide_true.
  - rewrite Split_JoinWith.
    + rewrite <- list_fmap_compose. rewrite (list_fmap_ext _ id) by (intros; apply of_bytes_bytes_of). rewrite list_fmap_id.
      by apply csv_tags_plain.
    + by destruct (device_Tags v).
    + rewrite Forall_fmap. eapply Forall_impl; [exact Ht|]. by intros tag (_ & _ & _ & ?).
Qed.

Lemma csv_rows_exported devices seen row :
  Forall device_exportable devices → NoDup (device_RustDeskID <$> devices) → (∀ v, v ∈ devices → device_RustDeskID v ∉ seen) →
  csv_rows export_headings seen row (device_row_csv <$> devices) = Ok (management <$> devices).
Proof.
  destruct export_headings_at as (H1 & H2 & H3 & H4).
  induction devices as [|v devices IH] in seen, row |- *; intros He Hnd Hs; [done|].
  apply Forall_cons_iff in He as [Hv He]. cbn in Hnd. apply NoDup_cons in Hnd as [Hn Hnd].
  pose proof Hv as (_ & Hp & Hid & Ha & Hg & _).
  repeat match goal with H : Forall plain_cell (_ :: _) |- _ => apply Forall_cons_iff in H as [? H] end.
  cbn [fmap list_fmap csv_rows].
  rewrite (value_at_plain _ _ _ _ (device_RustDeskID v) H1), (value_at_plain _ _ _ _ (device_Alias v) H2),
    (value_at_plain _ _ _ _ (device_GroupID v) H3), (value_at_plain _ _ _ _ (tags_cell v) H4) by done.
  assert (bool_decide (device_RustDeskID v = "") = false) as ->
    by (apply bool_decide_eq_false; intros E; rewrite E in Hid; change (len "") with 0 in Hid; lia).
  replace ((len (device_RustDeskID v) <? 3) || (64 <? len (device_RustDeskID v))) with false by lia. cbn [andb orb].
  rewrite bool_decide_false by (apply Hs; left).
  replace ((128 <? len (device_Alias v)) || (128 <? len (device_GroupID v))) with false by lia. cbn [andb orb].
  assert (Hs' : ∀ v', v' ∈ devices → device_RustDeskID v' ∉ device_RustDeskID v :: seen).
  { intros v' Hv'. rewrite not_elem_of_cons. split; [|apply Hs; by right]. intros E. apply Hn. rewrite <- E.
    by apply list_elem_of_fmap_2. }
  rewrite tags_of_cell, IH by done. done.
Qed.

Lemma first_line_app l1 l2 : newline_byte ∉ l1 → first_line (l1 ++ newline_byte :: l2) = l1.
Proof.
  induction l1 as [|a l1 IH]; intros Hn; [done|]. apply not_elem_of_cons in Hn as [Ha Hn]. cbn.
  rewrite bool_decide_false by congruence. by rewrite IH.
Qed.

Definition export_header : bytes := write_fields semicolon_byte (cells device_columns).
Lemma export_header_plain :
  bool_decide (newline_byte ∉ export_header) && bool_decide (count_byte comma_byte export_header < count_byte semicolon_byte export_header)%nat
  = true.
Proof. vm_compute. reflexivity. Qed.

(** The file of the export is read as the devices it was made of. *)
Lemma parse_exported devices :
  Forall device_exportable devices → NoDup (device_RustDeskID <$> devices) → devices ≠ [] → (length devices ≤ 5000)%nat →
  parseDeviceManagementCSV (device_file devices) = Ok (management <$> devices).
Proof.
  intros He Hnd Hne Hl. pose proof export_header_plain as [Hn Hc]%andb_true_iff. apply bool_decide_eq_true in Hn, Hc.
  unfold parseDeviceManagementCSV, device_file. change (trim_mark (byte_order_mark ++ ?l)) with l.
  assert (first_line (write_records semicolon_byte (cells <$> device_columns :: (device_row_csv <$> devices))) = export_header) as ->.
  { cbn [fmap list_fmap]. unfold write_records, write_record. cbn [fmap list_fmap mjoin list_join]. rewrite <- app_assoc. by apply first_line_app. }
  rewrite bool_decide_true by done. rewrite read_written.
  - change (cells <$> device_columns :: (device_row_csv <$> devices)) with (cells device_columns :: (cells <$> (device_row_csv <$> devices))).
    assert (Htexts : ∀ record, texts (cells record) = record).
    { intros record. unfold texts, cells. rewrite <- list_fmap_compose.
      rewrite (list_fmap_ext _ id) by (intros; apply of_bytes_bytes_of). apply list_fmap_id. }
    destruct devices as [|v devices]; [done|]. set (rows := cells <$> (device_row_csv <$> v :: devices)).
    assert (texts <$> rows = device_row_csv <$> v :: devices) as Hrows.
    { unfold rows. rewrite <- list_fmap_compose. rewrite (list_fmap_ext _ id) by (intros; apply Htexts). apply list_fmap_id. }
    assert (Hlen : length rows = length (v :: devices)) by (unfold rows; by rewrite !length_fmap).
    destruct rows as [|row rows]; [done|]. rewrite Htexts. fold export_headings.
    destruct export_headings_at as (H1 & H2 & H3 & H4). unfold first_missing. rewrite !filter_cons_False by congruence.
    cbn [filter list_filter head]. rewrite Hlen.
    assert ((maximumDeviceCSVRows <? Z.of_nat (length (v :: devices))) = false) as -> by (apply Z.ltb_ge; unfold maximumDeviceCSVRows; lia).
    rewrite Hrows, csv_rows_exported by (done || by intros ? ? ?%not_elem_of_nil). reflexivity.
  - by split_and!.
  - apply Forall_fmap, Forall_cons; split; [done|]. apply Forall_fmap, Forall_true. by split.
  - apply Forall_fmap, Forall_cons; split.
    + apply (bool_decide_eq_true_1 (Forall _ _)). vm_compute. reflexivity.
    + apply Forall_fmap. eapply Forall_impl; [exact He|]. intros v Hv. by apply no_return_row.
Qed.
End Importing.

(** ** The export and the import, composed *)

Section ExportImport.
Context `{Unicode} (ttl : duration).
Implicit Types (d : DB) (h : Hub).

Lemma exportable_scan now v : device_exportable v → device_exportable (scanDevice ttl now v).
Proof. by destruct v. Qed.

(** Writing to a device what it has changes nothing. *)
Lemma wp_import_same devices (Q : res unit → DB → Hub → Prop) d h :
  devices_ok d → (∀ v, v ∈ devices → ∃ v', v' ∈ t_devices d ∧ device_ArchivedAt v' = None ∧ management v' = management v) →
  Q (Ok tt) d h → wp false (ImportDeviceManagement (management <$> devices)) Q d h.
Proof.
  intros Hok Hin HQ. apply wp_tx; [done|].
  apply (wp_mono (λ r d' h', r = Ok tt ∧ d' = d ∧ h' = h)); [|by intros r d' h' (-> & -> & ->)].
  clear HQ. induction devices as [|v devices IH]; [by apply wp_ret|].
  destruct (Hin v) as (v' & Hv' & Harch & Hm); [left|]. injection Hm as Eid Ealias Egroup Etags.
  cbn [fmap list_fmap]. apply wp_bind, wp_bind.
  assert (Hsame : update_where (λ u, device_RustDeskID u = import_RustDeskID (management v) ∧ device_ArchivedAt u = None)
            (λ u, u <| device_Alias := import_Alias (management v) |> <| device_GroupID := import_GroupID (management v) |>
                    <| device_Tags := import_Tags (management v) |>) (t_devices d) = t_devices d).
  { unfold update_where. rewrite <- (list_fmap_id (t_devices d)) at 2. apply list_fmap_ext. intros i u Hu%list_elem_of_lookup_2.
    case_decide as Hc; [|done]. destruct Hc as [Hc _]. assert (u = v') as -> by (eapply (unique_row device_RustDeskID); [exact Hok|done..|]; cbn in Hc; congruence).
    destruct v', v. cbn in *. by subst. }
  apply wp_sql_update; rewrite ?Hsame; [done| |].
  - intros d' -> _. rewrite (count_where_unique device_RustDeskID _ _ v');
      [|exact Hok|exact Hv'|by split|by intros u [-> _]].
    apply wp_ret. replace (write t_devices (t_devices d) d) with d by by destruct d. apply IH. intros u Hu. apply Hin. by right.
  - intros Hn. destruct Hn. by replace (write t_devices (t_devices d) d) with d by by destruct d.
Qed.

Lemma wp_device_event c p type session target result reason metadata (Q : res unit → DB → Hub → Prop) d h :
  (∀ d' h', t_devices d' = t_devices d → Q (Ok tt) d' h') →
  wp false (device_event c p type session target result reason metadata) Q d h.
Proof.
  intros HQ. apply wp_bind, wp_try. eapply wp_mono; [apply Record_spec|]. intros r d' h' [(t1 & t2 & ->) _]. apply wp_ret. by apply HQ.
Qed.

(** C39: a file of devices that the console exports can be imported again and
    changes nothing: with no failure of the database, when the devices are
    between one and 5000, none is archived, their texts are trimmed and neither
    hold a carriage return or a zero byte nor begin a spreadsheet formula, their
    tags are as the console accepts them and their groups exist, the import is
    answered with the number of devices and every device is as it was. *)
Theorem exported_devices_import c c' p w file w1 :
  devices_ok (w_db w) → w_faults w = [] →
  t_devices (w_db w) ≠ [] → (length (t_devices (w_db w)) ≤ 5000)%nat →
  (∀ v, v ∈ t_devices (w_db w) → device_exportable v ∧ device_ArchivedAt v = None
     ∧ (device_GroupID v = "" ∨ ∃ g, g ∈ t_groups (w_db w) ∧ group_Kind g = GroupKindDevice ∧ group_ID g = device_GroupID v)) →
  exportDevicesCSV ttl c w = (Ok (mkReply 200 (Http.Value file)), w1) →
  Z.of_nat (length file) ≤ maximumDeviceCSVSize →
  let '(r, w2) := importDevicesCSV c' p (Z.of_nat (length file)) (Some file) w1 in
  r = Ok (writeJSON 200 (Z.of_nat (length (t_devices (w_db w))))) ∧ t_devices (w_db w2) = t_devices (w_db w).
Proof.
  intros Hok Hf Hne Hl Hdev Hexp Hsize. destruct w as [d fs h]. cbn in *. subst fs. injection Hexp as <- <-.
  set (rows := scanDevice ttl (call_now c) <$> SliceStable (λ a b, device_LastSeen b <? device_LastSeen a) (t_devices d)) in *.
  assert (Hrow : ∀ v, v ∈ rows → ∃ v', v' ∈ t_devices d ∧ v = scanDevice ttl (call_now c) v').
  { intros v (v' & -> & Hv')%list_elem_of_fmap. exists v'. by rewrite <- elem_of_SliceStable. }
  assert (Hlen : length rows = length (t_devices d)) by (unfold rows; by rewrite length_fmap, length_SliceStable).
  assert (Hparse : parseDeviceManagementCSV (device_file rows) = Ok (management <$> rows)).
  { apply parse_exported.
    - apply Forall_forall. intros v (v' & Hv' & ->)%Hrow. by apply exportable_scan, Hdev.
    - unfold rows. rewrite <- list_fmap_compose. rewrite (list_fmap_ext _ device_RustDeskID) by done. by rewrite SliceStable_perm.
    - intros E. apply Hne, length_zero_iff_nil. by rewrite <- Hlen, E.
    - by rewrite Hlen. }
  assert (Hknown : known_groups (scanGroup <$> SliceStable (then_by (λ a b, str_lt (group_Kind a) (group_Kind b)) (λ a b, str_lt (group_Name a) (group_Name b))) (t_groups d)) (management <$> rows) = true).
  { apply forallb_forall. intros i (v & -> & (v' & Hv' & ->)%Hrow)%list_elem_of_In%list_elem_of_fmap.
    apply orb_true_iff. destruct (Hdev v' Hv') as (_ & _ & [Hg|(g & Hin & Hk & Hg)]); [left; by apply bool_decide_eq_true|right].
    apply existsb_exists. exists (scanGroup g). split; [|by apply andb_true_iff; split; apply bool_decide_eq_true].
    by apply list_elem_of_In, list_elem_of_fmap_2, elem_of_SliceStable. }
  enough (wp false (importDevicesCSV c' p (Z.of_nat (length (device_file rows))) (Some (device_file rows)))
    (λ r d' _, r = Ok (writeJSON 200 (Z.of_nat (length (t_devices d)))) ∧ t_devices d' = t_devices d) d h) as Hw.
  { specialize (Hw [] eq_refl). destruct (importDevicesCSV _ _ _ _ _). by destruct Hw. }
  assert (Hltb : (maximumDeviceCSVSize <? Z.of_nat (length (device_file rows))) = false) by by apply Z.ltb_ge.
  destruct (device_file rows) as [|a file]; [done|]. unfold importDevicesCSV. rewrite Hltb, Hparse.
  apply wp_bind, wp_try, wp_bind, wp_lift, wp_bind, wp_query; [done|]. rewrite Hknown. apply wp_ret.
  apply wp_bind, wp_try, (wp_import_same rows); [done| |].
  - intros v (v' & Hv' & ->)%Hrow. exists v'. split_and!; [done|by apply Hdev|done].
  - apply wp_bind, wp_device_event. intros d' h' E. apply wp_ret. by rewrite length_fmap, Hlen.
Qed.
End ExportImport.

(** No cell of an exported file begins a formula. *)
Section Formulas.
Context `{Unicode}.

Definition harmless_cell (cell : bytes) : Prop := existsb formula_byte (take 1 cell) = false.

Lemma spreadsheetSafe_harmless v : harmless_cell (bytes_of (spreadsheetSafe v)).
Proof.
  unfold harmless_cell, spreadsheetSafe. destruct (bytes_of (remove_byte 0 v)) as [|a l] eqn:Hl; [by rewrite Hl|].
  destruct (formula_byte a) eqn:Ha; [by rewrite bytes_of_app|]. rewrite Hl. cbn. by rewrite Ha.
Qed.

Lemma format_time_harmless t : 0 ≤ t → harmless_cell (bytes_of (format_time t)).
Proof.
  intros Ht. unfold format_time. destruct (civil_date (t / (24 * hour))) as [[year month] day] eqn:Hdate.
  assert (Hyear : 0 ≤ year).
  { unfold civil_date in Hdate. injection Hdate as <- _ _. assert (0 ≤ t / (24 * hour)) by by apply Z.div_pos.
    set (z := t / (24 * hour) + 719468). assert (Hera : 0 ≤ z / 146097) by (apply Z.div_pos; lia).
    pose proof (Z.mod_pos_bound z 146097 ltac:(lia)) as Hdoe. set (doe := z mod 146097) in *.
    assert (Hyoe : 0 ≤ (doe - doe / 1460 + doe / 36524 - doe / 146096) / 365).
    { apply Z.div_pos; [|lia]. clearbody doe. Z.to_euclidean_division_equations. lia. }
    match goal with |- context [if ?b then 1 else 0] => destruct b end; lia. }
  rewrite bytes_of_of_bytes. replace (year <? 0) with false by lia. unfold harmless_cell, zero_padded.
  assert (Hd : ∀ l l', forallb digit_byte l = true → l ≠ [] → existsb formula_byte (take 1 (l ++ l')) = false).
  { intros [|a l] l' Hl Hne; [done|]. cbn in Hl |- *. apply andb_true_iff in Hl as [Ha _]. unfold formula_byte.
    rewrite bool_decide_false; [done|]. intros Hin. cbn in Hin.
    repeat (apply elem_of_cons in Hin as [->|Hin]; [done|]). by apply not_elem_of_nil in Hin. }
  apply Hd.
  - rewrite forallb_app. apply andb_true_iff. split; [|by apply digits_digit].
    apply forallb_forall. intros a Ha%list_elem_of_In. by apply elem_of_replicate in Ha as [-> _].
  - intros [_ Hnil]%app_eq_nil. by eapply (digits_not_nil 20 year); [lia|].
Qed.

(** Every cell of an exported file, read as CSV, does not begin a formula. *)
Theorem exported_cells_harmless devices :
  (∀ v, v ∈ devices → Forall no_return (device_row_csv v)
     ∧ 0 ≤ device_LastSeen v ∧ 0 ≤ device_CreatedAt v ∧ from_option (λ t, 0 ≤ t) True (device_ArchivedAt v)) →
  ∃ records, ReadAll semicolon_byte (drop 3 (device_file devices)) = Some records ∧ length records = S (length devices)
             ∧ ∀ record cell, record ∈ records → cell ∈ record → harmless_cell cell.
Proof.
  intros Hv. exists (cells <$> (device_columns :: (device_row_csv <$> devices))).
  change (drop 3 (device_file devices)) with (write_records semicolon_byte (cells <$> (device_columns :: (device_row_csv <$> devices)))).
  rewrite !length_fmap. cbn [length]. rewrite length_fmap. split_and!; [|done|].
  - apply read_written; [by split_and!|..].
    + apply Forall_fmap, Forall_cons; split; [done|]. apply Forall_fmap, Forall_true. by split.
    + apply Forall_fmap, Forall_cons; split; [apply (bool_decide_eq_true_1 (Forall _ _)); vm_compute; reflexivity|].
      apply Forall_fmap, Forall_forall. intros v [Hr _]%Hv. unfold compose, cells. by apply Forall_fmap.
  - intros record cell (texts & -> & Hin)%list_elem_of_fmap (text & -> & Htext)%list_elem_of_fmap.
    apply elem_of_cons in Hin as [->|(v & -> & (_ & Hs & Hc & Ha)%Hv)%list_elem_of_fmap].
    + revert text Htext. apply Forall_forall. apply (bool_decide_eq_true_1 (Forall _ _)). vm_compute. reflexivity.
    + assert (Hb : ∀ b, harmless_cell (bytes_of (FormatBool b))) by (by intros []).
      assert (Ho : harmless_cell (bytes_of (from_option format_time "" (device_ArchivedAt v))))
        by (destruct (device_ArchivedAt v); [by apply format_time_harmless|done]).
      unfold device_row_csv in Htext.
      repeat (apply elem_of_cons in Htext as [->|Htext];
        [first [apply spreadsheetSafe_harmless|apply Hb|by apply format_time_harmless|exact Ho]|]).
      by apply not_elem_of_nil in Htext.
Qed.
End Formulas.

(** ** The theorems at a concrete installation *)

Definition ex_workstation : Device :=
  mkDevice "desk-1" "uuid" "host; 1" "Front desk" "Windows, 11" "1.4" "" "" "alice" "10.0.0.7" false 0 "u1" "g9" ["office"; "ground floor"]
    "key" false "" None 0 None.
Definition ex_console_world (alias : string) : world :=
  mkWorld (ex_accounts <| t_devices := [ex_workstation <| device_Alias := alias |>] |>
                       <| t_groups := [mkGroup "g9" "desks" "" GroupKindDevice 0 0] |>) [] (NewHub "src").
Definition ex_console_call : Call := mkCall second (λ _, mkStamp "e1" "e1" second) (mkEntropy "" "" "" None 1).
Definition ex_manager : Principal := mkPrincipal (ex_user "u0" "root" RoleAdmin) (ex_session "s1" "u0") ex_claims.
Definition ex_file (alias : string) : bytes :=
  match (@exportDevicesCSV ascii_unicode 0 ex_console_call (ex_console_world alias)).1 with
  | Ok (mkReply _ (Http.Value file)) => file
  | _ => []
  end.

Lemma exported_devices_import_witness :
  let '(r, w2) := @importDevicesCSV ascii_unicode ex_console_call ex_manager (Z.of_nat (length (ex_file "Front desk")))
                    (Some (ex_file "Front desk")) (ex_console_world "Front desk") in
  r = Ok (writeJSON 200 1) ∧ t_devices (w_db w2) = [ex_workstation].
Proof.
  apply (@exported_devices_import ascii_unicode 0 ex_console_call ex_console_call ex_manager (ex_console_world "Front desk")
           (ex_file "Front desk") (ex_console_world "Front desk")).
  - apply (bool_decide_eq_true_1 (devices_ok _)). vm_compute. reflexivity.
  - reflexivity.
  - discriminate.
  - cbn. lia.
  - intros v Hv. apply list_elem_of_singleton in Hv as ->. split; [|split; [reflexivity|right]].
    + unfold device_exportable. split_and!; try (vm_compute; congruence).
      * apply (bool_decide_eq_true_1 (Forall _ _)). vm_compute. reflexivity.
      * repeat (apply Forall_cons; split; [split_and!; [apply (bool_decide_eq_true_1 (_ ∉ _))|..]; vm_compute; reflexivity|]). apply Forall_nil. constructor.
      * repeat (apply Forall_cons; split; [split_and!; [discriminate|reflexivity|vm_compute; discriminate|apply (bool_decide_eq_true_1 (_ ∉ _)); vm_compute; reflexivity]|]).
        apply Forall_nil. constructor.
      * apply (bool_decide_eq_true_1 (NoDup _)). vm_compute. reflexivity.
      * cbn. lia.
    + exists (mkGroup "g9" "desks" "" GroupKindDevice 0 0). split_and!; [left|reflexivity|reflexivity].
  - vm_compute. reflexivity.
  - vm_compute. discriminate.
Defined.

(** An alias that begins like a formula comes back with a quote. *)
Theorem formula_alias_changes :
  device_Alias <$> t_devices (w_db (@importDevicesCSV ascii_unicode ex_console_call ex_manager 0 (Some (ex_file "-lab"))
                                      (ex_console_world "-lab")).2) = ["'-lab"].
Proof. vm_compute. reflexivity. Qed.
