(* ===== verification/Backup.v ===== *)
(** * Backups of the database and staged restores (art-api/internal: backup/service.go,
      httpapi/backups.go, the backup methods of store/sqlstore/store.go)

    The disk is the directory of backups: a file is named by its name in it, and
    every file is a regular one.  The service exists when the database is SQLite;
    what SQLite finds in a file is a parameter ([Sqlite]), what VACUUM INTO writes
    and the time of a modification are arguments.  [StartContainer] is the part of
    docker/all-in-one-entrypoint.sh that applies a staged restore. *)

From S2P Require Export Disk Http.
From S2P Require Import Text Duration Crypto DeviceApi Rbac Sample.

(** What SQLite finds in a file: the answer of PRAGMA quick_check and the tables
    with their number of rows. *)
Record SqliteFile := mkSqliteFile { sqlite_QuickCheck : string; sqlite_Tables : list (string * Z) }.
Class Sqlite := sqlite_open : bytes → option SqliteFile.

Record BackupInspection := mkBackupInspection {
  inspection_Valid : bool; inspection_SizeBytes : Z; inspection_ModifiedAt : time; inspection_QuickCheck : string;
  inspection_SchemaTables : Z; inspection_Users : Z; inspection_Devices : Z; inspection_Sessions : Z }.
Record BackupArtifact := mkBackupArtifact {
  artifact_Name : string; artifact_SizeBytes : Z; artifact_CreatedAt : time; artifact_Users : Z; artifact_Devices : Z;
  artifact_Sessions : Z; artifact_QuickCheck : string }.

(** [io.LimitReader]: the first bytes. *)
Fixpoint LimitReader (limit : Z) (l : bytes) : bytes :=
  match l with
  | [] => []
  | a :: l' => if limit <=? 0 then [] else a :: LimitReader (limit - 1) l'
  end.
(** ** store/sqlstore *)

Definition Backup (destination : string) (vacuumed : bytes) : Boot unit :=
  found ← attempt (os_Stat destination);
  match found with
  | Err e => if bool_decide (e = ErrNotExist) then os_WriteFile destination vacuumed 420
             else fail (ErrText "backup destination must not exist")
  | Ok _ => fail (ErrText "backup destination must not exist")
  end.

Section Inspect.
Context `{Sqlite} `{SqlText}.

Definition table_rows (tables : list (string * Z)) (name : string) : res Z :=
  match filter (λ t, t.1 = name) tables with
  | [t] => Ok t.2
  | _ => Err (ErrText "required table is missing")
  end.

Definition inspected (content : bytes) (modified : time) : res BackupInspection :=
  match sqlite_open content with
  | None => Err (ErrText "SQLite quick check")
  | Some db =>
      if negb (bool_decide (sqlite_QuickCheck db = "ok")) then Err (ErrText "SQLite quick check failed") else
      let own := filter (λ t, sql_like t.1 "sqlite_%" = false) (sqlite_Tables db) in
      match table_rows (sqlite_Tables db) "users", table_rows (sqlite_Tables db) "devices", table_rows (sqlite_Tables db) "sessions" with
      | Ok users, Ok devices, Ok sessions =>
          Ok (mkBackupInspection true (Z.of_nat (length content)) modified (sqlite_QuickCheck db)
                (Z.of_nat (length own)) users devices sessions)
      | _, _, _ => Err (ErrText "required table is missing")
      end
  end.

(** [modified]: when each file was written, [info.ModTime()]. *)
Definition InspectBackup (modified : string → time) (path : string) : Boot BackupInspection :=
  content ← os_ReadFile path;
  pure (inspected content (modified path)).
End Inspect.

(** ** backup/service.go *)

Record Service := mkService { service_interval : duration; service_retention : Z }.

Definition maximumRestoreSize : Z := 512 * 2 ^ 20.
Definition New (interval : duration) (retention : Z) : Boot Service :=
  os_MkdirAll;; os_ChmodDirectory;; mret (mkService interval retention).

(** The expression [^rustdesk-backup-[0-9]{8}-[0-9]{6}\.[0-9]{9}\.db$]. *)
Definition exactly (s : string) : list (Ascii.ascii → bool) := (λ a b, bool_decide (a = b)) <$> bytes_of s.
Definition artifactName : list (Ascii.ascii → bool) :=
  exactly "rustdesk-backup-" ++ replicate 8 digit_byte ++ exactly "-" ++ replicate 6 digit_byte ++ exactly "."
  ++ replicate 9 digit_byte ++ exactly ".db".
Fixpoint matches (pattern : list (Ascii.ascii → bool)) (l : bytes) : bool :=
  match pattern, l with
  | [], [] => true
  | p :: pattern', a :: l' => p a && matches pattern' l'
  | _, _ => false
  end.
Definition MatchString (name : string) : bool := matches artifactName (bytes_of name).

(** [now.Format("20060102-150405.000000000")] *)
Definition stamp_text (now : time) : bytes :=
  let seconds := now mod (24 * hour) / second in
  let '(year, month, day) := civil_date (now / (24 * hour)) in
  zero_padded 4 (digits 20 year) ++ two_digits month ++ two_digits day ++ bytes_of "-"
  ++ two_digits (seconds / 3600) ++ two_digits (seconds / 60 mod 60) ++ two_digits (seconds mod 60)
  ++ bytes_of "." ++ zero_padded 9 (digits 20 (now mod second)).
Definition backup_name (now : time) : string := "rustdesk-backup-" +:+ of_bytes (stamp_text now) +:+ ".db".

Definition artifact (name : string) (v : BackupInspection) : BackupArtifact :=
  mkBackupArtifact name (inspection_SizeBytes v) (inspection_ModifiedAt v) (inspection_Users v) (inspection_Devices v)
    (inspection_Sessions v) (inspection_QuickCheck v).

(** Newest first. *)
Definition artifactPaths : Boot (list string) :=
  entries ← os_ReadDir;
  mret (SliceStable (λ a b, str_lt b a) (filter (λ entry, MatchString entry = true) entries)).

Definition safeMin (a b : Z) : Z := if a <? b then a else b.

Fixpoint remove_paths (paths : list string) : Boot unit :=
  match paths with
  | [] => mret tt
  | path :: rest => os_Remove path;; remove_paths rest
  end.
Definition pruneLocked (s : Service) : Boot unit :=
  paths ← artifactPaths;
  remove_paths (drop (Z.to_nat (safeMin (service_retention s) (Z.of_nat (length paths)))) paths).

Definition replaceFile (source target : string) : Boot unit :=
  removed ← attempt (os_Remove target);
  match removed with
  | Err e => if negb (bool_decide (e = ErrNotExist)) then fail e else os_Rename source target
  | Ok _ => os_Rename source target
  end.

Definition Path (name : string) : Boot string :=
  if negb (MatchString name) then fail ErrNotFound else
  info ← attempt (os_Stat name);
  if is_err info then fail ErrNotFound else mret name.

Definition Delete (name : string) : Boot unit := path ← Path name; os_Remove path.

Definition candidate : string := "restore.pending.db".
Definition marker : string := "restore.pending.sha256".

Definition RestorePending : Boot bool := found ← attempt (os_Stat marker); mret (negb (is_err found)).
Definition Policy (s : Service) : duration * Z := (service_interval s, service_retention s).
Definition CancelRestore : Boot unit :=
  attempt (os_Remove candidate);;
  removed ← attempt (os_Remove marker);
  match removed with
  | Err e => if bool_decide (e = ErrNotExist) then mret tt else fail e
  | Ok _ => mret tt
  end.

(** What the reader of an upload gives before it ends, and whether it ends in an
    error. *)
Record Upload := mkUpload { upload_Content : bytes; upload_Broken : bool }.

(** The line of the marker. *)
Definition checksum (content : bytes) : bytes := bytes_of (hex_encode (sha256_Sum content)).

Section Service.
Context `{Sqlite} `{SqlText} (modified : string → time).

Definition Create (s : Service) (now : time) (vacuumed : bytes) : Boot BackupArtifact :=
  let name := backup_name now in
  Backup name vacuumed;;
  secured ← attempt (os_Chmod name 384);
  match secured with
  | Err e => attempt (os_Remove name);; fail e
  | Ok _ =>
      inspection ← attempt (InspectBackup modified name);
      match inspection with
      | Err e => attempt (os_Remove name);; fail e
      | Ok inspection => pruneLocked s;; mret (artifact name inspection)
      end
  end.

Fixpoint inspect_all (paths : list string) : Boot (list BackupArtifact) :=
  match paths with
  | [] => mret []
  | path :: rest =>
      inspection ← attempt (InspectBackup modified path);
      result ← inspect_all rest;
      mret (match inspection with Ok v => artifact path v :: result | Err _ => result end)
  end.
Definition List : Boot (list BackupArtifact) := paths ← artifactPaths; inspect_all paths.

(** The end of [StageRestore]: the checked file becomes the one to restore. *)
Definition place_restore (temporary : string) (content : bytes) : Boot unit :=
  replaceFile temporary candidate;;
  os_WriteFile (marker +:+ ".tmp") (checksum content ++ [newline]) 384;;
  replaceFile (marker +:+ ".tmp") marker.
(** The body of [StageRestore] after the temporary file is open. *)
Definition stage (temporary : string) (upload : Upload) : Boot BackupInspection :=
  attempt (os_Chmod temporary 384);;
  let data := LimitReader (maximumRestoreSize + 1) (upload_Content upload) in
  let written := Z.of_nat (length data) in
  copied ← attempt (os_Write temporary data);
  closed ← attempt os_Close;
  if is_err copied || (upload_Broken upload && (written <=? maximumRestoreSize)) || is_err closed
     || (written =? 0) || (maximumRestoreSize <? written)
  then fail (ErrText "invalid restore upload") else
  inspection ← InspectBackup modified temporary;
  os_Stat temporary;;
  hashed ← attempt (os_ReadFile temporary);
  closed ← attempt os_Close;
  match hashed, closed with
  | Ok content, Ok _ =>
      place_restore temporary content;;
      mret inspection
  | _, _ => fail (ErrText "hash restore upload")
  end.

(** [random]: what [os.CreateTemp] puts in the name. *)
Definition StageRestore (random : string) (upload : Upload) : Boot BackupInspection :=
  let temporary := ".restore-" +:+ random +:+ ".db" in
  os_Create temporary 384;;
  result ← attempt (stage temporary upload);
  attempt (os_Remove temporary);;
  pure result.
End Service.

Definition ValidDatabasePath (value : string) : bool :=
  HasPrefix value "/" && forallb (λ a, negb (bool_decide (byte a ∈ [63; 0]))) (bytes_of value) && negb (HasPrefix value "file:").

(** ** httpapi/backups.go *)

Record restore_status := mkRestoreStatus { status_pending : bool; status_interval_seconds : Z; status_retention : Z }.

Section Handlers.
Context `{Sqlite} `{SqlText} (modified : string → time).
Implicit Types (backups : option Service) (c : Call) (p : Principal).

Definition listManagedBackups backups : Boot (Reply (list BackupArtifact)) :=
  match backups with
  | None => mret (writeError 409 "managed backups require SQLite")
  | Some _ =>
      values ← attempt (List modified);
      mret (match values with Ok values => writeJSON 200 values | Err _ => writeError 500 "backups unavailable" end)
  end.

Definition createManagedBackup backups c p (vacuumed : bytes) : Boot (Reply BackupArtifact) :=
  match backups with
  | None => mret (writeError 409 "managed backups require SQLite")
  | Some s =>
      value ← attempt (Create modified s (call_now c) vacuumed);
      match value with
      | Err _ => mret (writeError 500 "backup failed")
      | Ok value =>
          store (success c p "database_backup_create" {["name" := VString (artifact_Name value); "size_bytes" := VOther]});;
          mret (writeJSON 201 value)
      end
  end.

(** [http.ServeFile] of the whole file. *)
Definition downloadManagedBackup backups (name : string) : Boot (Reply bytes) :=
  match backups with
  | None => mret (writeError 409 "managed backups require SQLite")
  | Some _ =>
      path ← attempt (Path name);
      match path with
      | Err _ => mret (writeError 404 "backup not found")
      | Ok path =>
          content ← attempt (os_ReadFile path);
          mret (match content with
                | Ok content => mkReply 200 (Http.Value content)
                | Err e => if bool_decide (e = ErrNotExist) then writeError 404 "404 page not found"
                           else writeError 500 "500 Internal Server Error"
                end)
      end
  end.

Definition deleteManagedBackup backups c p (name : string) : Boot (Reply unit) :=
  match backups with
  | None => mret (writeError 409 "managed backups require SQLite")
  | Some _ =>
      deleted ← attempt (Delete name);
      match deleted with
      | Err e => mret (if bool_decide (e = ErrNotFound) then writeError 404 "backup not found"
                       else writeError 500 "backup deletion failed")
      | Ok _ =>
          store (success c p "database_backup_delete" {["name" := VString name]});;
          mret (mkReply 204 NoContent)
      end
  end.

(** [int64(interval.Seconds())] is the quotient below 2^22 seconds. *)
Definition restoreStatus backups : Boot (Reply restore_status) :=
  match backups with
  | None => mret (writeJSON 200 (mkRestoreStatus false 0 0))
  | Some s =>
      pending ← RestorePending;
      let '(interval, retention) := Policy s in
      mret (writeJSON 200 (mkRestoreStatus pending (Z.quot interval second) retention))
  end.

Definition stageRestore backups c p (contentLength : Z) (random : string) (upload : Upload) : Boot (Reply BackupInspection) :=
  match backups with
  | None => mret (writeError 409 "managed restore requires SQLite")
  | Some _ =>
      if 512 * 2 ^ 20 <? contentLength then mret (writeError 413 "backup is too large") else
      inspection ← attempt (StageRestore modified random upload);
      match inspection with
      | Err _ =>
          store (record c 0 (audit_event "database_restore_stage" (user_ID (principal_User p)) (session_ID (principal_Session p))
                               "" "denied" "invalid_backup" ∅));;
          mret (writeError 422 "invalid or incompatible SQLite backup")
      | Ok inspection =>
          store (success c p "database_restore_stage"
                   {["size_bytes" := VOther; "users" := VOther; "devices" := VOther; "sessions" := VOther]});;
          mret (writeJSON 202 inspection)
      end
  end.

Definition cancelRestore backups c p : Boot (Reply unit) :=
  match backups with
  | None => mret (writeError 409 "managed restore requires SQLite")
  | Some _ =>
      cancelled ← attempt CancelRestore;
      match cancelled with
      | Err _ => mret (writeError 500 "restore cancellation failed")
      | Ok _ => store (success c p "database_restore_cancel" ∅);; mret (mkReply 204 NoContent)
      end
  end.
End Handlers.

(** ** The start of the container *)

Inductive container := Unrestored | Refused | Restored (database : bytes).

Definition hex_byte (a : Ascii.ascii) : bool := digit_byte a || ((97 <=? byte a) && (byte a <=? 102)).
Definition first_line (l : bytes) : bytes := hd [] (Split newline l).

Definition StartContainer (database_driver database_path : string) (fs : gmap string file) : container :=
  match fs !! marker with
  | None => Unrestored
  | Some sums =>
      if negb (bool_decide (database_driver = "sqlite")) then Refused else
      if negb (HasPrefix database_path "/") || existsb (λ a, byte a =? 63) (bytes_of database_path) then Refused else
      match fs !! candidate with
      | None => Refused
      | Some database =>
          let restore_checksum := first_line (file_Content sums) in
          if negb (matches (replicate 64 hex_byte) restore_checksum) then Refused else
          if bool_decide (restore_checksum = checksum (file_Content database)) then Restored (file_Content database) else Refused
      end
  end.

(** ** What a restore applies *)

(** The requests of the service, and the uploads it staged. *)
Inductive backup_request :=
| Creating (s : Service) (now : time) (vacuumed : bytes)
| Listing
| Deleting (name : string)
| Staging (random : string) (upload : Upload)
| Cancelling
| Asking.

Section Restore.
Context `{Sqlite} `{SqlText} (modified : string → time).
Implicit Types (m : machine) (fs : gmap string file) (q : backup_request).

Definition serve_backup q : Boot unit :=
  match q with
  | Creating s now vacuumed => Create modified s now vacuumed;; mret tt
  | Listing => List modified;; mret tt
  | Deleting name => Delete name
  | Staging random upload => StageRestore modified random upload;; mret tt
  | Cancelling => CancelRestore
  | Asking => RestorePending;; mret tt
  end.

(** What the administrator was told: the last upload that was accepted and not
    cancelled since, and whether the last request about a restore succeeded. *)
Record decision := mkDecision { chosen : option bytes; settled : bool }.
Definition decide_after q (ok : bool) (before : decision) : decision :=
  match q with
  | Staging _ upload => if ok then mkDecision (Some (upload_Content upload)) true else mkDecision (chosen before) false
  | Cancelling => if ok then mkDecision None true else mkDecision (chosen before) false
  | _ => before
  end.

(** Each request comes with what happens to its operations on the disk. *)
Fixpoint serve_backups (history : list (list io * backup_request)) m (before : decision) : machine * decision :=
  match history with
  | [] => (m, before)
  | (ios, q) :: rest =>
      let '(r, m') := serve_backup q (start_on m ios) in
      serve_backups rest m' (decide_after q (negb (is_err r)) before)
  end.

(** A whole SQLite database with the tables of the program. *)
Definition restorable (content : bytes) : Prop :=
  1 ≤ Z.of_nat (length content) ≤ maximumRestoreSize ∧
  ∃ db, sqlite_open content = Some db ∧ sqlite_QuickCheck db = "ok"
        ∧ ∀ name, name ∈ ["users"; "devices"; "sessions"] → name ∈ (sqlite_Tables db).*1.

Definition uploads (history : list (list io * backup_request)) : list bytes :=
  omap (λ '(_, q), match q with Staging _ upload => Some (upload_Content upload) | _ => None end) history.

(** *** The files of a restore *)

Lemma matches_not name path : MatchString name = true → MatchString path = false → name ≠ path.
Proof. congruence. Qed.
Lemma artifact_not_restore name path : MatchString name = true → path ∈ [candidate; marker] → name ≠ path.
Proof. intros Hn Hp. apply matches_not; [done|]. repeat (apply elem_of_cons in Hp as [->|Hp]; [reflexivity|]). by apply elem_of_nil in Hp. Qed.
Lemma backup_name_not now path : path ∈ [candidate; marker] → backup_name now ≠ path.
Proof. intros Hp. repeat (apply elem_of_cons in Hp as [->|Hp]; [done|]). by apply elem_of_nil in Hp. Qed.
Lemma temporary_not random path : path ∈ [candidate; marker] → ".restore-" +:+ random +:+ ".db" ≠ path.
Proof. intros Hp. repeat (apply elem_of_cons in Hp as [->|Hp]; [done|]). by apply elem_of_nil in Hp. Qed.

Lemma artifactPaths_match m :
  boot artifactPaths (λ r _, match r with Ok paths => ∀ name, name ∈ paths → MatchString name = true | Err _ => True end) m.
Proof.
  apply boot_bind, boot_disk_op; [done|]. intros ios. apply boot_mret. intros name Hin.
  rewrite elem_of_SliceStable, list_elem_of_filter in Hin. by apply Hin.
Qed.

Lemma spares_paths path : spares path artifactPaths.
Proof. unfold artifactPaths. spare. Qed.

Lemma spares_remove_paths path paths :
  path ∈ [candidate; marker] → (∀ name, name ∈ paths → MatchString name = true) → spares path (remove_paths paths).
Proof.
  intros Hp. induction paths as [|name paths IH]; intros Hm; cbn [remove_paths]; [apply spares_mret|].
  apply spares_bind; [apply spares_Remove, artifact_not_restore; [apply Hm; left|done]|]. intros _. apply IH. intros other Ho. apply Hm. by right.
Qed.

Lemma spares_prune path s : path ∈ [candidate; marker] → spares path (pruneLocked s).
Proof.
  intros Hp. eapply spares_bind_given; [apply spares_paths|apply artifactPaths_match|]. cbv beta. intros paths Hm.
  apply spares_remove_paths; [done|]. intros name Hin. apply Hm. by apply (elem_of_sublist _ _ _ Hin), sublist_drop.
Qed.

Lemma spares_Create_backup path s now vacuumed : path ∈ [candidate; marker] → spares path (Create modified s now vacuumed).
Proof.
  intros Hp. pose proof (backup_name_not now path Hp). pose proof (spares_prune path s Hp).
  unfold Create, Backup, InspectBackup. spare.
Qed.

Lemma spares_List path : spares path (List modified).
Proof.
  apply spares_bind; [apply spares_paths|]. intros paths. induction paths as [|name paths IH]; cbn [inspect_all]; unfold InspectBackup; spare.
Qed.

Lemma spares_Delete path name : path ∈ [candidate; marker] → spares path (Delete name).
Proof.
  intros Hp. eapply (spares_bind_given _ (λ n, MatchString n = true)); [unfold Path; spare| |].
  - intros m. unfold Path. destruct (MatchString name) eqn:Hm; cbn [negb]; [|by apply boot_fail].
    apply boot_bind, boot_attempt, boot_disk_op; intros; cbn; [by apply boot_fail|].
    destruct (_ !! name); cbn; [by apply boot_mret|by apply boot_fail].
  - intros n Hn. by apply spares_Remove, artifact_not_restore.
Qed.

Lemma spares_Pending path : spares path RestorePending.
Proof. unfold RestorePending. spare. Qed.

(** *** Cancelling *)

Lemma CancelRestore_spec m :
  boot CancelRestore (λ r m',
    (held candidate m' = held candidate m ∨ held candidate m' = None) ∧
    match r with Ok _ => held marker m' = None | Err _ => held marker m' = held marker m end) m.
Proof.
  apply boot_bind, boot_attempt.
  apply (boot_mono _ (λ r m', (held candidate m' = held candidate m ∨ held candidate m' = None) ∧ held marker m' = held marker m)).
  { apply boot_disk_op; [by split; [left|]|]. intros ios. unfold held. destruct (disk_files (machine_disk m) !! candidate) as [f|] eqn:Hf; boot_simpl.
    - rewrite lookup_delete_eq, lookup_delete_ne by done. by split; [right|].
    - rewrite Hf. by split; [left|]. }
  intros r1 m1 [Hc Hm]. apply boot_bind, boot_attempt, boot_disk_op.
  - intros ios n. rewrite bool_decide_eq_false_2 by done. by apply boot_fail.
  - intros ios. unfold held in *. destruct (disk_files (machine_disk m1) !! marker) as [f|] eqn:Hf; boot_simpl.
    + apply boot_mret. boot_simpl. rewrite lookup_delete_eq, lookup_delete_ne by done. by split.
    + rewrite bool_decide_eq_true_2 by done. apply boot_mret. boot_simpl. by rewrite Hf.
Qed.

(** *** Staging *)

Lemma replaceFile_spec source target m :
  source ≠ target →
  boot (replaceFile source target) (λ r m',
    (∀ path, path ≠ source → path ≠ target → held path m' = held path m) ∧
    match r with
    | Ok _ => held target m' = held source m
    | Err _ => (held target m' = held target m ∨ held target m' = None) ∧ held source m' = held source m
    end) m.
Proof.
  intros Hne. apply boot_bind, boot_attempt.
  apply (boot_mono _ (λ r m',
    (∀ path, path ≠ target → held path m' = held path m) ∧ (held target m' = held target m ∨ held target m' = None))).
  { apply boot_disk_op; [by split; [|left]|]. intros ios. unfold held. destruct (disk_files (machine_disk m) !! target) as [f|] eqn:Hf; boot_simpl.
    - split; [|rewrite lookup_delete_eq; by right]. intros path Hp. by rewrite lookup_delete_ne.
    - split; [done|left; by rewrite Hf]. }
  intros r1 m1 [Hother Htarget].
  assert (Hrename : boot (os_Rename source target) (λ r m',
    (∀ path, path ≠ source → path ≠ target → held path m' = held path m) ∧
    match r with
    | Ok _ => held target m' = held source m
    | Err _ => (held target m' = held target m ∨ held target m' = None) ∧ held source m' = held source m
    end) m1).
  { apply boot_disk_op; [intros; split; [intros path _ Hp; by apply Hother|by split; [|apply Hother]]|]. intros ios.
    rewrite <-(Hother source) by done. unfold held in *. destruct (disk_files (machine_disk m1) !! source) as [f|] eqn:Hf; boot_simpl.
    - rewrite lookup_insert_eq. split; [|done]. intros path Hs Hp. rewrite lookup_insert_ne, lookup_delete_ne by done. by apply Hother.
    - split; [intros path _ Hp; by apply Hother|]. rewrite Hf. by split. }
  destruct r1 as [|e]; [exact Hrename|]. destruct (bool_decide _); [exact Hrename|]. apply boot_fail. split; [intros path _ Hp; by apply Hother|].
  by split; [|apply Hother].
Qed.

Lemma LimitReader_length limit l : 0 ≤ limit → Z.of_nat (length (LimitReader limit l)) = Z.min limit (Z.of_nat (length l)).
Proof.
  revert limit. induction l as [|a l IH]; intros limit Hl; cbn [LimitReader length]; [lia|].
  destruct (Z.leb_spec limit 0); cbn [length]; [lia|]. specialize (IH (limit - 1)). lia.
Qed.
Lemma LimitReader_all limit l : Z.of_nat (length l) ≤ limit → LimitReader limit l = l.
Proof.
  revert limit. induction l as [|a l IH]; intros limit Hl; cbn [LimitReader length] in *; [done|].
  destruct (Z.leb_spec limit 0); [lia|]. f_equal. apply IH. lia.
Qed.

Lemma table_rows_elem tables name n : table_rows tables name = Ok n → name ∈ tables.*1.
Proof.
  unfold table_rows. intros Ht. destruct (filter _ tables) as [|t [|]] eqn:Hf; try done.
  assert (Hin : t ∈ filter (λ t, t.1 = name) tables) by (rewrite Hf; left). apply list_elem_of_filter in Hin as [<- Hin].
  by apply list_elem_of_fmap_2.
Qed.

Lemma inspected_restorable content at_ v :
  inspected content at_ = Ok v → 1 ≤ Z.of_nat (length content) ≤ maximumRestoreSize → restorable content.
Proof.
  unfold inspected. intros Hi Hl. split; [exact Hl|]. destruct (sqlite_open content) as [db|]; [|done].
  destruct (bool_decide (sqlite_QuickCheck db = "ok")) eqn:Hq; [|done]. apply bool_decide_eq_true in Hq. cbn [negb] in Hi.
  destruct (table_rows _ "users") eqn:Hu; [|done]. destruct (table_rows _ "devices") eqn:Hd; [|done].
  destruct (table_rows _ "sessions") eqn:Hs; [|done]. exists db. split; [done|]. split; [done|]. intros name Hn.
  repeat (apply elem_of_cons in Hn as [->|Hn]; [by eapply table_rows_elem|]). by apply elem_of_nil in Hn.
Qed.

Lemma place_restore_spec temporary content m :
  temporary ∉ [candidate; marker; marker +:+ ".tmp"] →
  boot (place_restore temporary content) (λ r m',
    (held candidate m' = held candidate m ∨ held candidate m' = None ∨ held candidate m' = held temporary m) ∧
    match r with
    | Ok _ => held candidate m' = held temporary m ∧ held marker m' = Some (checksum content ++ [newline])
    | Err _ => held marker m' = held marker m ∨ held marker m' = None
    end) m.
Proof.
  rewrite !not_elem_of_cons. intros (Hc & Hm & Ht & _). apply boot_bind. eapply boot_mono; [by apply replaceFile_spec|].
  intros [[]|e] m1; cbv beta.
  2: { intros [Hother [[->| ->] _]]; rewrite Hother by done; by repeat split; auto. }
  intros [Hother Hcand]. rewrite <-(Hother marker) by done. apply boot_bind, boot_disk_op.
  { intros ios n. unfold held in *. boot_simpl. rewrite !lookup_insert_ne by done. rewrite Hcand. by split; [auto|left]. }
  intros ios. cbv beta iota zeta. set (m2 := mkMachine _ _).
  assert (H2 : ∀ path, path ≠ marker +:+ ".tmp" → held path m2 = held path m1).
  { intros path Hp. unfold held, m2. boot_simpl. by rewrite lookup_insert_ne. }
  assert (Hsum : held (marker +:+ ".tmp") m2 = Some (checksum content ++ [newline])).
  { unfold held, m2. boot_simpl. by rewrite lookup_insert_eq. }
  eapply boot_mono; [by apply replaceFile_spec|]. intros r m3 [Hother3 H3]. rewrite (Hother3 candidate), (H2 candidate), Hcand by done.
  split; [auto|]. destruct r as [[]|e]; [by rewrite H3|]. destruct H3 as [[->| ->] _]; [left; by apply H2|by right].
Qed.

(** What staging does to the files of a restore. *)
Definition staged (upload : Upload) m (failed : bool) m' : Prop :=
  (held candidate m' = held candidate m ∨ held candidate m' = None
   ∨ held candidate m' = Some (upload_Content upload) ∧ restorable (upload_Content upload)) ∧
  if failed then held marker m' = held marker m ∨ held marker m' = None
  else held candidate m' = Some (upload_Content upload) ∧ held marker m' = Some (checksum (upload_Content upload) ++ [newline])
       ∧ restorable (upload_Content upload).

Lemma staged_nothing upload m m' :
  held candidate m' = held candidate m → held marker m' = held marker m → staged upload m true m'.
Proof. unfold staged. intros -> ->. split; auto. Qed.

Lemma stage_spec temporary upload m :
  temporary ∉ [candidate; marker; marker +:+ ".tmp"] → held temporary m = Some [] →
  boot (stage modified temporary upload) (λ r, staged upload m (is_err r)) m.
Proof.
  intros Hne Hempty. pose proof Hne as Hne'. rewrite !not_elem_of_cons in Hne'. destruct Hne' as (Hc & Hm & Ht & _).
  apply boot_bind, boot_attempt, boot_quiet; [intros; apply spares_Chmod|]. intros _ m1 H1.
  apply boot_bind, boot_attempt. set (data := LimitReader _ _).
  apply (boot_mono _ (λ r m', (∀ path, path ≠ temporary → held path m' = held path m) ∧ match r with Ok _ => held temporary m' = Some data | Err _ => True end)).
  { rewrite <-(H1 temporary) in Hempty. unfold held in Hempty. destruct (disk_files (machine_disk m1) !! temporary) as [f|] eqn:Hf; [|done].
    injection Hempty as Hempty. apply boot_disk_op; intros; boot_simpl; rewrite Hf, Hempty; (split; [|try done]); try (intros path Hp; rewrite <-H1);
      unfold held; boot_simpl; rewrite ?lookup_insert_eq, ?lookup_insert_ne by done; done. }
  intros copied m2 [H2 Hdata]. assert (Hnothing : ∀ m', (∀ path, held path m' = held path m2) → staged upload m true m').
  { intros m' Hm'. apply staged_nothing; rewrite Hm'; by apply H2. }
  apply boot_bind, boot_attempt, boot_quiet; [intros; apply spares_Close|]. intros closed m3 H3.
  destruct (_ || _) eqn:Hbad; [apply boot_fail; by apply Hnothing|]. rewrite !orb_false_iff in Hbad.
  destruct Hbad as ((((Hok & _) & _) & Hpos) & Hmax). destruct copied as [[]|]; [|done]. clear Hok.
  apply Z.eqb_neq in Hpos. apply Z.ltb_ge in Hmax. unfold data in Hpos, Hmax. rewrite LimitReader_length in Hpos, Hmax by done.
  assert (data = upload_Content upload) as Hall by (apply LimitReader_all; unfold maximumRestoreSize in *; lia).
  rewrite Hall in Hdata. clear data Hall.
  apply boot_bind, boot_bind, boot_read. intros [content|e] m4 H4 Hread; [|apply Hnothing; intros; by rewrite H4].
  rewrite H3, Hdata in Hread. injection Hread as <-. apply boot_pure.
  destruct (inspected _ _) as [v|e] eqn:Hv; [|apply Hnothing; intros; by rewrite H4].
  apply inspected_restorable in Hv; [|unfold maximumRestoreSize in *; lia].
  apply boot_bind, boot_quiet; [intros; apply spares_Stat|]. intros [[]|e] m5 H5; [|apply Hnothing; intros; by rewrite H5, H4].
  apply boot_bind, boot_attempt, boot_read. intros hashed m6 H6 Hread.
  apply boot_bind, boot_attempt, boot_quiet; [intros; apply spares_Close|]. intros closed' m7 H7.
  assert (H76 : ∀ path, held path m7 = held path m2) by (intros; by rewrite H7, H6, H5, H4).
  destruct hashed as [content|]; [|by apply boot_fail, Hnothing]. destruct closed' as [|]; [|by apply boot_fail, Hnothing].
  rewrite H5, H4, H3, Hdata in Hread. injection Hread as <-.
  apply boot_bind. eapply boot_mono; [by apply place_restore_spec|]. intros r m8 [H8 Hr]. rewrite !H76, Hdata, !H2 in * by done.
  assert (Hcand : held candidate m8 = held candidate m ∨ held candidate m8 = None
                  ∨ held candidate m8 = Some (upload_Content upload) ∧ restorable (upload_Content upload)) by tauto.
  destruct r as [[]|e]; [apply boot_mret|]; (split; [exact Hcand|]); [by destruct Hr|exact Hr].
Qed.

Lemma temporary_fresh random : ".restore-" +:+ random +:+ ".db" ∉ [candidate; marker; marker +:+ ".tmp"].
Proof. rewrite !not_elem_of_cons. repeat split; try done. by apply not_elem_of_nil. Qed.

Lemma StageRestore_spec random upload m :
  boot (StageRestore modified random upload) (λ r, staged upload m (is_err r)) m.
Proof.
  unfold StageRestore. pose proof (temporary_fresh random) as Hfresh. set (temporary := ".restore-" +:+ _) in *.
  pose proof Hfresh as Hne. rewrite !not_elem_of_cons in Hne. destruct Hne as (Hc & Hm & _).
  apply boot_bind.
  apply (boot_mono _ (λ r m', (∀ path, path ≠ temporary → held path m' = held path m) ∧ match r with Ok _ => held temporary m' = Some [] | Err _ => True end)).
  { apply boot_disk_op; [by split|]. intros ios. unfold held. destruct (disk_files (machine_disk m) !! temporary); [by split|].
    boot_simpl. rewrite lookup_insert_eq. split; [|done]. intros path Hp. by rewrite lookup_insert_ne. }
  intros [[]|e] m1 [H1 Hempty]; [|apply staged_nothing; by apply H1].
  apply boot_bind, boot_attempt. eapply boot_mono; [by apply (stage_spec temporary upload)|]. intros result m2 Hstaged.
  apply boot_bind, boot_attempt.
  apply (boot_mono _ (λ r m', ∀ path, path ≠ temporary → held path m' = held path m2)).
  { unfold boot. intros path Hp. by apply spares_Remove. }
  intros r m3 H3. apply boot_pure. revert Hstaged. unfold staged. rewrite !H3, !H1 by done. done.
Qed.

(** *** Histories *)

(** What the files say after the requests that led to a decision. *)
Record on_disk (all : list bytes) (d : decision) m : Prop := {
  candidate_accepted : ∀ l, held candidate m = Some l → l ∈ all ∧ restorable l;
  marker_chosen : held marker m = None ∨
    ∃ l, chosen d = Some l ∧ held marker m = Some (checksum l ++ [newline]) ∧ l ∈ all ∧ restorable l;
  both_settled : settled d = true →
    match chosen d with
    | Some l => held candidate m = Some l ∧ held marker m = Some (checksum l ++ [newline])
    | None => held marker m = None
    end }.

Lemma on_disk_same all d m m' :
  held candidate m' = held candidate m → held marker m' = held marker m → on_disk all d m → on_disk all d m'.
Proof. intros Hc Hm [H1 H2 H3]. constructor; by rewrite ?Hc, ?Hm. Qed.

Lemma serve_backup_on_disk all d q m ios :
  (∀ random upload, q = Staging random upload → upload_Content upload ∈ all) → on_disk all d m →
  boot (serve_backup q) (λ r, on_disk all (decide_after q (negb (is_err r)) d)) (start_on m ios).
Proof.
  intros Hall Hd. assert (Hspares : ∀ x : Boot unit, (∀ path, path ∈ [candidate; marker] → spares path x) →
    boot x (λ r, on_disk all d) (start_on m ios)).
  { intros x Hx. unfold boot. eapply on_disk_same; [..|exact Hd]; (etransitivity; [apply Hx; set_solver|done]). }
  destruct q as [s now vacuumed| |name|random upload| |]; cbn [serve_backup decide_after].
  - apply Hspares. intros path Hp. apply spares_bind; [by apply spares_Create_backup|]. intros _. apply spares_mret.
  - apply Hspares. intros path Hp. apply spares_bind; [apply spares_List|]. intros _. apply spares_mret.
  - apply Hspares. intros path Hp. by apply spares_Delete.
  - specialize (Hall random upload eq_refl). apply boot_bind. eapply boot_mono; [apply StageRestore_spec|].
    intros r m' [Hc Hm]. change (held ?p (start_on m ios)) with (held p m) in *. destruct Hd as [H1 H2 H3].
    assert (Hcand : ∀ l, held candidate m' = Some l → l ∈ all ∧ restorable l).
    { intros l Hl. destruct Hc as [Hc|[Hc|[Hc Hr]]]; [rewrite Hc in Hl; by apply H1|congruence|]. rewrite Hc in Hl. by injection Hl as <-. }
    destruct r as [v|e]; cbn [is_err negb] in *; [apply boot_mret; cbn [is_err negb]|]; constructor; cbn [chosen settled]; try done.
    + right. destruct Hm as (_ & Hm & Hr). by eexists.
    + by destruct Hm as (? & ? & _).
    + destruct Hm as [->|Hm]; [exact H2|by left].
  - eapply boot_mono; [apply CancelRestore_spec|]. intros r m' [Hc Hm].
    change (held ?p (start_on m ios)) with (held p m) in *. destruct Hd as [H1 H2 H3].
    assert (Hcand : ∀ l, held candidate m' = Some l → l ∈ all ∧ restorable l).
    { intros l Hl. destruct Hc as [Hc|Hc]; [rewrite Hc in Hl; by apply H1|congruence]. }
    destruct r as [[]|e]; cbn [is_err negb]; constructor; cbn [chosen settled]; try done; [by left|by rewrite Hm].
  - apply Hspares. intros path Hp. apply spares_bind; [apply spares_Pending|]. intros _. apply spares_mret.
Qed.

Lemma serve_backups_on_disk history all d m :
  (∀ l, l ∈ uploads history → l ∈ all) → on_disk all d m →
  let '(m', d') := serve_backups history m d in on_disk all d' m'.
Proof.
  revert d m. induction history as [|[ios q] history IH]; intros d m Hall Hd; cbn [serve_backups]; [done|].
  assert (Hq : ∀ random upload, q = Staging random upload → upload_Content upload ∈ all).
  { intros random upload ->. apply Hall. left. }
  pose proof (serve_backup_on_disk all d q m ios Hq Hd) as Hs. unfold boot in Hs.
  destruct (serve_backup q _) as [r m']. apply IH; [|exact Hs]. intros l Hl. apply Hall. destruct q; cbn; try exact Hl. by right.
Qed.

Lemma hex_byte_digit z : 0 ≤ z < 16 → hex_byte (hex_digit z) = true.
Proof.
  intros Hz. assert (Hall : forallb (λ z, hex_byte (hex_digit z)) (seqZ 0 16) = true) by (vm_compute; reflexivity).
  rewrite forallb_forall in Hall. apply Hall, list_elem_of_In, elem_of_seqZ. lia.
Qed.

Lemma matches_replicate p l : forallb p l = true → matches (replicate (length l) p) l = true.
Proof. induction l as [|a l IH]; [done|]. cbn. intros [-> Hl]%andb_true_iff. by apply IH. Qed.

Lemma checksum_hex content : forallb hex_byte (checksum content) = true ∧ length (checksum content) = 64%nat.
Proof.
  unfold checksum, hex_encode. rewrite bytes_of_of_bytes. pose proof (sha256_Sum_length content) as Hl.
  assert (Hgen : ∀ l : bytes, forallb hex_byte (l ≫= λ a, [hex_digit (byte a / 16); hex_digit (byte a mod 16)]) = true
    ∧ length (l ≫= λ a, [hex_digit (byte a / 16); hex_digit (byte a mod 16)]) = (2 * length l)%nat).
  { induction l as [|a l [IH1 IH2]]; [done|]. pose proof (byte_range a). cbn [mbind list_bind app forallb length].
    pose proof (Z.mod_pos_bound (byte a) 16 ltac:(lia)). pose proof (Z.div_pos (byte a) 16 ltac:(lia) ltac:(lia)).
    pose proof (Z.div_lt_upper_bound (byte a) 16 16 ltac:(lia) ltac:(lia)). rewrite !hex_byte_digit by lia.
    rewrite IH2. split; [exact IH1|lia]. }
  destruct (Hgen (sha256_Sum content)) as [H1 H2]. by rewrite H1, H2, Hl.
Qed.

Lemma first_line_checksum content : first_line (checksum content ++ [newline]) = checksum content.
Proof.
  unfold first_line. rewrite Split_app; [done|]. intros Hin%list_elem_of_In. destruct (checksum_hex content) as [Hhex _].
  rewrite forallb_forall in Hhex. by specialize (Hhex _ Hin).
Qed.

(** *** The retention of backups *)

Lemma str_lt_asym a b : str_lt a b = true → str_lt b a = false.
Proof. unfold str_lt, String.ltb. rewrite (String.compare_antisym b a). by destruct (String.compare a b). Qed.

Lemma str_lt_negtrans a b c : str_lt a b = false → str_lt b c = false → str_lt a c = false.
Proof.
  unfold str_lt, String.ltb. revert b c. induction a as [|x a IH]; intros [|y b] [|z c]; cbn; try done.
  unfold Ascii.compare. destruct (N.compare_spec (Ascii.N_of_ascii x) (Ascii.N_of_ascii y)),
    (N.compare_spec (Ascii.N_of_ascii y) (Ascii.N_of_ascii z)), (N.compare_spec (Ascii.N_of_ascii x) (Ascii.N_of_ascii z)); try done; try lia.
  apply IH.
Qed.

Lemma remove_paths_spec paths m :
  boot (remove_paths paths) (λ r m', r = Ok tt → ∀ path, disk_files (machine_disk m') !! path =
    if decide (path ∈ paths) then None else disk_files (machine_disk m) !! path) m.
Proof.
  revert m. induction paths as [|p paths IH]; intros m; cbn [remove_paths].
  { apply boot_mret. intros _ path. by rewrite decide_False by apply not_elem_of_nil. }
  apply boot_bind, boot_disk_op; [done|]. intros ios. destruct (disk_files (machine_disk m) !! p); [|done].
  eapply boot_mono; [apply IH|]. cbv beta. intros r m' Hr Hok path. rewrite (Hr Hok). boot_simpl.
  destruct (decide (path ∈ paths)), (decide (path ∈ p :: paths)) as [Hin|Hout]; try done; [set_solver| |].
  - apply elem_of_cons in Hin as [->|]; [|done]. by rewrite lookup_delete_eq.
  - rewrite lookup_delete_ne; [done|]. intros ->. apply Hout. left.
Qed.

(** The backups in the directory. *)
Definition backups_of m : list string := filter (λ name, MatchString name = true) (map_to_list (disk_files (machine_disk m))).*1.

Lemma elem_of_backups_of name m : name ∈ backups_of m ↔ MatchString name = true ∧ is_Some (disk_files (machine_disk m) !! name).
Proof.
  unfold backups_of. rewrite list_elem_of_filter, list_elem_of_fmap. split; intros [Hm Hin]; (split; [done|]).
  - destruct Hin as ([n f] & -> & Hin%elem_of_map_to_list). by eexists.
  - destruct Hin as [f Hf]. exists (name, f). by rewrite elem_of_map_to_list.
Qed.

Lemma NoDup_backups_of m : NoDup (backups_of m).
Proof. apply NoDup_filter, NoDup_fst_map_to_list. Qed.

(** A sorted list is cut: what is kept is not before what is dropped. *)
Lemma sorted_cut {A} (R : A → A → Prop) l n x y : StronglySorted R l → x ∈ take n l → y ∈ drop n l → R x y.
Proof.
  intros Hs. revert n. induction Hs as [|z l Hs IH Hz]; intros [|n]; cbn; [by intros ?%not_elem_of_nil..|].
  intros [->|Hx]%elem_of_cons Hy; [|by eapply IH]. rewrite Forall_forall in Hz. by apply Hz, (elem_of_sublist _ _ _ Hy), sublist_drop.
Qed.

Lemma pruneLocked_spec s m :
  0 ≤ service_retention s →
  boot (pruneLocked s) (λ r m', r = Ok tt →
    Z.of_nat (length (backups_of m')) ≤ service_retention s ∧
    (∀ path, MatchString path = false → disk_files (machine_disk m') !! path = disk_files (machine_disk m) !! path) ∧
    (∀ name old, name ∈ backups_of m' → old ∈ backups_of m → old ∉ backups_of m' → str_lt name old = false)) m.
Proof.
  intros Hret. unfold pruneLocked. apply boot_bind, boot_bind, boot_disk_op; [done|]. intros ios. apply boot_mret.
  set (m1 := mkMachine _ _). set (paths := SliceStable (λ a b, str_lt b a) _).
  assert (Hpaths : ∀ name, name ∈ paths ↔ name ∈ backups_of m).
  { intros name. unfold paths, backups_of. by rewrite elem_of_SliceStable, !list_elem_of_filter, elem_of_SliceStable. }
  set (keep := Z.to_nat (safeMin (service_retention s) (Z.of_nat (length paths)))).
  assert (Hkeep : Z.of_nat (length (take keep paths)) ≤ service_retention s).
  { rewrite length_take. unfold keep, safeMin. destruct (Z.ltb_spec (service_retention s) (Z.of_nat (length paths))); lia. }
  assert (Hnodup : NoDup paths).
  { unfold paths. rewrite SliceStable_perm. apply NoDup_filter. rewrite SliceStable_perm. apply NoDup_fst_map_to_list. }
  assert (Hsorted : StronglySorted (before (λ a b, str_lt b a)) paths).
  { apply SliceStable_sorted; [intros x y; apply str_lt_asym|]. intros x y z Hxy Hyz. by apply (str_lt_negtrans z y x). }
  eapply boot_mono; [apply remove_paths_spec|]. cbv beta. intros r m' Hr Hok. specialize (Hr Hok). change (disk_files (machine_disk m1)) with (disk_files (machine_disk m)) in Hr.
  assert (Hin : ∀ name, name ∈ backups_of m' ↔ name ∈ take keep paths).
  { intros name. rewrite elem_of_backups_of, Hr. pose proof (take_drop keep paths) as Htd. rewrite <-Htd in Hnodup.
    apply NoDup_app in Hnodup as (_ & Hdis & _). destruct (decide (name ∈ drop keep paths)) as [Hd|Hd].
    - split; [by intros [_ []]|]. intros Ht. by destruct (Hdis name).
    - rewrite <-elem_of_backups_of, <-Hpaths, <-Htd at 1. rewrite elem_of_app. tauto. }
  split; [|split].
  - etransitivity; [|exact Hkeep]. apply inj_le, NoDup_incl_length; [apply NoDup_ListNoDup, NoDup_backups_of|].
    intros name. by rewrite <-!list_elem_of_In, Hin.
  - intros path Hp. rewrite Hr, decide_False; [done|]. intros Hd. pose proof (elem_of_sublist _ _ _ Hd (sublist_drop _ _)) as Hd'. clear Hd. rename Hd' into Hd.
    rewrite Hpaths, elem_of_backups_of in Hd. destruct Hd. congruence.
  - intros name old Hname Hold Hgone. rewrite Hin in Hname, Hgone. rewrite <-Hpaths, <-(take_drop keep paths), elem_of_app in Hold.
    destruct Hold as [?|Hold]; [done|]. exact (sorted_cut _ _ _ _ _ Hsorted Hname Hold).
Qed.

(** After a backup that succeeds there are at most [retention] backups, none is
    older by its name than one that was removed, and no other file changed. *)
Lemma Create_retention s now vacuumed m :
  0 ≤ service_retention s → MatchString (backup_name now) = true →
  boot (Create modified s now vacuumed) (λ r m', ∀ a, r = Ok a →
    Z.of_nat (length (backups_of m')) ≤ service_retention s ∧
    (∀ path, MatchString path = false → disk_files (machine_disk m') !! path = disk_files (machine_disk m) !! path) ∧
    (∀ name old, name ∈ backups_of m' → old ∈ backup_name now :: backups_of m → old ∉ backups_of m' → str_lt name old = false)) m.
Proof.
  intros Hret Hname. unfold Create. set (name := backup_name now) in *.
  pose (grown m' := is_Some (disk_files (machine_disk m') !! name) ∧
    ∀ path, path ≠ name → disk_files (machine_disk m') !! path = disk_files (machine_disk m) !! path).
  apply boot_bind. apply (boot_mono _ (λ r m', r = Ok tt → grown m')).
  { unfold Backup. apply boot_bind, boot_attempt, boot_disk_op; [intros; by apply boot_fail|]. intros ios.
    destruct (_ !! name); [by apply boot_fail|]. apply boot_disk_op; [done|]. intros ios' _. unfold grown. boot_simpl.
    rewrite lookup_insert_eq. split; [by eexists|]. intros path Hp. by rewrite lookup_insert_ne. }
  intros [[]|e] m1 H1; [|done]. specialize (H1 eq_refl).
  apply boot_bind, boot_attempt. apply (boot_mono _ (λ r m', grown m')).
  { apply boot_disk_op; [done|]. intros ios. destruct (disk_files (machine_disk m1) !! name) as [f|] eqn:Hf; [|done].
    unfold grown. boot_simpl. rewrite lookup_insert_eq. split; [by eexists|]. intros path Hp. rewrite lookup_insert_ne by done. by apply H1. }
  intros [[]|e] m2 H2; [|apply boot_bind, boot_attempt; unfold boot; destruct (os_Remove name m2); by apply boot_fail].
  apply boot_bind, boot_attempt. apply (boot_mono _ (λ r m', grown m')).
  { apply boot_bind, boot_disk_op; [done|]. intros ios. destruct (disk_files (machine_disk m2) !! name); [by apply boot_pure|done]. }
  intros [v|e] m3 [Hsome Hother]; [|apply boot_bind, boot_attempt; unfold boot; destruct (os_Remove name m3); by apply boot_fail].
  apply boot_bind. eapply boot_mono; [by apply pruneLocked_spec|]. cbv beta. intros [[]|e] m4 Hprune; [|done].
  destruct (Hprune eq_refl) as (Hlen & Hrest & Hold). apply boot_mret. intros _ _. split; [done|split].
  - intros path Hp. rewrite Hrest by done. apply Hother. congruence.
  - intros kept old Hkept Hin. apply Hold; [done|]. rewrite elem_of_backups_of. apply elem_of_cons in Hin as [->|Hin]; [done|].
    apply elem_of_backups_of in Hin as [Hm Hin]. split; [done|]. destruct (decide (old = name)) as [->|]; [done|by rewrite Hother].
Qed.

(** C34: a container that starts after any history of backup requests, whatever
    fails or is cut short on the disk, restores only the last upload that was
    accepted and not cancelled since, a whole SQLite database with the tables of
    the program; when the last request about a restore succeeded, it restores
    exactly that one, and nothing after a cancellation.  SHA-256 is assumed to
    tell the uploads apart. *)
Theorem staged_restore_applied history m driver path :
  held candidate m = None → held marker m = None →
  (∀ l l', l ∈ uploads history → l' ∈ uploads history → checksum l = checksum l' → l = l') →
  let '(m', d) := serve_backups history m (mkDecision None true) in
  (∀ l, StartContainer driver path (disk_files (machine_disk m')) = Restored l → chosen d = Some l ∧ restorable l) ∧
  (driver = "sqlite" → ValidDatabasePath path = true → settled d = true →
   StartContainer driver path (disk_files (machine_disk m')) = match chosen d with Some l => Restored l | None => Unrestored end).
Proof.
  intros Hc Hm Hsum. pose proof (serve_backups_on_disk history (uploads history) (mkDecision None true) m (λ l Hl, Hl)) as Hd.
  destruct (serve_backups _ _ _) as [m' d]. destruct Hd as [Hcand Hmark Hboth].
  { constructor; [by rewrite Hc|by left|done]. }
  unfold held in *. unfold StartContainer. split.
  - intros l. destruct (disk_files (machine_disk m') !! marker) as [sums|]; [|done].
    destruct Hmark as [?|(l0 & Hch & Hs & Hin & Hr)]; [done|]. injection Hs as Hs.
    destruct (negb (bool_decide (driver = _))); [done|]. destruct (negb (HasPrefix path _) || _); [done|].
    destruct (disk_files (machine_disk m') !! candidate) as [database|]; [|done].
    destruct (negb (matches _ _)); [done|]. case_bool_decide as Heq; [|done]. intros [= <-]. rewrite Hs, first_line_checksum in Heq.
    destruct (Hcand _ eq_refl) as [Hin' Hr']. by rewrite Hch, (Hsum _ _ Hin Hin' Heq).
  - intros -> Hpath Hsettled. specialize (Hboth Hsettled). destruct (chosen d) as [l|].
    + destruct Hboth as [Hl Hs]. destruct (disk_files (machine_disk m') !! marker) as [sums|]; [|done]. injection Hs as Hs.
      destruct (disk_files (machine_disk m') !! candidate) as [database|]; [|done]. injection Hl as Hl.
      unfold ValidDatabasePath in Hpath. rewrite !andb_true_iff in Hpath. destruct Hpath as [[-> Hq] _].
      assert (existsb (λ a, byte a =? 63) (bytes_of path) = false) as ->.
      { apply not_true_iff_false. intros (a & Ha & Heq)%existsb_exists. rewrite forallb_forall in Hq. specialize (Hq a Ha).
        apply Z.eqb_eq in Heq. rewrite Heq in Hq. done. }
      rewrite Hs, Hl, first_line_checksum. destruct (checksum_hex l) as [Hhex <-]. rewrite matches_replicate by done.
      by rewrite !bool_decide_eq_true_2.
    + by destruct (disk_files (machine_disk m') !! marker).
Qed.
End Restore.

(** ** At concrete files *)

#[local] Existing Instance ascii_sql.
#[local] Instance ex_sqlite : Sqlite := λ content,
  if bool_decide (take 6 content = bytes_of "SQLite")
  then Some (mkSqliteFile "ok" [("users", 1); ("devices", 0); ("sessions", 0)]) else None.

Definition ex_upload (s : string) : Upload := mkUpload (bytes_of s) false.
Definition ex_directory (files : gmap string file) : machine :=
  mkMachine (mkDisk [] files) (mkWorld (empty_db <| t_users := [] |>) [] (NewHub "src")).
(** The process dies after this many operations. *)
Definition dies_after (n : nat) : list io := replicate n Done ++ replicate 20 (Broken 0).

(** An upload is staged, another is refused, a third is staged and the process
    dies while a backup is made. *)
Definition ex_history : list (list io * backup_request) :=
  [([], Staging "1" (ex_upload "SQLite one")); ([], Staging "2" (ex_upload "a picture"));
   ([], Staging "3" (ex_upload "SQLite two")); (dies_after 2, Creating (mkService hour 3) 1700000000000000000 (bytes_of "SQLite now"))].

Lemma staged_restore_applied_witness :
  let '(m', d) := serve_backups (λ _, 0) ex_history (ex_directory ∅) (mkDecision None true) in
  StartContainer "sqlite" "/data/art.db" (disk_files (machine_disk m')) = Restored (bytes_of "SQLite two").
Proof.
  assert (Hsum : ∀ l l', l ∈ uploads ex_history → l' ∈ uploads ex_history → checksum l = checksum l' → l = l').
  { change (uploads ex_history) with [bytes_of "SQLite one"; bytes_of "a picture"; bytes_of "SQLite two"].
    intros l l' Hl Hl'. rewrite !elem_of_cons, elem_of_nil in Hl, Hl'.
    destruct Hl as [->|[->|[->|[]]]], Hl' as [->|[->|[->|[]]]]; try reflexivity; intros Heq; vm_compute in Heq; discriminate Heq. }
  pose proof (staged_restore_applied (λ _, 0) ex_history (ex_directory ∅) "sqlite" "/data/art.db" eq_refl eq_refl Hsum) as Ht.
  assert (Hd : (serve_backups (λ _, 0) ex_history (ex_directory ∅) (mkDecision None true)).2
               = mkDecision (Some (bytes_of "SQLite two")) true) by (vm_compute; reflexivity).
  destruct (serve_backups _ _ _ _) as [m' d]. cbn in Hd. subst d. destruct Ht as [_ Ht].
  exact (Ht eq_refl eq_refl eq_refl).
Defined.

(** When the process dies while a second upload is staged, the first one is lost
    and the container does not start until the marker is removed by hand. *)
Theorem second_upload_cut_blocks_start :
  let '(m', d) := serve_backups (λ _, 0)
    [([], Staging "1" (ex_upload "SQLite one")); (dies_after 10, Staging "2" (ex_upload "SQLite two"))]
    (ex_directory ∅) (mkDecision None true) in
  chosen d = Some (bytes_of "SQLite one") ∧
  StartContainer "sqlite" "/data/art.db" (disk_files (machine_disk m')) = Refused.
Proof. vm_compute. done. Qed.

(** When the clock was set back, the backup just made is the oldest by its name:
    it is removed at once and reported as made. *)
Theorem backup_after_clock_change_is_lost :
  let later := "rustdesk-backup-20240101-000000.000000000.db" in
  let m := ex_directory {[later := mkFile (bytes_of "SQLite old") 384]} in
  let '(r, m') := Create (λ _, 0) (mkService hour 1) 1700000000000000000 (bytes_of "SQLite now") m in
  ∃ a, r = Ok a ∧ artifact_Name a = "rustdesk-backup-20231114-221320.000000000.db" ∧ backups_of m' = [later].
Proof. vm_compute. eexists. done. Qed.
