(* ===== verification/ClientAddress.v ===== *)
(** * The address of a client behind proxies (art-api/internal/httpapi/server.go)

    [EnableOperations], [trustedProxyHeaders] and [clientIP], over what they use
    of net/netip: the text of addresses and prefixes.  The limiter of logins, the
    lockout, the audit and the sessions take the address of a request from here. *)

From S2P Require Export NetAddress.
From S2P Require Import Text.

(** ** net/netip *)

Inductive Addr := V4 (ip : list Z) | V6 (ip : list Z) (zone : bytes).
#[export] Instance Addr_eq_dec : EqDecision Addr.
Proof. solve_decision. Defined.

Definition dot : Ascii.ascii := ascii_of 46.
Definition percent_sign : Ascii.ascii := ascii_of 37.
Definition slash_sign : Ascii.ascii := ascii_of 47.

(** A decimal number of at most 255 without a leading zero. *)
Definition decimal_field (part : bytes) : option Z :=
  match part with
  | a :: _ :: _ => if bool_decide (a = ascii_of 48) then None else
                   match decimal part with Some n => if n <=? 255 then Some n else None | None => None end
  | _ => match decimal part with Some n => if n <=? 255 then Some n else None | None => None end
  end.
Definition parse_v4 (l : bytes) : option (list Z) :=
  match mapM decimal_field (Split dot l) with
  | Some ip => if bool_decide (length ip = 4%nat) then Some ip else None
  | None => None
  end.

Definition hex_value (a : Ascii.ascii) : option Z :=
  if (48 <=? byte a) && (byte a <=? 57) then Some (byte a - 48)
  else if (97 <=? byte a) && (byte a <=? 102) then Some (byte a - 87)
  else if (65 <=? byte a) && (byte a <=? 70) then Some (byte a - 55)
  else None.
(** The leading hexadecimal digits: how many, their value, and the rest. *)
Fixpoint hex_number (n : nat) (acc : Z) (l : bytes) : nat * Z * bytes :=
  match l with
  | a :: l' => match hex_value a with Some v => hex_number (S n) (acc * 16 + v) l' | None => (n, acc, l) end
  | [] => (n, acc, [])
  end.

(** The groups of an IPv6 address after the bytes [ip]; [ellipsis] is where a
    [::] stood.  One turn reads a group of two bytes, so nine turns are enough. *)
Fixpoint v6_groups (fuel : nat) (ip : list Z) (ellipsis : option nat) (l : bytes) : option (list Z * option nat) :=
  match fuel with
  | O => None
  | S fuel =>
      if bool_decide (16 ≤ length ip)%nat then match l with [] => Some (ip, ellipsis) | _ => None end else
      let '(digits, value, rest) := hex_number 0 0 l in
      if bool_decide (digits = 0%nat) || bool_decide (4 < digits)%nat then None else
      if bool_decide (head rest = Some dot) then
        if bool_decide (ellipsis = None) && negb (bool_decide (length ip = 12%nat)) || bool_decide (16 < length ip + 4)%nat then None
        else (λ v4, (ip ++ v4, ellipsis)) <$> parse_v4 l
      else
        let ip := ip ++ [value / 256; value mod 256] in
        match rest with
        | [] => Some (ip, ellipsis)
        | a :: rest =>
            if negb (bool_decide (a = colon)) then None else
            match rest with
            | [] => None
            | b :: rest' =>
                if bool_decide (b = colon) then
                  if bool_decide (ellipsis = None) then
                    match rest' with [] => Some (ip, Some (length ip)) | _ => v6_groups fuel ip (Some (length ip)) rest' end
                  else None
                else v6_groups fuel ip ellipsis rest
            end
        end
  end.

(** The zeros that the [::] stands for. *)
Definition v6_expand (ip : list Z) (ellipsis : option nat) : option (list Z) :=
  match ellipsis with
  | None => if bool_decide (length ip = 16%nat) then Some ip else None
  | Some i => if bool_decide (length ip < 16)%nat then Some (take i ip ++ replicate (16 - length ip) 0 ++ drop i ip) else None
  end.

Definition parse_v6 (s : bytes) : option Addr :=
  let read zone l :=
    match l with
    | [] => None
    | a :: l' =>
        match (if bool_decide (take 2 l = [colon; colon])
               then match drop 1 l' with [] => Some ([], Some 0%nat) | rest => v6_groups 9 [] (Some 0%nat) rest end
               else v6_groups 9 [] None l) with
        | Some (ip, ellipsis) => (λ ip, V6 ip zone) <$> v6_expand ip ellipsis
        | None => None
        end
    end in
  match cut_first percent_sign s with
  | Some (_, []) => None
  | Some (l, zone) => read zone l
  | None => read [] s
  end.

(** [netip.ParseAddr]: the first of the three bytes decides. *)
Definition ParseAddr (s : string) : option Addr :=
  let l := bytes_of s in
  match head (filter (λ a, a ∈ [dot; colon; percent_sign]) l) with
  | Some a => if bool_decide (a = dot) then (λ ip, V4 ip) <$> parse_v4 l
              else if bool_decide (a = colon) then parse_v6 l else None
  | None => None
  end.

Definition Unmap (a : Addr) : Addr :=
  match a with
  | V6 ip zone => if bool_decide (take 12 ip = v4_prefix) then V4 (drop 12 ip) else a
  | V4 _ => a
  end.

(** ** The text of an address *)

Definition v4_text (ip : list Z) : bytes :=
  match (λ n, digits 20 n) <$> ip with
  | [a; b; c; d] => a ++ dot :: b ++ dot :: c ++ dot :: d
  | _ => []
  end.
(** The 16-bit groups, and the first longest run of at least two that are zero. *)
Fixpoint v6_pairs (ip : list Z) : list Z :=
  match ip with
  | a :: b :: ip => (a * 256 + b) :: v6_pairs ip
  | _ => []
  end.
Fixpoint zero_run (groups : list Z) : nat :=
  match groups with
  | g :: groups => if g =? 0 then S (zero_run groups) else 0%nat
  | [] => 0%nat
  end.
Fixpoint longest_run (start : nat) (best : nat * nat) (groups : list Z) : nat * nat :=
  match groups with
  | [] => best
  | _ :: rest =>
      let n := zero_run groups in
      longest_run (S start) (if bool_decide (2 ≤ n)%nat && bool_decide (best.2 < n)%nat then (start, n) else best) rest
  end.
Fixpoint hex_digits (fuel : nat) (z : Z) : bytes :=
  match fuel with
  | O => []
  | S fuel => (if z <? 16 then [] else hex_digits fuel (z / 16)) ++ [hex_digit (z mod 16)]
  end.
Fixpoint joined_groups (groups : list Z) : bytes :=
  match groups with
  | [] => []
  | [g] => hex_digits 4 g
  | g :: groups => hex_digits 4 g ++ colon :: joined_groups groups
  end.
Definition v6_text (ip : list Z) : bytes :=
  let groups := v6_pairs ip in
  let '(start, n) := longest_run 0 (0%nat, 0%nat) groups in
  if bool_decide (n = 0%nat) then joined_groups groups
  else joined_groups (take start groups) ++ [colon; colon] ++ joined_groups (drop (start + n) groups).
Definition Addr_String (a : Addr) : string :=
  of_bytes (match a with
            | V4 ip => v4_text ip
            | V6 ip zone =>
                (if bool_decide (take 12 ip = v4_prefix) then bytes_of "::ffff:" ++ v4_text (drop 12 ip) else v6_text ip)
                ++ match zone with [] => [] | _ => percent_sign :: zone end
            end).

Example Addr_String_1 : Addr_String <$> ParseAddr "192.0.2.10" = Some "192.0.2.10". Proof. reflexivity. Qed.
Example Addr_String_2 : Addr_String <$> ParseAddr "2001:DB8:0:0:1:0:0:1" = Some "2001:db8::1:0:0:1". Proof. reflexivity. Qed.
Example Addr_String_3 : Addr_String <$> ParseAddr "fe80::1%eth0" = Some "fe80::1%eth0". Proof. reflexivity. Qed.
Example Addr_String_4 : Addr_String ∘ Unmap <$> ParseAddr "::ffff:192.0.2.1" = Some "192.0.2.1". Proof. reflexivity. Qed.
Example Addr_String_5 : Addr_String <$> ParseAddr "::" = Some "::". Proof. reflexivity. Qed.
Example ParseAddr_1 : ParseAddr "192.0.2.010" = None. Proof. reflexivity. Qed.
Example ParseAddr_2 : ParseAddr "1:2:3:4:5:6:7::8" = None. Proof. reflexivity. Qed.
Example ParseAddr_3 : ParseAddr "unknown" = None. Proof. reflexivity. Qed.

(** ** Prefixes *)

Record Prefix := mkPrefix { prefix_Addr : Addr; prefix_Bits : Z }.

(** [ParsePrefix(value)] and [Masked]; the bits below the prefix never count. *)
Definition ParsePrefix (value : string) : option Prefix :=
  match cut_last slash_sign (bytes_of value) with
  | None => None
  | Some (host, bits) =>
      match ParseAddr (of_bytes host), decimal bits with
      | Some a, Some n =>
          let limit := match a with V4 _ => 32 | V6 _ _ => 128 end in
          let zoned := match a with V6 _ (_ :: _) => true | _ => false end in
          if zoned || bool_decide (1 < length bits)%nat && bool_decide (head bits = Some (ascii_of 48)) || (limit <? n) then None
          else Some (mkPrefix a n)
      | _, _ => None
      end
  end.

(** [prefix.Contains(address)] *)
Definition Contains (prefix : Prefix) (a : Addr) : bool :=
  match prefix_Addr prefix, a with
  | V4 net, V4 ip => in_network net (prefix_Bits prefix) ip
  | V6 net _, V6 ip [] => in_network net (prefix_Bits prefix) ip
  | _, _ => false
  end.

Definition prefixContains (prefixes : list Prefix) (address : Addr) : bool := existsb (λ prefix, Contains prefix address) prefixes.

(** [EnableOperations]: the proxies, or [None] when one of them is no prefix. *)
Definition EnableOperations (trustedProxies : list string) : option (list Prefix) := mapM ParsePrefix trustedProxies.

(** ** The request *)

(** The transport address and the values of the headers about the client; a
    header may be on several lines. *)
Record Forwarded := mkForwarded {
  fwd_RemoteAddr : string;
  fwd_For : list string;
  fwd_RealIP : list string;
  fwd_Proto : list string }.

(** [Header.Get]: the first value. *)
Definition Header_Get (values : list string) : string := default "" (head values).

Definition clientIP (request : Forwarded) : string :=
  match SplitHostPort (fwd_RemoteAddr request) with
  | None => fwd_RemoteAddr request
  | Some (host, _) => host
  end.

Section Proxies.
Context `{Unicode} (trusted : list Prefix).

(** The last element of the chain that is an address and not a proxy. *)
Fixpoint last_untrusted (chain : list string) : option Addr :=
  match chain with
  | [] => None
  | text :: chain =>
      match last_untrusted chain with
      | Some a => Some a
      | None =>
          match ParseAddr (TrimSpace text) with
          | None => None
          | Some candidate => if prefixContains trusted (Unmap candidate) then None else Some (Unmap candidate)
          end
      end
  end.

(** The request that the next handler sees. *)
Definition trustedProxyHeaders (request : Forwarded) : Forwarded :=
  match ParseAddr (clientIP request) with
  | Some peer =>
      if prefixContains trusted (Unmap peer) then
        let chain := of_bytes <$> Split (ascii_of 44) (bytes_of (Header_Get (fwd_For request))) in
        match last_untrusted chain with
        | Some candidate =>
            mkForwarded (join_host_port (Addr_String candidate) "0") (fwd_For request) (fwd_RealIP request) (fwd_Proto request)
        | None => request
        end
      else mkForwarded (fwd_RemoteAddr request) [] [] []
  | None => mkForwarded (fwd_RemoteAddr request) [] [] []
  end.
End Proxies.

(** ** Whose address it is *)

Section Spoofing.
Context `{Unicode} (trusted : list Prefix).

Lemma Header_Get_cons value values : Header_Get (value :: values) = value.
Proof. done. Qed.

Lemma last_untrusted_app l1 l2 a :
  last_untrusted trusted l2 = Some a → last_untrusted trusted (l1 ++ l2) = Some a.
Proof. intros Hl. induction l1 as [|text l1 IH]; [done|]. cbn. by rewrite IH. Qed.

Definition proxy_text (text : string) : Prop :=
  ∀ a, ParseAddr (TrimSpace text) = Some a → prefixContains trusted (Unmap a) = true.

Lemma last_untrusted_proxies proxies : Forall proxy_text proxies → last_untrusted trusted proxies = None.
Proof.
  induction 1 as [|text proxies Ht _ IH]; [done|]. cbn. rewrite IH. destruct (ParseAddr _) as [a|] eqn:Ha; [|done]. by rewrite (Ht a).
Qed.

Lemma Split_comma (l1 l2 : bytes) sep : Split sep (l1 ++ sep :: l2) = Split sep l1 ++ Split sep l2.
Proof.
  induction l1 as [|c l1 IH]; cbn; [by rewrite decide_True|]. rewrite IH.
  case_decide; [done|]. destruct (Split sep l1) as [|part parts] eqn:Hs; [|done].
  destruct l1 as [|c' l1]; [done|]. cbn in Hs. case_decide; [done|]. by destruct (Split sep l1).
Qed.

(** C18: a client cannot choose the address that the server takes it for, as long
    as every trusted proxy appends to the first X-Forwarded-For line.  When the
    transport peer is no trusted proxy, the forwarding headers are removed and the
    address is that of the transport, unconditionally.  When it is one, and the
    first line of the header holds what the client sent ([spoofed], any bytes),
    then the address at which the first trusted proxy saw the client, then only
    trusted proxies, each appended to that same line, the address is the client's,
    whatever was sent and whatever further lines there are.  Without that
    condition it fails: the line of a proxy that adds one of its own is not read
    ([own_line_of_the_proxy_ignored]). *)
Theorem client_address_not_spoofed request peer :
  ParseAddr (clientIP request) = Some peer →
  (prefixContains trusted (Unmap peer) = false →
     trustedProxyHeaders trusted request = mkForwarded (fwd_RemoteAddr request) [] [] [])
  ∧ ∀ spoofed client proxies address lines,
      prefixContains trusted (Unmap peer) = true →
      fwd_For request = of_bytes (spoofed ++ ascii_of 44 :: JoinWith (ascii_of 44) (bytes_of <$> client :: proxies)) :: lines →
      Forall (λ text, ascii_of 44 ∉ bytes_of text) (client :: proxies) →
      ParseAddr (TrimSpace client) = Some address → prefixContains trusted (Unmap address) = false → Forall proxy_text proxies →
      fwd_RemoteAddr (trustedProxyHeaders trusted request) = join_host_port (Addr_String (Unmap address)) "0".
Proof.
  intros Hpeer. unfold trustedProxyHeaders. rewrite Hpeer. split; [by intros ->|].
  intros spoofed client proxies address lines -> Hline Hplain Hclient Htrust Hproxies. rewrite Hline, Header_Get_cons. rewrite bytes_of_of_bytes, Split_comma, fmap_app.
  rewrite (Split_JoinWith (ascii_of 44) (bytes_of <$> client :: proxies)) by (done || by apply Forall_fmap).
  rewrite (last_untrusted_app _ _ (Unmap address)); [done|]. rewrite <- list_fmap_compose.
  rewrite (list_fmap_ext _ id) by (intros; apply of_bytes_bytes_of). rewrite list_fmap_id. cbn.
  by rewrite last_untrusted_proxies, Hclient, Htrust.
Qed.
End Spoofing.

(** ** The theorems at a concrete installation *)

Definition ex_proxies : list Prefix := default [] (EnableOperations ["192.0.2.10/32"; "10.0.0.0/8"]).
Definition ex_forwarded (remote : string) (lines : list string) : Forwarded := mkForwarded remote lines ["203.0.113.9"] ["https"].

Lemma client_address_not_spoofed_witness :
  let spoofed := ex_forwarded "192.0.2.10:55012" ["8.8.8.8, unknown, 198.51.100.7, 10.1.2.3"] in
  @trustedProxyHeaders ascii_unicode ex_proxies (ex_forwarded "203.0.113.9:1" ["8.8.8.8"]) = mkForwarded "203.0.113.9:1" [] [] []
  ∧ fwd_RemoteAddr (@trustedProxyHeaders ascii_unicode ex_proxies spoofed) = "198.51.100.7:0".
Proof.
  cbv zeta. split.
  - apply (@client_address_not_spoofed ascii_unicode ex_proxies (ex_forwarded "203.0.113.9:1" ["8.8.8.8"]) (V4 [203; 0; 113; 9]));
      vm_compute; reflexivity.
  - apply (proj2 (@client_address_not_spoofed ascii_unicode ex_proxies
      (ex_forwarded "192.0.2.10:55012" ["8.8.8.8, unknown, 198.51.100.7, 10.1.2.3"]) (V4 [192; 0; 2; 10]) eq_refl)
      (bytes_of "8.8.8.8, unknown") " 198.51.100.7" [" 10.1.2.3"] (V4 [198; 51; 100; 7]) []).
    + vm_compute. reflexivity.
    + vm_compute. reflexivity.
    + apply (bool_decide_eq_true_1 (Forall _ _)). vm_compute. reflexivity.
    + vm_compute. reflexivity.
    + vm_compute. reflexivity.
    + apply Forall_cons; split; [|by apply Forall_nil]. intros a Ha. vm_compute in Ha. injection Ha as <-. vm_compute. reflexivity.
Defined.

(** A proxy that adds a line of its own instead of appending is not read: the
    line that the client sent is the first. *)
Theorem own_line_of_the_proxy_ignored :
  clientIP (@trustedProxyHeaders ascii_unicode ex_proxies (ex_forwarded "192.0.2.10:55012" ["8.8.8.8"; "198.51.100.7"])) = "8.8.8.8".
Proof. vm_compute. reflexivity. Qed.
