(* ===== verification/Explorer.v ===== *)
(** * The explorers of the console (art-api/internal/httpapi: audit_explorer.go,
      notifications.go, automation.go, dashboard_preferences.go, server.go)

    Searching and exporting the audit, the notifications, the rules of the
    automation and the layout of the dashboard.  A query string is the function
    [values.Get]; [marshal] is the text of [json.Marshal]. *)

From S2P Require Export DeviceApi Automation.
From S2P Require Import Config Sample.

(** [values.Get] of [request.URL.Query()]. *)
Definition Query : Type := string → string.

(** ** The audit *)

Section Audit.
Context `{Unicode} `{SqlText}.
(** [time.Parse(time.RFC3339, raw)] and [json.Marshal(event.Metadata)]. *)
Context (ParseRFC3339 : string → option time) (marshal : gmap string any → string).

Definition invalid_range : error := ErrText "invalid audit date range".

(** An end of the range that the query gives. *)
Definition parsed_date (raw : string) : res (option time) :=
  if bool_decide (raw = "") then Ok None else
  match ParseRFC3339 raw with Some t => Ok (Some t) | None => Err invalid_range end.

Definition parseAuditQuery (values : Query) : res AuditQuery :=
  let limit := Atoi_value (values "limit") in
  let offset := Atoi_value (values "offset") in
  let get name := TrimSpace (values name) in
  let query := mkAuditQuery limit offset (get "type") (get "result") (get "actor_user_id") (get "target_id") (get "ip")
                 (get "search") None None in
  if existsb (λ value, 128 <? len value)
       [aquery_Type query; aquery_Result query; aquery_ActorUserID query; aquery_TargetID query; aquery_IP query]
  then Err (ErrText "audit filter is too long") else
  if (256 <? len (aquery_Search query)) || (offset <? 0) || (10000000 <? offset) || (limit <? 0) || (500 <? limit)
  then Err (ErrText "invalid audit query") else
  match parsed_date (values "from"), parsed_date (values "to") with
  | Ok from, Ok to =>
      match from, to with
      | Some f, Some t => if t <? f then Err invalid_range else
                          Ok (mkAuditQuery limit offset (get "type") (get "result") (get "actor_user_id") (get "target_id")
                                (get "ip") (get "search") from to)
      | _, _ => Ok (mkAuditQuery limit offset (get "type") (get "result") (get "actor_user_id") (get "target_id")
                      (get "ip") (get "search") from to)
      end
  | _, _ => Err invalid_range
  end.

Definition listAudit (values : Query) : M (Reply (list AuditEvent)) :=
  events ← try (ListAudit (Atoi_value (values "limit")));
  ret (match events with Ok events => writeJSON 200 events | Err _ => writeError 500 "audit unavailable" end).

Definition queryAudit (values : Query) : M (Reply AuditPage) :=
  match parseAuditQuery values with
  | Err e => ret (writeError 400 (error_text e))
  | Ok query =>
      page ← try (QueryAudit query);
      ret (match page with Ok page => writeJSON 200 page | Err _ => writeError 500 "audit unavailable" end)
  end.

Definition auditSummary (values : Query) : M (Reply AuditSummary) :=
  match parseAuditQuery values with
  | Err e => ret (writeError 400 (error_text e))
  | Ok query =>
      summary ← try (AuditSummary_of query);
      ret (match summary with Ok summary => writeJSON 200 summary | Err _ => writeError 500 "audit summary unavailable" end)
  end.

Definition audit_columns : list string :=
  ["occurred_at"; "type"; "actor_user_id"; "actor_session_id"; "controller_device_id"; "target_rustdesk_id"; "ip"; "result";
   "reason"; "metadata"].
Definition audit_row_csv (e : AuditEvent) : list string :=
  [format_time (audit_OccurredAt e); spreadsheetSafe (audit_Type e); spreadsheetSafe (audit_ActorUserID e);
   spreadsheetSafe (audit_ActorSessionID e); spreadsheetSafe (audit_ControllerDevice e);
   spreadsheetSafe (audit_TargetRustDeskID e); spreadsheetSafe (audit_IP e); spreadsheetSafe (audit_Result e);
   spreadsheetSafe (audit_Reason e); spreadsheetSafe (marshal (audit_Metadata e))].

(** The loop over the pages: the rows written.  A page that cannot be read ends
    it, and nothing that was buffered is flushed, which [None] records.  Every
    page but the last has 500 rows, so 200 pages are all that are read. *)
Fixpoint export_pages (fuel : nat) (query : AuditQuery) (exported : Z) : M (option (list (list string))) :=
  match fuel with
  | O => ret (Some [])
  | S fuel =>
      if 100000 <=? exported then ret (Some []) else
      page ← try (QueryAudit query);
      match page with
      | Err _ => ret None
      | Ok page =>
          let n := Z.of_nat (length (apage_Events page)) in
          let query := query <| aquery_Offset := aquery_Offset query + n |> in
          let rows := audit_row_csv <$> apage_Events page in
          if (n =? 0) || (apage_Total page <=? aquery_Offset query) then ret (Some rows) else
          rest ← export_pages fuel query (exported + n);
          ret ((λ rest, rows ++ rest) <$> rest)
      end
  end.

Definition audit_file (rows : list (list string)) : bytes :=
  byte_order_mark ++ write_records semicolon_byte (cells <$> (audit_columns :: rows)).

(** After a failure the reader has the mark and at most part of the rows: [None]. *)
Definition exportAuditCSV (values : Query) : M (Reply (option bytes)) :=
  match parseAuditQuery values with
  | Err e => ret (writeError 400 (error_text e))
  | Ok query =>
      rows ← export_pages 200 (query <| aquery_Limit := 500 |> <| aquery_Offset := 0 |>) 0;
      ret (mkReply 200 (Http.Value (audit_file <$> rows)))
  end.
End Audit.

(** ** Notifications *)

Section Notifications.

Definition listNotifications (values : Query) : M (Reply (list Notification * Z)) :=
  found ← try (ListNotifications (Atoi_value (values "limit")) (bool_decide (values "unread" = "true")));
  ret (match found with
       | Err _ => writeError 500 "notifications unavailable"
       | Ok found => writeJSON 200 (found, count_where (λ value, notification_ReadAt value = None) found)
       end).

Definition markNotificationRead (c : Call) (id : string) : M (Reply unit) :=
  marked ← try (MarkNotificationRead id (call_now c));
  ret (match marked with
       | Ok _ => mkReply 204 NoContent
       | Err ErrNotFound => writeError 404 "notification not found"
       | Err _ => writeError 500 "cannot update notification"
       end).

Definition markAllNotificationsRead (c : Call) : M (Reply unit) :=
  marked ← try (MarkAllNotificationsRead (call_now c));
  ret (match marked with Ok _ => mkReply 204 NoContent | Err _ => writeError 500 "cannot update notifications" end).
End Notifications.

(** ** The rules of the automation *)

Section Rules.
Context `{Unicode}.

Definition validAutomationRule (value : AutomationRule) : bool :=
  let size {A} (l : list A) := Z.of_nat (length l) in
  negb ((len (TrimSpace (rule_Name value)) <? 2) || (128 <? len (rule_Name value))
        || bool_decide (rule_EventTypes value = []) || (32 <? size (rule_EventTypes value))
        || bool_decide (rule_Actions value = []) || (8 <? size (rule_Actions value))
        || (rule_ThrottleSeconds value <? 0) || (2592000 <? rule_ThrottleSeconds value))
  && bool_decide (rule_Severity value ∈ ["info"; "warning"; "critical"])
  && forallb (λ action, bool_decide (action ∈ ["notification"; "webhook"])) (rule_Actions value)
  && bool_decide (map_Forall (λ key v, 1 ≤ len key ≤ 64 ∧ len v ≤ 256) (rule_Conditions value)).

Definition listAutomationRules : M (Reply (list AutomationRule)) :=
  values ← try ListAutomationRules;
  ret (match values with Ok values => writeJSON 200 values | Err _ => writeError 500 "automation rules unavailable" end).

Definition rule_event (c : Call) (p : Principal) (type id : string) : M unit :=
  record c 0 (audit_event type (user_ID (principal_User p)) (session_ID (principal_Session p)) "" "success" "" {["rule_id" := VString id]}).

Definition createAutomationRule (c : Call) (p : Principal) (fresh : string) (body : option AutomationRule) : M (Reply AutomationRule) :=
  match body with
  | None => ret (writeError 400 "invalid automation rule")
  | Some value =>
      if negb (validAutomationRule value) then ret (writeError 400 "invalid automation rule") else
      let value := value <| rule_ID := fresh |> <| rule_Name := TrimSpace (rule_Name value) |> <| rule_Enabled := true |>
                         <| rule_CreatedAt := call_now c |> <| rule_UpdatedAt := call_now c |> in
      created ← try (CreateAutomationRule value);
      if negb (is_ok created) then ret (writeError 500 "failed to create automation rule") else
      rule_event c p "automation_rule_create" fresh;;
      ret (writeJSON 201 value)
  end.

Definition updateAutomationRule (c : Call) (p : Principal) (ruleID : string) (body : option AutomationRule) : M (Reply AutomationRule) :=
  match body with
  | None => ret (writeError 400 "invalid automation rule")
  | Some value =>
      if negb (validAutomationRule value) then ret (writeError 400 "invalid automation rule") else
      let value := value <| rule_ID := ruleID |> <| rule_Name := TrimSpace (rule_Name value) |> <| rule_UpdatedAt := call_now c |> in
      updated ← try (UpdateAutomationRule value);
      match updated with
      | Err ErrNotFound => ret (writeError 404 "automation rule not found")
      | Err _ => ret (writeError 500 "failed to update automation rule")
      | Ok _ =>
          rule_event c p "automation_rule_update" ruleID;;
          ret (writeJSON 200 value)
      end
  end.

Definition deleteAutomationRule (c : Call) (p : Principal) (id : string) : M (Reply unit) :=
  deleted ← try (DeleteAutomationRule id);
  match deleted with
  | Err ErrNotFound => ret (writeError 404 "automation rule not found")
  | Err _ => ret (writeError 500 "failed to delete automation rule")
  | Ok _ =>
      rule_event c p "automation_rule_delete" id;;
      ret (mkReply 204 NoContent)
  end.

Definition listAutomationRuns (values : Query) : M (Reply (list AutomationRun)) :=
  runs ← try (ListAutomationRuns (values "rule_id") 200);
  ret (match runs with Ok runs => writeJSON 200 runs | Err _ => writeError 500 "automation runs unavailable" end).
End Rules.

(** ** The dashboard *)

Definition dashboardPreferenceKey : string := "console.dashboard.layout".
Definition dashboardWidgetIDs : list string :=
  ["online-devices"; "offline-devices"; "users"; "users-online"; "active-connections"; "rendezvous-peers"; "relay-load";
   "diagnostics"; "hbbs-sync"; "status-strip"].

Record dashboardLayout := mkDashboardLayout { layout_Version : Z; layout_Order : list string; layout_Hidden : list string }.

Definition defaultDashboardLayout : dashboardLayout := mkDashboardLayout 1 dashboardWidgetIDs [].

(** The known identifiers of a list, each once. *)
Fixpoint known_once (seen ids : list string) : list string :=
  match ids with
  | [] => []
  | id :: ids =>
      if bool_decide (id ∈ dashboardWidgetIDs) && negb (bool_decide (id ∈ seen)) then id :: known_once (id :: seen) ids
      else known_once seen ids
  end.

Definition normalizeDashboardLayout (input : dashboardLayout) : dashboardLayout * bool :=
  let order := known_once [] (layout_Order input) in
  let hidden := known_once [] (layout_Hidden input) in
  (mkDashboardLayout 1 (order ++ filter (λ id, id ∉ order) dashboardWidgetIDs) hidden,
   Z.of_nat (length hidden) <? Z.of_nat (length dashboardWidgetIDs)).

(** [json.Marshal] and [json.Unmarshal] of a layout. *)
Class LayoutJson := { layout_json : dashboardLayout → string; layout_of_json : string → option dashboardLayout }.

Section Dashboard.
Context `{LayoutJson}.

Definition getDashboardLayout (p : Principal) : M (Reply dashboardLayout) :=
  raw ← try (GetUserPreference (user_ID (principal_User p)) dashboardPreferenceKey);
  ret (match raw with
       | Err ErrNotFound => writeJSON 200 defaultDashboardLayout
       | Err _ => writeError 500 "dashboard preferences unavailable"
       | Ok raw => match layout_of_json raw with
                   | None => writeJSON 200 defaultDashboardLayout
                   | Some layout => writeJSON 200 (normalizeDashboardLayout layout).1
                   end
       end).

Definition putDashboardLayout (c : Call) (p : Principal) (body : option dashboardLayout) : M (Reply dashboardLayout) :=
  match body with
  | None => ret (writeError 400 "invalid dashboard layout")
  | Some input =>
      let '(layout, valid) := normalizeDashboardLayout input in
      if negb valid then ret (writeError 400 "at least one dashboard widget must remain visible") else
      stored ← try (UpsertUserPreference (user_ID (principal_User p)) dashboardPreferenceKey (layout_json layout) (call_now c));
      if negb (is_ok stored) then ret (writeError 500 "dashboard preferences unavailable") else
      record c 0 (audit_event "dashboard_layout_update" (user_ID (principal_User p)) (session_ID (principal_Session p)) "" "success" "" ∅);;
      ret (writeJSON 200 layout)
  end.
End Dashboard.

(** ** The export is complete *)

Section Complete.
Context `{Unicode} `{SqlText} (ParseRFC3339 : string → option time) (marshal : gmap string any → string).
Implicit Types (d : DB) (h : Hub).

(** The events that match, newest first. *)
Definition matching_events (q : AuditQuery) d : list AuditEvent :=
  scanAuditEvent <$> SliceStable audit_order (audit_rows q d).

Lemma wp_export_pages fuel k q d h :
  (200 ≤ k + fuel)%nat →
  wp false (export_pages marshal fuel (q <| aquery_Limit := 500 |> <| aquery_Offset := Z.of_nat (500 * k) |>) (Z.of_nat (500 * k)))
    (λ r d' h', d' = d ∧ h' = h
       ∧ r = Ok (Some (audit_row_csv marshal <$> take (Z.to_nat (100000 - Z.of_nat (500 * k))) (drop (500 * k) (matching_events q d))))) d h.
Proof.
  revert k. induction fuel as [|fuel IH]; intros k Hk.
  - apply wp_ret. by replace (Z.to_nat (100000 - Z.of_nat (500 * k))) with 0%nat by lia.
  - cbn [export_pages]. destruct (Z.leb_spec 100000 (Z.of_nat (500 * k))) as [Hdone|Hmore].
    { apply wp_ret. by replace (Z.to_nat (100000 - Z.of_nat (500 * k))) with 0%nat by lia. }
    set (q' := q <| aquery_Limit := 500 |> <| aquery_Offset := Z.of_nat (500 * k) |>).
    apply wp_bind, wp_try. unfold QueryAudit. apply wp_bind, wp_query; [done|]. apply wp_bind, wp_query; [done|]. apply wp_ret.
    cbn [apage_Events apage_Total].
    change ((aquery_Limit q' <? 1) || (500 <? aquery_Limit q')) with false. change (aquery_Limit q') with 500.
    change (aquery_Offset q') with (Z.of_nat (500 * k)). change (audit_rows q' d) with (audit_rows q d).
    assert ((Z.of_nat (500 * k) <? 0) || (10000000 <? Z.of_nat (500 * k)) = false) as -> by (apply orb_false_iff; split; apply Z.ltb_ge; lia).
    set (page := scanAuditEvent <$> limit_offset 500 (Z.of_nat (500 * k)) (SliceStable audit_order (audit_rows q d))).
    assert (Hpage : page = take 500 (drop (500 * k) (matching_events q d))).
    { unfold page, limit_offset, matching_events. rewrite Nat2Z.id. change (Z.to_nat 500) with 500%nat. by rewrite fmap_take, fmap_drop. }
    assert (Htotal : length (audit_rows q d) = length (matching_events q d)) by (unfold matching_events; by rewrite length_fmap, length_SliceStable).
    rewrite Htotal. clearbody page. subst page. set (rows := matching_events q d). clear Htotal.
    set (o := (500 * k)%nat) in *. rewrite length_take, length_drop.
    assert (Ho : Z.of_nat o ≤ 99500) by (unfold o in *; lia).
    assert (Hrest : take (Z.to_nat (100000 - Z.of_nat o)) (drop o rows)
                    = take 500 (drop o rows) ++ take (Z.to_nat (100000 - Z.of_nat (500 * S k))) (drop (500 * S k) rows)).
    { replace (500 * S k)%nat with (o + 500)%nat by (unfold o; lia). rewrite <- drop_drop, take_take_drop. f_equal. lia. }
    rewrite Hrest, fmap_app. change (aquery_Offset (q' <| aquery_Offset := ?x |>)) with x.
    destruct ((Z.of_nat (500 `min` (length rows - o)) =? 0)
              || (Z.of_nat (length rows) <=? Z.of_nat o + Z.of_nat (500 `min` (length rows - o)))) eqn:Hend.
    + apply wp_ret. split_and!; [done..|]. rewrite (drop_ge rows (500 * S k)) by (unfold o in *; apply orb_true_iff in Hend as [E%Z.eqb_eq|E%Z.leb_le]; lia).
      by rewrite take_nil, app_nil_r.
    + apply wp_bind. apply orb_false_iff in Hend as [_ Hend%Z.leb_gt].
      replace (500 `min` (length rows - o))%nat with 500%nat in * by lia.
      replace (Z.of_nat o + Z.of_nat 500) with (Z.of_nat (500 * S k)) by (unfold o; lia).
      change (q' <| aquery_Offset := ?x |>) with (q <| aquery_Limit := 500 |> <| aquery_Offset := x |>).
      eapply wp_mono; [apply IH; lia|]. intros r d' h' (-> & -> & ->). apply wp_ret. by split_and!.
Qed.

(** C30: the export of the audit is complete: when the query is accepted, the
    database does not fail and nothing is written meanwhile, the export ends and
    the file holds the columns and then, newest first, a row for every event
    that matches the query, up to the first 100000. *)
Theorem audit_export_complete values q w :
  parseAuditQuery ParseRFC3339 values = Ok q → w_faults w = [] →
  exportAuditCSV ParseRFC3339 marshal values w
  = (Ok (mkReply 200 (Http.Value (Some (audit_file (audit_row_csv marshal <$> take (Z.to_nat 100000) (matching_events q (w_db w))))))), w).
Proof.
  intros Hq Hf. unfold exportAuditCSV. rewrite Hq. destruct w as [d fs h]. cbn in Hf. subst fs.
  pose proof (wp_export_pages 200 0 q d h) as Hw. specialize (Hw ltac:(lia) [] eq_refl).
  unfold mbind, M_bind, bind. destruct (export_pages _ _ _ _ _) as [r [d' fs' h']].
  cbn in Hw. destruct Hw as [(-> & -> & ->) ->]. done.
Qed.
End Complete.

(** ** The layout of the dashboard *)

Lemma elem_of_known_once seen ids id :
  id ∈ known_once seen ids ↔ id ∈ ids ∧ id ∈ dashboardWidgetIDs ∧ id ∉ seen.
Proof.
  induction ids as [|x ids IH] in seen |- *; [set_solver|]. cbn [known_once].
  destruct (bool_decide (x ∈ dashboardWidgetIDs) && negb (bool_decide (x ∈ seen))) eqn:Hx.
  - rewrite andb_true_iff, negb_true_iff, bool_decide_eq_true, bool_decide_eq_false in Hx.
    rewrite !elem_of_cons, IH, not_elem_of_cons. destruct (decide (id = x)) as [->|]; naive_solver.
  - rewrite andb_false_iff, negb_false_iff, bool_decide_eq_true, bool_decide_eq_false in Hx.
    rewrite elem_of_cons, IH. destruct (decide (id = x)) as [->|]; naive_solver.
Qed.

Lemma NoDup_known_once seen ids : NoDup (known_once seen ids).
Proof.
  induction ids as [|x ids IH] in seen |- *; [constructor|]. cbn [known_once]. case_match; [|apply IH].
  constructor; [|apply IH]. rewrite elem_of_known_once. intros (_ & _ & Hn). apply Hn. left.
Qed.

Lemma known_once_id seen ids :
  NoDup ids → (∀ id, id ∈ ids → id ∈ dashboardWidgetIDs ∧ id ∉ seen) → known_once seen ids = ids.
Proof.
  intros Hnd. induction Hnd as [|x ids Hx Hnd IH] in seen |- *; intros Hids; [done|]. cbn [known_once].
  destruct (Hids x) as [Hk Hs]; [left|]. rewrite bool_decide_true, bool_decide_false by done. cbn [andb negb]. f_equal.
  apply IH. intros id Hid. split; [apply Hids; by right|]. apply not_elem_of_cons. split; [by intros ->|apply Hids; by right].
Qed.

(** A stored layout has every widget once, in an order that keeps the one given,
    and normalising it again changes nothing. *)
Theorem dashboard_layout_normal input :
  let layout := (normalizeDashboardLayout input).1 in
  layout_Order layout ≡ₚ dashboardWidgetIDs
  ∧ NoDup (layout_Hidden layout) ∧ (∀ id, id ∈ layout_Hidden layout ↔ id ∈ layout_Hidden input ∧ id ∈ dashboardWidgetIDs)
  ∧ known_once [] (layout_Order input) `prefix_of` layout_Order layout
  ∧ (normalizeDashboardLayout layout).1 = layout.
Proof.
  cbv zeta. unfold normalizeDashboardLayout. cbn [fst layout_Order layout_Hidden].
  set (order := known_once [] (layout_Order input)). set (hidden := known_once [] (layout_Hidden input)).
  assert (Hperm : order ++ filter (λ id, id ∉ order) dashboardWidgetIDs ≡ₚ dashboardWidgetIDs).
  { apply list.NoDup_Permutation.
    - apply NoDup_app. split_and!; [apply NoDup_known_once|by intros id Hid [? _]%list_elem_of_filter|].
      apply NoDup_filter. apply (bool_decide_eq_true_1 (NoDup _)). reflexivity.
    - apply (bool_decide_eq_true_1 (NoDup _)). reflexivity.
    - intros id. rewrite elem_of_app, list_elem_of_filter.
      assert (id ∈ order → id ∈ dashboardWidgetIDs) by (unfold order; rewrite elem_of_known_once; tauto).
      destruct (decide (id ∈ order)); tauto. }
  assert (Hhidden : ∀ id, id ∈ hidden ↔ id ∈ layout_Hidden input ∧ id ∈ dashboardWidgetIDs).
  { intros id. unfold hidden. rewrite elem_of_known_once. pose proof (not_elem_of_nil id). tauto. }
  split_and!; [done|apply NoDup_known_once|done|by eexists|].
  set (all := order ++ _) in *. clearbody all. f_equal.
  - rewrite known_once_id.
    + rewrite filter_none; [by rewrite app_nil_r|]. intros id Hid Hn. apply Hn. by rewrite Hperm.
    + rewrite Hperm. apply (bool_decide_eq_true_1 (NoDup _)). reflexivity.
    + intros id Hid. rewrite Hperm in Hid. split; [done|apply not_elem_of_nil].
  - apply known_once_id; [apply NoDup_known_once|]. intros id Hid. split; [by apply Hhidden|apply not_elem_of_nil].
Qed.

(** ** The theorem at a concrete installation *)

Definition ex_audit_row (id type : string) (at_ : Z) : AuditEvent := mkAuditEvent id at_ type "u1" "" "" "d1" "10.0.0.7" "success" "" ∅.
Definition ex_audit_world : world :=
  mkWorld (ex_accounts <| t_audit_events := [ex_audit_row "a1" "login_success" 5; ex_audit_row "a2" "login_failed" 7;
                                             ex_audit_row "a3" "login_success" 9] |>) [] (NewHub "src").
Definition ex_audit_query : Query := λ name, if bool_decide (name = "type") then " login_success" else "".

Lemma audit_export_complete_witness :
  @exportAuditCSV ascii_unicode ascii_sql (λ _, None) (λ _, "{}") ex_audit_query ex_audit_world
  = (Ok (mkReply 200 (Http.Value (Some (@audit_file ascii_unicode (@audit_row_csv (λ _, "{}") <$>
        [scanAuditEvent (ex_audit_row "a3" "login_success" 9); scanAuditEvent (ex_audit_row "a1" "login_success" 5)]))))),
     ex_audit_world).
Proof.
  apply (@audit_export_complete ascii_unicode ascii_sql (λ _, None) (λ _, "{}") ex_audit_query
    (mkAuditQuery 0 0 "login_success" "" "" "" "" "" None None) ex_audit_world).
  - vm_compute. reflexivity.
  - reflexivity.
Defined.
