(* ===== verification/Console.v ===== *)
(** * Accounts and sessions in the console (art-api/internal/httpapi: server.go,
      session_center.go, mfa.go)

    The handlers of a signed-in account, of its sessions and its second factor,
    the session centre, the list of accounts and the registration of a new one.
    The limiter of registrations is passed in and out. *)

From S2P Require Export Explorer Settings Lockout.
From S2P Require Import Keeps.

Section Sessions.
Context `{Unicode} `{SqlText}.

(** ** The sessions of an account *)

Definition console_event (c : Call) (p : Principal) (type : string) (metadata : gmap string any) : M unit :=
  record c 0 (audit_event type (user_ID (principal_User p)) (session_ID (principal_Session p)) "" "success" "" metadata).

Definition logout (req : Request) (c : Call) (p : Principal) : M (Reply unit) :=
  revoked ← try (Auth.RevokeSession (session_ID (principal_Session p)) (call_now c));
  if negb (is_ok revoked) then ret (writeError 500 "logout failed") else
  record c 0 (audit_event "logout" (user_ID (principal_User p)) (session_ID (principal_Session p)) (request_IP req) "success" "" ∅);;
  ret (mkReply 200 NoContent).

Definition logoutAll (c : Call) (p : Principal) : M (Reply unit) :=
  revoked ← try (Auth.RevokeAll (user_ID (principal_User p)) (call_now c));
  if negb (is_ok revoked) then ret (writeError 500 "logout failed") else
  console_event c p "session_revoke_all" ∅;;
  ret (mkReply 200 NoContent).

Definition me (p : Principal) : M (Reply ClientUser) := ret (writeJSON 200 (clientUser (principal_User p))).

Definition revokeSession (c : Call) (p : Principal) (sessionID : string) : M (Reply unit) :=
  if negb (bool_decide (sessionID = session_ID (principal_Session p)))
     && negb (hasPermission (principal_User p) PermissionSessionsRevoke)
  then ret (writeError 403 "forbidden") else
  revoked ← try (Auth.RevokeSession sessionID (call_now c));
  if negb (is_ok revoked) then ret (writeError 500 "session revoke failed") else
  console_event c p "session_revoke" {["revoked_session_id" := VString sessionID]};;
  ret (mkReply 200 NoContent).

(** ** The session centre *)

Definition parseSessionQuery (values : Query) (now : time) : res SessionQuery :=
  let limit := Atoi_value (values "limit") in
  let offset := Atoi_value (values "offset") in
  let get name := TrimSpace (values name) in
  let query := mkSessionQuery limit offset (get "status") (get "user_id") (get "search") now in
  if (limit <? 0) || (500 <? limit) || (offset <? 0) || (10000000 <? offset) || (256 <? len (squery_Search query))
     || (128 <? len (squery_UserID query))
  then Err (ErrText "invalid session query") else
  if negb (bool_decide (squery_Status query ∈ [""; "active"; "revoked"; "expired"]))
  then Err (ErrText "invalid session status") else Ok query.

Definition mark_current (p : Principal) (r : SessionRecord) : SessionRecord :=
  mkSessionRecord (srecord_Session r) (srecord_Username r) (srecord_DisplayName r) (srecord_UserEnabled r) (srecord_Status r)
    (bool_decide (session_ID (srecord_Session r) = session_ID (principal_Session p))).

Definition querySessions (c : Call) (p : Principal) (values : Query) : M (Reply SessionPage) :=
  match parseSessionQuery values (call_now c) with
  | Err e => ret (writeError 400 (error_text e))
  | Ok query =>
      page ← try (QuerySessions query (call_now c));
      ret (match page with
           | Err _ => writeError 500 "sessions unavailable"
           | Ok page => writeJSON 200 (mkSessionPage (mark_current p <$> spage_Sessions page) (spage_Total page)
                                         (spage_Limit page) (spage_Offset page))
           end)
  end.

Definition sessionSummary (c : Call) : M (Reply SessionSummary) :=
  result ← try (SessionSummary_of (call_now c));
  ret (match result with Ok result => writeJSON 200 result | Err _ => writeError 500 "session summary unavailable" end).

Definition listSessions (c : Call) : M (Reply (list Session)) :=
  sessions ← try (ListSessions (call_now c));
  ret (match sessions with Ok sessions => writeJSON 200 sessions | Err _ => writeError 500 "sessions unavailable" end).

(** The check of a selection: the trimmed identifiers, or the reply. *)
Fixpoint check_selection (p : Principal) (now : time) (seen ids : list string) : M (Reply Z + list string) :=
  match ids with
  | [] => ret (inr [])
  | id :: ids =>
      let id := TrimSpace id in
      if (128 <? len id) || bool_decide (id = "") || bool_decide (id ∈ seen) || bool_decide (id = session_ID (principal_Session p))
      then ret (inl (writeError 409 "current session cannot be revoked by a bulk operation")) else
      found ← try (FindSession id);
      if negb (is_ok found) then ret (inl (writeError 404 "session not found")) else
      rest ← check_selection p now (id :: seen) ids;
      ret (match rest with inl r => inl r | inr rest => inr (id :: rest) end)
  end.

(** The answer counts the sessions. *)
Definition bulkRevokeSessions (c : Call) (p : Principal) (body : option (list string)) : M (Reply Z) :=
  match body with
  | None => ret (writeError 400 "invalid session selection")
  | Some ids =>
      let size := Z.of_nat (length ids) in
      if (size <? 1) || (500 <? size) then ret (writeError 400 "invalid session selection") else
      checked ← check_selection p (call_now c) [] ids;
      match checked with
      | inl reply => ret reply
      | inr ids =>
          revoked ← try (for_each (λ id, Auth.RevokeSession id (call_now c)) ids);
          if negb (is_ok revoked) then ret (writeError 500 "session revoke failed") else
          console_event c p "session_bulk_revoke" {["session_ids" := VOther; "count" := VOther]};;
          ret (writeJSON 200 size)
      end
  end.

(** ** The accounts *)

(** Each account with its groups. *)
Definition listUsers : M (Reply (list (ClientUser * list string))) :=
  users ← try ListUsers;
  match users with
  | Err _ => ret (writeError 500 "users unavailable")
  | Ok users =>
      memberships ← try ListUserGroupMemberships;
      ret (match memberships with
           | Err _ => writeError 500 "users unavailable"
           | Ok memberships =>
               writeJSON 200 ((λ user, (clientUser user, user_groups (user_ID user) memberships)) <$> users)
           end)
  end.
End Sessions.

(** ** The second factor *)

Section SecondFactor.
Context `{Unicode} `{Aead}.

Definition factor_event (c : Call) (p : Principal) (type : string) : M unit := console_event c p type ∅.

Definition enrollTOTP (s : Server) (c : Call) (p : Principal) (r : Random) : M (Reply Enrollment) :=
  if user_TOTPEnabled (principal_User p) then ret (writeError 409 "two-factor authentication is already enabled") else
  begun ← try (Begin (server_mfa s) (principal_User p) r (call_now c));
  match begun with
  | Err _ => ret (writeError 500 "two-factor enrollment failed")
  | Ok enrollment =>
      factor_event c p "mfa_enrollment_started";;
      ret (writeJSON 200 enrollment)
  end.

(** What follows a change of the second factor. *)
Definition factor_changed (c : Call) (user : User) : M unit :=
  try (RevokeUserSessions (user_ID user) (call_now c));;
  publish UserUpdated (PUser user) (call_now c);;
  publish SessionRevokedAll (PUserID (user_ID user)) (call_now c).

Definition confirmTOTP (s : Server) (c : Call) (p : Principal) (body : option string) : M (Reply ClientUser) :=
  match body with
  | None => ret (writeError 400 "invalid request")
  | Some code =>
      confirmed ← try (Confirm (server_mfa s) (principal_User p) code (call_now c));
      match confirmed with
      | Err ErrInvalidCode => ret (writeError 401 "invalid two-factor code")
      | Err _ => ret (writeError 500 "two-factor confirmation failed")
      | Ok user =>
          factor_changed c user;;
          record c 0 (audit_event "mfa_enabled" (user_ID user) (session_ID (principal_Session p)) "" "success" "" ∅);;
          ret (writeJSON 200 (clientUser user))
      end
  end.

Definition disableTOTP (s : Server) (c : Call) (p : Principal) (body : option string) : M (Reply unit) :=
  match body with
  | None => ret (writeError 400 "invalid request")
  | Some code =>
      disabled ← try (Disable (server_mfa s) (principal_User p) code (call_now c));
      match disabled with
      | Err ErrInvalidCode => ret (writeError 401 "invalid two-factor code")
      | Err _ => ret (writeError 500 "two-factor disable failed")
      | Ok user =>
          factor_changed c user;;
          record c 0 (audit_event "mfa_disabled" (user_ID user) (session_ID (principal_Session p)) "" "success" "" ∅);;
          ret (mkReply 200 NoContent)
      end
  end.

Definition regenerateRecoveryCodes (s : Server) (c : Call) (p : Principal) (r : Random) (body : option string)
    : M (Reply (list string)) :=
  match body with
  | None => ret (writeError 400 "invalid request")
  | Some code =>
      codes ← try (RegenerateRecoveryCodes (server_mfa s) (principal_User p) code r (call_now c));
      match codes with
      | Err ErrInvalidCode => ret (writeError 401 "invalid two-factor code")
      | Err _ => ret (writeError 500 "recovery code generation failed")
      | Ok codes =>
          factor_event c p "mfa_recovery_codes_regenerated";;
          ret (writeJSON 200 codes)
      end
  end.
End SecondFactor.

(** ** Registration *)

Section Registration.
Context `{Unicode} `{Argon2} `{MailAddress}.

(** Whether it is open, whether an administrator approves, and the policy. *)
Definition registrationOptions (s : Configured) : Reply (bool * bool * PasswordPolicy) :=
  let configured := conf_values s in
  let policy := Auth.passwordPolicy (conf_auth s) in
  writeJSON 200 (values_RegistrationEnabled configured, negb (values_RegistrationAutoApprove configured),
    mkPasswordPolicy (Z.max 1 (MinimumLength policy)) (RequireUpper policy) (RequireLower policy) (RequireNumber policy)
      (RequireSpecial policy)).

(** The status of the new account. *)
Definition register (s : Configured) (req : Request) (c : Call) (l : LoginLimiter) (body : option createUserRequest)
    : M (Reply string * LoginLimiter) :=
  let now := call_now c in let ip := request_IP req in
  if negb (values_RegistrationEnabled (conf_values s)) then ret (writeError 404 "registration is disabled", l) else
  let '(allowed, _, l) := Allowed l ip now in
  if negb allowed then ret (writeError 429 "too many registration attempts", l) else
  let l := Failure l ip now in
  match body with
  | None => ret (writeError 400 "invalid request", l)
  | Some input =>
      let username := ToLower (TrimSpace (newuser_Username input)) in
      let email := TrimSpace (newuser_Email input) in
      let display := TrimSpace (newuser_DisplayName input) in
      if negb (validUsername username) || (len (newuser_Password input) <? 1) || (1024 <? len (newuser_Password input))
         || (256 <? len display) || negb (validEmail email)
      then ret (writeError 400 "invalid registration data", l) else
      let autoApprove := values_RegistrationAutoApprove (conf_values s) in
      registered ← try (Register (conf_auth s) (mkCreateUserInput username email (newuser_Password input) display "" false) autoApprove
                          (call_entropy c) now);
      match registered with
      | Err ErrPasswordPolicy => ret (writeError 400 (error_text ErrPasswordPolicy), l)
      | Err _ => ret (writeError 409 "account could not be registered", l)
      | Ok user =>
          let status := if autoApprove then ApprovalApproved else ApprovalPending in
          record c 0 (audit_event "user_registration" (user_ID user) "" ip status ""
                        {["username" := VString (user_Username user); "automatic_approval" := VBool autoApprove]});;
          ret (writeJSON 202 status, l)
      end
  end.
End Registration.

(** ** What a selection cannot do *)

Section Selection.
Context `{Unicode} `{SqlText} (c : Call) (p : Principal).
Implicit Types (d : DB) (h : Hub).

Let own : string := session_ID (principal_Session p).
(** The rows of the caller's session stay as they are. *)
Definition caller_kept (rows : list Session) d : Prop := filter (λ s, session_ID s = own) (t_sessions d) = rows.

Lemma filter_update_where_other {A} (P Q : A → Prop) `{∀ x, Decision (P x)} `{∀ x, Decision (Q x)} f t :
  (∀ r, P r → ¬ Q r ∧ ¬ Q (f r)) → filter Q (update_where P f t) = filter Q t.
Proof.
  intros Hf. induction t as [|r t IH]; [done|]. unfold update_where in *. cbn [fmap list_fmap].
  destruct (decide (P r)) as [HP|HP].
  - destruct (Hf r HP) as [Hn Hnf]. by rewrite !filter_cons_False, IH by done.
  - rewrite !filter_cons, IH. done.
Qed.

Lemma keeps_revoke rows id now : id ≠ own → keeps (caller_kept rows) (Auth.RevokeSession id now).
Proof.
  intros Hid. apply keeps_bind.
  - apply keeps_try. apply keeps_bind; [|intros; apply keeps_ret]. intros d h Hd. apply wp_sql_update_returning; try done.
    intros r d' _ _ -> _. unfold caller_kept in *. cbn. rewrite filter_update_where_other; [done|]. cbn. naive_solver.
  - intros [s|e]; [apply keeps_publish|]. case_bool_decide; [apply keeps_ret|apply keeps_throw].
Qed.

Lemma check_selection_spec rows now seen ids d h :
  caller_kept rows d →
  wp true (check_selection p now seen ids)
    (λ r d' _, caller_kept rows d' ∧ match r with Ok (inr ids) => own ∉ ids | _ => True end) d h.
Proof.
  intros Hd. induction ids as [|id ids IH] in seen, d, h, Hd |- *; [apply wp_ret; split; [done|apply not_elem_of_nil]|].
  cbn [check_selection]. destruct (_ || _ || _ || _) eqn:Hbad; [by apply wp_ret|].
  apply orb_false_iff in Hbad as [_ Hown]. apply bool_decide_eq_false in Hown.
  apply wp_bind, wp_try, wp_query_row; [intros _; by apply wp_ret|].
  destruct (select_one _ _); cbn; [|by apply wp_ret].
  apply wp_bind. eapply wp_mono; [by apply IH|]. intros [[reply|rest]|e] d' h' [Hd' Hrest]; [by apply wp_ret| |done].
  apply wp_ret. split; [done|]. apply not_elem_of_cons. split; [|done]. unfold own. congruence.
Qed.

(** Whatever the selection and whatever fails, a bulk revocation leaves the
    session of the caller as it was. *)
Theorem bulk_revoke_spares_caller body w :
  filter (λ s, session_ID s = own) (t_sessions (w_db (bulkRevokeSessions c p body w).2))
  = filter (λ s, session_ID s = own) (t_sessions (w_db w)).
Proof.
  apply (keeps_run (caller_kept (filter (λ s, session_ID s = own) (t_sessions (w_db w)))) (bulkRevokeSessions c p body)); [|done].
  unfold bulkRevokeSessions. destruct body as [ids|]; [|apply keeps_ret]. destruct (_ || _); [apply keeps_ret|].
  eapply keeps_bind_post; [intros; by apply check_selection_spec|]. intros [reply|selected] Hsel; [apply keeps_ret|].
  apply keeps_bind; [apply keeps_try, keeps_for_each; intros id Hid; apply keeps_revoke; by intros ->|].
  intros [u|e]; cbn [is_ok negb]; [|apply keeps_ret]. apply keeps_bind; [|intros; apply keeps_ret].
  apply keeps_discard, keeps_try. intros d h Hd. eapply wp_mono; [apply Record_spec|]. by intros r d' h' [(t1 & t2 & ->) _].
Qed.
End Selection.
