(* ===== verification/System.v ===== *)
(** * What the system reports (art-api/internal/httpapi/runtime_state.go)

    Processor and memory figures from the files of cgroup and /proc.  [read] is
    [os.ReadFile] and [entries] the directory /proc with the names that are
    directories; the clock is read once. *)

From S2P Require Export Duration.
From Stdlib Require Import SpecFloat.

Record system_figures := mkSystem {
  system_CPUPercent : spec_float; system_Memory : Z; system_CgroupMemory : Z; system_MemoryLimit : Z; system_Uptime : Z }.

(** The fields of [runtimeState] that [system] uses. *)
Record cpuState := mkCPUState { cpu_lastUsage : Z; cpu_lastAt : time; cpu_startedAt : time }.

Definition uint64 (z : Z) : Z := z mod 2 ^ 64.
(** [strconv.ParseUint(s, 10, 64)]: the value, the largest one when the number is
    out of range, and whether there was no error. *)
Definition ParseUint64 (s : string) : Z * bool :=
  match decimal (bytes_of s) with
  | Some v => if v <? 2 ^ 64 then (v, true) else (2 ^ 64 - 1, false)
  | None => (0, false)
  end.
Definition parsed (r : Z * bool) : option Z := if r.2 then Some r.1 else None.

(** [d.Seconds()] *)
Definition Seconds (d : duration) : spec_float :=
  SFadd 53 1024 (float64 (Z.quot d second)) (float_div (float64 (Z.rem d second)) (float64 1000000000)).

Section System.
Context `{Unicode} (read : string → option bytes).

Definition readUintFile (path : string) : Z * bool :=
  match read path with None => (0, false) | Some data => ParseUint64 (TrimSpace (of_bytes data)) end.

Definition lines (data : bytes) : list string := of_bytes <$> Split (ascii_of 10) data.

Fixpoint usage_line (lines : list string) : option Z :=
  match lines with
  | [] => None
  | line :: rest =>
      match Fields line with
      | [name; value] => if bool_decide (name = "usage_usec") then parsed (ParseUint64 value) else usage_line rest
      | _ => usage_line rest
      end
  end.
Definition cpuUsage : option Z := data ← read "/sys/fs/cgroup/cpu.stat"; usage_line (lines data).

(** The bytes of the first line Pss of a process. *)
Fixpoint pss_line (lines : list string) : Z :=
  match lines with
  | [] => 0
  | line :: rest =>
      match Fields line with
      | name :: value :: _ =>
          if bool_decide (name = "Pss:")
          then match parsed (ParseUint64 value) with Some kilobytes => uint64 (kilobytes * 1024) | None => 0 end
          else pss_line rest
      | _ => pss_line rest
      end
  end.
(** The resident pages of a process. *)
Definition resident_pages (data : bytes) : Z :=
  match Fields (of_bytes data) with
  | _ :: value :: _ => default 0 (parsed (ParseUint64 value))
  | _ => 0
  end.
Definition optional (f : bytes → Z) (path : string) : Z := match read path with Some data => f data | None => 0 end.

Definition containerMemory (entries : option (list (string * bool))) (pagesize : Z) : Z :=
  match entries with
  | None => 0
  | Some entries =>
      let processes := filter (λ e, e.2 = true ∧ is_Some (Atoi e.1)) entries in
      let '(pssBytes, rssPages) := foldl (λ '(pss, rss) e,
        (uint64 (pss + optional (λ data, pss_line (lines data)) ("/proc/" +:+ e.1 +:+ "/smaps_rollup")),
         uint64 (rss + optional resident_pages ("/proc/" +:+ e.1 +:+ "/statm")))) (0, 0) processes in
      if 0 <? pssBytes then pssBytes else uint64 (rssPages * pagesize)
  end.

Definition system (entries : option (list (string * bool))) (pagesize : Z) (now : time) (s : cpuState) : system_figures * cpuState :=
  let memoryCharged := (readUintFile "/sys/fs/cgroup/memory.current").1 in
  let memory := containerMemory entries pagesize in
  let limit := default 0 (parsed (readUintFile "/sys/fs/cgroup/memory.max")) in
  let memory := if memory =? 0 then memoryCharged else memory in
  let usage := cpuUsage in
  let cpu := match usage with
             | Some usage =>
                 let elapsed := Seconds (Sub now (cpu_lastAt s)) in
                 if (0 <? cpu_lastUsage s) && (cpu_lastUsage s <=? usage) && SFltb (float64 0) elapsed
                 then float_mul (float_div (float_div (float64 (usage - cpu_lastUsage s)) (float64 1000000)) elapsed) (float64 100)
                 else float64 0
             | None => float64 0
             end in
  let s := match usage with Some usage => mkCPUState usage now (cpu_startedAt s) | None => s end in
  (mkSystem cpu memory memoryCharged limit (float_trunc (Seconds (Sub now (cpu_startedAt s)))), s).
End System.

(** Two seconds of processor time in four seconds are half a processor; memory is
    the proportional share of the processes, not what the container is charged. *)
Definition ex_files (path : string) : option bytes :=
  let lines l := Some (foldr (λ line text, bytes_of line ++ ascii_of 10 :: text) [] l) in
  if bool_decide (path = "/sys/fs/cgroup/cpu.stat") then lines ["usage_usec 5000000"; "user_usec 1"]
  else if bool_decide (path = "/sys/fs/cgroup/memory.current") then lines ["4096"]
  else if bool_decide (path = "/sys/fs/cgroup/memory.max") then lines ["max"]
  else if bool_decide (path = "/proc/7/smaps_rollup") then lines ["00400000-7fff ---p 00000000 00:00 0 [rollup]"; "Rss: 9 kB"; "Pss: 3 kB"]
  else None.
Example ex_system :
  let '(figures, s) := @system ascii_unicode ex_files (Some [("7", true); ("self", true); ("8", false)]) 4096
                         (14 * second) (mkCPUState 3000000 (10 * second) (4 * second)) in
  system_CPUPercent figures = float64 50 ∧ system_Memory figures = 3072 ∧ system_CgroupMemory figures = 4096 ∧
  system_MemoryLimit figures = 0 ∧ system_Uptime figures = 10 ∧ cpu_lastUsage s = 5000000.
Proof. vm_compute. done. Qed.
