(* ===== verification/Operations.v ===== *)
(** * Operating the server (art-api/internal/httpapi: operations.go, support_bundle.go, server.go)

    Diagnostics, metrics, the infrastructure page, the support bundle and the
    backup an administrator downloads or inspects.  Paths are those of the disk of
    Boot.v.  [shown] is the mode a file system shows for the mode it was given,
    the identity on one with POSIX modes; names of temporary files, the
    figures of [runtime.system] and whether a directory is there are arguments. *)

From S2P Require Export Backup Runtime.
From S2P Require Import Text Duration System NetAddress StoreRelay Rbac Settings.

(** ** Secrets on the disk *)

Record diagnosticCheck := mkDiagnosticCheck { check_Name : string; check_Status : string; check_Message : string }.

(** [info.Mode().Perm()&0o077 == 0] *)
Definition private (mode : Z) : bool := Z.land mode 63 =? 0.

(** [%04o] *)
Fixpoint octal (fuel : nat) (z : Z) : bytes :=
  match fuel with
  | O => []
  | S fuel' => (if z <? 8 then [] else octal fuel' (z / 8)) ++ [ascii_of (48 + z mod 8)]
  end.
Definition format_04o (mode : Z) : string := of_bytes (zero_padded 4 (octal 22 mode)).

Section Secrets.
Context (shown : Z → Z).

Definition os_Perm (path : string) : Boot Z :=
  disk_op (λ fs, match fs !! path with Some f => Ok (shown (file_Mode f), fs) | None => Err ErrNotExist end) untouched.

(** [repairPrivateFile] after the temporary file is made. *)
Definition repair_steps (path temporary : string) (content : bytes) : Boot bool :=
  os_Chmod temporary 384;;
  os_Write temporary content;;
  os_Sync;;
  os_Close;;
  os_Rename temporary path;;
  mode ← os_Perm path;
  mret (private mode).

Definition repairPrivateFile (path temporary : string) : Boot bool :=
  info ← attempt (os_Size path);
  match info with
  | Err _ => mret false
  | Ok size =>
      if 2 ^ 20 <? size then mret false else
      content ← attempt (os_ReadFile path);
      match content with
      | Err _ => mret false
      | Ok content =>
          created ← attempt (os_Create temporary 384);
          if is_err created then mret false else
          repaired ← attempt (repair_steps path temporary content);
          let repaired := match repaired with Ok repaired => repaired | Err _ => false end in
          attempt os_Close;;
          (if repaired then mret tt else attempt (os_Remove temporary);; mret tt);;
          mret repaired
      end
  end.

(** [filesystemSupportsPrivateMode] after the probe is made. *)
Definition probe_mode (probe : string) : Boot bool :=
  closed ← attempt os_Close;
  if is_err closed then mret true else
  changed ← attempt (os_Chmod probe 384);
  if is_err changed then mret true else
  info ← attempt (os_Perm probe);
  mret (match info with Ok mode => private mode | Err _ => true end).
Definition filesystemSupportsPrivateMode (probe : string) : Boot bool :=
  created ← attempt (os_Create probe 384);
  if is_err created then mret true else
  supported ← probe_mode probe;
  attempt (os_Remove probe);;
  mret supported.

(** [os.Chmod] and the second [os.Stat]: whether the mode is private now, and
    what [info] is afterwards. *)
Definition restrict (path : string) (mode : Z) : Boot (bool * option Z) :=
  changed ← attempt (os_Chmod path 384);
  match changed with
  | Err _ => mret (false, Some mode)
  | Ok _ =>
      info ← attempt (os_Perm path);
      mret (match info with Ok mode => (private mode, Some mode) | Err _ => (false, None) end)
  end.

Definition nil_dereference : error := ErrText "invalid memory address or nil pointer dereference".

Definition secretDiagnostic (name path temporary probe : string) : Boot diagnosticCheck :=
  info ← attempt (os_Perm path);
  match info with
  | Err _ => mret (mkDiagnosticCheck name "error" "file is unavailable")
  | Ok mode =>
      if private mode then mret (mkDiagnosticCheck name "ok" "file is present with restricted permissions") else
      '(restricted, info) ← restrict path mode;
      if (restricted : bool) then mret (mkDiagnosticCheck name "ok" "file permissions were restricted to 0600") else
      repaired ← repairPrivateFile path temporary;
      if (repaired : bool) then mret (mkDiagnosticCheck name "ok" "file ownership and permissions were repaired atomically") else
      supported ← filesystemSupportsPrivateMode probe;
      if negb supported
      then mret (mkDiagnosticCheck name "ok" "storage does not expose POSIX mode bits; access is isolated by the container runtime")
      else match info with
           | Some mode => mret (mkDiagnosticCheck name "warning"
               ("file permissions are " +:+ format_04o mode +:+ "; unable to restrict them to 0600"))
           | None => fail nil_dereference
           end
  end.
End Secrets.

(** ** Diagnostics *)

Definition serviceDiagnosticStatus (status : string) : string := if bool_decide (status = "online") then "ok" else "error".

Fixpoint overall_status (overall : string) (checks : list diagnosticCheck) : string :=
  match checks with
  | [] => overall
  | check :: rest =>
      if bool_decide (check_Status check = "error") then "error"
      else overall_status (if bool_decide (check_Status check = "warning") then "warning" else overall) rest
  end.

Record diagnosis := mkDiagnosis {
  diagnosis_status : string; diagnosis_checked_at : time; diagnosis_checks : list diagnosticCheck;
  diagnosis_source_id : string; diagnosis_revision : Z; diagnosis_trusted_proxies : Z }.

Definition instances_text (status : string) (instances : Z) : string := status +:+ " (" +:+ Itoa instances +:+ " instances)".

(** [s.hub.Revision()], [s.hub.SourceID()] *)
Definition read_hub : M Hub := λ w, (Ok (w_hub w), w).

Section Diagnostics.
Context (getenv : string → string) (shown : Z → Z) {A : Type}.

Definition diagnostics_dir (brandingDir : string) : string :=
  let dataDir := Dir brandingDir in
  if bool_decide (dataDir = ".") || bool_decide (dataDir = "") then envValue getenv "ART_DATA_DIR" "/data" else dataDir.

(** The files a diagnosis looks at. *)
Definition secret_paths (dataDir : string) : list (string * string) :=
  [("jwt_secret", envValue getenv "ART_JWT_SECRET_FILE" (Join [dataDir; "secrets"; "jwt.secret"]));
   ("internal_secret", envValue getenv "ART_INTERNAL_SECRET_FILE" (Join [dataDir; "secrets"; "internal.secret"]));
   ("server_key", envValue getenv "ART_SERVER_KEY_FILE" (Join [dataDir; "secrets"; "id_ed25519"]))].

Fixpoint secret_checks (files : list (string * string)) (temporary probe : string → string) : Boot (list diagnosticCheck) :=
  match files with
  | [] => mret []
  | (name, path) :: rest =>
      check ← secretDiagnostic shown name path (temporary path) (probe path);
      checks ← secret_checks rest temporary probe;
      mret (check :: checks)
  end.

(** [order]: the files in the order of the range; [isDirectory]: [os.Stat] of the
    data directory; the state of the processes is passed in and out. *)
Definition diagnostics (order : list (string * string) → list (string * string)) (brandingDir : string)
    (isDirectory : string → bool) (temporary probe : string → string) (proxies : Z) (rt : runtimeState A) (c : Call)
    : Boot (Reply diagnosis * runtimeState A) :=
  counted ← attempt (store CountUsers);
  let database := if is_err counted then mkDiagnosticCheck "database" "error" "database query failed"
                  else mkDiagnosticCheck "database" "ok" "database is responsive" in
  let dataDir := diagnostics_dir brandingDir in
  let directory := if isDirectory dataDir then mkDiagnosticCheck "data_directory" "ok" dataDir
                   else mkDiagnosticCheck "data_directory" "error" "persistent data directory is unavailable" in
  secrets ← secret_checks (order (secret_paths dataDir)) temporary probe;
  let '(hbbs, hbbsInstances, _, rt) := service_status rt "hbbs" (20 * second) (call_now c) in
  let '(hbbr, hbbrInstances, _, rt) := service_status rt "hbbr" (20 * second) (call_now c) in
  let checks := [database; directory] ++ secrets ++
    [mkDiagnosticCheck "hbbs" (serviceDiagnosticStatus hbbs) (instances_text hbbs hbbsInstances);
     mkDiagnosticCheck "hbbr" (serviceDiagnosticStatus hbbr) (instances_text hbbr hbbrInstances)] in
  hub ← store read_hub;
  mret (writeJSON 200 (mkDiagnosis (overall_status "ok" checks) (call_now c) checks (hub_sourceID hub) (hub_revision hub) proxies), rt).
End Diagnostics.

(** ** Metrics and the infrastructure page *)

Record infrastructure_figures := mkFigures {
  figures_CPUPercent : SpecFloat.spec_float; figures_MemoryBytes : Z; figures_OnlineDevices : Z; figures_ActiveSessions : Z;
  figures_RelayConnections : Z; figures_RelayBandwidth : Z }.

Definition sum_of {B} (f : B → Z) (l : list B) : Z := foldl (λ n x, n + f x) 0 l.
Definition number_where {B} (p : B → bool) (l : list B) : Z := sum_of (λ x, if p x then 1 else 0) l.
Definition relay_healthy (r : RelayServer) : bool := relay_Enabled r && bool_decide (relay_Health r = "healthy").

Definition metric_text (m : string * string * string) : string :=
  let '(name, help, value) := m in
  let line := of_bytes [newline] in
  "# HELP " +:+ name +:+ " " +:+ help +:+ line +:+ "# TYPE " +:+ name +:+ " gauge" +:+ line +:+ name +:+ " " +:+ value +:+ line.

Section Pages.
Context `{Unicode} (ttl : duration) {A : Type}.
(** [%v] of a float64. *)
Context (float_text : SpecFloat.spec_float → string).

Definition validMetricsToken (metricsToken : string) (req : Request) : bool :=
  let header := TrimSpace (request_Header req "Authorization") in
  let candidate := TrimSpace (TrimPrefix header "Bearer ") in
  let candidate := if bool_decide (candidate = header) then TrimSpace (request_Header req "X-RDS-Metrics-Token") else candidate in
  (32 <=? len metricsToken) && bool_decide (candidate = metricsToken).

Definition metrics (metricsToken : string) (req : Request) (c : Call) (sys : system_figures) (rt : runtimeState A)
    : M (Reply string * runtimeState A) :=
  if negb (validMetricsToken metricsToken req) then ret (writeError 401 "unauthorized", rt) else
  state ← try (ListAuthState (call_now c));
  match state with
  | Err _ => ret (writeError 503 "metrics unavailable", rt)
  | Ok (users, sessions) =>
  devices ← try (ListDevices ttl (call_now c));
  match devices with
  | Err _ => ret (writeError 503 "metrics unavailable", rt)
  | Ok devices =>
  relays ← try ListRelayServers;
  match relays with
  | Err _ => ret (writeError 503 "metrics unavailable", rt)
  | Ok relays =>
  let '(_, hbbsInstances, rendezvousPeers, rt) := service_status rt "hbbs" (20 * second) (call_now c) in
  let '(_, hbbrInstances, _, rt) := service_status rt "hbbr" (20 * second) (call_now c) in
  hub ← read_hub;
  let text := foldr (λ m text, metric_text m +:+ text) ""
    [("rustdesk_users", "Registered users", Itoa (Z.of_nat (length users)));
     ("rustdesk_sessions_active", "Active server-side sessions", Itoa (Z.of_nat (length sessions)));
     ("rustdesk_devices", "Managed devices", Itoa (Z.of_nat (length devices)));
     ("rustdesk_devices_online", "Online managed devices", Itoa (number_where device_Online devices));
     ("rustdesk_hbbs_instances", "Live HBBS instances", Itoa hbbsInstances);
     ("rustdesk_hbbr_instances", "Live HBBR instances", Itoa hbbrInstances);
     ("rustdesk_rendezvous_peers", "Peers registered with HBBS", Itoa rendezvousPeers);
     ("rustdesk_relays_healthy", "Healthy enabled relay servers", Itoa (number_where relay_healthy relays));
     ("rustdesk_relay_connections", "Current relay connections", Itoa (sum_of relay_Connections relays));
     ("rustdesk_relay_bandwidth_bytes", "Observed relay bandwidth in bytes", Itoa (sum_of relay_Bandwidth relays));
     ("rustdesk_process_cpu_percent", "All-in-one process CPU usage percent", float_text (system_CPUPercent sys));
     ("rustdesk_process_memory_bytes", "All-in-one process resident memory", Itoa (system_Memory sys));
     ("rustdesk_container_memory_bytes", "Container cgroup memory usage", Itoa (system_CgroupMemory sys));
     ("rustdesk_container_memory_limit_bytes", "Container cgroup memory limit", Itoa (system_MemoryLimit sys));
     ("rustdesk_process_uptime_seconds", "API process uptime", Itoa (system_Uptime sys));
     ("rustdesk_auth_cache_revision", "Current authorization event revision", Itoa (hub_revision hub))] in
  ret (mkReply 200 (Http.Value text), rt)
  end end end.

Record infrastructure_page := mkInfrastructure {
  page_hbbs : string; page_hbbr : string; page_api_address : string; page_hbbs_address : string; page_hbbr_address : string;
  page_database_driver : string; page_users : Z; page_active_sessions : Z; page_managed_devices : Z;
  page_online_devices : Z; page_offline_devices : Z; page_hbbs_instances : Z; page_hbbr_instances : Z;
  page_rendezvous_peers : Z; page_relay_servers : Z; page_healthy_relays : Z; page_relay_connections : Z;
  page_relay_bandwidth : Z; page_system : system_figures; page_cpu_count : Z;
  page_history : list (infrastructureSample infrastructure_figures) }.

(** [secure]: [request.TLS != nil]; the fields "api" and "database" are always
    "online". *)
Definition infrastructure (getenv : string → string) (req : Request) (secure : bool) (host : string) (c : Call)
    (sys : system_figures) (logicalCPUs : Z) (rt : runtimeState infrastructure_figures)
    : M (Reply infrastructure_page * runtimeState infrastructure_figures) :=
  state ← try (ListAuthState (call_now c));
  match state with
  | Err _ => ret (writeError 500 "infrastructure unavailable", rt)
  | Ok (users, sessions) =>
  devices ← try (ListDevices ttl (call_now c));
  relays ← try ListRelayServers;
  let devices := match devices with Ok l => l | Err _ => [] end in
  let relays := match relays with Ok l => l | Err _ => [] end in
  let onlineDevices := number_where device_Online devices in
  let '(hbbsStatus, hbbsInstances, rendezvousPeers, rt) := service_status rt "hbbs" (20 * second) (call_now c) in
  let '(hbbrStatus, hbbrInstances, _, rt) := service_status rt "hbbr" (20 * second) (call_now c) in
  let enabled := filter (λ r, relay_Enabled r = true) relays in
  let healthyRelays := number_where relay_healthy enabled in
  let relayConnections := sum_of relay_Connections enabled in
  let relayBandwidth := sum_of relay_Bandwidth enabled in
  let '(hbbrStatus, hbbrInstances) :=
    if bool_decide (hbbrStatus = "offline") && (0 <? healthyRelays) then ("online", healthyRelays) else (hbbrStatus, hbbrInstances) in
  let '(history, rt) := record_sample rt (mkSample (call_now c)
    (mkFigures (system_CPUPercent sys) (system_Memory sys) onlineDevices (Z.of_nat (length sessions)) relayConnections relayBandwidth)) in
  let relayAddress := envValue getenv "ART_RELAY_SERVER" "127.0.0.1:21117" in
  let publicHost := match SplitHostPort relayAddress with Some (host, _) => host | None => TrimSpace relayAddress end in
  let scheme := if secure || EqualFold (request_Header req "X-Forwarded-Proto") "https" then "https" else "http" in
  ret (writeJSON 200 (mkInfrastructure hbbsStatus hbbrStatus (scheme +:+ "://" +:+ host) (join_host_port publicHost "21116") relayAddress
         (envValue getenv "ART_DB_DRIVER" "sqlite") (Z.of_nat (length users)) (Z.of_nat (length sessions)) (Z.of_nat (length devices))
         onlineDevices (Z.of_nat (length devices) - onlineDevices) hbbsInstances hbbrInstances rendezvousPeers
         (Z.of_nat (length relays)) healthyRelays relayConnections relayBandwidth sys logicalCPUs history), rt)
  end.

Definition health : Reply (list (string * string)) := writeJSON 200 [("status", "ok"); ("service", "art-api")].
(** [oidc]: the name of the provider, when there is one. *)
Definition loginOptions (oidc : option string) : Reply (list (list (string * string))) :=
  writeJSON 200 (match oidc with None => [] | Some name => [[("name", name)]] end).
End Pages.

(** ** The backup an administrator downloads or inspects *)

(** [os.RemoveAll] of a directory. *)
Definition os_RemoveAll (directory : string) : Boot unit :=
  disk_op (λ fs, Ok (tt, filter (λ kv, HasPrefix kv.1 (directory +:+ "/") = false) fs)) untouched.

Section Backups.
Context `{Sqlite} `{SqlText} (getenv : string → string) (modified : string → time).

(** [now.Format("20060102-150405")] *)
Definition second_text (now : time) : bytes := take 15 (stamp_text now).

(** [directory]: the one [os.MkdirTemp] makes; every return after it removes the
    directory. *)
Definition backup_reply (c : Call) (p : Principal) (directory : string) (vacuumed : bytes) : Boot (Reply bytes) :=
  let path := directory +:+ "/" +:+ "rustdesk-server-routeros-" +:+ of_bytes (second_text (call_now c)) +:+ ".db" in
  made ← attempt (Backup path vacuumed);
  match made with
  | Err _ => mret (writeError 500 "backup failed")
  | Ok _ =>
      store (success c p "database_backup" ∅);;
      content ← attempt (os_ReadFile path);
      mret (match content with
            | Ok content => mkReply 200 (Http.Value content)
            | Err e => if bool_decide (e = ErrNotExist) then writeError 404 "404 page not found"
                       else writeError 500 "500 Internal Server Error"
            end)
  end.
Definition backupSQLite (c : Call) (p : Principal) (directory : string) (vacuumed : bytes) : Boot (Reply bytes) :=
  if negb (bool_decide (envValue getenv "ART_DB_DRIVER" "sqlite" = "sqlite"))
  then mret (writeError 409 "online backup is available only for SQLite") else
  made ← attempt os_MkdirAll;
  if is_err made then mret (writeError 500 "backup unavailable") else
  reply ← backup_reply c p directory vacuumed;
  attempt (os_RemoveAll directory);;
  mret reply.

Definition inspection_reply (c : Call) (p : Principal) (directory : string) (upload : Upload) : Boot (Reply BackupInspection) :=
  let path := directory +:+ "/candidate.db" in
  file ← attempt (os_Create path 384);
  if is_err file then mret (writeError 500 "backup inspection unavailable") else
  let data := LimitReader (maximumRestoreSize + 1) (upload_Content upload) in
  let written := Z.of_nat (length data) in
  copied ← attempt (os_Write path data);
  closed ← attempt os_Close;
  if is_err copied || (upload_Broken upload && (written <=? maximumRestoreSize)) || is_err closed
  then mret (writeError 400 "backup upload failed") else
  if (written =? 0) || (maximumRestoreSize <? written) then mret (writeError 413 "invalid backup size") else
  inspection ← attempt (InspectBackup modified path);
  match inspection with
  | Err _ =>
      store (record c 0 (audit_event "database_backup_inspection" (user_ID (principal_User p)) (session_ID (principal_Session p))
                           "" "denied" "invalid_backup" ∅));;
      mret (writeError 422 "invalid or incompatible SQLite backup")
  | Ok inspection =>
      store (success c p "database_backup_inspection" {["size_bytes" := VOther; "users" := VOther; "devices" := VOther]});;
      mret (writeJSON 200 inspection)
  end.
Definition inspectSQLiteBackup (c : Call) (p : Principal) (contentLength : Z) (directory : string) (upload : Upload)
    : Boot (Reply BackupInspection) :=
  if negb (bool_decide (envValue getenv "ART_DB_DRIVER" "sqlite" = "sqlite"))
  then mret (writeError 409 "SQLite backup inspection is unavailable for this database driver") else
  if maximumRestoreSize <? contentLength then mret (writeError 413 "backup is too large") else
  made ← attempt os_MkdirAll;
  if is_err made then mret (writeError 500 "backup inspection unavailable") else
  reply ← inspection_reply c p directory upload;
  attempt (os_RemoveAll directory);;
  mret reply.
End Backups.

(** ** The support bundle *)

Record safeAuditEvent := mkSafeEvent { safe_Type : string; safe_Result : string; safe_OccurredAt : time }.
Record safeClusterNode := mkSafeNode {
  safe_Service : string; safe_Version : string; safe_StartedAt : time; safe_LastSeenAt : time; safe_LeaseCount : Z }.

(** A file of the archive and the value that is encoded in it; the numbers of the
    configuration are kept as [VOther]. *)
Inductive support_file :=
| Manifest (version : string) (generated_at : time) (revision proxies : Z)
| Configuration (values : gmap string any)
| ClusterFile (nodes : list safeClusterNode) (active_lease_count : Z)
| RecentAudit (events : list safeAuditEvent)
| InventoryFile (users devices active_sessions : Z) (database_responsive : bool).

Definition support_configuration (value : Values) : gmap string any :=
  {["require_login" := VBool (values_RequireLogin value);
    "require_device_deployment" := VBool (values_RequireDeviceDeployment value);
    "registration_enabled" := VBool (values_RegistrationEnabled value);
    "registration_auto_approve" := VBool (values_RegistrationAutoApprove value);
    "access_token_ttl" := VString (Duration_String (values_AccessTokenTTL value));
    "session_ttl" := VString (Duration_String (values_SessionTTL value));
    "mfa_mode" := VString (values_MFAMode value);
    "password_minimum_length" := VOther;
    "password_require_upper" := VBool (values_PasswordRequireUpper value);
    "password_require_lower" := VBool (values_PasswordRequireLower value);
    "password_require_number" := VBool (values_PasswordRequireNumber value);
    "password_require_special" := VBool (values_PasswordRequireSpecial value)]}.

Definition or_empty {B} (r : res (list B)) : list B := match r with Ok l => l | Err _ => [] end.

(** [configuration]: the values of the running configuration; [closed]: the
    archive could be ended. *)
Definition supportBundle (ttl : duration) (getenv : string → string) (buildVersion : string) (configuration : option Values)
    (proxies : Z) (closed : bool) (c : Call) (p : Principal) : M (Reply (list support_file)) :=
  hub ← read_hub;
  let now := call_now c in
  let manifest := Manifest (envValue getenv "RDS_VERSION" (envValue getenv "ART_VERSION" buildVersion)) now (hub_revision hub) proxies in
  let values := match configuration with Some value => support_configuration value | None => ∅ end in
  nodes ← try (ListClusterNodes (now - 24 * hour) now);
  leases ← try (ListClusterLeases now);
  let safeNodes := (λ n, mkSafeNode (node_Service n) (node_Version n) (node_StartedAt n) (node_LastSeenAt n) (node_LeaseCount n)) <$> or_empty nodes in
  events ← try (ListAudit 200);
  let safeEvents := (λ e, mkSafeEvent (audit_Type e) (audit_Result e) (audit_OccurredAt e)) <$> or_empty events in
  users ← try CountUsers;
  devices ← try (ListDevices ttl now);
  state ← try (ListAuthState now);
  let inventory := InventoryFile (match users with Ok n => n | Err _ => 0 end) (Z.of_nat (length (or_empty devices)))
    (match state with Ok (_, sessions) => Z.of_nat (length sessions) | Err _ => 0 end)
    (negb (is_err users) && negb (is_err devices) && negb (is_err state)) in
  if negb closed then ret (writeError 500 "support bundle unavailable") else
  success c p "support_bundle_download" ∅;;
  ret (mkReply 200 (Http.Value [manifest; Configuration values; ClusterFile safeNodes (Z.of_nat (length (or_empty leases)));
                                RecentAudit safeEvents; inventory])).

(** ** A diagnosis changes no content *)

Section Kept.
Context (shown : Z → Z).
Implicit Types (m : machine) (path : string) (l : bytes).

(** Files that are there keep what they hold. *)
Definition keeps_content {A} (x : Boot A) : Prop :=
  ∀ path l m, held path m = Some l → boot x (λ _ m', held path m' = Some l) m.

Lemma kept_spares {A} (x : Boot A) : (∀ path, spares path x) → keeps_content x.
Proof. intros Hx path l m Hl. unfold boot. by rewrite Hx. Qed.
Lemma kept_bind {A B} (x : Boot A) (k : A → Boot B) : keeps_content x → (∀ a, keeps_content (k a)) → keeps_content (x ≫= k).
Proof.
  intros Hx Hk path l m Hl. apply boot_bind. eapply boot_mono; [by apply Hx|]. intros [a|e] m' Hm'; [by apply Hk|done].
Qed.
Lemma kept_attempt {A} (x : Boot A) : keeps_content x → keeps_content (attempt x).
Proof. intros Hx path l m Hl. by apply boot_attempt, Hx. Qed.
Lemma kept_store {A} (x : M A) : keeps_content (store x).
Proof. intros path l m Hl. unfold boot, store, held in *. by destruct (x _). Qed.

Lemma spares_Perm path other : spares path (os_Perm shown other).
Proof. spare_op. Qed.


(** The file that replaces the secret holds the same. *)
Lemma repair_steps_kept path temporary content l q m :
  held path m = Some content → held temporary m = Some [] → q ≠ temporary → path ≠ temporary → held q m = Some l →
  boot (repair_steps shown path temporary content) (λ _ m', held q m' = Some l ∧ held path m' = Some content) m.
Proof.
  intros Hp Ht Hq Hpt Hl. apply boot_bind, boot_quiet; [intros; apply spares_Chmod|]. intros [[]|e] m1 H1; [|by rewrite !H1].
  apply boot_bind. rewrite <-(H1 temporary) in Ht. unfold held in Ht.
  destruct (disk_files (machine_disk m1) !! temporary) as [f|] eqn:Hf; [|done]. injection Ht as Ht.
  apply (boot_mono _ (λ r m', (∀ other, other ≠ temporary → held other m' = held other m) ∧
    match r with Ok _ => held temporary m' = Some content | Err _ => True end)).
  { apply boot_disk_op; intros; boot_simpl; rewrite Hf, Ht; (split; [|try done]); try (intros other Ho; rewrite <-H1);
      unfold held; boot_simpl; rewrite ?lookup_insert_eq, ?lookup_insert_ne by done; done. }
  intros [[]|e] m2 [H2 Hc]; [|by rewrite !H2 by done].
  apply boot_bind, boot_quiet; [intros; apply spares_Sync|]. intros [[]|e] m3 H3; [|by rewrite !H3, !H2 by done].
  apply boot_bind, boot_quiet; [intros; apply spares_Close|]. intros [[]|e] m4 H4; [|by rewrite !H4, !H3, !H2 by done].
  apply boot_bind, boot_disk_op; [intros; rewrite <-Hl, <-Hp, <-!H2, <-!H3, <-!H4 by done; done|]. intros ios.
  assert (Hc4 : held temporary m4 = Some content) by by rewrite H4, H3.
  assert (Hq4 : held q m4 = Some l) by by rewrite H4, H3, H2.
  unfold held in Hc4, Hq4. destruct (disk_files (machine_disk m4) !! temporary) as [f'|] eqn:Hf'; [|done].
  set (m5 := mkMachine _ _).
  assert (H5 : held q m5 = Some l ∧ held path m5 = Some content).
  { unfold held, m5. boot_simpl. rewrite lookup_insert_eq. split; [|done]. destruct (decide (path = q)) as [<-|Hne].
    - rewrite lookup_insert_eq. rewrite <-Hl, Hp. done.
    - rewrite lookup_insert_ne, lookup_delete_ne by done. done. }
  apply boot_bind, boot_quiet; [intros; apply spares_Perm|]. intros [mode|e] m6 H6; [apply boot_mret|]; by rewrite !H6.
Qed.

Lemma repairPrivateFile_kept path temporary : keeps_content (repairPrivateFile shown path temporary).
Proof.
  intros q l m Hl. unfold repairPrivateFile. apply boot_bind, boot_attempt, boot_quiet; [intros; apply spares_Size|].
  intros [size|e] m1 H1; [|apply boot_mret; by rewrite H1]. case_match; [apply boot_mret; by rewrite H1|].
  apply boot_bind, boot_attempt, boot_read. intros [content|e] m2 H2 Hread; [|apply boot_mret; by rewrite H2, H1].
  apply boot_bind, boot_attempt, boot_new_file. intros r m3 H3 Hcreated.
  assert (Hl3 : held q m3 = Some l) by (rewrite H3, H2, H1; [done|by rewrite H2, H1, Hl]).
  destruct r as [[]|e]; cbn [is_err]; [|by apply boot_mret]. destruct Hcreated as [Hnone Hempty].
  assert (Hqt : q ≠ temporary) by (intros ->; rewrite H2, H1, Hl in Hnone; done).
  assert (Hpt : path ≠ temporary) by (intros ->; rewrite H2, Hread in Hnone; done).
  assert (Hp3 : held path m3 = Some content) by (rewrite H3, H2; [done|by rewrite H2, Hread]).
  apply boot_bind, boot_attempt. eapply boot_mono; [by apply (repair_steps_kept path temporary content l q)|].
  intros repaired m4 [Hl4 _]. cbv zeta. apply boot_bind, boot_attempt, boot_quiet; [intros; apply spares_Close|]. intros closed m5 H5.
  apply boot_bind. destruct (match repaired with Ok repaired => repaired | Err _ => false end).
  - do 2 apply boot_mret. by rewrite H5.
  - apply boot_bind, boot_attempt. unfold boot at 1. do 2 apply boot_mret. rewrite spares_Remove by done. by rewrite H5.
Qed.

Lemma filesystemSupportsPrivateMode_kept probe : keeps_content (filesystemSupportsPrivateMode shown probe).
Proof.
  intros q l m Hl. unfold filesystemSupportsPrivateMode. apply boot_bind, boot_attempt, boot_new_file. intros r m1 H1 Hcreated.
  assert (Hl1 : held q m1 = Some l) by (rewrite H1; [done|by rewrite Hl]).
  destruct r as [[]|e]; cbn [is_err]; [|by apply boot_mret]. destruct Hcreated as [Hnone _].
  assert (Hq : probe ≠ q) by (intros ->; by rewrite Hl in Hnone).
  apply boot_bind, boot_quiet.
  { intros path. unfold probe_mode. repeat first [apply spares_Perm|spare]. }
  intros [supported|e] m2 H2; [|by rewrite H2]. apply boot_bind, boot_attempt. unfold boot at 1. apply boot_mret.
  rewrite spares_Remove by done. by rewrite H2.
Qed.

Lemma secretDiagnostic_kept name path temporary probe : keeps_content (secretDiagnostic shown name path temporary probe).
Proof.
  unfold secretDiagnostic. apply kept_bind; [apply kept_spares; intros; apply spares_attempt, spares_Perm|].
  intros [mode|e]; [|apply kept_spares; spare]. case_match; [apply kept_spares; spare|].
  apply kept_bind; [apply kept_spares; intros; unfold restrict; repeat first [apply spares_Perm|spare]|].
  intros [restricted info]. case_match; [apply kept_spares; spare|].
  apply kept_bind; [apply repairPrivateFile_kept|]. intros repaired. case_match; [apply kept_spares; spare|].
  apply kept_bind; [apply filesystemSupportsPrivateMode_kept|]. intros supported. apply kept_spares. spare.
Qed.

(** A diagnosis never changes or loses the content of a file, whatever fails and
    wherever the process dies, secrets it rewrites to tighten their mode
    included. *)
Theorem diagnostics_keep_content {A} getenv order brandingDir isDirectory temporary probe proxies (rt : runtimeState A) c :
  keeps_content (diagnostics getenv shown order brandingDir isDirectory temporary probe proxies rt c).
Proof.
  unfold diagnostics. apply kept_bind; [apply kept_attempt, kept_store|]. intros counted. cbv zeta. apply kept_bind.
  - generalize (order (secret_paths getenv (diagnostics_dir getenv brandingDir))). intros files.
    induction files as [|[name path] files IH]; cbn [secret_checks]; [apply kept_spares; spare|].
    apply kept_bind; [apply secretDiagnostic_kept|]. intros check. apply kept_bind; [exact IH|]. intros checks. apply kept_spares. spare.
  - intros secrets. destruct (service_status rt "hbbs" _ _) as [[[hbbs hbbsInstances] peers] rt1].
    destruct (service_status rt1 "hbbr" _ _) as [[[hbbr hbbrInstances] peers'] rt2].
    apply kept_bind; [apply kept_store|]. intros hub. apply kept_spares. spare.
Qed.
End Kept.

(** The summary is the worst of the checks. *)
Lemma overall_status_worst checks :
  overall_status "ok" checks =
    if existsb (λ c, bool_decide (check_Status c = "error")) checks then "error"
    else if existsb (λ c, bool_decide (check_Status c = "warning")) checks then "warning" else "ok".
Proof.
  cut (∀ overall, overall_status overall checks =
    if existsb (λ c, bool_decide (check_Status c = "error")) checks then "error"
    else if existsb (λ c, bool_decide (check_Status c = "warning")) checks then "warning" else overall); [done|].
  induction checks as [|c checks IH]; intros overall; [done|]. cbn [overall_status existsb].
  destruct (bool_decide (check_Status c = "error")); [done|]. rewrite IH. cbn [orb].
  destruct (existsb _ checks); [done|]. by destruct (bool_decide (check_Status c = "warning")), (existsb _ checks).
Qed.

(** When the second [os.Stat] fails after the mode was set, [info] is nil and the
    warning dereferences it: the diagnosis ends in a panic. *)
Theorem diagnosis_panics :
  let m := mkMachine (mkDisk [Done; Done; Broken 0; Broken 0; Broken 0] {["/data/secrets/jwt.secret" := mkFile (bytes_of "secret") 420]})
             (mkWorld (empty_db <| t_users := [] |>) [] (NewHub "src")) in
  (secretDiagnostic (λ mode, mode) "jwt_secret" "/data/secrets/jwt.secret" "/data/secrets/.secret-repair-1"
     "/data/secrets/.permission-probe-1" m).1 = Err nil_dereference.
Proof. vm_compute. done. Qed.
