(* ===== verification/Branding.v ===== *)
(** * Logos and avatars (art-api/internal/httpapi: branding.go, avatars.go)

    The logo of the console and the avatars of accounts are files next to the
    database.  [image.DecodeConfig] and the XML decoder are parameters; the name
    of a temporary file is an argument.  The directory of the files is known. *)

From S2P Require Export Disk Http.
From S2P Require Import Config Rbac Backup Text.

(** The size of an image, [None] when the decoder refuses it. *)
Class Image := image_DecodeConfig : bytes → option (Z * Z).

(** What [decoder.Token] gives in strict mode; attributes with their local names. *)
Inductive xml_token :=
| StartElement (local : string) (attributes : list (string * string))
| Directive
| OtherToken.                     (* ends, text, comments, instructions *)
(** The tokens up to the end or the first error, and whether it was the end. *)
Class Xml := xml_Tokens : bytes → list xml_token * bool.

(** ** Validation *)

Definition maxAvatarSize : Z := 2 * 2 ^ 20.
Definition maxBrandingLogoSize : Z := 2 * 2 ^ 20.

Definition starts_with (prefix : list Z) (l : bytes) : bool := bool_decide (byte <$> take (length prefix) l = prefix).
Definition png_signature : list Z := [137; 80; 78; 71; 13; 10; 26; 10].
Definition jpeg_signature : list Z := [255; 216; 255].

(** [http.DetectContentType], for the two types of interest. *)
Definition DetectImage (data : bytes) : option string :=
  if starts_with png_signature data then Some "image/png"
  else if starts_with jpeg_signature data then Some "image/jpeg" else None.

Definition fits (limit pixels : Z) (size : Z * Z) : bool :=
  let '(width, height) := size in
  (1 <=? width) && (1 <=? height) && (width <=? limit) && (height <=? limit) && (width * height <=? pixels).

Definition id_byte (a : Ascii.ascii) : bool :=
  (byte a =? 45) || ((48 <=? byte a) && (byte a <=? 57)) || ((97 <=? byte a) && (byte a <=? 122)) || ((65 <=? byte a) && (byte a <=? 90)).
Definition validAvatarID (value : string) : bool :=
  if bool_decide (value = "global") then true
  else if bool_decide (value = "") || (128 <? len value) then false
  else forallb id_byte (bytes_of value).

Section Branding.
Context `{Unicode} `{Image} `{Xml}.

Definition validateAvatar (data : bytes) : res string :=
  match DetectImage data with
  | None => Err (ErrText "avatar must be PNG or JPEG")
  | Some mediaType =>
      match image_DecodeConfig data with
      | Some size => if fits 4096 16000000 size then Ok mediaType else Err (ErrText "invalid or oversized avatar")
      | None => Err (ErrText "invalid or oversized avatar")
      end
  end.

Definition unsafe_elements : list string := ["script"; "foreignobject"; "iframe"; "object"; "embed"].
Definition unsafe_attribute (attribute : string * string) : bool :=
  let name := ToLower attribute.1 in
  let value := TrimSpace (ToLower attribute.2) in
  HasPrefix name "on"
  || ((bool_decide (name = "href") || bool_decide (name = "src")) && negb (bool_decide (value = "")) && negb (HasPrefix value "#"))
  || Contains value "javascript:".

(** The loop over the tokens; the result is [rootSeen]. *)
Fixpoint check_tokens (tokens : list xml_token) (rootSeen : bool) : res bool :=
  match tokens with
  | [] => Ok rootSeen
  | Directive :: _ => Err (ErrText "SVG directives are not allowed")
  | OtherToken :: rest => check_tokens rest rootSeen
  | StartElement local attributes :: rest =>
      let name := ToLower local in
      if negb rootSeen && negb (bool_decide (name = "svg")) then Err (ErrText "invalid SVG logo") else
      if bool_decide (name ∈ unsafe_elements) || existsb unsafe_attribute attributes then Err (ErrText "unsafe SVG content")
      else check_tokens rest true
  end.

Definition validateBrandingLogo (data : bytes) : res string :=
  let size := Z.of_nat (length data) in
  if (size =? 0) || (maxBrandingLogoSize <? size) then Err (ErrText "logo must not exceed 2 MiB") else
  if starts_with png_signature data then
    match image_DecodeConfig data with
    | Some size => if fits 8192 32000000 size then Ok "image/png" else Err (ErrText "invalid or oversized PNG logo")
    | None => Err (ErrText "invalid or oversized PNG logo")
    end
  else
  let '(tokens, ended) := xml_Tokens data in
  match check_tokens tokens false with
  | Err e => Err e
  | Ok rootSeen => if negb ended || negb rootSeen then Err (ErrText "invalid SVG logo") else Ok "image/svg+xml"
  end.

(** ** Files *)

Definition brandingLogoPath (brandingDir : string) : string :=
  if bool_decide (brandingDir = "") then "" else Config.Join [brandingDir; "logo.custom"].
Definition hasBrandingLogo (brandingDir : string) : Boot bool :=
  let path := brandingLogoPath brandingDir in
  if bool_decide (path = "") then mret false else
  info ← attempt (os_Size path);
  mret (match info with Ok size => (0 <? size) && (size <=? maxBrandingLogoSize) | Err _ => false end).

Definition avatarDir (brandingDir : string) : string := Config.Join [brandingDir; "avatars"].
Definition avatarPath (brandingDir userID : string) : string := Config.Join [avatarDir brandingDir; userID +:+ ".avatar"].
Definition hasGlobalAvatar (brandingDir : string) : Boot bool :=
  info ← attempt (os_Size (avatarPath brandingDir "global"));
  mret (match info with Ok size => 0 <? size | Err _ => false end).

(** [replaceBrandingFile] after the temporary file is made. *)
Definition fill_and_place (path temporary : string) (data : bytes) : Boot unit :=
  filled ← attempt (os_Chmod temporary 416;; os_Write temporary data;; os_Sync);
  closed ← attempt os_Close;
  match filled, closed with
  | Err e, _ | Ok _, Err e => fail e
  | Ok _, Ok _ =>
      renamed ← attempt (os_Rename temporary path);
      match renamed with
      | Ok _ => mret tt
      | Err e =>
          removed ← attempt (os_Remove path);
          match removed with
          | Err e' => if negb (bool_decide (e' = ErrNotExist)) then fail e else os_Rename temporary path
          | Ok _ => os_Rename temporary path
          end
      end
  end.
Definition replaceBrandingFile (path temporary : string) (data : bytes) : Boot unit :=
  os_Create temporary 384;;
  result ← attempt (fill_and_place path temporary data);
  attempt (os_Remove temporary);;
  pure result.

(** ** Handlers *)

(** The multipart form of an upload: refused or too large, without the file, or
    with what can be read of it and its name. *)
Inductive form := BadForm | NoFile | FormFile (upload : Upload) (filename : string).

Implicit Types (c : Call) (p : Principal).

(** [io.ReadAll] of a [LimitReader], and the checks of its size. *)
Definition read_upload (limit : Z) (upload : Upload) : option bytes :=
  let data := LimitReader (limit + 1) (upload_Content upload) in
  let size := Z.of_nat (length data) in
  if (upload_Broken upload && (size <=? limit)) || (size =? 0) || (limit <? size) then None else Some data.

Definition brandingLogo (brandingDir : string) : Boot (Reply (string * bytes)) :=
  let path := brandingLogoPath brandingDir in
  if bool_decide (path = "") then mret (writeError 404 "404 page not found") else
  data ← attempt (os_ReadFile path);
  mret (match data with
        | Err _ => writeError 404 "404 page not found"
        | Ok data => match validateBrandingLogo data with
                     | Err _ => writeError 404 "404 page not found"
                     | Ok mediaType => mkReply 200 (Http.Value (mediaType, data))
                     end
        end).

(** The reply is the media type. *)
Definition uploadBrandingLogo (brandingDir temporary : string) c p (upload : form) : Boot (Reply string) :=
  if bool_decide (brandingDir = "") then mret (writeError 503 "branding storage is unavailable") else
  match upload with
  | BadForm => mret (writeError 400 "invalid logo upload")
  | NoFile => mret (writeError 400 "logo file is required")
  | FormFile upload filename =>
      match read_upload maxBrandingLogoSize upload with
      | None => mret (writeError 400 "logo must not exceed 2 MiB")
      | Some data =>
          match validateBrandingLogo data with
          | Err e => mret (writeError 400 (match e with ErrText text => text | _ => "" end))
          | Ok mediaType =>
              let extension := ToLower (Ext filename) in
              if (bool_decide (mediaType = "image/png") && negb (bool_decide (extension = ".png")))
                 || (bool_decide (mediaType = "image/svg+xml") && negb (bool_decide (extension = ".svg")))
              then mret (writeError 400 "file extension does not match logo format") else
              made ← attempt os_MkdirAll;
              if is_err made then mret (writeError 500 "branding storage is unavailable") else
              saved ← attempt (replaceBrandingFile (brandingLogoPath brandingDir) temporary data);
              if is_err saved then mret (writeError 500 "logo could not be saved") else
              store (success c p "console_logo_updated" {["media_type" := VString mediaType; "bytes" := VOther]});;
              mret (writeJSON 200 mediaType)
          end
      end
  end.

(** [os.Remove], when a missing file is no error. *)
Definition remove_if_there (path : string) : Boot bool :=
  removed ← attempt (os_Remove path);
  mret (match removed with Ok _ => true | Err e => bool_decide (e = ErrNotExist) end).

Definition deleteBrandingLogo (brandingDir : string) c p : Boot (Reply unit) :=
  let path := brandingLogoPath brandingDir in
  if bool_decide (path = "") then mret (writeError 503 "branding storage is unavailable") else
  removed ← remove_if_there path;
  if negb removed then mret (writeError 500 "logo could not be reset") else
  store (success c p "console_logo_reset" ∅);;
  mret (mkReply 204 NoContent).

Definition userAvatar (brandingDir id : string) : Boot (Reply (string * bytes)) :=
  if negb (validAvatarID id) then mret (writeError 404 "404 page not found") else
  data ← attempt (os_ReadFile (avatarPath brandingDir id));
  data ← (if is_err data && negb (bool_decide (id = "global")) then attempt (os_ReadFile (avatarPath brandingDir "global")) else mret data);
  mret (match data with
        | Err _ => writeError 404 "404 page not found"
        | Ok data => match validateAvatar data with
                     | Err _ => writeError 404 "404 page not found"
                     | Ok mediaType => mkReply 200 (Http.Value (mediaType, data))
                     end
        end).

(** The file, or the message of the error 400. *)
Definition readAvatarUpload (upload : form) : bytes * string + string :=
  match upload with
  | BadForm => inr "invalid avatar upload"
  | NoFile => inr "avatar file is required"
  | FormFile upload filename =>
      match read_upload maxAvatarSize upload with
      | None => inr "avatar must not exceed 2 MiB"
      | Some data =>
          match validateAvatar data with
          | Err e => inr (match e with ErrText text => text | _ => "" end)
          | Ok mediaType =>
              let extension := ToLower (Ext filename) in
              if (bool_decide (mediaType = "image/png") && negb (bool_decide (extension = ".png")))
                 || (bool_decide (mediaType = "image/jpeg") && negb (bool_decide (extension = ".jpg")) && negb (bool_decide (extension = ".jpeg")))
              then inr "file extension does not match avatar format" else inl (data, mediaType)
          end
      end
  end.

(** The reply is the address of the avatar. *)
Definition saveAvatar (brandingDir temporary : string) c p (upload : form) (userID eventType : string) : Boot (Reply string) :=
  match readAvatarUpload upload with
  | inr message => mret (writeError 400 message)
  | inl (data, mediaType) =>
      saved ← attempt (os_MkdirAll;; replaceBrandingFile (avatarPath brandingDir userID) temporary data);
      if is_err saved then mret (writeError 500 "avatar could not be saved") else
      store (success c p eventType {["target_user_id" := VString userID; "media_type" := VString mediaType; "bytes" := VOther]});;
      mret (writeJSON 200 ("/api/avatar/" +:+ userID))
  end.

Definition removeAvatar (brandingDir : string) c p (userID eventType : string) : Boot (Reply unit) :=
  removed ← remove_if_there (avatarPath brandingDir userID);
  if negb removed then mret (writeError 500 "avatar could not be removed") else
  store (success c p eventType {["target_user_id" := VString userID]});;
  mret (mkReply 204 NoContent).

Definition uploadMyAvatar (brandingDir temporary : string) c p (upload : form) : Boot (Reply string) :=
  saveAvatar brandingDir temporary c p upload (user_ID (principal_User p)) "user_avatar_updated".
Definition deleteMyAvatar (brandingDir : string) c p : Boot (Reply unit) :=
  removeAvatar brandingDir c p (user_ID (principal_User p)) "user_avatar_removed".
Definition uploadAdminUserAvatar (brandingDir temporary : string) c p (id : string) (upload : form) : Boot (Reply string) :=
  found ← attempt (store (FindUserByID id));
  if is_err found then mret (writeError 404 "user not found") else
  saveAvatar brandingDir temporary c p upload id "user_avatar_updated".
Definition deleteAdminUserAvatar (brandingDir : string) c p (id : string) : Boot (Reply unit) :=
  removeAvatar brandingDir c p id "user_avatar_removed".
Definition uploadGlobalAvatar (brandingDir temporary : string) c p (upload : form) : Boot (Reply string) :=
  saveAvatar brandingDir temporary c p upload "global" "global_avatar_updated".
Definition deleteGlobalAvatar (brandingDir : string) c p : Boot (Reply unit) :=
  removeAvatar brandingDir c p "global" "global_avatar_removed".
End Branding.

(** ** What is on the disk was accepted whole *)

Section Logo.
Context {unicode : Unicode} {image : Image} {xml : Xml}.
Implicit Types (m : machine).

Lemma boot_rename source target (Q : res unit → machine → Prop) m :
  (∀ r m', match r with
           | Ok _ => held target m' = held source m
           | Err _ => ∀ other, held other m' = held other m
           end → Q r m') →
  boot (os_Rename source target) Q m.
Proof.
  intros HQ. apply boot_disk_op; [intros; by apply HQ|]. intros ios.
  destruct (disk_files (machine_disk m) !! source) as [f|] eqn:Hf; apply HQ; unfold held; boot_simpl; [by rewrite lookup_insert_eq, Hf|done].
Qed.

Lemma fill_and_place_whole path temporary data m :
  path ≠ temporary → held temporary m = Some [] →
  boot (fill_and_place path temporary data) (λ r m',
    (held path m' = held path m ∨ held path m' = None ∨ held path m' = Some data) ∧ (r = Ok tt → held path m' = Some data)) m.
Proof.
  intros Hne Hempty. unfold fill_and_place. apply boot_bind, boot_attempt.
  apply (boot_mono _ (λ r m', held path m' = held path m ∧ match r with Ok _ => held temporary m' = Some data | Err _ => True end)).
  { apply boot_bind, boot_quiet; [intros; apply spares_Chmod|]. intros [[]|e] m1 H1; [|by rewrite H1].
    apply boot_bind. rewrite <-(H1 temporary) in Hempty. unfold held in Hempty.
    destruct (disk_files (machine_disk m1) !! temporary) as [f|] eqn:Hf; [|done]. injection Hempty as Hempty.
    apply boot_disk_op; intros; boot_simpl; rewrite Hf, Hempty.
    - rewrite <-H1. unfold held. boot_simpl. by rewrite lookup_insert_ne.
    - set (m2 := mkMachine _ _). assert (H2 : held path m2 = held path m ∧ held temporary m2 = Some data).
      { rewrite <-H1. unfold held, m2. boot_simpl. by rewrite lookup_insert_ne, lookup_insert_eq. }
      apply boot_quiet; [intros; apply spares_Sync|]. intros r m3 H3. rewrite !H3. destruct H2. by destruct r. }
  intros filled m1 [Hp1 Hd1]. apply boot_bind, boot_attempt, boot_quiet; [intros; apply spares_Close|]. intros closed m2 H2.
  assert (Hkept : ∀ e m', held path m' = held path m2 → boot (fail e : Boot unit) (λ r m', (held path m' = held path m ∨ held path m' = None ∨ held path m' = Some data)
    ∧ (r = Ok tt → held path m' = Some data)) m').
  { intros e m' Hm'. apply boot_fail. rewrite Hm', H2, Hp1. by split; [left|]. }
  destruct filled as [[]|e]; [|by apply Hkept]. destruct closed as [[]|e]; [|by apply Hkept].
  assert (Ht : held temporary m2 = Some data) by by rewrite H2.
  apply boot_bind, boot_attempt, boot_rename. intros [[]|e] m3 H3.
  { apply boot_mret. rewrite H3, Ht. by split; [right; right|]. }
  apply boot_bind, boot_attempt.
  apply (boot_mono _ (λ r m', (held path m' = held path m ∨ held path m' = None) ∧ held temporary m' = Some data)).
  { assert (Hp3 : held path m3 = held path m) by by rewrite H3, H2, Hp1.
    assert (Ht3 : held temporary m3 = Some data) by by rewrite H3.
    apply boot_disk_op; [by split; [left|]|]. intros ios. unfold held in Hp3, Ht3 |- *.
    destruct (disk_files (machine_disk m3) !! path) as [f|] eqn:Hf; boot_simpl.
    - rewrite lookup_delete_eq, lookup_delete_ne by done. by split; [right|].
    - rewrite Hf. by split; [left|]. }
  intros removed m4 [Hp4 Ht4].
  assert (Hlast : boot (os_Rename temporary path) (λ r m', (held path m' = held path m ∨ held path m' = None ∨ held path m' = Some data)
    ∧ (r = Ok tt → held path m' = Some data)) m4).
  { apply boot_rename. intros [[]|e'] m5 H5; rewrite H5; [rewrite Ht4; by split; [right; right|]|]. split; [|done]. destruct Hp4; auto. }
  destruct removed as [[]|e']; [exact Hlast|]. case_match; [|exact Hlast]. apply boot_fail. split; [destruct Hp4; auto|done].
Qed.

(** The file that is replaced is the old one, gone, or the new one, never a part
    of it; after a success it is the new one. *)
Lemma replaceBrandingFile_whole path temporary data m :
  path ≠ temporary →
  boot (replaceBrandingFile path temporary data) (λ r m',
    (held path m' = held path m ∨ held path m' = None ∨ held path m' = Some data) ∧ (r = Ok tt → held path m' = Some data)) m.
Proof.
  intros Hne. unfold replaceBrandingFile. apply boot_bind.
  apply (boot_mono _ (λ r m', held path m' = held path m ∧ match r with Ok _ => held temporary m' = Some [] | Err _ => True end)).
  { apply boot_disk_op; [by split|]. intros ios. unfold held. destruct (disk_files (machine_disk m) !! temporary); [by split|].
    boot_simpl. by rewrite lookup_insert_ne, lookup_insert_eq. }
  intros [[]|e] m1 [Hp1 Hempty]; [|by split; [left|]]. apply boot_bind, boot_attempt. rewrite <-Hp1.
  eapply boot_mono; [by apply fill_and_place_whole|]. intros result m2 H2. apply boot_bind, boot_attempt. unfold boot at 1.
  apply boot_pure. by rewrite spares_Remove by done.
Qed.

(** A safe element: no script, no handler, no reference outside the image. *)
Definition safe_token (t : xml_token) : Prop :=
  match t with
  | StartElement local attributes => ToLower local ∉ unsafe_elements ∧ ∀ a, a ∈ attributes → unsafe_attribute a = false
  | Directive => False
  | OtherToken => True
  end.
(** A logo the console may show. *)
Definition logo_ok (data : bytes) (mediaType : string) : Prop :=
  1 ≤ Z.of_nat (length data) ≤ maxBrandingLogoSize ∧
  (mediaType = "image/png" ∧ starts_with png_signature data = true ∧ (∃ size, image_DecodeConfig data = Some size ∧ fits 8192 32000000 size = true)
   ∨ mediaType = "image/svg+xml" ∧ (xml_Tokens data).2 = true ∧ Forall safe_token (xml_Tokens data).1).

Lemma check_tokens_safe tokens seen r : check_tokens tokens seen = Ok r → Forall safe_token tokens.
Proof.
  revert seen. induction tokens as [|[local attributes| |] tokens IH]; intros seen; cbn [check_tokens]; [done| |done|].
  - destruct (negb seen && _); [done|]. destruct (bool_decide (ToLower local ∈ unsafe_elements)) eqn:Hu; cbn [orb]; [done|].
    destruct (existsb unsafe_attribute attributes) eqn:Ha; [done|]. intros Hrest. constructor; [|by eapply IH].
    split; [by apply bool_decide_eq_false in Hu|]. intros a Hin. apply not_true_is_false. intros Hbad.
    apply not_true_iff_false in Ha. apply Ha, existsb_exists. exists a. by rewrite <-list_elem_of_In.
  - intros Hrest. constructor; [done|by eapply IH].
Qed.

Lemma validateBrandingLogo_ok data mediaType : validateBrandingLogo data = Ok mediaType → logo_ok data mediaType.
Proof.
  unfold validateBrandingLogo, logo_ok. destruct (Z.eqb_spec (Z.of_nat (length data)) 0); cbn [orb]; [done|].
  destruct (Z.ltb_spec maxBrandingLogoSize (Z.of_nat (length data))); [done|]. intros Hv. split; [lia|].
  destruct (starts_with png_signature data).
  - left. destruct (image_DecodeConfig data) as [size|]; [|done]. destruct (fits _ _ size) eqn:Hf; [|done]. injection Hv as <-.
    split; [done|]. split; [done|]. by exists size.
  - right. destruct (xml_Tokens data) as [tokens ended]. destruct (check_tokens tokens false) as [seen|] eqn:Hc; [|done].
    apply check_tokens_safe in Hc. destruct ended; cbn [negb orb] in Hv; [|done]. destruct (negb seen); [done|]. by injection Hv as <-.
Qed.

(** Requests about the logo, each with what happens to the disk. *)
Inductive logo_request := UploadLogo (temporary : string) (upload : form) | DeleteLogo.
Definition serve_logo (brandingDir : string) (q : logo_request) c p : Boot unit :=
  match q with
  | UploadLogo temporary upload => uploadBrandingLogo brandingDir temporary c p upload;; mret tt
  | DeleteLogo => deleteBrandingLogo brandingDir c p;; mret tt
  end.
Fixpoint serve_logos (brandingDir : string) (history : list (list io * logo_request * Call * Principal)) m : machine :=
  match history with
  | [] => m
  | (ios, q, c, p) :: rest => serve_logos brandingDir rest (serve_logo brandingDir q c p (start_on m ios)).2
  end.

(** The logo on the disk, if there is one, was accepted. *)
Definition logo_accepted (brandingDir : string) m : Prop :=
  ∀ data, held (brandingLogoPath brandingDir) m = Some data → ∃ mediaType, logo_ok data mediaType.

Lemma store_held {A} (x : M A) path m : boot (store x) (λ _ m', held path m' = held path m) m.
Proof. unfold boot, store, held. by destruct (x _). Qed.

Lemma serve_logo_accepted brandingDir q c p m :
  (∀ temporary upload, q = UploadLogo temporary upload → brandingLogoPath brandingDir ≠ temporary) →
  logo_accepted brandingDir m → boot (serve_logo brandingDir q c p) (λ _, logo_accepted brandingDir) m.
Proof.
  intros Hq Hm. assert (Hsame : ∀ m', held (brandingLogoPath brandingDir) m' = held (brandingLogoPath brandingDir) m → logo_accepted brandingDir m').
  { intros m' Hh data. rewrite Hh. apply Hm. }
  destruct q as [temporary upload|]; cbn [serve_logo]; apply boot_bind.
  - specialize (Hq _ _ eq_refl). unfold uploadBrandingLogo. case_bool_decide; [by do 2 apply boot_mret|].
    destruct upload as [| |upload filename]; [by do 2 apply boot_mret..|]. destruct (read_upload _ _) as [data|]; [|by do 2 apply boot_mret].
    destruct (validateBrandingLogo data) as [mediaType|] eqn:Hv; [|by do 2 apply boot_mret]. cbv zeta. case_match; [by do 2 apply boot_mret|].
    apply boot_bind, boot_attempt, boot_quiet; [intros; spare_op|]. intros made m1 Hs1. case_match; [do 2 apply boot_mret; by apply Hsame|].
    apply boot_bind, boot_attempt. eapply boot_mono; [by apply replaceBrandingFile_whole|]. intros saved m2 [Hs2 _].
    assert (Hok : logo_accepted brandingDir m2).
    { intros data'. destruct Hs2 as [->|[->| ->]]; [rewrite Hs1; apply Hm|done|]. intros [= <-]. exists mediaType. by apply validateBrandingLogo_ok. }
    case_match; [by do 2 apply boot_mret|]. apply boot_bind. eapply boot_mono; [apply (store_held _ (brandingLogoPath brandingDir))|].
    intros r m3 Hs3. destruct r; [do 2 apply boot_mret|]; intros data'; rewrite Hs3; apply Hok.
  - unfold deleteBrandingLogo. case_bool_decide; [by do 2 apply boot_mret|]. apply boot_bind, boot_bind, boot_attempt.
    apply (boot_mono _ (λ _, logo_accepted brandingDir)).
    { apply boot_disk_op; [intros; by apply Hsame|]. intros ios. destruct (disk_files (machine_disk m) !! brandingLogoPath brandingDir) as [f|] eqn:Hf.
      - intros data. unfold held. boot_simpl. by rewrite lookup_delete_eq.
      - by apply Hsame. }
    intros removed m1 Hs1. apply boot_mret. case_match; [by do 2 apply boot_mret|]. apply boot_bind.
    eapply boot_mono; [apply (store_held _ (brandingLogoPath brandingDir))|].
    intros r m3 Hs3. destruct r; [do 2 apply boot_mret|]; intros data'; rewrite Hs3; apply Hs1.
Qed.

(** Whatever logos are uploaded and removed, and whatever fails on the disk, the
    file of the logo is at every moment a whole image that was accepted. *)
Theorem logo_on_disk_accepted brandingDir history m :
  (∀ ios temporary upload c p, (ios, UploadLogo temporary upload, c, p) ∈ history → brandingLogoPath brandingDir ≠ temporary) →
  held (brandingLogoPath brandingDir) m = None → logo_accepted brandingDir (serve_logos brandingDir history m).
Proof.
  intros Hh Hnone. assert (Hm : logo_accepted brandingDir m) by (intros data; by rewrite Hnone). clear Hnone. revert m Hm.
  induction history as [|[[[ios q] c] p] history IH]; intros m Hm; cbn [serve_logos]; [done|]. apply IH.
  - intros ios' temporary upload c' p' Hin. eapply Hh. by right.
  - assert (Hone : boot (serve_logo brandingDir q c p) (λ _, logo_accepted brandingDir) (start_on m ios)); [|exact Hone].
    apply serve_logo_accepted; [|exact Hm]. intros temporary upload ->. eapply Hh. left.
Qed.
End Logo.

(** ** At concrete values *)

(** The identifier in the path of a request is decoded: one that is not checked
    leaves the directory of the avatars.  [deleteAdminUserAvatar] takes it as it
    is. *)
Theorem avatar_path_escapes :
  validAvatarID "../../backups/old" = false ∧ avatarPath "/data/branding" "../../backups/old" = "/data/backups/old.avatar".
Proof. vm_compute. done. Qed.

(** A browser ignores a tab inside the scheme of an address, the check does not:
    an animation of an address to a script is accepted. *)
Theorem svg_check_misses_control_characters :
  let tab := of_bytes [ascii_of 9] in
  @check_tokens ascii_unicode
    [StartElement "svg" []; StartElement "a" [("href", "#")];
     StartElement "animate" [("attributeName", "href"); ("to", "java" +:+ tab +:+ "script:alert(1)")]; OtherToken; OtherToken; OtherToken] false
  = Ok true.
Proof. vm_compute. done. Qed.
