(* ===== verification/Ldap.v ===== *)
(** * Sign-in against a directory (art-api/internal/ldapauth/provider.go)

    A sign-in is a conversation with the directory: what it is sent is recorded,
    and what it answers is a function of what it was sent so far ([Directory]).
    [ldap.EscapeFilter] is a parameter ([LdapText]) with the behaviour RFC 4515
    asks of it; deadlines are left out. *)

From S2P Require Export Auth Managed.
From S2P Require Import Text.

(** ** The library *)

Record SearchRequest := mkSearchRequest {
  search_BaseDN : string; search_SizeLimit : Z; search_TimeLimit : Z; search_Filter : string; search_Attributes : list string }.
Record Entry := mkEntry { entry_DN : string; entry_Value : string → string; entry_Values : string → list string }.

(** What is sent on a connection. *)
Inductive ldap_message :=
| Dial (url : string) (skipVerify : bool)
| StartTLS (skipVerify : bool)
| Bind (dn password : string)
| Search (request : SearchRequest).

Record Directory := mkDirectory {
  directory_Accepts : list ldap_message → bool;
  directory_Finds : list ldap_message → list Entry }.

(** [ldap.EscapeFilter]: no parenthesis, asterisk or zero byte is left. *)
Definition structural (a : Ascii.ascii) : bool := bool_decide (byte a ∈ [0; 40; 41; 42]).
Class LdapText := {
  EscapeFilter : string → string;
  escaped_plain s : Forall (λ a, structural a = false) (bytes_of (EscapeFilter s)) }.

(** A conversation: messages are added to those sent before. *)
Definition Conversation (A : Type) : Type := list ldap_message → res A * list ldap_message.
#[export] Instance Conversation_ret : MRet Conversation := λ A a sent, (Ok a, sent).
#[export] Instance Conversation_bind : MBind Conversation := λ A B k x sent,
  match x sent with (Ok a, sent') => k a sent' | (Err e, sent') => (Err e, sent') end.
Definition refuse {A} (e : error) : Conversation A := λ sent, (Err e, sent).
(** [e]: what the caller makes of a failure. *)
Definition send (directory : Directory) (message : ldap_message) (e : error) : Conversation unit := λ sent,
  (if directory_Accepts directory (sent ++ [message]) then Ok tt else Err e, sent ++ [message]).
Definition find_entries (directory : Directory) : Conversation (list Entry) := λ sent, (Ok (directory_Finds directory sent), sent).

(** ** provider.go *)

Record LdapConfig := mkLdapConfig {
  ldap_URL : string; ldap_BindDN : string; ldap_BindPassword : string; ldap_BaseDN : string; ldap_UserFilter : string;
  ldap_UsernameAttribute : string; ldap_EmailAttribute : string; ldap_DisplayNameAttribute : string; ldap_GroupAttribute : string;
  ldap_StartTLS : bool; ldap_InsecureSkipVerify : bool }.
#[export] Instance eta_LdapConfig : Eta LdapConfig := λ r,
  mkLdapConfig (ldap_URL r) (ldap_BindDN r) (ldap_BindPassword r) (ldap_BaseDN r) (ldap_UserFilter r) (ldap_UsernameAttribute r)
    (ldap_EmailAttribute r) (ldap_DisplayNameAttribute r) (ldap_GroupAttribute r) (ldap_StartTLS r) (ldap_InsecureSkipVerify r).

Definition ErrInvalidLdapCredentials : error := ErrText "invalid LDAP credentials".
Definition defaultUserFilter : string :=
  "(&(objectClass=person)(|(uid={username})(sAMAccountName={username})(userPrincipalName={username})))".
Definition or_default (value fallback : string) : string := if bool_decide (value = "") then fallback else value.

(** The fields that are not set. *)
Definition with_defaults (config : LdapConfig) : LdapConfig :=
  config <| ldap_UserFilter := or_default (ldap_UserFilter config) defaultUserFilter |>
    <| ldap_UsernameAttribute := or_default (ldap_UsernameAttribute config) "uid" |>
    <| ldap_EmailAttribute := or_default (ldap_EmailAttribute config) "mail" |>
    <| ldap_DisplayNameAttribute := or_default (ldap_DisplayNameAttribute config) "displayName" |>
    <| ldap_GroupAttribute := or_default (ldap_GroupAttribute config) "memberOf" |>.

Section Provider.
Context `{Unicode} `{Url} `{LdapText}.

Definition New (config : LdapConfig) : res LdapConfig :=
  let config := with_defaults config in
  match ParseURL (ldap_URL config) with
  | None => Err (ErrText "LDAP URL must use ldap:// or ldaps://")
  | Some (scheme, host) =>
      if (negb (bool_decide (scheme = "ldap")) && negb (bool_decide (scheme = "ldaps"))) || bool_decide (host = "")
      then Err (ErrText "LDAP URL must use ldap:// or ldaps://") else
      if bool_decide (scheme = "ldap") && negb (ldap_StartTLS config)
      then Err (ErrText "plain LDAP requires StartTLS") else
      if bool_decide (ldap_BaseDN config = "") || bool_decide (ldap_BindDN config = "")
         || negb (Contains (ldap_UserFilter config) "{username}")
      then Err (ErrText "LDAP bind DN, base DN and username filter are required") else Ok config
  end.

Definition Name : string := "ldap".

Definition dial (directory : Directory) (config : LdapConfig) : Conversation unit :=
  send directory (Dial (ldap_URL config) (ldap_InsecureSkipVerify config)) (ErrText "connect LDAP");;
  let scheme := match ParseURL (ldap_URL config) with Some (scheme, _) => scheme | None => "" end in
  if bool_decide (scheme = "ldap") && ldap_StartTLS config
  then send directory (StartTLS (ldap_InsecureSkipVerify config)) (ErrText "connect LDAP") else mret tt.

Definition user_filter (config : LdapConfig) (username : string) : string :=
  ReplaceAll (ldap_UserFilter config) "{username}" (EscapeFilter (TrimSpace username)).

Definition Authenticate (directory : Directory) (config : LdapConfig) (username password : string) : Conversation Profile :=
  if bool_decide (TrimSpace username = "") || bool_decide (password = "") then refuse ErrInvalidLdapCredentials else
  dial directory config;;
  send directory (Bind (ldap_BindDN config) (ldap_BindPassword config)) (ErrText "LDAP service bind");;
  let request := mkSearchRequest (ldap_BaseDN config) 2 5 (user_filter config username)
    [ldap_UsernameAttribute config; ldap_EmailAttribute config; ldap_DisplayNameAttribute config; ldap_GroupAttribute config] in
  send directory (Search request) (ErrText "LDAP user search");;
  entries ← find_entries directory;
  match entries with
  | [entry] =>
      send directory (Bind (entry_DN entry) password) ErrInvalidLdapCredentials;;
      let resolved := entry_Value entry (ldap_UsernameAttribute config) in
      let resolved := if bool_decide (resolved = "") then TrimSpace username else resolved in
      mret (mkProfile (entry_DN entry) resolved (entry_Value entry (ldap_EmailAttribute config))
              (entry_Value entry (ldap_DisplayNameAttribute config)) false (entry_Values entry (ldap_GroupAttribute config)))
  | _ => refuse ErrInvalidLdapCredentials
  end.
End Provider.

(** ** A user name is only a value *)

Section Filter.
Implicit Types (p : Ascii.ascii → bool) (l : bytes).

Lemma filter_replace p skip old new l :
  old ≠ [] → Forall (λ a, p a = false) old → Forall (λ a, p a = false) new →
  filter (λ a, p a = true) (replace_from skip old new l) = filter (λ a, p a = true) (drop skip l).
Proof.
  intros Hne Hold Hnew. assert (Hnone : ∀ l, Forall (λ a, p a = false) l → filter (λ a, p a = true) l = []).
  { intros l' Hl. apply filter_none. rewrite Forall_forall in Hl. intros a Ha%Hl. by rewrite Ha. }
  revert skip. induction l as [|a l IH]; intros [|skip]; cbn [replace_from drop]; try done.
  case_bool_decide as Hm.
  - rewrite filter_app, (Hnone new Hnew), IH. cbn [app]. destruct old as [|o old]; [done|].
    rewrite <-(take_drop (length (o :: old)) (a :: l)), Hm, filter_app, (Hnone (o :: old) Hold). cbn. by rewrite Nat.sub_0_r.
  - rewrite !filter_cons, IH, drop_0. done.
Qed.

(** Whatever is typed as a user name, the parentheses and asterisks of the
    search filter are those of its template: nothing is added to its structure. *)
Theorem username_adds_no_structure `{Unicode} `{LdapText} config username :
  filter (λ a, structural a = true) (bytes_of (user_filter config username))
  = filter (λ a, structural a = true) (bytes_of (ldap_UserFilter config)).
Proof.
  unfold user_filter, ReplaceAll. rewrite bytes_of_of_bytes, filter_replace; [by rewrite drop_0|done| |apply escaped_plain].
  repeat constructor.
Qed.
End Filter.

(** ** What a sign-in proves, and what is sent *)

Section Conversation.
Context `{Unicode} `{Url} `{LdapText}.
Implicit Types (directory : Directory) (config : LdapConfig) (sent : list ldap_message).

(** A connection on which a password may be sent: TLS from the first byte, or
    from StartTLS. *)
Definition protected (sent : list ldap_message) : Prop :=
  ∃ url skip rest, sent = Dial url skip :: rest ∧
    ((∃ host, ParseURL url = Some ("ldaps", host)) ∨ ∃ skip' rest', rest = StartTLS skip' :: rest').
Definition binds_protected (sent : list ldap_message) : Prop :=
  ∀ dn password, Bind dn password ∈ sent → protected sent.

Lemma bind_Ok {A B} (x : Conversation A) (k : A → Conversation B) sent b sent' :
  (x ≫= k) sent = (Ok b, sent') → ∃ a sent1, x sent = (Ok a, sent1) ∧ k a sent1 = (Ok b, sent').
Proof. unfold mbind, Conversation_bind. destruct (x sent) as [[a|e] sent1]; [|done]. eauto. Qed.

Lemma send_Ok directory message e sent u sent' :
  send directory message e sent = (Ok u, sent') → directory_Accepts directory (sent ++ [message]) = true ∧ sent' = sent ++ [message].
Proof. unfold send. destruct (directory_Accepts _ _); [|done]. by intros [= <- <-]. Qed.

(** A sign-in that succeeds found exactly one entry for the name, and the
    directory accepted the password, which is not empty, for that entry; the
    profile is that of the entry. *)
Theorem ldap_sign_in_checked directory config username password profile sent :
  Authenticate directory config username password [] = (Ok profile, sent) →
  password ≠ "" ∧ ∃ before entry,
    directory_Finds directory before = [entry] ∧ profile_Subject profile = entry_DN entry ∧
    sent = before ++ [Bind (entry_DN entry) password] ∧ directory_Accepts directory sent = true ∧
    ∃ rest request, before = rest ++ [Search request] ∧ search_Filter request = user_filter config username.
Proof.
  unfold Authenticate. destruct (bool_decide (TrimSpace username = "")); [done|]. cbn [orb]. case_bool_decide as Hp; [done|].
  intros (? & s1 & _ & Hrest)%bind_Ok. apply bind_Ok in Hrest as (? & s2 & _ & Hrest).
  apply bind_Ok in Hrest as (? & s3 & Hsearch & Hrest). apply send_Ok in Hsearch as [_ ->].
  apply bind_Ok in Hrest as (entries & s4 & Hfind & Hrest). injection Hfind as <- <-.
  destruct (directory_Finds directory _) as [|entry [|]] eqn:Hfinds; [done| |done].
  apply bind_Ok in Hrest as (? & s5 & Hbind & Hrest). apply send_Ok in Hbind as [Hacc ->].
  injection Hrest as <- <-. split; [done|]. eexists _, entry. repeat split; [exact Hfinds|exact Hacc|]. by eexists _, _.
Qed.

(** What a conversation has sent only grows. *)
Definition extends {A} (x : Conversation A) : Prop := ∀ sent, ∃ more, (x sent).2 = sent ++ more.
Lemma extends_send directory message e : extends (send directory message e).
Proof. intros sent. by eexists. Qed.
Lemma extends_same {A} (x : Conversation A) : (∀ sent, (x sent).2 = sent) → extends x.
Proof. intros Hx sent. exists []. by rewrite Hx, app_nil_r. Qed.
Lemma extends_bind {A B} (x : Conversation A) (k : A → Conversation B) : extends x → (∀ a, extends (k a)) → extends (x ≫= k).
Proof.
  intros Hx Hk sent. destruct (Hx sent) as [more Hm]. unfold mbind, Conversation_bind. destruct (x sent) as [[a|e] s1]; cbn in *; [|by exists more].
  destruct (Hk a s1) as [more' ->]. exists (more ++ more'). by rewrite Hm, app_assoc.
Qed.

Lemma bind_sent {A B} (x : Conversation A) (k : A → Conversation B) sent :
  ((x ≫= k) sent).2 = match x sent with (Ok a, sent') => (k a sent').2 | (Err _, sent') => sent' end.
Proof. unfold mbind, Conversation_bind. by destruct (x sent) as [[a|e] sent']. Qed.

Lemma New_scheme config0 config :
  New config0 = Ok config → ∃ scheme host, ParseURL (ldap_URL config) = Some (scheme, host)
    ∧ (scheme = "ldaps" ∨ scheme = "ldap" ∧ ldap_StartTLS config = true).
Proof.
  intros Hnew. unfold New in Hnew. set (c := with_defaults config0) in Hnew. clearbody c. cbv zeta in Hnew.
  destruct (ParseURL (ldap_URL c)) as [[scheme host]|] eqn:Hurl; [|done].
  destruct (negb (bool_decide (scheme = "ldap")) && _ || _) eqn:Hs; [done|].
  destruct (bool_decide (scheme = "ldap") && _) eqn:Ht; [done|]. destruct (_ || _ || _); [done|]. injection Hnew as <-.
  exists scheme, host. split; [done|]. apply orb_false_iff in Hs as [Hs _]. revert Hs Ht.
  destruct (bool_decide (scheme = "ldap")) eqn:Hldap; cbn [negb andb].
  - apply bool_decide_eq_true in Hldap as ->. intros _ ->%negb_false_iff. by right.
  - intros ?%negb_false_iff%bool_decide_eq_true _. by left.
Qed.

Lemma dial_protected directory config scheme host :
  ParseURL (ldap_URL config) = Some (scheme, host) → scheme = "ldaps" ∨ scheme = "ldap" ∧ ldap_StartTLS config = true →
  match dial directory config [] with
  | (Ok _, sent) => ∀ more, protected (sent ++ more)
  | (Err _, sent) => ∀ dn password, Bind dn password ∉ sent
  end.
Proof.
  intros Hurl Hs. unfold dial. rewrite Hurl. unfold mbind, Conversation_bind, send. cbn [app].
  destruct (directory_Accepts directory _); [|intros dn pw Hin; by apply list_elem_of_singleton in Hin]. cbv zeta.
  destruct Hs as [->|[-> ->]].
  - rewrite bool_decide_eq_false_2 by done. cbn. intros more. eexists _, _, more. split; [done|]. left. by exists host.
  - rewrite bool_decide_eq_true_2 by done. cbn [andb]. destruct (directory_Accepts directory _).
    + intros more. eexists _, _, _. split; [done|]. right. by eexists _, _.
    + intros dn pw Hin. repeat (apply elem_of_cons in Hin as [Hin|Hin]; [done|]). by apply not_elem_of_nil in Hin.
Qed.

(** With a provider that [New] accepts no password is sent before TLS. *)
Theorem ldap_passwords_protected directory config0 config username password :
  New config0 = Ok config → binds_protected (Authenticate directory config username password []).2.
Proof.
  intros (scheme & host & Hurl & Hs)%New_scheme. pose proof (dial_protected directory config scheme host Hurl Hs) as Hdial.
  unfold Authenticate. destruct (_ || bool_decide (password = "")); [intros dn pw Hin; by apply not_elem_of_nil in Hin|]. rewrite bind_sent.
  destruct (dial directory config []) as [[u|e] s1]; [|intros dn pw Hin; by apply Hdial in Hin].
  match goal with |- binds_protected (?k s1).2 => assert (Hk : extends k) end.
  { apply extends_bind; [apply extends_send|intros _]. apply extends_bind; [apply extends_send|intros _].
    apply extends_bind; [by apply extends_same|]. intros [|entry [|]]; [by apply extends_same| |by apply extends_same].
    apply extends_bind; [apply extends_send|intros _]. by apply extends_same. }
  destruct (Hk s1) as [more ->]. intros dn pw _. apply Hdial.
Qed.
End Conversation.

(** ** At a concrete directory *)

(** Every byte that has a meaning in a filter, and the backslash, as two
    hexadecimal digits. *)
Definition escape_byte (a : Ascii.ascii) : bytes :=
  if structural a || (byte a =? 92) then [ascii_of 92; hex_digit (byte a / 16); hex_digit (byte a mod 16)] else [a].
#[local] Instance ex_ldap_text : LdapText.
Proof.
  refine {| EscapeFilter s := of_bytes (bytes_of s ≫= escape_byte) |}. intros s. rewrite bytes_of_of_bytes.
  induction (bytes_of s) as [|a l IH]; [constructor|]. cbn [mbind list_bind]. apply Forall_app. split; [|exact IH].
  unfold escape_byte. destruct (structural a) eqn:Ha; cbn [orb].
  - unfold structural in Ha. apply bool_decide_eq_true in Ha.
    repeat (apply elem_of_cons in Ha as [Ha|Ha]; [rewrite Ha; repeat constructor|]). by apply not_elem_of_nil in Ha.
  - destruct (Z.eqb_spec (byte a) 92) as [->|]; repeat constructor. exact Ha.
Defined.
#[local] Existing Instance ascii_unicode.
#[local] Instance ex_ldap_url : Url := {| ParseURL := λ s,
  if HasPrefix s "ldaps://" then Some ("ldaps", TrimPrefix s "ldaps://")
  else if HasPrefix s "ldap://" then Some ("ldap", TrimPrefix s "ldap://") else None |}.

Definition ex_ldap_config : LdapConfig :=
  mkLdapConfig "ldap://directory.example" "cn=reader" "reader-password" "dc=example" "" "" "" "" "" true false.
(** One account, whose password is the only one accepted for it. *)
Definition ex_account : Entry := mkEntry "uid=ann,dc=example" (λ a, if bool_decide (a = "uid") then "ann" else "") (λ _, []).
Definition ex_ldap_directory : Directory := mkDirectory
  (λ sent, match last sent with
           | Some (Bind dn password) => bool_decide ((dn, password) ∈ [("cn=reader", "reader-password"); ("uid=ann,dc=example", "secret")])
           | _ => true
           end)
  (λ sent, match last sent with
           | Some (Search request) =>
               if bool_decide (search_Filter request = "(&(objectClass=person)(|(uid=ann)(sAMAccountName=ann)(userPrincipalName=ann)))")
               then [ex_account] else []
           | _ => []
           end).

Example ex_sign_in :
  match New ex_ldap_config with
  | Ok config =>
      (Authenticate ex_ldap_directory config " ann " "secret" []).1 = Ok (mkProfile "uid=ann,dc=example" "ann" "" "" false []) ∧
      (Authenticate ex_ldap_directory config "ann" "wrong" []).1 = Err ErrInvalidLdapCredentials ∧
      (Authenticate ex_ldap_directory config "*" "secret" []).1 = Err ErrInvalidLdapCredentials
  | Err _ => False
  end.
Proof. vm_compute. done. Qed.
